(* ===== verification/_CoqProject ===== *)
-Q . S2P
Prelude.v
F64.v
Coins.v
Externals.v
Reference.v
Namespace.v
Address.v
Ordering.v
Cado.v
Records.v
Tx.v
TxCodes.v
Merkle.v
Wire.v
TxTyped.v
UserPost.v
Validation.v
Fee.v
Pinboard.v
AppState.v
Ledger.v
Processors.v
VerifiedProof.v
Deliver.v
Storage.v
Snapshot.v
Epoch.v
Commit.v
Restart.v
StateRoot.v
Slots.v
Capacity.v
Feed.v
Sync.v
Gc.v
Mempool.v
Outcome.v
Exchange.v
Paging.v
Prefix.v
StateSync.v
Indexer.v
IndexerSync.v
RestApi.v
RestReads.v
PinboardApi.v
PinboardFlow.v
AbciLimits.v
AbciQuery.v
Wallets.v
Client.v
ClientFlow.v
Registration.v
Deletion.v
Config.v
Genesis.v
Gossip.v
Identity.v
Constants.v
ClientRest.v
