(* ===== verification/Prelude.v ===== *)
(** * Eld chain: the replicated state machine of the node

    The program is a Tendermint application (crates [common], [node_app],
    [client] under src/).  Consensus calls it once per block:
    [begin_block] copies the committed state, [deliver_tx] decodes, verifies,
    charges and processes each transaction, [end_block] opens epochs and
    selects validators and capacity challenges, [commit] persists.  State is an
    [AppState]: an envelope with staged and committed objects (CADOs, addressed
    by typed paths), validator and capacity-provider lists, registries and
    counters.  Capacity providers register a Merkle root over their chunks,
    are challenged once per epoch by the selected capacity validator, and are
    rewarded for verified proofs.  Around this core a node indexes transactions,
    answers ABCI and REST queries, keeps content in its capacity and exchanges
    it with its peers; the client crate reads and transacts through a node.

    ** Files, in dependency order

    - [Prelude]: results, the handler monad (explicit state, early return,
      fatal stop), machine integers at their width, strings and decimal text,
      the tactics [eld_case], [eld_bool], [flow_step], [bind_option].
    - [F64]: binary64 of the fee multipliers ([spec_float], precision 53).
    - [Coins]: coin.rs.
    - [Externals]: classes for the crates [hex], [base64], [sha2]/[blake3],
      [bincode], [ed25519-dalek], [rand], with the documented laws the code
      relies on; serde_json, url, urlencoding and the axum router are classes
      at their first use.
      [Reference]: a concrete instance of each, used by every witness, so the
      laws are satisfiable and the definitions evaluate.
    - [Namespace], [Address], [Cado], [Records], [Pinboard]: namespace.rs;
      address.rs, nonce.rs, challenge_id.rs, hex_encoding.rs; cado.rs;
      account.rs, staking_account.rs, validator.rs; pinboard.rs.
    - [Ordering]: comparators as lawful total orders and the stable sort of
      [sort_by].
    - [Tx], [Wire], [Validation]: common/src/tx (payload constructors, signing,
      verification), what serde reads from a JSON value, and validation.rs.
      [TxCodes]: countable codes of transactions, for the witnesses;
      [TxTyped]: what every decoded transaction satisfies; [UserPost]: the
      request a user signs and the post a validator builds of it.
    - [Fee]: fee.rs, protocol_constants.rs.
    - [Merkle]: capacity_proof_merkle_tree.rs, challenge_validator.rs.
    - [AppState], [Ledger]: app_state/ (envelope, lookups, registries, app
      hash); the account view of the envelope (balances, stakes, nonces) and
      its algebra, shared by the processors.
    - [Processors]: consensus/tx_processor except verified proofs.
      [VerifiedProof]: capacity_challenge.rs, verified_proof_processor.rs and
      rewards.rs.
    - [Deliver]: deliver_tx.rs and tx_deliver.rs.
    - [Storage], [Snapshot]: storage/rocksdb (keys, object rows, pinboard and
      outcome rows; the database is a record of maps) and the stored snapshot
      of app_state_snapshot.rs.
    - [Epoch]: epoch.rs, end_block.rs, challenges.rs.
    - [Commit], [Restart], [StateRoot]: begin_block.rs and commit.rs; start-up
      from the stored snapshot and init_chain.rs; what the app hash covers.
    - [Slots], [Capacity]: capacity/slot_allocator.rs and the capacity
      manager: the slot map, the capacity file, allocation, storing and
      deleting content, the tree over the slots.
    - [Feed], [Gc]: the paged pinboard listings with their rate limiter, and
      the garbage collector of expired content.
    - [Sync]: announce, request and response of content between peers, and
      the copy of committed blobs into slots.
    - [Mempool]: mempool/check_tx.rs.  [Outcome]: the recorded outcomes of
      challenges over deliveries, block ends and commits.
    - [Exchange]: the challenge and its answer between validator and provider,
      and the submission of the verified proof.
    - [Prefix]: the queries of stored objects by path prefix.
    - [StateSync]: the chunked snapshots (abci_interface/snapshot) and their
      rows (storage/rocksdb/snapshots.rs).
    - [Paging], [Indexer], [IndexerSync]: pages over a sorted list; the rows and
      queries of the transaction index (storage/rocksdb/indexer.rs, keys.rs);
      the loop that follows the chain (indexer/sync.rs) and the decoding of
      block transactions (client/src/api/abci/http.rs).
    - [RestApi], [RestReads], [PinboardApi], [PinboardFlow]: the REST errors and
      limiter and the handlers of transactions, events and rewards; those of
      objects, epochs, namespaces and slots; those of the pinboard; a post from
      its submission to its readers.
    - [AbciLimits], [AbciQuery]: abci_interface/info: the limiters, every query
      and Info.
    - [Wallets], [Client], [ClientFlow]: the wallet file and its lookups
      (client/src/facade/wallets.rs); the client's queries, broadcasts and
      transaction flows (client/src/api, client/src/facade); client and node
      together.
    - [Registration]: the transactions a provider sends about its capacity
      (capacity_registration.rs, on_ready.rs, capacity_manager/chain_txs.rs).
    - [Deletion]: deletion asked for by users (storage/rocksdb/cado/delete.rs).
    - [Config], [Genesis]: node_app/src/config, client/src/config, endpoint.rs;
      the state a node starts with (abci_interface/mod.rs).
    - [Constants]: the protocol constants over the life of a node: the whole
      [InitChain] handler, the stored row, the start of a process
      (init_chain.rs, storage/rocksdb/mod.rs, runtime/mod.rs), as a step
      relation with commits and restarts.
    - [ClientRest]: the client of the REST interface (client/src/api/rest,
      facade/pinboard.rs, facade/namespace.rs) with the routes of the node
      (node_app/src/api/mod.rs).
    - [Gossip]: the network of peers: dispatch, swarm commands and heartbeats
      (content/sync), as a step relation over nodes and published bytes.
    - [Identity]: the 32-byte ids behind one interface, node_identity.rs and the
      start of the capacity (runtime/capacity.rs).

    Definitions keep the names of the source; a method [m] of a type [T] is
    [T_m], and record fields carry a short prefix.  A processor is a handler
    on the envelope: [Next] continues, [Return] is an early [return] with the
    writes made so far kept, [Fatal] is [handle_fatal_eld_error] (the process
    stops).  Storage below the caches is read through [StorageReads].

    ** What the theorems show

    - Delivery: any bytes get an answer; those that fail a check before the
      charge change nothing; all others pay exactly the fee and advance the
      sender's nonce, and every balance and stake then moves by exactly what an
      accepted payload says, while a payload its processor refuses costs the fee
      (and, where a credit hits the coin cap, the debited amount)
      ([deliver_tx_correct]); bytes are never charged twice
      ([delivered_once]).
    - Processors: exact success conditions and exact effects on every
      balance, stake and nonce ([transfer_correct], [stake_correct],
      [unstake_correct], [verified_proof_correct]); the outcome
      recorded for the text of a challenge id is final
      ([challenge_has_one_outcome]), other spellings of the id excepted
      ([respelled_challenge_binds_again]).
    - Epochs: [end_block] is total on well-formed states and stores a
      readable record of what it selected ([end_block_correct]); selections
      are independent of list order and take the best stakes
      ([validator_selection_correct]) and distinct eligible providers
      ([capacity_selection_correct]); a published challenge is accepted by
      delivery with the same chunks and root ([issued_challenges_bind]).
    - Commit and restart: a block that is ready ([commit_ready]) commits, and
      the commit writes what was staged and nothing else the reads can tell
      ([commit_correct]); what was put reads back
      ([stored_object_reads_back]); a node restarted after the commit of an
      epoch's first block has the state it committed but for the failure counts
      of providers ([restart_restores_commit]), and the chunked snapshot made of
      it is served whole as long as its objects can be read back
      ([created_snapshot_served]).
    - Mempool: [check_tx] accepts what delivery charges, up to balances
      ([check_tx_agrees_with_delivery]), and refuses what a commit settled
      ([committed_tx_refused]).
    - Providers: storing and deleting content refine a map from keys to
      contents ([store_content_refines], [delete_content_refines]); whatever
      bytes are on the network, every provider stays consistent and none can
      be made to panic ([network_always_consistent]); content announced by one
      peer arrives at another in three messages ([announced_content_spreads]); a
      provider of less than 4 TiB registers exactly what it holds ([registration_matches_capacity]); an
      honest provider that is challenged is rewarded, from the challenge to the
      minted balance ([honest_provider_rewarded]).
    - Start: the state of a new chain has the accounts of the checked
      configuration, in whatever order they are met ([genesis_matches_config]);
      the protocol constants are fixed from the first committed block on, over
      restarts and repeated requests ([constants_fixed_for_chain]);
      a configuration that was changed after its checksum was saved is refused
      ([changed_config_refused]); a node comes up with the capacity it had
      ([node_starts_with_capacity]).
    - Index: in every state the indexer reaches the index holds exactly the
      transactions of the chain below the cursor ([index_follows_chain]), each
      written with all its rows ([index_transaction_refines]), its
      queries are exact ([index_queries_exact]) and the pages of the REST API
      list every match once ([transaction_pages_complete]); decoding ends
      except on one form of bytes ([block_tx_decoding_terminates]).
    - Transactions: what is decoded is well-typed ([decoded_tx_typed]);
      verification decides authenticity ([verify_authentic]); a
      signed request becomes a post that verifies
      ([signed_request_becomes_post]), an accepted submission sends exactly one
      affordable transaction ([submission_sound]), and a committed post is
      served to readers ([committed_post_served]).
    - Client: a query gives the client the account stored in the node
      ([client_reads_stored_account]), a transfer asked of the client for an
      account as a commit leaves it ([commit_settles_account]) is
      delivered ([client_transfer_delivered]) and a message posted through it
      becomes a transaction of the validator ([client_post_submitted]); its
      reads over REST are exact ([client_namespace_exact],
      [client_cado_exact], [client_post_exact]) but for two paths the node
      does not have ([missing_routes]); the limiters of both APIs are
      the policies they announce ([api_limiter_exact],
      [global_limiter_exact]).
    - Listings and collection: pages enumerate the index without gaps or
      repeats ([global_feed_pages]), the limiter never admits more than its
      quota ([rate_limit_respected]), a tick of the collector removes the
      first 200 of the contents it saw expire and nothing else
      ([gc_tick_correct]).
    - Merkle tree: proofs round-trip, incremental update equals rebuild, and
      an accepted answer commits to the registered leaves unless a collision
      is exhibited.
    - Signatures, fees, amounts, paths, slugs and wire checks: round trips,
      exact bounds, injective storage keys.
    - Error theorems state where the code departs from its intent (a burned
      transfer, a respelled challenge, a one-chunk provider, an unstake that
      keeps its rank, a stake read as an unstake, fee parameters that stop
      transfers, amounts read at nine decimals, a provider that fails without
      a failure, a submitter stranded by one rejected proof, live content
      collected, a restart inside an epoch that stops the node, balances the
      app hash does not cover, state sync that never restores a node, a post
      without its bytes that stops every node, posts in another's name, a
      missing wallet that goes unnoticed).

    ** Bounds and fuel

    Machine integers are [Z] with wrapping, saturation or checks written where
    the code has them ([wrap_u64], [saturating_add], [Coin_add]); release
    builds wrap.  Recursion is structural except [build_levels] (fuel: the
    number of leaves, shown sufficient), the decimal and hexadecimal
    printers (fuel: the number of digits of the type), the scan of a listing
    (fuel: the scan limit of the code), the splitting of content into
    pieces (fuel: its length) and the decoding of block transactions (fuel:
    the length of the bytes, shown sufficient exactly where the code ends).
    Hypotheses such as
    [ledger_wf] and [epoch_state_wf] say that stored records decode to values
    in the range of their machine types; operations preserve [ledger_wf].

    ** Not modelled

    Log lines and error texts; lock poisoning and the interleaving of tasks
    inside one operation; wall-clock stamps other than those a branch reads,
    which are arguments; permissions and owners of files and failing disks;
    the inside of RocksDB and libp2p (connections, discovery, the mesh); the
    HTTP and RPC transports and the CORS layer; command lines, the tasks a process starts, signals and
    shutdown.  The forwarding of storage traits (hybrid_storage.rs, traits.rs,
    transaction_indexer.rs) is inlined.  The listing of epoch records and the
    searches of storage/rocksdb/cado that no caller uses, and the copy of the
    Merkle tree in node_app/src/capacity, which is not part of the build, are
    left out.  The root of the state trie and the encodings of bincode and
    serde_json are parameters with the laws named in [Externals] and at their
    use.
*)
From Stdlib Require Export ZArith Lia.
From Stdlib Require Export Ascii String.
From stdpp Require Export base gmap strings list sorting fin_maps vector pretty numbers.
From Stdlib Require Strings.Byte.

Declare Scope eld_scope.
Delimit Scope eld_scope with eld.
Open Scope string_scope.
Open Scope list_scope.
Open Scope Z_scope.
Open Scope eld_scope.

(** ** Errors and results *)

(** [EldError] of common/src/error.rs.  The text fields [value] and [details]
    only feed log lines and are left out; the fields the code branches on or
    that name the failing check are kept. *)
Inductive EldError : Type :=
| NetworkError (operation : string)
| AuthError (operation : string)
| ValidationError (field : string)
| BasicValidationError
| NotFoundError (resource_type identifier : string)
| InsufficientResourceError (resource_type : string)
| ConfigError (file : string)
| FileSystemError (operation path : string)
| TransactionError (tx_type : string)
| WalletError (operation wallet_name : string)
| DeviceError (operation : string)
| InitializationError (component : string)
| StorageError (operation : string)
| CoinError (details : string)
| FeeError (operation details : string).

(** Rust's [Result<A, E>]. *)
Inductive result (E A : Type) : Type :=
| Ok (a : A)
| Err (e : E).
Arguments Ok {E A} a.
Arguments Err {E A} e.

Abbreviation eld_result := (result EldError).

(** The [?] operator: continue with the value or return the error. *)
Notation "'let?' x ':=' e 'in' k" :=
  (match e with Ok x => k | Err err => Err err end)
  (at level 10, x name, e at level 200, k at level 200) : eld_scope.

Definition is_ok {E A} (r : result E A) : bool :=
  match r with Ok _ => true | Err _ => false end.

Definition ok {E A} (r : result E A) : option A :=
  match r with Ok a => Some a | Err _ => None end.

Definition ok_or {E A} (o : option A) (e : E) : result E A :=
  match o with Some a => Ok a | None => Err e end.

(** Fold with early exit, Rust's [Iterator::try_fold]. *)
Fixpoint try_fold {E A B} (f : B → A → result E B) (b : B) (l : list A) : result E B :=
  match l with
  | [] => Ok b
  | a :: l => let? b' := f b a in try_fold f b' l
  end.

(** ** Handlers *)

(** Control flow of a handler that mutates a state [S] and answers [R]:
    it goes on, it returns early with the state written so far, or the process
    stops ([expect] on an error, [handle_fatal_eld_error]). *)
Inductive flow (S R A : Type) : Type :=
| Next (a : A) (s : S)
| Return (r : R) (s : S)
| Fatal.
Arguments Next {S R A} a s.
Arguments Return {S R A} r s.
Arguments Fatal {S R A}.

Definition handler (S R A : Type) : Type := S → flow S R A.

#[export] Instance handler_ret S R : MRet (handler S R) := λ A a s, Next a s.
#[export] Instance handler_bind S R : MBind (handler S R) := λ A B f m s,
  match m s with
  | Next a s' => f a s'
  | Return r s' => Return r s'
  | Fatal => Fatal
  end.

Section handlers.
Context {S R : Type}.

Definition get_state : handler S R S := λ s, Next s s.
Definition modify (f : S → S) : handler S R unit := λ s, Next tt (f s).
Definition return_early {A} (r : R) : handler S R A := λ s, Return r s.
Definition fatal {A} : handler S R A := λ _, Fatal.

(** [match e { Ok(x) => x, Err(e) => return k(e) }]. *)
Definition or_return {E A} (r : result E A) (k : E → R) : handler S R A :=
  match r with Ok a => mret a | Err e => return_early (k e) end.

(** [match o { Some(x) => x, None => return r }]. *)
Definition some_or_return {A} (o : option A) (r : R) : handler S R A :=
  match o with Some a => mret a | None => return_early r end.

(** [if c { return r; }]. *)
Definition return_if (c : bool) (r : R) : handler S R unit :=
  if c then return_early r else mret tt.

(** [r.expect(..)]: the process panics on [Err]. *)
Definition expect {E A} (r : result E A) : handler S R A :=
  match r with Ok a => mret a | Err _ => fatal end.

(** The answer and final state of a handler; [None] when the process stops. *)
Definition run (h : handler S R R) (s : S) : option (R * S) :=
  match h s with
  | Next r s' | Return r s' => Some (r, s')
  | Fatal => None
  end.
End handlers.

(** ** Machine integers *)

Definition u16_max : Z := 2 ^ 16 - 1.
Definition u32_max : Z := 2 ^ 32 - 1.
Definition u64_max : Z := 2 ^ 64 - 1.
Definition u128_max : Z := 2 ^ 128 - 1.
Definition i64_min : Z := - 2 ^ 63.
Definition i64_max : Z := 2 ^ 63 - 1.

(** A [w]-bit unsigned value. *)
Definition in_range (max n : Z) : Prop := 0 ≤ n ≤ max.

Definition checked_add (max a b : Z) : option Z :=
  if a + b <=? max then Some (a + b) else None.
Definition checked_sub (a b : Z) : option Z :=
  if b <=? a then Some (a - b) else None.
Definition checked_mul (max a b : Z) : option Z :=
  if a * b <=? max then Some (a * b) else None.
Definition checked_div (a b : Z) : option Z :=
  if b =? 0 then None else Some (a / b).
Definition checked_rem (a b : Z) : option Z :=
  if b =? 0 then None else Some (a mod b).
Definition saturating_add (max a b : Z) : Z := Z.min max (a + b).
Definition saturating_sub (a b : Z) : Z := Z.max 0 (a - b).

(** [as u64] of a signed or wider value, and two's complement wrap of an
    [i64] addition in a release build. *)
Definition as_u64 (n : Z) : Z := n mod 2 ^ 64.
Definition wrap_u64 (n : Z) : Z := n mod 2 ^ 64.
Definition wrap_u128 (n : Z) : Z := n mod 2 ^ 128.
Definition wrap_i64 (n : Z) : Z := (n + 2 ^ 63) mod 2 ^ 64 - 2 ^ 63.

(** [div_ceil] on unsigned integers. *)
Definition div_ceil (a b : Z) : Z := (a + b - 1) / b.

(** ** Bytes, characters and strings *)

Abbreviation byte := Init.Byte.byte.
Abbreviation bytes := (list byte).

(** [[u8; N]]. *)
Abbreviation byte_array n := (vec byte n).

#[export] Instance byte_eq_dec : EqDecision byte := Byte.byte_eq_dec.
#[export, program] Instance byte_countable : Countable byte :=
  inj_countable Byte.to_N Byte.of_N _.
Next Obligation. intros b. apply Byte.of_to_N. Qed.
#[export] Instance byte_inhabited : Inhabited byte := populate Init.Byte.x00.

(** Rust's derived [Ord] on byte arrays and slices: lexicographic. *)
Fixpoint bytes_compare (a b : bytes) : comparison :=
  match a, b with
  | [], [] => Eq
  | [], _ :: _ => Lt
  | _ :: _, [] => Gt
  | x :: a, y :: b =>
      match N.compare (Byte.to_N x) (Byte.to_N y) with
      | Eq => bytes_compare a b
      | c => c
      end
  end.

(** A Rust [String] is its UTF-8 byte sequence, one [ascii] per byte. *)
Definition as_bytes (s : string) : bytes := map Ascii.byte_of_ascii (String.list_ascii_of_string s).

Definition ascii_between (lo hi : N) (c : Ascii.ascii) : bool :=
  (lo <=? Ascii.N_of_ascii c)%N && (Ascii.N_of_ascii c <=? hi)%N.

Definition is_ascii_digit (c : Ascii.ascii) : bool := ascii_between 48 57 c.
Definition is_ascii_lowercase (c : Ascii.ascii) : bool := ascii_between 97 122 c.
Definition is_ascii_uppercase (c : Ascii.ascii) : bool := ascii_between 65 90 c.
Definition is_ascii_alphanumeric (c : Ascii.ascii) : bool :=
  is_ascii_digit c || is_ascii_lowercase c || is_ascii_uppercase c.
Definition is_ascii_hexdigit (c : Ascii.ascii) : bool :=
  is_ascii_digit c || ascii_between 97 102 c || ascii_between 65 70 c.

Definition ascii_to_lower (c : Ascii.ascii) : Ascii.ascii :=
  if is_ascii_uppercase c then Ascii.ascii_of_N (Ascii.N_of_ascii c + 32) else c.

Fixpoint string_all (p : Ascii.ascii → bool) (s : string) : bool :=
  match s with
  | EmptyString => true
  | String c s => p c && string_all p s
  end.

Fixpoint string_map (f : Ascii.ascii → Ascii.ascii) (s : string) : string :=
  match s with
  | EmptyString => EmptyString
  | String c s => String (f c) (string_map f s)
  end.

(** [str::to_ascii_lowercase], [starts_with], [ends_with], [contains]. *)
Definition to_ascii_lowercase (s : string) : string := string_map ascii_to_lower s.

Definition starts_with (p s : string) : bool := String.prefix p s.

Fixpoint contains (p s : string) : bool :=
  starts_with p s ||
  match s with EmptyString => false | String _ s' => contains p s' end.

Fixpoint ends_with_char (c : Ascii.ascii) (s : string) : bool :=
  match s with
  | EmptyString => false
  | String c' EmptyString => Ascii.eqb c c'
  | String _ s => ends_with_char c s
  end.

(** [str::split] on one character. *)
Fixpoint split_on (c : Ascii.ascii) (s : string) : list string :=
  match s with
  | EmptyString => [EmptyString]
  | String c' s =>
      if Ascii.eqb c c' then EmptyString :: split_on c s
      else match split_on c s with
           | [] => [String c' EmptyString]
           | w :: ws => String c' w :: ws
           end
  end.

Definition string_take (n : nat) (s : string) : string := String.substring 0 n s.
Definition string_drop (n : nat) (s : string) : string :=
  String.substring n (String.length s - n) s.

(** ** Decimal text of unsigned integers *)

Definition digit_ascii (d : Z) : Ascii.ascii := Ascii.ascii_of_N (Z.to_N (48 + d)).
Definition ascii_digit (c : Ascii.ascii) : option Z :=
  if is_ascii_digit c then Some (Z.of_N (Ascii.N_of_ascii c) - 48) else None.

(** Digits of [n], most significant first, in front of [acc]; 40 digits are
    enough for a [u128]. *)
Fixpoint dec_digits (fuel : nat) (n : Z) (acc : string) : string :=
  match fuel with
  | O => acc
  | S f =>
      let acc' := String (digit_ascii (n mod 10)) acc in
      if n <? 10 then acc' else dec_digits f (n / 10) acc'
  end.

Definition to_string (n : Z) : string := dec_digits 40 n EmptyString.

(** [ToString] of a signed integer. *)
Definition to_string_i64 (n : Z) : string :=
  if n <? 0 then String.append "-" (to_string (- n)) else to_string n.

Fixpoint parse_digits (max : Z) (s : string) (acc : Z) : option Z :=
  match s with
  | EmptyString => Some acc
  | String c s =>
      match ascii_digit c with
      | None => None
      | Some d =>
          match checked_mul max acc 10 with
          | None => None
          | Some m =>
              match checked_add max m d with
              | None => None
              | Some v => parse_digits max s v
              end
          end
      end
  end.

(** [str::parse::<uN>()]: an optional [+], then at least one decimal digit,
    within the range of the type. *)
Definition parse_unsigned (max : Z) (s : string) : option Z :=
  match s with
  | EmptyString => None
  | String c s' =>
      if Ascii.eqb c "+"%char then
        match s' with EmptyString => None | _ => parse_digits max s' 0 end
      else parse_digits max s 0
  end.

(** [format!("{n:0>w}")] / [{:0w}]: left pad with zeros to width [w]. *)
Definition pad_zeros (w : nat) (s : string) : string :=
  String.append (String.string_of_list_ascii (replicate (w - String.length s) "0"%char)) s.

(** ** Hint databases and tactics *)

Create HintDb eld discriminated.

(** Split the conditions of an [if] or [match] in the goal or a hypothesis. *)
Ltac eld_case :=
  match goal with
  | |- context [if ?c then _ else _] => destruct c eqn:?
  | H : context [if ?c then _ else _] |- _ => destruct c eqn:?
  | |- context [match ?c with Ok _ => _ | Err _ => _ end] => destruct c eqn:?
  | H : context [match ?c with Ok _ => _ | Err _ => _ end] |- _ => destruct c eqn:?
  | |- context [match ?c with Some _ => _ | None => _ end] => destruct c eqn:?
  | H : context [match ?c with Some _ => _ | None => _ end] |- _ => destruct c eqn:?
  end.

(** Boolean comparisons to propositions. *)
Ltac eld_bool :=
  repeat match goal with
  | H : (_ && _) = true |- _ => apply andb_true_iff in H; destruct H
  | H : (_ || _) = false |- _ => apply orb_false_iff in H; destruct H
  | H : negb _ = true |- _ => apply negb_true_iff in H
  | H : negb _ = false |- _ => apply negb_false_iff in H
  | H : (_ <=? _) = true |- _ => apply Z.leb_le in H
  | H : (_ <=? _) = false |- _ => apply Z.leb_gt in H
  | H : (_ <? _) = true |- _ => apply Z.ltb_lt in H
  | H : (_ <? _) = false |- _ => apply Z.ltb_ge in H
  | H : (_ =? _) = true |- _ => apply Z.eqb_eq in H
  | H : (_ =? _) = false |- _ => apply Z.eqb_neq in H
  | H : bool_decide _ = true |- _ => apply bool_decide_eq_true_1 in H
  | H : bool_decide _ = false |- _ => apply bool_decide_eq_false_1 in H
  end.

(** Take the option binds of the hypotheses apart. *)
Ltac bind_option :=
  repeat match goal with
  | Hb : (_ ≫= _) = Some _ |- _ =>
      apply bind_Some in Hb; let x := fresh "x" in let Hx := fresh "Hx" in
      destruct Hb as (x & Hx & Hb); cbv beta zeta in Hb
  end.

(** Unfold the bind of a handler one step. *)
Ltac flow_step :=
  unfold mbind, handler_bind, mret, handler_ret, or_return, some_or_return,
    return_if, expect, return_early, get_state, modify, fatal in *.

(** ** Generic lemmas *)

Lemma checked_add_Some max a b c :
  checked_add max a b = Some c ↔ c = a + b ∧ a + b ≤ max.
Proof. unfold checked_add. eld_case; eld_bool; split; intros; destruct_and?; simplify_eq; first [lia | f_equal; lia | done]. Qed.

Lemma checked_sub_Some a b c : checked_sub a b = Some c ↔ c = a - b ∧ b ≤ a.
Proof. unfold checked_sub. eld_case; eld_bool; split; intros; destruct_and?; simplify_eq; first [lia | f_equal; lia | done]. Qed.

Lemma checked_mul_Some max a b c :
  checked_mul max a b = Some c ↔ c = a * b ∧ a * b ≤ max.
Proof. unfold checked_mul. eld_case; eld_bool; split; intros; destruct_and?; simplify_eq; first [lia | f_equal; lia | done]. Qed.

Lemma wrap_i64_small n : i64_min ≤ n ≤ i64_max → wrap_i64 n = n.
Proof.
  unfold wrap_i64, i64_min, i64_max. intros H.
  rewrite Z.mod_small; lia.
Qed.

Lemma as_u64_small n : 0 ≤ n ≤ u64_max → as_u64 n = n.
Proof. unfold as_u64, u64_max. intros H. rewrite Z.mod_small; lia. Qed.

Lemma try_fold_app {E A B} (f : B → A → result E B) b l1 l2 :
  try_fold f b (l1 ++ l2) =
  match try_fold f b l1 with Ok b' => try_fold f b' l2 | Err e => Err e end.
Proof.
  revert b. induction l1 as [|a l1 IH]; intros b; simpl; [done|].
  by destruct (f b a).
Qed.

(** *** Decimal round trip *)

Lemma ascii_digit_digit d : 0 ≤ d < 10 → ascii_digit (digit_ascii d) = Some d.
Proof.
  intros H.
  assert (d ∈ [0;1;2;3;4;5;6;7;8;9]) as Hin.
  { repeat rewrite elem_of_cons. lia. }
  repeat (apply elem_of_cons in Hin as [->|Hin]; [reflexivity|]).
  by apply elem_of_nil in Hin.
Qed.

Lemma parse_digits_prefix max fuel n acc a :
  0 ≤ n < 10 ^ Z.of_nat fuel → 0 ≤ a →
  a * 10 ^ Z.of_nat fuel + n ≤ max → a = 0 →
  (0 < fuel)%nat →
  parse_digits max (dec_digits fuel n acc) a = parse_digits max acc n.
Proof.
  revert n acc. induction fuel as [|f IH]; intros n acc Hn Ha Hm Hz Hf; [lia|].
  subst a. simpl dec_digits.
  assert (0 ≤ n mod 10 < 10) as Hd by (apply Z.mod_pos_bound; lia).
  destruct (n <? 10) eqn:Hlt; eld_bool.
  - simpl. rewrite ascii_digit_digit by done.
    rewrite Z.mod_small by lia. unfold checked_mul, checked_add.
    destruct (0 * 10 <=? max) eqn:E1; eld_bool; [|lia].
    destruct (0 * 10 + n <=? max) eqn:E2; eld_bool; [|lia].
    f_equal; lia.
  - rewrite Nat2Z.inj_succ, Z.pow_succ_r in Hn by lia.
    assert (0 < n / 10) by (apply Z.div_str_pos; lia).
    assert (n = 10 * (n / 10) + n mod 10) as Hdm by (apply Z.div_mod; lia).
    assert (0 < f)%nat. { destruct f; [simpl in Hn; lia|lia]. }
    rewrite IH; [|lia..].
    simpl. rewrite ascii_digit_digit by done.
    unfold checked_mul, checked_add.
    destruct (n / 10 * 10 <=? max) eqn:E1; eld_bool; [|lia].
    destruct (n / 10 * 10 + n mod 10 <=? max) eqn:E2; eld_bool; [|lia].
    f_equal; lia.
Qed.

Lemma dec_digits_not_plus fuel n acc :
  (0 < fuel)%nat →
  ∃ d s, 0 ≤ d < 10 ∧ dec_digits fuel n acc = String (digit_ascii d) s.
Proof.
  revert n acc. induction fuel as [|f IH]; intros n acc H; [lia|].
  simpl. assert (0 ≤ n mod 10 < 10) by (apply Z.mod_pos_bound; lia).
  destruct (n <? 10); [eauto|].
  destruct f as [|f]; [eauto|]. apply IH. lia.
Qed.

Lemma parse_to_string max n :
  0 ≤ n ≤ max → n < 10 ^ 40 → parse_unsigned max (to_string n) = Some n.
Proof.
  intros Hn Hb. unfold to_string.
  assert (parse_digits max (dec_digits 40 n EmptyString) 0 = Some n) as Hp.
  { rewrite parse_digits_prefix; [done|lia..]. }
  destruct (dec_digits_not_plus 40 n EmptyString) as (d & s & Hd & Heq); [lia|].
  rewrite Heq in Hp |- *. unfold parse_unsigned.
  assert (d ∈ [0;1;2;3;4;5;6;7;8;9]) as Hin.
  { repeat rewrite elem_of_cons. lia. }
  repeat (apply elem_of_cons in Hin as [->|Hin]; [exact Hp|]).
  by apply elem_of_nil in Hin.
Qed.

Lemma parse_digits_range max s acc n :
  0 ≤ acc ≤ max → parse_digits max s acc = Some n → 0 ≤ n ≤ max.
Proof.
  revert acc. induction s as [|c s IH]; intros acc Ha; simpl; [by intros [= <-]|].
  unfold ascii_digit. destruct (is_ascii_digit c) eqn:Ed; [|done].
  destruct (checked_mul max acc 10) as [m|] eqn:Em; [|done].
  destruct (checked_add max m _) as [v|] eqn:Ev; [|done].
  apply checked_mul_Some in Em. apply checked_add_Some in Ev. apply IH.
  unfold is_ascii_digit, ascii_between in Ed. apply andb_true_iff in Ed as [Hd _].
  apply N.leb_le in Hd. lia.
Qed.

Lemma parse_unsigned_range max s n : 0 ≤ max → parse_unsigned max s = Some n → 0 ≤ n ≤ max.
Proof.
  intros Hm. unfold parse_unsigned. destruct s as [|c s]; [done|].
  case_match; [destruct s; [done|]|]; apply parse_digits_range; lia.
Qed.

(** *** Strings *)

Lemma string_all_impl (p q : ascii → bool) s :
  (∀ c, p c = true → q c = true) → string_all p s = true → string_all q s = true.
Proof.
  intros Hpq. induction s as [|c s IH]; simpl; [done|].
  intros H. eld_bool. rewrite Hpq, IH; auto.
Qed.

Lemma string_all_app (p : ascii → bool) s t :
  string_all p (String.append s t) = string_all p s && string_all p t.
Proof.
  induction s as [|c s IH]; simpl; [done|]. by rewrite IH, andb_assoc.
Qed.

Lemma string_length_app s t :
  String.length (String.append s t) = (String.length s + String.length t)%nat.
Proof. induction s as [|c s IH]; simpl; [done|]. by rewrite IH. Qed.

Lemma split_on_none c s :
  string_all (λ c', negb (Ascii.eqb c c')) s = true → split_on c s = [s].
Proof.
  induction s as [|c' s IH]; simpl; [done|]. intros H. eld_bool.
  rewrite H, IH by done. done.
Qed.

Lemma split_on_app c s t :
  string_all (λ c', negb (Ascii.eqb c c')) s = true →
  split_on c (String.append s (String c t)) = s :: split_on c t.
Proof.
  induction s as [|c' s IH]; simpl.
  - by rewrite Ascii.eqb_refl.
  - intros H. eld_bool. rewrite H, IH by done. done.
Qed.

Lemma is_ascii_digit_digit d : 0 ≤ d < 10 → is_ascii_digit (digit_ascii d) = true.
Proof.
  intros H. generalize (ascii_digit_digit d H). unfold ascii_digit.
  by destruct (is_ascii_digit (digit_ascii d)).
Qed.

Lemma dec_digits_all_digits fuel n acc :
  string_all is_ascii_digit acc = true →
  string_all is_ascii_digit (dec_digits fuel n acc) = true.
Proof.
  revert n acc. induction fuel as [|f IH]; intros n acc H; simpl; [done|].
  assert (string_all is_ascii_digit (String (digit_ascii (n mod 10)) acc) = true).
  { simpl. rewrite is_ascii_digit_digit; [done|]. apply Z.mod_pos_bound; lia. }
  destruct (n <? 10); auto.
Qed.

Lemma to_string_all_digits n : string_all is_ascii_digit (to_string n) = true.
Proof. by apply dec_digits_all_digits. Qed.

Lemma dec_digits_length fuel n acc k :
  0 ≤ n < 10 ^ Z.of_nat k → (0 < k)%nat →
  (String.length (dec_digits fuel n acc) ≤ String.length acc + k)%nat.
Proof.
  revert n acc k. induction fuel as [|f IH]; intros n acc k Hn Hk; simpl; [lia|].
  destruct (n <? 10) eqn:E; eld_bool; simpl; [lia|].
  destruct k as [|k]; [lia|].
  rewrite Nat2Z.inj_succ, Z.pow_succ_r in Hn by lia.
  assert (0 < k)%nat. { destruct k; simpl in Hn; lia. }
  assert (0 ≤ n / 10 < 10 ^ Z.of_nat k).
  { split; [apply Z.div_pos; lia|]. apply Z.div_lt_upper_bound; lia. }
  etransitivity; [by apply (IH _ _ k)|]. simpl. lia.
Qed.

#[global] Arguments dec_digits : simpl never.
#[global] Arguments to_string : simpl never.

Lemma parse_digits_zeros max k s :
  0 ≤ max → parse_digits max (String.append
    (String.string_of_list_ascii (replicate k "0"%char)) s) 0 = parse_digits max s 0.
Proof.
  intros Hm. induction k as [|k IH]; [done|].
  change (parse_digits max (String "0" (String.append
    (String.string_of_list_ascii (replicate k "0"%char)) s)) 0 = parse_digits max s 0).
  cbn [parse_digits].
  change (ascii_digit "0"%char) with (Some 0). unfold checked_mul, checked_add.
  change (0 * 10) with 0.
  assert ((0 <=? max) = true) as -> by by apply Z.leb_le.
  change (0 + 0) with 0.
  assert ((0 <=? max) = true) as -> by by apply Z.leb_le. exact IH.
Qed.

(** A zero-padded decimal parses to the same value. *)
Lemma parse_pad_zeros max w n :
  0 ≤ n ≤ max → n < 10 ^ 40 →
  parse_unsigned max (pad_zeros w (to_string n)) = Some n.
Proof.
  intros Hn Hb. pose proof (parse_to_string max n Hn Hb) as Hp.
  unfold pad_zeros. destruct (w - String.length (to_string n))%nat as [|k]; [done|].
  change (parse_digits max (String.append
    (String.string_of_list_ascii (replicate (S k) "0"%char)) (to_string n)) 0 = Some n).
  rewrite parse_digits_zeros by lia.
  unfold parse_unsigned in Hp. destruct (to_string n) as [|c s] eqn:Es; [done|].
  assert (string_all is_ascii_digit (String c s) = true) as Hd.
  { rewrite <- Es. apply to_string_all_digits. }
  simpl in Hd. eld_bool. destruct (Ascii.eqb_spec c "+"%char); [by subst|done].
Qed.

Lemma digits_no_dot s :
  string_all is_ascii_digit s = true →
  string_all (λ c', negb (Ascii.eqb "."%char c')) s = true.
Proof.
  apply string_all_impl. intros c H. destruct (Ascii.eqb_spec "."%char c); [by subst|done].
Qed.

Lemma string_all_replicate (p : ascii → bool) k c :
  p c = true → string_all p (String.string_of_list_ascii (replicate k c)) = true.
Proof. intros H. induction k; simpl; [done|]. by rewrite H. Qed.

Lemma pad_zeros_all_digits w n :
  string_all is_ascii_digit (pad_zeros w (to_string n)) = true.
Proof.
  unfold pad_zeros. rewrite string_all_app, to_string_all_digits, andb_true_r.
  by apply string_all_replicate.
Qed.

Lemma length_string_replicate k c :
  String.length (String.string_of_list_ascii (replicate k c)) = k.
Proof. induction k; simpl; auto. Qed.

Lemma pad_zeros_length w n :
  0 ≤ n < 10 ^ Z.of_nat w → (0 < w)%nat →
  String.length (pad_zeros w (to_string n)) = w.
Proof.
  intros Hn Hw. unfold pad_zeros.
  rewrite string_length_app, length_string_replicate.
  pose proof (dec_digits_length 40 n EmptyString w Hn Hw) as H.
  change (String.length EmptyString) with 0%nat in H.
  unfold to_string. lia.
Qed.
