(* ===== verification/F64.v ===== *)
(** IEEE 754 binary64, the [f64] of the fee and ratio computations.

    The executable model is [spec_float] of the Standard Library (no axioms)
    at precision 53 and exponent bound 1024; casts follow the Rust reference:
    integer to float rounds to nearest even, float to integer truncates toward
    zero and saturates, with NaN mapped to 0. *)
From Stdlib Require Import SpecFloat.
From S2P Require Import Prelude.

Definition f64 : Type := spec_float.

Definition prec : Z := 53.
Definition emax : Z := 1024.

(** [n as f64] for an unsigned [n], and the float literal [n.0]. *)
Definition f64_of_Z (n : Z) : f64 := binary_normalize prec emax n 0 false.

Definition f64_mul (a b : f64) : f64 := SFmul prec emax a b.
Definition f64_div (a b : f64) : f64 := SFdiv prec emax a b.
Definition f64_sub (a b : f64) : f64 := SFsub prec emax a b.
Definition f64_leb (a b : f64) : bool := SFleb a b.

(** [x as u128]. *)
Definition f64_to_u128 (x : f64) : Z :=
  match x with
  | S754_nan | S754_zero _ | S754_infinity true | S754_finite true _ _ => 0
  | S754_infinity false => u128_max
  | S754_finite false m e => Z.min u128_max (Z.shiftl (Zpos m) e)
  end.

Lemma f64_to_u128_range x : in_range u128_max (f64_to_u128 x).
Proof.
  unfold in_range, f64_to_u128.
  assert (0 ≤ u128_max) by (unfold u128_max; lia).
  destruct x as [[]|[]| |[] m e]; try lia.
  assert (0 ≤ Z.shiftl (Z.pos m) e) by (apply Z.shiftl_nonneg; lia). lia.
Qed.
