(* ===== verification/Coins.v ===== *)
(** The base-unit amount type of common/src/coin.rs: constructors, checked
    arithmetic and text forms, and the laws they satisfy. *)
From S2P Require Import Prelude F64.

(** ** Data and operations *)

(** constants::token *)
Definition MAX_COIN_DECIMALS : Z := 1000000.
Definition MAX_COIN_UNITS : Z := 1000000000.
Definition MAX_COIN : Z := MAX_COIN_DECIMALS * MAX_COIN_UNITS.

(** [pub struct Coin(u128)] *)
Record Coin : Type := mkCoin { coin_amount : Z }.

#[export] Instance Coin_eq_dec : EqDecision Coin.
Proof. solve_decision. Defined.

Definition CoinResult : Type := eld_result Coin.

Definition Coin_new (amount : Z) : CoinResult :=
  if MAX_COIN <? amount then Err (CoinError "exceeds maximum coin value")
  else Ok (mkCoin amount).

Definition Coin_max : Coin := mkCoin MAX_COIN.
Definition Coin_zero : Coin := mkCoin 0.
Definition Coin_unit : Coin := mkCoin 1.
Definition Coin_one : Coin := mkCoin MAX_COIN_DECIMALS.
Definition Coin_is_zero (c : Coin) : bool := coin_amount c =? 0.

(** Derived [PartialOrd]. *)
Definition Coin_ltb (a b : Coin) : bool := coin_amount a <? coin_amount b.
Definition Coin_compare (a b : Coin) : comparison := Z.compare (coin_amount a) (coin_amount b).

(** [Coin::checked_add] *)
Definition Coin_checked_add (a b : Coin) : option Coin :=
  match checked_add u128_max (coin_amount a) (coin_amount b) with
  | None => None
  | Some v => ok (Coin_new v)
  end.

(** [Coin::ratio] *)
Definition Coin_ratio (a b : Coin) : eld_result f64 :=
  if coin_amount b =? 0 then Err (CoinError "Coin divide by zero")
  else Ok (f64_div (f64_of_Z (coin_amount a)) (f64_of_Z (coin_amount b))).

(** [Coin::to_decimal_string] *)
Definition Coin_to_decimal_string (c : Coin) : string :=
  let whole := coin_amount c / MAX_COIN_DECIMALS in
  let decimal := coin_amount c mod MAX_COIN_DECIMALS in
  if decimal =? 0 then to_string whole
  else String.append (to_string whole)
         (String.append "." (pad_zeros 6 (to_string decimal))).

(** [is_char_boundary(9)] of a string longer than 9 bytes: the byte there is
    not a UTF-8 continuation byte. *)
Definition char_boundary_9 (s : string) : bool :=
  match String.get 9 s with
  | None => true
  | Some c => negb (ascii_between 128 191 c)
  end.

(** [Coin::from_string].  [None] is the panic of slicing [decimal[..9]] inside
    a multi-byte character; the [u128] product and sum wrap as in a release
    build. *)
Definition Coin_from_string (s : string) : option CoinResult :=
  match split_on "."%char s with
  | [whole] =>
      match parse_unsigned u128_max whole with
      | None => Some (Err (CoinError "Invalid whole number"))
      | Some whole_val => Some (Coin_new (wrap_u128 (whole_val * MAX_COIN_DECIMALS)))
      end
  | [whole; decimal] =>
      match parse_unsigned u128_max whole with
      | None => Some (Err (CoinError "Invalid whole number"))
      | Some whole_val =>
          if ((9 <? String.length decimal)%nat && negb (char_boundary_9 decimal))%bool
          then None
          else
            let decimal_str :=
              if (9 <? String.length decimal)%nat then string_take 9 decimal else decimal in
            match parse_unsigned u128_max decimal_str with
            | None => Some (Err (CoinError "Invalid decimal number"))
            | Some decimal_val =>
                let multiplier := 10 ^ Z.of_nat (9 - String.length decimal_str) in
                Some (Coin_new (wrap_u128 (wrap_u128 (whole_val * MAX_COIN_DECIMALS)
                                      + decimal_val * multiplier)))
            end
      end
  | _ => Some (Err (CoinError "Invalid coin format"))
  end.

(** [impl Display for Coin] *)
Definition Coin_display (c : Coin) : string :=
  String.append (to_string (coin_amount c / MAX_COIN_DECIMALS))
    (String.append "." (pad_zeros 6 (to_string (coin_amount c mod MAX_COIN_DECIMALS)))).

(** [impl FromStr for Coin] *)
Definition Coin_from_str (s : string) : CoinResult :=
  match parse_unsigned u128_max s with
  | None => Err (CoinError "Cannot parse a valid integer")
  | Some v => Coin_new v
  end.

(** [impl Serialize], and the visitor's [visit_str] of [impl Deserialize]. *)
Definition Coin_serialize (c : Coin) : string := to_string (coin_amount c).
Definition Coin_visit_str (s : string) : CoinResult :=
  match parse_unsigned u128_max s with
  | None => Err (CoinError "serde: invalid digit")
  | Some amount => Coin_new amount
  end.

(** [impl Add for Coin] (by value and by reference). *)
Definition Coin_add (a b : Coin) : CoinResult :=
  match checked_add u128_max (coin_amount a) (coin_amount b) with
  | None => Err (CoinError "Integer overflow during coin addition")
  | Some v => Coin_new v
  end.

(** [impl Sub for Coin] *)
Definition Coin_sub (a b : Coin) : CoinResult :=
  match checked_sub (coin_amount a) (coin_amount b) with
  | None => Err (CoinError "Coin cannot hold a negative value")
  | Some v => Coin_new v
  end.

(** [impl Sub<Coin> for CoinResult] *)
Definition Coin_sub_result (a : CoinResult) (b : Coin) : CoinResult :=
  let? coin := a in
  if coin_amount coin <? coin_amount b then Err (CoinError "Coin cannot hold a negative value")
  else Ok (mkCoin (coin_amount coin - coin_amount b)).

(** [impl Mul<u128> for Coin] *)
Definition Coin_mul_u128 (a : Coin) (m : Z) : CoinResult :=
  let? v := ok_or (checked_mul u128_max (coin_amount a) m)
              (CoinError "Integer overflow during coin multiplication") in
  Coin_new v.

(** [impl Mul<Coin> for Coin] *)
Definition Coin_mul (a b : Coin) : CoinResult :=
  let? v := ok_or (checked_mul u128_max (coin_amount a) (coin_amount b))
              (CoinError "Integer overflow during coin multiplication") in
  Coin_new v.

(** [impl Div<u128>], [impl Div<Coin>], [impl Rem<u128>] *)
Definition Coin_div_u128 (a : Coin) (m : Z) : CoinResult :=
  let? v := ok_or (checked_div (coin_amount a) m) (CoinError "Coin divide by zero") in
  Ok (mkCoin v).

Definition Coin_div (a b : Coin) : CoinResult :=
  if coin_amount b =? 0 then Err (CoinError "Coin divide by zero")
  else Ok (mkCoin (coin_amount a / coin_amount b)).

Definition Coin_rem_u128 (a : Coin) (m : Z) : CoinResult :=
  let? v := ok_or (checked_rem (coin_amount a) m) (CoinError "Coin divide by zero") in
  Ok (mkCoin v).

(** [sum_coins] *)
Definition sum_coins (coins : list Coin) : CoinResult := try_fold Coin_add Coin_zero coins.

(** The type invariant: no constructor yields a value above the supply cap. *)
Definition coin_wf (c : Coin) : Prop := 0 ≤ coin_amount c ≤ MAX_COIN.

(** Mathematical total of a list of coins. *)
Definition coins_total (coins : list Coin) : Z := foldr (λ c n, coin_amount c + n) 0 coins.

(** ** Laws *)

Lemma Coin_new_Ok n c : Coin_new n = Ok c ↔ c = mkCoin n ∧ n ≤ MAX_COIN.
Proof.
  unfold Coin_new. eld_case; eld_bool; split; intros; destruct_and?; simplify_eq;
    first [lia | done].
Qed.

Lemma MAX_COIN_u128 : 2 * MAX_COIN ≤ u128_max.
Proof. done. Qed.

Lemma Coin_add_Ok a b c :
  coin_wf a → coin_wf b →
  Coin_add a b = Ok c ↔
  coin_amount c = coin_amount a + coin_amount b ∧ coin_amount a + coin_amount b ≤ MAX_COIN.
Proof.
  pose proof MAX_COIN_u128. unfold coin_wf, Coin_add, checked_add. intros Ha Hb.
  destruct (_ <=? u128_max) eqn:E; eld_bool; [|lia].
  rewrite Coin_new_Ok. destruct c as [n]. simpl. split; intros [? ?]; simplify_eq; auto.
Qed.

Lemma Coin_sub_Ok a b c :
  coin_wf a → coin_wf b →
  Coin_sub a b = Ok c ↔
  coin_amount c = coin_amount a - coin_amount b ∧ coin_amount b ≤ coin_amount a.
Proof.
  unfold coin_wf, Coin_sub, checked_sub. intros Ha Hb.
  destruct (_ <=? coin_amount a) eqn:E; eld_bool.
  - rewrite Coin_new_Ok. destruct c as [n]. simpl.
    split; intros [? ?]; simplify_eq; (split; [done|lia]).
  - split; [done|lia].
Qed.

Lemma Coin_mul_Ok a b c :
  coin_wf a → coin_wf b →
  Coin_mul a b = Ok c ↔
  coin_amount c = coin_amount a * coin_amount b ∧ coin_amount a * coin_amount b ≤ MAX_COIN.
Proof.
  pose proof MAX_COIN_u128. unfold coin_wf, Coin_mul, checked_mul. intros Ha Hb.
  destruct (_ <=? u128_max) eqn:E; eld_bool; simpl.
  - rewrite Coin_new_Ok. destruct c as [n]. simpl. split; intros [? ?]; simplify_eq; auto.
  - split; [done|lia].
Qed.

#[export] Hint Resolve Coin_add_Ok Coin_sub_Ok Coin_mul_Ok : eld.

Lemma coin_wf_zero : coin_wf Coin_zero.
Proof. done. Qed.

Lemma Coin_add_wf a b c : coin_wf a → coin_wf b → Coin_add a b = Ok c → coin_wf c.
Proof. intros Ha Hb H%Coin_add_Ok; [|done..]. unfold coin_wf in *. lia. Qed.

Lemma Coin_sub_wf a b c : coin_wf a → coin_wf b → Coin_sub a b = Ok c → coin_wf c.
Proof. intros Ha Hb H%Coin_sub_Ok; [|done..]. unfold coin_wf in *. lia. Qed.

Lemma Coin_new_wf n c : 0 ≤ n → Coin_new n = Ok c → coin_wf c.
Proof. intros Hn [-> ?]%Coin_new_Ok. done. Qed.

Lemma Coin_new_in n : n ≤ MAX_COIN → Coin_new n = Ok (mkCoin n).
Proof. intros. by apply Coin_new_Ok. Qed.

Lemma Coin_add_in a b :
  coin_wf a → coin_wf b → coin_amount a + coin_amount b ≤ MAX_COIN →
  Coin_add a b = Ok (mkCoin (coin_amount a + coin_amount b)).
Proof. intros. by apply Coin_add_Ok. Qed.

Lemma Coin_add_over a b :
  coin_wf a → coin_wf b → MAX_COIN < coin_amount a + coin_amount b →
  ∃ err, Coin_add a b = Err err.
Proof.
  intros Ha Hb Ho. destruct (Coin_add a b) as [c|err] eqn:E; [|eauto].
  apply Coin_add_Ok in E; [lia|done..].
Qed.

Lemma Coin_sub_in a b :
  coin_wf a → coin_wf b → coin_amount b ≤ coin_amount a →
  Coin_sub a b = Ok (mkCoin (coin_amount a - coin_amount b)).
Proof. intros. by apply Coin_sub_Ok. Qed.

Lemma coins_total_nonneg l : Forall coin_wf l → 0 ≤ coins_total l.
Proof. induction 1; simpl; unfold coin_wf in *; lia. Qed.

Lemma try_fold_add_Ok l acc c :
  coin_wf acc → Forall coin_wf l →
  try_fold Coin_add acc l = Ok c ↔
  coin_amount c = coin_amount acc + coins_total l ∧
  coin_amount acc + coins_total l ≤ MAX_COIN.
Proof.
  revert acc. induction l as [|x l IH]; intros acc Hacc Hl; simpl.
  - destruct acc as [n], c as [m]; unfold coin_wf in *; simpl in *.
    split; [intros [= ->]; lia|intros [? _]; do 2 f_equal; lia].
  - inversion_clear Hl as [|? ? Hx Hl'].
    pose proof (coins_total_nonneg l Hl').
    destruct (Coin_add acc x) as [acc'|e] eqn:E.
    + pose proof (Coin_add_wf _ _ _ Hacc Hx E).
      apply Coin_add_Ok in E as [E1 E2]; [|done..].
      rewrite IH by done. rewrite E1. split; intros [? ?]; split; lia.
    + split; [done|]. intros [? Hle]. exfalso.
      enough (Coin_add acc x = Ok (mkCoin (coin_amount acc + coin_amount x)))
        by congruence.
      apply Coin_add_Ok; simpl; [done..|]. lia.
Qed.

Lemma Coin_text_bound c : coin_wf c → coin_amount c < 10 ^ 40 ∧ coin_amount c ≤ u128_max.
Proof. unfold coin_wf, MAX_COIN, MAX_COIN_DECIMALS, MAX_COIN_UNITS, u128_max. lia. Qed.

(** ** Properties *)

(** C31. Coin arithmetic is exact and bounded: on coins within the supply cap,
    [+], [-] and [*] succeed exactly when the mathematical result lies between
    zero and [MAX_COIN], and then return that result; in particular no [u128]
    overflow and no negative amount is ever observable. *)
Theorem Coin_arithmetic_exact a b c :
  coin_wf a → coin_wf b →
  (Coin_add a b = Ok c ↔
     coin_amount c = coin_amount a + coin_amount b ∧ coin_wf c) ∧
  (Coin_sub a b = Ok c ↔
     coin_amount c = coin_amount a - coin_amount b ∧ coin_wf c) ∧
  (Coin_mul a b = Ok c ↔
     coin_amount c = coin_amount a * coin_amount b ∧ coin_wf c).
Proof.
  intros Ha Hb. rewrite Coin_add_Ok, Coin_sub_Ok, Coin_mul_Ok by done.
  unfold coin_wf in *. assert (0 ≤ coin_amount a * coin_amount b) by nia.
  repeat split; intros; lia.
Qed.

Lemma Coin_arithmetic_exact_witness :
  Coin_add (mkCoin 40) (mkCoin 2) = Ok (mkCoin 42).
Proof.
  apply (Coin_arithmetic_exact (mkCoin 40) (mkCoin 2) (mkCoin 42)); done.
Defined.

(** [sum_coins] returns the exact total of its coins, and fails exactly
    when that total exceeds [MAX_COIN]. *)
Theorem sum_coins_exact l c :
  Forall coin_wf l →
  sum_coins l = Ok c ↔ coin_amount c = coins_total l ∧ coins_total l ≤ MAX_COIN.
Proof.
  intros Hl. unfold sum_coins. by rewrite try_fold_add_Ok.
Qed.

Lemma sum_coins_exact_witness : sum_coins [mkCoin 3; mkCoin 4] = Ok (mkCoin 7).
Proof.
  apply (sum_coins_exact [mkCoin 3; mkCoin 4] (mkCoin 7)); [|done].
  repeat constructor; done.
Defined.

(** The wire form of an amount (a decimal string) round-trips through
    serde and through [FromStr]. *)
Theorem Coin_serde_roundtrip c :
  coin_wf c →
  Coin_visit_str (Coin_serialize c) = Ok c ∧ Coin_from_str (Coin_serialize c) = Ok c.
Proof.
  intros Hc. destruct (Coin_text_bound c Hc). unfold coin_wf in Hc.
  unfold Coin_visit_str, Coin_from_str, Coin_serialize.
  rewrite parse_to_string by lia. destruct c as [n]; simpl in *.
  split; apply Coin_new_Ok; split; (done || lia).
Qed.

Lemma Coin_serde_roundtrip_witness :
  Coin_serialize (mkCoin 1000) = "1000" ∧ Coin_visit_str "1000" = Ok (mkCoin 1000).
Proof.
  split; [reflexivity|].
  apply (Coin_serde_roundtrip (mkCoin 1000)); done.
Defined.

(** [from_string] reads the fraction at nine decimals while
    [to_decimal_string] writes six: parsing the printed form of a coin yields
    its whole part plus one thousand times its fraction, so the two are
    inverse only on whole amounts. *)
Theorem Coin_from_string_of_decimal_string c :
  coin_wf c →
  Coin_from_string (Coin_to_decimal_string c) =
  Some (Coin_new (coin_amount c / MAX_COIN_DECIMALS * MAX_COIN_DECIMALS
                  + coin_amount c mod MAX_COIN_DECIMALS * 1000)).
Proof.
  intros Hc. destruct (Coin_text_bound c Hc). unfold coin_wf in Hc.
  destruct c as [n]; simpl in *.
  assert (0 ≤ n / MAX_COIN_DECIMALS ≤ n) as Hw.
  { split; [apply Z.div_pos; done || lia|]. apply Z.div_le_upper_bound; [done|].
    unfold MAX_COIN_DECIMALS. lia. }
  assert (0 ≤ n mod MAX_COIN_DECIMALS < MAX_COIN_DECIMALS) as Hd
    by (apply Z.mod_pos_bound; done).
  unfold Coin_to_decimal_string. simpl.
  set (w := n / MAX_COIN_DECIMALS) in *. set (d := n mod MAX_COIN_DECIMALS) in *.
  assert (wrap_u128 (w * MAX_COIN_DECIMALS) = w * MAX_COIN_DECIMALS) as Hwrap.
  { unfold wrap_u128. apply Z.mod_small. unfold MAX_COIN, MAX_COIN_UNITS, MAX_COIN_DECIMALS in *. lia. }
  destruct (d =? 0) eqn:E; eld_bool; unfold Coin_from_string.
  - rewrite split_on_none by apply digits_no_dot, to_string_all_digits.
    rewrite parse_to_string by lia. rewrite Hwrap, E. do 2 f_equal. lia.
  - change (String.append "." (pad_zeros 6 (to_string d)))
      with (String "."%char (pad_zeros 6 (to_string d))).
    rewrite split_on_app by apply digits_no_dot, to_string_all_digits.
    rewrite split_on_none by apply digits_no_dot, pad_zeros_all_digits.
    rewrite parse_to_string by lia.
    rewrite pad_zeros_length by (unfold MAX_COIN_DECIMALS in *; lia). simpl.
    rewrite parse_pad_zeros by (unfold MAX_COIN_DECIMALS, u128_max in *; lia).
    rewrite pad_zeros_length by (unfold MAX_COIN_DECIMALS in *; lia).
    rewrite Hwrap. do 2 f_equal. change (10 ^ Z.of_nat (9 - 6)) with 1000.
    unfold wrap_u128. apply Z.mod_small. unfold MAX_COIN, MAX_COIN_UNITS, MAX_COIN_DECIMALS in *. lia.
Qed.

Lemma Coin_from_string_of_decimal_string_witness :
  Coin_to_decimal_string (mkCoin 500000) = "0.500000" ∧
  Coin_from_string "0.500000" = Some (Ok (mkCoin 500000000)).
Proof.
  split; [reflexivity|].
  apply (Coin_from_string_of_decimal_string (mkCoin 500000)). done.
Defined.
