(* ===== verification/Externals.v ===== *)
(** Interfaces of the third-party crates the protocol types call: [hex],
    [sha2], [blake3], [bincode].

    The operations are class parameters; the laws are the documented behaviour
    the code relies on.  [Reference.v] gives concrete instances, so that every
    theorem proved against the laws is used on evaluated inputs. *)
From S2P Require Import Prelude.

(** ** hex *)

Class HexCrate : Type := {
  hex_encode : bytes → string;
  hex_decode : string → option bytes;
}.

Definition is_lower_hexdigit (c : ascii) : bool :=
  is_ascii_digit c || ascii_between 97 102 c.

(** [hex::encode] writes two lowercase digits per byte; [hex::decode] accepts
    either case, and fails exactly on odd length or a non-hex digit. *)
Class HexLaws (H : HexCrate) : Prop := {
  hex_decode_encode b : hex_decode (hex_encode b) = Some b;
  hex_encode_digits b : string_all is_lower_hexdigit (hex_encode b) = true;
  hex_encode_length b : String.length (hex_encode b) = (2 * length b)%nat;
  hex_decode_length s b : hex_decode s = Some b → String.length s = (2 * length b)%nat;
  hex_decode_digits s b : hex_decode s = Some b → string_all is_ascii_hexdigit s = true;
  hex_decode_total s n :
    String.length s = (2 * n)%nat → string_all is_ascii_hexdigit s = true →
    is_Some (hex_decode s);
  hex_decode_lowercase s : hex_decode (to_ascii_lowercase s) = hex_decode s;
}.

(** ** base64 *)

(** [base64::engine::general_purpose::STANDARD] *)
Class Base64 : Type := {
  base64_encode : bytes → string;
  base64_decode : string → option bytes;
}.

(** Four characters stand for at most three bytes, and no characters for none. *)
Class Base64Laws (B : Base64) : Prop := {
  base64_roundtrip b : base64_decode (base64_encode b) = Some b;
  base64_size s b : base64_decode s = Some b → (4 * length b ≤ 3 * String.length s)%nat;
  base64_empty : base64_decode EmptyString = Some [];
}.

(** ** sha2 and blake3 *)

Class HashCrates : Type := {
  sha256 : bytes → byte_array 32;
  blake3 : bytes → byte_array 32;
}.

(** ** bincode *)

Class Bincode (A : Type) : Type := {
  bin_serialize : A → option bytes;
  bin_deserialize : bytes → option A;
}.

(** Values satisfying [wf] serialize, and read back. *)
Class BincodeLaws (A : Type) {B : Bincode A} (wf : A → Prop) : Prop := {
  bin_roundtrip a :
    wf a → ∃ b, bin_serialize a = Some b ∧ bin_deserialize b = Some a;
}.

(** Small values: their encoding is non-empty and below the 10 KiB limit of
    [safe_deserialize_account_data]. *)
Class BincodeSmall (A : Type) {B : Bincode A} (wf : A → Prop) : Prop := {
  bin_small_laws :: BincodeLaws A wf;
  bin_small a b :
    wf a → bin_serialize a = Some b → (0 < length b ≤ 10 * 1024)%nat;
}.

(** ** Facts about hex text *)

Section hex_facts.
Context {H : HexCrate} {HL : HexLaws H}.

#[export] Instance hex_encode_inj : Inj (=) (=) hex_encode.
Proof.
  intros a b Hab. pose proof (hex_decode_encode a) as Ha.
  rewrite Hab, hex_decode_encode in Ha. by injection Ha.
Qed.

Lemma hex_encode_hexdigits b : string_all is_ascii_hexdigit (hex_encode b) = true.
Proof.
  eapply string_all_impl; [|apply hex_encode_digits]. intros c.
  unfold is_lower_hexdigit, is_ascii_hexdigit. intros ->. done.
Qed.

Lemma hexdigits_no_slash s :
  string_all is_ascii_hexdigit s = true →
  string_all (λ c, negb (Ascii.eqb "/"%char c)) s = true.
Proof.
  apply string_all_impl. intros c Hc.
  destruct (Ascii.eqb_spec "/"%char c); [by subst|done].
Qed.
End hex_facts.

(** ** ed25519-dalek *)

Class Ed25519 : Type := {
  signing_key : Type;
  verifying_key_of : signing_key → byte_array 32;
  (** [VerifyingKey::from_bytes] succeeds. *)
  verifying_key_ok : byte_array 32 → bool;
  ed_sign : signing_key → bytes → byte_array 64;
  ed_verify : byte_array 32 → bytes → byte_array 64 → bool;
}.

(** The key of a signer is a valid curve point, and its signatures verify. *)
Class Ed25519Laws (E : Ed25519) : Prop := {
  verifying_key_of_ok sk : verifying_key_ok (verifying_key_of sk) = true;
  ed_verify_sign sk m : ed_verify (verifying_key_of sk) m (ed_sign sk m) = true;
}.

(** ** rand *)

(** [StdRng::from_seed] followed by [SliceRandom::shuffle]: the state of the
    generator, and the permutation one shuffle applies to a list. *)
Class RandCrate : Type := {
  rng : Type;
  rng_from_seed : byte_array 32 → rng;
  rng_shuffle : ∀ {A : Type}, rng → list A → list A * rng;
}.

Class RandLaws (R : RandCrate) : Prop := {
  rng_shuffle_perm {A : Type} (r : rng) (l : list A) : (rng_shuffle r l).1 ≡ₚ l;
}.
