(* ===== verification/Reference.v ===== *)
(** Concrete instances of the third-party interfaces, used to evaluate the
    development on closed inputs and to show that the laws are satisfiable. *)
From S2P Require Import Prelude Externals.

(** ** hex *)

Definition hex_char (n : N) : ascii :=
  if (n <? 10)%N then ascii_of_N (48 + n) else ascii_of_N (87 + n).

Definition hex_val (c : ascii) : option N :=
  if is_ascii_digit c then Some (N_of_ascii c - 48)%N
  else if ascii_between 97 102 c then Some (N_of_ascii c - 87)%N
  else if ascii_between 65 70 c then Some (N_of_ascii c - 55)%N
  else None.

Fixpoint ref_hex_encode (b : bytes) : string :=
  match b with
  | [] => EmptyString
  | x :: b =>
      String (hex_char (Byte.to_N x / 16)) (String (hex_char (Byte.to_N x mod 16))
        (ref_hex_encode b))
  end.

Fixpoint ref_hex_decode (s : string) : option bytes :=
  match s with
  | EmptyString => Some []
  | String _ EmptyString => None
  | String c0 (String c1 s) =>
      match hex_val c0, hex_val c1, ref_hex_decode s with
      | Some h, Some l, Some b =>
          match Byte.of_N (16 * h + l) with Some x => Some (x :: b) | None => None end
      | _, _, _ => None
      end
  end.

#[export] Instance ref_hex : HexCrate :=
  {| hex_encode := ref_hex_encode; hex_decode := ref_hex_decode |}.

Lemma hex_byte_roundtrip x :
  match hex_val (hex_char (Byte.to_N x / 16)), hex_val (hex_char (Byte.to_N x mod 16)) with
  | Some h, Some l => Byte.of_N (16 * h + l) = Some x
  | _, _ => False
  end.
Proof. by destruct x. Qed.

Lemma hex_char_lower x :
  is_lower_hexdigit (hex_char (Byte.to_N x / 16)) = true ∧
  is_lower_hexdigit (hex_char (Byte.to_N x mod 16)) = true.
Proof. by destruct x. Qed.

Lemma hex_val_digit c : is_Some (hex_val c) ↔ is_ascii_hexdigit c = true.
Proof.
  unfold hex_val, is_ascii_hexdigit.
  destruct (is_ascii_digit c), (ascii_between 97 102 c), (ascii_between 65 70 c); simpl;
    split; intros; eauto; done.
Qed.

Lemma hex_val_bound c n : hex_val c = Some n → (n < 16)%N.
Proof.
  unfold hex_val, is_ascii_digit, ascii_between. intros H.
  repeat eld_case; simplify_eq; eld_bool;
    repeat match goal with H : (_ <=? _)%N = true |- _ => apply N.leb_le in H end; lia.
Qed.

Lemma hex_val_lower c : hex_val (ascii_to_lower c) = hex_val c.
Proof. by destruct c as [[] [] [] [] [] [] [] []]. Qed.

(** Induction on a string two characters at a time. *)
Lemma string_pair_ind (P : string → Prop) :
  P EmptyString → (∀ c, P (String c EmptyString)) →
  (∀ c0 c1 s, P s → P (String c0 (String c1 s))) → ∀ s, P s.
Proof.
  intros H0 H1 H2 s.
  enough (P s ∧ ∀ c, P (String c s)) as [? _] by done.
  induction s as [|c s [IH1 IH2]]; split; auto.
Qed.

Lemma ref_hex_decode_shape s b :
  ref_hex_decode s = Some b →
  String.length s = (2 * length b)%nat ∧ string_all is_ascii_hexdigit s = true.
Proof.
  revert b. induction s as [|c|c0 c1 s IH] using string_pair_ind; intros b; simpl.
  - intros [= <-]. done.
  - done.
  - destruct (hex_val c0) as [h|] eqn:E0; [|done].
    destruct (hex_val c1) as [l|] eqn:E1; [|done].
    destruct (ref_hex_decode s) as [b'|]; [|done].
    destruct (Byte.of_N _); [|done]. intros [= <-]. destruct (IH _ eq_refl) as [Hl Hd].
    rewrite Hl, Hd. rewrite !(proj1 (hex_val_digit _)) by eauto. simpl. split; [lia|done].
Qed.

Lemma ref_hex_decode_total s n :
  String.length s = (2 * n)%nat → string_all is_ascii_hexdigit s = true →
  is_Some (ref_hex_decode s).
Proof.
  revert n. induction s as [|c|c0 c1 s IH] using string_pair_ind; intros n Hl Hd; simpl in *.
  - eauto.
  - lia.
  - eld_bool. apply hex_val_digit in H as [h Eh]. apply hex_val_digit in H0 as [l El].
    destruct (IH (n - 1)%nat) as [b ->]; [lia|done|]. rewrite Eh, El.
    apply hex_val_bound in Eh. apply hex_val_bound in El.
    destruct (Byte.of_N (16 * h + l)) eqn:E; [eauto|].
    apply Byte.of_N_None_iff in E. lia.
Qed.

#[export] Instance ref_hex_laws : HexLaws ref_hex.
Proof.
  constructor; simpl.
  - induction b as [|x b IH]; simpl; [done|]. pose proof (hex_byte_roundtrip x) as Hx.
    destruct (hex_val _); [|done]. destruct (hex_val _); [|done]. by rewrite IH, Hx.
  - induction b as [|x b IH]; simpl; [done|]. destruct (hex_char_lower x) as [-> ->]. done.
  - induction b as [|x b IH]; simpl; [done|]. rewrite IH. lia.
  - intros s b H. by apply ref_hex_decode_shape.
  - intros s b H. by eapply ref_hex_decode_shape.
  - apply ref_hex_decode_total.
  - unfold to_ascii_lowercase.
    induction s as [|c|c0 c1 s IH] using string_pair_ind; simpl; [done..|].
    by rewrite !hex_val_lower, IH.
Qed.

(** ** base64 *)

(** A stand-in text encoding. *)
#[export] Instance ref_base64 : Base64 :=
  {| base64_encode := hex_encode; base64_decode := hex_decode |}.

#[export] Instance ref_base64_laws : Base64Laws ref_base64.
Proof.
  split; [apply hex_decode_encode| |reflexivity]. intros s b E. cbn [base64_decode ref_base64] in E.
  apply hex_decode_length in E. lia.
Qed.

(** ** Hashes *)

(** A stand-in digest: the first 32 bytes, zero-padded. *)
Fixpoint fit (n : nat) (l : bytes) : byte_array n :=
  match n with
  | O => [#]
  | S n => match l with
           | [] => Init.Byte.x00 ::: fit n []
           | x :: l => x ::: fit n l
           end
  end.

#[export] Instance ref_hashes : HashCrates :=
  {| sha256 := fit 32; blake3 := fit 32 |}.

(** ** bincode *)

(** The bits of a positive, one byte each. *)
Fixpoint pos_to_bytes (p : positive) : bytes :=
  match p with
  | xH => []
  | xO p => Init.Byte.x00 :: pos_to_bytes p
  | xI p => Init.Byte.x01 :: pos_to_bytes p
  end.

Fixpoint bytes_to_pos (b : bytes) : positive :=
  match b with
  | [] => xH
  | Init.Byte.x00 :: b => xO (bytes_to_pos b)
  | _ :: b => xI (bytes_to_pos b)
  end.

Lemma bytes_to_pos_to_bytes p : bytes_to_pos (pos_to_bytes p) = p.
Proof. induction p; simpl; by f_equal. Qed.

(** A stand-in text format: the bits of the code. *)
Fixpoint pos_to_text (p : positive) : string :=
  match p with
  | xH => EmptyString
  | xO p => String "0" (pos_to_text p)
  | xI p => String "1" (pos_to_text p)
  end.

Fixpoint text_to_pos (s : string) : positive :=
  match s with
  | EmptyString => xH
  | String c s => if Ascii.eqb c "0" then xO (text_to_pos s) else xI (text_to_pos s)
  end.

Lemma text_to_pos_to_text p : text_to_pos (pos_to_text p) = p.
Proof. induction p; simpl; by f_equal. Qed.

(** Codes with an end mark, which can be told from what follows them. *)
Definition delimited {A : Type} `{Countable A} (a : A) : bytes := pos_to_bytes (encode a) ++ [Init.Byte.x02].

Lemma delimited_inj {A : Type} `{Countable A} (a b : A) m n :
  delimited a ++ m = delimited b ++ n → a = b ∧ m = n.
Proof.
  unfold delimited. rewrite <- !app_assoc. intros He.
  assert (encode a = encode b ∧ m = n) as [Hc ->]; [|split; [by apply (inj encode)|done]].
  revert He. generalize (encode a), (encode b). intros p. induction p as [p IH|p IH|]; intros [q|q|] He;
    cbn in He; try discriminate; injection He as He; try (apply IH in He as [-> ->]); by subst.
Qed.

(** Any countable type has a total, injective encoding. *)
Definition countable_bincode (A : Type) `{Countable A} : Bincode A :=
  {| bin_serialize a := Some (pos_to_bytes (encode a));
     bin_deserialize b := decode (bytes_to_pos b) |}.

Lemma countable_bincode_laws (A : Type) `{Countable A} (wf : A → Prop) :
  @BincodeLaws A (countable_bincode A) wf.
Proof.
  constructor. intros a _. eexists. split; [done|]. simpl.
  by rewrite bytes_to_pos_to_bytes, decode_encode.
Qed.

(** A codec with a one-byte code for one value, so that large sample values
    evaluate quickly. *)
Definition shortcut_bincode {A : Type} `{EqDecision A} (a0 : A) (B : Bincode A) : Bincode A :=
  {| bin_serialize a :=
       if bool_decide (a = a0) then Some [Init.Byte.x00]
       else match bin_serialize a with Some b => Some (Init.Byte.x01 :: b) | None => None end;
     bin_deserialize b :=
       match b with
       | [Init.Byte.x00] => Some a0
       | Init.Byte.x01 :: b => bin_deserialize b
       | _ => None
       end |}.

Lemma shortcut_bincode_laws {A : Type} `{EqDecision A} (a0 : A) (B : Bincode A) (wf : A → Prop) :
  @BincodeLaws A B wf → @BincodeLaws A (shortcut_bincode a0 B) wf.
Proof.
  intros L. constructor. intros a Ha. simpl. case_bool_decide as Ea; [subst; by eexists|].
  destruct (bin_roundtrip a Ha) as (b & -> & Hb). eexists. by split.
Qed.

(** ** ed25519 and rand *)

(** A stand-in signature scheme: the key is its own public key, and a
    signature repeats the key. *)
#[export] Instance ref_ed25519 : Ed25519 :=
  {| signing_key := byte_array 32;
     verifying_key_of sk := sk;
     verifying_key_ok _ := true;
     ed_sign sk _ := sk +++ sk;
     ed_verify pk _ sig := bool_decide (sig = pk +++ pk) |}.

#[export] Instance ref_ed25519_laws : Ed25519Laws ref_ed25519.
Proof. constructor; intros; simpl; [done|]. by apply bool_decide_eq_true. Qed.

(** A generator that reverses. *)
#[export] Instance ref_rand : RandCrate :=
  {| rng := unit; rng_from_seed _ := tt; rng_shuffle _ r l := (reverse l, r) |}.

#[export] Instance ref_rand_laws : RandLaws ref_rand.
Proof. constructor. intros A r l. apply reverse_Permutation. Qed.
