(* ===== verification/Namespace.v ===== *)
(** Slug rules of common/src/namespace.rs: normalization, registry format,
    upload format, reserved names. *)
From S2P Require Import Prelude.

(** ** [str::trim] *)

(** Unicode [White_Space], as UTF-8 sequences of one, two and three bytes. *)
Definition code (c : ascii) : N := N_of_ascii c.
Definition ws1 (a : ascii) : bool := ascii_between 9 13 a || (code a =? 32)%N.
Definition ws2 (a b : ascii) : bool :=
  (code a =? 0xC2)%N && ((code b =? 0x85)%N || (code b =? 0xA0)%N).
Definition ws3 (a b c : ascii) : bool :=
  ((code a =? 0xE1)%N && (code b =? 0x9A)%N && (code c =? 0x80)%N) ||
  ((code a =? 0xE2)%N && (code b =? 0x80)%N &&
     (ascii_between 0x80 0x8A c || (code c =? 0xA8)%N || (code c =? 0xA9)%N
      || (code c =? 0xAF)%N)) ||
  ((code a =? 0xE2)%N && (code b =? 0x81)%N && (code c =? 0x9F)%N) ||
  ((code a =? 0xE3)%N && (code b =? 0x80)%N && (code c =? 0x80)%N).

(** Drop one white-space character from the front; [flip] reads the bytes of a
    reversed string. *)
Definition strip_ws (flip : bool) (l : list ascii) : option (list ascii) :=
  match l with
  | [] => None
  | a :: r =>
      if ws1 a then Some r
      else match r with
           | [] => None
           | b :: r' =>
               if (if flip then ws2 b a else ws2 a b) then Some r'
               else match r' with
                    | [] => None
                    | c :: r'' => if (if flip then ws3 c b a else ws3 a b c) then Some r'' else None
                    end
           end
  end.

Fixpoint strip_ws_all (flip : bool) (fuel : nat) (l : list ascii) : list ascii :=
  match fuel with
  | O => l
  | S f => match strip_ws flip l with
           | Some l' => strip_ws_all flip f l'
           | None => l
           end
  end.

(** Every step drops a byte, so the length of the string is enough fuel. *)
Definition trim (s : string) : string :=
  let l := list_ascii_of_string s in
  let l := strip_ws_all false (length l) l in
  let r := strip_ws_all true (length l) (reverse l) in
  string_of_list_ascii (reverse r).

(** ** Slugs *)

Definition SLUG_MIN_LEN : nat := 3.
Definition SLUG_MAX_LEN : nat := 32.

Definition slug_error : EldError := ValidationError "namespace_slug".

Definition is_slug_char (c : ascii) : bool :=
  is_ascii_lowercase c || is_ascii_digit c || Ascii.eqb c "-"%char.

Definition validate_namespace_slug (slug : string) : eld_result unit :=
  if ((String.length slug <? SLUG_MIN_LEN)%nat || (SLUG_MAX_LEN <? String.length slug)%nat)%bool
  then Err slug_error
  else if starts_with "-" slug || ends_with_char "-"%char slug then Err slug_error
  else if contains "--" slug then Err slug_error
  else if negb (string_all is_slug_char slug) then Err slug_error
  else Ok tt.

Definition normalize_namespace_slug (input : string) : eld_result string :=
  let slug := to_ascii_lowercase (trim input) in
  let? _ := validate_namespace_slug slug in
  Ok slug.

Definition validate_content_upload_namespace_slug (slug : string) : eld_result unit :=
  if ((String.length slug <? SLUG_MIN_LEN)%nat || (SLUG_MAX_LEN <? String.length slug)%nat)%bool
  then Err (ValidationError "namespace")
  else if negb (string_all is_ascii_lowercase slug) then Err (ValidationError "namespace")
  else Ok tt.

Definition normalize_content_upload_namespace (input : string) : string :=
  to_ascii_lowercase (trim input).

Definition resolve_optional_namespace (input : option string) : eld_result (option string) :=
  match input with
  | None => Ok None
  | Some s =>
      if String.eqb (trim s) EmptyString then Ok None
      else
        let normalized := normalize_content_upload_namespace s in
        let? _ := validate_content_upload_namespace_slug normalized in
        Ok (Some normalized)
  end.

Definition RESERVED_NAMESPACE_SLUGS : list string :=
  ["eld"; "user"; "public"; "contract"; "test"; "other"; "pinboard"; "admin"; "namespace"].

Definition is_reserved_namespace_slug (namespace_slug : string) : bool :=
  existsb (String.eqb namespace_slug) RESERVED_NAMESPACE_SLUGS.

(** ** Lemmas *)

Lemma validate_namespace_slug_Ok slug :
  validate_namespace_slug slug = Ok tt →
  (SLUG_MIN_LEN ≤ String.length slug ≤ SLUG_MAX_LEN)%nat ∧
  string_all is_slug_char slug = true ∧
  contains "--" slug = false ∧
  starts_with "-" slug = false ∧ ends_with_char "-"%char slug = false.
Proof.
  unfold validate_namespace_slug. intros H.
  repeat (eld_case; [done|]). eld_bool.
  repeat match goal with H : (_ <? _)%nat = false |- _ => apply Nat.ltb_ge in H end.
  auto with lia.
Qed.

Lemma is_slug_char_low c : is_slug_char c = true → (code c < 128)%N ∧ ws1 c = false.
Proof.
  unfold is_slug_char, ws1, is_ascii_lowercase, is_ascii_digit, ascii_between, code.
  intros H. destruct (Ascii.eqb_spec c "-"%char) as [Hc|]; [by rewrite Hc|].
  rewrite orb_false_r in H. apply orb_true_iff in H.
  rewrite !andb_true_iff, !N.leb_le in H.
  split; [lia|]. apply orb_false_iff; split.
  - apply andb_false_iff. rewrite !N.leb_gt. lia.
  - apply N.eqb_neq. lia.
Qed.

Lemma low_not_ws c x y :
  (code c < 128)%N →
  ws2 c x = false ∧ ws2 x c = false ∧ ws3 c x y = false ∧ ws3 x y c = false.
Proof.
  intros Hc.
  assert (∀ k, (128 ≤ k)%N → (code c =? k)%N = false) as Hn.
  { intros k Hk. apply N.eqb_neq. lia. }
  assert (ascii_between 0x80 0x8A c = false) as Hb.
  { unfold ascii_between. apply andb_false_iff. left. apply N.leb_gt. exact Hc. }
  unfold ws2, ws3. rewrite Hb.
  rewrite ?(Hn 0xC2%N), ?(Hn 0x85%N), ?(Hn 0xA0%N), ?(Hn 0xE1%N), ?(Hn 0xE2%N),
    ?(Hn 0xE3%N), ?(Hn 0x80%N), ?(Hn 0xA8%N), ?(Hn 0xA9%N), ?(Hn 0xAF%N), ?(Hn 0x9F%N)
    by lia.
  simpl. by rewrite !andb_false_r.
Qed.

Lemma strip_ws_slug flip c l : is_slug_char c = true → strip_ws flip (c :: l) = None.
Proof.
  intros [Hc Hw]%is_slug_char_low. unfold strip_ws. rewrite Hw.
  destruct l as [|b l]; [done|].
  destruct (low_not_ws c b b Hc) as (-> & -> & _).
  replace (if flip then false else false) with false by (by destruct flip).
  destruct l as [|d l]; [done|].
  destruct (low_not_ws c b d Hc) as (_ & _ & -> & _).
  destruct (low_not_ws c d b Hc) as (_ & _ & _ & ->).
  by destruct flip.
Qed.

Lemma string_all_list (p : ascii → bool) s :
  string_all p s = true ↔ Forall (λ c, p c = true) (list_ascii_of_string s).
Proof.
  induction s as [|c s IH]; simpl.
  - split; [constructor|done].
  - rewrite andb_true_iff, IH, Forall_cons_iff. done.
Qed.

Lemma strip_ws_all_slug flip n l :
  Forall (λ c, is_slug_char c = true) l → strip_ws_all flip n l = l.
Proof.
  intros Hl. destruct n as [|n]; [done|]. simpl.
  destruct l as [|c l]; [done|]. inversion_clear Hl.
  by rewrite strip_ws_slug.
Qed.

Lemma trim_slug s : string_all is_slug_char s = true → trim s = s.
Proof.
  intros H%string_all_list. unfold trim.
  rewrite (strip_ws_all_slug false) by done.
  rewrite (strip_ws_all_slug true) by (by apply Forall_reverse).
  by rewrite reverse_involutive, string_of_list_ascii_of_string.
Qed.

Lemma ascii_to_lower_slug c : is_slug_char c = true → ascii_to_lower c = c.
Proof.
  unfold ascii_to_lower. intros H.
  destruct (is_ascii_uppercase c) eqn:E; [|done].
  unfold is_slug_char, is_ascii_lowercase, is_ascii_digit, is_ascii_uppercase,
    ascii_between in *.
  destruct (Ascii.eqb_spec c "-"%char) as [Hc|]; [by rewrite Hc in E|].
  rewrite orb_false_r in H. apply orb_true_iff in H.
  rewrite !andb_true_iff, !N.leb_le in *. lia.
Qed.

Lemma to_ascii_lowercase_slug s :
  string_all is_slug_char s = true → to_ascii_lowercase s = s.
Proof.
  unfold to_ascii_lowercase.
  induction s as [|c s IH]; simpl; [done|]. intros H. eld_bool.
  rewrite IH, ascii_to_lower_slug by done. done.
Qed.

(** A valid slug is its own normal form. *)
Lemma normalize_canonical slug :
  validate_namespace_slug slug = Ok tt → normalize_namespace_slug slug = Ok slug.
Proof.
  intros H. destruct (validate_namespace_slug_Ok slug H) as (_ & Hall & _).
  unfold normalize_namespace_slug. rewrite trim_slug, to_ascii_lowercase_slug by done.
  by rewrite H.
Qed.

Lemma normalize_Ok input slug :
  normalize_namespace_slug input = Ok slug →
  slug = to_ascii_lowercase (trim input) ∧ validate_namespace_slug slug = Ok tt.
Proof.
  unfold normalize_namespace_slug.
  destruct (validate_namespace_slug _) as [[]|] eqn:E; intros; by simplify_eq.
Qed.

Lemma lowercase_is_slug_char c : is_ascii_lowercase c = true → is_slug_char c = true.
Proof. unfold is_slug_char. by intros ->. Qed.

Lemma is_slug_char_no_slash s :
  string_all is_slug_char s = true →
  string_all (λ c, negb (Ascii.eqb "/"%char c)) s = true.
Proof.
  apply string_all_impl. intros c Hc.
  destruct (Ascii.eqb_spec "/"%char c); [by subst|done].
Qed.

(** ** Properties *)

(** Normalization yields a canonical slug: whatever the input, a returned
    slug has 3 to 32 characters from [a-z0-9-], no leading, trailing or double
    hyphen, and normalizing it again returns it unchanged, so the registry key
    of a name is unique. *)
Theorem normalize_namespace_slug_canonical input slug :
  normalize_namespace_slug input = Ok slug →
  (3 ≤ String.length slug ≤ 32)%nat ∧
  string_all is_slug_char slug = true ∧
  contains "--" slug = false ∧
  starts_with "-" slug = false ∧ ends_with_char "-"%char slug = false ∧
  normalize_namespace_slug slug = Ok slug.
Proof.
  intros [_ H]%normalize_Ok.
  destruct (validate_namespace_slug_Ok slug H) as (? & ? & ? & ? & ?).
  repeat split; try done; try apply H0. by apply normalize_canonical.
Qed.

Lemma normalize_namespace_slug_canonical_witness :
  normalize_namespace_slug "  My-App1 " = Ok "my-app1" ∧
  normalize_namespace_slug "my-app1" = Ok "my-app1".
Proof.
  split; [reflexivity|].
  apply (normalize_namespace_slug_canonical "  My-App1 " "my-app1"). reflexivity.
Defined.
