(* ===== verification/Address.v ===== *)
(** Fixed-length identifiers: common/src/hex_encoding.rs, address.rs,
    challenge_id.rs, public_key.rs and nonce.rs. *)
From S2P Require Import Prelude Externals Reference.

(** ** Byte arrays *)

(** [slice.try_into::<[u8; N]>()]. *)
Fixpoint try_array (n : nat) (l : bytes) : option (byte_array n) :=
  match n, l with
  | O, [] => Some [#]
  | S n, x :: l => match try_array n l with Some v => Some (x ::: v) | None => None end
  | _, _ => None
  end.

Lemma try_array_Some n l v : try_array n l = Some v ↔ vec_to_list v = l.
Proof.
  revert l v. induction n as [|n IH]; intros l v; destruct l as [|x l]; simpl.
  - inv_vec v. done.
  - inv_vec v. split; intros; done.
  - inv_vec v. intros y v. done.
  - destruct (try_array n l) as [w|] eqn:E.
    + apply IH in E as <-. split.
      * intros [= <-]. done.
      * inv_vec v. intros y v. simpl. intros [= -> H]. by apply vec_to_list_inj2 in H as ->.
    + split; [done|]. inv_vec v. intros y v. simpl. intros [= -> H].
      apply IH in H. congruence.
Qed.

Lemma try_array_to_list n (v : byte_array n) : try_array n v = Some v.
Proof. by apply try_array_Some. Qed.

Lemma try_array_length n l : length l = n → is_Some (try_array n l).
Proof.
  revert l. induction n as [|n IH]; intros [|x l]; try done; simpl.
  intros [= H]. destruct (IH l H) as [v ->]. eauto.
Qed.

(** ** Operations *)

Section hex_encoding.
Context {H : HexCrate}.

Definition strip_optional_hex_prefix (s : string) : string :=
  match s with
  | String c0 (String c1 rest) =>
      if Ascii.eqb c0 "0"%char && (Ascii.eqb c1 "x"%char || Ascii.eqb c1 "X"%char)
      then rest else s
  | _ => s
  end.

Definition decode_fixed_hex (n : nat) (s field : string) : eld_result (byte_array n) :=
  let hex_body := strip_optional_hex_prefix s in
  if String.eqb hex_body EmptyString then Err (ValidationError field)
  else
    match hex_decode hex_body with
    | None => Err (ValidationError field)
    | Some decoded => ok_or (try_array n decoded) (ValidationError field)
    end.
End hex_encoding.

(** [struct Address { value: [u8; 20] }] *)
Record Address : Type := mkAddress { addr_value : byte_array 20 }.

#[export] Instance Address_eq_dec : EqDecision Address.
Proof. solve_decision. Defined.

#[export, program] Instance Address_countable : Countable Address :=
  inj_countable' addr_value mkAddress _.
Next Obligation. by intros []. Qed.

(** Derived [Ord]. *)
Definition Address_compare (a b : Address) : comparison :=
  bytes_compare (addr_value a) (addr_value b).

(** [struct ChallengeId { bytes: [u8; 32] }] *)
Record ChallengeId : Type := mkChallengeId { challenge_bytes : byte_array 32 }.

#[export] Instance ChallengeId_eq_dec : EqDecision ChallengeId.
Proof. solve_decision. Defined.

Section address.
Context {H : HexCrate} {HC : HashCrates}.

Definition Address_hex (a : Address) : string := hex_encode (addr_value a).

(** [hex_with_prefix], also [Display], [canonical_hex_with_prefix] and the
    serde form. *)
Definition hex_with_prefix (a : Address) : string := String.append "0x" (Address_hex a).

Definition parse_hex_str (s : string) : eld_result Address :=
  let? value := decode_fixed_hex 20 s "address" in
  Ok (mkAddress value).

Definition from_slice (b : bytes) : eld_result Address :=
  match try_array 20 b with
  | None => Err (ValidationError "address")
  | Some value => Ok (mkAddress value)
  end.

(** [from_public_key]: the first 20 bytes of the SHA-256 of the key. *)
Definition from_public_key (pk : byte_array 32) : eld_result Address :=
  from_slice (take 20 (sha256 pk)).

Definition is_from_public_key (a : Address) (pk : byte_array 32) : bool :=
  bool_decide (vec_to_list (addr_value a) = take 20 (sha256 pk)).

Definition matches_str (a : Address) (other : string) : bool :=
  match parse_hex_str other with
  | Ok candidate => bool_decide (candidate = a)
  | Err _ => false
  end.

Definition ChallengeId_parse_hex (s : string) : eld_result ChallengeId :=
  let? b := decode_fixed_hex 32 s "challenge ID" in
  Ok (mkChallengeId b).

Definition ChallengeId_to_hex (c : ChallengeId) : string := hex_encode (challenge_bytes c).
End address.

(** ** Nonces *)

(** [struct Nonce(u32)] *)
Record Nonce : Type := mkNonce { nonce_value : Z }.

#[export] Instance Nonce_eq_dec : EqDecision Nonce.
Proof. solve_decision. Defined.

Definition Nonce_ZERO : Z := 0.
Definition Nonce_next (n : Nonce) : option Nonce :=
  match checked_add u32_max (nonce_value n) 1 with
  | Some v => Some (mkNonce v)
  | None => None
  end.

(** ** Lemmas *)

Lemma bytes_compare_refl a : bytes_compare a a = Eq.
Proof. induction a as [|x a IH]; simpl; [done|]. by rewrite N.compare_refl. Qed.

Lemma to_N_inj x y : Byte.to_N x = Byte.to_N y → x = y.
Proof.
  intros E. pose proof (Byte.of_to_N x) as Hx. rewrite E, Byte.of_to_N in Hx.
  by injection Hx.
Qed.

Lemma bytes_compare_eq a b : bytes_compare a b = Eq → a = b.
Proof.
  revert b. induction a as [|x a IH]; intros [|y b]; simpl; try done.
  destruct (N.compare_spec (Byte.to_N x) (Byte.to_N y)) as [E|E|E]; try done.
  apply to_N_inj in E as ->. by intros ->%IH.
Qed.

Lemma bytes_compare_antisym a b : bytes_compare b a = CompOpp (bytes_compare a b).
Proof.
  revert b. induction a as [|x a IH]; intros [|y b]; simpl; try done.
  rewrite (N.compare_antisym (Byte.to_N x) (Byte.to_N y)).
  destruct (N.compare (Byte.to_N x) (Byte.to_N y)); simpl; auto.
Qed.

Lemma bytes_compare_trans a b c :
  bytes_compare a b = Lt → bytes_compare b c = Lt → bytes_compare a c = Lt.
Proof.
  revert b c. induction a as [|x a IH]; intros [|y b] [|z c]; simpl; try done.
  destruct (N.compare_spec (Byte.to_N x) (Byte.to_N y)) as [E1|E1|E1];
    destruct (N.compare_spec (Byte.to_N y) (Byte.to_N z)) as [E2|E2|E2]; try done;
    intros H1 H2;
    destruct (N.compare_spec (Byte.to_N x) (Byte.to_N z)) as [E3|E3|E3]; try lia;
    eauto.
Qed.

Lemma Address_compare_eq a b : Address_compare a b = Eq ↔ a = b.
Proof.
  split.
  - intros E%bytes_compare_eq%vec_to_list_inj2. destruct a, b. simpl in E. by subst.
  - intros ->. apply bytes_compare_refl.
Qed.

Lemma strip_prefix_0x s : strip_optional_hex_prefix (String.append "0x" s) = s.
Proof. done. Qed.

Section address_facts.
Context {H : HexCrate} {HL : HexLaws H} {HC : HashCrates}.

Lemma hex_encode_nonempty b : b ≠ [] → String.eqb (hex_encode b) EmptyString = false.
Proof.
  intros Hb. destruct (String.eqb_spec (hex_encode b) EmptyString) as [E|]; [|done].
  pose proof (hex_encode_length b) as Hl. rewrite E in Hl. by destruct b.
Qed.

(** Encoded bytes are digits, so a bare encoding never looks prefixed. *)
Lemma strip_prefix_encode b :
  strip_optional_hex_prefix (hex_encode b) = hex_encode b.
Proof.
  pose proof (hex_encode_digits b) as Hd.
  destruct (hex_encode b) as [|c0 [|c1 s]]; [done..|]. simpl in *. eld_bool.
  destruct (Ascii.eqb_spec c1 "x"%char) as [E|]; [by rewrite E in *|].
  destruct (Ascii.eqb_spec c1 "X"%char) as [E|]; [by rewrite E in *|].
  by rewrite andb_false_r.
Qed.

Lemma decode_fixed_hex_body n s field body b :
  strip_optional_hex_prefix s = body → body ≠ EmptyString →
  hex_decode body = Some b → length b = n →
  ∃ v : byte_array n, decode_fixed_hex n s field = Ok v ∧ vec_to_list v = b.
Proof.
  intros Hs Hne Hd Hl. unfold decode_fixed_hex. rewrite Hs.
  destruct (String.eqb_spec body EmptyString); [done|]. rewrite Hd.
  destruct (try_array_length n b Hl) as [v E]. rewrite E.
  exists v. split; [done|]. by apply try_array_Some.
Qed.

Lemma decode_fixed_hex_encode n (v : byte_array (S n)) field prefix :
  prefix = "0x" ∨ prefix = "0X" ∨ prefix = EmptyString →
  decode_fixed_hex (S n) (String.append prefix (hex_encode v)) field = Ok v.
Proof.
  intros Hp.
  assert (strip_optional_hex_prefix (String.append prefix (hex_encode v)) = hex_encode v) as Hs.
  { destruct Hp as [->|[->| ->]]; [done..|]. apply strip_prefix_encode. }
  unfold decode_fixed_hex. rewrite Hs, hex_encode_nonempty by (by inv_vec v).
  rewrite hex_decode_encode, try_array_to_list. done.
Qed.

Lemma hex_with_prefix_inj a b : hex_with_prefix a = hex_with_prefix b → a = b.
Proof.
  unfold hex_with_prefix, Address_hex. intros [= E].
  apply (inj hex_encode), vec_to_list_inj2 in E. destruct a, b. simpl in E. by subst.
Qed.

Lemma strip_prefix_lowercase s :
  strip_optional_hex_prefix (to_ascii_lowercase s) =
  to_ascii_lowercase (strip_optional_hex_prefix s).
Proof.
  destruct s as [|c0 [|c1 s]]; [done..|].
  cbn [to_ascii_lowercase string_map strip_optional_hex_prefix].
  assert (Ascii.eqb (ascii_to_lower c0) "0"%char = Ascii.eqb c0 "0"%char) as ->
    by by destruct c0 as [[] [] [] [] [] [] [] []].
  assert (Ascii.eqb (ascii_to_lower c1) "x"%char || Ascii.eqb (ascii_to_lower c1) "X"%char
          = Ascii.eqb c1 "x"%char || Ascii.eqb c1 "X"%char) as ->
    by by destruct c1 as [[] [] [] [] [] [] [] []].
  by destruct (_ && _).
Qed.

Lemma decode_fixed_hex_lowercase n s field :
  decode_fixed_hex n (to_ascii_lowercase s) field = decode_fixed_hex n s field.
Proof.
  unfold decode_fixed_hex. rewrite strip_prefix_lowercase, hex_decode_lowercase.
  by destruct (strip_optional_hex_prefix s).
Qed.

Lemma from_public_key_is_from pk a :
  from_public_key pk = Ok a ↔ is_from_public_key a pk = true.
Proof.
  unfold from_public_key, from_slice, is_from_public_key.
  rewrite bool_decide_eq_true. split.
  - destruct (try_array 20 _) as [v|] eqn:E; [|done]. intros [= <-].
    by apply try_array_Some in E.
  - intros E. rewrite <- E, try_array_to_list. by destruct a.
Qed.

(** ** Properties *)

(** Identifiers survive their text forms: an address or a challenge id
    parses back from its canonical text, and the prefix ([0x], [0X] or none)
    and the case of the digits never matter. *)
Theorem identifier_text_roundtrip (a : Address) (c : ChallengeId) (s : string) :
  parse_hex_str (hex_with_prefix a) = Ok a ∧
  parse_hex_str (Address_hex a) = Ok a ∧
  ChallengeId_parse_hex (ChallengeId_to_hex c) = Ok c ∧
  ChallengeId_parse_hex (String.append "0X" (ChallengeId_to_hex c)) = Ok c ∧
  parse_hex_str (to_ascii_lowercase s) = parse_hex_str s ∧
  ChallengeId_parse_hex (to_ascii_lowercase s) = ChallengeId_parse_hex s.
Proof.
  unfold parse_hex_str, hex_with_prefix, Address_hex, ChallengeId_parse_hex,
    ChallengeId_to_hex.
  rewrite !decode_fixed_hex_lowercase.
  rewrite !decode_fixed_hex_encode by auto.
  change (hex_encode (addr_value a)) with (String.append EmptyString (hex_encode (addr_value a))).
  change (hex_encode (challenge_bytes c)) with (String.append EmptyString (hex_encode (challenge_bytes c))).
  rewrite !decode_fixed_hex_encode by auto. by destruct a, c.
Qed.
End address_facts.

Lemma identifier_text_roundtrip_witness :
  parse_hex_str "0x1111111111111111111111111111111111111111" =
    Ok (mkAddress (vreplicate 20 Init.Byte.x11)).
Proof.
  exact (proj1 (identifier_text_roundtrip (mkAddress (vreplicate 20 Init.Byte.x11))
           (mkChallengeId (vreplicate 32 Init.Byte.x22)) EmptyString)).
Defined.
