(* ===== verification/Ordering.v ===== *)
(** Comparators and the stable sort of [slice::sort_by]: what makes the order
    of validators the same on every node. *)
From S2P Require Import Prelude Coins Address.

(** A comparator that is a total order: [Ordering] as a decidable, transitive
    and antisymmetric relation. *)
Class LawfulCompare {A : Type} (cmp : A → A → comparison) : Prop := {
  cmp_eq x y : cmp x y = Eq ↔ x = y;
  cmp_antisym x y : cmp y x = CompOpp (cmp x y);
  cmp_trans x y z : cmp x y = Lt → cmp y z = Lt → cmp x z = Lt;
}.

(** [Ordering::then_with] *)
Definition then_with (c d : comparison) : comparison :=
  match c with Eq => d | _ => c end.

Definition lex {A B : Type} (ca : A → A → comparison) (cb : B → B → comparison)
    (x y : A * B) : comparison := then_with (ca x.1 y.1) (cb x.2 y.2).

#[export] Instance lex_lawful {A B} (ca : A → A → comparison) (cb : B → B → comparison) :
  LawfulCompare ca → LawfulCompare cb → LawfulCompare (lex ca cb).
Proof.
  intros La Lb. unfold lex. split.
  - intros [x1 x2] [y1 y2]. simpl. destruct (ca x1 y1) eqn:E; simpl.
    + apply cmp_eq in E as ->. rewrite cmp_eq. split; [by intros ->|by intros [= ->]].
    + split; [done|]. intros [= -> ->]. by rewrite (proj2 (cmp_eq y1 y1) eq_refl) in E.
    + split; [done|]. intros [= -> ->]. by rewrite (proj2 (cmp_eq y1 y1) eq_refl) in E.
  - intros [x1 x2] [y1 y2]. simpl. rewrite (cmp_antisym x1 y1).
    destruct (ca x1 y1); simpl; [apply cmp_antisym|done..].
  - intros [x1 x2] [y1 y2] [z1 z2]. simpl.
    destruct (ca x1 y1) eqn:E1; simpl; [|intros _|done].
    + apply cmp_eq in E1 as ->. destruct (ca y1 z1); simpl; [apply cmp_trans|done..].
    + destruct (ca y1 z1) eqn:E2; simpl; [|intros _|done].
      * apply cmp_eq in E2 as ->. by rewrite E1.
      * by rewrite (cmp_trans x1 y1 z1 E1 E2).
Qed.

(** [b.cmp(a)]: the reversed order. *)
Lemma flip_lawful {A} (c : A → A → comparison) :
  LawfulCompare c → LawfulCompare (λ x y, c y x).
Proof.
  intros L. split.
  - intros x y. rewrite cmp_eq. done.
  - intros x y. apply cmp_antisym.
  - intros x y z H1 H2. by apply (cmp_trans (cmp := c) z y x).
Qed.

(** Comparing by an injective key. *)
Lemma key_lawful {A B} (f : A → B) (c : B → B → comparison) :
  Inj (=) (=) f → LawfulCompare c → LawfulCompare (λ x y, c (f x) (f y)).
Proof.
  intros Hf L. split.
  - intros x y. rewrite cmp_eq. split; [apply Hf|by intros ->].
  - intros x y. apply cmp_antisym.
  - intros x y z. apply cmp_trans.
Qed.

#[export] Instance Coin_compare_lawful : LawfulCompare Coin_compare.
Proof.
  unfold Coin_compare. split.
  - intros [x] [y]. simpl. rewrite Z.compare_eq_iff. split; [by intros ->|by intros [= ->]].
  - intros [x] [y]. apply Z.compare_antisym.
  - intros [x] [y] [z]. simpl. rewrite !Z.compare_lt_iff. lia.
Qed.

#[export] Instance bytes_compare_lawful : LawfulCompare bytes_compare.
Proof.
  split.
  - intros x y. split; [apply bytes_compare_eq|intros ->; apply bytes_compare_refl].
  - apply bytes_compare_antisym.
  - apply bytes_compare_trans.
Qed.

#[export] Instance Address_compare_lawful : LawfulCompare Address_compare.
Proof.
  split.
  - apply Address_compare_eq.
  - intros x y. apply bytes_compare_antisym.
  - intros x y z. apply bytes_compare_trans.
Qed.

(** ** Sorting *)

Section sorting.
Context {A : Type} (cmp : A → A → comparison).

Fixpoint insert_by (x : A) (l : list A) : list A :=
  match l with
  | [] => [x]
  | y :: l => match cmp x y with Gt => y :: insert_by x l | _ => x :: y :: l end
  end.

(** The stable sort: equal elements keep their order. *)
Definition sort_by (l : list A) : list A := foldr insert_by [] l.

Definition cmp_le (x y : A) : Prop := cmp x y ≠ Gt.

Lemma insert_by_perm x l : insert_by x l ≡ₚ x :: l.
Proof.
  induction l as [|y l IH]; simpl; [done|]. destruct (cmp x y); [done..|].
  rewrite IH. apply Permutation_swap.
Qed.

Lemma sort_by_perm l : sort_by l ≡ₚ l.
Proof. induction l as [|x l IH]; simpl; [done|]. by rewrite insert_by_perm, IH. Qed.

Context {L : LawfulCompare cmp}.

Lemma cmp_le_trans x y z : cmp_le x y → cmp_le y z → cmp_le x z.
Proof.
  unfold cmp_le. destruct (cmp x y) eqn:E1; [|destruct (cmp y z) eqn:E2|]; try done.
  - by apply cmp_eq in E1 as ->.
  - apply cmp_eq in E2 as ->. by rewrite E1.
  - by rewrite (cmp_trans (cmp := cmp) x y z).
Qed.

Lemma cmp_le_antisym x y : cmp_le x y → cmp_le y x → x = y.
Proof.
  unfold cmp_le. rewrite (cmp_antisym (cmp := cmp) x y). destruct (cmp x y) eqn:E; simpl; [|done..].
  intros _ _. by apply cmp_eq.
Qed.

Lemma insert_by_sorted x l : StronglySorted cmp_le l → StronglySorted cmp_le (insert_by x l).
Proof.
  induction 1 as [|y l Hl IH Hy]; simpl; [by repeat constructor|].
  destruct (cmp x y) eqn:E.
  1, 2: (assert (cmp_le x y) by (unfold cmp_le; congruence); constructor; [by constructor|];
    constructor; [done|]; eapply Forall_impl; [|exact Hy]; intros z; by apply cmp_le_trans).
  constructor; [done|]. rewrite insert_by_perm. constructor; [|done].
  unfold cmp_le. rewrite (cmp_antisym (cmp := cmp) x y), E. done.
Qed.

Lemma sort_by_sorted l : StronglySorted cmp_le (sort_by l).
Proof. induction l as [|x l IH]; simpl; [constructor|]. by apply insert_by_sorted. Qed.

(** The result depends only on which elements there are. *)
Lemma sort_by_unique l1 l2 : l1 ≡ₚ l2 → sort_by l1 = sort_by l2.
Proof.
  intros Hp. apply (StronglySorted_unique_strong cmp_le);
    [intros x y _ _; apply cmp_le_antisym|apply sort_by_sorted..|].
  by rewrite !sort_by_perm.
Qed.
End sorting.
