(* ===== verification/Cado.v ===== *)
(** Content-addressed objects: common/src/cado.rs, the [constants::cado]
    tables, and the namespace registry paths of common/src/namespace.rs. *)
From S2P Require Import Prelude Externals Reference Address Namespace.

(** ** Path constants *)

(** Pre-computed sha256("latest"). *)
Definition LATEST : string :=
  "0x5e1e2bcac305958b27077ca136f35f0abae7cf38c9af678f7d220ed0cb51d4f8".

Definition SCOPE_ELD_ROOT : string := "@eld".

Inductive CadoType : Type :=
| Cado_Account
| Cado_StakingAccount
| Cado_StorageStakingAccount
| Cado_CadoMap
| Cado_AppStateTip
| Cado_SnapshotMetadata
| Cado_SnapshotChunk
| Cado_ChunkReference
| Cado_AppStateSnapshot
| Cado_EpochRecord
| Cado_Namespace.

#[export] Instance CadoType_eq_dec : EqDecision CadoType.
Proof. solve_decision. Defined.

Definition CadoType_as_str (t : CadoType) : string :=
  match t with
  | Cado_Account => "account"
  | Cado_StakingAccount => "staking_account"
  | Cado_StorageStakingAccount => "storage_staking_account"
  | Cado_CadoMap => "cado_map"
  | Cado_AppStateTip => "app_state_tip"
  | Cado_SnapshotMetadata => "snapshot_metadata"
  | Cado_SnapshotChunk => "snapshot_chunk"
  | Cado_ChunkReference => "chunk_reference"
  | Cado_AppStateSnapshot => "app_state_snapshot"
  | Cado_EpochRecord => "epoch_record"
  | Cado_Namespace => "namespace"
  end.

Definition is_address_type (t : CadoType) : bool :=
  match t with
  | Cado_Account | Cado_StakingAccount | Cado_StorageStakingAccount => true
  | _ => false
  end.

Definition is_hash_type (t : CadoType) : bool := negb (is_address_type t).

Definition expected_hex_length (t : CadoType) : nat :=
  if is_address_type t then 20 else 32.

Definition CadoType_from_str (s : string) : option CadoType :=
  if String.eqb s "account" then Some Cado_Account
  else if String.eqb s "staking_account" then Some Cado_StakingAccount
  else if String.eqb s "storage_staking_account" then Some Cado_StorageStakingAccount
  else if String.eqb s "cado_map" then Some Cado_CadoMap
  else if String.eqb s "app_state_tip" then Some Cado_AppStateTip
  else if String.eqb s "snapshot_metadata" then Some Cado_SnapshotMetadata
  else if String.eqb s "snapshot_chunk" then Some Cado_SnapshotChunk
  else if String.eqb s "chunk_reference" then Some Cado_ChunkReference
  else if String.eqb s "app_state_snapshot" then Some Cado_AppStateSnapshot
  else if String.eqb s "epoch_record" then Some Cado_EpochRecord
  else if String.eqb s "namespace" then Some Cado_Namespace
  else None.

Definition CadoType_is_user_deletable (t : CadoType) : bool := false.

Definition CadoType_is_system_deletable (t : CadoType) : bool :=
  match t with
  | Cado_ChunkReference | Cado_SnapshotChunk | Cado_SnapshotMetadata => true
  | _ => false
  end.

Definition CadoType_is_deletable (t : CadoType) : bool :=
  CadoType_is_user_deletable t || CadoType_is_system_deletable t.

Definition CadoType_is_protected (t : CadoType) : bool := negb (CadoType_is_deletable t).

Inductive CadoScope : Type :=
| Scope_EldRoot
| Scope_User
| Scope_Public
| Scope_Test
| Scope_Other
| Scope_Eld.

Definition CadoScope_as_str (s : CadoScope) : string :=
  match s with
  | Scope_EldRoot => SCOPE_ELD_ROOT
  | Scope_User => "@user"
  | Scope_Public => "@public"
  | Scope_Test => "@test"
  | Scope_Other => "@other"
  | Scope_Eld => "@eld"
  end.

Definition CadoScope_from_str (s : string) : option CadoScope :=
  if String.eqb s SCOPE_ELD_ROOT || String.eqb s "@eld" then Some Scope_EldRoot
  else if String.eqb s "@user" then Some Scope_User
  else if String.eqb s "@public" then Some Scope_Public
  else if String.eqb s "@test" then Some Scope_Test
  else if String.eqb s "@other" then Some Scope_Other
  else None.

Definition VALID_TYPES : list string :=
  ["account"; "staking_account"; "storage_staking_account"; "cado_map";
   "app_state_tip"; "epoch_record"; "snapshot_metadata"; "snapshot_chunk";
   "chunk_reference"; "app_state_snapshot"; "namespace"].

Definition FOUR_PART_PATH_TYPES : list string := [].
Definition USER_DELETABLE_TYPES : list string := [].
Definition SYSTEM_DELETABLE_TYPES : list string :=
  ["chunk_reference"; "snapshot_chunk"; "snapshot_metadata"].
Definition INFRASTRUCTURE_CADO_TYPES : list string :=
  ["app_state_tip"; "app_state_snapshot"; "snapshot_metadata"; "snapshot_chunk"].

Definition str_in (l : list string) (s : string) : bool := existsb (String.eqb s) l.

(** ** Objects *)

Record CADOMetadata : Type := mkCADOMetadata {
  meta_type : string;
  meta_owner : string;
}.

Definition CADOMetadata_new (t : CadoType) (owner : string) : CADOMetadata :=
  mkCADOMetadata (CadoType_as_str t) owner.

Definition CADOMetadata_with_owner (m : CADOMetadata) (owner : string) : CADOMetadata :=
  mkCADOMetadata (meta_type m) owner.

Record CADO : Type := mkCADO {
  cado_hash : byte_array 32;
  cado_data : bytes;
  cado_metadata : CADOMetadata;
}.

Record CADOMut : Type := mkCADOMut {
  cadomut_hash : byte_array 32;
  cadomut_data : bytes;
  cadomut_metadata : CADOMetadata;
  cadomut_latest_hash : byte_array 32;
}.

Inductive CadoBody : Type :=
| Immutable (c : CADO)
| Mutable (m : CADOMut).

#[export] Instance CADOMetadata_eq_dec : EqDecision CADOMetadata.
Proof. solve_decision. Defined.
#[export] Instance CADO_eq_dec : EqDecision CADO.
Proof. solve_decision. Defined.
#[export] Instance CADOMut_eq_dec : EqDecision CADOMut.
Proof. solve_decision. Defined.
#[export] Instance CadoBody_eq_dec : EqDecision CadoBody.
Proof. solve_decision. Defined.

Section objects.
Context {HC : HashCrates}.

Definition CADO_new (data : bytes) (metadata : CADOMetadata) : CADO :=
  mkCADO (sha256 data) data metadata.

Definition CADOMut_new (data : bytes) (metadata : CADOMetadata) : CADOMut :=
  let hash := sha256 data in
  mkCADOMut hash data metadata hash.

Definition CADOMut_updated (original_hash : byte_array 32) (data : bytes)
    (metadata : CADOMetadata) : CADOMut :=
  mkCADOMut original_hash data metadata (sha256 data).

Definition CadoBody_immutable (data : bytes) (metadata : CADOMetadata) : CadoBody :=
  Immutable (CADO_new data metadata).
Definition CadoBody_mutable_new (data : bytes) (metadata : CADOMetadata) : CadoBody :=
  Mutable (CADOMut_new data metadata).
Definition CadoBody_mutable_updated (original_hash : byte_array 32) (data : bytes)
    (metadata : CADOMetadata) : CadoBody :=
  Mutable (CADOMut_updated original_hash data metadata).
End objects.

Definition CadoBody_metadata (b : CadoBody) : CADOMetadata :=
  match b with Immutable c => cado_metadata c | Mutable m => cadomut_metadata m end.
Definition CadoBody_data (b : CadoBody) : bytes :=
  match b with Immutable c => cado_data c | Mutable m => cadomut_data m end.
Definition CadoBody_hash_bytes (b : CadoBody) : byte_array 32 :=
  match b with Immutable c => cado_hash c | Mutable m => cadomut_hash m end.

(** The digest stored in the state trie. *)
Definition content_hash (b : CadoBody) : byte_array 32 := CadoBody_hash_bytes b.

Definition CadoBody_latest_hash (b : CadoBody) : option (byte_array 32) :=
  match b with Immutable _ => None | Mutable m => Some (cadomut_latest_hash m) end.

(** ** Paths *)

Record CadoPath : Type := mkCadoPath {
  cp_path : string;
  cp_scope : string;
  cp_type : string;
  cp_name : string;
}.

#[export] Instance CadoPath_eq_dec : EqDecision CadoPath.
Proof. solve_decision. Defined.

Inductive CadoPathKey : Type :=
| Key_Name (name : string)
| Key_NameAndId (name id : string)
| Key_Address (a : Address)
| Key_AddressAndId (a : Address) (id : string)
| Key_NamespaceSlug (slug : string).

(** [str::split_once(c)]. *)
Fixpoint split_once (c : ascii) (s : string) : option (string * string) :=
  match s with
  | EmptyString => None
  | String c' s =>
      if Ascii.eqb c c' then Some (EmptyString, s)
      else match split_once c s with
           | None => None
           | Some (a, b) => Some (String c' a, b)
           end
  end.

(** [str::splitn(n, c)]: at most [n] parts, the last one unsplit. *)
Fixpoint splitn (n : nat) (c : ascii) (s : string) : list string :=
  match n with
  | O => []
  | S O => [s]
  | S n' =>
      match split_once c s with
      | None => [s]
      | Some (a, b) => a :: splitn n' c b
      end
  end.

(** [format!("/{scope}/{type}/{name}")]. *)
Definition path3 (scope type_ name : string) : string :=
  String "/" (String.append scope (String "/" (String.append type_ (String "/" name)))).

Section paths.
Context {H : HexCrate}.

Definition validate_hex (s : string) (expected_len : nat) (field_name : string) :
    eld_result unit :=
  if negb (starts_with "0x" s) then Err (ValidationError field_name)
  else
    match hex_decode (string_drop 2 s) with
    | None => Err (ValidationError field_name)
    | Some b =>
        if negb (length b =? expected_len)%nat then Err (ValidationError field_name)
        else Ok tt
    end.

Definition CadoPath_new (type_ : CadoType) (key : CadoPathKey) : eld_result CadoPath :=
  let scope := SCOPE_ELD_ROOT in
  let type_str := CadoType_as_str type_ in
  let requires_four_part := str_in FOUR_PART_PATH_TYPES type_str in
  let uses_twenty_byte_name := is_address_type type_ in
  match type_ with
  | Cado_Namespace =>
      match key with
      | Key_NamespaceSlug slug =>
          let? _ := validate_namespace_slug slug in
          Ok (mkCadoPath (path3 scope type_str slug) scope type_str slug)
      | _ => Err (ValidationError "path")
      end
  | _ =>
      let? pn :=
        (if requires_four_part then
           let? ni :=
             match key with
             | Key_NameAndId name id => Ok (name, id)
             | Key_AddressAndId addr id => Ok (hex_with_prefix addr, id)
             | Key_Name _ | Key_Address _ | Key_NamespaceSlug _ => Err (ValidationError "path")
             end in
           let name := fst ni in let id := snd ni in
           let? _ := validate_hex name 20 "sender address" in
           let? _ := validate_hex id 32 "chunk or record ID" in
           let name_id := String.append name (String "/" id) in
           Ok (path3 scope type_str name_id, name_id)
         else
           let? name :=
             match key with
             | Key_Name name => Ok name
             | Key_Address addr =>
                 if negb uses_twenty_byte_name then Err (ValidationError "path")
                 else Ok (hex_with_prefix addr)
             | Key_NameAndId _ _ | Key_AddressAndId _ _ => Err (ValidationError "path")
             | Key_NamespaceSlug _ => Err (ValidationError "path")
             end in
           let expected_len := if uses_twenty_byte_name then 20%nat else 32%nat in
           let? _ := validate_hex name expected_len "name" in
           Ok (path3 scope type_str name, name)) in
      Ok (mkCadoPath (fst pn) scope type_str (snd pn))
  end.

Definition CadoPath_parse (path : string) : eld_result CadoPath :=
  if negb (starts_with "/" path) then Err (ValidationError "path")
  else
    match splitn 4 "/"%char (string_drop 1 path) with
    | scope :: type_ :: part2 :: rest =>
        if negb (starts_with "@" scope) || (String.length scope <=? 1)%nat
        then Err (ValidationError "scope")
        else if negb (str_in VALID_TYPES type_) then Err (ValidationError "type")
        else
          let? name :=
            (if str_in FOUR_PART_PATH_TYPES type_ then
               match rest with
               | [part3] =>
                   let? _ := validate_hex part2 20 "sender address" in
                   let? _ := validate_hex part3 32 "chunk or record ID" in
                   Ok (String.append part2 (String "/" part3))
               | _ => Err (ValidationError "path")
               end
             else
               match rest with
               | _ :: _ => Err (ValidationError "path")
               | [] =>
                   let expected_len :=
                     if String.eqb type_ "account" || String.eqb type_ "staking_account"
                        || String.eqb type_ "storage_staking_account"
                     then 20%nat else 32%nat in
                   if String.eqb type_ "namespace" then
                     let? _ := validate_namespace_slug part2 in Ok part2
                   else
                     let? _ := validate_hex part2 expected_len "name" in Ok part2
               end) in
          Ok (mkCadoPath path scope type_ name)
    | _ => Err (ValidationError "path")
    end.

Definition CadoPath_is_user_deletable (p : CadoPath) : bool :=
  str_in USER_DELETABLE_TYPES (cp_type p).
Definition CadoPath_is_system_deletable (p : CadoPath) : bool :=
  str_in SYSTEM_DELETABLE_TYPES (cp_type p).
Definition CadoPath_is_deletable (p : CadoPath) : bool :=
  CadoPath_is_user_deletable p || CadoPath_is_system_deletable p.
Definition CadoPath_is_protected (p : CadoPath) : bool := negb (CadoPath_is_deletable p).
Definition is_infrastructure (p : CadoPath) : bool :=
  str_in INFRASTRUCTURE_CADO_TYPES (cp_type p).

Definition validate_user_deletion (p : CadoPath) : eld_result unit :=
  if negb (CadoPath_is_user_deletable p) then Err (ValidationError "cado_type") else Ok tt.

Definition validate_system_deletion (p : CadoPath) : eld_result unit :=
  if negb (CadoPath_is_system_deletable p) then Err (ValidationError "cado_type")
  else if negb (String.eqb (cp_scope p) SCOPE_ELD_ROOT) then Err (ValidationError "cado_scope")
  else Ok tt.

Definition validate_deletion (p : CadoPath) (is_system_operation : bool) : eld_result unit :=
  if is_system_operation then validate_system_deletion p else validate_user_deletion p.

Definition is_infrastructure_cado_path (path : string) : bool :=
  match CadoPath_parse path with Ok p => is_infrastructure p | Err _ => false end.

Definition slug_to_namespace_cadopath (slug : string) : eld_result CadoPath :=
  let? canonical := normalize_namespace_slug slug in
  if is_reserved_namespace_slug canonical then Err slug_error
  else CadoPath_new Cado_Namespace (Key_NamespaceSlug canonical).
End paths.

(** ** Epoch record names *)

(** [{:064x}]: lowercase hexadecimal, zero-padded. *)
Definition nibble_ascii (d : Z) : ascii :=
  ascii_of_N (Z.to_N (if d <? 10 then 48 + d else 87 + d)).

Fixpoint hex_digits (width : nat) (n : Z) (acc : string) : string :=
  match width with
  | O => acc
  | S w => hex_digits w (n / 16) (String (nibble_ascii (n mod 16)) acc)
  end.

Definition ascii_nibble (c : ascii) : option Z :=
  if is_ascii_digit c then Some (Z.of_N (N_of_ascii c) - 48)
  else if ascii_between 97 102 c then Some (Z.of_N (N_of_ascii c) - 87)
  else if ascii_between 65 70 c then Some (Z.of_N (N_of_ascii c) - 55)
  else None.

(** [u64::from_str_radix(s, 16)] on a string without sign. *)
Fixpoint from_str_radix16 (s : string) (acc : Z) : option Z :=
  match s with
  | EmptyString => Some acc
  | String c s =>
      match ascii_nibble c with
      | None => None
      | Some d =>
          if u64_max <? acc * 16 + d then None else from_str_radix16 s (acc * 16 + d)
      end
  end.

Definition epoch_record_path_name (epoch : Z) : eld_result string :=
  if epoch <? 0 then Err (ValidationError "epoch")
  else Ok (String.append "0x" (hex_digits 64 (as_u64 epoch) EmptyString)).

Definition epoch_from_record_path_name (name : string) : option Z :=
  if negb (starts_with "0x" name) || negb (String.length name =? 66)%nat then None
  else
    let hex_part := string_drop 2 name in
    if negb (string_all is_ascii_hexdigit hex_part) then None
    else
      match from_str_radix16 hex_part 0 with
      | None => None
      | Some epoch_u64 => if epoch_u64 <=? i64_max then Some epoch_u64 else None
      end.

(** ** Lemmas *)

Definition no_slash (s : string) : bool := string_all (λ c, negb (Ascii.eqb "/"%char c)) s.

Lemma split_once_app c s t :
  string_all (λ c', negb (Ascii.eqb c c')) s = true →
  split_once c (String.append s (String c t)) = Some (s, t).
Proof.
  induction s as [|c' s IH]; simpl; [by rewrite Ascii.eqb_refl|].
  intros Hs. eld_bool. by rewrite H, IH.
Qed.

Lemma split_once_none c s :
  string_all (λ c', negb (Ascii.eqb c c')) s = true → split_once c s = None.
Proof.
  induction s as [|c' s IH]; simpl; [done|]. intros Hs. eld_bool. by rewrite H, IH.
Qed.

Lemma split_once_None_inv c s :
  split_once c s = None → string_all (λ c', negb (Ascii.eqb c c')) s = true.
Proof.
  induction s as [|c' s IH]; simpl; [done|]. destruct (Ascii.eqb c c'); [done|].
  destruct (split_once c s) as [[]|]; [done|]. auto.
Qed.

Lemma split_once_Some c s a b :
  split_once c s = Some (a, b) → s = String.append a (String c b).
Proof.
  revert a. induction s as [|c' s IH]; simpl; intros a; [done|].
  destruct (Ascii.eqb_spec c c') as [<-|].
  - by intros [= <- <-].
  - destruct (split_once c s) as [[a' b']|]; [|done]. intros [= <- <-]. by rewrite (IH a' eq_refl).
Qed.

Lemma string_drop_1 c s : string_drop 1 (String c s) = s.
Proof. unfold string_drop. simpl. rewrite Nat.sub_0_r. induction s; simpl; by f_equal. Qed.

Lemma string_drop_2 c d s : string_drop 2 (String c (String d s)) = s.
Proof.
  rewrite <- (string_drop_1 d s) at 2. unfold string_drop. simpl. by rewrite !Nat.sub_0_r.
Qed.

Lemma starts_with_cons c s : starts_with (String c EmptyString) s = true → ∃ t, s = String c t.
Proof. destruct s as [|c' s]; [done|]. unfold starts_with. simpl. destruct (ascii_dec c c'); [subst; eauto|done]. Qed.

Lemma starts_with_0x s : starts_with "0x" s = true → ∃ t, s = String.append "0x" t.
Proof.
  unfold starts_with. rewrite String.prefix_correct.
  destruct s as [|a [|b s]]; simpl; try done. intros [= -> -> _]. by exists s.
Qed.

Lemma string_drop_0x s : string_drop 2 (String.append "0x" s) = s.
Proof. apply string_drop_2. Qed.

Lemma starts_with_0x_app s : starts_with "0x" (String.append "0x" s) = true.
Proof. unfold starts_with. by rewrite String.prefix_correct; destruct s. Qed.

Lemma splitn4_path3 scope type_ name :
  no_slash scope = true → no_slash type_ = true → no_slash name = true →
  splitn 4 "/"%char (string_drop 1 (path3 scope type_ name)) = [scope; type_; name].
Proof.
  intros Hs Ht Hn. unfold path3. rewrite string_drop_1. cbn [splitn].
  rewrite split_once_app by done. cbn [splitn]. rewrite split_once_app by done.
  by rewrite split_once_none.
Qed.

Lemma splitn4_inv path scope type_ name :
  starts_with "/" path = true →
  splitn 4 "/"%char (string_drop 1 path) = [scope; type_; name] →
  path = path3 scope type_ name.
Proof.
  intros [t ->]%starts_with_cons. rewrite string_drop_1. cbn [splitn].
  destruct (split_once _ t) as [[a b]|] eqn:E1; [|done].
  destruct (split_once _ b) as [[a' b']|] eqn:E2; [|done].
  destruct (split_once _ b') as [[]|] eqn:E3; [done|].
  intros [= -> -> ->]. apply split_once_Some in E1 as ->. apply split_once_Some in E2 as ->. done.
Qed.

Lemma CadoType_from_as_str t : CadoType_from_str (CadoType_as_str t) = Some t.
Proof. by destruct t. Qed.

#[export] Instance CadoType_as_str_inj : Inj (=) (=) CadoType_as_str.
Proof.
  intros t u E. pose proof (CadoType_from_as_str t) as Ht.
  rewrite E, CadoType_from_as_str in Ht. by injection Ht.
Qed.

Lemma VALID_TYPES_spec s : str_in VALID_TYPES s = true → ∃ t, s = CadoType_as_str t.
Proof.
  unfold str_in. intros (x & Hin & ->%String.eqb_eq)%existsb_exists.
  simpl in Hin. repeat (destruct Hin as [<-|Hin]).
  - by exists Cado_Account.
  - by exists Cado_StakingAccount.
  - by exists Cado_StorageStakingAccount.
  - by exists Cado_CadoMap.
  - by exists Cado_AppStateTip.
  - by exists Cado_EpochRecord.
  - by exists Cado_SnapshotMetadata.
  - by exists Cado_SnapshotChunk.
  - by exists Cado_ChunkReference.
  - by exists Cado_AppStateSnapshot.
  - by exists Cado_Namespace.
  - done.
Qed.

Lemma slug_no_slash s : validate_namespace_slug s = Ok tt → no_slash s = true.
Proof.
  intros (_ & Hc & _)%validate_namespace_slug_Ok. eapply string_all_impl; [|done].
  intros c. destruct (Ascii.eqb_spec "/"%char c); [by subst|done].
Qed.

Section path_facts.
Context {H : HexCrate} {HL : HexLaws H} {HC : HashCrates}.

Lemma validate_hex_no_slash s n f : validate_hex s n f = Ok tt → no_slash s = true.
Proof.
  unfold validate_hex. destruct (starts_with "0x" s) eqn:E; [|done].
  apply starts_with_0x in E as [t ->]. cbn [negb]. rewrite string_drop_0x.
  destruct (hex_decode t) as [b|] eqn:Ed; [|done]. intros _.
  unfold no_slash. rewrite string_all_app. simpl.
  by apply hexdigits_no_slash, (hex_decode_digits _ b).
Qed.

Lemma validate_hex_ok s b f :
  hex_decode s = Some b → validate_hex (String.append "0x" s) (length b) f = Ok tt.
Proof.
  intros E. unfold validate_hex. rewrite starts_with_0x_app, string_drop_0x, E.
  by rewrite Nat.eqb_refl.
Qed.

Lemma validate_hex_address a f : validate_hex (hex_with_prefix a) 20 f = Ok tt.
Proof.
  unfold hex_with_prefix, Address_hex.
  pose proof (validate_hex_ok _ _ f (hex_decode_encode (addr_value a))) as E.
  by rewrite length_vec_to_list in E.
Qed.

(** A 3-part path name is valid for its type. *)
Definition name_ok (t : CadoType) (name : string) : Prop :=
  match t with
  | Cado_Namespace => validate_namespace_slug name = Ok tt
  | _ => validate_hex name (expected_hex_length t) "name" = Ok tt
  end.

Lemma name_ok_no_slash t name : name_ok t name → no_slash name = true.
Proof. destruct t; simpl; eauto using validate_hex_no_slash, slug_no_slash. Qed.

Definition eld_path (t : CadoType) (name : string) : CadoPath :=
  mkCadoPath (path3 SCOPE_ELD_ROOT (CadoType_as_str t) name)
    SCOPE_ELD_ROOT (CadoType_as_str t) name.

(** What [CadoPath_new] builds, and from which key. *)
Lemma CadoPath_new_Ok t k p :
  CadoPath_new t k = Ok p ↔
  ∃ name, p = eld_path t name ∧ name_ok t name ∧
    match k with
    | Key_Name n => t ≠ Cado_Namespace ∧ n = name
    | Key_Address a => is_address_type t = true ∧ name = hex_with_prefix a
    | Key_NamespaceSlug s => t = Cado_Namespace ∧ s = name
    | _ => False
    end.
Proof.
  split.
  - unfold CadoPath_new. intros E.
    destruct t, k; simpl in E; try done;
      repeat match type of E with
      | context [validate_hex ?a ?b ?c] => destruct (validate_hex a b c) as [[]|] eqn:?; simpl in E
      | context [validate_namespace_slug ?a] => destruct (validate_namespace_slug a) as [[]|] eqn:?; simpl in E
      end; try done; injection E as <-; eexists; split_and!; try done.
  - intros (name & -> & Hn & Hk). unfold CadoPath_new, eld_path.
    destruct t, k; simpl in *; destruct_and?; try done; subst;
      unfold expected_hex_length in Hn; simpl in *; by rewrite Hn.
Qed.

Lemma CadoPath_parse_eld t name :
  name_ok t name → CadoPath_parse (cp_path (eld_path t name)) = Ok (eld_path t name).
Proof.
  intros Hn. unfold CadoPath_parse, eld_path. cbn [cp_path].
  rewrite splitn4_path3; [|done|by destruct t|by eapply name_ok_no_slash].
  destruct t; simpl in *; unfold expected_hex_length in Hn; simpl in Hn; by rewrite Hn.
Qed.

Lemma CadoPath_parse_inv s p :
  CadoPath_parse s = Ok p → cp_scope p = SCOPE_ELD_ROOT →
  ∃ t name, p = eld_path t name ∧ name_ok t name.
Proof.
  unfold CadoPath_parse. destruct (starts_with "/" s) eqn:Es; [|done]. cbn [negb].
  destruct (splitn 4 _ _) as [|scope [|type_ [|name rest]]] eqn:Esp; try done.
  destruct (_ || _)%bool; [done|].
  destruct (str_in VALID_TYPES type_) eqn:Et; [|done]. apply VALID_TYPES_spec in Et as [t ->].
  cbn [negb]. replace (str_in FOUR_PART_PATH_TYPES (CadoType_as_str t)) with false by done.
  destruct rest as [|]; [|done]. apply splitn4_inv in Esp as ->; [|done].
  intros E Hs. exists t, name.
  assert (name_ok t name ∧ p = mkCadoPath (path3 scope (CadoType_as_str t) name) scope
            (CadoType_as_str t) name) as [? ->].
  { destruct t; simpl in E |- *;
      repeat match type of E with
      | context [validate_hex ?a ?b ?c] => destruct (validate_hex a b c) as [[]|] eqn:?; simpl in E
      | context [validate_namespace_slug ?a] => destruct (validate_namespace_slug a) as [[]|] eqn:?; simpl in E
      end; try done; injection E as <-; done. }
  simpl in Hs. subst. done.
Qed.

Lemma CadoPath_parse_new t k p : CadoPath_new t k = Ok p → CadoPath_parse (cp_path p) = Ok p.
Proof. intros (name & -> & Hn & _)%CadoPath_new_Ok. by apply CadoPath_parse_eld. Qed.

(** A storage path determines the type and the name it was built from. *)
Lemma CadoPath_new_inj t k p t' k' p' :
  CadoPath_new t k = Ok p → CadoPath_new t' k' = Ok p' → cp_path p = cp_path p' →
  t = t' ∧ p = p'.
Proof.
  intros E E' Hp. pose proof (CadoPath_parse_new _ _ _ E) as P.
  rewrite Hp, (CadoPath_parse_new _ _ _ E') in P. injection P as ->.
  apply CadoPath_new_Ok in E as (n & -> & _ & _). apply CadoPath_new_Ok in E' as (n' & E & _ & _).
  split; [|done]. by apply (f_equal cp_type), (inj CadoType_as_str) in E.
Qed.

Lemma CadoPath_new_address t a :
  is_address_type t = true → CadoPath_new t (Key_Address a) = Ok (eld_path t (hex_with_prefix a)).
Proof.
  intros Ht. apply CadoPath_new_Ok. eexists; split_and!; try done.
  pose proof (validate_hex_address a "name"). by destruct t.
Qed.

(** ** Properties *)

(** Typed construction and parsing accept the same paths: the paths
    [CadoPath::new] builds are exactly the ones [CadoPath::parse] accepts in
    the root scope, and they parse back to themselves. *)
Theorem cado_path_new_parse_agree (p : CadoPath) :
  (∃ t k, CadoPath_new t k = Ok p) ↔
  (CadoPath_parse (cp_path p) = Ok p ∧ cp_scope p = SCOPE_ELD_ROOT).
Proof.
  split.
  - intros (t & k & E). split; [by eapply CadoPath_parse_new|].
    by apply CadoPath_new_Ok in E as (n & -> & _ & _).
  - intros [E Hs]. destruct (CadoPath_parse_inv _ _ E Hs) as (t & name & -> & Hn).
    exists t, (match t with Cado_Namespace => Key_NamespaceSlug name | _ => Key_Name name end).
    apply CadoPath_new_Ok. exists name. split_and!; [done..|]. by destruct t.
Qed.

(** Storage keys never collide: two constructed paths with the same text
    have the same type and name, and two address paths with the same text
    belong to the same address. *)
Theorem cado_path_keys_distinct t k p t' k' p' :
  CadoPath_new t k = Ok p → CadoPath_new t' k' = Ok p' → cp_path p = cp_path p' →
  t = t' ∧ p = p' ∧
  (∀ a b, k = Key_Address a → k' = Key_Address b → a = b).
Proof.
  intros E E' Hp. destruct (CadoPath_new_inj _ _ _ _ _ _ E E' Hp) as [-> ->].
  split_and!; [done..|]. intros a b -> ->.
  apply CadoPath_new_Ok in E as (n & -> & _ & _ & ->).
  apply CadoPath_new_Ok in E' as (n & E & _ & _ & ->).
  by apply (f_equal cp_name), hex_with_prefix_inj in E.
Qed.
End path_facts.

Lemma cado_path_new_parse_agree_witness :
  CadoPath_parse "/@eld/namespace/chess-club" =
    Ok (eld_path Cado_Namespace "chess-club").
Proof.
  exact (proj1 (proj1 (cado_path_new_parse_agree (eld_path Cado_Namespace "chess-club"))
    (ex_intro _ Cado_Namespace (ex_intro _ (Key_NamespaceSlug "chess-club") eq_refl)))).
Defined.

Lemma cado_path_keys_distinct_witness :
  let a := mkAddress (vreplicate 20 Init.Byte.x11) in
  Cado_Account = Cado_Account ∧ a = a.
Proof.
  intros a. pose (p := eld_path Cado_Account (hex_with_prefix a)).
  assert (CadoPath_new Cado_Account (Key_Address a) = Ok p) as E by (vm_compute; reflexivity).
  destruct (cado_path_keys_distinct _ _ _ _ _ _ E E eq_refl) as (Ht & _ & Ha).
  split; [exact Ht | exact (Ha a a eq_refl eq_refl)].
Defined.

(** ** Epoch record names and deletion rules *)

Lemma nibble_roundtrip d : 0 ≤ d < 16 →
  ascii_nibble (nibble_ascii d) = Some d ∧ is_ascii_hexdigit (nibble_ascii d) = true.
Proof.
  intros Hd.
  assert (d ∈ [0;1;2;3;4;5;6;7;8;9;10;11;12;13;14;15]) as Hin.
  { repeat rewrite elem_of_cons. lia. }
  repeat (apply elem_of_cons in Hin as [->|Hin]; [done|]). by apply elem_of_nil in Hin.
Qed.

Lemma hex_digits_shape w n acc :
  string_all is_ascii_hexdigit acc = true →
  string_all is_ascii_hexdigit (hex_digits w n acc) = true ∧
  String.length (hex_digits w n acc) = (w + String.length acc)%nat.
Proof.
  revert n acc. induction w as [|w IH]; intros n acc Ha; simpl; [done|].
  destruct (IH (n / 16) (String (nibble_ascii (n mod 16)) acc)) as [-> ->].
  - simpl. rewrite Ha. by rewrite (proj2 (nibble_roundtrip _ (Z.mod_pos_bound n 16 eq_refl))).
  - simpl. split; [done|lia].
Qed.

Lemma from_str_radix16_hex w n acc :
  0 ≤ n < 16 ^ Z.of_nat w → n ≤ u64_max →
  from_str_radix16 (hex_digits w n acc) 0 = from_str_radix16 acc n.
Proof.
  revert n acc. induction w as [|w IH]; intros n acc Hn Hm.
  - simpl in Hn. simpl. f_equal. lia.
  - rewrite Nat2Z.inj_succ, Z.pow_succ_r in Hn by lia.
    assert (0 ≤ n mod 16 < 16) as Hd by (apply Z.mod_pos_bound; lia).
    assert (n = 16 * (n / 16) + n mod 16) as Hdm by (apply Z.div_mod; lia).
    assert (0 ≤ n / 16 < 16 ^ Z.of_nat w).
    { split; [apply Z.div_pos; lia|]. apply Z.div_lt_upper_bound; lia. }
    cbn [hex_digits]. rewrite IH by lia. cbn [from_str_radix16].
    rewrite (proj1 (nibble_roundtrip _ Hd)).
    destruct (u64_max <? n / 16 * 16 + n mod 16) eqn:E; eld_bool; [lia|]. f_equal. lia.
Qed.

(** The digits of an epoch's name. *)
Lemma epoch_record_digits epoch :
  0 ≤ epoch ≤ i64_max →
  ∃ d, epoch_record_path_name epoch = Ok (String.append "0x" d) ∧ String.length d = 64%nat ∧
    string_all is_ascii_hexdigit d = true ∧ from_str_radix16 d 0 = Some epoch.
Proof.
  intros He. unfold epoch_record_path_name.
  destruct (epoch <? 0) eqn:E0; eld_bool; [lia|].
  rewrite as_u64_small by (unfold u64_max, i64_max in *; lia).
  destruct (hex_digits_shape 64 epoch EmptyString eq_refl) as [Hd Hl].
  eexists; split_and!; [done|done|done|].
  by rewrite from_str_radix16_hex by (unfold u64_max, i64_max in *; lia).
Qed.

(** 64 hex digits name an epoch record. *)
Lemma epoch_record_key {H : HexCrate} {HL : HexLaws H} d :
  String.length d = 64%nat → string_all is_ascii_hexdigit d = true →
  CadoPath_new Cado_EpochRecord (Key_Name (String.append "0x" d)) =
    Ok (eld_path Cado_EpochRecord (String.append "0x" d)).
Proof.
  intros Hl Hd. apply CadoPath_new_Ok. eexists; split_and!; try done.
  destruct (hex_decode_total _ 32 Hl Hd) as [b Eb].
  pose proof (hex_decode_length _ _ Eb) as Hlb. rewrite Hl in Hlb.
  assert (length b = 32%nat) as E32 by (simpl in Hlb; lia).
  pose proof (validate_hex_ok _ _ "name" Eb) as Ev. by rewrite E32 in Ev.
Qed.

(** Epoch records are addressable: every non-negative epoch has a path
    name, distinct epochs have distinct names, the name reads back as the
    epoch, and it is a valid key of an [EpochRecord] path. *)
Theorem epoch_record_name_roundtrip {H : HexCrate} {HL : HexLaws H} (epoch : Z) :
  0 ≤ epoch ≤ i64_max →
  ∃ name, epoch_record_path_name epoch = Ok name ∧
    epoch_from_record_path_name name = Some epoch ∧
    CadoPath_new Cado_EpochRecord (Key_Name name) = Ok (eld_path Cado_EpochRecord name).
Proof.
  intros He. destruct (epoch_record_digits epoch He) as (d & E & Hl & Hd & Hr).
  eexists; split_and!; [done| |by apply epoch_record_key].
  unfold epoch_from_record_path_name. rewrite starts_with_0x_app, string_drop_0x, Hd.
  rewrite string_length_app, Hl. simpl negb. cbv iota. rewrite Hr.
  destruct (epoch <=? i64_max) eqn:Em; eld_bool; [done|lia].
Qed.

Lemma epoch_record_name_roundtrip_witness :
  ∃ name, epoch_record_path_name 47 = Ok name ∧
    epoch_from_record_path_name name = Some 47 ∧
    CadoPath_new Cado_EpochRecord (Key_Name name) = Ok (eld_path Cado_EpochRecord name).
Proof. apply (epoch_record_name_roundtrip 47). unfold i64_max. lia. Defined.

(** Critical objects are never deletable: a deletion check passes only as
    a system operation, in the root scope, and only for chunk references,
    snapshot chunks and snapshot metadata; the type-level and the path-level
    tables agree. *)
Theorem deletion_only_of_system_types (p : CadoPath) (is_system : bool) (t : CadoType) :
  (validate_deletion p is_system = Ok tt ↔
     is_system = true ∧ cp_scope p = SCOPE_ELD_ROOT ∧
     cp_type p ∈ ["chunk_reference"; "snapshot_chunk"; "snapshot_metadata"]) ∧
  (cp_type p = CadoType_as_str t →
     CadoPath_is_protected p = CadoType_is_protected t ∧
     (CadoType_is_protected t = true → is_ok (validate_deletion p is_system) = false)).
Proof.
  assert (CadoPath_is_system_deletable p = true ↔
    cp_type p ∈ ["chunk_reference"; "snapshot_chunk"; "snapshot_metadata"]) as Hs.
  { unfold CadoPath_is_system_deletable, str_in. rewrite existsb_exists. split.
    - intros (x & Hx & ->%String.eqb_eq). by apply list_elem_of_In.
    - intros Hx. exists (cp_type p). by rewrite String.eqb_refl, <- list_elem_of_In. }
  split.
  - rewrite <- Hs. unfold validate_deletion, validate_system_deletion, validate_user_deletion.
    destruct is_system; simpl; [|by split; intros; destruct_and?].
    destruct (CadoPath_is_system_deletable p); simpl; [|by split; intros; destruct_and?].
    destruct (String.eqb_spec (cp_scope p) SCOPE_ELD_ROOT); simpl;
      by split; intros; destruct_and?.
  - intros E. unfold CadoPath_is_protected, CadoPath_is_deletable, validate_deletion,
      validate_system_deletion, validate_user_deletion, CadoPath_is_system_deletable,
      CadoPath_is_user_deletable. rewrite E. destruct t, is_system; done.
Qed.

Lemma deletion_only_of_system_types_witness :
  is_ok (validate_deletion (eld_path Cado_Account "0x00") true) = false.
Proof.
  apply (deletion_only_of_system_types (eld_path Cado_Account "0x00") true Cado_Account);
    reflexivity.
Defined.
