(* ===== verification/Records.v ===== *)
(** On-chain records: common/src/account.rs, staking_account.rs, validator.rs,
    public_key.rs, the [NamespaceRecord] of namespace.rs, and the size-checked
    bincode reads of validation.rs. *)
From S2P Require Import Prelude Externals Reference Coins Address Cado.

(** ** Records *)

Record Account : Type := mkAccount {
  acc_address : Address;
  acc_balance : Coin;
  acc_nonce : Nonce;
}.

Record StakingAccount : Type := mkStakingAccount {
  sa_address : Address;
  sa_stake_balance : Coin;
  sa_originator : Address;
}.

Record NamespaceRecord : Type := mkNamespaceRecord {
  ns_slug : string;
  ns_owner : Address;
  ns_registered_height : Z;
}.

Record ValidatorInfo : Type := mkValidatorInfo {
  val_address : Address;
  val_stake : Coin;
  val_public_key : bytes;
}.

(** [struct PublicKey { bytes: [u8; 32] }]: a checked verifying key. *)
Record PublicKey : Type := mkPublicKey { pk_bytes : byte_array 32 }.

Record CapacityValidatorInfo : Type := mkCapacityValidatorInfo {
  cv_address : Address;
  cv_stake : Coin;
  cv_public_key : PublicKey;
  cv_storage_capacity : Z;
  cv_merkle_root : option (byte_array 32);
  cv_seed : option (byte_array 32);
  cv_chunk_count : option Z;
  cv_registered_at : option Z;
  cv_last_merkle_root_update : option Z;
  cv_registered_block : Z;
  cv_registration_duration : Z;
}.

Record ActiveCapacityValidator : Type := mkActiveCapacityValidator {
  acv_validator_address : Address;
  acv_epoch : Z;
  acv_challenged_providers : list Address;
  acv_subscribed_topics : list string;
}.

Record EpochRecord : Type := mkEpochRecord {
  er_epoch : Z;
  er_start_block : Z;
  er_active_validators : list ValidatorInfo;
  er_active_capacity_validator : option ActiveCapacityValidator;
  er_challenged_capacity_validators : list CapacityValidatorInfo;
}.

#[export] Instance Account_eq_dec : EqDecision Account.
Proof. solve_decision. Defined.
#[export] Instance StakingAccount_eq_dec : EqDecision StakingAccount.
Proof. solve_decision. Defined.
#[export] Instance NamespaceRecord_eq_dec : EqDecision NamespaceRecord.
Proof. solve_decision. Defined.
#[export] Instance ValidatorInfo_eq_dec : EqDecision ValidatorInfo.
Proof. solve_decision. Defined.
#[export] Instance PublicKey_eq_dec : EqDecision PublicKey.
Proof. solve_decision. Defined.
#[export] Instance CapacityValidatorInfo_eq_dec : EqDecision CapacityValidatorInfo.
Proof. solve_decision. Defined.
#[export] Instance ActiveCapacityValidator_eq_dec : EqDecision ActiveCapacityValidator.
Proof. solve_decision. Defined.
#[export] Instance EpochRecord_eq_dec : EqDecision EpochRecord.
Proof. solve_decision. Defined.

(** ** Well-formedness: the ranges of the machine types *)

Definition Account_wf (a : Account) : Prop :=
  coin_wf (acc_balance a) ∧ in_range u32_max (nonce_value (acc_nonce a)).

Definition StakingAccount_wf (s : StakingAccount) : Prop := coin_wf (sa_stake_balance s).

Definition NamespaceRecord_wf (r : NamespaceRecord) : Prop :=
  in_range u64_max (ns_registered_height r).

Definition ValidatorInfo_wf (v : ValidatorInfo) : Prop := coin_wf (val_stake v).

Definition CapacityValidatorInfo_wf (p : CapacityValidatorInfo) : Prop :=
  coin_wf (cv_stake p) ∧ in_range u64_max (cv_storage_capacity p) ∧
  from_option (in_range u32_max) True (cv_chunk_count p) ∧
  from_option (in_range u64_max) True (cv_registered_at p) ∧
  from_option (in_range u64_max) True (cv_last_merkle_root_update p) ∧
  in_range u64_max (cv_registered_block p) ∧ in_range u64_max (cv_registration_duration p).

Definition EpochRecord_wf (r : EpochRecord) : Prop :=
  i64_min ≤ er_epoch r ≤ i64_max ∧ i64_min ≤ er_start_block r ≤ i64_max ∧
  Forall ValidatorInfo_wf (er_active_validators r) ∧
  from_option (λ a, i64_min ≤ acv_epoch a ≤ i64_max) True (er_active_capacity_validator r) ∧
  Forall CapacityValidatorInfo_wf (er_challenged_capacity_validators r).

(** ** Public keys *)

Section public_keys.
Context {H : HexCrate} {E : Ed25519}.

Definition PublicKey_new (b : byte_array 32) : eld_result PublicKey :=
  if verifying_key_ok b then Ok (mkPublicKey b) else Err (ValidationError "public_key").

Definition PublicKey_from_hex (s : string) : eld_result PublicKey :=
  let? array := decode_fixed_hex 32 s "public_key" in
  PublicKey_new array.
End public_keys.

(** ** Encodings *)

(** The bincode encodings the node reads and writes. *)
Class RecordCodecs : Type := {
  account_codec :: Bincode Account;
  staking_codec :: Bincode StakingAccount;
  namespace_codec :: Bincode NamespaceRecord;
  epoch_codec :: Bincode EpochRecord;
}.

Class RecordCodecsLaws (C : RecordCodecs) : Prop := {
  account_laws :: BincodeSmall Account Account_wf;
  staking_laws :: BincodeSmall StakingAccount StakingAccount_wf;
  namespace_laws :: BincodeLaws NamespaceRecord NamespaceRecord_wf;
  epoch_laws :: BincodeLaws EpochRecord EpochRecord_wf;
}.

(** [bincode::deserialize] behind the checks of [safe_bincode_deserialize]. *)
Definition safe_bincode_deserialize {A} `{Bincode A} (data : bytes) (max_size : Z) :
    eld_result A :=
  match data with
  | [] => Err (ValidationError "data")
  | _ =>
      if max_size <? Z.of_nat (length data) then Err (ValidationError "data size")
      else ok_or (bin_deserialize data) (ValidationError "deserialization")
  end.

Definition safe_deserialize_cado_data {A} `{Bincode A} (data : bytes) : eld_result A :=
  safe_bincode_deserialize data (1024 * 1024).

(** App state snapshots: 256 MiB. *)
Definition MAX_APP_STATE_SNAPSHOT_CADO_SIZE_BYTES : Z := 256 * 1024 * 1024.
Definition safe_deserialize_app_state_snapshot_cado_data {A} `{Bincode A} (data : bytes) :
    eld_result A :=
  safe_bincode_deserialize data MAX_APP_STATE_SNAPSHOT_CADO_SIZE_BYTES.

Definition safe_deserialize_account_data {A} `{Bincode A} (data : bytes) : eld_result A :=
  safe_bincode_deserialize data (10 * 1024).

Section codecs.
Context {C : RecordCodecs}.

Definition Account_serialize_bin (a : Account) : eld_result bytes :=
  ok_or (bin_serialize a) (StorageError "serialize_account").
Definition Account_deserialize_bin (data : bytes) : eld_result Account :=
  ok_or (bin_deserialize data) (ValidationError "account_data").
Definition StakingAccount_serialize_bin (s : StakingAccount) : eld_result bytes :=
  ok_or (bin_serialize s) (StorageError "serialize_staking_account").
Definition StakingAccount_deserialize_bin (data : bytes) : eld_result StakingAccount :=
  ok_or (bin_deserialize data) (StorageError "deserialize_staking_account").
Definition NamespaceRecord_serialize_bin (r : NamespaceRecord) : eld_result bytes :=
  ok_or (bin_serialize r) (StorageError "serialize_namespace_record").
Definition NamespaceRecord_deserialize_bin (data : bytes) : eld_result NamespaceRecord :=
  ok_or (bin_deserialize data) (StorageError "deserialize_namespace_record").
Definition EpochRecord_serialize_bin (r : EpochRecord) : eld_result bytes :=
  ok_or (bin_serialize r) (StorageError "serialize_epoch_record").
Definition EpochRecord_deserialize_bin (data : bytes) : eld_result EpochRecord :=
  ok_or (bin_deserialize data) (StorageError "deserialize_epoch_record").
End codecs.

(** ** Lemmas *)

(** A small record written with bincode reads back through the size check. *)
Lemma safe_account_roundtrip {A} {B : Bincode A} {wf} {L : BincodeSmall A wf} a :
  wf a → ∃ b, bin_serialize a = Some b ∧ safe_deserialize_account_data b = Ok a.
Proof.
  intros Hwf. destruct (bin_roundtrip a Hwf) as (b & Es & Ed). exists b. split; [done|].
  pose proof (bin_small a b Hwf Es) as Hb.
  unfold safe_deserialize_account_data, safe_bincode_deserialize.
  destruct b as [|x b]; [simpl in Hb; lia|].
  destruct (Z.ltb_spec (10 * 1024) (Z.of_nat (length (x :: b)))) as [|_]; [lia|]. by rewrite Ed.
Qed.

(** ** Reference codecs *)

Fixpoint le_bytes (n : nat) (z : Z) : bytes :=
  match n with
  | O => []
  | S n => default Init.Byte.x00 (Byte.of_N (Z.to_N (z mod 256))) :: le_bytes n (z / 256)
  end.

Fixpoint le_value (b : bytes) : Z :=
  match b with
  | [] => 0
  | x :: b => Z.of_N (Byte.to_N x) + 256 * le_value b
  end.

Lemma le_bytes_length n z : length (le_bytes n z) = n.
Proof. revert z. induction n; intros z; simpl; auto. Qed.

Lemma le_roundtrip n z : 0 ≤ z < 256 ^ Z.of_nat n → le_value (le_bytes n z) = z.
Proof.
  revert z. induction n as [|n IH]; intros z Hz; [simpl in *; lia|].
  rewrite Nat2Z.inj_succ, Z.pow_succ_r in Hz by lia. cbn [le_bytes le_value].
  assert (0 ≤ z mod 256 < 256) as Hm by (apply Z.mod_pos_bound; lia).
  assert (z = 256 * (z / 256) + z mod 256) as Hd by (apply Z.div_mod; lia).
  assert (0 ≤ z / 256 < 256 ^ Z.of_nat n).
  { split; [apply Z.div_pos; lia|]. apply Z.div_lt_upper_bound; lia. }
  rewrite IH by done. destruct (Byte.of_N (Z.to_N (z mod 256))) as [x|] eqn:E; simpl.
  - apply Byte.to_of_N in E. rewrite E. lia.
  - apply Byte.of_N_None_iff in E. lia.
Qed.

#[global] Arguments le_bytes : simpl never.

Definition ref_account_codec : Bincode Account := {|
  bin_serialize a := Some (addr_value (acc_address a)
    ++ le_bytes 16 (coin_amount (acc_balance a)) ++ le_bytes 4 (nonce_value (acc_nonce a)));
  bin_deserialize b :=
    match try_array 20 (take 20 b) with
    | None => None
    | Some v => Some (mkAccount (mkAddress v) (mkCoin (le_value (take 16 (drop 20 b))))
                        (mkNonce (le_value (drop 36 b))))
    end |}.

Definition ref_staking_codec : Bincode StakingAccount := {|
  bin_serialize s := Some (addr_value (sa_address s) ++ addr_value (sa_originator s)
    ++ le_bytes 16 (coin_amount (sa_stake_balance s)));
  bin_deserialize b :=
    match try_array 20 (take 20 b), try_array 20 (take 20 (drop 20 b)) with
    | Some v, Some w => Some (mkStakingAccount (mkAddress v)
        (mkCoin (le_value (drop 40 b))) (mkAddress w))
    | _, _ => None
    end |}.

Lemma ref_account_laws : @BincodeSmall Account ref_account_codec Account_wf.
Proof.
  constructor; [constructor|].
  - intros [[v] [c] [n]] [[Hc1 Hc2] Hn].
    exists (v ++ le_bytes 16 c ++ le_bytes 4 n). split; [reflexivity|].
    cbn [bin_deserialize ref_account_codec].
    rewrite take_app_length', drop_app_length' by (by rewrite length_vec_to_list).
    rewrite take_app_length' by (by rewrite le_bytes_length).
    rewrite try_array_to_list. do 3 f_equal.
    + rewrite le_roundtrip; [done|]. cbn [coin_amount sa_stake_balance acc_balance] in *.
      change MAX_COIN with 1000000000000000 in Hc2. lia.
    + f_equal. rewrite (assoc (++)), drop_app_length', le_roundtrip; [done| |].
      * unfold u32_max, in_range in Hn. cbn [nonce_value acc_nonce] in Hn. lia.
      * by rewrite length_app, length_vec_to_list, le_bytes_length.
  - intros a b _ E. cbn [bin_serialize ref_account_codec] in E. apply (inj Some) in E as <-. rewrite !length_app, length_vec_to_list, !le_bytes_length. lia.
Qed.

Lemma ref_staking_laws : @BincodeSmall StakingAccount ref_staking_codec StakingAccount_wf.
Proof.
  constructor; [constructor|].
  - intros [[v] [c] [w]] [Hc1 Hc2].
    exists (v ++ w ++ le_bytes 16 c). split; [reflexivity|].
    cbn [bin_deserialize ref_staking_codec].
    rewrite take_app_length', drop_app_length' by (by rewrite length_vec_to_list).
    rewrite take_app_length' by (by rewrite length_vec_to_list).
    rewrite !try_array_to_list. do 3 f_equal.
    rewrite (assoc (++)), drop_app_length', le_roundtrip; [done| |].
    + cbn [coin_amount sa_stake_balance acc_balance] in *.
      change MAX_COIN with 1000000000000000 in Hc2. lia.
    + by rewrite length_app, !length_vec_to_list.
  - intros a b _ E. cbn [bin_serialize ref_staking_codec] in E. apply (inj Some) in E as <-.
    rewrite !length_app, !length_vec_to_list, !le_bytes_length. lia.
Qed.

#[export, program] Instance NamespaceRecord_countable : Countable NamespaceRecord :=
  inj_countable' (λ r, (ns_slug r, ns_owner r, ns_registered_height r))
    (λ '(a, b, c), mkNamespaceRecord a b c) _.
Next Obligation. by intros []. Qed.

#[export, program] Instance Coin_countable : Countable Coin :=
  inj_countable' coin_amount mkCoin _.
Next Obligation. by intros []. Qed.

#[export, program] Instance PublicKey_countable : Countable PublicKey :=
  inj_countable' pk_bytes mkPublicKey _.
Next Obligation. by intros []. Qed.

#[export, program] Instance ValidatorInfo_countable : Countable ValidatorInfo :=
  inj_countable' (λ v, (val_address v, val_stake v, val_public_key v))
    (λ '(a, b, c), mkValidatorInfo a b c) _.
Next Obligation. by intros []. Qed.

#[export, program] Instance CapacityValidatorInfo_countable : Countable CapacityValidatorInfo :=
  inj_countable' (λ v, (cv_address v, cv_stake v, cv_public_key v, cv_storage_capacity v,
      cv_merkle_root v, cv_seed v, cv_chunk_count v, cv_registered_at v,
      cv_last_merkle_root_update v, cv_registered_block v, cv_registration_duration v))
    (λ '(a, b, c, d, e, f, g, h, i, j, k), mkCapacityValidatorInfo a b c d e f g h i j k) _.
Next Obligation. by intros []. Qed.

#[export, program] Instance ActiveCapacityValidator_countable :
    Countable ActiveCapacityValidator :=
  inj_countable' (λ v, (acv_validator_address v, acv_epoch v, acv_challenged_providers v,
      acv_subscribed_topics v))
    (λ '(a, b, c, d), mkActiveCapacityValidator a b c d) _.
Next Obligation. by intros []. Qed.

#[export, program] Instance EpochRecord_countable : Countable EpochRecord :=
  inj_countable' (λ v, (er_epoch v, er_start_block v, er_active_validators v,
      er_active_capacity_validator v, er_challenged_capacity_validators v))
    (λ '(a, b, c, d, e), mkEpochRecord a b c d e) _.
Next Obligation. by intros []. Qed.

#[export] Instance ref_codecs : RecordCodecs := {|
  account_codec := ref_account_codec;
  staking_codec := ref_staking_codec;
  namespace_codec := countable_bincode NamespaceRecord;
  epoch_codec := countable_bincode EpochRecord;
|}.

#[export] Instance ref_codecs_laws : RecordCodecsLaws ref_codecs.
Proof.
  constructor; [apply ref_account_laws|apply ref_staking_laws|..]; apply countable_bincode_laws.
Qed.
