(* ===== verification/Tx.v ===== *)
(** Transactions: common/src/tx (payloads, envelope, parts) and the signed
    challenge responses of common/src/capacity_proof.rs. *)
From S2P Require Import Prelude Externals Reference Coins Address Namespace Cado Records.

(** ** Text checks shared with common/src/validation.rs *)

Definition dangerous_chars : list ascii :=
  ["<"; ">"; ascii_of_N 34; "'"; "&"; ";"; "|"; "`"; "$"; "("; ")"; "{"; "}"]%char.

Fixpoint string_any (p : ascii → bool) (s : string) : bool :=
  match s with
  | EmptyString => false
  | String c s => p c || string_any p s
  end.

(** Unicode category Cc in UTF-8: one byte below 32 or 127, or [C2 80]..[C2 9F]. *)
Fixpoint has_control (s : string) : bool :=
  match s with
  | EmptyString => false
  | String c s' =>
      ascii_between 0 31 c || (N_of_ascii c =? 127)%N ||
      ((N_of_ascii c =? 0xC2)%N &&
         match s' with String d _ => ascii_between 0x80 0x9F d | EmptyString => false end) ||
      has_control s'
  end.

Definition validate_safe_string (input : string) (max_length : nat) : eld_result unit :=
  if String.eqb input EmptyString then Err (ValidationError "string")
  else if (max_length <? String.length input)%nat then Err (ValidationError "string")
  else if existsb (λ ch, string_any (Ascii.eqb ch) input) dangerous_chars
  then Err (ValidationError "string")
  else if has_control input then Err (ValidationError "string")
  else Ok tt.

(** ** Wire parts *)

(** [TxAmount(u128)] *)
Definition TxAmount : Type := Z.
Definition TxAmount_to_coin (a : TxAmount) : eld_result Coin := Coin_new a.

(** [TxPublicKey(String)], [TxSig(String)] *)
Definition TxPublicKey : Type := string.
Definition TxSig : Type := string.
Definition TxSig_empty : TxSig := EmptyString.

Section keys.
Context {H : HexCrate} {E : Ed25519}.

Definition TxPublicKey_to_verifying_key (k : TxPublicKey) : eld_result (byte_array 32) :=
  let? b := ok_or (hex_decode k) (ValidationError "public_key") in
  let? array := ok_or (try_array 32 b) (ValidationError "public_key") in
  if verifying_key_ok array then Ok array else Err (ValidationError "public_key").

Definition TxPublicKey_new (value : string) : eld_result TxPublicKey :=
  let? _ := TxPublicKey_to_verifying_key value in Ok value.

Definition TxSig_to_signature (s : TxSig) : eld_result (byte_array 64) :=
  let? b := ok_or (hex_decode s) (ValidationError "sig") in
  ok_or (try_array 64 b) (ValidationError "sig").

Definition TxSig_new (value : string) : eld_result TxSig :=
  let? _ := TxSig_to_signature value in Ok value.

(** [PublicKey::try_from(&TxPublicKey)] *)
Definition PublicKey_try_from (k : TxPublicKey) : eld_result PublicKey :=
  let? vk := TxPublicKey_to_verifying_key k in Ok (mkPublicKey vk).
End keys.

(** ** Payloads *)

Record TransferTx : Type := mkTransferTx {
  transfer_sender : Address;
  transfer_recipient : Address;
  transfer_amount : TxAmount;
}.

Definition TransferTx_new (sender recipient : Address) (amount : TxAmount) :
    eld_result TransferTx :=
  if bool_decide (sender = recipient) then Err (ValidationError "transfer transaction")
  else
    match Coin_new amount with
    | Err _ => Err (ValidationError "transfer amount")
    | Ok amount_coin =>
        if coin_amount amount_coin =? 0 then Err (ValidationError "transfer amount")
        else Ok (mkTransferTx sender recipient amount)
    end.

Record UnstakeTx : Type := mkUnstakeTx {
  unstake_sender : Address;
  unstake_amount : TxAmount;
}.

Definition UnstakeTx_new (sender : Address) (amount : TxAmount) : eld_result UnstakeTx :=
  if amount =? 0 then Err (ValidationError "unstake amount")
  else
    let? amount_coin := Coin_new amount in
    if Coin_ltb Coin_max amount_coin then Err (ValidationError "unstake amount")
    else Ok (mkUnstakeTx sender amount).

Record StakeTx : Type := mkStakeTx {
  stake_sender : Address;
  stake_amount : TxAmount;
  stake_public_key : option string;
}.

Definition stake_validate_public_key (pk : string) (expected_len : nat) : eld_result unit :=
  if negb (String.length pk =? expected_len)%nat then Err (ValidationError "public key")
  else if negb (string_all is_ascii_hexdigit pk) then Err (ValidationError "public key")
  else Ok tt.

Definition StakeTx_new (sender : Address) (amount : TxAmount) (public_key : option string) :
    eld_result StakeTx :=
  if amount =? 0 then Err (ValidationError "stake amount")
  else
    let? _ := Coin_new amount in
    let? _ := match public_key with
              | Some pk => stake_validate_public_key pk 64
              | None => Ok tt
              end in
    Ok (mkStakeTx sender amount public_key).

Record RegisterCapacityTx : Type := mkRegisterCapacityTx {
  register_sender : Address;
  register_capacity_bytes : Z;
  register_merkle_root : byte_array 32;
  register_seed : byte_array 32;
  register_chunk_count : Z;
}.

Definition RegisterCapacityTx_new (sender : Address) (capacity_bytes : Z)
    (merkle_root seed : byte_array 32) (chunk_count : Z) : eld_result RegisterCapacityTx :=
  if capacity_bytes =? 0 then Err (ValidationError "capacity_bytes")
  else Ok (mkRegisterCapacityTx sender capacity_bytes merkle_root seed chunk_count).

Record UnregisterCapacityTx : Type := mkUnregisterCapacityTx {
  unregister_sender : Address;
  unregister_flag : bool;
}.

Definition UnregisterCapacityTx_new (sender : Address) (unregister : bool) :
    eld_result UnregisterCapacityTx :=
  if negb unregister then Err (ValidationError "unregister")
  else Ok (mkUnregisterCapacityTx sender unregister).

Record UpdateCapacityMerkleRootTx : Type := mkUpdateCapacityMerkleRootTx {
  update_sender : Address;
  update_merkle_root : byte_array 32;
}.

Definition UpdateCapacityMerkleRootTx_new (sender : Address) (merkle_root : byte_array 32) :
    eld_result UpdateCapacityMerkleRootTx :=
  Ok (mkUpdateCapacityMerkleRootTx sender merkle_root).

Record AddNamespaceTx : Type := mkAddNamespaceTx {
  addns_sender : Address;
  addns_slug : string;
  addns_registration_fee : TxAmount;
}.

Definition AddNamespaceTx_new (sender : Address) (namespace_slug : string)
    (registration_fee : TxAmount) : eld_result AddNamespaceTx :=
  let? canonical := normalize_namespace_slug namespace_slug in
  if is_reserved_namespace_slug canonical then Err (ValidationError "namespace_slug")
  else if registration_fee =? 0 then Err (ValidationError "registration_fee")
  else
    let? _ := Coin_new registration_fee in
    Ok (mkAddNamespaceTx sender canonical registration_fee).

Inductive SlotState : Type :=
| Slot_Proof
| Slot_Open
| Slot_Content (deal_id : string) (committed_hash : byte_array 32).

Record ChunkProof : Type := mkChunkProof {
  chunk_index : Z;
  chunk_data : bytes;
  chunk_hash : byte_array 32;
  chunk_merkle_proof : list (byte_array 32);
  chunk_slot_state : SlotState;
}.

Record VerifiedProofTx : Type := mkVerifiedProofTx {
  vp_sender : Address;
  vp_capacity_provider : Address;
  vp_challenge_id : string;
  vp_block_height : Z;
  vp_verified_at_block : Z;
  vp_verified_at_timestamp : Z;
  vp_proofs : list ChunkProof;
  vp_generated_at : Z;
  vp_provider_pubkey : string;
  vp_provider_signature : string;
  vp_failed : bool;
}.

Definition MIN_TIMESTAMP : Z := 1577836800.
Definition MAX_TIMESTAMP : Z := 4102444800.

Definition timestamp_ok (t : Z) : bool := (MIN_TIMESTAMP <=? t) && (t <=? MAX_TIMESTAMP).

Definition VerifiedProofTx_new (sender capacity_provider : Address) (challenge_id : string)
    (block_height verified_at_block verified_at_timestamp : Z) (proofs : list ChunkProof)
    (generated_at : Z) (provider_pubkey provider_signature : string) :
    eld_result VerifiedProofTx :=
  let? _ := validate_safe_string challenge_id 100 in
  if block_height <=? 0 then Err (ValidationError "block_height")
  else if verified_at_block <=? 0 then Err (ValidationError "verified_at_block")
  else if verified_at_block <? block_height then Err (ValidationError "verified_at_block")
  else if negb (timestamp_ok verified_at_timestamp)
  then Err (ValidationError "verified_at_timestamp")
  else if bool_decide (length proofs = 0%nat) then Err (ValidationError "proofs")
  else if negb (timestamp_ok generated_at) then Err (ValidationError "generated_at")
  else if String.eqb provider_pubkey EmptyString then Err (ValidationError "provider_pubkey")
  else if String.eqb provider_signature EmptyString
  then Err (ValidationError "provider_signature")
  else Ok (mkVerifiedProofTx sender capacity_provider challenge_id block_height
             verified_at_block verified_at_timestamp proofs generated_at provider_pubkey
             provider_signature false).

Record PostMessageTx : Type := mkPostMessageTx {
  post_sender : Address;
  post_original_signer : Address;
  post_original_signer_pubkey : string;
  post_content_key : string;
  post_message_id : string;
  post_expires_height : Z;
  post_visibility : string;
  post_topic : option string;
  post_tags : list string;
  post_content_type : string;
  post_fee_amount : Z;
  post_received_timestamp : Z;
  post_user_signature : string;
  post_namespace : option string;
}.

Definition POST_MESSAGE_MAX_TAGS : nat := 4.
Definition POST_MESSAGE_MAX_TAG_UTF8_BYTES : nat := 64.
Definition POST_MESSAGE_ALLOWED_CONTENT_TYPES : list string :=
  ["text/plain"; "application/json"; "image/png"].

Definition validate_post_message_content_type (content_type : string) : eld_result unit :=
  let trimmed := trim content_type in
  if String.eqb trimmed EmptyString then Err (ValidationError "content_type")
  else if negb (str_in POST_MESSAGE_ALLOWED_CONTENT_TYPES trimmed)
  then Err (ValidationError "content_type")
  else Ok tt.

Section post_message.
Context {H : HexCrate}.

Definition canonicalize_tag (tag : string) : eld_result string :=
  if (POST_MESSAGE_MAX_TAG_UTF8_BYTES <? String.length tag)%nat
  then Err (ValidationError "tags")
  else
    let normalized := match parse_hex_str tag with
                      | Ok addr => hex_with_prefix addr
                      | Err _ => tag
                      end in
    if (POST_MESSAGE_MAX_TAG_UTF8_BYTES <? String.length normalized)%nat
    then Err (ValidationError "tags")
    else Ok normalized.

Definition canonicalize_post_message_tags (tags : list string) : eld_result (list string) :=
  if (POST_MESSAGE_MAX_TAGS <? length tags)%nat then Err (ValidationError "tags")
  else
    try_fold (λ out tag,
      let? normalized := canonicalize_tag tag in Ok (out ++ [normalized])) [] tags.

Definition PostMessageTx_new (sender original_signer : Address)
    (original_signer_pubkey content_key message_id : string) (expires_height : Z)
    (visibility : string) (topic : option string) (tags : list string)
    (content_type : string) (fee_amount received_timestamp : Z)
    (user_signature : string) (namespace : option string) : eld_result PostMessageTx :=
  let? _ := validate_post_message_content_type content_type in
  let? tags := canonicalize_post_message_tags tags in
  let? namespace := resolve_optional_namespace namespace in
  Ok (mkPostMessageTx sender original_signer original_signer_pubkey content_key message_id
        expires_height visibility topic tags content_type fee_amount received_timestamp
        user_signature namespace).
End post_message.

(** ** Payload and envelope *)

Inductive PayloadInner : Type :=
| Transfer (t : TransferTx)
| Unstake (t : UnstakeTx)
| Stake (t : StakeTx)
| VerifiedProof (t : VerifiedProofTx)
| RegisterCapacity (t : RegisterCapacityTx)
| UnregisterCapacity (t : UnregisterCapacityTx)
| UpdateCapacityMerkleRoot (t : UpdateCapacityMerkleRootTx)
| PostMessage (t : PostMessageTx)
| AddNamespace (t : AddNamespaceTx).

Definition tx_type_str (p : PayloadInner) : string :=
  match p with
  | Transfer _ => "Transfer"
  | Unstake _ => "Unstake"
  | Stake _ => "Stake"
  | VerifiedProof _ => "VerifiedProof"
  | RegisterCapacity _ => "RegisterCapacity"
  | UnregisterCapacity _ => "UnregisterCapacity"
  | UpdateCapacityMerkleRoot _ => "UpdateCapacityMerkleRoot"
  | PostMessage _ => "PostMessage"
  | AddNamespace _ => "AddNamespace"
  end.

(** [HasSender for PayloadInner] *)
Definition sender (p : PayloadInner) : Address :=
  match p with
  | Transfer t => transfer_sender t
  | Stake t => stake_sender t
  | Unstake t => unstake_sender t
  | RegisterCapacity t => register_sender t
  | UnregisterCapacity t => unregister_sender t
  | UpdateCapacityMerkleRoot t => update_sender t
  | PostMessage t => post_sender t
  | VerifiedProof t => vp_sender t
  | AddNamespace t => addns_sender t
  end.

(** [HasAmount for PayloadInner] *)
Definition amount (p : PayloadInner) : Z :=
  match p with
  | Transfer t => transfer_amount t
  | Stake t => stake_amount t
  | Unstake t => unstake_amount t
  | AddNamespace t => addns_registration_fee t
  | RegisterCapacity _ | UnregisterCapacity _ | UpdateCapacityMerkleRoot _
  | PostMessage _ | VerifiedProof _ => 0
  end.

Record Payload : Type := mkPayload {
  payload_type : string;
  payload_inner : PayloadInner;
}.

Definition Payload_new (p : PayloadInner) : Payload := mkPayload (tx_type_str p) p.

Record Tx : Type := mkTx {
  tx_sig : TxSig;
  tx_nonce : Nonce;
  tx_payload : Payload;
  tx_public_key : TxPublicKey;
  tx_fee : TxAmount;
}.

Definition Tx_new (nonce : Nonce) (payload : Payload) (public_key : TxPublicKey) : Tx :=
  mkTx TxSig_empty nonce payload public_key 0.

(** The transaction with its signature field replaced. *)
Definition with_sig (tx : Tx) (s : TxSig) : Tx :=
  mkTx s (tx_nonce tx) (tx_payload tx) (tx_public_key tx) (tx_fee tx).

(** ** JSON text *)

(** [serde_json] on the types of this file: [to_string] and [from_str] of a
    [Tx], and the signing preimages of a challenge response. *)
Class TxJson : Type := {
  tx_to_json : Tx → option string;
  tx_from_json : string → option Tx;
  response_to_json :
    string → string → string → Z → list ChunkProof → Z → string → option bytes;
}.

Section envelope.
Context {H : HexCrate} {HC : HashCrates} {E : Ed25519} {J : TxJson}.

(** The bytes a transaction signs: its JSON without signature, then the chain id. *)
Definition signing_bytes (tx : Tx) (chain_id : string) : option bytes :=
  match tx_to_json (with_sig tx TxSig_empty) with
  | Some json => Some (as_bytes json ++ as_bytes chain_id)
  | None => None
  end.

Definition Tx_sign (tx : Tx) (sk : signing_key) (chain_id : string) : eld_result Tx :=
  let? all_bytes := ok_or (signing_bytes tx chain_id) (TransactionError "sign") in
  Ok (with_sig tx (hex_encode (ed_sign sk all_bytes))).

Definition Tx_verify (tx : Tx) (chain_id : string) : eld_result bool :=
  let? all_bytes := ok_or (signing_bytes tx chain_id) (TransactionError "verify") in
  let? public_key := TxPublicKey_to_verifying_key (tx_public_key tx) in
  let? signature := TxSig_to_signature (tx_sig tx) in
  if negb (ed_verify public_key all_bytes signature) then Ok false
  else
    let? derived_address := from_public_key public_key in
    Ok (bool_decide (sender (payload_inner (tx_payload tx)) = derived_address)).

(** [verify_capacity_challenge_response]; the error text is dropped. *)
Definition verify_capacity_challenge_response (challenge_id : string)
    (provider_id challenger : Address) (block_height : Z) (proofs : list ChunkProof)
    (generated_at : Z) (provider_pubkey provider_signature : string) : option unit :=
  if String.eqb provider_pubkey EmptyString || String.eqb provider_signature EmptyString
  then None
  else
    pubkey_bytes ← hex_decode provider_pubkey;
    array ← try_array 32 pubkey_bytes;
    if negb (verifying_key_ok array) then None
    else
      derived_provider ← ok (from_public_key array);
      if negb (bool_decide (derived_provider = provider_id)) then None
      else
        signing_bytes ← response_to_json challenge_id (hex_with_prefix provider_id)
          (hex_with_prefix challenger) block_height proofs generated_at provider_pubkey;
        signature_bytes ← hex_decode provider_signature;
        signature ← try_array 64 signature_bytes;
        if ed_verify array signing_bytes signature then Some tt else None.

(** [sign_capacity_challenge_response]: the provider's key and signature in hex. *)
Definition sign_capacity_challenge_response (sk : signing_key) (challenge_id : string)
    (provider_id challenger : Address) (block_height : Z) (proofs : list ChunkProof)
    (generated_at : Z) : option (string * string) :=
  let provider_pubkey := hex_encode (verifying_key_of sk) in
  match response_to_json challenge_id (hex_with_prefix provider_id)
          (hex_with_prefix challenger) block_height proofs generated_at provider_pubkey with
  | Some signing_bytes => Some (provider_pubkey, hex_encode (ed_sign sk signing_bytes))
  | None => None
  end.
End envelope.

(** ** Validity of decoded payloads *)

(** What every [TryFrom<..Unchecked>] enforces: the payload is one its smart
    constructor returns. *)
Definition PayloadInner_valid {H : HexCrate} (p : PayloadInner) : Prop :=
  match p with
  | Transfer t =>
      TransferTx_new (transfer_sender t) (transfer_recipient t) (transfer_amount t) = Ok t
  | Unstake t => UnstakeTx_new (unstake_sender t) (unstake_amount t) = Ok t
  | Stake t => StakeTx_new (stake_sender t) (stake_amount t) (stake_public_key t) = Ok t
  | VerifiedProof t =>
      ∃ t0, VerifiedProofTx_new (vp_sender t) (vp_capacity_provider t) (vp_challenge_id t)
        (vp_block_height t) (vp_verified_at_block t) (vp_verified_at_timestamp t) (vp_proofs t)
        (vp_generated_at t) (vp_provider_pubkey t) (vp_provider_signature t) = Ok t0
  | RegisterCapacity t =>
      RegisterCapacityTx_new (register_sender t) (register_capacity_bytes t)
        (register_merkle_root t) (register_seed t) (register_chunk_count t) = Ok t
  | UnregisterCapacity t =>
      UnregisterCapacityTx_new (unregister_sender t) (unregister_flag t) = Ok t
  | UpdateCapacityMerkleRoot t => True
  | PostMessage t =>
      ∃ tags namespace, PostMessageTx_new (post_sender t) (post_original_signer t)
        (post_original_signer_pubkey t) (post_content_key t) (post_message_id t)
        (post_expires_height t) (post_visibility t) (post_topic t) tags (post_content_type t)
        (post_fee_amount t) (post_received_timestamp t) (post_user_signature t) namespace = Ok t
  | AddNamespace t =>
      ∃ slug, AddNamespaceTx_new (addns_sender t) slug (addns_registration_fee t) = Ok t
  end.

(** ** Lemmas *)

Lemma TransferTx_new_Ok s r a t :
  TransferTx_new s r a = Ok t ↔ t = mkTransferTx s r a ∧ s ≠ r ∧ a ≠ 0 ∧ a ≤ MAX_COIN.
Proof.
  unfold TransferTx_new. case_bool_decide as Hsr; [by split; intros; destruct_and?|].
  destruct (Coin_new a) as [c|] eqn:Ec.
  - apply Coin_new_Ok in Ec as [-> Ha]. simpl.
    destruct (a =? 0) eqn:E0; eld_bool; [by split; intros; destruct_and?|].
    by split; [intros [= <-]|intros (-> & _)].
  - split; [done|]. intros (-> & _ & _ & Ha).
    assert (Coin_new a = Ok (mkCoin a)) by by apply Coin_new_Ok. congruence.
Qed.

Lemma StakeTx_new_Ok s a pk t :
  StakeTx_new s a pk = Ok t →
  t = mkStakeTx s a pk ∧ a ≠ 0 ∧ a ≤ MAX_COIN ∧
  ∀ k, pk = Some k → String.length k = 64%nat ∧ string_all is_ascii_hexdigit k = true.
Proof.
  unfold StakeTx_new. destruct (a =? 0) eqn:E0; [done|]. eld_bool.
  destruct (Coin_new a) as [c|] eqn:Ec; [|done]. apply Coin_new_Ok in Ec as [-> Ha].
  destruct pk as [k|]; simpl.
  - unfold stake_validate_public_key.
    destruct (String.length k =? 64)%nat eqn:El; [|done]. apply Nat.eqb_eq in El.
    destruct (string_all is_ascii_hexdigit k) eqn:Ed; [|done].
    intros [= <-]. split_and!; [done..|]. by intros ? [= ->].
  - intros [= <-]. by split_and!.
Qed.

Lemma UnstakeTx_new_Ok s a t :
  UnstakeTx_new s a = Ok t ↔ t = mkUnstakeTx s a ∧ a ≠ 0 ∧ a ≤ MAX_COIN.
Proof.
  unfold UnstakeTx_new. destruct (a =? 0) eqn:E0; eld_bool.
  { by split; intros; destruct_and?. }
  destruct (Coin_new a) as [c|] eqn:Ec.
  - apply Coin_new_Ok in Ec as [-> Ha].
    assert (Coin_ltb Coin_max (mkCoin a) = false) as ->.
    { unfold Coin_ltb. apply Z.ltb_ge. exact Ha. }
    by split; [intros [= <-]|intros (-> & _)].
  - split; [done|]. intros (-> & _ & Ha).
    assert (Coin_new a = Ok (mkCoin a)) by by apply Coin_new_Ok. congruence.
Qed.

Lemma AddNamespaceTx_new_Ok s slug f t :
  AddNamespaceTx_new s slug f = Ok t →
  addns_sender t = s ∧ addns_registration_fee t = f ∧ f ≠ 0 ∧ f ≤ MAX_COIN ∧
  normalize_namespace_slug slug = Ok (addns_slug t) ∧
  is_reserved_namespace_slug (addns_slug t) = false.
Proof.
  unfold AddNamespaceTx_new. destruct (normalize_namespace_slug slug) as [c|] eqn:En; [|done].
  destruct (is_reserved_namespace_slug c) eqn:Er; [done|].
  destruct (f =? 0) eqn:E0; [done|]. eld_bool.
  destruct (Coin_new f) as [co|] eqn:Ec; [|done]. apply Coin_new_Ok in Ec as [_ Hf].
  intros [= <-]. by split_and!.
Qed.

Section envelope_facts.
Context {H : HexCrate} {HL : HexLaws H} {HC : HashCrates} {E : Ed25519}
  {EL : Ed25519Laws E} {J : TxJson}.

Lemma to_verifying_key_encode sk :
  TxPublicKey_to_verifying_key (hex_encode (verifying_key_of sk)) = Ok (verifying_key_of sk).
Proof.
  unfold TxPublicKey_to_verifying_key. rewrite hex_decode_encode. cbn [ok_or].
  rewrite try_array_to_list. cbn [ok_or]. by rewrite verifying_key_of_ok.
Qed.

Lemma to_signature_encode (s : byte_array 64) : TxSig_to_signature (hex_encode s) = Ok s.
Proof.
  unfold TxSig_to_signature. rewrite hex_decode_encode. cbn [ok_or]. by rewrite try_array_to_list.
Qed.

(** ** Properties *)

(** Signing and verification agree: a transaction signed with a key
    verifies on the same chain exactly when its payload's sender is the
    address of that key. *)
Theorem sign_then_verify (tx tx' : Tx) (sk : signing_key) (chain_id : string) (a : Address) :
  Tx_sign tx sk chain_id = Ok tx' →
  tx_public_key tx = hex_encode (verifying_key_of sk) →
  from_public_key (verifying_key_of sk) = Ok a →
  Tx_verify tx' chain_id =
    Ok (bool_decide (sender (payload_inner (tx_payload tx)) = a)).
Proof.
  unfold Tx_sign, Tx_verify. intros Hs Hk Ha.
  destruct (signing_bytes tx chain_id) as [m|] eqn:Em; [|done]. simpl in Hs.
  injection Hs as <-.
  replace (signing_bytes (with_sig tx _) chain_id) with (Some m) by (by rewrite <- Em).
  cbn [ok_or with_sig tx_public_key tx_sig tx_payload].
  rewrite Hk, to_verifying_key_encode, to_signature_encode, ed_verify_sign. simpl.
  by rewrite Ha.
Qed.

(** C29. Verification decides authenticity.  A transaction verifies on a chain
    exactly when its public key is the hex of a valid key, its signature the hex
    of 64 bytes, the key's address is the payload's sender, and the signature is
    valid under that key for the JSON text of the transaction with an empty
    signature field - its nonce, payload, public key and fee - followed by the
    chain id.  And a transaction that carries the hex of a wallet's key and
    whose sender is that key's address verifies once the wallet signed it. *)
Theorem verify_authentic (tx : Tx) (chain_id : string) :
  let owner := sender (payload_inner (tx_payload tx)) in
  (Tx_verify tx chain_id = Ok true ↔
   ∃ pk sig text, hex_decode (tx_public_key tx) = Some (vec_to_list pk) ∧
     verifying_key_ok pk = true ∧ from_public_key pk = Ok owner ∧
     hex_decode (tx_sig tx) = Some (vec_to_list sig) ∧
     tx_to_json (mkTx EmptyString (tx_nonce tx) (tx_payload tx) (tx_public_key tx) (tx_fee tx))
       = Some text ∧
     ed_verify pk (as_bytes text ++ as_bytes chain_id) sig = true) ∧
  (∀ sk tx', Tx_sign tx sk chain_id = Ok tx' →
     tx_public_key tx = hex_encode (verifying_key_of sk) →
     from_public_key (verifying_key_of sk) = Ok owner →
     tx' = mkTx (tx_sig tx') (tx_nonce tx) (tx_payload tx) (tx_public_key tx) (tx_fee tx) ∧
     Tx_verify tx' chain_id = Ok true).
Proof.
  intros owner. split; [split|].
  - unfold Tx_verify, TxPublicKey_to_verifying_key, TxSig_to_signature, signing_bytes.
    destruct (tx_to_json (with_sig tx TxSig_empty)) as [text|] eqn:Et; [|done]. cbn [ok_or].
    destruct (hex_decode (tx_public_key tx)) as [b|]; [|done]. cbn [ok_or].
    destruct (try_array 32 b) as [pk|] eqn:Epk; [|done]. cbn [ok_or].
    destruct (verifying_key_ok pk) eqn:Eok; [|done].
    destruct (hex_decode (tx_sig tx)) as [c|]; [|done]. cbn [ok_or].
    destruct (try_array 64 c) as [sig|] eqn:Esig; [|done]. cbn [ok_or].
    destruct (ed_verify pk _ sig) eqn:Ev; [|done]. cbn [negb].
    destruct (from_public_key pk) as [a|] eqn:Ea; [|done]. intros [= Hd].
    apply bool_decide_eq_true in Hd. fold owner in Hd. subst a.
    apply try_array_Some in Epk as <-. apply try_array_Some in Esig as <-.
    exists pk, sig, text. by split_and!.
  - intros (pk & sig & text & Hpk & Hok & Ha & Hsig & Ht & Hv).
    unfold Tx_verify, TxPublicKey_to_verifying_key, TxSig_to_signature, signing_bytes.
    change (with_sig tx TxSig_empty)
      with (mkTx EmptyString (tx_nonce tx) (tx_payload tx) (tx_public_key tx) (tx_fee tx)).
    rewrite Ht, Hpk. cbn [ok_or]. rewrite try_array_to_list. cbn [ok_or]. rewrite Hok, Hsig.
    cbn [ok_or]. rewrite try_array_to_list. cbn [ok_or]. rewrite Hv. cbn [negb]. rewrite Ha.
    by rewrite bool_decide_eq_true_2.
  - intros sk tx' Hs Hk Ha. split.
    + unfold Tx_sign in Hs. destruct (signing_bytes tx chain_id); [|done]. by injection Hs as <-.
    + rewrite (sign_then_verify tx tx' sk chain_id owner Hs Hk Ha). by rewrite bool_decide_eq_true_2.
Qed.

(** A provider's signed challenge response is accepted by the check every
    node repeats in consensus. *)
Theorem response_sign_then_verify sk challenge_id provider challenger h proofs t pk sig :
  from_public_key (verifying_key_of sk) = Ok provider →
  sign_capacity_challenge_response sk challenge_id provider challenger h proofs t
    = Some (pk, sig) →
  verify_capacity_challenge_response challenge_id provider challenger h proofs t pk sig
    = Some tt.
Proof.
  unfold sign_capacity_challenge_response, verify_capacity_challenge_response.
  intros Hp. destruct (response_to_json _ _ _ _ _ _ _) as [m|] eqn:Em; [|done].
  intros [= <- <-]. rewrite !hex_encode_nonempty.
  2: { intros E0. pose proof (length_vec_to_list (ed_sign sk m)) as El. by rewrite E0 in El. }
  2: { intros E0. pose proof (length_vec_to_list (verifying_key_of sk)) as El. by rewrite E0 in El. }
  cbn [orb]. rewrite !hex_decode_encode. cbn [mbind option_bind].
  rewrite !try_array_to_list. cbn [mbind option_bind].
  rewrite verifying_key_of_ok, Hp. cbn [negb ok mbind option_bind].
  rewrite bool_decide_eq_true_2, Em by done. cbn [negb mbind option_bind].
  by rewrite ed_verify_sign.
Qed.
End envelope_facts.

(** ** Reference JSON and witnesses *)

Definition test_key : byte_array 32 := vreplicate 32 Init.Byte.x07.
Definition test_sk : @signing_key ref_ed25519 := test_key.
Definition test_sender : Address := mkAddress (vreplicate 20 Init.Byte.x07).
Definition test_recipient : Address := mkAddress (vreplicate 20 Init.Byte.x08).

Definition test_tx : Tx :=
  mkTx TxSig_empty (mkNonce 1)
    (Payload_new (Transfer (mkTransferTx test_sender test_recipient 250)))
    (ref_hex_encode test_key) 30000.

(** One fixed text per transaction is enough to evaluate the envelope. *)
#[export] Instance ref_tx_json : TxJson := {|
  tx_to_json _ := Some "{}";
  tx_from_json _ := Some test_tx;
  response_to_json _ _ _ _ _ _ _ := Some [];
|}.

Lemma sign_then_verify_witness :
  match Tx_sign test_tx test_sk "eld" with
  | Ok tx' => Tx_verify tx' "eld" = Ok true
  | Err _ => False
  end.
Proof.
  destruct (Tx_sign test_tx test_sk "eld") as [tx'|] eqn:Es; [|vm_compute in Es; discriminate].
  apply (sign_then_verify test_tx tx' test_sk "eld" test_sender Es);
    vm_compute; reflexivity.
Defined.

Lemma verify_authentic_witness :
  match Tx_sign test_tx test_sk "eld" with
  | Ok tx' =>
      Tx_verify tx' "eld" = Ok true ∧
      ∃ pk sig, hex_decode (tx_sig tx') = Some (vec_to_list sig) ∧
        ed_verify pk (as_bytes "{}" ++ as_bytes "eld") sig = true
  | Err _ => False
  end.
Proof.
  destruct (Tx_sign test_tx test_sk "eld") as [tx'|] eqn:Es; [|vm_compute in Es; discriminate].
  destruct (verify_authentic test_tx "eld") as [_ Hsign].
  destruct (Hsign test_sk tx' Es) as [_ Hv]; [vm_compute; reflexivity|vm_compute; reflexivity|].
  split; [exact Hv|].
  destruct (proj1 (proj1 (verify_authentic tx' "eld")) Hv) as (pk & sig & text & _ & _ & _ & Hs & Ht & Hve).
  apply (inj Some) in Ht. subst text. exists pk, sig. split; [exact Hs|exact Hve].
Defined.

Lemma response_sign_then_verify_witness :
  match sign_capacity_challenge_response test_sk "aa" test_sender test_recipient 20 [] 0 with
  | Some (pk, sig) =>
      verify_capacity_challenge_response "aa" test_sender test_recipient 20 [] 0 pk sig = Some tt
  | None => False
  end.
Proof.
  destruct (sign_capacity_challenge_response _ _ _ _ _ _ _) as [[pk sig]|] eqn:Es;
    [|vm_compute in Es; discriminate].
  apply (response_sign_then_verify test_sk "aa" test_sender test_recipient 20 [] 0 pk sig);
    [vm_compute; reflexivity | exact Es].
Defined.
