(* ===== verification/TxCodes.v ===== *)
(** Decidable equality and codes of the transaction types of Tx.v: what the
    reference instances of a serializer of transactions need. *)
From S2P Require Import Prelude Externals Reference Coins Address Namespace Cado Records Tx.

#[export, program] Instance Nonce_countable : Countable Nonce := inj_countable' nonce_value mkNonce _.
Next Obligation. by intros []. Qed.

#[export] Instance TransferTx_eq_dec : EqDecision TransferTx.
Proof. solve_decision. Defined.
#[export, program] Instance TransferTx_countable : Countable TransferTx :=
  inj_countable' (λ t, (transfer_sender t, transfer_recipient t, transfer_amount t))
    (λ '(a, b, c), mkTransferTx a b c) _.
Next Obligation. by intros []. Qed.

#[export] Instance UnstakeTx_eq_dec : EqDecision UnstakeTx.
Proof. solve_decision. Defined.
#[export, program] Instance UnstakeTx_countable : Countable UnstakeTx :=
  inj_countable' (λ t, (unstake_sender t, unstake_amount t)) (λ '(a, b), mkUnstakeTx a b) _.
Next Obligation. by intros []. Qed.

#[export] Instance StakeTx_eq_dec : EqDecision StakeTx.
Proof. solve_decision. Defined.
#[export, program] Instance StakeTx_countable : Countable StakeTx :=
  inj_countable' (λ t, (stake_sender t, stake_amount t, stake_public_key t))
    (λ '(a, b, c), mkStakeTx a b c) _.
Next Obligation. by intros []. Qed.

#[export] Instance RegisterCapacityTx_eq_dec : EqDecision RegisterCapacityTx.
Proof. solve_decision. Defined.
#[export, program] Instance RegisterCapacityTx_countable : Countable RegisterCapacityTx :=
  inj_countable' (λ t, (register_sender t, register_capacity_bytes t, register_merkle_root t,
      register_seed t, register_chunk_count t))
    (λ '(a, b, c, d, e), mkRegisterCapacityTx a b c d e) _.
Next Obligation. by intros []. Qed.

#[export] Instance UnregisterCapacityTx_eq_dec : EqDecision UnregisterCapacityTx.
Proof. solve_decision. Defined.
#[export, program] Instance UnregisterCapacityTx_countable : Countable UnregisterCapacityTx :=
  inj_countable' (λ t, (unregister_sender t, unregister_flag t))
    (λ '(a, b), mkUnregisterCapacityTx a b) _.
Next Obligation. by intros []. Qed.

#[export] Instance UpdateCapacityMerkleRootTx_eq_dec : EqDecision UpdateCapacityMerkleRootTx.
Proof. solve_decision. Defined.
#[export, program] Instance UpdateCapacityMerkleRootTx_countable :
    Countable UpdateCapacityMerkleRootTx :=
  inj_countable' (λ t, (update_sender t, update_merkle_root t))
    (λ '(a, b), mkUpdateCapacityMerkleRootTx a b) _.
Next Obligation. by intros []. Qed.

#[export] Instance AddNamespaceTx_eq_dec : EqDecision AddNamespaceTx.
Proof. solve_decision. Defined.
#[export, program] Instance AddNamespaceTx_countable : Countable AddNamespaceTx :=
  inj_countable' (λ t, (addns_sender t, addns_slug t, addns_registration_fee t))
    (λ '(a, b, c), mkAddNamespaceTx a b c) _.
Next Obligation. by intros []. Qed.

#[export] Instance SlotState_eq_dec : EqDecision SlotState.
Proof. solve_decision. Defined.
#[export, program] Instance SlotState_countable : Countable SlotState :=
  inj_countable' (λ s, match s with
                       | Slot_Proof => inl true | Slot_Open => inl false
                       | Slot_Content a b => inr (a, b)
                       end)
    (λ c, match c with
          | inl true => Slot_Proof | inl false => Slot_Open
          | inr (a, b) => Slot_Content a b
          end) _.
Next Obligation. by intros []. Qed.

#[export] Instance ChunkProof_eq_dec : EqDecision ChunkProof.
Proof. solve_decision. Defined.
#[export, program] Instance ChunkProof_countable : Countable ChunkProof :=
  inj_countable' (λ p, (chunk_index p, chunk_data p, chunk_hash p, chunk_merkle_proof p,
      chunk_slot_state p))
    (λ '(a, b, c, d, e), mkChunkProof a b c d e) _.
Next Obligation. by intros []. Qed.

#[export] Instance VerifiedProofTx_eq_dec : EqDecision VerifiedProofTx.
Proof. solve_decision. Defined.
#[export, program] Instance VerifiedProofTx_countable : Countable VerifiedProofTx :=
  inj_countable' (λ t, (vp_sender t, vp_capacity_provider t, vp_challenge_id t, vp_block_height t,
      vp_verified_at_block t, vp_verified_at_timestamp t, vp_proofs t, vp_generated_at t,
      vp_provider_pubkey t, vp_provider_signature t, vp_failed t))
    (λ '(a, b, c, d, e, f, g, h, i, j, k), mkVerifiedProofTx a b c d e f g h i j k) _.
Next Obligation. by intros []. Qed.

#[export] Instance PostMessageTx_eq_dec : EqDecision PostMessageTx.
Proof. solve_decision. Defined.
#[export, program] Instance PostMessageTx_countable : Countable PostMessageTx :=
  inj_countable' (λ t, (post_sender t, post_original_signer t, post_original_signer_pubkey t,
      post_content_key t, post_message_id t, post_expires_height t, post_visibility t, post_topic t,
      post_tags t, post_content_type t, post_fee_amount t, post_received_timestamp t,
      post_user_signature t, post_namespace t))
    (λ '(a, b, c, d, e, f, g, h, i, j, k, l, m, n), mkPostMessageTx a b c d e f g h i j k l m n) _.
Next Obligation. by intros []. Qed.

#[export] Instance PayloadInner_eq_dec : EqDecision PayloadInner.
Proof. solve_decision. Defined.
#[export, program] Instance PayloadInner_countable : Countable PayloadInner :=
  inj_countable' (λ p, match p with
                       | Transfer t => inl (inl (inl t))
                       | Unstake t => inl (inl (inr t))
                       | Stake t => inl (inr (inl t))
                       | VerifiedProof t => inl (inr (inr t))
                       | RegisterCapacity t => inr (inl (inl t))
                       | UnregisterCapacity t => inr (inl (inr t))
                       | UpdateCapacityMerkleRoot t => inr (inr (inl t))
                       | PostMessage t => inr (inr (inr (inl t)))
                       | AddNamespace t => inr (inr (inr (inr t)))
                       end)
    (λ c, match c with
          | inl (inl (inl t)) => Transfer t
          | inl (inl (inr t)) => Unstake t
          | inl (inr (inl t)) => Stake t
          | inl (inr (inr t)) => VerifiedProof t
          | inr (inl (inl t)) => RegisterCapacity t
          | inr (inl (inr t)) => UnregisterCapacity t
          | inr (inr (inl t)) => UpdateCapacityMerkleRoot t
          | inr (inr (inr (inl t))) => PostMessage t
          | inr (inr (inr (inr t))) => AddNamespace t
          end) _.
Next Obligation. by intros []. Qed.

#[export] Instance Payload_eq_dec : EqDecision Payload.
Proof. solve_decision. Defined.
#[export, program] Instance Payload_countable : Countable Payload :=
  inj_countable' (λ p, (payload_type p, payload_inner p)) (λ '(a, b), mkPayload a b) _.
Next Obligation. by intros []. Qed.

#[export] Instance Tx_eq_dec : EqDecision Tx.
Proof. solve_decision. Defined.
#[export, program] Instance Tx_countable : Countable Tx :=
  inj_countable' (λ t, (tx_sig t, tx_nonce t, tx_payload t, tx_public_key t, tx_fee t))
    (λ '(a, b, c, d, e), mkTx a b c d e) _.
Next Obligation. by intros []. Qed.
