(* ===== verification/Merkle.v ===== *)
(** The Merkle tree over capacity chunks
    (common/src/capacity/capacity_proof_merkle_tree.rs, the copy consensus and
    the capacity manager use) and the check of challenge proofs against its
    root (node_app/src/capacity/challenge_validator.rs). *)
From S2P Require Import Prelude Externals Reference Coins Address Namespace Cado Records Tx.

Definition hash32 : Type := byte_array 32.

#[export] Instance hash32_eq_dec : EqDecision hash32 := _.

Section merkle.
Context {HC : HashCrates}.

(** [hash_pair]: [blake3("Merkle" || left || right)] *)
Definition hash_pair (left right : hash32) : hash32 :=
  blake3 (as_bytes "Merkle" ++ vec_to_list left ++ vec_to_list right).

(** ** Building *)

(** One round of the loop of [build]: [chunks(2)], an odd last node paired with itself. *)
Fixpoint next_level (l : list hash32) : list hash32 :=
  match l with
  | [] => []
  | [a] => [hash_pair a a]
  | a :: b :: l => hash_pair a b :: next_level l
  end.

(** The levels the loop pushes above [current]; each round at least halves it,
    so its length is enough fuel ([build_levels_complete]). *)
Fixpoint build_levels (fuel : nat) (current : list hash32) : list (list hash32) :=
  match fuel with
  | O => []
  | S f =>
      if (1 <? length current)%nat
      then next_level current :: build_levels f (next_level current)
      else []
  end.

Record CapacityProofMerkleTree : Type := mkTree {
  tree_leaves : list hash32;
  tree_root : hash32;
  tree_levels : list (list hash32);
}.

(** [build]; [None] is its panic on no leaves. *)
Definition build (leaves : list hash32) : option CapacityProofMerkleTree :=
  match leaves with
  | [] => None
  | _ =>
      let tree := leaves :: build_levels (length leaves) leaves in
      root ← list.last tree ≫= list.head;
      Some (mkTree leaves root tree)
  end.

Definition leaf_count (t : CapacityProofMerkleTree) : nat := length (tree_leaves t).

(** ** Proofs *)

(** The sibling a proof carries for node [i] of a level: the node itself when
    it is the odd last one; [None] is an out-of-bounds index. *)
Definition sibling_of (level : list hash32) (i : nat) : option hash32 :=
  let s := if Nat.even i then S i else pred i in
  match level !! s with Some h => Some h | None => level !! i end.

(** The loop of [generate_proof], over the levels below the root. *)
Fixpoint proof_path (levels : list (list hash32)) (i : nat) : option (list hash32) :=
  match levels with
  | level :: ((_ :: _) as rest) =>
      h ← sibling_of level i;
      p ← proof_path rest (i / 2);
      Some (h :: p)
  | _ => Some []
  end.

Definition generate_proof (t : CapacityProofMerkleTree) (leaf_index : nat) :
    option (list hash32) :=
  if (length (tree_leaves t) <=? leaf_index)%nat then None
  else proof_path (tree_levels t) leaf_index.

(** The loop of [verify_proof]. *)
Fixpoint fold_proof (proof : list hash32) (current_hash : hash32) (current_index : nat) : hash32 :=
  match proof with
  | [] => current_hash
  | sibling :: proof =>
      fold_proof proof
        (if Nat.even current_index then hash_pair current_hash sibling
         else hash_pair sibling current_hash)
        (current_index / 2)
  end.

Definition verify_proof (leaf_hash : hash32) (proof : list hash32) (root : hash32)
    (leaf_index : nat) : bool :=
  bool_decide (fold_proof proof leaf_hash leaf_index = root).

(** ** Incremental updates *)

(** The parent of node [i], recomputed from its level; [None] is an
    out-of-bounds index. *)
Definition parent_update (level : list hash32) (i : nat) : option (nat * hash32) :=
  node ← level !! i;
  if Nat.even i then
    Some (i / 2, hash_pair node (default node (level !! S i)))%nat
  else
    left ← level !! pred i;
    Some (i / 2, hash_pair left node)%nat.

(** The second pass writes the parents that exist; [insert] past the end of a
    list does nothing. *)
Definition write_all (level : list hash32) (updates : list (nat * hash32)) : list hash32 :=
  foldl (λ l u, <[u.1 := u.2]> l) level updates.

(** The walk up the tree; [nodes] is the set of changed nodes of [current]. *)
Fixpoint update_up (current : list hash32) (nodes : gset nat) (rest : list (list hash32)) :
    option (list (list hash32)) :=
  match rest with
  | [] => Some [current]
  | next :: rest =>
      parents ← mapM (parent_update current) (elements nodes);
      levels ← update_up (write_all next parents) (set_map (λ i, i / 2)%nat nodes) rest;
      Some (current :: levels)
  end.

(** [update_leaves]; [None] is its panic on a leaf index out of bounds. *)
Definition update_leaves (t : CapacityProofMerkleTree) (updates : list (nat * hash32)) :
    option CapacityProofMerkleTree :=
  match updates, tree_levels t with
  | [], _ => Some t
  | _, [] => None
  | _, level0 :: rest =>
      if forallb (λ u, (u.1 <? length (tree_leaves t))%nat) updates then
        levels ← update_up (write_all level0 updates) (list_to_set (fst <$> updates)) rest;
        Some (mkTree (write_all (tree_leaves t) updates)
                (default (tree_root t) (list.last levels ≫= list.head)) levels)
      else None
  end.

(** ** Challenge proofs *)

(** [CapacityManager::hash_chunk] *)
Definition hash_chunk (chunk_data : bytes) : hash32 := sha256 (as_bytes "CHUNK_HASH" ++ chunk_data).

(** The checks on one chunk proof; [false] is an error pushed for it. *)
Definition chunk_proof_ok (expected_merkle_root : hash32) (expected_index : Z)
    (proof : ChunkProof) : bool :=
  (chunk_index proof =? expected_index) &&
  bool_decide (hash_chunk (chunk_data proof) = chunk_hash proof) &&
  verify_proof (chunk_hash proof) (chunk_merkle_proof proof) expected_merkle_root
    (Z.to_nat (chunk_index proof)) &&
  match chunk_slot_state proof with
  | Slot_Open => forallb (λ b, bool_decide (b = Byte.x00)) (chunk_data proof)
  | Slot_Proof | Slot_Content _ _ => true
  end.

(** [validate_challenge_proof(..).is_valid] *)
Definition validate_challenge_proof (proofs : list ChunkProof) (expected_merkle_root : hash32)
    (expected_chunk_indices : list Z) : bool :=
  (length proofs =? length expected_chunk_indices)%nat &&
  forallb (λ '(i, p), chunk_proof_ok expected_merkle_root i p) (zip expected_chunk_indices proofs).

(** ** Levels *)

#[local] Arguments Nat.div : simpl never.

Lemma level_ind (P : list hash32 → Prop) :
  P [] → (∀ a, P [a]) → (∀ a b l, P l → P (a :: b :: l)) → ∀ l, P l.
Proof.
  intros H0 H1 H2 l. assert (P l ∧ ∀ a, P (a :: l)) as [Hl _]; [|exact Hl].
  induction l as [|b l [IH1 IH2]]; split; auto.
Qed.

Lemma half_SS i : (S (S i) / 2 = S (i / 2))%nat.
Proof. change (S (S i)) with (1 * 2 + i)%nat. by rewrite Nat.div_add_l. Qed.

Lemma next_level_length l : length (next_level l) = (S (length l) / 2)%nat.
Proof. induction l as [| |a b l IH] using level_ind; [done..|]. cbn [next_level length]. rewrite IH, half_SS. done. Qed.

(** The pairs of nodes a level hashes. *)
Fixpoint level_pairs (l : list hash32) : list (hash32 * hash32) :=
  match l with
  | [] => []
  | [a] => [(a, a)]
  | a :: b :: l => (a, b) :: level_pairs l
  end.

Lemma next_level_pairs l : next_level l = uncurry hash_pair <$> level_pairs l.
Proof.
  induction l as [| |a b l IH] using level_ind; [done..|]. cbn [next_level level_pairs].
  by rewrite fmap_cons, IH.
Qed.

(** Node [i] is paired with its sibling, in order. *)
Lemma level_pairs_lookup l i x :
  l !! i = Some x →
  level_pairs l !! (i / 2)%nat =
    Some (if Nat.even i then (x, default x (l !! S i)) else (default x (l !! pred i), x)).
Proof.
  revert i. induction l as [|a|a b l IH] using level_ind; intros i Hx; [done|..].
  - destruct i as [|i]; [|done]. injection Hx as ->. done.
  - destruct i as [|[|i]]; [by injection Hx as ->..|].
    rewrite half_SS. cbn [level_pairs]. change ((?h :: ?r) !! S ?k) with (r !! k).
    rewrite (IH i Hx). cbn [Nat.even]. destruct (Nat.even i) eqn:Ev; [done|].
    destruct i as [|i]; [done|]. done.
Qed.

Lemma next_level_lookup l i x :
  l !! i = Some x →
  next_level l !! (i / 2)%nat =
    Some (if Nat.even i then hash_pair x (default x (l !! S i))
          else hash_pair (default x (l !! pred i)) x).
Proof.
  intros Hx. rewrite next_level_pairs, list_lookup_fmap, (level_pairs_lookup l i x Hx).
  by destruct (Nat.even i).
Qed.

(** Every level is the hashes of the pairs of the one below, up to one root. *)
Inductive levels_ok : list (list hash32) → Prop :=
| levels_top r : levels_ok [[r]]
| levels_step l rest :
    (1 < length l)%nat → levels_ok (next_level l :: rest) → levels_ok (l :: next_level l :: rest).

Lemma build_levels_complete fuel l :
  l ≠ [] → (length l ≤ fuel)%nat → levels_ok (l :: build_levels fuel l).
Proof.
  revert l. induction fuel as [|f IH]; intros l Hl Hf; [by destruct l; simpl in *; [|lia]|].
  cbn [build_levels]. destruct (1 <? length l)%nat eqn:E1.
  - apply Nat.ltb_lt in E1. pose proof (next_level_length l) as Hn.
    assert (length (next_level l) < length l)%nat.
    { rewrite Hn. apply Nat.Div0.div_lt_upper_bound. lia. }
    apply levels_step; [done|]. apply IH; [|lia]. destruct l as [|a [|b l]]; done.
  - apply Nat.ltb_ge in E1. destruct l as [|a [|b l]]; simpl in *; [done|constructor|lia].
Qed.

Lemma levels_ok_root levels : levels_ok levels → ∃ r, list.last levels = Some [r].
Proof. induction 1 as [r|l rest Hl Hr [r IH]]; exists r; [done|]. by destruct rest. Qed.

Lemma levels_ok_unique l r1 r2 : levels_ok (l :: r1) → levels_ok (l :: r2) → r1 = r2.
Proof.
  intros H1. remember (l :: r1) as k1 eqn:E1. revert l r1 r2 E1.
  induction H1 as [r|l' rest Hl Hr IH]; intros l r1 r2 [= <- <-] H2; inversion H2; subst.
  - done.
  - simpl in *. lia.
  - simpl in *. lia.
  - f_equal. eapply IH; [done|]. done.
Qed.

Lemma build_Some leaves t :
  build leaves = Some t →
  tree_leaves t = leaves ∧ levels_ok (tree_levels t) ∧
  (∃ rest, tree_levels t = leaves :: rest) ∧ list.last (tree_levels t) = Some [tree_root t].
Proof.
  unfold build. destruct leaves as [|a l]; [done|]. intros Hb.
  pose proof (build_levels_complete (length (a :: l)) (a :: l)) as Hok.
  specialize (Hok ltac:(done) ltac:(done)). cbv zeta in Hb.
  destruct (levels_ok_root _ Hok) as [r Hr]. rewrite Hr in Hb. cbn [mbind option_bind list.head] in Hb.
  injection Hb as <-. cbn [tree_leaves tree_levels tree_root]. split_and!; eauto.
Qed.

Lemma build_total leaves : leaves ≠ [] → is_Some (build leaves).
Proof.
  intros Hne. unfold build. destruct leaves as [|a l]; [done|].
  destruct (levels_ok_root _ (build_levels_complete (length (a :: l)) (a :: l) Hne (le_n _)))
    as [r Hr]. cbv zeta. rewrite Hr. simpl. eauto.
Qed.

(** ** Proofs along the levels *)

Lemma sibling_of_Some l i x :
  l !! i = Some x →
  ∃ s, sibling_of l i = Some s ∧
    next_level l !! (i / 2)%nat = Some (if Nat.even i then hash_pair x s else hash_pair s x).
Proof.
  intros Hx. rewrite (next_level_lookup l i x Hx). unfold sibling_of.
  destruct (Nat.even i) eqn:Ev.
  - destruct (l !! S i); [eauto|]. rewrite Hx. eauto.
  - assert (is_Some (l !! pred i)) as [y Hy].
    { apply lookup_lt_is_Some. apply lookup_lt_Some in Hx. lia. }
    rewrite Hy. eauto.
Qed.

Lemma proof_path_cons l l' rest i :
  proof_path (l :: l' :: rest) i =
    (h ← sibling_of l i; p ← proof_path (l' :: rest) (i / 2); Some (h :: p)).
Proof. done. Qed.

Lemma proof_path_correct levels i l rest x r :
  levels_ok levels → levels = l :: rest → l !! i = Some x → list.last levels = Some [r] →
  ∃ p, proof_path levels i = Some p ∧ fold_proof p x i = r ∧ length p = length rest.
Proof.
  intros Hok. revert i l rest x. induction Hok as [r'|l' rest' Hl Hok IH];
    intros i l rest x [= <- <-] Hx Hr.
  - injection Hr as ->. destruct i; [|done]. injection Hx as ->. by exists [].
  - destruct (sibling_of_Some l' i x Hx) as (s & Hs & Hn).
    destruct (IH (i / 2)%nat _ _ _ eq_refl Hn) as (p & Hp & Hf & Hlen); [by destruct rest'|].
    exists (s :: p). rewrite proof_path_cons, Hs. cbn [mbind option_bind]. rewrite Hp.
    split_and!; [done| |simpl; by f_equal]. cbn [fold_proof]. done.
Qed.

(** The pairs hashed when a proof is verified, and all those of a tree. *)
Fixpoint path_pairs (proof : list hash32) (h : hash32) (i : nat) : list (hash32 * hash32) :=
  match proof with
  | [] => []
  | s :: proof =>
      let q := if Nat.even i then (h, s) else (s, h) in
      q :: path_pairs proof (uncurry hash_pair q) (i / 2)
  end.

Definition tree_pairs (levels : list (list hash32)) : list (hash32 * hash32) :=
  levels ≫= level_pairs.

(** No pair hashed by the verifier collides with a different pair of the tree. *)
Definition no_collision (path tree : list (hash32 * hash32)) : Prop :=
  ∀ q q', q ∈ path → q' ∈ tree → uncurry hash_pair q = uncurry hash_pair q' → q = q'.

Lemma fold_proof_sound levels i l rest x r x' p :
  levels_ok levels → levels = l :: rest → l !! i = Some x → list.last levels = Some [r] →
  length p = length rest → no_collision (path_pairs p x' i) (tree_pairs levels) →
  fold_proof p x' i = r → x' = x.
Proof.
  intros Hok. revert i l rest x x' p. induction Hok as [r'|l' rest' Hl Hok IH];
    intros i l rest x x' p [= <- <-] Hx Hr Hlen Hnc Hf.
  - injection Hr as ->. destruct i; [|done]. injection Hx as ->. by destruct p.
  - destruct p as [|s p]; [done|]. cbn [fold_proof] in Hf.
    pose proof (level_pairs_lookup l' i x Hx) as Hq.
    set (q' := if Nat.even i then _ else _) in Hq.
    set (q := if Nat.even i then (x', s) else (s, x')).
    assert (q = q') as Heq; [|unfold q, q' in Heq; destruct (Nat.even i); congruence].
    apply Hnc; [left; fold q; by destruct (Nat.even i)| |].
    { unfold tree_pairs. apply list_elem_of_bind. exists l'.
      split; [by eapply list_elem_of_lookup_2|left]. }
    assert (next_level l' !! (i / 2)%nat = Some (uncurry hash_pair q')) as Hn
      by (by rewrite next_level_pairs, list_lookup_fmap, Hq).
    eapply (IH (i / 2)%nat _ _ _ _ p eq_refl Hn); [by destruct rest'|by simpl in Hlen; lia| |].
    + intros a b Ha Hb. apply Hnc; [by right|]. unfold tree_pairs in *. rewrite bind_cons.
      apply elem_of_app. by right.
    + unfold q. by destruct (Nat.even i).
Qed.

(** ** Updates along the levels *)

Lemma parent_update_Some l i :
  (i < length l)%nat →
  ∃ h, parent_update l i = Some (i / 2, h)%nat ∧ next_level l !! (i / 2)%nat = Some h.
Proof.
  intros Hi. destruct (lookup_lt_is_Some_2 l i Hi) as [x Hx]. unfold parent_update.
  rewrite (next_level_lookup l i x Hx), Hx. cbn [mbind option_bind].
  destruct (Nat.even i); [by eexists|].
  destruct (lookup_lt_is_Some_2 l (pred i)) as [y Hy]; [lia|]. rewrite Hy. by eexists.
Qed.

(** Writes whose values are those of [target] leave [target] on the written
    indices and the old level elsewhere. *)
Lemma write_all_target (target l : list hash32) updates j :
  (∀ k h, (k, h) ∈ updates → target !! k = Some h) → length l = length target →
  write_all l updates !! j = if bool_decide (j ∈ fst <$> updates) then target !! j else l !! j.
Proof.
  intros Ht. revert l. induction updates as [|[k h] us IH]; intros l Hl; [done|].
  cbn [write_all foldl]. fold (write_all (<[k := h]> l) us).
  rewrite IH; [|intros; apply Ht; by right|by rewrite length_insert].
  rewrite fmap_cons. cbn [fst]. case_bool_decide as Hin.
  - rewrite bool_decide_eq_true_2 by (by right). done.
  - destruct (decide (j = k)) as [->|Hjk].
    + rewrite bool_decide_eq_true_2 by (by left). rewrite (Ht k h) by (by left).
      apply list_lookup_insert_eq. rewrite Hl. apply lookup_lt_is_Some. rewrite (Ht k h); eauto. by left.
    + rewrite bool_decide_eq_false_2 by (intros [?|?]%elem_of_cons; done).
      by rewrite list_lookup_insert_ne.
Qed.

Lemma write_all_length l updates : length (write_all l updates) = length l.
Proof.
  unfold write_all. revert l. induction updates as [|u us IH]; intros l; [done|].
  cbn [foldl]. by rewrite IH, length_insert.
Qed.

Lemma next_level_agree l l' j :
  length l' = length l → (∀ i, (i / 2 = j)%nat → l' !! i = l !! i) →
  next_level l' !! j = next_level l !! j.
Proof.
  intros Hlen Hag. assert ((2 * j) / 2 = j)%nat as H2 by (rewrite Nat.mul_comm; apply Nat.div_mul; done).
  assert ((S (2 * j)) / 2 = j)%nat as H3.
  { replace (S (2 * j)) with (j * 2 + 1)%nat by lia. rewrite Nat.div_add_l by done.
    change (1 / 2)%nat with 0%nat. lia. }
  destruct (l !! (2 * j)%nat) as [x|] eqn:Hx.
  - pose proof (next_level_lookup l _ _ Hx) as Hn. rewrite <- (Hag _ H2) in Hx.
    pose proof (next_level_lookup l' _ _ Hx) as Hn'. rewrite H2, Nat.even_even in Hn, Hn'.
    by rewrite Hn, Hn', (Hag _ H3).
  - apply lookup_ge_None in Hx. rewrite !(proj2 (lookup_ge_None _ _)); [done|..];
      rewrite next_level_length, ?Hlen; apply Nat.lt_succ_r, Nat.Div0.div_lt_upper_bound; lia.
Qed.

Lemma mapM_parents l nodes :
  Forall (λ i, i < length l)%nat nodes →
  ∃ us, mapM (parent_update l) nodes = Some us ∧ fst <$> us = (λ i, i / 2)%nat <$> nodes ∧
    ∀ k h, (k, h) ∈ us → next_level l !! k = Some h.
Proof.
  induction 1 as [|i nodes Hi _ (us & Hm & Hf & Hin)].
  { exists []. split_and!; [done..|]. by intros k h ?%elem_of_nil. }
  destruct (parent_update_Some l i Hi) as (h & Hp & Hn).
  exists ((i / 2, h)%nat :: us). split_and!.
  - cbn [mapM]. rewrite Hp. cbn [mbind option_bind]. by rewrite Hm.
  - by rewrite !fmap_cons, Hf.
  - intros k h' [[= -> ->]|Hk]%elem_of_cons; [done|by apply Hin].
Qed.

(** The walk keeps the levels consistent: the old levels were, the changed
    level agrees with the old one off [nodes], and every change is in range. *)
Lemma update_up_correct levels l rest l' (nodes : gset nat) :
  levels_ok levels → levels = l :: rest → length l' = length l →
  (∀ i, i ∈ nodes → i < length l)%nat → (∀ i, i ∉ nodes → l' !! i = l !! i) →
  ∃ rest', update_up l' nodes rest = Some (l' :: rest') ∧ levels_ok (l' :: rest').
Proof.
  intros Hok. revert l rest l' nodes. induction Hok as [r|k rest0 Hk Hok IH];
    intros l rest l' nodes [= <- <-] Hlen Hrange Hag.
  - exists []. split; [done|]. destruct l' as [|r' [|]]; simpl in Hlen; [lia|constructor|lia].
  - destruct (mapM_parents l' (elements nodes)) as (us & Hm & Hf & Hin).
    { apply Forall_forall. intros i Hi%list_elem_of_In%elem_of_elements.
      rewrite Hlen. auto. }
    assert (length (next_level k) = length (next_level l')) as Hnl
      by (rewrite !next_level_length; by rewrite Hlen).
    assert (write_all (next_level k) us = next_level l') as Hw.
    { apply list_eq. intros j. rewrite (write_all_target (next_level l')) by done.
      case_bool_decide as Hj; [done|]. symmetry. apply next_level_agree; [done|].
      intros i Hi. apply Hag. intros Hin'. apply Hj. rewrite Hf.
      apply list_elem_of_fmap. exists i. split; [done|]. by apply elem_of_elements. }
    destruct (IH (next_level k) rest0 (next_level l') (set_map (λ i, i / 2)%nat nodes) eq_refl)
      as (rest' & Hu & Hok').
    + done.
    + intros j (i & -> & Hi)%elem_of_map. rewrite next_level_length.
      specialize (Hrange i Hi). apply Nat.Div0.div_lt_upper_bound.
      pose proof (Nat.Div0.div_mod (S (length k)) 2). 
      pose proof (Nat.mod_upper_bound (S (length k)) 2 ltac:(done)). lia.
    + intros j Hj. apply next_level_agree; [done|]. intros i Hi. apply Hag.
      intros Hin'. apply Hj. apply elem_of_map. eauto.
    + exists (next_level l' :: rest'). cbn [update_up]. rewrite Hm. cbn [mbind option_bind].
      rewrite Hw, Hu. split; [done|]. apply levels_step; [by rewrite Hlen|done].
Qed.

Lemma write_all_out l updates j : j ∉ fst <$> updates → write_all l updates !! j = l !! j.
Proof.
  unfold write_all. revert l. induction updates as [|u us IH]; intros l Hj; [done|].
  rewrite fmap_cons in Hj. apply not_elem_of_cons in Hj as [Hu Hj]. cbn [foldl].
  rewrite IH by done. by apply list_lookup_insert_ne.
Qed.

Lemma leaf_proof_verifies (leaves : list hash32) (i : nat) (h : hash32) :
  leaves !! i = Some h →
  ∃ t p, build leaves = Some t ∧ generate_proof t i = Some p ∧
    S (length p) = length (tree_levels t) ∧ verify_proof h p (tree_root t) i = true.
Proof.
  intros Hi. destruct (build_total leaves) as [t Ht]; [by intros ->|].
  destruct (build_Some _ _ Ht) as (Hl & Hok & [rest Hlev] & Hroot).
  destruct (proof_path_correct _ i leaves rest h (tree_root t) Hok Hlev Hi Hroot)
    as (p & Hp & Hf & Hlen).
  exists t, p. split; [done|]. unfold generate_proof, verify_proof. rewrite Hl.
  apply lookup_lt_Some in Hi. rewrite (proj2 (Nat.leb_gt _ _)) by done.
  split_and!; [done| |by apply bool_decide_eq_true]. rewrite Hlev. simpl. by rewrite Hlen.
Qed.

Lemma update_leaves_rebuild (leaves : list hash32) (t : CapacityProofMerkleTree)
    (updates : list (nat * hash32)) :
  build leaves = Some t →
  update_leaves t updates =
    if forallb (λ u, (u.1 <? length leaves)%nat) updates
    then build (write_all leaves updates) else None.
Proof.
  intros Ht. destruct (build_Some _ _ Ht) as (Hl & Hok & [rest Hlev] & Hroot).
  unfold update_leaves. rewrite Hlev, Hl.
  destruct updates as [|u us]; [done|]. set (updates := u :: us).
  destruct (forallb _ updates) eqn:Ef; [|done].
  destruct (update_up_correct _ leaves rest (write_all leaves updates)
    (list_to_set (fst <$> updates)) Hok Hlev) as (rest' & Hu & Hok').
  { apply write_all_length. }
  { intros i Hi%elem_of_list_to_set%list_elem_of_fmap. destruct Hi as (v & -> & Hv).
    rewrite forallb_forall in Ef. apply list_elem_of_In in Hv. by apply Nat.ltb_lt, Ef. }
  { intros i Hi. apply write_all_out. intros Hj. apply Hi.
    by apply elem_of_list_to_set. }
  rewrite Hu. cbn [mbind option_bind]. destruct (levels_ok_root _ Hok') as [r Hr].
  rewrite Hr. cbn [mbind option_bind list.head default].
  destruct (build_total (write_all leaves updates)) as [t' Ht'].
  { intros E0. pose proof (write_all_length leaves updates) as Hw. rewrite E0 in Hw.
    destruct leaves; [done|]. done. }
  rewrite Ht'. destruct (build_Some _ _ Ht') as (Hl' & Hokt & [rest'' Hlev'] & Hroot').
  rewrite Hlev' in Hokt, Hroot'. pose proof (levels_ok_unique _ _ _ Hok' Hokt) as ->.
  destruct t' as [tl tr tv]; cbn in *. subst. rewrite Hr in Hroot'. by injection Hroot' as ->.
Qed.

(** ** Properties *)

(** C26. Every leaf has a proof and its proof verifies: for any non-empty list
    of leaves the tree builds, and the proof generated for an index in range
    has one hash per level below the root and verifies the leaf at that index
    against the root. *)
Theorem merkle_proof_roundtrip (leaves : list hash32) (i : nat) (h : hash32) :
  leaves !! i = Some h →
  ∃ t p, build leaves = Some t ∧ generate_proof t i = Some p ∧
    S (length p) = length (tree_levels t) ∧ verify_proof h p (tree_root t) i = true.
Proof. intros Hi. by apply leaf_proof_verifies. Qed.

(** C27. Recomputing only the paths of the changed leaves gives the tree a full
    rebuild gives; an index out of bounds is the only failure. *)
Theorem update_leaves_equals_rebuild (leaves : list hash32) (t : CapacityProofMerkleTree)
    (updates : list (nat * hash32)) :
  build leaves = Some t →
  update_leaves t updates =
    if forallb (λ u, (u.1 <? length leaves)%nat) updates
    then build (write_all leaves updates) else None.
Proof. intros Ht. by apply update_leaves_rebuild. Qed.

(** C28. A validated challenge answer commits to the registered leaves: in an
    accepted answer, every proof for an existing chunk with a path as long as
    the tree is deep carries exactly that chunk's leaf, as long as no pair
    hashed on that path collides with a different pair of the tree. *)
Theorem challenge_proofs_bind_leaves (leaves : list hash32) (t : CapacityProofMerkleTree)
    (proofs : list ChunkProof) (indices : list Z) (k : nat) (p : ChunkProof) (leaf : hash32) :
  build leaves = Some t →
  validate_challenge_proof proofs (tree_root t) indices = true →
  proofs !! k = Some p →
  leaves !! Z.to_nat (chunk_index p) = Some leaf →
  S (length (chunk_merkle_proof p)) = length (tree_levels t) →
  no_collision (path_pairs (chunk_merkle_proof p) (chunk_hash p) (Z.to_nat (chunk_index p)))
    (tree_pairs (tree_levels t)) →
  indices !! k = Some (chunk_index p) ∧ hash_chunk (chunk_data p) = leaf.
Proof.
  intros Ht Hv Hp Hleaf Hlen Hnc. unfold validate_challenge_proof in Hv.
  apply andb_true_iff in Hv as [Hl Hall]. apply Nat.eqb_eq in Hl.
  assert (is_Some (indices !! k)) as [ix Hix].
  { apply lookup_lt_is_Some. rewrite <- Hl. by eapply lookup_lt_Some. }
  rewrite forallb_forall in Hall. specialize (Hall (ix, p)). cbv beta in Hall.
  assert (chunk_proof_ok (tree_root t) ix p = true) as Hok.
  { apply Hall, list_elem_of_In, list_elem_of_lookup. exists k.
    apply lookup_zip_with_Some. by exists ix, p. }
  unfold chunk_proof_ok, verify_proof in Hok. eld_bool. subst ix.
  split; [done|]. destruct (build_Some _ _ Ht) as (_ & Hlv & [rest Hlev] & Hroot).
  rewrite Hlev in Hlen, Hnc, Hlv, Hroot. simpl in Hlen. injection Hlen as Hlen.
  match goal with Hh : hash_chunk _ = _ |- _ => rewrite Hh end.
  eapply fold_proof_sound; eauto.
Qed.

(** Paths shorter than the tree are accepted too: one chunk answers every
    challenge. A provider that registers the hash of a single chunk as its root
    passes any set of requested indices with that chunk and empty paths,
    whatever chunk count it declared. *)
Theorem single_chunk_answers_every_challenge (data : bytes) (indices : list Z) :
  validate_challenge_proof
    (map (λ i, mkChunkProof i data (hash_chunk data) [] Slot_Proof) indices)
    (hash_chunk data) indices = true.
Proof.
  unfold validate_challenge_proof. rewrite length_map, Nat.eqb_refl. cbn [andb].
  induction indices as [|i l IH]; [done|]. cbn [map zip zip_with forallb]. rewrite IH.
  unfold chunk_proof_ok, verify_proof. simpl. rewrite Z.eqb_refl.
  by rewrite !bool_decide_eq_true_2.
Qed.
End merkle.

(** ** Witnesses *)

Definition test_leaf (b : Byte.byte) : hash32 := vreplicate 32 b.
Definition test_leaves : list hash32 := [test_leaf Byte.x01; test_leaf Byte.x02; test_leaf Byte.x03].

Lemma merkle_proof_roundtrip_witness :
  ∃ t p, build test_leaves = Some t ∧ generate_proof t 2 = Some p ∧
    verify_proof (test_leaf Byte.x03) p (tree_root t) 2 = true.
Proof.
  destruct (merkle_proof_roundtrip test_leaves 2 (test_leaf Byte.x03) eq_refl)
    as (t & p & Ht & Hp & _ & Hv).
  exists t, p. split; [exact Ht|]. split; [exact Hp|exact Hv].
Defined.

Lemma update_leaves_equals_rebuild_witness :
  match build test_leaves with
  | Some t => update_leaves t [(2%nat, test_leaf Byte.x07)] =
      build [test_leaf Byte.x01; test_leaf Byte.x02; test_leaf Byte.x07]
  | None => False
  end.
Proof.
  destruct (build test_leaves) as [t|] eqn:Ht; [|vm_compute in Ht; discriminate].
  apply (update_leaves_equals_rebuild test_leaves t [(2%nat, test_leaf Byte.x07)] Ht).
Defined.

(** A one-chunk tree and the answer that opens it. *)
Definition test_chunk : ChunkProof :=
  mkChunkProof 0 [] (hash_chunk []) [] Slot_Proof.

Lemma challenge_proofs_bind_leaves_witness :
  match build [hash_chunk []] with
  | Some t => validate_challenge_proof [test_chunk] (tree_root t) [0] = true ∧
      hash_chunk (chunk_data test_chunk) = hash_chunk []
  | None => False
  end.
Proof.
  destruct (build [hash_chunk []]) as [t|] eqn:Ht; [|vm_compute in Ht; discriminate].
  assert (t = mkTree [hash_chunk []] (hash_chunk []) [[hash_chunk []]]) as Et.
  { assert (build [hash_chunk []] = Some (mkTree [hash_chunk []] (hash_chunk []) [[hash_chunk []]]))
      as E2 by reflexivity. rewrite E2 in Ht. apply (inj Some) in Ht. symmetry. exact Ht. }
  assert (validate_challenge_proof [test_chunk] (tree_root t) [0] = true) as Hv
    by (rewrite Et; vm_compute; reflexivity).
  split; [exact Hv|].
  apply (challenge_proofs_bind_leaves [hash_chunk []] t [test_chunk] [0] 0 test_chunk
    (hash_chunk []) Ht Hv eq_refl eq_refl).
  - rewrite Et. reflexivity.
  - intros q q' Hq. apply elem_of_nil in Hq. destruct Hq.
Defined.
