(* ===== verification/Wire.v ===== *)
(** The JSON wire form of transactions: the [serde] attributes on the types of
    common/src/tx as readers of a [serde_json::Value].

    [serde_json] itself is a parameter: [SerdeJson] has its text reader and
    writer.  What is translated here is what the source declares: which fields
    a payload has, how each is written ([tx_amount_string], [hex_vec_u8_32],
    [u128_string]), which are defaulted, which reject unknown fields, the
    [try_from] constructors, and the order in which the untagged [PayloadInner]
    tries its variants. *)
From S2P Require Import Prelude Externals Reference Coins Address Namespace Cado Records Tx.

(** ** serde_json::Value *)

Set Warnings "-register-all".

(** [serde_json::Number]: an integer that fits [u64], a negative one that fits
    [i64], or a float (kept as its text). *)
Inductive Number : Type :=
| PosInt (n : Z)
| NegInt (n : Z)
| Float (text : string).

Inductive Value : Type :=
| JNull
| JBool (b : bool)
| JNumber (n : Number)
| JString (s : string)
| JArray (l : list Value)
| JObject (m : list (string * Value)).

(** [Map::get], on the entries of the map *)
Fixpoint map_get (m : list (string * Value)) (k : string) : option Value :=
  match m with
  | [] => None
  | (k', v) :: m => if String.eqb k k' then Some v else map_get m k
  end.

Definition contains_key (m : list (string * Value)) (k : string) : bool :=
  match map_get m k with Some _ => true | None => false end.

Definition as_str (v : Value) : option string :=
  match v with JString s => Some s | _ => None end.
Definition as_bool (v : Value) : option bool :=
  match v with JBool b => Some b | _ => None end.
Definition as_array (v : Value) : option (list Value) :=
  match v with JArray l => Some l | _ => None end.
Definition as_object (v : Value) : option (list (string * Value)) :=
  match v with JObject m => Some m | _ => None end.
Definition number_as_u64 (n : Number) : option Z :=
  match n with PosInt z => if (0 <=? z) && (z <=? u64_max) then Some z else None | _ => None end.
Definition number_as_i64 (n : Number) : option Z :=
  match n with
  | PosInt z => if (0 <=? z) && (z <=? i64_max) then Some z else None
  | NegInt z => if (i64_min <=? z) && (z <? 0) then Some z else None
  | Float _ => None
  end.
Definition value_as_u64 (v : Value) : option Z :=
  match v with JNumber n => number_as_u64 n | _ => None end.
Definition value_as_i64 (v : Value) : option Z :=
  match v with JNumber n => number_as_i64 n | _ => None end.
Definition is_string (v : Value) : bool := match v with JString _ => true | _ => false end.
Definition is_number (v : Value) : bool := match v with JNumber _ => true | _ => false end.
Definition is_object (v : Value) : bool := match v with JObject _ => true | _ => false end.
Definition is_boolean (v : Value) : bool := match v with JBool _ => true | _ => false end.

Class SerdeJson : Type := {
  value_from_str : string → option Value;
  value_to_string : Value → option string;
}.

(** ** Field readers *)

(** A required field, read with [f]. *)
Definition field {A} (m : list (string * Value)) (k : string) (f : Value → option A) : option A :=
  v ← map_get m k; f v.

(** [#[serde(default)]] *)
Definition field_default {A} (m : list (string * Value)) (k : string) (d : A)
    (f : Value → option A) : option A :=
  match map_get m k with Some v => f v | None => Some d end.

(** [Option<T>]: absent or [null] is [None]. *)
Definition field_option {A} (m : list (string * Value)) (k : string) (f : Value → option A) :
    option (option A) :=
  match map_get m k with
  | None | Some JNull => Some None
  | Some v => a ← f v; Some (Some a)
  end.

(** [#[serde(deny_unknown_fields)]] *)
Definition only_fields (m : list (string * Value)) (ks : list string) : bool :=
  forallb (λ kv, str_in ks kv.1) m.

Definition read_bounded (max : Z) (v : Value) : option Z :=
  z ← value_as_u64 v; if z <=? max then Some z else None.
Definition read_u64 : Value → option Z := value_as_u64.
Definition read_u32 : Value → option Z := read_bounded u32_max.
Definition read_i64 : Value → option Z := value_as_i64.

Definition read_u8 (v : Value) : option Byte.byte :=
  z ← read_bounded 255 v; Byte.of_N (Z.to_N z).
Definition read_bytes (v : Value) : option bytes := l ← as_array v; mapM read_u8 l.
Definition read_array32 (v : Value) : option (byte_array 32) := b ← read_bytes v; try_array 32 b.

Section readers.
Context {H : HexCrate} {E : Ed25519}.

(** [Deserialize for Address] *)
Definition Address_deserialize (v : Value) : option Address := s ← as_str v; ok (parse_hex_str s).

(** [tx_amount_string] and [u128_string]: decimal text *)
Definition tx_amount_string_deserialize (v : Value) : option TxAmount :=
  s ← as_str v; parse_unsigned u128_max s.

(** [hex_vec_u8_32] *)
Definition hex_vec_u8_32_deserialize (v : Value) : option (byte_array 32) :=
  s ← as_str v; b ← hex_decode s; try_array 32 b.

Definition TxPublicKey_deserialize (v : Value) : option TxPublicKey :=
  s ← as_str v; ok (TxPublicKey_new s).

Definition TxSig_deserialize (v : Value) : option TxSig :=
  s ← as_str v; if String.eqb s EmptyString then Some TxSig_empty else ok (TxSig_new s).

Definition Nonce_deserialize (v : Value) : option Nonce := z ← read_u32 v; Some (mkNonce z).

(** ** Payloads *)

Definition TransferTx_deserialize (m : list (string * Value)) : option TransferTx :=
  sender ← field m "sender" Address_deserialize;
  recipient ← field m "recipient" Address_deserialize;
  amount ← field m "amount" tx_amount_string_deserialize;
  ok (TransferTx_new sender recipient amount).

Definition UnstakeTx_deserialize (m : list (string * Value)) : option UnstakeTx :=
  if negb (only_fields m ["sender"; "amount"]) then None
  else
    sender ← field m "sender" Address_deserialize;
    amount ← field m "amount" tx_amount_string_deserialize;
    ok (UnstakeTx_new sender amount).

Definition StakeTx_deserialize (m : list (string * Value)) : option StakeTx :=
  sender ← field m "sender" Address_deserialize;
  amount ← field m "amount" tx_amount_string_deserialize;
  public_key ← field_option m "public_key" as_str;
  ok (StakeTx_new sender amount public_key).

(** An enum written by its variant's name. *)
Definition SlotState_deserialize (v : Value) : option SlotState :=
  match v with
  | JString s =>
      if String.eqb s "Proof" then Some Slot_Proof
      else if String.eqb s "Open" then Some Slot_Open else None
  | JObject [(k, c)] =>
      if String.eqb k "Content" then
        match c with
        | JObject f =>
            deal_id ← field f "deal_id" as_str;
            committed_hash ← field f "committed_hash" read_array32;
            Some (Slot_Content deal_id committed_hash)
        | JArray [d; h] =>
            deal_id ← as_str d; committed_hash ← read_array32 h;
            Some (Slot_Content deal_id committed_hash)
        | _ => None
        end
      else
        match c with
        | JNull => if String.eqb k "Proof" then Some Slot_Proof
                   else if String.eqb k "Open" then Some Slot_Open else None
        | _ => None
        end
  | _ => None
  end.

(** A struct written as an object, or as the array of its fields. *)
Definition ChunkProof_deserialize (v : Value) : option ChunkProof :=
  match v with
  | JObject m =>
      chunk_index ← field m "chunk_index" read_u64;
      chunk_data ← field m "chunk_data" read_bytes;
      chunk_hash ← field m "chunk_hash" read_array32;
      merkle_proof ← field m "merkle_proof" (λ v, l ← as_array v; mapM read_array32 l);
      slot_state ← field m "slot_state" SlotState_deserialize;
      Some (mkChunkProof chunk_index chunk_data chunk_hash merkle_proof slot_state)
  | JArray [i; d; h; p; s] =>
      chunk_index ← read_u64 i; chunk_data ← read_bytes d; chunk_hash ← read_array32 h;
      merkle_proof ← (l ← as_array p; mapM read_array32 l);
      slot_state ← SlotState_deserialize s;
      Some (mkChunkProof chunk_index chunk_data chunk_hash merkle_proof slot_state)
  | _ => None
  end.

Definition VerifiedProofTx_deserialize (m : list (string * Value)) : option VerifiedProofTx :=
  sender ← field m "sender" Address_deserialize;
  capacity_provider ← field m "capacity_provider" Address_deserialize;
  challenge_id ← field m "challenge_id" as_str;
  block_height ← field m "block_height" read_i64;
  verified_at_block ← field m "verified_at_block" read_i64;
  verified_at_timestamp ← field m "verified_at_timestamp" read_u64;
  proofs ← field m "proofs" (λ v, l ← as_array v; mapM ChunkProof_deserialize l);
  generated_at ← field m "generated_at" read_u64;
  provider_pubkey ← field m "provider_pubkey" as_str;
  provider_signature ← field m "provider_signature" as_str;
  failed ← field_default m "failed" false as_bool;
  t ← ok (VerifiedProofTx_new sender capacity_provider challenge_id block_height
            verified_at_block verified_at_timestamp proofs generated_at provider_pubkey
            provider_signature);
  Some (mkVerifiedProofTx (vp_sender t) (vp_capacity_provider t) (vp_challenge_id t)
          (vp_block_height t) (vp_verified_at_block t) (vp_verified_at_timestamp t)
          (vp_proofs t) (vp_generated_at t) (vp_provider_pubkey t) (vp_provider_signature t)
          failed).

Definition RegisterCapacityTx_deserialize (m : list (string * Value)) :
    option RegisterCapacityTx :=
  sender ← field m "sender" Address_deserialize;
  capacity_bytes ← field m "capacity_bytes" read_u64;
  merkle_root ← field m "merkle_root" hex_vec_u8_32_deserialize;
  seed ← field m "seed" hex_vec_u8_32_deserialize;
  chunk_count ← field m "chunk_count" read_u32;
  ok (RegisterCapacityTx_new sender capacity_bytes merkle_root seed chunk_count).

(** [UnregisterCapacityTxUnchecked] has no [deny_unknown_fields]. *)
Definition UnregisterCapacityTx_deserialize (m : list (string * Value)) :
    option UnregisterCapacityTx :=
  sender ← field m "sender" Address_deserialize;
  unregister ← field m "unregister" as_bool;
  ok (UnregisterCapacityTx_new sender unregister).

Definition UpdateCapacityMerkleRootTx_deserialize (m : list (string * Value)) :
    option UpdateCapacityMerkleRootTx :=
  sender ← field m "sender" Address_deserialize;
  merkle_root ← field m "merkle_root" hex_vec_u8_32_deserialize;
  ok (UpdateCapacityMerkleRootTx_new sender merkle_root).

Definition PostMessageTx_deserialize (m : list (string * Value)) : option PostMessageTx :=
  sender ← field m "sender" Address_deserialize;
  original_signer ← field m "original_signer" Address_deserialize;
  original_signer_pubkey ← field m "original_signer_pubkey" as_str;
  content_key ← field m "content_key" as_str;
  message_id ← field m "message_id" as_str;
  expires_height ← field m "expires_height" read_u64;
  visibility ← field m "visibility" as_str;
  topic ← field_option m "topic" as_str;
  tags ← field_default m "tags" [] (λ v, l ← as_array v; mapM as_str l);
  content_type ← field m "content_type" as_str;
  fee_amount ← field m "fee_amount" tx_amount_string_deserialize;
  received_timestamp ← field m "received_timestamp" read_u64;
  user_signature ← field m "user_signature" as_str;
  namespace ← field_option m "namespace" as_str;
  ok (PostMessageTx_new sender original_signer original_signer_pubkey content_key message_id
        expires_height visibility topic tags content_type fee_amount received_timestamp
        user_signature namespace).

Definition AddNamespaceTx_deserialize (m : list (string * Value)) : option AddNamespaceTx :=
  if negb (only_fields m ["sender"; "namespace_slug"; "registration_fee"]) then None
  else
    sender ← field m "sender" Address_deserialize;
    namespace_slug ← field m "namespace_slug" as_str;
    registration_fee ← field m "registration_fee" tx_amount_string_deserialize;
    ok (AddNamespaceTx_new sender namespace_slug registration_fee).

(** [#[serde(untagged)]]: the first variant that reads, in declaration order. *)
Definition PayloadInner_deserialize (m : list (string * Value)) : option PayloadInner :=
  match TransferTx_deserialize m with Some t => Some (Transfer t) | None =>
  match UnstakeTx_deserialize m with Some t => Some (Unstake t) | None =>
  match StakeTx_deserialize m with Some t => Some (Stake t) | None =>
  match VerifiedProofTx_deserialize m with Some t => Some (VerifiedProof t) | None =>
  match RegisterCapacityTx_deserialize m with Some t => Some (RegisterCapacity t) | None =>
  match UnregisterCapacityTx_deserialize m with Some t => Some (UnregisterCapacity t) | None =>
  match UpdateCapacityMerkleRootTx_deserialize m with
  | Some t => Some (UpdateCapacityMerkleRoot t) | None =>
  match PostMessageTx_deserialize m with Some t => Some (PostMessage t) | None =>
  match AddNamespaceTx_deserialize m with Some t => Some (AddNamespace t) | None => None
  end end end end end end end end end.

(** [#[serde(flatten)] inner]: the entries other than [type] are the payload. *)
Definition Payload_deserialize (v : Value) : option Payload :=
  m ← as_object v;
  ty ← field m "type" as_str;
  inner ← PayloadInner_deserialize (filter (λ kv, kv.1 ≠ "type") m);
  Some (mkPayload ty inner).

Definition Tx_deserialize (v : Value) : option Tx :=
  m ← as_object v;
  sig ← field m "sig" TxSig_deserialize;
  nonce ← field m "nonce" Nonce_deserialize;
  payload ← field m "payload" Payload_deserialize;
  public_key ← field m "public_key" TxPublicKey_deserialize;
  fee ← field m "fee" read_u64;
  Some (mkTx sig nonce payload public_key fee).
End readers.

(** Reading a [Tx] from text agrees with reading its [Value]: every transaction
    the text gives is the one its value gives, when the fee is in the integer
    range of [Value] (read from text it may use the full [u128]). *)
Class TxWire {H : HexCrate} {E : Ed25519} (SJ : SerdeJson) (J : TxJson) : Prop := {
  tx_from_json_value s v m fee tx :
    value_from_str s = Some v → as_object v = Some m →
    field m "fee" value_as_u64 = Some fee →
    tx_from_json s = Some tx → Tx_deserialize v = Some tx;
}.

(** ** What a decoded payload satisfies *)

Lemma ok_Some {A} (r : eld_result A) (a : A) : ok r = Some a → r = Ok a.
Proof. destruct r; simpl; congruence. Qed.

Ltac bind_Some :=
  repeat match goal with
  | Hb : (_ ≫= _) = Some _ |- _ =>
      apply bind_Some in Hb; let x := fresh "x" in let Hx := fresh "Hx" in
      destruct Hb as (x & Hx & Hb); cbv beta in Hb
  | Hb : ok _ = Some _ |- _ => apply ok_Some in Hb
  | Hb : field _ _ _ = Some _ |- _ => unfold field in Hb
  end.

Section decoded.
Context {H : HexCrate} {E : Ed25519}.

Lemma tx_amount_string_range v a : tx_amount_string_deserialize v = Some a → 0 ≤ a ≤ u128_max.
Proof.
  unfold tx_amount_string_deserialize. intros Ha. bind_Some. by apply parse_unsigned_range in Ha.
Qed.

Lemma value_as_u64_range v z : value_as_u64 v = Some z → 0 ≤ z ≤ u64_max.
Proof.
  destruct v as [| |[n| |]| | |]; simpl; try done. case_match eqn:En; [|done].
  intros [= <-]. eld_bool. lia.
Qed.

(** What every decoded payload satisfies: its constructor accepted it, and its
    amounts are in the range of [u128]. *)
Definition payload_ok (p : PayloadInner) : Prop := PayloadInner_valid p ∧ 0 ≤ amount p.

Lemma Transfer_decoded m t : TransferTx_deserialize m = Some t → payload_ok (Transfer t).
Proof.
  unfold TransferTx_deserialize. intros Ht. bind_Some.
  pose proof Ht as (-> & _)%TransferTx_new_Ok. split; [exact Ht|].
  match goal with Ha : tx_amount_string_deserialize _ = Some _ |- _ =>
    apply tx_amount_string_range in Ha end. simpl. lia.
Qed.

Lemma Unstake_decoded m t : UnstakeTx_deserialize m = Some t → payload_ok (Unstake t).
Proof.
  unfold UnstakeTx_deserialize. destruct (negb _); [done|]. intros Ht. bind_Some.
  pose proof Ht as (-> & _)%UnstakeTx_new_Ok. split; [exact Ht|].
  match goal with Ha : tx_amount_string_deserialize _ = Some _ |- _ =>
    apply tx_amount_string_range in Ha end. simpl. lia.
Qed.

Lemma Stake_decoded m t : StakeTx_deserialize m = Some t → payload_ok (Stake t).
Proof.
  unfold StakeTx_deserialize. intros Ht. bind_Some.
  pose proof Ht as (-> & _)%StakeTx_new_Ok. split; [exact Ht|].
  match goal with Ha : tx_amount_string_deserialize _ = Some _ |- _ =>
    apply tx_amount_string_range in Ha end. simpl. lia.
Qed.

Lemma VerifiedProof_decoded m t :
  VerifiedProofTx_deserialize m = Some t → payload_ok (VerifiedProof t).
Proof.
  unfold VerifiedProofTx_deserialize. intros Ht. bind_Some. injection Ht as <-.
  split; [|simpl; lia]. exists x10. cbn -[VerifiedProofTx_new].
  match goal with Hn : VerifiedProofTx_new _ _ _ _ _ _ _ _ _ _ = _ |- _ =>
    pose proof Hn as Hn'; unfold VerifiedProofTx_new in Hn' end.
  destruct (validate_safe_string _ _); [|done]. repeat (case_match; [done|]).
  simplify_eq. done.
Qed.

Lemma AddNamespace_decoded m t :
  AddNamespaceTx_deserialize m = Some t → payload_ok (AddNamespace t).
Proof.
  unfold AddNamespaceTx_deserialize. destruct (negb _); [done|]. intros Ht. bind_Some.
  pose proof Ht as (Hs & Hf & _)%AddNamespaceTx_new_Ok.
  match goal with Ha : tx_amount_string_deserialize _ = Some _ |- _ =>
    apply tx_amount_string_range in Ha end.
  split; [|simpl; lia]. eexists. rewrite Hs, Hf. exact Ht.
Qed.

Lemma PostMessage_decoded m t :
  PostMessageTx_deserialize m = Some t → payload_ok (PostMessage t).
Proof.
  unfold PostMessageTx_deserialize. intros Ht. bind_Some. split; [|simpl; lia].
  eexists _, _. pose proof Ht as Hn. unfold PostMessageTx_new in Hn.
  destruct (validate_post_message_content_type _); [|done].
  destruct (canonicalize_post_message_tags _); [|done].
  destruct (resolve_optional_namespace _); [|done]. injection Hn as <-. exact Ht.
Qed.

Lemma Capacity_decoded m :
  (∀ t, RegisterCapacityTx_deserialize m = Some t → payload_ok (RegisterCapacity t)) ∧
  (∀ t, UnregisterCapacityTx_deserialize m = Some t → payload_ok (UnregisterCapacity t)).
Proof.
  split; intros t Ht;
    [unfold RegisterCapacityTx_deserialize in Ht|unfold UnregisterCapacityTx_deserialize in Ht];
    bind_Some; (split; [|simpl; lia]); simpl; pose proof Ht as Hn;
    [unfold RegisterCapacityTx_new in Hn|unfold UnregisterCapacityTx_new in Hn];
    (case_match; [done|]); injection Hn as <-; exact Ht.
Qed.

Lemma Update_decoded t : payload_ok (UpdateCapacityMerkleRoot t).
Proof. split; simpl; lia. Qed.

Lemma PayloadInner_decoded m p : PayloadInner_deserialize m = Some p → payload_ok p.
Proof.
  unfold PayloadInner_deserialize. destruct (Capacity_decoded m) as [Hr Hu].
  repeat (case_match;
    [intros [= <-]; eauto using Transfer_decoded, Unstake_decoded, Stake_decoded,
       VerifiedProof_decoded, AddNamespace_decoded, PostMessage_decoded, Update_decoded|]); done.
Qed.

Lemma Tx_decoded v tx :
  Tx_deserialize v = Some tx →
  payload_ok (payload_inner (tx_payload tx)) ∧
  0 ≤ nonce_value (tx_nonce tx) ≤ u32_max ∧ 0 ≤ tx_fee tx ≤ u64_max.
Proof.
  unfold Tx_deserialize, Payload_deserialize, Nonce_deserialize, read_u32, read_u64, read_bounded.
  intros Ht. bind_Some. injection Ht as <-. repeat case_match; simplify_eq. simpl.
  repeat match goal with Hv : value_as_u64 _ = Some _ |- _ => apply value_as_u64_range in Hv end.
  eld_bool. split_and!; eauto using PayloadInner_decoded; lia.
Qed.
End decoded.
