(* ===== verification/TxTyped.v ===== *)
(** What the readers of common/src/tx guarantee: the type of a transaction
    read from JSON, and that the canonical forms of tags and namespaces are
    kept by canonicalizing them again (common/src/tx/payloads/post_message.rs,
    common/src/namespace.rs). *)
From S2P Require Import Prelude Externals Reference Coins Address Namespace Cado Records Tx Wire.

(** ** Canonical forms *)

Section canonical.
Context {H : HexCrate} {HL : HexLaws H}.

Lemma parse_hex_with_prefix (a : Address) : parse_hex_str (hex_with_prefix a) = Ok a.
Proof.
  unfold parse_hex_str, hex_with_prefix, Address_hex. rewrite decode_fixed_hex_encode by auto. by destruct a.
Qed.

Lemma canonicalize_tag_size tag c :
  canonicalize_tag tag = Ok c → (String.length c ≤ POST_MESSAGE_MAX_TAG_UTF8_BYTES)%nat.
Proof.
  unfold canonicalize_tag. destruct (_ <? String.length tag)%nat; [done|].
  destruct (_ <? _)%nat eqn:El; [done|]. intros [= <-]. by apply Nat.ltb_ge in El.
Qed.

Lemma canonicalize_tag_idem tag c : canonicalize_tag tag = Ok c → canonicalize_tag c = Ok c.
Proof.
  intros Hc. pose proof (canonicalize_tag_size _ _ Hc) as Hl. revert Hc. unfold canonicalize_tag.
  destruct (_ <? String.length tag)%nat; [done|]. destruct (_ <? _)%nat; [done|]. intros [= Hc].
  apply Nat.ltb_ge in Hl. rewrite Hl.
  assert (match parse_hex_str c with Ok addr => hex_with_prefix addr | Err _ => c end = c) as ->.
  { destruct (parse_hex_str tag) as [a|] eqn:Et.
    - subst c. by rewrite parse_hex_with_prefix.
    - subst c. by rewrite Et. }
  by rewrite Hl.
Qed.

(** The list of tags: one canonical tag per tag, at most four. *)
Lemma canonicalize_tags_Ok tags cs :
  canonicalize_post_message_tags tags = Ok cs →
  (length tags ≤ POST_MESSAGE_MAX_TAGS)%nat ∧ Forall2 (λ t c, canonicalize_tag t = Ok c) tags cs.
Proof.
  unfold canonicalize_post_message_tags. destruct (_ <? length tags)%nat eqn:El; [done|].
  apply Nat.ltb_ge in El. intros Hf. split; [done|].
  assert (∀ tags out, try_fold (λ out tag, let? normalized := canonicalize_tag tag in Ok (out ++ [normalized]))
            out tags = Ok cs →
          ∃ cs', cs = out ++ cs' ∧ Forall2 (λ t c, canonicalize_tag t = Ok c) tags cs') as Hgen.
  { clear. intros tags. induction tags as [|t tags IH]; cbn [try_fold]; intros out Hf.
    - injection Hf as <-. exists []. by rewrite app_nil_r.
    - destruct (canonicalize_tag t) as [c|] eqn:Ec; [|done].
      destruct (IH _ Hf) as (cs' & -> & Hcs). exists (c :: cs'). split; [by rewrite <- app_assoc|].
      by constructor. }
  destruct (Hgen tags [] Hf) as (cs' & -> & Hcs). exact Hcs.
Qed.

Lemma canonicalize_tags_fixed cs out :
  Forall (λ c, canonicalize_tag c = Ok c) cs →
  try_fold (λ out tag, let? normalized := canonicalize_tag tag in Ok (out ++ [normalized])) out cs
  = (Ok (out ++ cs) : eld_result (list string)).
Proof.
  intros Hc. revert out. induction Hc as [|c cs Hc _ IH]; cbn [try_fold]; intros out; [by rewrite app_nil_r|].
  rewrite Hc, IH. by rewrite <- app_assoc.
Qed.

Lemma canonicalize_tags_canonical tags cs :
  canonicalize_post_message_tags tags = Ok cs →
  (length cs ≤ POST_MESSAGE_MAX_TAGS)%nat ∧
  Forall (λ c, (String.length c ≤ POST_MESSAGE_MAX_TAG_UTF8_BYTES)%nat ∧ canonicalize_tag c = Ok c) cs ∧
  canonicalize_post_message_tags cs = Ok cs.
Proof.
  intros [Hl Hf]%canonicalize_tags_Ok. pose proof (Forall2_length Hf) as Hlen.
  assert (Forall (λ c, (String.length c ≤ POST_MESSAGE_MAX_TAG_UTF8_BYTES)%nat ∧ canonicalize_tag c = Ok c) cs) as Hcs.
  { clear Hlen Hl. induction Hf as [|t c tags cs Hc _ IH]; constructor; [|done].
    split; [by eapply canonicalize_tag_size|by eapply canonicalize_tag_idem]. }
  split_and!; [lia|done|].
  unfold canonicalize_post_message_tags. rewrite (proj2 (Nat.ltb_ge _ _)) by lia.
  apply canonicalize_tags_fixed. eapply list.Forall_impl; [exact Hcs|]. by intros c [_ ?].
Qed.
End canonical.

Lemma lowercase_all_slug s :
  string_all is_ascii_lowercase s = true → string_all is_slug_char s = true.
Proof. apply string_all_impl, lowercase_is_slug_char. Qed.

(** A namespace that was resolved is of small letters, and resolves to itself. *)
Lemma resolve_namespace_canonical input ns :
  resolve_optional_namespace input = Ok (Some ns) →
  (SLUG_MIN_LEN ≤ String.length ns ≤ SLUG_MAX_LEN)%nat ∧ string_all is_ascii_lowercase ns = true.
Proof.
  destruct input as [s|]; [|done]. cbn [resolve_optional_namespace].
  destruct (String.eqb _ _); [done|].
  destruct (validate_content_upload_namespace_slug _) as [|] eqn:Ev; [|done]. intros [= <-].
  unfold validate_content_upload_namespace_slug in Ev.
  destruct (_ || _)%bool eqn:El; [done|]. apply orb_false_iff in El as [E1%Nat.ltb_ge E2%Nat.ltb_ge].
  destruct (string_all is_ascii_lowercase _) eqn:Ea; [|done]. done.
Qed.

Lemma resolve_namespace_idem input r :
  resolve_optional_namespace input = Ok r → resolve_optional_namespace r = Ok r.
Proof.
  destruct r as [ns|]; [|done]. intros Hr.
  destruct (resolve_namespace_canonical _ _ Hr) as [Hl Ha]. cbn [resolve_optional_namespace].
  unfold normalize_content_upload_namespace, validate_content_upload_namespace_slug.
  rewrite (trim_slug ns) by by apply lowercase_all_slug.
  rewrite (to_ascii_lowercase_slug ns) by by apply lowercase_all_slug.
  destruct (String.eqb_spec ns EmptyString) as [->|_]; [cbn in Hl; unfold SLUG_MIN_LEN in Hl; lia|].
  rewrite (proj2 (Nat.ltb_ge _ _)), (proj2 (Nat.ltb_ge _ _)) by lia. by rewrite Ha.
Qed.

(** ** The type of a transaction *)

Section typed.
Context {H : HexCrate} {E : Ed25519}.

Definition coin_amount_ok (a : Z) : Prop := 0 < a ≤ MAX_COIN.
Definition u64_ok (z : Z) : Prop := 0 ≤ z ≤ u64_max.

Definition verified_proof_typed (t : VerifiedProofTx) : Prop :=
  validate_safe_string (vp_challenge_id t) 100 = Ok tt ∧
  0 < vp_block_height t ≤ vp_verified_at_block t ∧ vp_verified_at_block t ≤ i64_max ∧
  timestamp_ok (vp_verified_at_timestamp t) = true ∧ timestamp_ok (vp_generated_at t) = true ∧
  vp_proofs t ≠ [] ∧ Forall (λ p, u64_ok (chunk_index p)) (vp_proofs t) ∧
  vp_provider_pubkey t ≠ EmptyString ∧ vp_provider_signature t ≠ EmptyString.

Definition post_message_typed (t : PostMessageTx) : Prop :=
  trim (post_content_type t) ∈ POST_MESSAGE_ALLOWED_CONTENT_TYPES ∧
  (length (post_tags t) ≤ POST_MESSAGE_MAX_TAGS)%nat ∧
  Forall (λ c, (String.length c ≤ POST_MESSAGE_MAX_TAG_UTF8_BYTES)%nat ∧ canonicalize_tag c = Ok c)
    (post_tags t) ∧
  (∀ ns, post_namespace t = Some ns →
    (SLUG_MIN_LEN ≤ String.length ns ≤ SLUG_MAX_LEN)%nat ∧ string_all is_ascii_lowercase ns = true) ∧
  u64_ok (post_expires_height t) ∧ 0 ≤ post_fee_amount t ≤ u128_max ∧ u64_ok (post_received_timestamp t).

Definition payload_typed (p : PayloadInner) : Prop :=
  match p with
  | Transfer t => transfer_sender t ≠ transfer_recipient t ∧ coin_amount_ok (transfer_amount t)
  | Unstake t => coin_amount_ok (unstake_amount t)
  | Stake t =>
      coin_amount_ok (stake_amount t) ∧
      ∀ k, stake_public_key t = Some k →
        String.length k = 64%nat ∧ string_all is_ascii_hexdigit k = true
  | VerifiedProof t => verified_proof_typed t
  | RegisterCapacity t =>
      0 < register_capacity_bytes t ≤ u64_max ∧ 0 ≤ register_chunk_count t ≤ u32_max
  | UnregisterCapacity t => unregister_flag t = true
  | UpdateCapacityMerkleRoot t => True
  | PostMessage t => post_message_typed t
  | AddNamespace t =>
      coin_amount_ok (addns_registration_fee t) ∧
      normalize_namespace_slug (addns_slug t) = Ok (addns_slug t) ∧
      is_reserved_namespace_slug (addns_slug t) = false
  end.

Record tx_typed (tx : Tx) : Prop := {
  tt_sig : tx_sig tx = TxSig_empty ∨ is_Some (ok (TxSig_to_signature (tx_sig tx)));
  tt_key : is_Some (ok (TxPublicKey_to_verifying_key (tx_public_key tx)));
  tt_nonce : 0 ≤ nonce_value (tx_nonce tx) ≤ u32_max;
  tt_fee : u64_ok (tx_fee tx);
  tt_payload : payload_typed (payload_inner (tx_payload tx));
}.

Lemma read_bounded_range max v z : read_bounded max v = Some z → 0 ≤ z ≤ max.
Proof.
  unfold read_bounded. intros Hz. bind_Some. apply value_as_u64_range in Hx.
  destruct (x <=? max) eqn:El; [|done]. injection Hz as <-. eld_bool. lia.
Qed.

Lemma value_as_i64_upper v z : value_as_i64 v = Some z → z ≤ i64_max.
Proof.
  unfold value_as_i64, number_as_i64. destruct v as [| |n| | |]; try done.
  destruct n as [n|n|]; try done; repeat case_match; intros; simplify_eq; eld_bool;
    unfold i64_max in *; try lia.
Qed.

Lemma ChunkProof_index v p : ChunkProof_deserialize v = Some p → u64_ok (chunk_index p).
Proof.
  unfold ChunkProof_deserialize. repeat case_match; try done; intros Hp; bind_Some; injection Hp as <-;
    cbn [chunk_index]; by eapply value_as_u64_range.
Qed.

Lemma mapM_Forall {A B} (f : A → option B) (P : B → Prop) l k :
  (∀ a b, f a = Some b → P b) → mapM f l = Some k → Forall P k.
Proof.
  intros Hf. revert k. induction l as [|a l IH]; intros k Hk; cbn in Hk.
  - injection Hk as <-. constructor.
  - bind_Some. injection Hk as <-. constructor; eauto.
Qed.

Lemma verified_proof_new_typed sender provider id h vb vt proofs g pk sig failed t :
  VerifiedProofTx_new sender provider id h vb vt proofs g pk sig = Ok t →
  vb ≤ i64_max → Forall (λ p, u64_ok (chunk_index p)) proofs →
  verified_proof_typed (mkVerifiedProofTx (vp_sender t) (vp_capacity_provider t) (vp_challenge_id t)
    (vp_block_height t) (vp_verified_at_block t) (vp_verified_at_timestamp t) (vp_proofs t)
    (vp_generated_at t) (vp_provider_pubkey t) (vp_provider_signature t) failed).
Proof.
  unfold VerifiedProofTx_new. destruct (validate_safe_string id 100) as [[]|] eqn:Es; [|done].
  destruct (h <=? 0) eqn:E1; [done|]. destruct (vb <=? 0) eqn:E2; [done|].
  destruct (vb <? h) eqn:E3; [done|]. destruct (timestamp_ok vt) eqn:E4; [|done].
  case_bool_decide as E5; [done|]. destruct (timestamp_ok g) eqn:E6; [|done].
  destruct (String.eqb_spec pk EmptyString) as [|E7]; [done|].
  destruct (String.eqb_spec sig EmptyString) as [|E8]; [done|]. intros [= <-] Hb Hp.
  eld_bool. unfold verified_proof_typed; cbn -[validate_safe_string timestamp_ok].
  split_and!; try done; try lia. by intros ->.
Qed.

Lemma content_type_allowed ct :
  validate_post_message_content_type ct = Ok tt → trim ct ∈ POST_MESSAGE_ALLOWED_CONTENT_TYPES.
Proof.
  unfold validate_post_message_content_type. destruct (String.eqb _ _); [done|].
  destruct (str_in _ _) eqn:Ei; [|done]. intros _.
  unfold str_in in Ei. apply existsb_exists in Ei as (x & Hx & He). apply String.eqb_eq in He as ->.
  by apply list_elem_of_In.
Qed.

Lemma PostMessage_new_typed {HL : HexLaws H} s o pk ck mid eh vis topic tags ct fee ts sig ns t :
  PostMessageTx_new s o pk ck mid eh vis topic tags ct fee ts sig ns = Ok t →
  u64_ok eh → 0 ≤ fee ≤ u128_max → u64_ok ts → post_message_typed t.
Proof.
  unfold PostMessageTx_new. destruct (validate_post_message_content_type ct) as [[]|] eqn:Ec; [|done].
  destruct (canonicalize_post_message_tags tags) as [cs|] eqn:Et; [|done].
  destruct (resolve_optional_namespace ns) as [r|] eqn:Er; [|done]. intros [= <-] He Hf Hts.
  destruct (canonicalize_tags_canonical _ _ Et) as (Hl & Hcs & _).
  unfold post_message_typed; cbn [post_content_type post_tags post_namespace post_expires_height
    post_fee_amount post_received_timestamp].
  split_and!; try done;
    first [by apply content_type_allowed | intros n ->; by eapply resolve_namespace_canonical
          | unfold u64_ok in *; lia].
Qed.

Ltac amount_range :=
  repeat match goal with
  | Ha : tx_amount_string_deserialize _ = Some _ |- _ => apply tx_amount_string_range in Ha
  | Ha : read_u64 _ = Some _ |- _ => apply value_as_u64_range in Ha
  | Ha : read_u32 _ = Some _ |- _ => apply read_bounded_range in Ha
  | Ha : read_i64 _ = Some _ |- _ => apply value_as_i64_upper in Ha
  end.

Lemma payload_read_typed {HL : HexLaws H} m p : PayloadInner_deserialize m = Some p → payload_typed p.
Proof.
  unfold PayloadInner_deserialize.
  destruct (TransferTx_deserialize m) as [t|] eqn:E1.
  { intros [= <-]. unfold TransferTx_deserialize in E1. bind_Some. amount_range.
    apply TransferTx_new_Ok in E1 as (-> & Hn & Ha & Hm). unfold payload_typed, coin_amount_ok; cbn. split; [done|lia]. }
  destruct (UnstakeTx_deserialize m) as [t|] eqn:E2.
  { intros [= <-]. unfold UnstakeTx_deserialize in E2. destruct (negb _); [done|]. bind_Some. amount_range.
    apply UnstakeTx_new_Ok in E2 as (-> & Ha & Hm). unfold payload_typed, coin_amount_ok; cbn. lia. }
  destruct (StakeTx_deserialize m) as [t|] eqn:E3.
  { intros [= <-]. unfold StakeTx_deserialize in E3. bind_Some. amount_range.
    apply StakeTx_new_Ok in E3 as (-> & Ha & Hm & Hk). unfold payload_typed, coin_amount_ok; cbn. split; [lia|done]. }
  destruct (VerifiedProofTx_deserialize m) as [t|] eqn:E4.
  { intros [= <-]. unfold VerifiedProofTx_deserialize in E4. bind_Some. injection E4 as <-.
    eapply verified_proof_new_typed; [done|amount_range; done|].
    eapply (mapM_Forall ChunkProof_deserialize); [apply ChunkProof_index|done]. }
  destruct (RegisterCapacityTx_deserialize m) as [t|] eqn:E5.
  { intros [= <-]. unfold RegisterCapacityTx_deserialize, RegisterCapacityTx_new in E5. bind_Some. amount_range.
    destruct (_ =? 0) eqn:E0; [done|]. injection E5 as <-. eld_bool. cbn. lia. }
  destruct (UnregisterCapacityTx_deserialize m) as [t|] eqn:E6.
  { intros [= <-]. unfold UnregisterCapacityTx_deserialize, UnregisterCapacityTx_new in E6. bind_Some.
    destruct (negb _) eqn:En; [done|]. injection E6 as <-. by apply negb_false_iff in En. }
  destruct (UpdateCapacityMerkleRootTx_deserialize m); [by intros [= <-]|].
  destruct (PostMessageTx_deserialize m) as [t|] eqn:E8.
  { intros [= <-]. unfold PostMessageTx_deserialize in E8. bind_Some. amount_range.
    by eapply PostMessage_new_typed. }
  destruct (AddNamespaceTx_deserialize m) as [t|] eqn:E9; [|done].
  intros [= <-]. unfold AddNamespaceTx_deserialize in E9. destruct (negb _); [done|]. bind_Some. amount_range.
  apply AddNamespaceTx_new_Ok in E9 as (_ & Hf & Hn & Hm & Hs & Hr).
  unfold payload_typed, coin_amount_ok. split_and!; [lia|lia| |done].
  apply normalize_canonical. by destruct (normalize_Ok _ _ Hs).
Qed.

Lemma TxPublicKey_new_key s k :
  TxPublicKey_new s = Ok k → is_Some (ok (TxPublicKey_to_verifying_key k)).
Proof.
  unfold TxPublicKey_new. destruct (TxPublicKey_to_verifying_key s) as [a|] eqn:Ek; [|done].
  intros [= <-]. by rewrite Ek.
Qed.

Lemma TxSig_new_sig s k : TxSig_new s = Ok k → is_Some (ok (TxSig_to_signature k)).
Proof.
  unfold TxSig_new. destruct (TxSig_to_signature s) as [a|] eqn:Ek; [|done].
  intros [= <-]. by rewrite Ek.
Qed.

(** C30. Every transaction read from JSON has the type the rest of the system
    relies on: its signature is absent or 64 bytes of hex, its key a valid
    Ed25519 key, its nonce and fee in range, and its payload satisfies what its
    kind promises - amounts positive and within the supply cap, distinct
    transfer parties, heights, indices and timestamps in range, canonical tags,
    namespaces and slugs, allowed content types. *)
Theorem decoded_tx_typed {HL : HexLaws H} (v : Value) (tx : Tx) :
  Tx_deserialize v = Some tx → tx_typed tx.
Proof.
  unfold Tx_deserialize, Payload_deserialize, Nonce_deserialize, TxSig_deserialize, TxPublicKey_deserialize.
  intros Ht. bind_Some. injection Ht as <-. repeat case_match; simplify_eq; bind_Some; amount_range.
  all: split; cbn [tx_sig tx_public_key tx_nonce nonce_value tx_fee tx_payload payload_inner];
    eauto using TxPublicKey_new_key, TxSig_new_sig, payload_read_typed.
Qed.
End typed.

(** ** Witness *)

Definition test_transfer_json : Value :=
  JObject [("sig", JString ""); ("nonce", JNumber (PosInt 3));
    ("payload", JObject [("type", JString "Transfer");
       ("sender", JString (hex_with_prefix (H := ref_hex) test_sender));
       ("recipient", JString (hex_with_prefix (H := ref_hex) test_recipient));
       ("amount", JString "250")]);
    ("public_key", JString (ref_hex_encode test_key)); ("fee", JNumber (PosInt 21))].

Lemma decoded_tx_typed_witness :
  ∃ tx, Tx_deserialize (H := ref_hex) (E := ref_ed25519) test_transfer_json = Some tx ∧
    payload_inner (tx_payload tx) = Transfer (mkTransferTx test_sender test_recipient 250) ∧
    payload_typed (payload_inner (tx_payload tx)).
Proof.
  destruct (Tx_deserialize (H := ref_hex) (E := ref_ed25519) test_transfer_json) as [tx|] eqn:Et;
    [|vm_compute in Et; discriminate].
  pose proof (decoded_tx_typed (H := ref_hex) (E := ref_ed25519) test_transfer_json tx Et) as Hty.
  exists tx. split; [reflexivity|]. split; [|apply Hty].
  vm_compute in Et. injection Et as <-. reflexivity.
Defined.
