(* ===== verification/UserPost.v ===== *)
(** Signed pinboard posts: the user's request of
    common/src/tx/payloads/post_message.rs and the transaction the validator
    builds of it in common/src/tx/envelope.rs.

    The error texts of these functions are dropped: a failure is [None]. *)
From S2P Require Import Prelude Externals Reference Coins Address Namespace Cado Records Tx Wire TxTyped.

(** ** The request *)

Record PostMessageUserRequest : Type := mkUserRequest {
  ur_original_signer : string;
  ur_original_signer_pubkey : string;
  ur_content_key : string;
  ur_message_id : string;
  ur_expires_height : Z;
  ur_visibility : string;
  ur_topic : option string;
  ur_tags : list string;
  ur_content_type : string;
  ur_fee_amount : Z;
  ur_user_signature : string;
  ur_namespace : option string;
}.

Record PostMessageUserRequestInput : Type := mkUserRequestInput {
  ui_expires_height : Z;
  ui_visibility : string;
  ui_topic : option string;
  ui_tags : list string;
  ui_content_type : string;
  ui_fee_amount : Z;
  ui_namespace : option string;
}.

Record PostMessageUserSigningPayload : Type := mkSigningPayload {
  sp_original_signer : string;
  sp_original_signer_pubkey : string;
  sp_content_key : string;
  sp_expires_height : Z;
  sp_visibility : string;
  sp_topic : option string;
  sp_tags : list string;
  sp_content_type : string;
  sp_fee_amount : Z;
  sp_namespace : option string;
}.

(** [serde_json::to_vec] of the signing payload. *)
Class SigningJson : Type := {
  signing_payload_to_vec : PostMessageUserSigningPayload → option bytes;
}.

(** The text of a JSON object ends where its last bracket closes, so what
    follows it can be told apart, and distinct payloads have distinct texts. *)
Class SigningJsonLaws (S : SigningJson) : Prop := {
  signing_payload_delimited p q b c m n :
    signing_payload_to_vec p = Some b → signing_payload_to_vec q = Some c →
    b ++ m = c ++ n → p = q ∧ m = n;
}.

Section user_post.
Context {H : HexCrate} {HC : HashCrates} {E : Ed25519} {J : TxJson} {S : SigningJson}.

Definition post_message_user_signing_bytes_with_tags (message_bytes : bytes)
    (request : PostMessageUserRequest) (tags : list string) : option bytes :=
  canonical_payload ← signing_payload_to_vec
    (mkSigningPayload (ur_original_signer request) (ur_original_signer_pubkey request)
       (ur_content_key request) (ur_expires_height request) (ur_visibility request)
       (ur_topic request) tags (ur_content_type request) (ur_fee_amount request)
       (ur_namespace request));
  Some (canonical_payload ++ message_bytes).

Definition calculate_message_content_key (message_bytes : bytes) : string :=
  hex_encode (sha256 message_bytes).

Definition post_message_id_from_signing_bytes (signing_bytes : bytes) : string :=
  hex_encode (sha256 signing_bytes).

(** [Address::verify_derives_from_pubkey_hex] *)
Definition verify_derives_from_pubkey_hex (a : Address) (pubkey_hex : string) : eld_result unit :=
  let? public_key_bytes := ok_or (hex_decode pubkey_hex) (ValidationError "public_key") in
  let? public_key := ok_or (try_array 32 public_key_bytes) (ValidationError "public_key") in
  if is_from_public_key a public_key then Ok tt else Err (ValidationError "address").

Definition validate_post_message_user_signature (message_bytes : bytes)
    (request : PostMessageUserRequest) : option unit :=
  _ ← ok (validate_post_message_content_type (ur_content_type request));
  _ ← ok (resolve_optional_namespace (ur_namespace request));
  if negb (String.eqb (calculate_message_content_key message_bytes) (ur_content_key request)) then None
  else
    pubkey_bytes ← hex_decode (ur_original_signer_pubkey request);
    verifying_key ← try_array 32 pubkey_bytes;
    if negb (verifying_key_ok verifying_key) then None
    else
      signer ← ok (parse_hex_str (ur_original_signer request));
      _ ← ok (verify_derives_from_pubkey_hex signer (ur_original_signer_pubkey request));
      tags ← ok (canonicalize_post_message_tags (ur_tags request));
      signing_bytes ← post_message_user_signing_bytes_with_tags message_bytes request tags;
      if negb (String.eqb (post_message_id_from_signing_bytes signing_bytes) (ur_message_id request))
      then None
      else
        signature_bytes ← hex_decode (ur_user_signature request);
        signature ← try_array 64 signature_bytes;
        if ed_verify verifying_key signing_bytes signature then Some tt else None.

Definition build_signed_post_message_user_request (sk : signing_key) (message_bytes : bytes)
    (input : PostMessageUserRequestInput) : option PostMessageUserRequest :=
  _ ← ok (validate_post_message_content_type (ui_content_type input));
  tags ← ok (canonicalize_post_message_tags (ui_tags input));
  namespace ← ok (resolve_optional_namespace (ui_namespace input));
  let verifying_key := verifying_key_of sk in
  original_signer ← ok (from_public_key verifying_key);
  let request message_id user_signature :=
    mkUserRequest (hex_with_prefix original_signer) (hex_encode verifying_key)
      (calculate_message_content_key message_bytes) message_id (ui_expires_height input)
      (ui_visibility input) (ui_topic input) tags (ui_content_type input) (ui_fee_amount input)
      user_signature namespace in
  signing_bytes ← post_message_user_signing_bytes_with_tags message_bytes
                    (request EmptyString EmptyString) tags;
  Some (request (post_message_id_from_signing_bytes signing_bytes)
          (hex_encode (ed_sign sk signing_bytes))).

(** ** The validator's transaction *)

Definition post_message_of (sender original_signer : Address) (user_request : PostMessageUserRequest)
    (received_timestamp : Z) : eld_result PostMessageTx :=
  PostMessageTx_new sender original_signer (ur_original_signer_pubkey user_request)
    (ur_content_key user_request) (ur_message_id user_request) (ur_expires_height user_request)
    (ur_visibility user_request) (ur_topic user_request) (ur_tags user_request)
    (ur_content_type user_request) (ur_fee_amount user_request) received_timestamp
    (ur_user_signature user_request) (ur_namespace user_request).

Definition validate_message_and_build_post_message_tx (message_bytes : bytes)
    (user_request : PostMessageUserRequest) (validator_signing_key : signing_key)
    (validator_tx_nonce : Z) (received_timestamp : Z) (chain_id : string) (fee : Z) : option Tx :=
  _ ← validate_post_message_user_signature message_bytes user_request;
  let validator_pubkey := verifying_key_of validator_signing_key in
  sender ← ok (from_public_key validator_pubkey);
  original_signer ← ok (parse_hex_str (ur_original_signer user_request));
  post_message ← ok (post_message_of sender original_signer user_request received_timestamp);
  let tx := Tx_new (mkNonce validator_tx_nonce) (Payload_new (PostMessage post_message))
              (hex_encode validator_pubkey) in
  ok (Tx_sign (mkTx (tx_sig tx) (tx_nonce tx) (tx_payload tx) (tx_public_key tx) fee)
        validator_signing_key chain_id).
End user_post.

(** ** What the checks establish *)

Section user_post_facts.
Context {H : HexCrate} {HL : HexLaws H} {HC : HashCrates} {E : Ed25519} {EL : Ed25519Laws E}
  {J : TxJson} {S : SigningJson}.

(** The message and the request fields a signature stands for. *)
Definition commitment (r : PostMessageUserRequest) (tags : list string) : PostMessageUserSigningPayload :=
  mkSigningPayload (ur_original_signer r) (ur_original_signer_pubkey r) (ur_content_key r)
    (ur_expires_height r) (ur_visibility r) (ur_topic r) tags (ur_content_type r) (ur_fee_amount r)
    (ur_namespace r).

(** A request whose key, ids and signature belong together. *)
Record request_authentic (m : bytes) (r : PostMessageUserRequest) (signer : Address)
    (tags : list string) (signed : bytes) : Prop := {
  ra_signer : parse_hex_str (ur_original_signer r) = Ok signer;
  ra_tags : canonicalize_post_message_tags (ur_tags r) = Ok tags;
  ra_content_type : validate_post_message_content_type (ur_content_type r) = Ok tt;
  ra_namespace : is_Some (ok (resolve_optional_namespace (ur_namespace r)));
  ra_content_key : ur_content_key r = hex_encode (sha256 m);
  ra_signed : ∃ b, signing_payload_to_vec (commitment r tags) = Some b ∧ signed = b ++ m;
  ra_message_id : ur_message_id r = hex_encode (sha256 signed);
  ra_signature : ∃ pk sig, hex_decode (ur_original_signer_pubkey r) = Some (vec_to_list pk) ∧
    hex_decode (ur_user_signature r) = Some (vec_to_list sig) ∧ verifying_key_ok pk = true ∧
    is_from_public_key signer pk = true ∧ ed_verify pk signed sig = true;
}.

Lemma signing_bytes_commitment m r tags :
  post_message_user_signing_bytes_with_tags m r tags =
  (b ← signing_payload_to_vec (commitment r tags); Some (b ++ m)).
Proof. done. Qed.

Lemma try_array_eq n l (v : byte_array n) : try_array n l = Some v → l = vec_to_list v.
Proof. intros Hv. by apply try_array_Some in Hv. Qed.

Lemma validate_sound m r :
  validate_post_message_user_signature m r = Some tt →
  ∃ signer tags signed, request_authentic m r signer tags signed.
Proof.
  unfold validate_post_message_user_signature, verify_derives_from_pubkey_hex. intros Hv.
  apply bind_Some in Hv as ([] & Hct%ok_Some & Hv).
  apply bind_Some in Hv as (ns & Hns & Hv).
  destruct (String.eqb_spec (calculate_message_content_key m) (ur_content_key r)) as [Hck|]; [|done].
  cbn [negb] in Hv.
  apply bind_Some in Hv as (pkb & Hpk & Hv). apply bind_Some in Hv as (pk & Hpk'%try_array_eq & Hv).
  subst pkb. destruct (verifying_key_ok pk) eqn:Hok; [|done]. cbn [negb] in Hv.
  apply bind_Some in Hv as (signer & Hs%ok_Some & Hv). apply bind_Some in Hv as ([] & Hd & Hv).
  rewrite Hpk in Hd. cbn [ok_or] in Hd. rewrite try_array_to_list in Hd. cbn [ok_or] in Hd.
  destruct (is_from_public_key signer pk) eqn:Hfrom; [|done].
  apply bind_Some in Hv as (tags & Ht%ok_Some & Hv).
  rewrite signing_bytes_commitment in Hv.
  apply bind_Some in Hv as (signed & Hsb & Hv).
  destruct (String.eqb_spec (post_message_id_from_signing_bytes signed) (ur_message_id r)) as [Hid|]; [|done].
  cbn [negb] in Hv.
  apply bind_Some in Hv as (sb & Hsig & Hv). apply bind_Some in Hv as (sig & Hsig'%try_array_eq & Hv).
  subst sb. destruct (ed_verify pk signed sig) eqn:Hev; [|done].
  apply bind_Some in Hsb as (b & Hb & [= <-]).
  exists signer, tags, (b ++ m). split; try done.
  - by exists b.
  - exists pk, sig. done.
Qed.

#[local] Ltac step := cbn [mbind option_bind ok ok_or negb].

Lemma validate_complete m r signer tags signed :
  request_authentic m r signer tags signed → validate_post_message_user_signature m r = Some tt.
Proof.
  intros [Hs Ht Hct [ns Hns] Hck (b & Hb & ->) Hid (pk & sig & Hpk & Hsig & Hok & Hfrom & Hev)].
  unfold validate_post_message_user_signature, verify_derives_from_pubkey_hex.
  rewrite Hct, Hns; step. unfold calculate_message_content_key. rewrite Hck, String.eqb_refl; step.
  rewrite Hpk; step. rewrite try_array_to_list; step. rewrite Hok; step. rewrite Hs; step.
  rewrite Hfrom; step. rewrite Ht; step. rewrite signing_bytes_commitment, Hb; step.
  unfold post_message_id_from_signing_bytes. rewrite Hid, String.eqb_refl; step.
  rewrite Hsig; step. rewrite try_array_to_list; step. by rewrite Hev.
Qed.

Lemma built_request_authentic sk m input r :
  build_signed_post_message_user_request sk m input = Some r →
  ∃ signer tags signed,
    request_authentic m r signer tags signed ∧ from_public_key (verifying_key_of sk) = Ok signer ∧
    canonicalize_post_message_tags (ui_tags input) = Ok tags ∧
    r = mkUserRequest (hex_with_prefix signer) (hex_encode (verifying_key_of sk))
          (hex_encode (sha256 m)) (hex_encode (sha256 signed)) (ui_expires_height input)
          (ui_visibility input) (ui_topic input) tags (ui_content_type input) (ui_fee_amount input)
          (hex_encode (ed_sign sk signed)) (ur_namespace r) ∧
    resolve_optional_namespace (ui_namespace input) = Ok (ur_namespace r).
Proof.
  unfold build_signed_post_message_user_request. intros Hb.
  apply bind_Some in Hb as ([] & Hct%ok_Some & Hb). apply bind_Some in Hb as (tags & Ht%ok_Some & Hb).
  apply bind_Some in Hb as (ns & Hns%ok_Some & Hb). apply bind_Some in Hb as (signer & Hs%ok_Some & Hb).
  cbv zeta in Hb. apply bind_Some in Hb as (signed & Hsb & [= <-]).
  rewrite signing_bytes_commitment in Hsb. apply bind_Some in Hsb as (b & Hsb & [= <-]).
  exists signer, tags, (b ++ m). split_and!; try done.
  split; cbn [ur_original_signer ur_original_signer_pubkey ur_content_key ur_message_id ur_expires_height
    ur_visibility ur_topic ur_tags ur_content_type ur_fee_amount ur_user_signature ur_namespace]; try done.
  - apply parse_hex_with_prefix.
  - by apply canonicalize_tags_canonical in Ht as (_ & _ & ?).
  - apply resolve_namespace_idem in Hns. by rewrite Hns.
  - by exists b.
  - exists (verifying_key_of sk), (ed_sign sk (b ++ m)). rewrite !hex_decode_encode.
    split_and!; try done; [apply verifying_key_of_ok|by apply from_public_key_is_from|apply ed_verify_sign].
Qed.

Lemma post_message_of_Ok {sender signer r now t} :
  post_message_of sender signer r now = Ok t →
  post_sender t = sender ∧ post_original_signer t = signer ∧ post_content_key t = ur_content_key r ∧
  post_message_id t = ur_message_id r ∧ post_user_signature t = ur_user_signature r ∧
  post_original_signer_pubkey t = ur_original_signer_pubkey r ∧ post_received_timestamp t = now ∧
  canonicalize_post_message_tags (ur_tags r) = Ok (post_tags t) ∧
  resolve_optional_namespace (ur_namespace r) = Ok (post_namespace t) ∧
  post_expires_height t = ur_expires_height r ∧ post_visibility t = ur_visibility r ∧
  post_topic t = ur_topic r ∧ post_content_type t = ur_content_type r ∧
  post_fee_amount t = ur_fee_amount r.
Proof.
  unfold post_message_of, PostMessageTx_new. destruct (validate_post_message_content_type _); [|done].
  destruct (canonicalize_post_message_tags _); [|done]. destruct (resolve_optional_namespace _); [|done].
  by intros [= <-].
Qed.

Lemma post_message_of_total m r signer tags signed sender now :
  request_authentic m r signer tags signed → ∃ t, post_message_of sender signer r now = Ok t.
Proof.
  intros Ha. unfold post_message_of, PostMessageTx_new.
  rewrite (ra_content_type _ _ _ _ _ Ha), (ra_tags _ _ _ _ _ Ha).
  destruct (ra_namespace _ _ _ _ _ Ha) as [ns Hns%ok_Some]. rewrite Hns. eauto.
Qed.

Lemma build_post_tx_Some m r sk n now chain fee tx :
  validate_message_and_build_post_message_tx m r sk n now chain fee = Some tx →
  ∃ v signer tags signed t,
    request_authentic m r signer tags signed ∧ from_public_key (verifying_key_of sk) = Ok v ∧
    post_message_of v signer r now = Ok t ∧
    payload_inner (tx_payload tx) = PostMessage t ∧ tx_nonce tx = mkNonce n ∧ tx_fee tx = fee ∧
    Tx_verify tx chain = Ok true.
Proof.
  unfold validate_message_and_build_post_message_tx. intros Hb.
  apply bind_Some in Hb as ([] & Hv & Hb). apply validate_sound in Hv as (signer & tags & signed & Ha).
  cbv zeta in Hb. apply bind_Some in Hb as (v & Hs%ok_Some & Hb).
  rewrite (ra_signer _ _ _ _ _ Ha) in Hb. cbn [ok mbind option_bind] in Hb.
  apply bind_Some in Hb as (t & Ht%ok_Some & Hb). apply ok_Some in Hb.
  assert (payload_inner (tx_payload tx) = PostMessage t ∧ tx_nonce tx = mkNonce n ∧ tx_fee tx = fee) as (Hp & Hn & Hf).
  { unfold Tx_sign in Hb. destruct (signing_bytes _ _); [|done]. cbn [ok_or] in Hb. by injection Hb as <-. }
  exists v, signer, tags, signed, t. split_and!; try done.
  rewrite (sign_then_verify _ tx sk chain v Hb eq_refl Hs).
  cbn [tx_payload Tx_new payload_inner Payload_new sender].
  rewrite bool_decide_true; [done|]. by destruct (post_message_of_Ok Ht) as (-> & _).
Qed.

Lemma from_public_key_total (pk : byte_array 32) : ∃ a, from_public_key pk = Ok a.
Proof.
  unfold from_public_key, from_slice.
  assert (length (take 20 (sha256 pk)) = 20%nat) as Hl by by rewrite length_take, length_vec_to_list.
  destruct (try_array_length 20 _ Hl) as [a Ha]. repeat case_match; simplify_eq; eauto.
Qed.

Lemma build_post_tx_total m r sk n now chain fee signer tags signed :
  request_authentic m r signer tags signed → (∀ tx, is_Some (signing_bytes tx chain)) →
  is_Some (validate_message_and_build_post_message_tx m r sk n now chain fee).
Proof.
  intros Ha Hj. unfold validate_message_and_build_post_message_tx.
  rewrite (validate_complete _ _ _ _ _ Ha); step.
  destruct (from_public_key_total (verifying_key_of sk)) as [v Hv]. rewrite Hv; step.
  rewrite (ra_signer _ _ _ _ _ Ha); step.
  destruct (post_message_of_total _ _ _ _ _ v now Ha) as [t Ht]. rewrite Ht; step.
  unfold Tx_sign. destruct (Hj (mkTx (tx_sig (Tx_new (mkNonce n) (Payload_new (PostMessage t))
    (hex_encode (verifying_key_of sk)))) (mkNonce n) (Payload_new (PostMessage t))
    (hex_encode (verifying_key_of sk)) fee)) as [b Hb].
  cbn [tx_nonce tx_payload tx_public_key Tx_new]. rewrite Hb; step. eauto.
Qed.

(** A request a user signs is accepted, and every validator builds of it a
    transaction that verifies as its own: it is sent by the validator's
    address, names the address of the user's key as original signer, and
    carries the digest of the message, the user's signature, canonical tags and
    the commitment's digest as message id. *)
Theorem signed_request_becomes_post (sk vk : signing_key) (m : bytes) (input : PostMessageUserRequestInput)
    (r : PostMessageUserRequest) (n now fee : Z) (chain : string) :
  build_signed_post_message_user_request sk m input = Some r →
  (∀ tx, is_Some (signing_bytes tx chain)) →
  validate_post_message_user_signature m r = Some tt ∧
  ∃ tx t signed, validate_message_and_build_post_message_tx m r vk n now chain fee = Some tx ∧
    Tx_verify tx chain = Ok true ∧ payload_inner (tx_payload tx) = PostMessage t ∧
    tx_nonce tx = mkNonce n ∧ tx_fee tx = fee ∧
    from_public_key (verifying_key_of vk) = Ok (post_sender t) ∧
    from_public_key (verifying_key_of sk) = Ok (post_original_signer t) ∧
    post_content_key t = hex_encode (sha256 m) ∧ post_message_id t = hex_encode (sha256 signed) ∧
    post_user_signature t = hex_encode (ed_sign sk signed) ∧
    canonicalize_post_message_tags (ui_tags input) = Ok (post_tags t).
Proof.
  intros Hb Hj. destruct (built_request_authentic _ _ _ _ Hb) as (signer & tags & signed & Ha & Hs & Ht & Hr & Hns).
  split; [by eapply validate_complete|].
  destruct (build_post_tx_total m r vk n now chain fee signer tags signed Ha Hj) as [tx Htx].
  destruct (build_post_tx_Some _ _ _ _ _ _ _ _ Htx) as (v & signer' & tags' & signed' & t & Ha' & Hv & Hp & Hi & Hn & Hf & Hver).
  assert (signer' = signer) as ->.
  { pose proof (ra_signer _ _ _ _ _ Ha) as E1. rewrite (ra_signer _ _ _ _ _ Ha') in E1. by injection E1. }
  destruct (post_message_of_Ok Hp) as (E1 & E2 & E3 & E4 & E5 & _ & _ & E6 & _).
  exists tx, t, signed. rewrite E1, E2, E3, E4, E5.
  assert (ur_content_key r = hex_encode (sha256 m) ∧ ur_message_id r = hex_encode (sha256 signed) ∧
          ur_user_signature r = hex_encode (ed_sign sk signed) ∧ ur_tags r = tags) as (-> & -> & -> & Hrt)
    by (rewrite Hr; done).
  split_and!; try done. rewrite Hrt in E6.
  pose proof (canonicalize_tags_canonical _ _ Ht) as (_ & _ & Ht'). congruence.
Qed.

(** A message id stands for one message and one set of commitments: two
    accepted requests with the same id have the same message, signer, key,
    content, expiry, visibility, topic, canonical tags, content type, fee and
    namespace, unless they exhibit a collision of the hash. *)
Theorem message_id_binds_commitment {SL : SigningJsonLaws S} (m m' : bytes) (r r' : PostMessageUserRequest) :
  validate_post_message_user_signature m r = Some tt →
  validate_post_message_user_signature m' r' = Some tt →
  ur_message_id r = ur_message_id r' →
  (∃ tags, m = m' ∧ commitment r tags = commitment r' tags ∧
     canonicalize_post_message_tags (ur_tags r) = Ok tags ∧
     canonicalize_post_message_tags (ur_tags r') = Ok tags) ∨
  (∃ a b : bytes, a ≠ b ∧ sha256 a = sha256 b).
Proof.
  intros (s & tags & signed & Ha)%validate_sound (s' & tags' & signed' & Ha')%validate_sound Hid.
  rewrite (ra_message_id _ _ _ _ _ Ha), (ra_message_id _ _ _ _ _ Ha') in Hid.
  apply (inj hex_encode), vec_to_list_inj2 in Hid.
  destruct (decide (signed = signed')) as [He|Hne]; [left|right; by exists signed, signed'].
  destruct (ra_signed _ _ _ _ _ Ha) as (b & Hb & ->). destruct (ra_signed _ _ _ _ _ Ha') as (b' & Hb' & ->).
  destruct (signing_payload_delimited _ _ _ _ _ _ Hb Hb' He) as [Hc ->].
  assert (tags' = tags) as -> by (by injection Hc).
  exists tags. split_and!; [done|done|apply (ra_tags _ _ _ _ _ Ha)|apply (ra_tags _ _ _ _ _ Ha')].
Qed.
End user_post_facts.

(** ** A reference instance and witnesses *)

#[export] Instance ref_signing_json : SigningJson := {|
  signing_payload_to_vec p := Some
    (delimited (sp_original_signer p) ++ delimited (sp_original_signer_pubkey p) ++
     delimited (sp_content_key p) ++ delimited (sp_expires_height p) ++ delimited (sp_visibility p) ++
     delimited (sp_topic p) ++ delimited (sp_tags p) ++ delimited (sp_content_type p) ++
     delimited (sp_fee_amount p) ++ delimited (sp_namespace p));
|}.

#[export] Instance ref_signing_json_laws : SigningJsonLaws ref_signing_json.
Proof.
  constructor. intros p q b c m n [= <-] [= <-] He. rewrite <- !app_assoc in He.
  repeat (apply delimited_inj in He as [? He]). destruct p, q; cbn in *; by subst.
Qed.

Definition test_input : PostMessageUserRequestInput :=
  mkUserRequestInput 100 "public" None ["news"; "0X0707070707070707070707070707070707070707"]
    "text/plain" 5 (Some " Chess ").

Definition test_text : bytes := as_bytes "hello".

Lemma test_request : ∃ r, build_signed_post_message_user_request test_sk test_text test_input = Some r.
Proof. eexists. vm_compute. reflexivity. Qed.

Lemma signed_request_becomes_post_witness :
  ∃ r tx, build_signed_post_message_user_request test_sk test_text test_input = Some r ∧
    validate_message_and_build_post_message_tx test_text r test_sk 8 1700000000 "eld" 300 = Some tx ∧
    Tx_verify tx "eld" = Ok true.
Proof.
  destruct test_request as [r Hr].
  destruct (signed_request_becomes_post test_sk test_sk test_text test_input r 8 1700000000 300 "eld" Hr)
    as (_ & tx & t & signed & Htx & Hv & _); [intros tx; eexists; reflexivity|].
  exists r, tx. split; [exact Hr|]. split; [exact Htx|exact Hv].
Defined.

Lemma message_id_binds_commitment_witness :
  ∃ r, validate_post_message_user_signature test_text r = Some tt ∧
    ((∃ tags, test_text = test_text ∧ commitment r tags = commitment r tags ∧
        canonicalize_post_message_tags (ur_tags r) = Ok tags ∧
        canonicalize_post_message_tags (ur_tags r) = Ok tags) ∨
     (∃ a b : bytes, a ≠ b ∧ sha256 a = sha256 b)).
Proof.
  destruct test_request as [r Hr].
  destruct (built_request_authentic _ _ _ _ Hr) as (signer & tags & signed & Ha & _).
  pose proof (validate_complete _ _ _ _ _ Ha) as Hv.
  exists r. split; [exact Hv|]. exact (message_id_binds_commitment test_text test_text r r Hv Hv eq_refl).
Defined.
