(* ===== verification/Validation.v ===== *)
(** Transaction validation before deserialization: common/src/validation.rs
    (text and JSON checks, the structure of a transaction object and of each
    payload). *)
From S2P Require Import Prelude Externals Reference Coins Address Namespace Cado Records Tx Wire.

(** ** Plain values *)

Definition validate_chain_id (chain_id : string) : eld_result unit :=
  let len := String.length chain_id in
  if negb ((3 <=? len)%nat && (len <=? 64)%nat) then Err (ValidationError "chain ID")
  else if negb (string_all (λ c, is_ascii_alphanumeric c || Ascii.eqb c "-"%char
                                 || Ascii.eqb c "_"%char) chain_id)
  then Err (ValidationError "chain ID")
  else Ok tt.

Definition validate_port (port : string) : eld_result unit :=
  match parse_unsigned u16_max port with
  | None => Err (ValidationError "port")
  | Some port_num => if port_num =? 0 then Err (ValidationError "port") else Ok tt
  end.

(** At the integer types it is used with, the value is an integer. *)
Definition validate_positive_integer (value : Z) (min max : option Z) (field : string) :
    eld_result unit :=
  if value <? 0 then Err (ValidationError field)
  else if match min with Some m => value <? m | None => false end
  then Err (ValidationError field)
  else if match max with Some m => m <? value | None => false end
  then Err (ValidationError field)
  else Ok tt.

Definition validate_hex_string (hex_str : string) (max_bytes : Z) : eld_result unit :=
  if String.eqb hex_str EmptyString then Err (ValidationError "hex string")
  else if max_bytes * 2 <? Z.of_nat (String.length hex_str)
  then Err (ValidationError "hex string")
  else if negb (String.length hex_str mod 2 =? 0)%nat then Err (ValidationError "hex string")
  else if negb (string_all is_ascii_hexdigit hex_str) then Err (ValidationError "hex string")
  else Ok tt.

(** ** JSON text *)

Inductive bracket : Type := Opening | Closing | Other.

Definition bracket_of (ch : ascii) : bracket :=
  if Ascii.eqb ch "{" || Ascii.eqb ch "[" then Opening
  else if Ascii.eqb ch "}" || Ascii.eqb ch "]" then Closing
  else Other.

(** The nesting loop of [validate_json_string]: the depth after the text, or
    an error on the first bracket that leaves [0..=max_depth]. *)
Fixpoint json_depth (max_depth : nat) (s : string) (depth : nat) : eld_result nat :=
  match s with
  | EmptyString => Ok depth
  | String ch s =>
      match bracket_of ch with
      | Opening =>
          if (max_depth <? S depth)%nat then Err (ValidationError "JSON string")
          else json_depth max_depth s (S depth)
      | Closing =>
          match depth with
          | O => Err (ValidationError "JSON string")
          | S d => json_depth max_depth s d
          end
      | Other => json_depth max_depth s depth
      end
  end.

Section json_text.
Context {SJ : SerdeJson}.

Definition validate_json_string (json_str : string) (max_size : Z) (max_depth : nat) :
    eld_result unit :=
  if String.eqb json_str EmptyString then Err (ValidationError "JSON string")
  else if max_size <? Z.of_nat (String.length json_str) then Err (ValidationError "JSON string")
  else
    let? depth := json_depth max_depth json_str 0 in
    if negb (depth =? 0)%nat then Err (ValidationError "JSON string")
    else
      match value_from_str json_str with
      | None => Err (ValidationError "JSON string")
      | Some _ => Ok tt
      end.

(** The constant of [validate_transaction_size]. *)
Definition MAX_TRANSACTION_JSON_BYTES : Z := 10 * 1024 * 1024.

Definition validate_transaction_size (json_value : Value) : eld_result unit :=
  match value_to_string json_value with
  | None => Err (ValidationError "transaction")
  | Some json_string =>
      if MAX_TRANSACTION_JSON_BYTES <? Z.of_nat (String.length json_string)
      then Err (ValidationError "transaction")
      else Ok tt
  end.
End json_text.

(** ** Payload objects *)

Definition required_fields (m : list (string * Value)) (fields : list string) (what : string) :
    eld_result unit :=
  try_fold (λ _ f, if negb (contains_key m f) then Err (ValidationError what) else Ok tt) tt fields.

(** [payload_obj["field"]], after the presence check *)
Definition index (m : list (string * Value)) (k : string) : Value := default JNull (map_get m k).

(** The amount formats the checks admit: a decimal string, or a JSON integer. *)
Definition amount_of_value (v : Value) (what : string) : eld_result Z :=
  match v with
  | JString s => ok_or (parse_unsigned u128_max s) (ValidationError what)
  | JNumber n => ok_or (number_as_u64 n) (ValidationError what)
  | _ => Err (ValidationError what)
  end.

Section payloads.
Context {H : HexCrate}.

Definition validate_address (address : string) : eld_result unit :=
  let? _ := parse_hex_str address in Ok tt.

Definition str_field (m : list (string * Value)) (k what : string) : eld_result string :=
  ok_or (as_str (index m k)) (ValidationError what).

Definition validate_transfer_payload (m : list (string * Value)) : eld_result unit :=
  let? _ := required_fields m ["sender"; "recipient"; "amount"] "transfer payload" in
  let? sender := str_field m "sender" "transfer payload sender" in
  let? sender := parse_hex_str sender in
  let? recipient := str_field m "recipient" "transfer payload recipient" in
  let? recipient := parse_hex_str recipient in
  if bool_decide (sender = recipient) then Err (ValidationError "transfer addresses")
  else
    let? amount := amount_of_value (index m "amount") "transfer payload amount" in
    if amount =? 0 then Err (ValidationError "transfer payload amount")
    else if MAX_COIN <? amount then Err (ValidationError "transfer payload amount")
    else Ok tt.

Definition validate_stake_payload (m : list (string * Value)) : eld_result unit :=
  let? _ := required_fields m ["sender"; "amount"] "stake payload" in
  let? sender := str_field m "sender" "stake payload sender" in
  let? _ := parse_hex_str sender in
  let? amount := amount_of_value (index m "amount") "stake payload amount" in
  if amount =? 0 then Err (ValidationError "stake payload amount")
  else if MAX_COIN <? amount then Err (ValidationError "stake payload amount")
  else
    match map_get m "public_key" with
    | Some (JString public_key_str) => validate_hex_string public_key_str 32
    | Some _ => Err (ValidationError "stake payload public_key")
    | None => Ok tt
    end.

Definition validate_unstake_payload (m : list (string * Value)) : eld_result unit :=
  let? _ := required_fields m ["sender"; "amount"] "unstake payload" in
  let? sender := str_field m "sender" "unstake payload sender" in
  let? _ := parse_hex_str sender in
  let? amount := amount_of_value (index m "amount") "unstake payload amount" in
  if amount =? 0 then Err (ValidationError "unstake payload amount")
  else if MAX_COIN <? amount then Err (ValidationError "unstake payload amount")
  else Ok tt.

Definition validate_add_namespace_payload (m : list (string * Value)) : eld_result unit :=
  let? _ := required_fields m ["sender"; "namespace_slug"; "registration_fee"]
              "add_namespace payload" in
  let? sender := str_field m "sender" "add_namespace payload sender" in
  let? sender := parse_hex_str sender in
  let? namespace_slug := str_field m "namespace_slug" "add_namespace payload namespace_slug" in
  let? _ := validate_safe_string namespace_slug 64 in
  let? registration_fee := amount_of_value (index m "registration_fee")
                             "add_namespace payload registration_fee" in
  if MAX_COIN <? registration_fee
  then Err (ValidationError "add_namespace payload registration_fee")
  else
    let? _ := AddNamespaceTx_new sender namespace_slug registration_fee in
    Ok tt.

Definition validate_register_capacity_payload (m : list (string * Value)) : eld_result unit :=
  let? _ := required_fields m ["sender"; "capacity_bytes"; "merkle_root"; "seed"; "chunk_count"]
              "register capacity payload" in
  let? sender := str_field m "sender" "register capacity payload sender" in
  let? _ := validate_address sender in
  let? _ := validate_safe_string sender 100 in
  let? capacity_bytes := ok_or (value_as_u64 (index m "capacity_bytes"))
                           (ValidationError "register capacity payload capacity_bytes") in
  let? _ := validate_positive_integer capacity_bytes (Some 1) None "capacity_bytes" in
  let? merkle_root := str_field m "merkle_root" "register capacity payload merkle_root" in
  let? _ := validate_hex_string merkle_root 32 in
  let? seed := str_field m "seed" "register capacity payload seed" in
  let? _ := validate_hex_string seed 32 in
  let? chunk_count := ok_or (value_as_u64 (index m "chunk_count"))
                        (ValidationError "register capacity payload chunk_count") in
  validate_positive_integer chunk_count (Some 1) None "chunk_count".

Definition validate_unregister_capacity_payload (m : list (string * Value)) : eld_result unit :=
  let? _ := required_fields m ["sender"; "unregister"] "unregister capacity payload" in
  let? sender := str_field m "sender" "unregister capacity payload sender" in
  let? _ := validate_address sender in
  let? _ := validate_safe_string sender 100 in
  let? unregister := ok_or (as_bool (index m "unregister"))
                       (ValidationError "unregister capacity payload unregister") in
  if negb unregister then Err (ValidationError "unregister") else Ok tt.

Definition validate_update_capacity_merkle_root_payload (m : list (string * Value)) :
    eld_result unit :=
  let? _ := required_fields m ["sender"; "merkle_root"] "update capacity merkle root payload" in
  let? sender := str_field m "sender" "update capacity merkle root payload sender" in
  let? _ := validate_address sender in
  let? _ := validate_safe_string sender 100 in
  let? merkle_root := str_field m "merkle_root"
                        "update capacity merkle root payload merkle_root" in
  validate_hex_string merkle_root 32.

Definition validate_verified_proof_payload (m : list (string * Value)) : eld_result unit :=
  let? _ := required_fields m ["sender"; "capacity_provider"; "challenge_id"; "block_height";
              "verified_at_block"; "verified_at_timestamp"; "proofs"; "generated_at";
              "provider_pubkey"; "provider_signature"] "verified proof payload" in
  let? sender := str_field m "sender" "verified proof payload sender" in
  let? _ := parse_hex_str sender in
  let? capacity_provider := str_field m "capacity_provider"
                              "verified proof payload capacity_provider" in
  let? _ := parse_hex_str capacity_provider in
  let? challenge_id := str_field m "challenge_id" "verified proof payload challenge_id" in
  let? _ := validate_safe_string challenge_id 100 in
  let? block_height := ok_or (value_as_i64 (index m "block_height"))
                         (ValidationError "verified proof payload block_height") in
  if block_height <=? 0 then Err (ValidationError "verified proof payload block_height") else
  let? verified_at_block := ok_or (value_as_i64 (index m "verified_at_block"))
                              (ValidationError "verified proof payload verified_at_block") in
  if verified_at_block <=? 0
  then Err (ValidationError "verified proof payload verified_at_block") else
  if verified_at_block <? block_height
  then Err (ValidationError "verified proof payload verified_at_block") else
  let? verified_at_timestamp := ok_or (value_as_u64 (index m "verified_at_timestamp"))
                         (ValidationError "verified proof payload verified_at_timestamp") in
  if negb (timestamp_ok verified_at_timestamp)
  then Err (ValidationError "verified proof payload verified_at_timestamp") else
  let? proofs := ok_or (as_array (index m "proofs"))
                   (ValidationError "verified proof payload proofs") in
  if bool_decide (length proofs = 0%nat)
  then Err (ValidationError "verified proof payload proofs") else
  let? generated_at := ok_or (value_as_u64 (index m "generated_at"))
                         (ValidationError "verified proof payload generated_at") in
  if negb (timestamp_ok generated_at)
  then Err (ValidationError "verified proof payload generated_at") else
  let? provider_pubkey := str_field m "provider_pubkey"
                            "verified proof payload provider_pubkey" in
  if String.eqb provider_pubkey EmptyString
  then Err (ValidationError "verified proof payload provider_pubkey") else
  let? _ := validate_hex_string provider_pubkey 32 in
  let? provider_signature := str_field m "provider_signature"
                               "verified proof payload provider_signature" in
  if String.eqb provider_signature EmptyString
  then Err (ValidationError "verified proof payload provider_signature") else
  let? _ := validate_hex_string provider_signature 64 in
  match map_get m "failed" with
  | Some failed =>
      if negb (is_boolean failed) then Err (ValidationError "verified proof payload failed")
      else Ok tt
  | None => Ok tt
  end.

Definition validate_post_message_payload (m : list (string * Value)) : eld_result unit :=
  required_fields m ["sender"; "original_signer"; "original_signer_pubkey"; "content_key";
    "message_id"; "expires_height"; "visibility"; "fee_amount"; "received_timestamp";
    "user_signature"] "post_message payload".

Definition validate_payload_content (m : list (string * Value)) (payload_type : string) :
    eld_result unit :=
  if String.eqb payload_type "Transfer" then validate_transfer_payload m
  else if String.eqb payload_type "Stake" then validate_stake_payload m
  else if String.eqb payload_type "Unstake" then validate_unstake_payload m
  else if String.eqb payload_type "RegisterCapacity" then validate_register_capacity_payload m
  else if String.eqb payload_type "UnregisterCapacity"
  then validate_unregister_capacity_payload m
  else if String.eqb payload_type "UpdateCapacityMerkleRoot"
  then validate_update_capacity_merkle_root_payload m
  else if String.eqb payload_type "VerifiedProof" then validate_verified_proof_payload m
  else if String.eqb payload_type "PostMessage" then validate_post_message_payload m
  else if String.eqb payload_type "AddNamespace" then validate_add_namespace_payload m
  else Err (ValidationError "transaction payload type").

Definition allowed_types : list string :=
  ["Transfer"; "Unstake"; "Stake"; "VerifiedProof"; "RegisterCapacity"; "UnregisterCapacity";
   "UpdateCapacityMerkleRoot"; "PostMessage"; "AddNamespace"].

Context {SJ : SerdeJson}.

Definition validate_transaction_structure (json_value : Value) : eld_result unit :=
  let? _ := validate_transaction_size json_value in
  let? obj := ok_or (as_object json_value) (ValidationError "transaction") in
  let? _ := required_fields obj ["sig"; "nonce"; "payload"; "public_key"; "fee"] "transaction" in
  let? sig := str_field obj "sig" "transaction sig" in
  let? _ := validate_hex_string sig 64 in
  if negb (is_number (index obj "nonce")) then Err (ValidationError "transaction nonce") else
  let? nonce := ok_or (value_as_u64 (index obj "nonce")) (ValidationError "transaction nonce") in
  let? _ := validate_positive_integer nonce (Some 0) (Some u32_max) "nonce" in
  if negb (is_object (index obj "payload")) then Err (ValidationError "transaction payload") else
  let? public_key := str_field obj "public_key" "transaction public_key" in
  let? _ := validate_hex_string public_key 32 in
  if negb (is_number (index obj "fee")) then Err (ValidationError "transaction fee") else
  let? fee := ok_or (value_as_u64 (index obj "fee")) (ValidationError "transaction fee") in
  let? _ := validate_positive_integer fee (Some 0) (Some u32_max) "fee" in
  let? payload_obj := ok_or (as_object (index obj "payload"))
                        (ValidationError "transaction payload") in
  if negb (contains_key payload_obj "type") then Err (ValidationError "transaction payload") else
  let? payload_type := str_field payload_obj "type" "transaction payload type" in
  if negb (str_in allowed_types payload_type)
  then Err (ValidationError "transaction payload type")
  else validate_payload_content payload_obj payload_type.
End payloads.

(** ** Deletion signatures *)

Section deletion.
Context {H : HexCrate} {E : Ed25519}.

(** [verify_cado_deletion_signature]: an ed25519 signature over
    [path:owner:chain_id]. *)
Definition verify_cado_deletion_signature (path owner signature public_key chain_id : string) :
    eld_result unit :=
  let message := String.append path (String.append ":" (String.append owner
                   (String.append ":" chain_id))) in
  let? public_key_bytes := ok_or (hex_decode public_key) (ValidationError "public key") in
  let? key := ok_or (try_array 32 public_key_bytes) (ValidationError "public key") in
  if negb (verifying_key_ok key) then Err (ValidationError "public key") else
  let? signature_bytes := ok_or (hex_decode signature) (ValidationError "signature") in
  let? sig := ok_or (try_array 64 signature_bytes) (ValidationError "signature") in
  if ed_verify key (as_bytes message) sig then Ok tt
  else Err (ValidationError "signature verification").
End deletion.

(** ** Lemmas *)

Lemma required_fields_Ok m fs what :
  required_fields m fs what = Ok tt ↔ Forall (λ f, contains_key m f = true) fs.
Proof.
  unfold required_fields. induction fs as [|f fs IH]; simpl; [by split|].
  rewrite Forall_cons_iff, <- IH. destruct (contains_key m f); simpl; intuition congruence.
Qed.

Lemma contains_key_index m k : contains_key m k = true → map_get m k = Some (index m k).
Proof. unfold contains_key, index. by destruct (map_get m k). Qed.

Section hex_text.
Context {H : HexCrate} {HL : HexLaws H}.

Lemma validate_hex_string_Ok s n :
  validate_hex_string s n = Ok tt ↔
  ∃ b, hex_decode s = Some b ∧ 0 < Z.of_nat (length b) ≤ n.
Proof.
  unfold validate_hex_string. split.
  - destruct (String.eqb_spec s EmptyString) as [->|Hne]; [done|].
    destruct (n * 2 <? _) eqn:El; [done|]. eld_bool.
    destruct (String.length s mod 2 =? 0)%nat eqn:Em; [|done]. apply Nat.eqb_eq in Em.
    destruct (string_all is_ascii_hexdigit s) eqn:Ed; [|done]. intros _.
    apply Nat.Div0.mod_divides in Em as [k Hk].
    destruct (hex_decode_total s k) as [b Hb]; [lia|done|]. exists b. split; [done|].
    apply hex_decode_length in Hb. destruct s; [done|]. simpl in *. lia.
  - intros (b & Hb & Hl). pose proof (hex_decode_length _ _ Hb) as Hs.
    destruct (String.eqb_spec s EmptyString) as [->|Hne]; [simpl in Hs; lia|].
    rewrite (proj2 (Z.ltb_ge _ _)) by lia. rewrite Hs, Nat.mul_comm, Nat.Div0.mod_mul.
    simpl. by rewrite (hex_decode_digits _ _ Hb).
Qed.
End hex_text.

(** ** Properties *)

(** Opening minus closing brackets of a text. *)
Fixpoint net (s : string) : Z :=
  match s with
  | EmptyString => 0
  | String c s =>
      match bracket_of c with Opening => 1 | Closing => -1 | Other => 0 end + net s
  end.

Lemma json_depth_Ok max s d r :
  (d ≤ max)%nat →
  json_depth max s d = Ok r ↔
  Z.of_nat r = Z.of_nat d + net s ∧
  ∀ n, 0 ≤ Z.of_nat d + net (string_take n s) ≤ Z.of_nat max.
Proof.
  unfold string_take. revert d. induction s as [|c s IH]; intros d Hd; simpl.
  - split; [intros [= <-]; split; [lia|intros [|n]; simpl; lia]|].
    intros [Hr _]. f_equal. lia.
  - assert (∀ d', (d' ≤ max)%nat →
      Z.of_nat d' = Z.of_nat d + match bracket_of c with Opening => 1 | Closing => -1 | Other => 0 end →
      json_depth max s d' = Ok r ↔
      Z.of_nat r = Z.of_nat d + (match bracket_of c with Opening => 1 | Closing => -1 | Other => 0 end
        + net s) ∧
      ∀ n, 0 ≤ Z.of_nat d + net (substring 0 n (String c s)) ≤ Z.of_nat max) as Hstep.
    { intros d' Hd' He. rewrite IH by done. split; intros [Hr Hp].
      - split; [lia|]. intros [|n]; simpl; [lia|]. specialize (Hp n). lia.
      - split; [lia|]. intros n. specialize (Hp (S n)). simpl in Hp. lia. }
    destruct (bracket_of c) eqn:Ec.
    + destruct (max <? S d)%nat eqn:El.
      * apply Nat.ltb_lt in El. split; [done|]. intros [_ Hp].
        specialize (Hp 1%nat). simpl in Hp. rewrite Ec in Hp. destruct s; simpl in Hp; lia.
      * apply Nat.ltb_ge in El. apply Hstep; lia.
    + destruct d as [|d].
      * split; [done|]. intros [_ Hp]. specialize (Hp 1%nat). simpl in Hp. rewrite Ec in Hp.
        destruct s; simpl in Hp; lia.
      * apply Hstep; lia.
    + apply Hstep; lia.
Qed.

(** The JSON text check accepts exactly the non-empty texts within the size
    limit that [serde_json] parses and whose brackets are balanced, never close
    below zero and never nest deeper than the limit, counting every bracket
    character of the text. *)
Theorem validate_json_string_exact {SJ : SerdeJson} (s : string) (size : Z) (max : nat) :
  validate_json_string s size max = Ok tt ↔
  s ≠ EmptyString ∧ Z.of_nat (String.length s) ≤ size ∧ is_Some (value_from_str s) ∧
  net s = 0 ∧ ∀ n, 0 ≤ net (string_take n s) ≤ Z.of_nat max.
Proof.
  unfold validate_json_string. destruct (String.eqb_spec s EmptyString) as [->|Hne].
  { split; [done|]. by intros [? _]. }
  destruct (size <? _) eqn:Es; eld_bool.
  { split; [done|]. lia. }
  assert ((json_depth max s 0 = Ok 0%nat) ↔
    net s = 0 ∧ ∀ n, 0 ≤ net (string_take n s) ≤ Z.of_nat max) as Hd.
  { rewrite json_depth_Ok by lia. simpl. intuition. }
  destruct (json_depth max s 0) as [d|e]; simpl.
  - destruct (d =? 0)%nat eqn:E0; simpl.
    + apply Nat.eqb_eq in E0 as ->. destruct Hd as [Hd _]. specialize (Hd eq_refl).
      destruct (value_from_str s); split; [|done| |].
      * intros _. split_and!; [done|lia|eauto|apply Hd..].
      * done.
      * by intros (_ & _ & [? ?] & _).
    + split; [done|]. intros (_ & _ & _ & Hn). apply Hd in Hn. injection Hn as ->. done.
  - split; [done|]. intros (_ & _ & _ & Hn). apply Hd in Hn. done.
Qed.

(** Both sides of the agreement fail. *)
Ltac neither := split; [done|by intros [? ?]].

Section decoding.
Context {H : HexCrate} {E : Ed25519}.

Lemma amount_field_string m s a what :
  map_get m "amount" = Some (JString s) →
  amount_of_value (index m "amount") what = Ok a ↔
  field m "amount" tx_amount_string_deserialize = Some a.
Proof.
  unfold index, field. intros ->. simpl. unfold tx_amount_string_deserialize. simpl.
  destruct (parse_unsigned u128_max s); simpl; split; congruence.
Qed.

Lemma address_field m k :
  contains_key m k = true →
  field m k Address_deserialize =
    match as_str (index m k) with Some s => ok (parse_hex_str s) | None => None end.
Proof.
  intros Hk. unfold field. rewrite (contains_key_index m k Hk). simpl. unfold Address_deserialize.
  by destruct (as_str (index m k)).
Qed.

Lemma field_contains {A} m k (f : Value → option A) a : field m k f = Some a → contains_key m k = true.
Proof. unfold field, contains_key. by destruct (map_get m k). Qed.

(** On payloads that write the amount as text, the transfer check and the
    transfer decoder accept the same objects. *)
Theorem transfer_check_agrees_with_decoder (m : list (string * Value)) (s : string) :
  map_get m "amount" = Some (JString s) →
  validate_transfer_payload m = Ok tt ↔ is_Some (TransferTx_deserialize m).
Proof.
  intros Ha. unfold validate_transfer_payload, TransferTx_deserialize, str_field.
  destruct (required_fields m _ _) as [[]|] eqn:Er; simpl.
  - apply required_fields_Ok in Er. rewrite !Forall_cons_iff in Er.
    destruct Er as (Hs & Hr & _ & _). rewrite (address_field m _ Hs), (address_field m _ Hr).
    destruct (as_str (index m "sender")) as [ts|]; simpl; [|neither].
    destruct (parse_hex_str ts) as [sd|]; simpl; [|neither].
    destruct (as_str (index m "recipient")) as [tr|]; simpl; [|neither].
    destruct (parse_hex_str tr) as [rc|]; simpl; [|neither].
    destruct (field m "amount" tx_amount_string_deserialize) as [a|] eqn:Ea; simpl.
    + rewrite (proj2 (amount_field_string m s a _ Ha) Ea). simpl. unfold TransferTx_new.
      case_bool_decide; [neither|].
      unfold Coin_new. destruct (MAX_COIN <? a) eqn:Em; simpl.
      * destruct (a =? 0); neither.
      * destruct (a =? 0); [neither|]. split; [eauto|done].
    + case_bool_decide; [neither|].
      destruct (amount_of_value _ _) as [a|] eqn:Eo; [|neither].
      apply (amount_field_string m s a _ Ha) in Eo. congruence.
  - split; [done|]. intros [t Ht]. exfalso.
    assert (required_fields m ["sender"; "recipient"; "amount"] "transfer payload" = Ok tt) as Hok.
    { apply required_fields_Ok. apply bind_Some in Ht as (a1 & H1 & Ht).
      apply bind_Some in Ht as (a2 & H2 & Ht). apply bind_Some in Ht as (a3 & H3 & _).
      repeat constructor; eapply field_contains; eassumption. }
    congruence.
Qed.

(** A stake payload without [public_key] passes the stake check but is
    decoded as an unstake of the same amount, because the untagged payload
    tries [Unstake] first and the [type] tag is not consulted. *)
Theorem stake_without_key_is_unstake (sender_text amount_text : string) :
  let m := [("type", JString "Stake"); ("sender", JString sender_text);
            ("amount", JString amount_text)] in
  validate_payload_content m "Stake" = Ok tt →
  ∃ a n, parse_hex_str sender_text = Ok a ∧ parse_unsigned u128_max amount_text = Some n ∧
    Payload_deserialize (JObject m) = Some (mkPayload "Stake" (Unstake (mkUnstakeTx a n))).
Proof.
  cbv zeta. unfold validate_payload_content. simpl. unfold validate_stake_payload, str_field.
  simpl. destruct (parse_hex_str sender_text) as [a|] eqn:Ea; [|done].
  destruct (parse_unsigned u128_max amount_text) as [n|] eqn:En; [|done]. simpl.
  destruct (n =? 0) eqn:E0; [done|]. destruct (MAX_COIN <? n) eqn:Em; [done|]. intros _. eld_bool.
  assert (UnstakeTx_new a n = Ok (mkUnstakeTx a n)) as Hu by (apply UnstakeTx_new_Ok; lia || done).
  exists a, n. split_and!; [done..|]. unfold Payload_deserialize. simpl.
  unfold PayloadInner_deserialize, TransferTx_deserialize, UnstakeTx_deserialize, field,
    tx_amount_string_deserialize, Address_deserialize. simpl. rewrite Ea, En. simpl.
  by rewrite Hu.
Qed.

(** A transfer whose amount is a JSON number passes the structure check,
    which admits numbers for backward compatibility, but never decodes. *)
Theorem numeric_amount_never_decodes (sender_text recipient_text : string) (a b : Address) (n : Z) :
  let m := [("type", JString "Transfer"); ("sender", JString sender_text);
            ("recipient", JString recipient_text); ("amount", JNumber (PosInt n))] in
  parse_hex_str sender_text = Ok a → parse_hex_str recipient_text = Ok b → a ≠ b →
  0 < n ≤ MAX_COIN → n ≤ u64_max →
  validate_payload_content m "Transfer" = Ok tt ∧ Payload_deserialize (JObject m) = None.
Proof.
  intros m Ha Hb Hab Hn Hu. split.
  { unfold validate_payload_content. simpl. unfold validate_transfer_payload, str_field. simpl.
    rewrite Ha, Hb, bool_decide_eq_false_2 by done. simpl.
    rewrite (proj2 (Z.leb_le 0 n)), (proj2 (Z.leb_le n u64_max)) by lia. simpl.
    by rewrite (proj2 (Z.eqb_neq n 0)), (proj2 (Z.ltb_ge MAX_COIN n)) by lia. }
  unfold Payload_deserialize, m. simpl.
  unfold PayloadInner_deserialize, TransferTx_deserialize, UnstakeTx_deserialize,
    StakeTx_deserialize, VerifiedProofTx_deserialize, RegisterCapacityTx_deserialize,
    UnregisterCapacityTx_deserialize, UpdateCapacityMerkleRootTx_deserialize,
    PostMessageTx_deserialize, AddNamespaceTx_deserialize, field. simpl.
  destruct (Address_deserialize (JString sender_text)); simpl; [|done].
  by destruct (Address_deserialize (JString recipient_text)).
Qed.
End decoding.

(** ** Witnesses *)

Definition test_sender_text : string := hex_with_prefix (H := ref_hex) test_sender.
Definition test_recipient_text : string := hex_with_prefix (H := ref_hex) test_recipient.

Lemma transfer_check_agrees_with_decoder_witness :
  is_Some (TransferTx_deserialize (H := ref_hex) [("sender", JString test_sender_text);
    ("recipient", JString test_recipient_text); ("amount", JString "250")]).
Proof.
  apply (transfer_check_agrees_with_decoder (H := ref_hex) _ "250"); vm_compute; reflexivity.
Defined.

Lemma stake_without_key_is_unstake_witness :
  ∃ a n, Payload_deserialize (H := ref_hex) (JObject [("type", JString "Stake");
    ("sender", JString test_sender_text); ("amount", JString "700")])
    = Some (mkPayload "Stake" (Unstake (mkUnstakeTx a n))).
Proof.
  destruct (stake_without_key_is_unstake (H := ref_hex) test_sender_text "700")
    as (a & n & _ & _ & Hd); [vm_compute; reflexivity|].
  exists a, n. exact Hd.
Defined.

Lemma numeric_amount_never_decodes_witness :
  Payload_deserialize (H := ref_hex) (JObject [("type", JString "Transfer");
    ("sender", JString test_sender_text); ("recipient", JString test_recipient_text);
    ("amount", JNumber (PosInt 250))]) = None.
Proof.
  apply (numeric_amount_never_decodes (H := ref_hex) test_sender_text test_recipient_text
    test_sender test_recipient 250); try (vm_compute; reflexivity); try discriminate.
  split; [reflexivity|vm_compute; discriminate].
Defined.
