(* ===== verification/Fee.v ===== *)
(** Fees and chain parameters: common/src/fee.rs and
    common/src/protocol_constants.rs. *)
From S2P Require Import Prelude F64 Coins Externals Reference Address Records Tx.

(** ** Fee configuration *)

Record FeeConfig : Type := mkFeeConfig {
  base_fee : Z;
  size_fee_per_kb : Z;
  gas_price : Z;
  transfer_multiplier : f64;
  stake_multiplier : f64;
  content_manifest_multiplier : f64;
  verified_proof_multiplier : f64;
  device_operation_multiplier : f64;
}.

Definition f64_zero : f64 := f64_of_Z 0.
Definition f64_one : f64 := f64_of_Z 1.

Definition FeeConfig_validate (c : FeeConfig) : eld_result unit :=
  if base_fee c =? 0 then Err (ValidationError "base_fee")
  else if size_fee_per_kb c =? 0 then Err (ValidationError "size_fee_per_kb")
  else if gas_price c =? 0 then Err (ValidationError "gas_price")
  else if f64_leb (transfer_multiplier c) f64_zero
  then Err (ValidationError "transfer_multiplier")
  else if f64_leb (stake_multiplier c) f64_zero then Err (ValidationError "stake_multiplier")
  else if f64_leb (content_manifest_multiplier c) f64_zero
  then Err (ValidationError "content_manifest_multiplier")
  else if f64_leb (verified_proof_multiplier c) f64_zero
  then Err (ValidationError "verified_proof_multiplier")
  else if f64_leb (device_operation_multiplier c) f64_zero
  then Err (ValidationError "device_operation_multiplier")
  else Ok tt.

Definition MAX_TRANSACTION_SIZE_BYTES : Z := 10 * 1024 * 1024.
Definition MAX_GAS_USAGE : Z := 110000000.
Definition MAX_FEE : Z := u128_max / 4.

(** ** Fee calculation *)

Definition calculate_size_fee (tx_size_bytes size_fee_per_kb : Z) : eld_result Z :=
  let kb := div_ceil tx_size_bytes 1024 in
  ok_or (checked_mul u128_max kb size_fee_per_kb)
    (FeeError "size_fee_calculation" "Size fee calculation overflow").

Definition calculate_complexity_fee (base_fee : Z) (complexity_multiplier : f64) :
    eld_result Z :=
  if f64_leb complexity_multiplier f64_zero
  then Err (FeeError "complexity_multiplier" "Complexity multiplier must be positive")
  else
    let total_complexity_fee :=
      if base_fee <=? u64_max then
        f64_to_u128 (f64_mul (f64_of_Z (as_u64 base_fee)) complexity_multiplier)
      else
        wrap_u128 (base_fee + f64_to_u128 (f64_mul (f64_of_Z base_fee)
                                             (f64_sub complexity_multiplier f64_one))) in
    ok_or (checked_sub total_complexity_fee base_fee)
      (FeeError "complexity_fee_calculation" "Complexity fee calculation underflow").

Definition calculate_gas_fee (estimated_gas gas_price : Z) : eld_result Z :=
  if MAX_GAS_USAGE <? estimated_gas then Err (FeeError "gas_validation" "gas limit")
  else
    ok_or (checked_mul u128_max estimated_gas gas_price)
      (FeeError "gas_fee_calculation" "Gas fee calculation overflow").

Definition get_complexity_multiplier (payload : PayloadInner) (c : FeeConfig) : f64 :=
  match payload with
  | Transfer _ => transfer_multiplier c
  | Stake _ | Unstake _ => stake_multiplier c
  | RegisterCapacity _ | UnregisterCapacity _ | UpdateCapacityMerkleRoot _ =>
      device_operation_multiplier c
  | VerifiedProof _ => verified_proof_multiplier c
  | PostMessage _ => content_manifest_multiplier c
  | AddNamespace _ => transfer_multiplier c
  end.

(** The gas table of [estimate_gas_usage]. *)
Definition gas_table (payload : PayloadInner) : Z :=
  match payload with
  | Transfer _ => 21000
  | Stake _ => 50000
  | Unstake _ => 50000
  | PostMessage _ => 120000
  | VerifiedProof _ => 50000
  | RegisterCapacity _ => 60000
  | UnregisterCapacity _ => 40000
  | UpdateCapacityMerkleRoot _ => 40000
  | AddNamespace _ => 40000
  end.

Definition estimate_gas_usage (payload : PayloadInner) : eld_result Z :=
  let gas_usage := gas_table payload in
  if MAX_GAS_USAGE <? gas_usage then Err (FeeError "gas_estimation" "gas limit")
  else Ok gas_usage.

Section fees.
Context {J : TxJson}.

Definition estimated_gas_usage (tx : Tx) : eld_result Z :=
  estimate_gas_usage (payload_inner (tx_payload tx)).

Definition estimate_transaction_size (tx : Tx) : eld_result Z :=
  let? json_str := ok_or (tx_to_json tx) (FeeError "size_estimation" "serialize") in
  let size := Z.of_nat (String.length json_str) in
  if MAX_TRANSACTION_SIZE_BYTES <? size then Err (FeeError "size_validation" "too large")
  else if size =? 0 then Ok 1024
  else Ok size.

Definition calculate_dynamic_fee (tx : Tx) (fee_config : FeeConfig) : eld_result Coin :=
  let base_fee := base_fee fee_config in
  let? tx_size_bytes := estimate_transaction_size tx in
  let? size_fee := calculate_size_fee tx_size_bytes (size_fee_per_kb fee_config) in
  let complexity_multiplier :=
    get_complexity_multiplier (payload_inner (tx_payload tx)) fee_config in
  let? complexity_fee := calculate_complexity_fee base_fee complexity_multiplier in
  let? estimated_gas := estimate_gas_usage (payload_inner (tx_payload tx)) in
  let? gas_fee := calculate_gas_fee estimated_gas (gas_price fee_config) in
  let? f1 := ok_or (checked_add u128_max base_fee size_fee)
               (FeeError "fee_calculation" "base_fee + size_fee") in
  let? f2 := ok_or (checked_add u128_max f1 complexity_fee)
               (FeeError "fee_calculation" "adding complexity_fee") in
  let? total_fee := ok_or (checked_add u128_max f2 gas_fee)
                      (FeeError "fee_calculation" "adding gas_fee") in
  if MAX_FEE <? total_fee then Err (FeeError "fee_validation" "exceeds maximum allowed fee")
  else Coin_new total_fee.
End fees.

(** [validation::validate_fee_amount] *)
Definition validate_fee_amount (amount : Coin) : eld_result unit :=
  if coin_amount amount =? 0 then Err (ValidationError "fee amount")
  else if MAX_COIN <? coin_amount amount then Err (ValidationError "fee amount")
  else Ok tt.

(** ** Protocol constants *)

Definition PARAMS_VERSION : Z := 1.

Record ProtocolFees : Type := mkProtocolFees {
  pf_base_fee : Coin;
  pf_size_fee_per_kb : Coin;
  pf_gas_price : Coin;
  transfer_multiplier_bps : Z;
  stake_multiplier_bps : Z;
  content_manifest_multiplier_bps : Z;
  verified_proof_multiplier_bps : Z;
  device_operation_multiplier_bps : Z;
}.

Definition bps_to_multiplier (bps : Z) : f64 := f64_div (f64_of_Z bps) (f64_of_Z 10000).

Definition to_fee_config (f : ProtocolFees) : FeeConfig :=
  mkFeeConfig (coin_amount (pf_base_fee f)) (coin_amount (pf_size_fee_per_kb f))
    (coin_amount (pf_gas_price f))
    (bps_to_multiplier (transfer_multiplier_bps f))
    (bps_to_multiplier (stake_multiplier_bps f))
    (bps_to_multiplier (content_manifest_multiplier_bps f))
    (bps_to_multiplier (verified_proof_multiplier_bps f))
    (bps_to_multiplier (device_operation_multiplier_bps f)).

Record ProtocolConstants : Type := mkProtocolConstants {
  params_version : Z;
  min_stake_amount : Coin;
  validators_per_epoch : Z;
  blocks_per_epoch : Z;
  active_storage_validators_per_epoch : Z;
  challenges_per_epoch : Z;
  chunks_per_challenge : Z;
  registration_duration_blocks : Z;
  verified_proof_reward_base_amount : Coin;
  failed_proofs_before_slash : Z;
  default_pinboard_post_ttl_blocks : Z;
  max_pinboard_message_bytes : Z;
  max_tx_bytes : Z;
  protocol_fees : ProtocolFees;
}.

Definition local_dev : ProtocolConstants := {|
  params_version := PARAMS_VERSION;
  min_stake_amount := mkCoin 5;
  validators_per_epoch := 4;
  blocks_per_epoch := 20;
  active_storage_validators_per_epoch := 1;
  challenges_per_epoch := 5;
  chunks_per_challenge := 10;
  registration_duration_blocks := 1000000;
  verified_proof_reward_base_amount := mkCoin 1000;
  failed_proofs_before_slash := 3;
  default_pinboard_post_ttl_blocks := 1000;
  max_pinboard_message_bytes := 1024 * 1024;
  max_tx_bytes := 10 * 1024 * 1024;
  protocol_fees := {|
    pf_base_fee := mkCoin 1000;
    pf_size_fee_per_kb := mkCoin 100;
    pf_gas_price := mkCoin 1;
    transfer_multiplier_bps := 10000;
    stake_multiplier_bps := 15000;
    content_manifest_multiplier_bps := 25000;
    verified_proof_multiplier_bps := 20000;
    device_operation_multiplier_bps := 18000;
  |};
|}.

Definition fee_config (p : ProtocolConstants) : FeeConfig := to_fee_config (protocol_fees p).

Definition require_positive (field : string) (value : Z) : eld_result unit :=
  if value =? 0 then Err (ValidationError field) else Ok tt.

Definition ProtocolConstants_validate (p : ProtocolConstants) : eld_result unit :=
  if negb (params_version p =? PARAMS_VERSION) then Err (ValidationError "params_version")
  else
    let? _ := require_positive "min_stake_amount" (coin_amount (min_stake_amount p)) in
    let? _ := require_positive "validators_per_epoch" (validators_per_epoch p) in
    if blocks_per_epoch p <=? 0 then Err (ValidationError "blocks_per_epoch")
    else
      let? _ := require_positive "active_storage_validators_per_epoch"
                  (active_storage_validators_per_epoch p) in
      let? _ := require_positive "challenges_per_epoch" (challenges_per_epoch p) in
      let? _ := require_positive "chunks_per_challenge" (chunks_per_challenge p) in
      let? _ := require_positive "registration_duration_blocks"
                  (registration_duration_blocks p) in
      let? _ := require_positive "verified_proof_reward_base_amount"
                  (coin_amount (verified_proof_reward_base_amount p)) in
      let? _ := require_positive "failed_proofs_before_slash" (failed_proofs_before_slash p) in
      let? _ := require_positive "default_pinboard_post_ttl_blocks"
                  (default_pinboard_post_ttl_blocks p) in
      let? _ := require_positive "max_pinboard_message_bytes" (max_pinboard_message_bytes p) in
      let? _ := require_positive "max_tx_bytes" (max_tx_bytes p) in
      let? _ := FeeConfig_validate (fee_config p) in
      Ok tt.

(** [ProtocolConstants::from_app_state_bytes]; [genesis_from_json] is the
    [serde_json] parse of [GenesisAppState]. *)
Definition from_app_state_bytes (genesis_from_json : bytes → option ProtocolConstants)
    (b : bytes) : eld_result ProtocolConstants :=
  match b with
  | [] => Err (InitializationError "protocol_constants")
  | _ =>
      let? constants :=
        ok_or (genesis_from_json b) (InitializationError "protocol_constants") in
      let? _ := ProtocolConstants_validate constants in
      Ok constants
  end.

(** [ProtocolHandle]: a cell that is written once. *)
Definition ProtocolHandle : Type := option ProtocolConstants.
Definition ProtocolHandle_new : ProtocolHandle := None.
Definition ProtocolHandle_set (h : ProtocolHandle) (c : ProtocolConstants) :
    result ProtocolConstants unit * ProtocolHandle :=
  match h with
  | Some _ => (Err c, h)
  | None => (Ok tt, Some c)
  end.
Definition ProtocolHandle_get (h : ProtocolHandle) : option ProtocolConstants := h.

(** ** Lemmas *)

Lemma estimate_gas_usage_Ok p : estimate_gas_usage p = Ok (gas_table p).
Proof. by destruct p. Qed.

Lemma checked_mul_in max a b : a * b ≤ max → checked_mul max a b = Some (a * b).
Proof. intros. by apply checked_mul_Some. Qed.

Lemma checked_add_in max a b : a + b ≤ max → checked_add max a b = Some (a + b).
Proof. intros. by apply checked_add_Some. Qed.

Lemma calculate_complexity_fee_nonneg b m c : calculate_complexity_fee b m = Ok c → 0 ≤ c.
Proof.
  unfold calculate_complexity_fee. destruct (f64_leb m f64_zero); [done|].
  destruct (checked_sub _ b) as [v|] eqn:Es; [|done]. intros [= <-].
  apply checked_sub_Some in Es. lia.
Qed.

Lemma estimate_transaction_size_range {J : TxJson} tx n :
  estimate_transaction_size tx = Ok n → 0 < n ≤ MAX_TRANSACTION_SIZE_BYTES.
Proof.
  unfold estimate_transaction_size. destruct (tx_to_json tx) as [s|]; [|done]. cbn [ok_or].
  destruct (_ <? _) eqn:E1; [done|]. destruct (_ =? 0) eqn:E2; intros [= <-]; eld_bool.
  - unfold MAX_TRANSACTION_SIZE_BYTES. lia.
  - lia.
Qed.

(** The part of the fee above the base, by payload, under the local
    parameters. *)
Definition local_dev_surcharge (p : PayloadInner) : Z :=
  match p with
  | Transfer _ | AddNamespace _ => 0
  | Stake _ | Unstake _ => 500
  | RegisterCapacity _ | UnregisterCapacity _ | UpdateCapacityMerkleRoot _ => 800
  | VerifiedProof _ => 1000
  | PostMessage _ => 1500
  end.

Lemma local_dev_complexity p :
  calculate_complexity_fee (base_fee (fee_config local_dev))
    (get_complexity_multiplier p (fee_config local_dev)) = Ok (local_dev_surcharge p).
Proof. destruct p; vm_compute; reflexivity. Qed.

(** ** Properties *)

Section properties.
Context {J : TxJson}.

(** A computed fee is what the schedule says and never undercharges: it is
    the base fee, plus the size fee of the started kilobytes, plus the
    complexity surcharge, plus gas at the gas price, and it is a valid coin
    amount. *)
Theorem dynamic_fee_decomposition (tx : Tx) (c : FeeConfig) (fee : Coin) :
  in_range u128_max (base_fee c) → in_range u128_max (size_fee_per_kb c) →
  in_range u128_max (gas_price c) →
  calculate_dynamic_fee tx c = Ok fee →
  ∃ size surcharge,
    estimate_transaction_size tx = Ok size ∧
    calculate_complexity_fee (base_fee c)
      (get_complexity_multiplier (payload_inner (tx_payload tx)) c) = Ok surcharge ∧
    coin_amount fee = base_fee c + div_ceil size 1024 * size_fee_per_kb c + surcharge
      + gas_table (payload_inner (tx_payload tx)) * gas_price c ∧
    base_fee c + size_fee_per_kb c ≤ coin_amount fee ≤ MAX_COIN.
Proof.
  intros Hb Hs Hg. unfold calculate_dynamic_fee.
  destruct (estimate_transaction_size tx) as [n|] eqn:En; [|done].
  unfold calculate_size_fee. destruct (checked_mul _ _ _) as [sf|] eqn:Esf; [|done].
  cbn [ok_or]. destruct (calculate_complexity_fee _ _) as [cf|] eqn:Ecf; [|done].
  rewrite estimate_gas_usage_Ok. unfold calculate_gas_fee.
  destruct (_ <? gas_table _) eqn:Eg; [done|].
  destruct (checked_mul _ (gas_table _) _) as [gf|] eqn:Egf; [|done]. cbn [ok_or].
  destruct (checked_add _ _ sf) as [f1|] eqn:E1; [|done]. cbn [ok_or].
  destruct (checked_add _ _ cf) as [f2|] eqn:E2; [|done]. cbn [ok_or].
  destruct (checked_add _ _ gf) as [f3|] eqn:E3; [|done]. cbn [ok_or].
  destruct (_ <? f3); [done|]. intros [-> Hf]%Coin_new_Ok. cbn [coin_amount].
  apply checked_mul_Some in Esf, Egf. apply checked_add_Some in E1, E2, E3.
  exists n, cf. pose proof (calculate_complexity_fee_nonneg _ _ _ Ecf) as Hcf.
  apply estimate_transaction_size_range in En as Hn.
  assert (1 ≤ div_ceil n 1024) as Hk.
  { unfold div_ceil. apply Z.div_le_lower_bound; lia. }
  assert (0 ≤ gas_table (payload_inner (tx_payload tx))) as Hgt
    by (destruct (payload_inner (tx_payload tx)); simpl; lia).
  unfold in_range in *. destruct_and!. split_and!; try done; try lia; nia.
Qed.

(** Under the local parameters every transaction that fits has a fee, and
    the floating-point schedule is exact: 1000 base units, 100 per started
    kilobyte, the surcharge of its kind and its gas. *)
Theorem local_dev_fee_exact (tx : Tx) (json : string) :
  tx_to_json tx = Some json →
  0 < Z.of_nat (String.length json) ≤ MAX_TRANSACTION_SIZE_BYTES →
  calculate_dynamic_fee tx (fee_config local_dev) =
    Ok (mkCoin (1000 + 100 * div_ceil (Z.of_nat (String.length json)) 1024
                + local_dev_surcharge (payload_inner (tx_payload tx))
                + gas_table (payload_inner (tx_payload tx)))).
Proof.
  intros Hj Hn. unfold calculate_dynamic_fee, estimate_transaction_size. rewrite Hj. cbn [ok_or].
  set (n := Z.of_nat (String.length json)) in *.
  destruct (_ <? n) eqn:E1; eld_bool; [lia|]. destruct (n =? 0) eqn:E2; eld_bool; [lia|].
  assert (0 ≤ div_ceil n 1024 ≤ 10241) as Hk.
  { unfold div_ceil, MAX_TRANSACTION_SIZE_BYTES in *. split; [apply Z.div_pos; lia|].
    apply Z.div_le_upper_bound; lia. }
  rewrite local_dev_complexity, estimate_gas_usage_Ok.
  change (size_fee_per_kb (fee_config local_dev)) with 100.
  change (gas_price (fee_config local_dev)) with 1. change (base_fee (fee_config local_dev)) with 1000.
  set (p := payload_inner (tx_payload tx)).
  assert (0 ≤ gas_table p ≤ 120000) as Hg by (destruct p; simpl; lia).
  assert (0 ≤ local_dev_surcharge p ≤ 1500) as Hs by (destruct p; simpl; lia).
  unfold calculate_size_fee, calculate_gas_fee.
  destruct (MAX_GAS_USAGE <? gas_table p) eqn:E3; eld_bool; [unfold MAX_GAS_USAGE in *; lia|].
  rewrite checked_mul_in by (unfold u128_max; lia). cbn [ok_or].
  rewrite checked_mul_in by (unfold u128_max; lia). cbn [ok_or].
  rewrite !checked_add_in by (unfold u128_max; lia). cbn [ok_or].
  rewrite !checked_add_in by (unfold u128_max; lia). cbn [ok_or].
  rewrite !checked_add_in by (unfold u128_max; lia). cbn [ok_or].
  destruct (MAX_FEE <? _) eqn:E4; eld_bool.
  { exfalso. change MAX_FEE with 85070591730234615865843651857942052863 in *. lia. }
  transitivity (Coin_new (1000 + 100 * div_ceil n 1024 + local_dev_surcharge p + gas_table p)).
  { f_equal. lia. }
  apply Coin_new_Ok. split; [done|]. change MAX_COIN with 1000000000000000. lia.
Qed.
End properties.

Lemma dynamic_fee_decomposition_witness :
  calculate_dynamic_fee test_tx (fee_config local_dev) = Ok (mkCoin 22100) ∧
  1100 ≤ 22100 ≤ MAX_COIN.
Proof.
  assert (calculate_dynamic_fee test_tx (fee_config local_dev) = Ok (mkCoin 22100)) as Hf
    by (vm_compute; reflexivity).
  split; [exact Hf|].
  destruct (dynamic_fee_decomposition test_tx (fee_config local_dev) (mkCoin 22100))
    as (n & s & _ & _ & _ & Hr); [vm_compute; split; discriminate..|exact Hf|exact Hr].
Defined.

Lemma local_dev_fee_exact_witness :
  calculate_dynamic_fee test_tx (fee_config local_dev) = Ok (mkCoin 22100).
Proof.
  rewrite (local_dev_fee_exact (J := ref_tx_json) test_tx "{}" eq_refl); [reflexivity|].
  vm_compute. split; [reflexivity|discriminate].
Defined.

(** A schedule whose transfer multiplier is one half. *)
Definition half_multiplier : ProtocolConstants :=
  mkProtocolConstants 1 (mkCoin 5) 4 20 1 5 10 1000000 (mkCoin 1000) 3 1000 1048576 10485760
    (mkProtocolFees (mkCoin 1000) (mkCoin 100) (mkCoin 1) 5000 15000 25000 20000 18000).

(** Chain parameters that pass validation can still make transfers
    unpayable: a multiplier below one is accepted, and then no transfer has a
    fee, because the surcharge is computed by a subtraction that underflows. *)
Theorem accepted_multiplier_blocks_transfers {J : TxJson} (tx : Tx) (t : TransferTx) :
  payload_inner (tx_payload tx) = Transfer t →
  ProtocolConstants_validate half_multiplier = Ok tt ∧
  is_ok (calculate_dynamic_fee tx (fee_config half_multiplier)) = false.
Proof.
  intros Ht. split; [vm_compute; reflexivity|]. unfold calculate_dynamic_fee. rewrite Ht.
  destruct (estimate_transaction_size tx) as [n|]; [|done].
  destruct (calculate_size_fee _ _); [|done].
  replace (calculate_complexity_fee _ _) with
    (@Err EldError Z (FeeError "complexity_fee_calculation" "Complexity fee calculation underflow"))
    by (vm_compute; reflexivity). done.
Qed.

Lemma accepted_multiplier_blocks_transfers_witness :
  is_ok (calculate_dynamic_fee test_tx (fee_config half_multiplier)) = false.
Proof.
  exact (proj2 (accepted_multiplier_blocks_transfers test_tx
           (mkTransferTx test_sender test_recipient 250) eq_refl)).
Defined.

Lemma ProtocolConstants_validate_blocks p :
  ProtocolConstants_validate p = Ok tt → 0 < blocks_per_epoch p.
Proof.
  unfold ProtocolConstants_validate, require_positive. intros Hv.
  repeat match type of Hv with
  | context [if ?c then _ else _] => destruct c eqn:?; try done
  end; eld_bool; lia.
Qed.

Lemma local_dev_valid : ProtocolConstants_validate local_dev = Ok tt.
Proof. vm_compute. reflexivity. Qed.
