(* ===== verification/Pinboard.v ===== *)
(** Pinboard posts: the metadata record and content paths of
    common/src/pinboard.rs. *)
From S2P Require Import Prelude Externals Reference Address Namespace Cado.

(** [struct PinboardMessageMetadata] *)
Record PinboardMessageMetadata : Type := mkPinboardMessageMetadata {
  pm_message_id : string;
  pm_original_signer : Address;
  pm_content_key : string;
  pm_content_type : string;
  pm_expires_height : Z;
  pm_visibility : string;
  pm_topic : option string;
  pm_tags : list string;
  pm_committed_height : Z;
  pm_received_timestamp : Z;
  pm_namespace : option string;
}.

Definition PATH_PREFIX_PINBOARD : string := "/@eld/pinboard/".

Definition pinboard_namespace_content_path (namespace message_id : string) : string :=
  String.append "/@" (String.append namespace (String "/" message_id)).

Definition path_uses_eld_pinboard_lookup (path : string) : bool :=
  contains SCOPE_ELD_ROOT path.

Definition pinboard_eld_post_cado_path (wallet message_id : string) : string :=
  String.append PATH_PREFIX_PINBOARD
    (String.append "post/" (String.append wallet (String "/" message_id))).

Definition pinboard_response_cado_path {H : HexCrate} (meta : PinboardMessageMetadata) : string :=
  match pm_namespace meta with
  | Some ns => pinboard_namespace_content_path ns (pm_message_id meta)
  | None => pinboard_eld_post_cado_path (hex_with_prefix (pm_original_signer meta))
              (pm_message_id meta)
  end.

Definition parse_pinboard_namespace_content_path (path : string) :
    eld_result (string * string) :=
  let parts := filter (λ p, p ≠ EmptyString) (split_on "/"%char path) in
  match parts with
  | [scope; message_id] =>
      if negb (starts_with "@" scope) || (String.length scope <? 2)%nat
      then Err (ValidationError "path")
      else
        let namespace_slug := string_drop 1 scope in
        let? _ := validate_content_upload_namespace_slug namespace_slug in
        if String.eqb message_id EmptyString then Err (ValidationError "path")
        else Ok (namespace_slug, message_id)
  | _ => Err (ValidationError "path")
  end.

(** ** Lemmas *)

Lemma upload_slug_Ok s :
  validate_content_upload_namespace_slug s = Ok tt →
  (3 ≤ String.length s)%nat ∧ string_all is_ascii_lowercase s = true.
Proof.
  unfold validate_content_upload_namespace_slug.
  destruct (_ || _)%bool eqn:El; [done|].
  destruct (string_all is_ascii_lowercase s); [|done]. intros _. split; [|done].
  apply orb_false_iff in El as [El _]. apply Nat.ltb_ge in El. exact El.
Qed.

Lemma lowercase_no_slash s : string_all is_ascii_lowercase s = true → no_slash s = true.
Proof.
  apply string_all_impl. intros c Hc. destruct (Ascii.eqb_spec "/"%char c); [by subst|done].
Qed.

Lemma starts_with_at s : starts_with "@" (String "@" s) = true.
Proof. unfold starts_with. rewrite String.prefix_correct. by destruct s. Qed.

Lemma contains_prefix p s : contains p (String.append p s) = true.
Proof.
  assert (starts_with p (String.append p s) = true) as Hp.
  { unfold starts_with. induction p as [|c p IH]; [by destruct s|].
    change (String.append (String c p) s) with (String c (String.append p s)).
    cbn [String.prefix]. by destruct (ascii_dec c c). }
  destruct (String.append p s); cbn [contains]; by rewrite Hp.
Qed.

Lemma parse_namespace_content_path (namespace message_id : string) :
  validate_content_upload_namespace_slug namespace = Ok tt →
  message_id ≠ EmptyString → no_slash message_id = true →
  parse_pinboard_namespace_content_path (pinboard_namespace_content_path namespace message_id)
    = Ok (namespace, message_id).
Proof.
  intros Hv Hne Hs. pose proof (upload_slug_Ok _ Hv) as [Hl Hc].
  unfold parse_pinboard_namespace_content_path, pinboard_namespace_content_path.
  change (String.append "/@" ?x) with (String "/" (String "@" x)).
  change (String "/" (String "@" (String.append namespace (String "/" message_id))))
    with (String.append EmptyString (String "/"
           (String.append (String "@" namespace) (String "/" message_id)))).
  rewrite split_on_app by done.
  rewrite split_on_app by (apply (lowercase_no_slash namespace) in Hc; exact Hc).
  rewrite split_on_none by exact Hs.
  rewrite filter_cons_False by (intros []; done).
  rewrite filter_cons_True by done. rewrite filter_cons_True by done. rewrite filter_nil.
  rewrite starts_with_at. simpl (negb true || _)%bool.
  destruct (Nat.ltb_spec (S (String.length namespace)) 2) as [|_]; [lia|].
  rewrite string_drop_1, Hv. by destruct message_id.
Qed.

(** A namespaced post is found at the path it is published under: the
    content path of a valid upload namespace and a message id parses back to
    both. *)
Theorem namespace_content_path_roundtrip (namespace message_id : string) :
  validate_content_upload_namespace_slug namespace = Ok tt →
  message_id ≠ EmptyString → no_slash message_id = true →
  parse_pinboard_namespace_content_path (pinboard_namespace_content_path namespace message_id)
    = Ok (namespace, message_id).
Proof. apply parse_namespace_content_path. Qed.

Lemma namespace_content_path_roundtrip_witness :
  parse_pinboard_namespace_content_path (pinboard_namespace_content_path "chess" "ab12")
    = Ok ("chess", "ab12").
Proof. apply (namespace_content_path_roundtrip "chess" "ab12"); [reflexivity|discriminate|reflexivity]. Defined.

(** The lookup that routes a content path tests for the text of the root
    scope anywhere in the path, so every namespace whose slug begins with the
    scope's name is routed to the Eld pinboard, although its content path
    parses as a namespaced post. *)
Theorem eld_prefixed_namespaces_misrouted (rest message_id : string) :
  validate_content_upload_namespace_slug (String.append "eld" rest) = Ok tt →
  message_id ≠ EmptyString → no_slash message_id = true →
  let path := pinboard_namespace_content_path (String.append "eld" rest) message_id in
  path_uses_eld_pinboard_lookup path = true ∧
  parse_pinboard_namespace_content_path path = Ok (String.append "eld" rest, message_id).
Proof.
  intros Hv Hne Hs path. split.
  - unfold path, path_uses_eld_pinboard_lookup, pinboard_namespace_content_path.
    change (contains SCOPE_ELD_ROOT (String "/" (String.append SCOPE_ELD_ROOT
      (String.append rest (String "/" message_id)))) = true).
    cbn [contains]. apply orb_true_iff. right. apply contains_prefix.
  - by apply parse_namespace_content_path.
Qed.

Lemma eld_prefixed_namespaces_misrouted_witness :
  path_uses_eld_pinboard_lookup (pinboard_namespace_content_path "elder" "ab12") = true ∧
  parse_pinboard_namespace_content_path (pinboard_namespace_content_path "elder" "ab12")
    = Ok ("elder", "ab12").
Proof.
  apply (eld_prefixed_namespaces_misrouted "er" "ab12"); [reflexivity|discriminate|reflexivity].
Defined.
