(* ===== verification/AppState.v ===== *)
(** Application state: node_app/src/app_state (envelope.rs, app.rs, app_hash.rs,
    cado_hash.rs, committed_cado_cache.rs, nibbles.rs, state_trie.rs, tip.rs).

    The committed cache (a Patricia map used as a lookup index) and the staged
    caches are finite maps keyed by the text of the path; the state trie is the
    finite map from path to digest it stores, with the root computed by the
    [trie-db] crate as a parameter. *)
From S2P Require Import Prelude Externals Reference Coins Address Namespace Cado Records Pinboard.

(** ** State trie *)

Abbreviation StateTrie := (gmap string (byte_array 32)).

(** The Merkle root the [trie-db] crate maintains for the entries of a trie. *)
Class TrieCrate : Type := { trie_root : StateTrie → byte_array 32 }.

Definition StateTrie_empty : StateTrie := ∅.
Definition StateTrie_insert (key : string) (value : byte_array 32) (t : StateTrie) : StateTrie :=
  <[key := value]> t.
Definition StateTrie_remove (key : string) (t : StateTrie) : StateTrie := delete key t.
Definition root_hash {T : TrieCrate} (t : StateTrie) : byte_array 32 := trie_root t.

(** Keys of the trie: two nibbles per byte of the path. *)
Definition path_to_nibbles (path : bytes) : list N :=
  flat_map (λ b, [N.shiftr (Byte.to_N b) 4; N.land (Byte.to_N b) 15]) path.

(** ** Envelope *)

(** [struct CADOMarkedForDeletion] *)
Record CADOMarkedForDeletion : Type := mkCADOMarkedForDeletion {
  md_owner : string;
  md_path : CadoPath;
}.

Record AppStateEnvelope : Type := mkAppStateEnvelope {
  cado_cache : gmap string CadoBody;
  cado_cache_to_delete : list CADOMarkedForDeletion;
  pinboard_meta_cache : gmap string PinboardMessageMetadata;
  pinboard_refcount_deltas : gmap string Z;
  pinboard_idx_wallet_add : list (string * Z * string);
  pinboard_idx_tag_add : list (string * Z * string);
  pinboard_idx_expiry_add : list (Z * string);
  pinboard_idx_commit_add : list (Z * string);
  verified_proof_rewarded_cache : gset string;
  failed_proof_counted_cache : gset string;
  namespace_registry_cache : gmap string NamespaceRecord;
  namespace_registry_index : gmap string NamespaceRecord;
  pending_fee_rewards : Coin;
  block_height : Z;
  current_epoch : Z;
  committed_cado_cache : gmap string CadoBody;
  epoch_records_index : gset Z;
  state_trie : StateTrie;
  validators : list ValidatorInfo;
  active_validators : list ValidatorInfo;
  capacity_validators : list CapacityValidatorInfo;
  active_capacity_validator : option ActiveCapacityValidator;
  failed_proof_counts : gmap Address Z;
}.

Definition set_cado_cache (v : gmap string CadoBody) (e : AppStateEnvelope) : AppStateEnvelope :=
  mkAppStateEnvelope v (cado_cache_to_delete e) (pinboard_meta_cache e)
    (pinboard_refcount_deltas e) (pinboard_idx_wallet_add e) (pinboard_idx_tag_add e)
    (pinboard_idx_expiry_add e) (pinboard_idx_commit_add e) (verified_proof_rewarded_cache e)
    (failed_proof_counted_cache e) (namespace_registry_cache e) (namespace_registry_index e)
    (pending_fee_rewards e) (block_height e) (current_epoch e) (committed_cado_cache e)
    (epoch_records_index e) (state_trie e) (validators e) (active_validators e)
    (capacity_validators e) (active_capacity_validator e) (failed_proof_counts e).
Definition set_cado_cache_to_delete (v : list CADOMarkedForDeletion) (e : AppStateEnvelope) : AppStateEnvelope :=
  mkAppStateEnvelope (cado_cache e) v (pinboard_meta_cache e) (pinboard_refcount_deltas e)
    (pinboard_idx_wallet_add e) (pinboard_idx_tag_add e) (pinboard_idx_expiry_add e)
    (pinboard_idx_commit_add e) (verified_proof_rewarded_cache e) (failed_proof_counted_cache
    e) (namespace_registry_cache e) (namespace_registry_index e) (pending_fee_rewards e)
    (block_height e) (current_epoch e) (committed_cado_cache e) (epoch_records_index e)
    (state_trie e) (validators e) (active_validators e) (capacity_validators e)
    (active_capacity_validator e) (failed_proof_counts e).
Definition set_pinboard_meta_cache (v : gmap string PinboardMessageMetadata) (e : AppStateEnvelope) : AppStateEnvelope :=
  mkAppStateEnvelope (cado_cache e) (cado_cache_to_delete e) v (pinboard_refcount_deltas e)
    (pinboard_idx_wallet_add e) (pinboard_idx_tag_add e) (pinboard_idx_expiry_add e)
    (pinboard_idx_commit_add e) (verified_proof_rewarded_cache e) (failed_proof_counted_cache
    e) (namespace_registry_cache e) (namespace_registry_index e) (pending_fee_rewards e)
    (block_height e) (current_epoch e) (committed_cado_cache e) (epoch_records_index e)
    (state_trie e) (validators e) (active_validators e) (capacity_validators e)
    (active_capacity_validator e) (failed_proof_counts e).
Definition set_pinboard_refcount_deltas (v : gmap string Z) (e : AppStateEnvelope) : AppStateEnvelope :=
  mkAppStateEnvelope (cado_cache e) (cado_cache_to_delete e) (pinboard_meta_cache e) v
    (pinboard_idx_wallet_add e) (pinboard_idx_tag_add e) (pinboard_idx_expiry_add e)
    (pinboard_idx_commit_add e) (verified_proof_rewarded_cache e) (failed_proof_counted_cache
    e) (namespace_registry_cache e) (namespace_registry_index e) (pending_fee_rewards e)
    (block_height e) (current_epoch e) (committed_cado_cache e) (epoch_records_index e)
    (state_trie e) (validators e) (active_validators e) (capacity_validators e)
    (active_capacity_validator e) (failed_proof_counts e).
Definition set_pinboard_idx_wallet_add (v : list (string * Z * string)) (e : AppStateEnvelope) : AppStateEnvelope :=
  mkAppStateEnvelope (cado_cache e) (cado_cache_to_delete e) (pinboard_meta_cache e)
    (pinboard_refcount_deltas e) v (pinboard_idx_tag_add e) (pinboard_idx_expiry_add e)
    (pinboard_idx_commit_add e) (verified_proof_rewarded_cache e) (failed_proof_counted_cache
    e) (namespace_registry_cache e) (namespace_registry_index e) (pending_fee_rewards e)
    (block_height e) (current_epoch e) (committed_cado_cache e) (epoch_records_index e)
    (state_trie e) (validators e) (active_validators e) (capacity_validators e)
    (active_capacity_validator e) (failed_proof_counts e).
Definition set_pinboard_idx_tag_add (v : list (string * Z * string)) (e : AppStateEnvelope) : AppStateEnvelope :=
  mkAppStateEnvelope (cado_cache e) (cado_cache_to_delete e) (pinboard_meta_cache e)
    (pinboard_refcount_deltas e) (pinboard_idx_wallet_add e) v (pinboard_idx_expiry_add e)
    (pinboard_idx_commit_add e) (verified_proof_rewarded_cache e) (failed_proof_counted_cache
    e) (namespace_registry_cache e) (namespace_registry_index e) (pending_fee_rewards e)
    (block_height e) (current_epoch e) (committed_cado_cache e) (epoch_records_index e)
    (state_trie e) (validators e) (active_validators e) (capacity_validators e)
    (active_capacity_validator e) (failed_proof_counts e).
Definition set_pinboard_idx_expiry_add (v : list (Z * string)) (e : AppStateEnvelope) : AppStateEnvelope :=
  mkAppStateEnvelope (cado_cache e) (cado_cache_to_delete e) (pinboard_meta_cache e)
    (pinboard_refcount_deltas e) (pinboard_idx_wallet_add e) (pinboard_idx_tag_add e) v
    (pinboard_idx_commit_add e) (verified_proof_rewarded_cache e) (failed_proof_counted_cache
    e) (namespace_registry_cache e) (namespace_registry_index e) (pending_fee_rewards e)
    (block_height e) (current_epoch e) (committed_cado_cache e) (epoch_records_index e)
    (state_trie e) (validators e) (active_validators e) (capacity_validators e)
    (active_capacity_validator e) (failed_proof_counts e).
Definition set_pinboard_idx_commit_add (v : list (Z * string)) (e : AppStateEnvelope) : AppStateEnvelope :=
  mkAppStateEnvelope (cado_cache e) (cado_cache_to_delete e) (pinboard_meta_cache e)
    (pinboard_refcount_deltas e) (pinboard_idx_wallet_add e) (pinboard_idx_tag_add e)
    (pinboard_idx_expiry_add e) v (verified_proof_rewarded_cache e)
    (failed_proof_counted_cache e) (namespace_registry_cache e) (namespace_registry_index e)
    (pending_fee_rewards e) (block_height e) (current_epoch e) (committed_cado_cache e)
    (epoch_records_index e) (state_trie e) (validators e) (active_validators e)
    (capacity_validators e) (active_capacity_validator e) (failed_proof_counts e).
Definition set_verified_proof_rewarded_cache (v : gset string) (e : AppStateEnvelope) : AppStateEnvelope :=
  mkAppStateEnvelope (cado_cache e) (cado_cache_to_delete e) (pinboard_meta_cache e)
    (pinboard_refcount_deltas e) (pinboard_idx_wallet_add e) (pinboard_idx_tag_add e)
    (pinboard_idx_expiry_add e) (pinboard_idx_commit_add e) v (failed_proof_counted_cache e)
    (namespace_registry_cache e) (namespace_registry_index e) (pending_fee_rewards e)
    (block_height e) (current_epoch e) (committed_cado_cache e) (epoch_records_index e)
    (state_trie e) (validators e) (active_validators e) (capacity_validators e)
    (active_capacity_validator e) (failed_proof_counts e).
Definition set_failed_proof_counted_cache (v : gset string) (e : AppStateEnvelope) : AppStateEnvelope :=
  mkAppStateEnvelope (cado_cache e) (cado_cache_to_delete e) (pinboard_meta_cache e)
    (pinboard_refcount_deltas e) (pinboard_idx_wallet_add e) (pinboard_idx_tag_add e)
    (pinboard_idx_expiry_add e) (pinboard_idx_commit_add e) (verified_proof_rewarded_cache e)
    v (namespace_registry_cache e) (namespace_registry_index e) (pending_fee_rewards e)
    (block_height e) (current_epoch e) (committed_cado_cache e) (epoch_records_index e)
    (state_trie e) (validators e) (active_validators e) (capacity_validators e)
    (active_capacity_validator e) (failed_proof_counts e).
Definition set_namespace_registry_cache (v : gmap string NamespaceRecord) (e : AppStateEnvelope) : AppStateEnvelope :=
  mkAppStateEnvelope (cado_cache e) (cado_cache_to_delete e) (pinboard_meta_cache e)
    (pinboard_refcount_deltas e) (pinboard_idx_wallet_add e) (pinboard_idx_tag_add e)
    (pinboard_idx_expiry_add e) (pinboard_idx_commit_add e) (verified_proof_rewarded_cache e)
    (failed_proof_counted_cache e) v (namespace_registry_index e) (pending_fee_rewards e)
    (block_height e) (current_epoch e) (committed_cado_cache e) (epoch_records_index e)
    (state_trie e) (validators e) (active_validators e) (capacity_validators e)
    (active_capacity_validator e) (failed_proof_counts e).
Definition set_namespace_registry_index (v : gmap string NamespaceRecord) (e : AppStateEnvelope) : AppStateEnvelope :=
  mkAppStateEnvelope (cado_cache e) (cado_cache_to_delete e) (pinboard_meta_cache e)
    (pinboard_refcount_deltas e) (pinboard_idx_wallet_add e) (pinboard_idx_tag_add e)
    (pinboard_idx_expiry_add e) (pinboard_idx_commit_add e) (verified_proof_rewarded_cache e)
    (failed_proof_counted_cache e) (namespace_registry_cache e) v (pending_fee_rewards e)
    (block_height e) (current_epoch e) (committed_cado_cache e) (epoch_records_index e)
    (state_trie e) (validators e) (active_validators e) (capacity_validators e)
    (active_capacity_validator e) (failed_proof_counts e).
Definition set_block_height (v : Z) (e : AppStateEnvelope) : AppStateEnvelope :=
  mkAppStateEnvelope (cado_cache e) (cado_cache_to_delete e) (pinboard_meta_cache e)
    (pinboard_refcount_deltas e) (pinboard_idx_wallet_add e) (pinboard_idx_tag_add e)
    (pinboard_idx_expiry_add e) (pinboard_idx_commit_add e) (verified_proof_rewarded_cache e)
    (failed_proof_counted_cache e) (namespace_registry_cache e) (namespace_registry_index e)
    (pending_fee_rewards e) v (current_epoch e) (committed_cado_cache e) (epoch_records_index
    e) (state_trie e) (validators e) (active_validators e) (capacity_validators e)
    (active_capacity_validator e) (failed_proof_counts e).
Definition set_current_epoch (v : Z) (e : AppStateEnvelope) : AppStateEnvelope :=
  mkAppStateEnvelope (cado_cache e) (cado_cache_to_delete e) (pinboard_meta_cache e)
    (pinboard_refcount_deltas e) (pinboard_idx_wallet_add e) (pinboard_idx_tag_add e)
    (pinboard_idx_expiry_add e) (pinboard_idx_commit_add e) (verified_proof_rewarded_cache e)
    (failed_proof_counted_cache e) (namespace_registry_cache e) (namespace_registry_index e)
    (pending_fee_rewards e) (block_height e) v (committed_cado_cache e) (epoch_records_index
    e) (state_trie e) (validators e) (active_validators e) (capacity_validators e)
    (active_capacity_validator e) (failed_proof_counts e).
Definition set_committed_cado_cache (v : gmap string CadoBody) (e : AppStateEnvelope) : AppStateEnvelope :=
  mkAppStateEnvelope (cado_cache e) (cado_cache_to_delete e) (pinboard_meta_cache e)
    (pinboard_refcount_deltas e) (pinboard_idx_wallet_add e) (pinboard_idx_tag_add e)
    (pinboard_idx_expiry_add e) (pinboard_idx_commit_add e) (verified_proof_rewarded_cache e)
    (failed_proof_counted_cache e) (namespace_registry_cache e) (namespace_registry_index e)
    (pending_fee_rewards e) (block_height e) (current_epoch e) v (epoch_records_index e)
    (state_trie e) (validators e) (active_validators e) (capacity_validators e)
    (active_capacity_validator e) (failed_proof_counts e).
Definition set_epoch_records_index (v : gset Z) (e : AppStateEnvelope) : AppStateEnvelope :=
  mkAppStateEnvelope (cado_cache e) (cado_cache_to_delete e) (pinboard_meta_cache e)
    (pinboard_refcount_deltas e) (pinboard_idx_wallet_add e) (pinboard_idx_tag_add e)
    (pinboard_idx_expiry_add e) (pinboard_idx_commit_add e) (verified_proof_rewarded_cache e)
    (failed_proof_counted_cache e) (namespace_registry_cache e) (namespace_registry_index e)
    (pending_fee_rewards e) (block_height e) (current_epoch e) (committed_cado_cache e) v
    (state_trie e) (validators e) (active_validators e) (capacity_validators e)
    (active_capacity_validator e) (failed_proof_counts e).
Definition set_state_trie (v : StateTrie) (e : AppStateEnvelope) : AppStateEnvelope :=
  mkAppStateEnvelope (cado_cache e) (cado_cache_to_delete e) (pinboard_meta_cache e)
    (pinboard_refcount_deltas e) (pinboard_idx_wallet_add e) (pinboard_idx_tag_add e)
    (pinboard_idx_expiry_add e) (pinboard_idx_commit_add e) (verified_proof_rewarded_cache e)
    (failed_proof_counted_cache e) (namespace_registry_cache e) (namespace_registry_index e)
    (pending_fee_rewards e) (block_height e) (current_epoch e) (committed_cado_cache e)
    (epoch_records_index e) v (validators e) (active_validators e) (capacity_validators e)
    (active_capacity_validator e) (failed_proof_counts e).
Definition set_validators (v : list ValidatorInfo) (e : AppStateEnvelope) : AppStateEnvelope :=
  mkAppStateEnvelope (cado_cache e) (cado_cache_to_delete e) (pinboard_meta_cache e)
    (pinboard_refcount_deltas e) (pinboard_idx_wallet_add e) (pinboard_idx_tag_add e)
    (pinboard_idx_expiry_add e) (pinboard_idx_commit_add e) (verified_proof_rewarded_cache e)
    (failed_proof_counted_cache e) (namespace_registry_cache e) (namespace_registry_index e)
    (pending_fee_rewards e) (block_height e) (current_epoch e) (committed_cado_cache e)
    (epoch_records_index e) (state_trie e) v (active_validators e) (capacity_validators e)
    (active_capacity_validator e) (failed_proof_counts e).
Definition set_active_validators (v : list ValidatorInfo) (e : AppStateEnvelope) : AppStateEnvelope :=
  mkAppStateEnvelope (cado_cache e) (cado_cache_to_delete e) (pinboard_meta_cache e)
    (pinboard_refcount_deltas e) (pinboard_idx_wallet_add e) (pinboard_idx_tag_add e)
    (pinboard_idx_expiry_add e) (pinboard_idx_commit_add e) (verified_proof_rewarded_cache e)
    (failed_proof_counted_cache e) (namespace_registry_cache e) (namespace_registry_index e)
    (pending_fee_rewards e) (block_height e) (current_epoch e) (committed_cado_cache e)
    (epoch_records_index e) (state_trie e) (validators e) v (capacity_validators e)
    (active_capacity_validator e) (failed_proof_counts e).
Definition set_capacity_validators (v : list CapacityValidatorInfo) (e : AppStateEnvelope) : AppStateEnvelope :=
  mkAppStateEnvelope (cado_cache e) (cado_cache_to_delete e) (pinboard_meta_cache e)
    (pinboard_refcount_deltas e) (pinboard_idx_wallet_add e) (pinboard_idx_tag_add e)
    (pinboard_idx_expiry_add e) (pinboard_idx_commit_add e) (verified_proof_rewarded_cache e)
    (failed_proof_counted_cache e) (namespace_registry_cache e) (namespace_registry_index e)
    (pending_fee_rewards e) (block_height e) (current_epoch e) (committed_cado_cache e)
    (epoch_records_index e) (state_trie e) (validators e) (active_validators e) v
    (active_capacity_validator e) (failed_proof_counts e).
Definition set_active_capacity_validator (v : option ActiveCapacityValidator) (e : AppStateEnvelope) : AppStateEnvelope :=
  mkAppStateEnvelope (cado_cache e) (cado_cache_to_delete e) (pinboard_meta_cache e)
    (pinboard_refcount_deltas e) (pinboard_idx_wallet_add e) (pinboard_idx_tag_add e)
    (pinboard_idx_expiry_add e) (pinboard_idx_commit_add e) (verified_proof_rewarded_cache e)
    (failed_proof_counted_cache e) (namespace_registry_cache e) (namespace_registry_index e)
    (pending_fee_rewards e) (block_height e) (current_epoch e) (committed_cado_cache e)
    (epoch_records_index e) (state_trie e) (validators e) (active_validators e)
    (capacity_validators e) v (failed_proof_counts e).
Definition set_failed_proof_counts (v : gmap Address Z) (e : AppStateEnvelope) : AppStateEnvelope :=
  mkAppStateEnvelope (cado_cache e) (cado_cache_to_delete e) (pinboard_meta_cache e)
    (pinboard_refcount_deltas e) (pinboard_idx_wallet_add e) (pinboard_idx_tag_add e)
    (pinboard_idx_expiry_add e) (pinboard_idx_commit_add e) (verified_proof_rewarded_cache e)
    (failed_proof_counted_cache e) (namespace_registry_cache e) (namespace_registry_index e)
    (pending_fee_rewards e) (block_height e) (current_epoch e) (committed_cado_cache e)
    (epoch_records_index e) (state_trie e) (validators e) (active_validators e)
    (capacity_validators e) (active_capacity_validator e) v.

(** [AppStateEnvelope::default()]. *)
Definition envelope_default : AppStateEnvelope :=
  mkAppStateEnvelope ∅ [] ∅ ∅ [] [] [] [] ∅ ∅ ∅ ∅ Coin_zero 0 0 ∅ ∅ ∅ [] [] [] None ∅.

(** ** Reads of the storage backend *)

(** What consensus reads from storage while a block is delivered; nothing is
    written before [commit]. *)
Record StorageReads : Type := mkStorageReads {
  get_cado_by_path : CadoPath → eld_result (option CadoBody);
  storage_challenge_rewarded : string → eld_result bool;
  storage_challenge_failed : string → eld_result bool;
  get_pinboard_temp_blob : string → eld_result (option bytes);
}.

Section envelope.
Context {H : HexCrate} {HC : HashCrates} {C : RecordCodecs} (rd : StorageReads).

Definition update_cado_cache (path : CadoPath) (cado : CadoBody) (e : AppStateEnvelope) :
    AppStateEnvelope :=
  if is_infrastructure path then e
  else set_cado_cache (<[cp_path path := cado]> (cado_cache e)) e.

Definition has_cado_in_working_set (e : AppStateEnvelope) (path : CadoPath) : bool :=
  bool_decide (is_Some (cado_cache e !! cp_path path)) ||
  bool_decide (is_Some (committed_cado_cache e !! cp_path path)).

Definition is_verified_proof_challenge_rewarded (e : AppStateEnvelope) (challenge_id : string) :
    eld_result bool :=
  if bool_decide (challenge_id ∈ verified_proof_rewarded_cache e) then Ok true
  else storage_challenge_rewarded rd challenge_id.

Definition is_verified_proof_challenge_failed (e : AppStateEnvelope) (challenge_id : string) :
    eld_result bool :=
  if bool_decide (challenge_id ∈ failed_proof_counted_cache e) then Ok true
  else storage_challenge_failed rd challenge_id.

Definition lookup_cado_staged_committed_then_db (e : AppStateEnvelope) (path : CadoPath) :
    option CadoBody :=
  match cado_cache e !! cp_path path with
  | Some cado => Some cado
  | None =>
      match committed_cado_cache e !! cp_path path with
      | Some cado => Some cado
      | None =>
          match get_cado_by_path rd path with
          | Ok (Some cado) => Some cado
          | Ok None => None
          | Err _ => None
          end
      end
  end.

Definition get_cado_instance {I} `{Bincode I} (e : AppStateEnvelope) (path : CadoPath) :
    eld_result (option (I * byte_array 32)) :=
  match lookup_cado_staged_committed_then_db e path with
  | Some (Mutable m) =>
      match safe_deserialize_cado_data (cadomut_data m) with
      | Ok instance => Ok (Some (instance, cadomut_hash m))
      | Err _ => Ok None
      end
  | Some (Immutable c) =>
      match safe_deserialize_cado_data (cado_data c) with
      | Ok instance => Ok (Some (instance, cado_hash c))
      | Err _ => Ok None
      end
  | None => Ok None
  end.

(** [AccountWithCadoHash] and [StakingAccountWithCadoHash] are pairs. *)
Definition get_staking_account_from_cado (e : AppStateEnvelope) (path : CadoPath) :
    option (StakingAccount * byte_array 32) :=
  match lookup_cado_staged_committed_then_db e path with
  | Some (Mutable m) =>
      match safe_deserialize_account_data (cadomut_data m) with
      | Ok account => Some (account, cadomut_hash m)
      | Err _ => None
      end
  | _ => None
  end.

Definition get_account_from_cado (e : AppStateEnvelope) (path : CadoPath) :
    option (Account * byte_array 32) :=
  match lookup_cado_staged_committed_then_db e path with
  | Some (Mutable m) =>
      match safe_deserialize_account_data (cadomut_data m) with
      | Ok account => Some (account, cadomut_hash m)
      | Err _ => None
      end
  | _ => None
  end.

(** *** Namespace registry *)

Definition is_namespace_registered_on_chain (e : AppStateEnvelope) (namespace_slug : string) :
    eld_result bool :=
  let? path := slug_to_namespace_cadopath namespace_slug in
  Ok (bool_decide (is_Some (committed_cado_cache e !! cp_path path))).

Definition validate_add_namespace_not_taken (e : AppStateEnvelope) (namespace_slug : string) :
    eld_result unit :=
  let? canonical := normalize_namespace_slug namespace_slug in
  if bool_decide (is_Some (namespace_registry_cache e !! canonical))
  then Err (ValidationError "namespace_slug")
  else
    let? on_chain := is_namespace_registered_on_chain e canonical in
    if (on_chain : bool) then Err (ValidationError "namespace_slug") else Ok tt.

Definition is_namespace_registered (e : AppStateEnvelope) (namespace_slug : string) :
    eld_result bool :=
  let? canonical := normalize_namespace_slug namespace_slug in
  if bool_decide (is_Some (namespace_registry_cache e !! canonical)) then Ok true
  else is_namespace_registered_on_chain e canonical.

Definition resolve_namespace (e : AppStateEnvelope) (namespace_slug : string) :
    eld_result (option NamespaceRecord) :=
  let? canonical := normalize_namespace_slug namespace_slug in
  match namespace_registry_cache e !! canonical with
  | Some record => Ok (Some record)
  | None =>
      let? path := slug_to_namespace_cadopath canonical in
      match committed_cado_cache e !! cp_path path with
      | None => Ok None
      | Some cado =>
          let? record := NamespaceRecord_deserialize_bin (CadoBody_data cado) in
          Ok (Some record)
      end
  end.

Definition PATH_PREFIX_NAMESPACE_REGISTRY : string := "/@eld/namespace/".
Definition PATH_PREFIX_EPOCH_RECORD : string := "/@eld/epoch_record/".

(** [str::strip_prefix] *)
Definition strip_prefix (p s : string) : option string :=
  if starts_with p s then Some (string_drop (String.length p) s) else None.

Definition namespace_slug_from_registry_path (path_str : string) : option string :=
  match strip_prefix PATH_PREFIX_NAMESPACE_REGISTRY path_str with
  | None => None
  | Some slug => if String.eqb slug EmptyString then None else Some slug
  end.

(** Rebuild of the slug index from the committed cache. *)
Definition namespace_registry_index_from_committed_cache (cache : gmap string CadoBody) :
    eld_result (gmap string NamespaceRecord) :=
  try_fold (λ index '(path_str, cado),
    match namespace_slug_from_registry_path path_str with
    | None => Ok index
    | Some slug =>
        match cado with
        | Mutable _ => Ok index
        | Immutable immutable =>
            let? record := NamespaceRecord_deserialize_bin (cado_data immutable) in
            Ok (<[slug := record]> index)
        end
    end) ∅ (map_to_list cache).

Definition rebuild_namespace_registry_index (e : AppStateEnvelope) : eld_result AppStateEnvelope :=
  let? index := namespace_registry_index_from_committed_cache (committed_cado_cache e) in
  Ok (set_namespace_registry_index index e).

(** [collect_namespace_records]: committed records overridden by staged ones. *)
Definition collect_namespace_records (e : AppStateEnvelope) (current : option AppStateEnvelope) :
    eld_result (gmap string NamespaceRecord) :=
  let? by_slug :=
    (if bool_decide (namespace_registry_index e = ∅) &&
        negb (bool_decide (committed_cado_cache e = ∅))
     then namespace_registry_index_from_committed_cache (committed_cado_cache e)
     else Ok (namespace_registry_index e)) in
  match current with
  | None => Ok by_slug
  | Some cur => Ok (namespace_registry_cache cur ∪ by_slug)
  end.

(** *** Epoch records *)

Definition epoch_number_from_record_path (path_str : string) : option Z :=
  match strip_prefix PATH_PREFIX_EPOCH_RECORD path_str with
  | None => None
  | Some name => epoch_from_record_path_name name
  end.

Definition insert_epoch_records_index_from_path (path_str : string) (e : AppStateEnvelope) :
    AppStateEnvelope :=
  match epoch_number_from_record_path path_str with
  | Some epoch => set_epoch_records_index ({[epoch]} ∪ epoch_records_index e) e
  | None => e
  end.

Definition epoch_numbers_from_committed_cache (cache : gmap string CadoBody) : gset Z :=
  list_to_set (omap epoch_number_from_record_path (map_to_list cache).*1).

Definition rebuild_epoch_records_index (e : AppStateEnvelope) : AppStateEnvelope :=
  set_epoch_records_index (epoch_numbers_from_committed_cache (committed_cado_cache e)) e.

Definition collect_epoch_numbers (e : AppStateEnvelope) (current : option AppStateEnvelope) :
    gset Z :=
  let epochs :=
    if bool_decide (epoch_records_index e = ∅) &&
       negb (bool_decide (committed_cado_cache e = ∅))
    then epoch_numbers_from_committed_cache (committed_cado_cache e)
    else epoch_records_index e in
  match current with
  | None => epochs
  | Some cur =>
      list_to_set (omap epoch_number_from_record_path (map_to_list (cado_cache cur)).*1) ∪ epochs
  end.

Definition get_epoch_record (e : AppStateEnvelope) (epoch : Z) :
    eld_result (option EpochRecord) :=
  let? epoch_key := epoch_record_path_name epoch in
  let? path := CadoPath_new Cado_EpochRecord (Key_Name epoch_key) in
  match lookup_cado_staged_committed_then_db e path with
  | None => Ok None
  | Some cado =>
      let? record := EpochRecord_deserialize_bin (CadoBody_data cado) in
      Ok (Some record)
  end.

(** *** Trie maintenance *)

Definition init_empty_trie (e : AppStateEnvelope) : AppStateEnvelope :=
  set_state_trie StateTrie_empty e.

Definition rebuild_state_trie_from_cache (e : AppStateEnvelope) : AppStateEnvelope :=
  set_state_trie (content_hash <$> committed_cado_cache e) e.

(** [CommittedCadoCache::without_infrastructure] *)
Definition without_infrastructure (cache : gmap string CadoBody) : gmap string CadoBody :=
  filter (λ kv, is_infrastructure_cado_path kv.1 = false) cache.
End envelope.

(** ** Application hash *)

(** Byte streams written by [std::hash::Hash] into the collecting hasher:
    integers in little-endian order, slices behind their length, strings
    closed by [0xff], options behind their discriminant. *)
Definition hash_u64 (n : Z) : bytes := le_bytes 8 n.
Definition hash_i64 (n : Z) : bytes := le_bytes 8 (as_u64 n).
Definition hash_u32 (n : Z) : bytes := le_bytes 4 n.
Definition hash_u128 (n : Z) : bytes := le_bytes 16 n.
Definition hash_slice {A} (f : A → bytes) (l : list A) : bytes :=
  hash_u64 (Z.of_nat (length l)) ++ concat (map f l).
Definition hash_bytes_slice (l : bytes) : bytes := hash_u64 (Z.of_nat (length l)) ++ l.
Definition hash_str (s : string) : bytes := as_bytes s ++ [Init.Byte.xff].
Definition hash_option {A} (f : A → bytes) (o : option A) : bytes :=
  match o with
  | None => hash_u64 0
  | Some a => hash_u64 1 ++ f a
  end.

Definition hash_address (a : Address) : bytes := hash_bytes_slice (addr_value a).
Definition hash_coin (c : Coin) : bytes := hash_u128 (coin_amount c).
Definition hash_array32 (b : byte_array 32) : bytes := hash_bytes_slice b.

Definition hash_validator (v : ValidatorInfo) : bytes :=
  hash_address (val_address v) ++ hash_coin (val_stake v) ++ hash_bytes_slice (val_public_key v).

Definition hash_capacity_validator (v : CapacityValidatorInfo) : bytes :=
  hash_address (cv_address v) ++ hash_coin (cv_stake v) ++
  hash_array32 (pk_bytes (cv_public_key v)) ++ hash_u64 (cv_storage_capacity v) ++
  hash_option hash_array32 (cv_merkle_root v) ++ hash_option hash_array32 (cv_seed v) ++
  hash_option hash_u32 (cv_chunk_count v) ++ hash_option hash_u64 (cv_registered_at v) ++
  hash_option hash_u64 (cv_last_merkle_root_update v) ++
  hash_u64 (cv_registered_block v) ++ hash_u64 (cv_registration_duration v).

Definition hash_active_capacity_validator (v : ActiveCapacityValidator) : bytes :=
  hash_address (acv_validator_address v) ++ hash_i64 (acv_epoch v) ++
  hash_slice hash_address (acv_challenged_providers v) ++
  hash_slice hash_str (acv_subscribed_topics v).

(** A [BTreeMap] hashes its length and its entries in key order. *)
Definition sorted_counts (m : gmap Address Z) : list (Address * Z) :=
  merge_sort (λ x y, Address_compare x.1 y.1 ≠ Gt) (map_to_list m).

Definition hash_failed_counts (m : gmap Address Z) : bytes :=
  hash_slice (λ kv, hash_address kv.1 ++ hash_u32 kv.2) (sorted_counts m).

Section app_hash.
Context {HC : HashCrates} {T : TrieCrate}.

(** [impl Hash for AppStateEnvelope] *)
Definition envelope_hash_stream (e : AppStateEnvelope) : bytes :=
  hash_i64 (block_height e) ++ hash_i64 (current_epoch e) ++
  hash_array32 (root_hash (state_trie e)) ++
  concat (map hash_validator (validators e)) ++
  concat (map hash_validator (active_validators e)) ++
  concat (map hash_capacity_validator (capacity_validators e)) ++
  match active_capacity_validator e with
  | Some v => hash_active_capacity_validator v
  | None => []
  end ++
  hash_failed_counts (failed_proof_counts e).

Definition calculate_app_hash (e : AppStateEnvelope) : byte_array 32 :=
  sha256 (envelope_hash_stream e).
End app_hash.

(** ** AppState and tip *)

(** [struct AppHash { data: Option<[u8; 32]> }] *)
Definition AppHash : Type := option (byte_array 32).
Definition AppHash_bytes (h : AppHash) : eld_result (byte_array 32) :=
  ok_or h (ValidationError "app_hash").
Definition AppHash_to_vec (h : AppHash) : bytes :=
  match h with Some b => vec_to_list b | None => [] end.

Record AppState : Type := mkAppState {
  app_hash : AppHash;
  envelope : AppStateEnvelope;
  chain_id : string;
}.

Definition set_app_hash (b : byte_array 32) (s : AppState) : AppState :=
  mkAppState (Some b) (envelope s) (chain_id s).
Definition set_envelope (e : AppStateEnvelope) (s : AppState) : AppState :=
  mkAppState (app_hash s) e (chain_id s).

Record AppStateTip : Type := mkAppStateTip {
  tip_block_height : Z;
  tip_cado_root_hash : byte_array 32;
  tip_app_hash : byte_array 32;
}.

Definition AppStateTip_genesis {HC : HashCrates} {T : TrieCrate} : AppStateTip :=
  mkAppStateTip 0 (root_hash StateTrie_empty) (sha256 (as_bytes "genesis")).

(** ** Lemmas *)

Section lookup_facts.
Context {H : HexCrate} {HC : HashCrates} {C : RecordCodecs} (rd : StorageReads).

Lemma update_cado_cache_eld t name cado e :
  str_in INFRASTRUCTURE_CADO_TYPES (CadoType_as_str t) = false →
  update_cado_cache (eld_path t name) cado e =
  set_cado_cache (<[cp_path (eld_path t name) := cado]> (cado_cache e)) e.
Proof. unfold update_cado_cache, is_infrastructure. simpl. by intros ->. Qed.

Lemma lookup_staged_insert e p cado :
  lookup_cado_staged_committed_then_db rd
    (set_cado_cache (<[cp_path p := cado]> (cado_cache e)) e) p = Some cado.
Proof. unfold lookup_cado_staged_committed_then_db. simpl. by rewrite lookup_insert_eq. Qed.

Lemma lookup_staged_insert_ne e p q cado :
  cp_path p ≠ cp_path q →
  lookup_cado_staged_committed_then_db rd
    (set_cado_cache (<[cp_path p := cado]> (cado_cache e)) e) q =
  lookup_cado_staged_committed_then_db rd e q.
Proof.
  intros Hne. unfold lookup_cado_staged_committed_then_db. simpl. by rewrite lookup_insert_ne.
Qed.
End lookup_facts.
