(* ===== verification/Ledger.v ===== *)
(** Account and staking-account views of the envelope: the read-modify-write
    steps the transaction processors share, and the algebra of balances they
    satisfy.  The processors of [Processors.v] and [VerifiedProof.v] are built
    from these steps; their theorems are proved against the laws here. *)
From S2P Require Import Prelude Externals Reference Coins Address Namespace Cado Records Pinboard AppState.

(** ** Responses *)

Record Event : Type := mkEvent {
  event_type : string;
  event_attributes : list (string * string);
}.

(** [ResponseDeliverTx]; the [log] and [codespace] texts are left out. *)
Record ResponseDeliverTx : Type := mkResponseDeliverTx {
  resp_code : Z;
  resp_events : list Event;
  resp_gas_wanted : Z;
  resp_gas_used : Z;
}.

Definition resp_error (code : Z) : ResponseDeliverTx := mkResponseDeliverTx code [] 0 0.
Definition resp_ok (events : list Event) : ResponseDeliverTx := mkResponseDeliverTx 0 events 0 0.

(** errors.rs, one constant per constructor used by delivery. *)
Definition response_deliver_tx_error_insufficient_stake := resp_error 1.
Definition response_deliver_tx_error_minimum_stake := resp_error 2.
Definition response_deliver_tx_error_nonce_not_sequential := resp_error 3.
Definition response_deliver_tx_error_insufficient_funds := resp_error 5.
Definition response_deliver_tx_error_nonce_overflow := resp_error 6.
Definition response_deliver_tx_error_tx_too_large := resp_error 8.
Definition response_deliver_tx_error_sender_doesnt_exist := resp_error 9.
Definition response_deliver_tx_error_insufficient_fee := resp_error 12.
Definition response_deliver_tx_error_verification_failed := resp_error 13.
Definition response_deliver_tx_error_validation_failed := resp_error 51.
Definition response_deliver_tx_error_json_parsing_failed := resp_error 52.
Definition response_deliver_tx_error_invalid_public_key_format := resp_error 56.
Definition response_deliver_tx_error_invalid_public_key_length := resp_error 57.
Definition response_deliver_tx_error_internal_lock_failed := resp_error 61.
Definition response_deliver_tx_error_invalid_utf8_encoding := resp_error 62.
Definition response_deliver_tx_error_invalid_hex_encoding := resp_error 63.
Definition response_deliver_tx_error_invalid_path_format := resp_error 64.
Definition response_deliver_tx_error_invalid_coin_amount := resp_error 65.
Definition response_deliver_tx_error_fee_validation_failed := resp_error 66.
Definition response_deliver_tx_error_hex_validation_failed := resp_error 71.
Definition response_deliver_tx_error_json_validation_failed := resp_error 72.
Definition response_deliver_tx_error_transaction_structure_invalid := resp_error 73.
Definition response_deliver_tx_error_fee_calculation_failed := resp_error 74.

(** ** Steps *)

Abbreviation env_handler := (handler AppStateEnvelope ResponseDeliverTx).

Section steps.
Context {H : HexCrate} {HC : HashCrates} {C : RecordCodecs} (rd : StorageReads).

(** The digest a new account starts from. *)
Definition zero_hash : byte_array 32 := vreplicate 32 Init.Byte.x00.

(** Serialize an account and stage it at its owner's path, keeping the
    original digest: [bincode::serialize(..)], [CADOMetadata::new],
    [CadoBody::mutable_updated], [update_cado_cache]. *)
Definition stage_account (owner : Address) (hash : byte_array 32) (a : Account) :
    env_handler unit :=
  path ← expect (CadoPath_new Cado_Account (Key_Address owner));
  serialized ← expect (Account_serialize_bin a);
  modify (update_cado_cache path
    (CadoBody_mutable_updated hash serialized
       (CADOMetadata_new Cado_Account (hex_with_prefix owner)))).

Definition stage_staking_account (owner : Address) (hash : byte_array 32) (a : StakingAccount) :
    env_handler unit :=
  path ← expect (CadoPath_new Cado_StakingAccount (Key_Address owner));
  serialized ← expect (StakingAccount_serialize_bin a);
  modify (update_cado_cache path
    (CadoBody_mutable_updated hash serialized
       (CADOMetadata_new Cado_StakingAccount (hex_with_prefix owner)))).

(** Read the account at an address; the path constructor cannot fail there. *)
Definition read_account (owner : Address) : env_handler (option (Account * byte_array 32)) :=
  path ← expect (CadoPath_new Cado_Account (Key_Address owner));
  e ← get_state;
  mret (get_account_from_cado rd e path).

Definition read_staking_account (owner : Address) :
    env_handler (option (StakingAccount * byte_array 32)) :=
  path ← expect (CadoPath_new Cado_StakingAccount (Key_Address owner));
  e ← get_state;
  mret (get_staking_account_from_cado rd e path).
End steps.

(** ** Views *)

Section views.
Context {H : HexCrate} {HL : HexLaws H} {HC : HashCrates} {C : RecordCodecs}
  {CL : RecordCodecsLaws C} (rd : StorageReads).

Definition account_path (a : Address) : CadoPath := eld_path Cado_Account (hex_with_prefix a).
Definition staking_path (a : Address) : CadoPath :=
  eld_path Cado_StakingAccount (hex_with_prefix a).

(** The account an envelope shows at an address, and its digest. *)
Definition account_at (e : AppStateEnvelope) (a : Address) : option (Account * byte_array 32) :=
  get_account_from_cado rd e (account_path a).
Definition staking_at (e : AppStateEnvelope) (a : Address) :
    option (StakingAccount * byte_array 32) :=
  get_staking_account_from_cado rd e (staking_path a).

(** Spendable and staked base units of an address. *)
Definition balance_of (e : AppStateEnvelope) (a : Address) : Z :=
  match account_at e a with Some (acc, _) => coin_amount (acc_balance acc) | None => 0 end.
Definition stake_of (e : AppStateEnvelope) (a : Address) : Z :=
  match staking_at e a with Some (s, _) => coin_amount (sa_stake_balance s) | None => 0 end.
Definition nonce_of (e : AppStateEnvelope) (a : Address) : option Nonce :=
  match account_at e a with Some (acc, _) => Some (acc_nonce acc) | None => None end.

(** Total of a list of addresses, spendable plus staked. *)
Definition holdings (e : AppStateEnvelope) (l : list Address) : Z :=
  foldr (λ a n, balance_of e a + stake_of e a + n) 0 l.

(** Every stored account is at its own address and within the machine
    ranges: what reads rely on. *)
Definition ledger_wf (e : AppStateEnvelope) : Prop :=
  (∀ a acc h, account_at e a = Some (acc, h) → acc_address acc = a ∧ Account_wf acc) ∧
  (∀ a s h, staking_at e a = Some (s, h) → sa_address s = a ∧ StakingAccount_wf s).

Lemma account_paths_distinct a b : a ≠ b → cp_path (account_path a) ≠ cp_path (account_path b).
Proof.
  intros Hab Hp. destruct (CadoPath_new_inj Cado_Account (Key_Address a) (account_path a)
    Cado_Account (Key_Address b) (account_path b)) as [_ E];
    [by apply CadoPath_new_address..|done|].
  by apply (f_equal cp_name), hex_with_prefix_inj in E.
Qed.

Lemma staking_paths_distinct a b : a ≠ b → cp_path (staking_path a) ≠ cp_path (staking_path b).
Proof.
  intros Hab Hp. destruct (CadoPath_new_inj Cado_StakingAccount (Key_Address a) (staking_path a)
    Cado_StakingAccount (Key_Address b) (staking_path b)) as [_ E];
    [by apply CadoPath_new_address..|done|].
  by apply (f_equal cp_name), hex_with_prefix_inj in E.
Qed.

Lemma account_staking_paths_distinct a b :
  cp_path (account_path a) ≠ cp_path (staking_path b).
Proof.
  intros Hp. destruct (CadoPath_new_inj Cado_Account (Key_Address a) (account_path a)
    Cado_StakingAccount (Key_Address b) (staking_path b)) as [E _];
    [by apply CadoPath_new_address..|done|done].
Qed.

(** An envelope with an account staged. *)
Definition with_account (owner : Address) (hash : byte_array 32) (acc : Account)
    (e : AppStateEnvelope) : AppStateEnvelope :=
  set_cado_cache (<[cp_path (account_path owner) :=
    CadoBody_mutable_updated hash (default [] (bin_serialize acc))
      (CADOMetadata_new Cado_Account (hex_with_prefix owner))]> (cado_cache e)) e.

Definition with_staking (owner : Address) (hash : byte_array 32) (s : StakingAccount)
    (e : AppStateEnvelope) : AppStateEnvelope :=
  set_cado_cache (<[cp_path (staking_path owner) :=
    CadoBody_mutable_updated hash (default [] (bin_serialize s))
      (CADOMetadata_new Cado_StakingAccount (hex_with_prefix owner))]> (cado_cache e)) e.

Lemma stage_account_run owner hash acc e :
  Account_wf acc → stage_account owner hash acc e = Next tt (with_account owner hash acc e).
Proof.
  intros Hwf. unfold stage_account. flow_step.
  rewrite CadoPath_new_address by done. unfold Account_serialize_bin.
  destruct (bin_roundtrip acc Hwf) as (b & Es & _). rewrite Es. simpl.
  unfold with_account. rewrite Es. by rewrite update_cado_cache_eld.
Qed.

Lemma stage_staking_account_run owner hash s e :
  StakingAccount_wf s →
  stage_staking_account owner hash s e = Next tt (with_staking owner hash s e).
Proof.
  intros Hwf. unfold stage_staking_account. flow_step.
  rewrite CadoPath_new_address by done. unfold StakingAccount_serialize_bin.
  destruct (bin_roundtrip s Hwf) as (b & Es & _). rewrite Es. simpl.
  unfold with_staking. rewrite Es. by rewrite update_cado_cache_eld.
Qed.

Lemma read_account_run owner e : read_account rd owner e = Next (account_at e owner) e.
Proof. unfold read_account. flow_step. by rewrite CadoPath_new_address. Qed.

Lemma read_staking_account_run owner e :
  read_staking_account rd owner e = Next (staking_at e owner) e.
Proof. unfold read_staking_account. flow_step. by rewrite CadoPath_new_address. Qed.

(** *** Reads after writes *)

Lemma account_at_with_account owner hash acc e :
  Account_wf acc → account_at (with_account owner hash acc e) owner = Some (acc, hash).
Proof.
  intros Hwf. unfold account_at, get_account_from_cado, with_account.
  rewrite lookup_staged_insert. cbn.
  destruct (safe_account_roundtrip acc Hwf) as (b & Es & Ed). rewrite Es. simpl. by rewrite Ed.
Qed.

Lemma account_at_with_account_ne owner hash acc e a :
  a ≠ owner → account_at (with_account owner hash acc e) a = account_at e a.
Proof.
  intros Hne. unfold account_at, get_account_from_cado, with_account.
  rewrite lookup_staged_insert_ne; [done|]. by apply account_paths_distinct.
Qed.

Lemma account_at_with_staking owner hash s e a :
  account_at (with_staking owner hash s e) a = account_at e a.
Proof.
  unfold account_at, get_account_from_cado, with_staking.
  rewrite lookup_staged_insert_ne; [done|]. intros E. by eapply account_staking_paths_distinct.
Qed.

Lemma staking_at_with_staking owner hash s e :
  StakingAccount_wf s → staking_at (with_staking owner hash s e) owner = Some (s, hash).
Proof.
  intros Hwf. unfold staking_at, get_staking_account_from_cado, with_staking.
  rewrite lookup_staged_insert. cbn.
  destruct (safe_account_roundtrip s Hwf) as (b & Es & Ed). rewrite Es. simpl. by rewrite Ed.
Qed.

Lemma staking_at_with_staking_ne owner hash s e a :
  a ≠ owner → staking_at (with_staking owner hash s e) a = staking_at e a.
Proof.
  intros Hne. unfold staking_at, get_staking_account_from_cado, with_staking.
  rewrite lookup_staged_insert_ne; [done|]. by apply staking_paths_distinct.
Qed.

Lemma staking_at_with_account owner hash acc e a :
  staking_at (with_account owner hash acc e) a = staking_at e a.
Proof.
  unfold staking_at, get_staking_account_from_cado, with_account.
  rewrite lookup_staged_insert_ne; [done|]. apply account_staking_paths_distinct.
Qed.

Lemma ledger_wf_with_account owner hash acc e :
  ledger_wf e → Account_wf acc → acc_address acc = owner →
  ledger_wf (with_account owner hash acc e).
Proof.
  intros [Ha Hs] Hwf Ho. split.
  - intros a acc' h. destruct (decide (a = owner)) as [->|Hne].
    + rewrite account_at_with_account by done. by intros [= <- <-].
    + rewrite account_at_with_account_ne by done. apply Ha.
  - intros a s h. rewrite staking_at_with_account. apply Hs.
Qed.

Lemma ledger_wf_with_staking owner hash s e :
  ledger_wf e → StakingAccount_wf s → sa_address s = owner →
  ledger_wf (with_staking owner hash s e).
Proof.
  intros [Ha Hs] Hwf Ho. split.
  - intros a acc h. rewrite account_at_with_staking. apply Ha.
  - intros a s' h. destruct (decide (a = owner)) as [->|Hne].
    + rewrite staking_at_with_staking by done. by intros [= <- <-].
    + rewrite staking_at_with_staking_ne by done. apply Hs.
Qed.

(** *** Balances after writes *)

Lemma balance_of_with_account owner hash acc e a :
  Account_wf acc →
  balance_of (with_account owner hash acc e) a =
  if bool_decide (a = owner) then coin_amount (acc_balance acc) else balance_of e a.
Proof.
  intros Hwf. unfold balance_of. case_bool_decide as Ha; subst.
  - by rewrite account_at_with_account.
  - by rewrite account_at_with_account_ne.
Qed.

Lemma balance_of_with_staking owner hash s e a :
  balance_of (with_staking owner hash s e) a = balance_of e a.
Proof. unfold balance_of. by rewrite account_at_with_staking. Qed.

Lemma stake_of_with_staking owner hash s e a :
  StakingAccount_wf s →
  stake_of (with_staking owner hash s e) a =
  if bool_decide (a = owner) then coin_amount (sa_stake_balance s) else stake_of e a.
Proof.
  intros Hwf. unfold stake_of. case_bool_decide as Ha; subst.
  - by rewrite staking_at_with_staking.
  - by rewrite staking_at_with_staking_ne.
Qed.

Lemma stake_of_with_account owner hash acc e a :
  stake_of (with_account owner hash acc e) a = stake_of e a.
Proof. unfold stake_of. by rewrite staking_at_with_account. Qed.

Lemma nonce_of_with_account owner hash acc e a :
  Account_wf acc →
  nonce_of (with_account owner hash acc e) a =
  if bool_decide (a = owner) then Some (acc_nonce acc) else nonce_of e a.
Proof.
  intros Hwf. unfold nonce_of. case_bool_decide as Ha; subst.
  - by rewrite account_at_with_account.
  - by rewrite account_at_with_account_ne.
Qed.

Lemma nonce_of_with_staking owner hash s e a :
  nonce_of (with_staking owner hash s e) a = nonce_of e a.
Proof. unfold nonce_of. by rewrite account_at_with_staking. Qed.

Lemma balance_of_range e a : ledger_wf e → 0 ≤ balance_of e a ≤ MAX_COIN.
Proof.
  intros [Ha _]. unfold balance_of. destruct (account_at e a) as [[acc h]|] eqn:E.
  - by destruct (Ha _ _ _ E) as [_ [Hc _]].
  - split; [done|discriminate].
Qed.

Lemma stake_of_range e a : ledger_wf e → 0 ≤ stake_of e a ≤ MAX_COIN.
Proof.
  intros [_ Hs]. unfold stake_of. destruct (staking_at e a) as [[s h]|] eqn:E.
  - by destruct (Hs _ _ _ E).
  - split; [done|discriminate].
Qed.

Lemma Account_wf_balance acc b :
  Account_wf acc → coin_wf b → Account_wf (mkAccount (acc_address acc) b (acc_nonce acc)).
Proof. intros [_ Hn] Hb. by split. Qed.

(** A change of balances confined to the addresses of a list of distinct
    addresses changes its total by the sum of the changes. *)
Lemma holdings_delta e e' l (d : Address → Z) :
  (∀ a, a ∈ l → balance_of e' a + stake_of e' a = balance_of e a + stake_of e a + d a) →
  holdings e' l = holdings e l + foldr (λ a n, d a + n) 0 l.
Proof.
  unfold holdings. induction l as [|a l IH]; intros Hd; [done|]. cbn [foldr] in *.
  rewrite IH by (intros b Hb; apply Hd; set_solver).
  rewrite (Hd a) by set_solver. lia.
Qed.

(** The sum over distinct addresses of a change that moves [n] from [s] to [r]. *)
Lemma sum_move (s r : Address) (n : Z) (l : list Address) :
  NoDup l → s ≠ r →
  foldr (λ a m, (if bool_decide (a = s) then - n else if bool_decide (a = r) then n else 0) + m)
    0 l =
  (if bool_decide (s ∈ l) then - n else 0) + (if bool_decide (r ∈ l) then n else 0).
Proof.
  intros Hnd Hsr. induction Hnd as [|a l Ha Hnd IH]; [done|]. cbn [foldr]. rewrite IH.
  repeat case_bool_decide; set_unfold; subst; first [lia | exfalso; intuition congruence].
Qed.

Lemma sum_single (s : Address) (n : Z) (l : list Address) :
  NoDup l →
  foldr (λ a m, (if bool_decide (a = s) then n else 0) + m) 0 l =
  (if bool_decide (s ∈ l) then n else 0).
Proof.
  intros Hnd. induction Hnd as [|a l Ha Hnd IH]; [done|]. cbn [foldr]. rewrite IH.
  repeat case_bool_decide; set_unfold; subst; first [lia | exfalso; intuition congruence].
Qed.
End views.

(** Run the next read or staged write of a processor. *)
Ltac ledger_unfold :=
  unfold run, mbind, handler_bind, or_return, some_or_return, return_if, expect,
    return_early, get_state, modify, fatal, mret, handler_ret.
Ltac ledger_step :=
  cbn beta iota;
  first [ rewrite read_account_run | rewrite read_staking_account_run
        | rewrite stage_account_run by auto with eld
        | rewrite stage_staking_account_run by auto with eld ];
  cbn beta iota.
