(* ===== verification/Processors.v ===== *)
(** Transaction processors that move coins or touch the registries:
    node_app/src/abci_interface/consensus/tx_processor (transfer, stake,
    unstake, register / unregister / update capacity, add namespace, post
    message). *)
From S2P Require Import Prelude Externals Reference Coins Address Namespace Cado Records Tx Fee Pinboard AppState Ledger.

(** [create_event_attribute] *)
Definition attr (key value : string) : string * string := (key, value).

(** First matching element of a list rewritten, the rest untouched: a
    [for .. in iter_mut() { if .. { ..; break } }] loop. *)
Fixpoint update_first {A} (p : A → bool) (f : A → A) (l : list A) : list A :=
  match l with
  | [] => []
  | x :: l => if p x then f x :: l else x :: update_first p f l
  end.

Section processors.
Context {H : HexCrate} {HC : HashCrates} {C : RecordCodecs} {E : Ed25519}
  (rd : StorageReads) (protocol : ProtocolConstants).

(** ** Transfer *)

Definition process_transfer_tx (transfer_tx : TransferTx) : env_handler ResponseDeliverTx :=
  amount_coin ← or_return (Coin_new (transfer_amount transfer_tx))
                  (λ _, response_deliver_tx_error_validation_failed);
  let sender := transfer_sender transfer_tx in
  let recipient := transfer_recipient transfer_tx in
  sender_read ← read_account rd sender;
  '(sender_account, sender_hash) ←
    some_or_return sender_read response_deliver_tx_error_sender_doesnt_exist;
  recipient_read ← read_account rd recipient;
  let '(recipient_account, recipient_hash) :=
    match recipient_read with
    | Some account_with_hash => account_with_hash
    | None => (mkAccount recipient Coin_zero (mkNonce Nonce_ZERO), zero_hash)
    end in
  _ ← return_if (Coin_ltb (acc_balance sender_account) amount_coin)
        response_deliver_tx_error_insufficient_funds;
  sender_balance ← or_return (Coin_sub (acc_balance sender_account) amount_coin)
                     (λ _, response_deliver_tx_error_validation_failed);
  let updated_sender :=
    mkAccount (acc_address sender_account) sender_balance (acc_nonce sender_account) in
  _ ← stage_account sender sender_hash updated_sender;
  recipient_balance ← or_return (Coin_add (acc_balance recipient_account) amount_coin)
                        (λ _, response_deliver_tx_error_validation_failed);
  let updated_recipient :=
    mkAccount (acc_address recipient_account) recipient_balance (acc_nonce recipient_account) in
  _ ← stage_account recipient recipient_hash updated_recipient;
  mret (resp_ok [mkEvent "Transfer"
    [attr "sender" (hex_with_prefix sender);
     attr "recipient" (hex_with_prefix recipient);
     attr "amount" (to_string (transfer_amount transfer_tx))]]).

(** ** Stake *)

Definition is_validator (a : Address) (v : ValidatorInfo) : bool :=
  bool_decide (val_address v = a).

(** The validator entry of a staker: pushed when absent, otherwise the first
    entry takes the new stake and key. *)
Definition upsert_validator (sender : Address) (stake : Coin) (public_key : bytes)
    (l : list ValidatorInfo) : list ValidatorInfo :=
  if existsb (is_validator sender) l then
    update_first (is_validator sender)
      (λ v, mkValidatorInfo (val_address v) stake public_key) l
  else l ++ [mkValidatorInfo sender stake public_key].

Definition process_stake_tx (stake_tx : StakeTx) : env_handler ResponseDeliverTx :=
  amount_coin ← or_return (Coin_new (stake_amount stake_tx))
                  (λ _, response_deliver_tx_error_validation_failed);
  let sender := stake_sender stake_tx in
  sender_read ← read_account rd sender;
  '(sender_account, sender_hash) ←
    some_or_return sender_read response_deliver_tx_error_sender_doesnt_exist;
  _ ← return_if (Coin_ltb (acc_balance sender_account) amount_coin)
        response_deliver_tx_error_insufficient_funds;
  existing_staking_account ← read_staking_account rd sender;
  let existing_stake :=
    match existing_staking_account with
    | Some (account, _) => sa_stake_balance account
    | None => Coin_zero
    end in
  _ ← (if Coin_is_zero existing_stake then
         min_stake_coin ← or_return (Coin_new (coin_amount (min_stake_amount protocol)))
                            (λ _, response_deliver_tx_error_validation_failed);
         return_if (Coin_ltb amount_coin min_stake_coin) response_deliver_tx_error_minimum_stake
       else
         return_if (Coin_is_zero amount_coin) response_deliver_tx_error_validation_failed);
  sender_balance ← or_return (Coin_sub (acc_balance sender_account) amount_coin)
                     (λ _, response_deliver_tx_error_validation_failed);
  _ ← stage_account sender sender_hash
        (mkAccount (acc_address sender_account) sender_balance (acc_nonce sender_account));
  let '(staking_account, staking_hash) :=
    match existing_staking_account with
    | Some account_with_hash => account_with_hash
    | None => (mkStakingAccount sender Coin_zero sender, zero_hash)
    end in
  stake_balance ← or_return (Coin_add (sa_stake_balance staking_account) amount_coin)
                    (λ _, response_deliver_tx_error_validation_failed);
  _ ← stage_staking_account sender staking_hash
        (mkStakingAccount (sa_address staking_account) stake_balance
           (sa_originator staking_account));
  _ ← match stake_public_key stake_tx with
      | None => mret tt
      | Some public_key =>
          public_key_bytes ← some_or_return (hex_decode public_key)
                               response_deliver_tx_error_invalid_public_key_format;
          _ ← return_if (negb (length public_key_bytes =? 32)%nat)
                response_deliver_tx_error_invalid_public_key_length;
          modify (λ e, set_validators
            (upsert_validator sender stake_balance public_key_bytes (validators e)) e)
      end;
  mret (resp_ok [mkEvent "Stake"
    [attr "sender" (hex_with_prefix sender);
     attr "amount" (to_string (stake_amount stake_tx))]]).

(** ** Unstake *)

Definition process_unstake_tx (unstake_tx : UnstakeTx) : env_handler ResponseDeliverTx :=
  amount_coin ← or_return (Coin_new (unstake_amount unstake_tx))
                  (λ _, response_deliver_tx_error_validation_failed);
  let sender := unstake_sender unstake_tx in
  sender_read ← read_account rd sender;
  '(sender_account, sender_hash) ←
    some_or_return sender_read response_deliver_tx_error_sender_doesnt_exist;
  staking_read ← read_staking_account rd sender;
  '(staking_account, staking_hash) ←
    some_or_return staking_read response_deliver_tx_error_insufficient_stake;
  _ ← return_if (Coin_ltb (sa_stake_balance staking_account) amount_coin)
        response_deliver_tx_error_insufficient_stake;
  stake_balance ← or_return (Coin_sub (sa_stake_balance staking_account) amount_coin)
                    (λ _, response_deliver_tx_error_validation_failed);
  _ ← stage_staking_account sender staking_hash
        (mkStakingAccount (sa_address staking_account) stake_balance
           (sa_originator staking_account));
  sender_balance ← or_return (Coin_add (acc_balance sender_account) amount_coin)
                     (λ _, response_deliver_tx_error_validation_failed);
  _ ← stage_account sender sender_hash
        (mkAccount (acc_address sender_account) sender_balance (acc_nonce sender_account));
  mret (resp_ok [mkEvent "Unstake"
    [attr "sender" (hex_with_prefix sender);
     attr "amount" (to_string (unstake_amount unstake_tx))]]).

(** ** Capacity registry *)

Definition is_provider (a : Address) (p : CapacityValidatorInfo) : bool :=
  bool_decide (cv_address p = a).

(** The entry of a provider that registers again. *)
Definition re_register (tx : RegisterCapacityTx) (current_block_height : Z)
    (p : CapacityValidatorInfo) : CapacityValidatorInfo :=
  mkCapacityValidatorInfo (cv_address p) (cv_stake p) (cv_public_key p)
    (register_capacity_bytes tx) (Some (register_merkle_root tx)) (Some (register_seed tx))
    (Some (register_chunk_count tx))
    (match cv_registered_at p with
     | None => Some (as_u64 current_block_height)
     | Some h => Some h
     end)
    (Some (as_u64 current_block_height))
    (as_u64 (wrap_i64 (current_block_height + 1)))
    (registration_duration_blocks protocol).

Definition process_register_capacity_tx (tx : RegisterCapacityTx)
    (outer_public_key : TxPublicKey) : env_handler ResponseDeliverTx :=
  let sender := register_sender tx in
  public_key ← or_return (PublicKey_try_from outer_public_key)
                 (λ _, response_deliver_tx_error_invalid_public_key_format);
  _ ← return_if (negb (is_from_public_key sender (pk_bytes public_key)))
        response_deliver_tx_error_validation_failed;
  sender_read ← read_account rd sender;
  _ ← some_or_return sender_read response_deliver_tx_error_sender_doesnt_exist;
  e ← get_state;
  let current_block_height := block_height e in
  _ ← (if negb (existsb (is_provider sender) (capacity_validators e)) then
         modify (λ e, set_capacity_validators (capacity_validators e ++
           [mkCapacityValidatorInfo sender Coin_zero public_key (register_capacity_bytes tx)
              (Some (register_merkle_root tx)) (Some (register_seed tx))
              (Some (register_chunk_count tx))
              (Some (as_u64 current_block_height)) (Some (as_u64 current_block_height))
              (as_u64 (wrap_i64 (current_block_height + 1)))
              (registration_duration_blocks protocol)]) e)
       else
         match List.find (is_provider sender) (capacity_validators e) with
         | None => return_early response_deliver_tx_error_validation_failed
         | Some provider =>
             _ ← return_if (negb (bool_decide (cv_public_key provider = public_key)))
                   response_deliver_tx_error_validation_failed;
             modify (λ e, set_capacity_validators
               (update_first (is_provider sender) (re_register tx current_block_height)
                  (capacity_validators e)) e)
         end);
  mret (resp_ok [mkEvent "RegisterCapacity"
    [attr "sender" (hex_with_prefix sender);
     attr "capacity_bytes" (to_string (register_capacity_bytes tx));
     attr "chunk_count" (to_string (register_chunk_count tx));
     attr "merkle_root" (hex_encode (register_merkle_root tx));
     attr "seed" (hex_encode (register_seed tx));
     attr "registered_at" (to_string_i64 current_block_height)]]).

Definition process_unregister_capacity_tx (tx : UnregisterCapacityTx) :
    env_handler ResponseDeliverTx :=
  let sender := unregister_sender tx in
  sender_read ← read_account rd sender;
  _ ← some_or_return sender_read response_deliver_tx_error_sender_doesnt_exist;
  _ ← modify (λ e, set_capacity_validators
        (filter (λ p, cv_address p ≠ sender) (capacity_validators e)) e);
  mret (resp_ok [mkEvent "UnregisterCapacity"
    [attr "sender" (hex_with_prefix sender);
     attr "unregister" (if unregister_flag tx then "true" else "false")]]).

Definition process_update_capacity_merkle_root_tx (tx : UpdateCapacityMerkleRootTx) :
    env_handler ResponseDeliverTx :=
  let sender := update_sender tx in
  sender_read ← read_account rd sender;
  _ ← some_or_return sender_read response_deliver_tx_error_sender_doesnt_exist;
  e ← get_state;
  _ ← return_if (negb (existsb (is_provider sender) (capacity_validators e)))
        response_deliver_tx_error_validation_failed;
  let current_block_height := block_height e in
  _ ← modify (λ e, set_capacity_validators
        (update_first (is_provider sender) (λ p,
           mkCapacityValidatorInfo (cv_address p) (cv_stake p) (cv_public_key p)
             (cv_storage_capacity p) (Some (update_merkle_root tx)) (cv_seed p)
             (cv_chunk_count p) (cv_registered_at p) (Some (as_u64 current_block_height))
             (cv_registered_block p) (cv_registration_duration p))
           (capacity_validators e)) e);
  mret (resp_ok [mkEvent "UpdateCapacityMerkleRoot"
    [attr "sender" (hex_with_prefix sender);
     attr "merkle_root" (hex_encode (update_merkle_root tx));
     attr "block_height" (to_string_i64 current_block_height)]]).

(** ** Namespaces *)

Definition process_add_namespace_tx (tx : AddNamespaceTx) : env_handler ResponseDeliverTx :=
  registration_fee ← or_return (Coin_new (addns_registration_fee tx))
                       (λ _, response_deliver_tx_error_validation_failed);
  let canonical_slug := addns_slug tx in
  let sender := addns_sender tx in
  e ← get_state;
  _ ← or_return (validate_add_namespace_not_taken e canonical_slug)
        (λ _, response_deliver_tx_error_validation_failed);
  registry_path ← or_return (slug_to_namespace_cadopath canonical_slug)
                    (λ _, response_deliver_tx_error_validation_failed);
  _ ← return_if (Coin_is_zero registration_fee) response_deliver_tx_error_validation_failed;
  sender_read ← read_account rd sender;
  '(sender_account, sender_hash) ←
    some_or_return sender_read response_deliver_tx_error_sender_doesnt_exist;
  _ ← return_if (Coin_ltb (acc_balance sender_account) registration_fee)
        response_deliver_tx_error_insufficient_funds;
  updated_balance ← or_return (Coin_sub (acc_balance sender_account) registration_fee)
                      (λ _, response_deliver_tx_error_validation_failed);
  _ ← stage_account sender sender_hash
        (mkAccount sender updated_balance (acc_nonce sender_account));
  e ← get_state;
  let registered_height := as_u64 (wrap_i64 (block_height e + 1)) in
  _ ← modify (λ e, set_namespace_registry_cache
        (<[canonical_slug := mkNamespaceRecord canonical_slug sender registered_height]>
           (namespace_registry_cache e)) e);
  mret (resp_ok [mkEvent "AddNamespace"
    [attr "namespace" canonical_slug;
     attr "owner" (hex_with_prefix sender);
     attr "registry_path" (cp_path registry_path)]]).

(** [validate_namespace_upload_authorization] of common/src/namespace.rs. *)
Definition validate_namespace_upload_authorization (namespace : option string)
    (signer : Address) (lookup : string → eld_result (option NamespaceRecord)) :
    eld_result (option string) :=
  let? canonical := resolve_optional_namespace namespace in
  match canonical with
  | None => Ok None
  | Some canonical =>
      let? found := lookup canonical in
      let? record := ok_or found (ValidationError "namespace") in
      if bool_decide (ns_owner record = signer) then Ok (Some canonical)
      else Err (ValidationError "namespace")
  end.

(** ** Pinboard posts *)

(** The fetch of a missing blob over P2P is a side effect outside the state. *)
Definition process_post_message_tx (tx : PostMessageTx) : env_handler ResponseDeliverTx :=
  e ← get_state;
  _ ← or_return (validate_namespace_upload_authorization (post_namespace tx)
                   (post_original_signer tx) (resolve_namespace e))
        (λ _, response_deliver_tx_error_validation_failed);
  let committed_height := as_u64 (wrap_i64 (block_height e + 1)) in
  let ttl_blocks :=
    if post_expires_height tx =? 0 then default_pinboard_post_ttl_blocks protocol
    else post_expires_height tx in
  let effective_expires_height := saturating_add u64_max committed_height ttl_blocks in
  let meta := mkPinboardMessageMetadata (post_message_id tx) (post_original_signer tx)
                (post_content_key tx) (post_content_type tx) effective_expires_height
                (post_visibility tx) (post_topic tx) (post_tags tx) committed_height
                (post_received_timestamp tx) (post_namespace tx) in
  let id := pm_message_id meta in
  _ ← modify (λ e, set_pinboard_meta_cache (<[id := meta]> (pinboard_meta_cache e)) e);
  _ ← modify (λ e, set_pinboard_idx_wallet_add (pinboard_idx_wallet_add e ++
        [(hex_with_prefix (pm_original_signer meta), committed_height, id)]) e);
  _ ← modify (λ e, set_pinboard_idx_tag_add (pinboard_idx_tag_add e ++
        map (λ tag, (tag, committed_height, id)) (pm_tags meta)) e);
  _ ← modify (λ e, set_pinboard_idx_expiry_add (pinboard_idx_expiry_add e ++
        [(pm_expires_height meta, id)]) e);
  _ ← modify (λ e, set_pinboard_idx_commit_add (pinboard_idx_commit_add e ++
        [(committed_height, id)]) e);
  _ ← modify (λ e, set_pinboard_refcount_deltas
        (<[pm_content_key meta :=
             wrap_i64 (default 0 (pinboard_refcount_deltas e !! pm_content_key meta) + 1)]>
           (pinboard_refcount_deltas e)) e);
  mret (resp_ok []).
End processors.

(** ** Coin movements *)

Section movements.
Context {H : HexCrate} {HL : HexLaws H} {HC : HashCrates} {C : RecordCodecs}
  {CL : RecordCodecsLaws C} {E : Ed25519} (rd : StorageReads) (protocol : ProtocolConstants).

Abbreviation bal := (balance_of rd).
Abbreviation stk := (stake_of rd).

Lemma coin_wf_mk n : 0 ≤ n ≤ MAX_COIN → coin_wf (mkCoin n).
Proof. done. Qed.

Lemma Account_wf_set acc n :
  Account_wf acc → 0 ≤ n ≤ MAX_COIN →
  Account_wf (mkAccount (acc_address acc) (mkCoin n) (acc_nonce acc)).
Proof. intros. by apply Account_wf_balance. Qed.

Lemma StakingAccount_wf_set s n o : 0 ≤ n ≤ MAX_COIN →
  StakingAccount_wf (mkStakingAccount s (mkCoin n) o).
Proof. done. Qed.

Lemma Account_wf_fresh a : Account_wf (mkAccount a Coin_zero (mkNonce Nonce_ZERO)).
Proof. split; split; simpl; discriminate. Qed.

(** The account a transfer credits: the stored one or a fresh one. *)
Definition account_or_fresh (e : AppStateEnvelope) (a : Address) : Account * byte_array 32 :=
  match account_at rd e a with
  | Some account_with_hash => account_with_hash
  | None => (mkAccount a Coin_zero (mkNonce Nonce_ZERO), zero_hash)
  end.

Lemma account_or_fresh_wf e a :
  ledger_wf rd e →
  Account_wf (account_or_fresh e a).1 ∧ acc_address (account_or_fresh e a).1 = a ∧
  coin_amount (acc_balance (account_or_fresh e a).1) = bal e a.
Proof.
  intros [Ha _]. unfold account_or_fresh, balance_of.
  destruct (account_at rd e a) as [[acc h]|] eqn:Ea; simpl.
  - destruct (Ha _ _ _ Ea). done.
  - split; [apply Account_wf_fresh|done].
Qed.

(** Every branch of a transfer, as a function of the accounts it reads. *)
Lemma transfer_cases e t :
  ledger_wf rd e → 0 ≤ transfer_amount t ≤ MAX_COIN →
  let s := transfer_sender t in
  let r := transfer_recipient t in
  let n := transfer_amount t in
  match account_at rd e s with
  | None =>
      run (process_transfer_tx rd t) e = Some (response_deliver_tx_error_sender_doesnt_exist, e)
  | Some (acc, h) =>
      let racc := (account_or_fresh e r).1 in
      let debited := with_account s h (mkAccount (acc_address acc)
                       (mkCoin (bal e s - n)) (acc_nonce acc)) e in
      if bal e s <? n then
        run (process_transfer_tx rd t) e = Some (response_deliver_tx_error_insufficient_funds, e)
      else if MAX_COIN <? bal e r + n then
        run (process_transfer_tx rd t) e =
          Some (response_deliver_tx_error_validation_failed, debited)
      else
        ∃ events, run (process_transfer_tx rd t) e = Some (resp_ok events,
          with_account r (account_or_fresh e r).2
            (mkAccount (acc_address racc) (mkCoin (bal e r + n)) (acc_nonce racc)) debited)
  end.
Proof.
  intros Hwf Hn. destruct t as [s r n]. cbn [transfer_sender transfer_recipient transfer_amount] in *.
  destruct (account_or_fresh_wf e r Hwf) as (Hrw & Hra & Hrb).
  assert (Coin_new n = Ok (mkCoin n)) as Hc by (apply Coin_new_in; lia).
  destruct (account_at rd e s) as [[acc h]|] eqn:Es.
  2: { unfold process_transfer_tx. ledger_unfold.
       cbn [transfer_sender transfer_recipient transfer_amount]. rewrite Hc.
       ledger_step. by rewrite Es. }
  assert (bal e s = coin_amount (acc_balance acc)) as Hsb by (unfold balance_of; by rewrite Es).
  destruct (proj1 Hwf _ _ _ Es) as [_ Hsw].
  unfold process_transfer_tx. ledger_unfold.
  cbn [transfer_sender transfer_recipient transfer_amount]. rewrite Hc.
  ledger_step. rewrite Es. ledger_step.
  change (match account_at rd e r with Some x => x | None => _ end) with (account_or_fresh e r).
  destruct (account_or_fresh e r) as [racc rh]. cbn [fst snd] in *.
  unfold Coin_ltb. cbn [coin_amount]. rewrite <- Hsb.
  destruct (bal e s <? n) eqn:Elt; eld_bool; [done|].
  pose proof (balance_of_range rd e s Hwf). pose proof (balance_of_range rd e r Hwf).
  rewrite Coin_sub_in; [|apply Hsw|done|cbn; lia]. cbn [coin_amount]. rewrite <- Hsb.
  rewrite stage_account_run by (apply Account_wf_set; [done|lia]). cbn beta iota.
  destruct (MAX_COIN <? bal e r + n) eqn:Eov; eld_bool.
  - destruct (Coin_add_over (acc_balance racc) (mkCoin n)) as [err ->];
      [apply Hrw|done|cbn; lia|done].
  - rewrite Coin_add_in; [|apply Hrw|done|cbn; lia]. cbn [coin_amount]. rewrite Hrb.
    rewrite stage_account_run by (apply Account_wf_set; [done|lia]). cbn beta iota. eauto.
Qed.

(** What a coin movement may change: balances by [d], stakes by [ds]; nonces
    of existing accounts never. *)
Definition moves (e e' : AppStateEnvelope) (d ds : Address → Z) : Prop :=
  ledger_wf rd e' ∧
  (∀ a, bal e' a = bal e a + d a) ∧ (∀ a, stk e' a = stk e a + ds a) ∧
  (∀ a k, nonce_of rd e a = Some k → nonce_of rd e' a = Some k).

Definition delta (a0 : Address) (n : Z) : Address → Z := λ a, if bool_decide (a = a0) then n else 0.

(** One account rewritten at its own address, keeping its nonce. *)
Lemma moves_account e a acc h n :
  ledger_wf rd e → Account_wf acc → acc_address acc = a →
  coin_amount (acc_balance acc) = bal e a → 0 ≤ bal e a + n ≤ MAX_COIN →
  (∀ k, nonce_of rd e a = Some k → k = acc_nonce acc) →
  moves e (with_account a h (mkAccount (acc_address acc) (mkCoin (bal e a + n)) (acc_nonce acc)) e)
    (delta a n) (λ _, 0).
Proof.
  intros Hwf Hacc Ha Hb Hr Hk.
  assert (Account_wf (mkAccount (acc_address acc) (mkCoin (bal e a + n)) (acc_nonce acc))) as Hw
    by (by apply Account_wf_set).
  split_and!.
  - by apply ledger_wf_with_account.
  - intros b. rewrite balance_of_with_account by done. unfold delta.
    case_bool_decide; subst; simpl; lia.
  - intros b. rewrite stake_of_with_account. lia.
  - intros b k Hbk. rewrite nonce_of_with_account by done. case_bool_decide; subst; [|done].
    simpl. f_equal. symmetry. by apply Hk.
Qed.

Lemma moves_staking e a s h n :
  ledger_wf rd e → sa_address s = a → coin_amount (sa_stake_balance s) = stk e a →
  0 ≤ stk e a + n ≤ MAX_COIN →
  moves e (with_staking a h (mkStakingAccount (sa_address s) (mkCoin (stk e a + n))
             (sa_originator s)) e) (λ _, 0) (delta a n).
Proof.
  intros Hwf Ha Hb Hr. split_and!.
  - by apply ledger_wf_with_staking.
  - intros b. rewrite balance_of_with_staking. lia.
  - intros b. rewrite stake_of_with_staking by done. unfold delta.
    case_bool_decide; subst; simpl; lia.
  - intros b k. by rewrite nonce_of_with_staking.
Qed.

Lemma moves_trans e1 e2 e3 d1 d2 ds1 ds2 :
  moves e1 e2 d1 ds1 → moves e2 e3 d2 ds2 →
  moves e1 e3 (λ a, d1 a + d2 a) (λ a, ds1 a + ds2 a).
Proof.
  intros (_ & Hb1 & Hs1 & Hn1) (Hw & Hb2 & Hs2 & Hn2). split_and!; [done| | |].
  - intros a. rewrite Hb2, Hb1. lia.
  - intros a. rewrite Hs2, Hs1. lia.
  - intros a k Hk. by apply Hn2, Hn1.
Qed.

Lemma moves_refl e : ledger_wf rd e → moves e e (λ _, 0) (λ _, 0).
Proof. intros Hw. split_and!; try done; intros a; lia. Qed.

(** A movement changes the total of a list of distinct addresses by the sum of
    its parts. *)
Lemma moves_holdings e e' d ds l :
  moves e e' d ds →
  holdings rd e' l = holdings rd e l + foldr (λ a n, (d a + ds a) + n) 0 l.
Proof.
  intros (_ & Hb & Hs & _). apply holdings_delta. intros a _. rewrite Hb, Hs. lia.
Qed.

Lemma nonce_of_account e a acc h k :
  account_at rd e a = Some (acc, h) → nonce_of rd e a = Some k → k = acc_nonce acc.
Proof. unfold nonce_of. intros ->. by intros [= ->]. Qed.

Lemma transfer_moves e t resp e' :
  ledger_wf rd e →
  TransferTx_new (transfer_sender t) (transfer_recipient t) (transfer_amount t) = Ok t →
  0 ≤ transfer_amount t →
  run (process_transfer_tx rd t) e = Some (resp, e') →
  if resp_code resp =? 0 then
    moves e e' (λ a, delta (transfer_sender t) (- transfer_amount t) a +
                     delta (transfer_recipient t) (transfer_amount t) a) (λ _, 0)
  else e' = e ∨ MAX_COIN < bal e (transfer_recipient t) + transfer_amount t ∧
       moves e e' (delta (transfer_sender t) (- transfer_amount t)) (λ _, 0).
Proof.
  intros Hwf (_ & Hsr & Hn0 & HnM)%TransferTx_new_Ok Hn Hrun.
  pose proof (transfer_cases e t Hwf ltac:(lia)) as Hc. cbv zeta in Hc.
  destruct t as [s r n]. cbn [transfer_sender transfer_recipient transfer_amount] in *.
  destruct (account_at rd e s) as [[acc h]|] eqn:Es.
  2: { rewrite Hc in Hrun. injection Hrun as <- <-. simpl. auto. }
  pose proof (proj1 Hwf _ _ _ Es) as [Hsa Hsw].
  pose proof (balance_of_range rd e s Hwf) as Hbs.
  destruct (bal e s <? n) eqn:Elt; eld_bool.
  { rewrite Hc in Hrun. injection Hrun as <- <-. simpl. auto. }
  assert (moves e (with_account s h (mkAccount (acc_address acc) (mkCoin (bal e s + - n))
            (acc_nonce acc)) e) (delta s (- n)) (λ _, 0)) as Hm.
  { apply moves_account; try done; [by unfold balance_of; rewrite Es|lia|].
    intros k Hk. by eapply nonce_of_account. }
  change (bal e s - n) with (bal e s + - n) in Hc.
  destruct (MAX_COIN <? bal e r + n) eqn:Eov; eld_bool.
  { rewrite Hc in Hrun. injection Hrun as <- <-. simpl. auto. }
  destruct Hc as [events Hc]. rewrite Hc in Hrun. injection Hrun as <- <-. cbn [resp_code resp_ok].
  change (0 =? 0) with true. cbv iota.
  refine (moves_trans _ _ _ _ _ _ _ Hm _).
  set (e1 := with_account s h _ e) in *.
  assert (bal e1 r = bal e r) as Hb1.
  { destruct Hm as (_ & Hb & _). rewrite Hb. unfold delta. rewrite bool_decide_eq_false_2 by done. lia. }
  destruct (account_or_fresh_wf e r Hwf) as (Hrw & Hra & Hrb).
  rewrite <- Hb1. apply moves_account; try done.
  - apply Hm.
  - by rewrite Hb1.
  - rewrite Hb1. pose proof (balance_of_range rd e r Hwf). lia.
  - intros k. unfold e1. rewrite nonce_of_with_account by (apply Account_wf_set; [done|lia]).
    rewrite bool_decide_eq_false_2 by done. unfold account_or_fresh, nonce_of.
    destruct (account_at rd e r) as [[]|]; [|done]. by intros [= <-].
Qed.

(** The staking account a stake adds to. *)
Definition staking_or_fresh (e : AppStateEnvelope) (a : Address) :
    StakingAccount * byte_array 32 :=
  match staking_at rd e a with
  | Some account_with_hash => account_with_hash
  | None => (mkStakingAccount a Coin_zero a, zero_hash)
  end.

Lemma staking_or_fresh_wf e a :
  ledger_wf rd e →
  StakingAccount_wf (staking_or_fresh e a).1 ∧ sa_address (staking_or_fresh e a).1 = a ∧
  coin_amount (sa_stake_balance (staking_or_fresh e a).1) = stk e a.
Proof.
  intros [_ Hs]. unfold staking_or_fresh, stake_of.
  destruct (staking_at rd e a) as [[s h]|] eqn:Ea; simpl; [by destruct (Hs _ _ _ Ea)|].
  split; [split; simpl; discriminate|done].
Qed.

Lemma decode_stake_key k :
  String.length k = 64%nat → string_all is_ascii_hexdigit k = true →
  ∃ b, hex_decode k = Some b ∧ length b = 32%nat.
Proof.
  intros Hl Hd. destruct (hex_decode_total k 32 Hl Hd) as [b Eb]. exists b. split; [done|].
  apply hex_decode_length in Eb. lia.
Qed.

(** Every branch of a stake. *)
Lemma stake_cases e t :
  ledger_wf rd e → coin_wf (min_stake_amount protocol) →
  StakeTx_new (stake_sender t) (stake_amount t) (stake_public_key t) = Ok t →
  0 ≤ stake_amount t →
  let s := stake_sender t in
  let n := stake_amount t in
  match account_at rd e s with
  | None =>
      run (process_stake_tx rd protocol t) e
        = Some (response_deliver_tx_error_sender_doesnt_exist, e)
  | Some (acc, h) =>
      let sacc := (staking_or_fresh e s).1 in
      let e1 := with_account s h (mkAccount (acc_address acc) (mkCoin (bal e s + - n))
                  (acc_nonce acc)) e in
      let e2 := with_staking s (staking_or_fresh e s).2
                  (mkStakingAccount (sa_address sacc) (mkCoin (stk e s + n))
                     (sa_originator sacc)) e1 in
      if bal e s <? n then
        run (process_stake_tx rd protocol t) e
          = Some (response_deliver_tx_error_insufficient_funds, e)
      else if (stk e s =? 0) && (n <? coin_amount (min_stake_amount protocol)) then
        run (process_stake_tx rd protocol t) e
          = Some (response_deliver_tx_error_minimum_stake, e)
      else if MAX_COIN <? stk e s + n then
        run (process_stake_tx rd protocol t) e
          = Some (response_deliver_tx_error_validation_failed, e1)
      else
        ∃ events, run (process_stake_tx rd protocol t) e = Some (resp_ok events,
          match stake_public_key t with
          | None => e2
          | Some k => set_validators (upsert_validator s (mkCoin (stk e s + n))
                        (default [] (hex_decode k)) (validators e)) e2
          end)
  end.
Proof.
  intros Hwf [_ Hmin] (_ & Hn0 & HnM & Hpk)%StakeTx_new_Ok Hn.
  destruct t as [s n pk]. cbn [stake_sender stake_amount stake_public_key] in *.
  destruct (staking_or_fresh_wf e s Hwf) as (Hsw & Hsa & Hsb).
  assert (Coin_new n = Ok (mkCoin n)) as Hc by (apply Coin_new_in; lia).
  unfold process_stake_tx. ledger_unfold.
  cbn [stake_sender stake_amount stake_public_key]. rewrite Hc. ledger_step.
  destruct (account_at rd e s) as [[acc h]|] eqn:Es; [|done].
  assert (bal e s = coin_amount (acc_balance acc)) as Hb by (unfold balance_of; by rewrite Es).
  destruct (proj1 Hwf _ _ _ Es) as [_ Haw].
  unfold Coin_ltb. cbn [coin_amount]. rewrite <- Hb.
  destruct (bal e s <? n) eqn:Elt; eld_bool; [done|].
  ledger_step.
  replace (Coin_is_zero match staking_at rd e s with Some (a, _) => sa_stake_balance a | None => _ end)
    with (stk e s =? 0) by (unfold stake_of; by destruct (staking_at rd e s) as [[]|]).
  change (match staking_at rd e s with Some x => x | None => _ end) with (staking_or_fresh e s).
  destruct (staking_or_fresh e s) as [sacc sh]. cbn [fst snd] in *.
  rewrite Coin_new_in by done. unfold Coin_is_zero. cbn [coin_amount].
  pose proof (balance_of_range rd e s Hwf). pose proof (stake_of_range rd e s Hwf).
  rewrite Coin_sub_in; [|apply Haw|done|cbn; lia]. cbn [coin_amount]. rewrite <- Hb.
  assert ((n =? 0) = false) as -> by (by apply Z.eqb_neq).
  destruct (stk e s =? 0) eqn:E0; cbn [andb];
    [destruct (n <? coin_amount (min_stake_amount protocol)) eqn:Em; [done|]|];
    (rewrite stage_account_run by (apply Account_wf_set; [done|lia]); cbn beta iota;
     destruct (MAX_COIN <? stk e s + n) eqn:Eov; eld_bool;
     [destruct (Coin_add_over (sa_stake_balance sacc) (mkCoin n)) as [err ->];
        [apply Hsw|done|cbn; lia|done]|];
     rewrite Coin_add_in; [|apply Hsw|done|cbn; lia]; cbn [coin_amount]; rewrite Hsb;
     rewrite stage_staking_account_run by (apply StakingAccount_wf_set; lia); cbn beta iota;
     destruct pk as [k|]; [|eauto];
     destruct (Hpk k eq_refl) as [Hkl Hkd];
     destruct (decode_stake_key k Hkl Hkd) as (b & -> & Hbl); rewrite Hbl; simpl; eauto).
Qed.

Lemma unstake_cases e t :
  ledger_wf rd e → 0 ≤ unstake_amount t ≤ MAX_COIN →
  let s := unstake_sender t in
  let n := unstake_amount t in
  match account_at rd e s, staking_at rd e s with
  | None, _ =>
      run (process_unstake_tx rd t) e = Some (response_deliver_tx_error_sender_doesnt_exist, e)
  | Some _, None =>
      run (process_unstake_tx rd t) e = Some (response_deliver_tx_error_insufficient_stake, e)
  | Some (acc, h), Some (sacc, sh) =>
      let e1 := with_staking s sh (mkStakingAccount (sa_address sacc) (mkCoin (stk e s + - n))
                  (sa_originator sacc)) e in
      if stk e s <? n then
        run (process_unstake_tx rd t) e = Some (response_deliver_tx_error_insufficient_stake, e)
      else if MAX_COIN <? bal e s + n then
        run (process_unstake_tx rd t) e = Some (response_deliver_tx_error_validation_failed, e1)
      else
        ∃ events, run (process_unstake_tx rd t) e = Some (resp_ok events,
          with_account s h (mkAccount (acc_address acc) (mkCoin (bal e s + n)) (acc_nonce acc)) e1)
  end.
Proof.
  intros Hwf Hn. destruct t as [s n]. cbn [unstake_sender unstake_amount] in *.
  assert (Coin_new n = Ok (mkCoin n)) as Hc by (apply Coin_new_in; lia).
  unfold process_unstake_tx. ledger_unfold. cbn [unstake_sender unstake_amount]. rewrite Hc.
  ledger_step. destruct (account_at rd e s) as [[acc h]|] eqn:Es; [|done]. ledger_step.
  destruct (staking_at rd e s) as [[sacc sh]|] eqn:Est; [|done].
  assert (bal e s = coin_amount (acc_balance acc)) as Hb by (unfold balance_of; by rewrite Es).
  assert (stk e s = coin_amount (sa_stake_balance sacc)) as Hs
    by (unfold stake_of; by rewrite Est).
  destruct (proj1 Hwf _ _ _ Es) as [_ Haw]. destruct (proj2 Hwf _ _ _ Est) as [_ Hsw].
  pose proof (balance_of_range rd e s Hwf). pose proof (stake_of_range rd e s Hwf).
  unfold Coin_ltb. cbn [coin_amount]. rewrite <- Hs.
  destruct (stk e s <? n) eqn:Elt; eld_bool; [done|].
  rewrite Coin_sub_in; [|apply Hsw|done|cbn; lia]. cbn [coin_amount]. rewrite <- Hs.
  rewrite stage_staking_account_run by (apply StakingAccount_wf_set; lia). cbn beta iota.
  destruct (MAX_COIN <? bal e s + n) eqn:Eov; eld_bool.
  - destruct (Coin_add_over (acc_balance acc) (mkCoin n)) as [err ->];
      [apply Haw|done|cbn; lia|done].
  - rewrite Coin_add_in; [|apply Haw|done|cbn; lia]. cbn [coin_amount]. rewrite <- Hb.
    rewrite stage_account_run by (apply Account_wf_set; [done|lia]). cbn beta iota. eauto.
Qed.

(** Fields outside the object caches do not show in balances. *)
Lemma moves_frame e e1 e2 d ds :
  moves e e1 d ds → cado_cache e2 = cado_cache e1 →
  committed_cado_cache e2 = committed_cado_cache e1 → moves e e2 d ds.
Proof.
  intros (Hw & Hb & Hs & Hn) Hc Hcc.
  assert (∀ a, account_at rd e2 a = account_at rd e1 a) as Ha.
  { intros a. unfold account_at, get_account_from_cado, lookup_cado_staged_committed_then_db.
    by rewrite Hc, Hcc. }
  assert (∀ a, staking_at rd e2 a = staking_at rd e1 a) as Hst.
  { intros a. unfold staking_at, get_staking_account_from_cado,
      lookup_cado_staged_committed_then_db. by rewrite Hc, Hcc. }
  split_and!.
  - destruct Hw as [Hw1 Hw2]. split; intros a; rewrite ?Ha, ?Hst; eauto.
  - intros a. rewrite <- Hb. unfold balance_of. by rewrite Ha.
  - intros a. rewrite <- Hs. unfold stake_of. by rewrite Hst.
  - intros a k. unfold nonce_of. rewrite Ha. apply Hn.
Qed.

Lemma moves_ext e e' d d' ds ds' :
  (∀ a, d a = d' a) → (∀ a, ds a = ds' a) → moves e e' d ds → moves e e' d' ds'.
Proof.
  intros Hd Hds (Hw & Hb & Hs & Hn). split_and!; [done| | |done].
  - intros a. by rewrite <- Hd.
  - intros a. by rewrite <- Hds.
Qed.

Lemma moves_balanced e e' d ds l :
  (∀ a, d a + ds a = 0) → moves e e' d ds → holdings rd e' l = holdings rd e l.
Proof.
  intros H0 Hm. rewrite (moves_holdings _ _ _ _ _ Hm).
  enough (foldr (λ a n, d a + ds a + n) 0 l = 0) as -> by lia.
  induction l as [|a l IH]; cbn [foldr]; [done|]. rewrite IH, H0. done.
Qed.

Lemma stake_debit e s n acc h :
  ledger_wf rd e → account_at rd e s = Some (acc, h) → 0 ≤ n ≤ bal e s →
  moves e (with_account s h (mkAccount (acc_address acc) (mkCoin (bal e s + - n))
             (acc_nonce acc)) e) (delta s (- n)) (λ _, 0).
Proof.
  intros Hwf Es Hn. destruct (proj1 Hwf _ _ _ Es) as [Hsa Hsw].
  pose proof (balance_of_range rd e s Hwf).
  apply moves_account; try done; [by unfold balance_of; rewrite Es|lia|].
  intros k Hk. by eapply nonce_of_account.
Qed.

Lemma upsert_validator_stake s c b l :
  ∃ v, v ∈ upsert_validator s c b l ∧ val_address v = s ∧ val_stake v = c.
Proof.
  unfold upsert_validator. destruct (existsb (is_validator s) l) eqn:Ex.
  - induction l as [|v l IH]; [done|]. cbn [existsb update_first] in *.
    destruct (is_validator s v) eqn:Ev.
    + exists (mkValidatorInfo (val_address v) c b). split; [by left|].
      unfold is_validator in Ev. eld_bool. done.
    + destruct (IH Ex) as (w & Hw & Hr). exists w. split; [by right|done].
  - exists (mkValidatorInfo s c b). split; [|done]. apply elem_of_app. right. by left.
Qed.

Lemma stake_moves e t resp e' :
  ledger_wf rd e → coin_wf (min_stake_amount protocol) →
  StakeTx_new (stake_sender t) (stake_amount t) (stake_public_key t) = Ok t →
  0 ≤ stake_amount t →
  run (process_stake_tx rd protocol t) e = Some (resp, e') →
  resp_code resp = 0 →
  moves e e' (delta (stake_sender t) (- stake_amount t)) (delta (stake_sender t) (stake_amount t)).
Proof.
  intros Hwf Hmin Hv Hn Hrun H0.
  pose proof (stake_cases e t Hwf Hmin Hv Hn) as Hc. cbv zeta in Hc.
  destruct (account_at rd e (stake_sender t)) as [[acc h]|] eqn:Es;
    [|rewrite Hc in Hrun; injection Hrun as <- <-; discriminate].
  destruct (_ <? stake_amount t) eqn:Elt; eld_bool;
    [rewrite Hc in Hrun; injection Hrun as <- <-; discriminate|].
  destruct (_ && _) eqn:Em; [rewrite Hc in Hrun; injection Hrun as <- <-; discriminate|].
  destruct (MAX_COIN <? _) eqn:Eov; eld_bool;
    [rewrite Hc in Hrun; injection Hrun as <- <-; discriminate|].
  destruct Hc as [ev Hc]. rewrite Hc in Hrun. injection Hrun as <- <-.
  pose proof (stake_debit e (stake_sender t) (stake_amount t) acc h Hwf Es ltac:(lia)) as Hm1.
  set (e1 := with_account _ _ _ e) in *.
  assert (stk e1 (stake_sender t) = stk e (stake_sender t)) as Hs1.
  { destruct Hm1 as (_ & _ & Hs & _). rewrite Hs. lia. }
  destruct (staking_or_fresh_wf e (stake_sender t) Hwf) as (Hsw & Hsa & Hsb).
  pose proof (stake_of_range rd e (stake_sender t) Hwf).
  rewrite <- Hs1 in Hsb |- *.
  pose proof (moves_staking e1 (stake_sender t) _ (staking_or_fresh e (stake_sender t)).2
                (stake_amount t) (proj1 Hm1) Hsa Hsb ltac:(lia)) as Hm2.
  pose proof (moves_trans _ _ _ _ _ _ _ Hm1 Hm2) as Hm.
  eapply moves_ext; [| |eapply moves_frame; [exact Hm|..]].
  - intros a. cbv beta. lia.
  - intros a. cbv beta. lia.
  - by destruct (stake_public_key t).
  - by destruct (stake_public_key t).
Qed.

Lemma unstake_moves e t resp e' :
  ledger_wf rd e → 0 ≤ unstake_amount t ≤ MAX_COIN →
  run (process_unstake_tx rd t) e = Some (resp, e') →
  resp_code resp = 0 →
  moves e e' (delta (unstake_sender t) (unstake_amount t))
    (delta (unstake_sender t) (- unstake_amount t)).
Proof.
  intros Hwf Hn Hrun H0. pose proof (unstake_cases e t Hwf Hn) as Hc. cbv zeta in Hc.
  destruct (account_at rd e (unstake_sender t)) as [[acc h]|] eqn:Es;
    [|rewrite Hc in Hrun; injection Hrun as <- <-; discriminate].
  destruct (staking_at rd e (unstake_sender t)) as [[sacc sh]|] eqn:Est;
    [|rewrite Hc in Hrun; injection Hrun as <- <-; discriminate].
  destruct (_ <? unstake_amount t) eqn:Elt; eld_bool;
    [rewrite Hc in Hrun; injection Hrun as <- <-; discriminate|].
  destruct (MAX_COIN <? _) eqn:Eov; eld_bool;
    [rewrite Hc in Hrun; injection Hrun as <- <-; discriminate|].
  destruct Hc as [ev Hc]. rewrite Hc in Hrun. injection Hrun as <- <-.
  destruct (proj2 Hwf _ _ _ Est) as [Hsa Hsw]. destruct (proj1 Hwf _ _ _ Es) as [Haa Haw].
  pose proof (stake_of_range rd e (unstake_sender t) Hwf).
  pose proof (balance_of_range rd e (unstake_sender t) Hwf).
  assert (coin_amount (sa_stake_balance sacc) = stk e (unstake_sender t)) as Hsb
    by (unfold stake_of; by rewrite Est).
  assert (coin_amount (acc_balance acc) = bal e (unstake_sender t)) as Hab
    by (unfold balance_of; by rewrite Es).
  pose proof (moves_staking e _ sacc sh (- unstake_amount t) Hwf Hsa Hsb ltac:(lia)) as Hm1.
  set (e1 := with_staking _ _ _ e) in *.
  assert (bal e1 (unstake_sender t) = bal e (unstake_sender t)) as Hb1.
  { destruct Hm1 as (_ & Hb & _). rewrite Hb. lia. }
  rewrite <- Hb1 in Hab |- *.
  assert (∀ k, nonce_of rd e1 (unstake_sender t) = Some k → k = acc_nonce acc) as Hk.
  { intros k. unfold e1. rewrite nonce_of_with_staking. by apply nonce_of_account with h. }
  pose proof (moves_account e1 _ acc h (unstake_amount t) (proj1 Hm1) Haw Haa Hab
                ltac:(lia) Hk) as Hm2.
  pose proof (moves_trans _ _ _ _ _ _ _ Hm1 Hm2) as Hm.
  eapply moves_ext; [| |exact Hm]; intros a; cbv beta; lia.
Qed.

(** ** Properties *)

(** C3. A transfer answers, succeeds exactly when the sender exists, can pay
    and the recipient stays within the supply cap, and then moves exactly the
    amount from the sender to the recipient: every other balance, every stake
    and every nonce is unchanged, and the total of any set of accounts holding
    both is conserved. *)
Theorem transfer_correct (e : AppStateEnvelope) (t : TransferTx) :
  let s := transfer_sender t in
  let r := transfer_recipient t in
  let n := transfer_amount t in
  ledger_wf rd e → TransferTx_new s r n = Ok t → 0 ≤ n →
  ∃ resp e', run (process_transfer_tx rd t) e = Some (resp, e') ∧ ledger_wf rd e' ∧
    (resp_code resp = 0 ↔
       is_Some (nonce_of rd e s) ∧ n ≤ bal e s ∧ bal e r + n ≤ MAX_COIN) ∧
    (resp_code resp = 0 →
       (∀ a, bal e' a = bal e a + delta s (- n) a + delta r n a) ∧
       (∀ a, stk e' a = stk e a) ∧
       (∀ a k, nonce_of rd e a = Some k → nonce_of rd e' a = Some k) ∧
       (∀ l, NoDup l → s ∈ l → r ∈ l → holdings rd e' l = holdings rd e l)).
Proof.
  intros s r n Hwf Hv Hn. pose proof Hv as (_ & Hsr & Hn0 & HnM)%TransferTx_new_Ok.
  assert (∃ resp e', run (process_transfer_tx rd t) e = Some (resp, e') ∧
    (resp_code resp = 0 ↔
       is_Some (nonce_of rd e s) ∧ n ≤ bal e s ∧ bal e r + n ≤ MAX_COIN)) as (resp & e' & Hrun & Hiff).
  { pose proof (transfer_cases e t Hwf ltac:(fold n; lia)) as Hc. cbv zeta in Hc. fold s r n in Hc.
    unfold nonce_of. destruct (account_at rd e s) as [[acc h]|] eqn:Es.
    - destruct (bal e s <? n) eqn:E1; eld_bool; [|destruct (MAX_COIN <? bal e r + n) eqn:E2; eld_bool].
      + eexists _, _; split; [exact Hc|]. simpl. split; [done|lia].
      + eexists _, _; split; [exact Hc|]. simpl. split; [done|lia].
      + destruct Hc as [ev Hc]. eexists _, _; split; [exact Hc|]. simpl. split; [|done].
        intros _. split_and!; [eauto|lia|lia].
    - eexists _, _; split; [exact Hc|]. simpl. split; [done|]. by intros [[? ?] _]. }
  exists resp, e'. pose proof (transfer_moves e t resp e' Hwf Hv Hn Hrun) as Hm. fold s r n in Hm.
  split_and!; [done| |done|].
  - destruct (resp_code resp =? 0); [apply Hm|]. destruct Hm as [->|[_ Hm]]; [done|apply Hm].
  - intros H0. rewrite H0 in Hm. simpl in Hm. pose proof Hm as (_ & Hb & Hs & Hk).
    split_and!; [|intros a; rewrite Hs; lia|done|].
    + intros a. rewrite Hb. lia.
    + intros l Hnd Hsl Hrl. rewrite (moves_holdings _ _ _ _ _ Hm).
      rewrite (foldr_ext _ (λ a m, (if bool_decide (a = s) then - n else
        if bool_decide (a = r) then n else 0) + m) 0 0 l l); [|..|done|done].
      * rewrite sum_move, !bool_decide_eq_true_2 by done. lia.
      * intros a m. unfold delta. repeat case_bool_decide; subst; try lia. done.
Qed.

(** A transfer that would lift the recipient above the supply cap is
    rejected, but only after the sender was debited: the amount leaves the
    sender's balance and reaches no account. *)
Theorem rejected_transfer_burns (e : AppStateEnvelope) (t : TransferTx) :
  let s := transfer_sender t in
  let r := transfer_recipient t in
  let n := transfer_amount t in
  ledger_wf rd e → TransferTx_new s r n = Ok t → 0 ≤ n →
  is_Some (nonce_of rd e s) → n ≤ bal e s → MAX_COIN < bal e r + n →
  ∃ resp e', run (process_transfer_tx rd t) e = Some (resp, e') ∧ resp_code resp = 51 ∧
    bal e' s = bal e s - n ∧ bal e' r = bal e r.
Proof.
  intros s r n Hwf Hv Hn [k Hk] Hb Ho. pose proof Hv as (_ & Hsr & Hn0 & HnM)%TransferTx_new_Ok.
  pose proof (transfer_cases e t Hwf ltac:(fold n; lia)) as Hc. cbv zeta in Hc. fold s r n in Hc.
  unfold nonce_of in Hk. destruct (account_at rd e s) as [[acc h]|] eqn:Es; [|done].
  destruct (bal e s <? n) eqn:E1; eld_bool; [lia|].
  destruct (MAX_COIN <? bal e r + n) eqn:E2; eld_bool; [|lia].
  eexists _, _; split; [exact Hc|]. split; [done|].
  pose proof (balance_of_range rd e s Hwf). destruct (proj1 Hwf _ _ _ Es) as [_ Hsw].
  rewrite !balance_of_with_account by (apply Account_wf_set; [done|lia]).
  rewrite bool_decide_eq_true_2, bool_decide_eq_false_2 by done. done.
Qed.

(** Staking answers, succeeds exactly when the sender exists, can pay,
    opens with at least the minimum stake and stays within the cap, and then
    moves exactly the amount from the sender's balance to its stake, so the
    holdings of every account are conserved; when the transaction names a
    validator key, the validator list records the whole new stake. *)
Theorem stake_correct (e : AppStateEnvelope) (t : StakeTx) :
  let s := stake_sender t in
  let n := stake_amount t in
  ledger_wf rd e → coin_wf (min_stake_amount protocol) →
  StakeTx_new s n (stake_public_key t) = Ok t → 0 ≤ n →
  ∃ resp e', run (process_stake_tx rd protocol t) e = Some (resp, e') ∧
    (resp_code resp = 0 ↔
       is_Some (nonce_of rd e s) ∧ n ≤ bal e s ∧ stk e s + n ≤ MAX_COIN ∧
       (stk e s = 0 → coin_amount (min_stake_amount protocol) ≤ n)) ∧
    (resp_code resp = 0 →
       moves e e' (delta s (- n)) (delta s n) ∧
       (∀ l, holdings rd e' l = holdings rd e l) ∧
       (is_Some (stake_public_key t) →
          ∃ v, v ∈ validators e' ∧ val_address v = s ∧ val_stake v = mkCoin (stk e' s))).
Proof.
  intros s n Hwf Hmin Hv Hn.
  assert (∃ resp e', run (process_stake_tx rd protocol t) e = Some (resp, e') ∧
    (resp_code resp = 0 ↔
       is_Some (nonce_of rd e s) ∧ n ≤ bal e s ∧ stk e s + n ≤ MAX_COIN ∧
       (stk e s = 0 → coin_amount (min_stake_amount protocol) ≤ n)) ∧
    (resp_code resp = 0 → is_Some (stake_public_key t) →
          ∃ v, v ∈ validators e' ∧ val_address v = s ∧ val_stake v = mkCoin (stk e s + n)))
    as (resp & e' & Hrun & Hiff & Hval).
  { pose proof (stake_cases e t Hwf Hmin Hv Hn) as Hc. cbv zeta in Hc. fold s n in Hc.
    unfold nonce_of. destruct (account_at rd e s) as [[acc h]|] eqn:Es.
    2: { eexists _, _; split; [exact Hc|]. simpl. split; [|done]. split; [done|]. by intros [[? ?] _]. }
    destruct (bal e s <? n) eqn:E1; eld_bool.
    { eexists _, _; split; [exact Hc|]. simpl. split; [split; [done|lia]|done]. }
    destruct (stk e s =? 0) eqn:E0; cbn [andb] in Hc; eld_bool;
      [destruct (n <? _) eqn:Em in Hc; eld_bool|];
      [eexists _, _; split; [exact Hc|]; simpl; split; [split; [done|lia]|done]|..];
      (destruct (MAX_COIN <? stk e s + n) eqn:E2; eld_bool;
       [eexists _, _; split; [exact Hc|]; simpl; split; [split; [done|lia]|done]|];
       destruct Hc as [ev Hc]; eexists _, _; split; [exact Hc|]; cbn [resp_code resp_ok];
       split; [split; [intros _; split_and!; [eauto|lia..]|done]|];
       intros _ [k Hk]; rewrite Hk; apply upsert_validator_stake). }
  exists resp, e'. split_and!; [done..|]. intros H0.
  pose proof (stake_moves e t resp e' Hwf Hmin Hv Hn Hrun H0) as Hm. fold s n in Hm.
  split_and!; [done| |].
  - intros l. eapply moves_balanced; [|exact Hm]. intros a. unfold delta. case_bool_decide; lia.
  - intros Hk. destruct (Hval H0 Hk) as (v & Hin & Ha & Hst). exists v. split_and!; [done..|].
    rewrite Hst. f_equal. destruct Hm as (_ & _ & Hs & _). rewrite Hs. unfold delta.
    by rewrite bool_decide_eq_true_2.
Qed.

(** Unstaking answers, succeeds exactly when the sender holds that much
    stake and stays within the cap, and then moves exactly the amount back to
    the balance, conserving the holdings of every account. *)
Theorem unstake_correct (e : AppStateEnvelope) (t : UnstakeTx) :
  let s := unstake_sender t in
  let n := unstake_amount t in
  ledger_wf rd e → UnstakeTx_new s n = Ok t → 0 ≤ n →
  ∃ resp e', run (process_unstake_tx rd t) e = Some (resp, e') ∧
    (resp_code resp = 0 ↔
       is_Some (nonce_of rd e s) ∧ n ≤ stk e s ∧ bal e s + n ≤ MAX_COIN) ∧
    (resp_code resp = 0 →
       moves e e' (delta s n) (delta s (- n)) ∧
       (∀ l, holdings rd e' l = holdings rd e l)).
Proof.
  intros s n Hwf Hv Hn. apply UnstakeTx_new_Ok in Hv as (_ & Hn0 & HnM).
  assert (∃ resp e', run (process_unstake_tx rd t) e = Some (resp, e') ∧
    (resp_code resp = 0 ↔
       is_Some (nonce_of rd e s) ∧ n ≤ stk e s ∧ bal e s + n ≤ MAX_COIN)) as (resp & e' & Hrun & Hiff).
  { pose proof (unstake_cases e t Hwf ltac:(fold n; lia)) as Hc. cbv zeta in Hc. fold s n in Hc.
    unfold nonce_of. destruct (account_at rd e s) as [[acc h]|] eqn:Es.
    2: { eexists _, _; split; [exact Hc|]. simpl. split; [done|]. by intros [[? ?] _]. }
    destruct (staking_at rd e s) as [[sacc sh]|] eqn:Est.
    2: { eexists _, _; split; [exact Hc|]. simpl. split; [done|].
         assert (stk e s = 0) by (unfold stake_of; by rewrite Est). lia. }
    destruct (stk e s <? n) eqn:E1; eld_bool; [|destruct (MAX_COIN <? bal e s + n) eqn:E2; eld_bool].
    - eexists _, _; split; [exact Hc|]. simpl. split; [done|lia].
    - eexists _, _; split; [exact Hc|]. simpl. split; [done|lia].
    - destruct Hc as [ev Hc]. eexists _, _; split; [exact Hc|]. simpl. split; [|done].
      intros _. split_and!; [eauto|lia|lia]. }
  exists resp, e'. split_and!; [done..|]. intros H0.
  pose proof (unstake_moves e t resp e' Hwf ltac:(fold n; lia) Hrun H0) as Hm. fold s n in Hm.
  split; [done|]. intros l. eapply moves_balanced; [|exact Hm].
  intros a. unfold delta. case_bool_decide; lia.
Qed.

(** Unstaking does not touch the validator lists: a validator that
    withdraws all its stake keeps the stake it registered with in the list
    epoch selection sorts. *)
Theorem unstake_keeps_validator_stake (e : AppStateEnvelope) (t : UnstakeTx) :
  ledger_wf rd e → 0 ≤ unstake_amount t ≤ MAX_COIN →
  ∃ resp e', run (process_unstake_tx rd t) e = Some (resp, e') ∧
    validators e' = validators e ∧ active_validators e' = active_validators e.
Proof.
  intros Hwf Hn. pose proof (unstake_cases e t Hwf Hn) as Hc. cbv zeta in Hc.
  destruct (account_at rd e (unstake_sender t)) as [[acc h]|]; [|eauto].
  destruct (staking_at rd e (unstake_sender t)) as [[sacc sh]|]; [|eauto].
  destruct (_ <? unstake_amount t); [eauto|]. destruct (MAX_COIN <? _); [eauto|].
  destruct Hc as [ev Hc]. eauto.
Qed.
End movements.

(** ** Witnesses *)

(** A backend with nothing stored. *)
Definition rd0 : StorageReads :=
  mkStorageReads (λ _, Ok None) (λ _, Ok false) (λ _, Ok false) (λ _, Ok None).

Lemma ledger_wf_default {H : HexCrate} {C : RecordCodecs} : ledger_wf rd0 envelope_default.
Proof. split; intros a x h; done. Qed.

(** A sender holding 100000 base units, and a recipient at the cap. *)
Definition test_account : Account := mkAccount test_sender (mkCoin 100000) (mkNonce 0).
Definition test_env : AppStateEnvelope :=
  with_account test_sender zero_hash test_account envelope_default.
Definition full_env : AppStateEnvelope :=
  with_account test_recipient zero_hash
    (mkAccount test_recipient (mkCoin MAX_COIN) (mkNonce 0)) test_env.
Definition staked_env : AppStateEnvelope :=
  with_staking test_sender zero_hash (mkStakingAccount test_sender (mkCoin 700) test_sender)
    test_env.

Lemma test_env_wf : ledger_wf rd0 test_env.
Proof.
  apply ledger_wf_with_account; [apply ledger_wf_default| |done].
  split; split; simpl; discriminate.
Qed.

Lemma full_env_wf : ledger_wf rd0 full_env.
Proof.
  apply ledger_wf_with_account; [apply test_env_wf| |done].
  split; split; simpl; discriminate.
Qed.

Lemma staked_env_wf : ledger_wf rd0 staked_env.
Proof.
  apply ledger_wf_with_staking; [apply test_env_wf| |done]. split; simpl; discriminate.
Qed.

Lemma transfer_correct_witness :
  ∃ resp e', run (process_transfer_tx rd0 (mkTransferTx test_sender test_recipient 250)) test_env
    = Some (resp, e') ∧ ledger_wf rd0 e'.
Proof.
  destruct (transfer_correct rd0 test_env (mkTransferTx test_sender test_recipient 250) test_env_wf)
    as (resp & e' & Hr & Hw & _); [vm_compute; reflexivity|discriminate|].
  exists resp, e'. split; [exact Hr|exact Hw].
Defined.

Lemma rejected_transfer_burns_witness :
  ∃ resp e', run (process_transfer_tx rd0 (mkTransferTx test_sender test_recipient 250)) full_env
    = Some (resp, e') ∧ resp_code resp = 51 ∧ balance_of rd0 e' test_sender = 99750.
Proof.
  destruct (rejected_transfer_burns rd0 full_env (mkTransferTx test_sender test_recipient 250)
    full_env_wf) as (resp & e' & Hr & Hc & Hb & _);
    [vm_compute; reflexivity|discriminate|exists (mkNonce 0); vm_compute; reflexivity
    |vm_compute; discriminate|vm_compute; reflexivity|].
  exists resp, e'. split; [exact Hr|]. split; [exact Hc|].
  simpl in Hb. rewrite Hb. vm_compute. reflexivity.
Defined.

Lemma stake_correct_witness :
  ∃ resp e', run (process_stake_tx rd0 local_dev (mkStakeTx test_sender 700 None)) test_env
    = Some (resp, e') ∧ resp_code resp = 0.
Proof.
  destruct (stake_correct rd0 local_dev test_env (mkStakeTx test_sender 700 None) test_env_wf)
    as (resp & e' & Hr & Hi & _);
    [split; vm_compute; discriminate|vm_compute; reflexivity|discriminate|].
  exists resp, e'. split; [exact Hr|]. apply Hi. split; [exists (mkNonce 0); vm_compute; reflexivity|].
  split; [vm_compute; discriminate|]. split; [vm_compute; discriminate|].
  intros _. vm_compute. discriminate.
Defined.

Lemma unstake_correct_witness :
  ∃ resp e', run (process_unstake_tx rd0 (mkUnstakeTx test_sender 700)) staked_env
    = Some (resp, e') ∧ resp_code resp = 0.
Proof.
  destruct (unstake_correct rd0 staked_env (mkUnstakeTx test_sender 700) staked_env_wf)
    as (resp & e' & Hr & Hi & _); [vm_compute; reflexivity|discriminate|].
  exists resp, e'. split; [exact Hr|]. apply Hi. split; [exists (mkNonce 0); vm_compute; reflexivity|].
  split; vm_compute; discriminate.
Defined.

Lemma unstake_keeps_validator_stake_witness :
  ∃ resp e', run (process_unstake_tx rd0 (mkUnstakeTx test_sender 700)) staked_env
    = Some (resp, e') ∧ validators e' = validators staked_env.
Proof.
  destruct (unstake_keeps_validator_stake rd0 staked_env (mkUnstakeTx test_sender 700) staked_env_wf)
    as (resp & e' & Hr & Hv & _); [split; vm_compute; discriminate|].
  exists resp, e'. split; [exact Hr|exact Hv].
Defined.
