(* ===== verification/VerifiedProof.v ===== *)
(** Capacity challenges and the [VerifiedProof] transaction:
    common/src/capacity_challenge.rs (which chunks a challenge asks for, its
    id), consensus/tx_processor/verified_proof_processor.rs (binding of a proof
    to the epoch record, failure counting, the processor) and the reward of
    consensus/rewards.rs. *)
From S2P Require Import Prelude Externals Reference Coins Address Namespace Cado Records Tx Merkle Fee Pinboard AppState Ledger Processors.

(** [to_be_bytes] of a 64-bit integer *)
Definition be_bytes8 (z : Z) : bytes := reverse (le_bytes 8 z).

Definition CHALLENGE_CHUNK_SELECTION_DOMAIN : bytes := as_bytes "CHALLENGE_CHUNK_SELECTION".

Section challenge.
Context {H : HexCrate} {HC : HashCrates} {R : RandCrate}.

Definition select_challenge_chunk_indices (epoch : Z) (provider_id : Address) (block_height : Z)
    (validator_address : Address) (chunk_count chunks_per_challenge : Z) : list Z :=
  if chunk_count =? 0 then []
  else
    let challenge_seed_bytes :=
      sha256 (CHALLENGE_CHUNK_SELECTION_DOMAIN ++ be_bytes8 epoch ++
              as_bytes (hex_with_prefix provider_id) ++ be_bytes8 block_height ++
              as_bytes (hex_with_prefix validator_address)) in
    let '(chunk_indices, _) := rng_shuffle (rng_from_seed challenge_seed_bytes)
                                 (seqZ 0 chunk_count) in
    take (Z.to_nat (Z.min chunks_per_challenge chunk_count)) chunk_indices.

Definition compute_challenge_id (validator_address provider_id : Address) (block_height : Z)
    (chunk_indices : list Z) : ChallengeId :=
  mkChallengeId
    (sha256 (as_bytes (hex_with_prefix validator_address) ++
             as_bytes (hex_with_prefix provider_id) ++ be_bytes8 block_height ++
             (chunk_indices ≫= be_bytes8))).

(** ** Binding a proof to the chain *)

Record VerifiedProofBinding : Type := mkVerifiedProofBinding {
  challenged_provider_id : Address;
  validator_address : Address;
  expected_merkle_root : byte_array 32;
  expected_indices : list Z;
  expected_challenge_id : ChallengeId;
}.

(** The rejection texts are dropped. *)
Definition proof_epoch_in_window (block_height current_epoch blocks_per_epoch : Z) : option Z :=
  if block_height <=? 0 then None
  else if current_epoch <? 0 then None
  else
    let proof_epoch := Z.quot block_height blocks_per_epoch in
    let in_window := (proof_epoch =? current_epoch) ||
                     ((0 <? current_epoch) && (proof_epoch =? current_epoch - 1)) in
    if in_window then Some proof_epoch else None.

Definition validate_verified_proof_binding (epoch_record : EpochRecord)
    (sender provider : Address) (challenge_id : string)
    (block_height blocks_per_epoch chunks_per_challenge : Z) : option VerifiedProofBinding :=
  let proof_epoch := Z.quot block_height blocks_per_epoch in
  if negb (er_epoch epoch_record =? proof_epoch) then None else
  active_sv ← er_active_capacity_validator epoch_record;
  if negb (acv_epoch active_sv =? proof_epoch) then None else
  if negb (bool_decide (sender = acv_validator_address active_sv)) then None else
  if negb (bool_decide (provider ∈ acv_challenged_providers active_sv)) then None else
  provider_info ← list_find (λ p, cv_address p = provider)
                    (er_challenged_capacity_validators epoch_record);
  chunk_count ← match cv_chunk_count provider_info.2 with
                | Some c => if 0 <? c then Some c else None
                | None => None
                end;
  merkle_root ← cv_merkle_root provider_info.2;
  let validator_address := acv_validator_address active_sv in
  let expected_indices :=
    select_challenge_chunk_indices (acv_epoch active_sv) provider block_height
      validator_address chunk_count chunks_per_challenge in
  parsed_challenge_id ← ok (ChallengeId_parse_hex challenge_id);
  let expected_challenge_id :=
    compute_challenge_id validator_address provider block_height expected_indices in
  if negb (bool_decide (parsed_challenge_id = expected_challenge_id)) then None
  else Some (mkVerifiedProofBinding provider validator_address merkle_root expected_indices
               expected_challenge_id).

Definition bind_verified_proof (epoch_record : option EpochRecord) (current_epoch : Z)
    (sender provider : Address) (challenge_id : string) (block_height : Z)
    (protocol : ProtocolConstants) : option VerifiedProofBinding :=
  _ ← proof_epoch_in_window block_height current_epoch (blocks_per_epoch protocol);
  record ← epoch_record;
  validate_verified_proof_binding record sender provider challenge_id block_height
    (blocks_per_epoch protocol) (chunks_per_challenge protocol).
End challenge.

(** ** Failures and rewards *)

Definition with_stake (stake : Coin) (p : CapacityValidatorInfo) : CapacityValidatorInfo :=
  mkCapacityValidatorInfo (cv_address p) stake (cv_public_key p) (cv_storage_capacity p)
    (cv_merkle_root p) (cv_seed p) (cv_chunk_count p) (cv_registered_at p)
    (cv_last_merkle_root_update p) (cv_registered_block p) (cv_registration_duration p).

Definition with_duration (d : Z) (p : CapacityValidatorInfo) : CapacityValidatorInfo :=
  mkCapacityValidatorInfo (cv_address p) (cv_stake p) (cv_public_key p) (cv_storage_capacity p)
    (cv_merkle_root p) (cv_seed p) (cv_chunk_count p) (cv_registered_at p)
    (cv_last_merkle_root_update p) (cv_registered_block p) d.

(** [record_failed_capacity_proof]: the recorded count and whether it slashed. *)
Definition record_failed_capacity_proof (provider : Address) (failed_proofs_before_slash : Z)
    (e : AppStateEnvelope) : (Z * bool) * AppStateEnvelope :=
  let count := saturating_add u32_max (default 0 (failed_proof_counts e !! provider)) 1 in
  if failed_proofs_before_slash <=? count then
    ((0, true),
     set_failed_proof_counts (<[provider := 0]> (failed_proof_counts e))
       (set_capacity_validators
          (update_first (λ cv, bool_decide (cv_address cv = provider)) (with_stake Coin_zero)
             (capacity_validators e)) e))
  else
    ((count, false), set_failed_proof_counts (<[provider := count]> (failed_proof_counts e)) e).

Section processor.
Context {H : HexCrate} {HC : HashCrates} {C : RecordCodecs} {E : Ed25519} {J : TxJson}
  {R : RandCrate} (rd : StorageReads) (protocol : ProtocolConstants).

(** [credit_verified_proof_reward], every error answered as a validation failure. *)
Definition credit_verified_proof_reward (provider : Address) (reward : Coin) : env_handler unit :=
  path ← or_return (CadoPath_new Cado_Account (Key_Address provider))
           (λ _, response_deliver_tx_error_validation_failed);
  e ← get_state;
  let '(provider_account, hash) :=
    match get_account_from_cado rd e path with
    | Some account_with_hash => account_with_hash
    | None => (mkAccount provider Coin_zero (mkNonce Nonce_ZERO), zero_hash)
    end in
  updated_balance ← or_return (Coin_add (acc_balance provider_account) reward)
                      (λ _, response_deliver_tx_error_validation_failed);
  let updated_provider :=
    mkAccount (acc_address provider_account) updated_balance (acc_nonce provider_account) in
  serialized ← or_return (Account_serialize_bin updated_provider)
                 (λ _, response_deliver_tx_error_validation_failed);
  modify (update_cado_cache path
    (CadoBody_mutable_updated hash serialized
       (CADOMetadata_new Cado_Account (hex_with_prefix provider)))).

(** The lease of a registered provider, extended from the next block. *)
Definition extend_lease (provider : Address) (e : AppStateEnvelope) : AppStateEnvelope :=
  let current_block := as_u64 (wrap_i64 (block_height e + 1)) in
  set_capacity_validators
    (update_first
       (λ cv, bool_decide (cv_address cv = provider) && negb (cv_registered_block cv =? 0))
       (λ cv, with_duration (wrap_u64 (saturating_sub current_block (cv_registered_block cv)
                                       + registration_duration_blocks protocol)) cv)
       (capacity_validators e)) e.

Definition process_verified_proof_tx (tx : VerifiedProofTx) : env_handler ResponseDeliverTx :=
  let reward_amount := coin_amount (verified_proof_reward_base_amount protocol) in
  reward_coin ← or_return (Coin_new reward_amount)
                  (λ _, response_deliver_tx_error_validation_failed);
  let provider := vp_capacity_provider tx in
  let sender := vp_sender tx in
  let challenge_id := vp_challenge_id tx in
  e ← get_state;
  rewarded ← or_return (is_verified_proof_challenge_rewarded rd e challenge_id)
               (λ _, response_deliver_tx_error_validation_failed);
  _ ← return_if rewarded response_deliver_tx_error_validation_failed;
  failed ← or_return (is_verified_proof_challenge_failed rd e challenge_id)
             (λ _, response_deliver_tx_error_validation_failed);
  _ ← return_if failed response_deliver_tx_error_validation_failed;
  proof_epoch ← some_or_return (proof_epoch_in_window (vp_block_height tx) (current_epoch e)
                                  (blocks_per_epoch protocol))
                  response_deliver_tx_error_validation_failed;
  epoch_record ← or_return (get_epoch_record rd e proof_epoch)
                   (λ _, response_deliver_tx_error_validation_failed);
  binding ← some_or_return (bind_verified_proof epoch_record (current_epoch e) sender provider
                              challenge_id (vp_block_height tx) protocol)
              response_deliver_tx_error_validation_failed;
  _ ← some_or_return (verify_capacity_challenge_response challenge_id
                        (challenged_provider_id binding) (validator_address binding)
                        (vp_block_height tx) (vp_proofs tx) (vp_generated_at tx)
                        (vp_provider_pubkey tx) (vp_provider_signature tx))
        response_deliver_tx_error_validation_failed;
  let proof_valid := validate_challenge_proof (vp_proofs tx) (expected_merkle_root binding)
                       (expected_indices binding) in
  if vp_failed tx then
    _ ← return_if proof_valid response_deliver_tx_error_validation_failed;
    e ← get_state;
    let '((failure_count, slashed), e') :=
      record_failed_capacity_proof provider (failed_proofs_before_slash protocol) e in
    _ ← modify (λ _, set_failed_proof_counted_cache
                       ({[ challenge_id ]} ∪ failed_proof_counted_cache e') e');
    mret (resp_ok [mkEvent "VerifiedProof"
      [attr "sender" (hex_with_prefix sender);
       attr "capacity_provider" (hex_with_prefix provider);
       attr "challenge_id" challenge_id;
       attr "failed" "true";
       attr "failure_count" (to_string failure_count);
       attr "slashed" (if slashed then "true" else "false")]])
  else
    _ ← return_if (negb proof_valid) response_deliver_tx_error_validation_failed;
    _ ← credit_verified_proof_reward provider reward_coin;
    _ ← modify (extend_lease provider);
    _ ← modify (λ e, set_verified_proof_rewarded_cache
                       ({[ challenge_id ]} ∪ verified_proof_rewarded_cache e) e);
    mret (resp_ok
      [mkEvent "VerifiedProof"
         [attr "sender" (hex_with_prefix sender);
          attr "capacity_provider" (hex_with_prefix provider);
          attr "challenge_id" challenge_id;
          attr "block_height" (to_string_i64 (vp_block_height tx));
          attr "verified_at_block" (to_string_i64 (vp_verified_at_block tx));
          attr "verified_at_timestamp" (to_string (vp_verified_at_timestamp tx));
          attr "reward" (to_string reward_amount)];
       mkEvent "Transfer"
         [attr "from" "rewards_pool"; attr "to" (hex_with_prefix provider);
          attr "amount" (to_string reward_amount)]]).
End processor.

(** ** Lemmas *)

Section facts.
Context {H : HexCrate} {HL : HexLaws H} {HC : HashCrates} {C : RecordCodecs}
  {CL : RecordCodecsLaws C} {E : Ed25519} {J : TxJson} {R : RandCrate}
  (rd : StorageReads) (protocol : ProtocolConstants).

(** The envelope after a reward: the provider credited, its lease extended,
    the challenge marked. *)
Definition rewarded_envelope (e : AppStateEnvelope) (provider : Address) (reward : Z)
    (challenge_id : string) : AppStateEnvelope :=
  let acc := (account_or_fresh rd e provider).1 in
  let e1 := with_account provider (account_or_fresh rd e provider).2
              (mkAccount (acc_address acc) (mkCoin (balance_of rd e provider + reward))
                 (acc_nonce acc)) e in
  let e2 := extend_lease protocol provider e1 in
  set_verified_proof_rewarded_cache ({[ challenge_id ]} ∪ verified_proof_rewarded_cache e2) e2.

Lemma credit_run e provider (reward : Coin) :
  ledger_wf rd e → coin_wf reward →
  let acc := (account_or_fresh rd e provider).1 in
  let n := balance_of rd e provider + coin_amount reward in
  credit_verified_proof_reward rd provider reward e =
    if MAX_COIN <? n then Return response_deliver_tx_error_validation_failed e
    else Next tt (with_account provider (account_or_fresh rd e provider).2
                    (mkAccount (acc_address acc) (mkCoin n) (acc_nonce acc)) e).
Proof.
  intros Hwf Hr. destruct (account_or_fresh_wf rd e provider Hwf) as (Hw & Ha & Hb).
  pose proof (balance_of_range rd e provider Hwf) as Hrange. cbv zeta.
  unfold credit_verified_proof_reward. ledger_unfold.
  rewrite CadoPath_new_address by done. cbv beta iota. fold (account_path provider).
  change (get_account_from_cado rd e (account_path provider)) with (account_at rd e provider).
  fold (account_or_fresh rd e provider).
  destruct (account_or_fresh rd e provider) as [acc h]. cbn [fst snd] in *. cbv beta iota.
  destruct reward as [r]. destruct acc as [aa [ab] an]. cbn [acc_balance coin_amount] in *.
  destruct Hr as [Hr0 Hr1]. cbn [coin_amount] in *. subst ab.
  destruct (MAX_COIN <? balance_of rd e provider + r) eqn:Em; eld_bool.
  - destruct (Coin_add_over (mkCoin (balance_of rd e provider)) (mkCoin r)) as [er ->]; done.
  - rewrite Coin_add_in by done. cbn [acc_address acc_nonce coin_amount].
    unfold Account_serialize_bin.
    assert (Account_wf (mkAccount aa (mkCoin (balance_of rd e provider + r)) an)) as Hw'
      by (apply (Account_wf_set _ _ Hw); lia).
    destruct (bin_roundtrip _ Hw') as (b & Es & _). rewrite Es. cbn beta iota.
    unfold with_account, account_path. rewrite Es. cbn [ok_or]. cbv beta iota.
    by rewrite update_cado_cache_eld.
Qed.

(** What an accepted proof has passed. *)
Record vp_gates (e : AppStateEnvelope) (tx : VerifiedProofTx) (b : VerifiedProofBinding) : Prop := {
  gate_not_rewarded :
    is_verified_proof_challenge_rewarded rd e (vp_challenge_id tx) = Ok false;
  gate_not_failed :
    is_verified_proof_challenge_failed rd e (vp_challenge_id tx) = Ok false;
  gate_binding : ∃ epoch record,
    proof_epoch_in_window (vp_block_height tx) (current_epoch e) (blocks_per_epoch protocol)
      = Some epoch ∧
    get_epoch_record rd e epoch = Ok (Some record) ∧
    validate_verified_proof_binding record (vp_sender tx) (vp_capacity_provider tx)
      (vp_challenge_id tx) (vp_block_height tx) (blocks_per_epoch protocol)
      (chunks_per_challenge protocol) = Some b;
  gate_signature :
    verify_capacity_challenge_response (vp_challenge_id tx) (challenged_provider_id b)
      (validator_address b) (vp_block_height tx) (vp_proofs tx) (vp_generated_at tx)
      (vp_provider_pubkey tx) (vp_provider_signature tx) = Some tt;
  gate_proof :
    validate_challenge_proof (vp_proofs tx) (expected_merkle_root b) (expected_indices b)
      = negb (vp_failed tx);
}.

(** The envelope after a counted failure. *)
Definition failed_envelope (e : AppStateEnvelope) (tx : VerifiedProofTx) : AppStateEnvelope :=
  let e' := (record_failed_capacity_proof (vp_capacity_provider tx)
               (failed_proofs_before_slash protocol) e).2 in
  set_failed_proof_counted_cache
    ({[ vp_challenge_id tx ]} ∪ failed_proof_counted_cache e') e'.

(** The processor answers on every input: a rejection that changes nothing,
    or, behind the gates, a counted failure or a reward. *)
Lemma verified_proof_cases e tx :
  ledger_wf rd e → coin_wf (verified_proof_reward_base_amount protocol) →
  let reward := coin_amount (verified_proof_reward_base_amount protocol) in
  run (process_verified_proof_tx rd protocol tx) e =
    Some (response_deliver_tx_error_validation_failed, e) ∨
  ∃ b events e', vp_gates e tx b ∧
    run (process_verified_proof_tx rd protocol tx) e = Some (resp_ok events, e') ∧
    if vp_failed tx then e' = failed_envelope e tx
    else balance_of rd e (vp_capacity_provider tx) + reward ≤ MAX_COIN ∧
         e' = rewarded_envelope e (vp_capacity_provider tx) reward (vp_challenge_id tx).
Proof.
  intros Hwf Hrw. cbv zeta. unfold process_verified_proof_tx. ledger_unfold.
  rewrite Coin_new_in by apply Hrw. cbn beta iota.
  destruct (is_verified_proof_challenge_rewarded rd e (vp_challenge_id tx)) as [[|]|] eqn:G0;
    [by left| |by left].
  destruct (is_verified_proof_challenge_failed rd e (vp_challenge_id tx)) as [[|]|] eqn:G1;
    [by left| |by left]. cbn beta iota.
  destruct (proof_epoch_in_window _ _ _) as [epoch|] eqn:Gw; [|by left].
  destruct (get_epoch_record rd e epoch) as [rec|] eqn:Gr; [|by left].
  destruct (bind_verified_proof rec _ _ _ _ _ _) as [b|] eqn:Gb; [|by left].
  destruct (verify_capacity_challenge_response _ _ _ _ _ _ _ _) as [[]|] eqn:Gs; [|by left].
  assert (∃ record, rec = Some record ∧
    validate_verified_proof_binding record (vp_sender tx) (vp_capacity_provider tx)
      (vp_challenge_id tx) (vp_block_height tx) (blocks_per_epoch protocol)
      (chunks_per_challenge protocol) = Some b) as (record & -> & Gv).
  { unfold bind_verified_proof in Gb. rewrite Gw in Gb. destruct rec; [|done]. eauto. }
  destruct (vp_failed tx) eqn:Ef.
  - destruct (validate_challenge_proof _ _ _) eqn:Gp; [by left|right].
    unfold failed_envelope. destruct (record_failed_capacity_proof _ _ _) as [[fc sl] e'].
    eexists b, _, _. split; [|split; [reflexivity|done]].
    constructor; eauto. by rewrite Ef.
  - destruct (validate_challenge_proof _ _ _) eqn:Gp; [|by left]. cbn [negb].
    rewrite credit_run by (done || exact Hrw). cbn [coin_amount].
    destruct (MAX_COIN <? _) eqn:Em; [by left|right]. eld_bool. cbn beta iota.
    eexists b, _, _. split; [|split; [reflexivity|done]].
    constructor; eauto. by rewrite Ef.
Qed.

Lemma rewarded_moves e provider reward challenge_id :
  ledger_wf rd e → 0 ≤ reward → balance_of rd e provider + reward ≤ MAX_COIN →
  moves rd e (rewarded_envelope e provider reward challenge_id) (delta provider reward) (λ _, 0).
Proof.
  intros Hwf Hr Hm. destruct (account_or_fresh_wf rd e provider Hwf) as (Hw & Ha & Hb).
  pose proof (balance_of_range rd e provider Hwf).
  eapply moves_frame; [|reflexivity|reflexivity].
  apply moves_account; try done; [lia|].
  intros k. unfold nonce_of, account_or_fresh.
  destruct (account_at rd e provider) as [[acc h]|]; [by intros [= <-]|done].
Qed.

Lemma failed_moves e tx : ledger_wf rd e → moves rd e (failed_envelope e tx) (λ _, 0) (λ _, 0).
Proof.
  intros Hwf. eapply moves_frame; [by apply moves_refl|..];
    unfold failed_envelope, record_failed_capacity_proof; by case_match.
Qed.

(** What the gates say of the record the proof is bound to. *)
Lemma gates_bound e tx b :
  let provider := vp_capacity_provider tx in
  vp_gates e tx b →
  ∃ record sv i entry root count,
    get_epoch_record rd e (Z.quot (vp_block_height tx) (blocks_per_epoch protocol))
      = Ok (Some record) ∧
    (er_epoch record = current_epoch e ∨ er_epoch record = current_epoch e - 1) ∧
    er_active_capacity_validator record = Some sv ∧
    vp_sender tx = acv_validator_address sv ∧
    provider ∈ acv_challenged_providers sv ∧
    list_find (λ p, cv_address p = provider) (er_challenged_capacity_validators record)
      = Some (i, entry) ∧
    cv_merkle_root entry = Some root ∧ cv_chunk_count entry = Some count ∧ 0 < count ∧
    verify_capacity_challenge_response (vp_challenge_id tx) provider
      (acv_validator_address sv) (vp_block_height tx) (vp_proofs tx) (vp_generated_at tx)
      (vp_provider_pubkey tx) (vp_provider_signature tx) = Some tt ∧
    let indices := select_challenge_chunk_indices (acv_epoch sv) provider
                     (vp_block_height tx) (acv_validator_address sv) count
                     (chunks_per_challenge protocol) in
    ok (ChallengeId_parse_hex (vp_challenge_id tx)) =
      Some (compute_challenge_id (acv_validator_address sv) provider (vp_block_height tx)
              indices) ∧
    validate_challenge_proof (vp_proofs tx) root indices = negb (vp_failed tx).
Proof.
  intros provider [_ _ (epoch & record & Hw & Hrec & Hb) Hsig Hproof].
  unfold proof_epoch_in_window in Hw. destruct (_ <=? 0); [done|].
  destruct (_ <? 0); [done|]. cbv zeta in Hw. destruct (_ || _) eqn:Hwin; [|done].
  injection Hw as <-. unfold validate_verified_proof_binding in Hb. fold provider in Hb.
  destruct (er_epoch record =? _) eqn:Eep; [|done]. cbn [negb] in Hb.
  destruct (er_active_capacity_validator record) as [sv|] eqn:Esv; [|done]. simpl in Hb.
  destruct (acv_epoch sv =? _); [|done]. simpl in Hb.
  case_bool_decide as Esend; [|done]. case_bool_decide as Ein; [|done]. cbn [negb] in Hb.
  destruct (list_find _ _) as [[i entry]|] eqn:Efind; [|done]. cbn [option_bind mbind snd] in Hb.
  destruct (cv_chunk_count entry) as [count|] eqn:Ecount; [|done].
  destruct (0 <? count) eqn:Epos; [|done]. cbn [option_bind mbind] in Hb.
  destruct (cv_merkle_root entry) as [root|] eqn:Eroot; [|done]. cbn [option_bind mbind] in Hb.
  destruct (ok (ChallengeId_parse_hex _)) as [id|] eqn:Eparse; [|done]. cbn [option_bind mbind] in Hb.
  case_bool_decide as Eid; [|done]. cbn [negb] in Hb. injection Hb as <-.
  simpl in Hsig, Hproof. eld_bool.
  exists record, sv, i, entry, root, count. cbv zeta.
  split_and!; [done| |done..|exact Hsig| |exact Hproof].
  - apply orb_true_iff in Hwin as [Hwin|Hwin]; eld_bool; lia.
  - by rewrite <- Eid.
Qed.

(** *** What an accepted proof leaves, field by field *)

(** The first element with the property, rewritten. *)
Definition replace_first {A} (P : A → Prop) `{∀ x, Decision (P x)} (f : A → A) (l : list A) :
    list A :=
  match list_find P l with Some (i, x) => <[i := f x]> l | None => l end.

Lemma update_first_replace {A} (p : A → bool) (P : A → Prop) `{!∀ x, Decision (P x)}
    (f : A → A) (l : list A) :
  (∀ x, p x = true ↔ P x) → update_first p f l = replace_first P f l.
Proof.
  intros Hp. unfold replace_first. induction l as [|x l IH]; [done|]. cbn [update_first list_find].
  destruct (decide (P x)) as [Hx|Hx].
  - by rewrite (proj2 (Hp x) Hx).
  - destruct (p x) eqn:Ep; [by apply Hp in Ep|]. rewrite IH.
    by destruct (list_find P l) as [[i y]|].
Qed.

(** A reward: the challenge is marked, the provider's first registered entry
    has its lease counted anew from the next block, the failures stay. *)
Definition reward_recorded (e : AppStateEnvelope) (tx : VerifiedProofTx) (e' : AppStateEnvelope) :
    Prop :=
  let next_block := as_u64 (wrap_i64 (block_height e + 1)) in
  verified_proof_rewarded_cache e' = {[ vp_challenge_id tx ]} ∪ verified_proof_rewarded_cache e ∧
  failed_proof_counted_cache e' = failed_proof_counted_cache e ∧
  failed_proof_counts e' = failed_proof_counts e ∧
  capacity_validators e' =
    replace_first (λ cv, cv_address cv = vp_capacity_provider tx ∧ cv_registered_block cv ≠ 0)
      (λ cv, with_duration (wrap_u64 (saturating_sub next_block (cv_registered_block cv)
                                      + registration_duration_blocks protocol)) cv)
      (capacity_validators e).

(** A failure: the challenge is marked and the provider's count goes up by one;
    at the threshold the count starts again and the stake of the provider's
    first entry is taken. *)
Definition failure_recorded (e : AppStateEnvelope) (tx : VerifiedProofTx) (e' : AppStateEnvelope) :
    Prop :=
  let provider := vp_capacity_provider tx in
  let count := Z.min u32_max (default 0 (failed_proof_counts e !! provider) + 1) in
  failed_proof_counted_cache e' = {[ vp_challenge_id tx ]} ∪ failed_proof_counted_cache e ∧
  verified_proof_rewarded_cache e' = verified_proof_rewarded_cache e ∧
  if decide (failed_proofs_before_slash protocol ≤ count) then
    failed_proof_counts e' = <[provider := 0]> (failed_proof_counts e) ∧
    capacity_validators e' =
      replace_first (λ cv, cv_address cv = provider) (with_stake Coin_zero) (capacity_validators e)
  else
    failed_proof_counts e' = <[provider := count]> (failed_proof_counts e) ∧
    capacity_validators e' = capacity_validators e.

(** Outside the accounts, the registry and the outcomes nothing changes. *)
Definition outcome_frame (e e' : AppStateEnvelope) : Prop :=
  e' = set_cado_cache (cado_cache e') (set_capacity_validators (capacity_validators e')
         (set_failed_proof_counts (failed_proof_counts e')
           (set_failed_proof_counted_cache (failed_proof_counted_cache e')
             (set_verified_proof_rewarded_cache (verified_proof_rewarded_cache e') e)))).

Lemma rewarded_recorded e tx reward :
  let e' := rewarded_envelope e (vp_capacity_provider tx) reward (vp_challenge_id tx) in
  reward_recorded e tx e' ∧ outcome_frame e e'.
Proof.
  cbv zeta. split; [|done]. split_and!; [done..|].
  unfold rewarded_envelope, extend_lease.
  rewrite <- (update_first_replace
    (λ cv, bool_decide (cv_address cv = vp_capacity_provider tx) && negb (cv_registered_block cv =? 0))).
  - done.
  - intros cv. rewrite andb_true_iff, bool_decide_eq_true, negb_true_iff, Z.eqb_neq. done.
Qed.

Lemma failed_recorded e tx :
  failure_recorded e tx (failed_envelope e tx) ∧ outcome_frame e (failed_envelope e tx).
Proof.
  unfold failure_recorded, failed_envelope, record_failed_capacity_proof, saturating_add.
  destruct (_ <=? _) eqn:El; eld_bool;
    (split; [|done]); (split; [done|]); (split; [done|]).
  - rewrite decide_True by done. split; [done|].
    rewrite <- (update_first_replace (λ cv, bool_decide (cv_address cv = vp_capacity_provider tx)));
      [done|]. intros cv. by rewrite bool_decide_eq_true.
  - rewrite decide_False by lia. done.
Qed.

(** ** Properties *)

(** C4. A verified-proof transaction always answers; a rejection changes
    nothing; and acceptance means the proof was bound to the chain: a stored
    record of the current or previous epoch names the sender as its capacity
    validator and the provider as challenged, the challenge id is the one
    computed for the chunks that record selects at the challenged height, the
    provider's signature over the response verifies, and the chunk proofs
    against the Merkle root of the provider's recorded entry are valid exactly
    when the sender did not report a failure.  An accepted success mints exactly
    the reward to the provider, marks the challenge as rewarded and starts the
    lease of the provider's registration anew; an accepted failure moves no
    coins, marks the challenge as failed and counts one failure, which at the
    threshold takes the registered stake and starts the count again; neither
    changes anything else. *)
Theorem verified_proof_correct (e : AppStateEnvelope) (tx : VerifiedProofTx) :
  let provider := vp_capacity_provider tx in
  let reward := coin_amount (verified_proof_reward_base_amount protocol) in
  ledger_wf rd e → coin_wf (verified_proof_reward_base_amount protocol) →
  ∃ resp e', run (process_verified_proof_tx rd protocol tx) e = Some (resp, e') ∧
    (resp_code resp ≠ 0 → e' = e) ∧
    (resp_code resp = 0 →
       (∃ record sv i entry root count,
         get_epoch_record rd e (Z.quot (vp_block_height tx) (blocks_per_epoch protocol))
           = Ok (Some record) ∧
         (er_epoch record = current_epoch e ∨ er_epoch record = current_epoch e - 1) ∧
         er_active_capacity_validator record = Some sv ∧
         vp_sender tx = acv_validator_address sv ∧
         provider ∈ acv_challenged_providers sv ∧
         list_find (λ p, cv_address p = provider) (er_challenged_capacity_validators record)
           = Some (i, entry) ∧
         cv_merkle_root entry = Some root ∧ cv_chunk_count entry = Some count ∧ 0 < count ∧
         verify_capacity_challenge_response (vp_challenge_id tx) provider
           (acv_validator_address sv) (vp_block_height tx) (vp_proofs tx) (vp_generated_at tx)
           (vp_provider_pubkey tx) (vp_provider_signature tx) = Some tt ∧
         let indices := select_challenge_chunk_indices (acv_epoch sv) provider
                          (vp_block_height tx) (acv_validator_address sv) count
                          (chunks_per_challenge protocol) in
         ok (ChallengeId_parse_hex (vp_challenge_id tx)) =
           Some (compute_challenge_id (acv_validator_address sv) provider (vp_block_height tx)
                   indices) ∧
         validate_challenge_proof (vp_proofs tx) root indices = negb (vp_failed tx)) ∧
       moves rd e e' (delta provider (if vp_failed tx then 0 else reward)) (λ _, 0) ∧
       (if vp_failed tx then failure_recorded e tx e' else reward_recorded e tx e') ∧
       outcome_frame e e').
Proof.
  intros provider reward Hwf Hrw.
  destruct (verified_proof_cases e tx Hwf Hrw) as [Hrej|(b & ev & e' & Hg & Hrun & He)].
  { eexists _, _. split; [exact Hrej|]. split; [done|by intros]. }
  eexists _, _. split; [exact Hrun|]. split; [done|]. intros _. split; [by eapply gates_bound|].
  destruct (vp_failed tx).
  - subst e'. destruct (failed_recorded e tx) as [Hf Hfr]. split_and!; [|done..].
    eapply moves_ext; [| |by apply failed_moves]; [|done].
    intros a. unfold delta. by case_bool_decide.
  - destruct He as [Hm ->]. destruct (rewarded_recorded e tx reward) as [Hf Hfr].
    split_and!; [|done..]. apply rewarded_moves; [done|apply Hrw|done].
Qed.

(** The outcome of a challenge is on record under this text of its id. *)
Definition outcome_known (e : AppStateEnvelope) (id : string) : Prop :=
  is_verified_proof_challenge_rewarded rd e id = Ok true ∨
  is_verified_proof_challenge_failed rd e id = Ok true.

Lemma accepted_known e tx resp e1 :
  coin_wf (verified_proof_reward_base_amount protocol) → ledger_wf rd e →
  run (process_verified_proof_tx rd protocol tx) e = Some (resp, e1) → resp_code resp = 0 →
  outcome_known e1 (vp_challenge_id tx).
Proof.
  intros Hrw Hwf Hrun H0. destruct (verified_proof_cases e tx Hwf Hrw) as [Hrej|(b & ev & e' & _ & Hrun' & He)].
  { rewrite Hrej in Hrun. injection Hrun as <- <-. done. }
  rewrite Hrun' in Hrun. injection Hrun as _ <-.
  unfold outcome_known, is_verified_proof_challenge_rewarded, is_verified_proof_challenge_failed.
  destruct (vp_failed tx); [right; subst e'|left; destruct He as [_ ->]];
    (rewrite bool_decide_eq_true_2; [done|]); [set_solver|]. unfold rewarded_envelope. set_solver.
Qed.

Lemma known_rejected e tx :
  outcome_known e (vp_challenge_id tx) →
  run (process_verified_proof_tx rd protocol tx) e =
    Some (response_deliver_tx_error_validation_failed, e).
Proof.
  intros Hk. unfold process_verified_proof_tx. ledger_unfold.
  destruct (Coin_new _); [|done]. cbn beta iota.
  destruct (is_verified_proof_challenge_rewarded rd e (vp_challenge_id tx)) as [[|]|] eqn:G0; [done| |done].
  destruct (is_verified_proof_challenge_failed rd e (vp_challenge_id tx)) as [[|]|] eqn:G1; [done| |done].
  destruct Hk; congruence.
Qed.

(** The id a proof is bound to is compared after parsing, the outcomes are
    remembered by text: the same challenge spelled with a [0x] prefix binds to
    the same epoch, provider and chunks, and is not seen as already rewarded. *)
Theorem respelled_challenge_binds_again (record : option EpochRecord) (epoch : Z)
    (sender provider : Address) (c : ChallengeId) (block_height : Z) (e : AppStateEnvelope) :
  let id := ChallengeId_to_hex c in
  let id' := String.append "0x" id in
  bind_verified_proof record epoch sender provider id' block_height protocol =
    bind_verified_proof record epoch sender provider id block_height protocol ∧
  (id' ∉ verified_proof_rewarded_cache e → storage_challenge_rewarded rd id' = Ok false →
   is_verified_proof_challenge_rewarded rd
     (set_verified_proof_rewarded_cache ({[ id ]} ∪ verified_proof_rewarded_cache e) e) id'
   = Ok false).
Proof.
  intros id id'. split.
  - unfold bind_verified_proof, validate_verified_proof_binding, ChallengeId_parse_hex.
    unfold id', id, ChallengeId_to_hex.
    pose proof (decode_fixed_hex_encode 31 (challenge_bytes c) "challenge ID" EmptyString
      ltac:(auto)) as H1. change (String.append EmptyString ?x) with x in H1. rewrite H1.
    by rewrite (decode_fixed_hex_encode 31 (challenge_bytes c) "challenge ID" "0x") by auto.
  - intros Hn Hs. unfold is_verified_proof_challenge_rewarded.
    assert (id' ≠ id) as Hne.
    { intros Heq. apply (f_equal String.length) in Heq. unfold id' in Heq.
      rewrite string_length_app in Heq. simpl in Heq. lia. }
    rewrite bool_decide_eq_false_2; [done|].
    intros [Hi%elem_of_singleton|Hi]%elem_of_union; [done|by apply Hn].
Qed.

Context {RL : RandLaws R}.

(** A challenge asks for distinct existing chunks, as many as configured
    or all of them. *)
Theorem challenge_chunks_distinct (epoch : Z) (provider : Address) (h : Z) (v : Address)
    (count per : Z) :
  0 ≤ count → 0 ≤ per →
  let l := select_challenge_chunk_indices epoch provider h v count per in
  NoDup l ∧ (∀ i, i ∈ l → 0 ≤ i < count) ∧ Z.of_nat (length l) = Z.min per count.
Proof.
  intros Hc Hp. unfold select_challenge_chunk_indices.
  destruct (count =? 0) eqn:E0; eld_bool.
  { subst. cbv zeta. split_and!; [constructor|by intros i ?%elem_of_nil|simpl; lia]. }
  set (seed := sha256 _).
  pose proof (rng_shuffle_perm (rng_from_seed seed) (seqZ 0 count)) as Hperm.
  destruct (rng_shuffle _ _) as [l r]. cbn [fst] in Hperm. cbv zeta.
  set (n := Z.to_nat _). split_and!.
  - assert (NoDup l) as Hnd by (rewrite Hperm; apply NoDup_seqZ).
    rewrite <- (take_drop n l) in Hnd. by apply list.NoDup_app in Hnd as [? _].
  - intros i Hi. assert (i ∈ l) as Hl.
    { rewrite <- (take_drop n l). apply elem_of_app. by left. }
    rewrite Hperm in Hl. apply elem_of_seqZ in Hl. lia.
  - rewrite length_take, Hperm, length_seqZ. unfold n. lia.
Qed.
End facts.

(** ** Witnesses *)

(** One epoch: the provider holds a single chunk and is challenged at block 20
    by the epoch's capacity validator. *)
Definition test_provider_info : CapacityValidatorInfo :=
  mkCapacityValidatorInfo test_sender Coin_zero (mkPublicKey test_key) 1024
    (Some (hash_chunk [])) (Some test_key) (Some 1) (Some 1) None 1 1000.

Definition test_active : ActiveCapacityValidator :=
  mkActiveCapacityValidator test_recipient 1 [test_sender] [].

Definition test_record : EpochRecord :=
  mkEpochRecord 1 20 [] (Some test_active) [test_provider_info].

Definition test_codecs : RecordCodecs := {|
  account_codec := ref_account_codec;
  staking_codec := ref_staking_codec;
  namespace_codec := countable_bincode NamespaceRecord;
  epoch_codec := shortcut_bincode test_record (countable_bincode EpochRecord);
|}.

Lemma test_codecs_laws : RecordCodecsLaws test_codecs.
Proof.
  constructor; [apply ref_account_laws|apply ref_staking_laws|apply countable_bincode_laws|].
  apply shortcut_bincode_laws, countable_bincode_laws.
Qed.

Definition test_challenge : ChallengeId :=
  compute_challenge_id test_recipient test_sender 20 [0].

Definition test_epoch_env : AppStateEnvelope :=
  set_current_epoch 1 (set_committed_cado_cache
    {[ cp_path (eld_path Cado_EpochRecord (match epoch_record_path_name 1 with
                                           | Ok n => n | Err _ => EmptyString end)) :=
       CadoBody_immutable [Byte.x00]
         (CADOMetadata_new Cado_EpochRecord EmptyString) ]}
    envelope_default).

Definition test_signed : string * string :=
  default (EmptyString, EmptyString)
    (sign_capacity_challenge_response test_sk (ChallengeId_to_hex test_challenge) test_sender
       test_recipient 20 [test_chunk] 1600000000).

Definition test_proof_tx : VerifiedProofTx :=
  mkVerifiedProofTx test_recipient test_sender (ChallengeId_to_hex test_challenge) 20 21 1600000000
    [test_chunk] 1600000000 test_signed.1 test_signed.2 false.

Lemma test_epoch_env_wf {C : RecordCodecs} : ledger_wf (C := C) rd0 test_epoch_env.
Proof.
  split; intros a x h; unfold account_at, staking_at, get_account_from_cado,
    get_staking_account_from_cado, lookup_cado_staged_committed_then_db;
    cbn [test_epoch_env cado_cache committed_cado_cache set_current_epoch
         set_committed_cado_cache envelope_default]; rewrite lookup_empty;
    (rewrite lookup_singleton_ne; [done|]; intros Heq; vm_compute in Heq; discriminate).
Qed.

Lemma test_reward_run :
  match run (process_verified_proof_tx (C := test_codecs) rd0 local_dev test_proof_tx) test_epoch_env with
  | Some (resp, e') => resp_code resp = 0 ∧ balance_of (C := test_codecs) rd0 e' test_sender = 1000
  | None => False
  end.
Proof. vm_compute. split; reflexivity. Qed.

Lemma verified_proof_correct_witness :
  ∃ resp e', run (process_verified_proof_tx (C := test_codecs) rd0 local_dev test_proof_tx) test_epoch_env
    = Some (resp, e') ∧ resp_code resp = 0 ∧
    balance_of (C := test_codecs) rd0 e' test_sender = 1000 ∧
    reward_recorded local_dev test_epoch_env test_proof_tx e'.
Proof.
  destruct (verified_proof_correct (CL := test_codecs_laws) rd0 local_dev test_epoch_env test_proof_tx
    test_epoch_env_wf)
    as (resp & e' & Hr & _ & Hok); [split; vm_compute; discriminate|].
  exists resp, e'. split; [exact Hr|]. pose proof test_reward_run as Ht. rewrite Hr in Ht.
  destruct Ht as [H0 Hb]. destruct (Hok H0) as (_ & _ & Hrec & _).
  split; [exact H0|]. split; [exact Hb|exact Hrec].
Defined.

Lemma respelled_challenge_binds_again_witness :
  is_verified_proof_challenge_rewarded rd0
    (set_verified_proof_rewarded_cache
       ({[ ChallengeId_to_hex test_challenge ]} ∪ verified_proof_rewarded_cache test_epoch_env)
       test_epoch_env)
    (String.append "0x" (ChallengeId_to_hex test_challenge)) = Ok false.
Proof.
  apply (respelled_challenge_binds_again rd0 local_dev None 1 test_sender test_recipient
    test_challenge 20 test_epoch_env); [|reflexivity].
  intros Hin. apply elem_of_empty in Hin. destruct Hin.
Defined.

Lemma challenge_chunks_distinct_witness :
  NoDup (select_challenge_chunk_indices 1 test_sender 20 test_recipient 50 10).
Proof.
  apply (challenge_chunks_distinct 1 test_sender 20 test_recipient 50 10); discriminate.
Defined.
