(* ===== verification/Deliver.v ===== *)
(** Transaction delivery: consensus/deliver_tx.rs (decoding, signature, fee,
    nonce, charge) and the dispatch of consensus/tx_deliver.rs to the
    processors. *)
From S2P Require Import Prelude Externals Reference Coins Address Namespace Cado Records Tx Merkle Wire Validation Fee Pinboard AppState Ledger Processors VerifiedProof.

(** ** UTF-8 *)

Definition byte_between (lo hi : N) (b : Byte.byte) : bool :=
  (lo <=? Byte.to_N b)%N && (Byte.to_N b <=? hi)%N.
Definition continuation (b : Byte.byte) : bool := byte_between 0x80 0xBF b.

(** Well-formed UTF-8: the byte ranges of each sequence length. *)
Fixpoint utf8_valid (l : bytes) : bool :=
  match l with
  | [] => true
  | a :: l1 =>
      if byte_between 0 0x7F a then utf8_valid l1
      else
        match l1 with
        | [] => false
        | b :: l2 =>
            if byte_between 0xC2 0xDF a then continuation b && utf8_valid l2
            else
              match l2 with
              | [] => false
              | c :: l3 =>
                  if byte_between 0xE0 0xE0 a then
                    byte_between 0xA0 0xBF b && continuation c && utf8_valid l3
                  else if byte_between 0xED 0xED a then
                    byte_between 0x80 0x9F b && continuation c && utf8_valid l3
                  else if byte_between 0xE1 0xEF a then
                    continuation b && continuation c && utf8_valid l3
                  else
                    match l3 with
                    | [] => false
                    | d :: l4 =>
                        continuation c && continuation d && utf8_valid l4 &&
                        (if byte_between 0xF0 0xF0 a then byte_between 0x90 0xBF b
                         else if byte_between 0xF1 0xF3 a then continuation b
                         else if byte_between 0xF4 0xF4 a then byte_between 0x80 0x8F b
                         else false)
                    end
              end
        end
  end.

(** [String::from_utf8] *)
Definition from_utf8 (b : bytes) : option string :=
  if utf8_valid b then Some (String.string_of_list_ascii (map Ascii.ascii_of_byte b)) else None.

(** ** Delivery *)

Abbreviation state_handler := (handler (option AppState) ResponseDeliverTx).

(** A processor on the current state; it panics when there is none. *)
Definition on_current {A} (h : env_handler A) : state_handler A := λ s,
  match s with
  | None => Fatal
  | Some st =>
      match h (envelope st) with
      | Next a e => Next a (Some (set_envelope e st))
      | Return r e => Return r (Some (set_envelope e st))
      | Fatal => Fatal
      end
  end.

Section deliver.
Context {H : HexCrate} {HC : HashCrates} {C : RecordCodecs} {E : Ed25519} {J : TxJson}
  {R : RandCrate} {SJ : SerdeJson} (rd : StorageReads) (protocol : ProtocolConstants).

(** [ConsensusTxDeliver::process] *)
Definition process (tx : Tx) : env_handler ResponseDeliverTx :=
  match payload_inner (tx_payload tx) with
  | VerifiedProof t => process_verified_proof_tx rd protocol t
  | RegisterCapacity t => process_register_capacity_tx rd protocol t (tx_public_key tx)
  | UnregisterCapacity t => process_unregister_capacity_tx rd t
  | UpdateCapacityMerkleRoot t => process_update_capacity_merkle_root_tx rd t
  | Transfer t => process_transfer_tx rd t
  | Stake t =>
      if String.eqb (payload_type (tx_payload tx)) "Unstake" then
        match UnstakeTx_new (stake_sender t) (stake_amount t) with
        | Ok unstake_tx => process_unstake_tx rd unstake_tx
        | Err _ => mret response_deliver_tx_error_validation_failed
        end
      else process_stake_tx rd protocol t
  | Unstake t => process_unstake_tx rd t
  | PostMessage t => process_post_message_tx protocol t
  | AddNamespace t => process_add_namespace_tx rd t
  end.

Definition MAX_HEX_BYTES : Z := 1024 * 1024.
Definition MAX_JSON_SIZE : Z := 10 * 1024 * 1024.
Definition MAX_JSON_DEPTH : nat := 10.

(** Steps 1 to 9 of [deliver_tx_inner]: the bytes of a transaction, or the
    error they are answered with. *)
Definition decode_tx (tx_bytes : bytes) : result ResponseDeliverTx Tx :=
  if max_tx_bytes protocol <? Z.of_nat (length tx_bytes)
  then Err response_deliver_tx_error_tx_too_large else
  let? hex_str := ok_or (from_utf8 tx_bytes) response_deliver_tx_error_invalid_utf8_encoding in
  match validate_hex_string hex_str MAX_HEX_BYTES with
  | Err _ => Err response_deliver_tx_error_hex_validation_failed
  | Ok _ =>
  let? decoded_bytes := ok_or (hex_decode hex_str)
                          response_deliver_tx_error_invalid_hex_encoding in
  let? decoded_json := ok_or (from_utf8 decoded_bytes)
                         response_deliver_tx_error_invalid_utf8_encoding in
  match validate_json_string decoded_json MAX_JSON_SIZE MAX_JSON_DEPTH with
  | Err _ => Err response_deliver_tx_error_json_validation_failed
  | Ok _ =>
  let? json_value := ok_or (value_from_str decoded_json)
                       response_deliver_tx_error_json_parsing_failed in
  match validate_transaction_structure json_value with
  | Err _ => Err response_deliver_tx_error_transaction_structure_invalid
  | Ok _ => ok_or (tx_from_json decoded_json) response_deliver_tx_error_json_parsing_failed
  end end end.

(** The checks of the sender's account, then its nonce and fee are written. *)
Definition charge (tx : Tx) : env_handler unit :=
  let sender_addr := sender (payload_inner (tx_payload tx)) in
  sender_path ← or_return (CadoPath_new Cado_Account (Key_Address sender_addr))
                  (λ _, response_deliver_tx_error_invalid_path_format);
  e ← get_state;
  '(sender_account, hash) ← some_or_return (get_account_from_cado rd e sender_path)
                              response_deliver_tx_error_sender_doesnt_exist;
  expected_nonce ← some_or_return (Nonce_next (acc_nonce sender_account))
                     response_deliver_tx_error_nonce_overflow;
  _ ← return_if (negb (bool_decide (expected_nonce = tx_nonce tx)))
        response_deliver_tx_error_nonce_not_sequential;
  fee ← or_return (TxAmount_to_coin (tx_fee tx)) (λ _, response_deliver_tx_error_invalid_coin_amount);
  _ ← or_return (validate_fee_amount fee) (λ _, response_deliver_tx_error_fee_validation_failed);
  _ ← return_if (Coin_ltb (acc_balance sender_account) fee)
        response_deliver_tx_error_insufficient_funds;
  updated_balance ← or_return (Coin_sub (acc_balance sender_account) fee)
                      (λ _, response_deliver_tx_error_invalid_coin_amount);
  let updated_sender := mkAccount sender_addr updated_balance expected_nonce in
  serialized ← some_or_return (bin_serialize updated_sender)
                 response_deliver_tx_error_internal_lock_failed;
  modify (update_cado_cache sender_path
    (CadoBody_mutable_updated hash serialized
       (CADOMetadata_new Cado_Account (hex_with_prefix sender_addr)))).

(** The answer with the estimated gas. *)
Definition with_gas (tx : Tx) (response : ResponseDeliverTx) : ResponseDeliverTx :=
  match estimated_gas_usage tx with
  | Ok gas =>
      if gas <=? i64_max
      then mkResponseDeliverTx (resp_code response) (resp_events response) gas gas
      else response
  | Err _ => response
  end.

(** [tx.process(self).await]: the processor's answer, whichever way it returns. *)
Definition answered (h : env_handler ResponseDeliverTx) : env_handler ResponseDeliverTx := λ e,
  match h e with Next r e' | Return r e' => Next r e' | Fatal => Fatal end.

Definition deliver_tx_inner (committed_chain_id : string) (tx_bytes : bytes) :
    state_handler ResponseDeliverTx :=
  tx ← or_return (decode_tx tx_bytes) id;
  _ ← return_if (negb (match Tx_verify tx committed_chain_id with
                       | Ok b => b | Err _ => false end))
        response_deliver_tx_error_verification_failed;
  required_fee ← or_return (calculate_dynamic_fee tx (fee_config protocol))
                   (λ _, response_deliver_tx_error_fee_calculation_failed);
  provided_fee ← or_return (TxAmount_to_coin (tx_fee tx))
                   (λ _, response_deliver_tx_error_invalid_coin_amount);
  _ ← return_if (Coin_ltb provided_fee required_fee) response_deliver_tx_error_insufficient_fee;
  current ← get_state;
  _ ← some_or_return current response_deliver_tx_error_internal_lock_failed;
  _ ← on_current (charge tx);
  response ← on_current (answered (process tx));
  mret (with_gas tx response).
End deliver.

(** ** Settlement of a payload *)

Section settlement.
Context {H : HexCrate} {HL : HexLaws H} {HC : HashCrates} {C : RecordCodecs}
  {CL : RecordCodecsLaws C} {E : Ed25519} {J : TxJson} {R : RandCrate} {SJ : SerdeJson}
  (rd : StorageReads) (protocol : ProtocolConstants).

(** What an accepted transaction moves on the balances and on the stakes. *)
Definition balance_change (tx : Tx) : Address → Z :=
  match payload_inner (tx_payload tx) with
  | Transfer t => λ a, delta (transfer_sender t) (- transfer_amount t) a +
                       delta (transfer_recipient t) (transfer_amount t) a
  | Stake t =>
      if String.eqb (payload_type (tx_payload tx)) "Unstake"
      then delta (stake_sender t) (stake_amount t)
      else delta (stake_sender t) (- stake_amount t)
  | Unstake t => delta (unstake_sender t) (unstake_amount t)
  | VerifiedProof t =>
      if vp_failed t then λ _, 0
      else delta (vp_capacity_provider t) (coin_amount (verified_proof_reward_base_amount protocol))
  | AddNamespace t => delta (addns_sender t) (- addns_registration_fee t)
  | _ => λ _, 0
  end.

Definition stake_change (tx : Tx) : Address → Z :=
  match payload_inner (tx_payload tx) with
  | Stake t =>
      if String.eqb (payload_type (tx_payload tx)) "Unstake"
      then delta (stake_sender t) (- stake_amount t)
      else delta (stake_sender t) (stake_amount t)
  | Unstake t => delta (unstake_sender t) (- unstake_amount t)
  | _ => λ _, 0
  end.

(** Some account would end above the coin cap. *)
Definition over_cap (balance stake : Address → Z) (d ds : Address → Z) : Prop :=
  ∃ a, MAX_COIN < balance a + d a ∨ MAX_COIN < stake a + ds a.

(** Accepted: exactly the moves [d] and [ds].  Rejected: nothing moved, or a
    credit hit the coin cap after the debit had been staged, which stays. *)
Definition settled (d ds : Address → Z) (e : AppStateEnvelope) (resp : ResponseDeliverTx)
    (e' : AppStateEnvelope) : Prop :=
  if resp_code resp =? 0 then moves rd e e' d ds
  else e' = e ∨ over_cap (balance_of rd e) (stake_of rd e) d ds ∧
       moves rd e e' (λ a, Z.min 0 (d a)) (λ a, Z.min 0 (ds a)).

Lemma settled_rejected d ds e resp : resp_code resp ≠ 0 → settled d ds e resp e.
Proof. intros Hr. unfold settled. rewrite (proj2 (Z.eqb_neq _ _) Hr). by left. Qed.

Lemma settled_capped d ds d' ds' e resp e' :
  resp_code resp ≠ 0 → over_cap (balance_of rd e) (stake_of rd e) d ds → moves rd e e' d' ds' →
  (∀ a, d' a = Z.min 0 (d a)) → (∀ a, ds' a = Z.min 0 (ds a)) → settled d ds e resp e'.
Proof.
  intros Hr Ho Hm Hd Hds. unfold settled. rewrite (proj2 (Z.eqb_neq _ _) Hr). right.
  split; [exact Ho|]. by eapply moves_ext.
Qed.

(** Only fields outside the object caches changed. *)
Lemma settled_frame e resp e' :
  ledger_wf rd e → cado_cache e' = cado_cache e →
  committed_cado_cache e' = committed_cado_cache e → resp_code resp = 0 →
  settled (λ _, 0) (λ _, 0) e resp e'.
Proof.
  intros Hwf Hc Hcc Hr. unfold settled. rewrite (proj2 (Z.eqb_eq _ _) Hr).
  by eapply moves_frame; [apply moves_refl|..].
Qed.

(** Every settled state keeps the accounts well-formed and their nonces. *)
Lemma settled_keeps d ds e resp e' :
  ledger_wf rd e → settled d ds e resp e' →
  ledger_wf rd e' ∧ ∀ a k, nonce_of rd e a = Some k → nonce_of rd e' a = Some k.
Proof.
  intros Hwf. unfold settled. destruct (_ =? 0); [|intros [->|[_ Hm]]; [done|revert Hm]];
    intros (? & _ & _ & ?); done.
Qed.

Lemma delta_self a n : delta a n a = n.
Proof. unfold delta. by rewrite bool_decide_eq_true_2. Qed.

Lemma delta_min_neg s n a : 0 ≤ n → delta s (- n) a = Z.min 0 (delta s (- n) a).
Proof. unfold delta. case_bool_decide; lia. Qed.

Lemma delta_min_pos s n a : 0 ≤ n → 0 = Z.min 0 (delta s n a).
Proof. unfold delta. case_bool_decide; lia. Qed.

Lemma transfer_settles e t :
  ledger_wf rd e → payload_ok (Transfer t) →
  ∃ resp e', run (process_transfer_tx rd t) e = Some (resp, e') ∧
    settled (λ a, delta (transfer_sender t) (- transfer_amount t) a +
                  delta (transfer_recipient t) (transfer_amount t) a) (λ _, 0) e resp e'.
Proof.
  intros Hwf [Hv Hn]. simpl in Hv, Hn. pose proof Hv as (_ & Hne & _ & HnM)%TransferTx_new_Ok.
  assert (∃ resp e', run (process_transfer_tx rd t) e = Some (resp, e')) as (resp & e' & Hrun).
  { pose proof (transfer_cases rd e t Hwf ltac:(lia)) as Hc. cbv zeta in Hc.
    destruct (account_at rd e (transfer_sender t)) as [[acc h]|]; [|eauto].
    destruct (_ <? transfer_amount t); [eauto|]. destruct (MAX_COIN <? _); [eauto|].
    destruct Hc as [ev Hc]. eauto. }
  exists resp, e'. split; [done|]. pose proof (transfer_moves rd e t resp e' Hwf Hv Hn Hrun) as Hm.
  unfold settled. destruct (resp_code resp =? 0); [exact Hm|].
  destruct Hm as [->|[Ho Hm]]; [by left|right]. split.
  - exists (transfer_recipient t). left. rewrite delta_self.
    unfold delta. rewrite bool_decide_eq_false_2 by done. lia.
  - eapply moves_ext; [| |exact Hm]; intros a; cbn beta; [|lia].
    unfold delta. repeat case_bool_decide; subst; try done; lia.
Qed.

Lemma stake_settles e t :
  ledger_wf rd e → coin_wf (min_stake_amount protocol) → payload_ok (Stake t) →
  ∃ resp e', run (process_stake_tx rd protocol t) e = Some (resp, e') ∧
    settled (delta (stake_sender t) (- stake_amount t)) (delta (stake_sender t) (stake_amount t))
      e resp e'.
Proof.
  intros Hwf Hmin [Hv Hn]. simpl in Hv, Hn.
  pose proof (stake_cases rd protocol e t Hwf Hmin Hv Hn) as Hc. cbv zeta in Hc.
  destruct (account_at rd e (stake_sender t)) as [[acc h]|] eqn:Es.
  2: { eexists _, _. split; [exact Hc|by apply settled_rejected]. }
  destruct (_ <? stake_amount t) eqn:Elt; eld_bool.
  { eexists _, _. split; [exact Hc|by apply settled_rejected]. }
  destruct (_ && _); [eexists _, _; split; [exact Hc|by apply settled_rejected]|].
  destruct (MAX_COIN <? _) eqn:Em; eld_bool.
  - eexists _, _. split; [exact Hc|]. eapply settled_capped; [done| |by eapply stake_debit|..].
    + exists (stake_sender t). right. by rewrite delta_self.
    + intros a. by apply delta_min_neg.
    + intros a. by apply delta_min_pos.
  - destruct Hc as [ev Hc]. eexists _, _. split; [exact Hc|].
    by eapply (stake_moves rd protocol e t).
Qed.

Lemma unstake_settles e t :
  ledger_wf rd e → payload_ok (Unstake t) →
  ∃ resp e', run (process_unstake_tx rd t) e = Some (resp, e') ∧
    settled (delta (unstake_sender t) (unstake_amount t))
      (delta (unstake_sender t) (- unstake_amount t)) e resp e'.
Proof.
  intros Hwf [Hv Hn]. simpl in Hv, Hn. apply UnstakeTx_new_Ok in Hv as (_ & _ & HnM).
  pose proof (unstake_cases rd e t Hwf ltac:(lia)) as Hc. cbv zeta in Hc.
  destruct (account_at rd e (unstake_sender t)) as [[acc h]|] eqn:Es.
  2: { eexists _, _. split; [exact Hc|by apply settled_rejected]. }
  destruct (staking_at rd e (unstake_sender t)) as [[sacc sh]|] eqn:Est.
  2: { eexists _, _. split; [exact Hc|by apply settled_rejected]. }
  destruct (_ <? unstake_amount t) eqn:Elt; eld_bool.
  { eexists _, _. split; [exact Hc|by apply settled_rejected]. }
  destruct (MAX_COIN <? _) eqn:Em; eld_bool.
  - eexists _, _. split; [exact Hc|]. destruct (proj2 Hwf _ _ _ Est) as [Hsa _].
    pose proof (stake_of_range rd e (unstake_sender t) Hwf).
    eapply settled_capped; [done| |..].
    + exists (unstake_sender t). left. by rewrite delta_self.
    + apply moves_staking; [done|exact Hsa|unfold stake_of; by rewrite Est|lia].
    + intros a. by apply delta_min_pos.
    + intros a. by apply delta_min_neg.
  - destruct Hc as [ev Hc]. eexists _, _. split; [exact Hc|].
    by eapply (unstake_moves rd e t); [done|lia|exact Hc|].
Qed.

Lemma verified_proof_settles e t :
  ledger_wf rd e → coin_wf (verified_proof_reward_base_amount protocol) →
  ∃ resp e', run (process_verified_proof_tx rd protocol t) e = Some (resp, e') ∧
    settled (if vp_failed t then λ _, 0
             else delta (vp_capacity_provider t)
                    (coin_amount (verified_proof_reward_base_amount protocol)))
      (λ _, 0) e resp e'.
Proof.
  intros Hwf Hr. pose proof (proj1 Hr) as Hr0.
  destruct (verified_proof_cases rd protocol e t Hwf Hr) as [Hc|(b & ev & e' & _ & Hc & He)].
  { eexists _, _. split; [exact Hc|by apply settled_rejected]. }
  eexists _, _. split; [exact Hc|]. simpl in *. destruct (vp_failed t).
  - subst e'. by apply failed_moves.
  - destruct He as [Hm ->]. by apply rewarded_moves.
Qed.

(** A registration that passed its checks debits the fee and records the slug. *)
Lemma add_namespace_cases e t :
  ledger_wf rd e → payload_ok (AddNamespace t) →
  (∃ resp, resp_code resp ≠ 0 ∧ run (process_add_namespace_tx rd t) e = Some (resp, e)) ∨
  ∃ events acc h, account_at rd e (addns_sender t) = Some (acc, h) ∧
    addns_registration_fee t ≤ balance_of rd e (addns_sender t) ∧
    validate_add_namespace_not_taken e (addns_slug t) = Ok tt ∧
    run (process_add_namespace_tx rd t) e = Some (resp_ok events,
      let e1 := with_account (addns_sender t) h
                  (mkAccount (acc_address acc)
                     (mkCoin (balance_of rd e (addns_sender t) + - addns_registration_fee t))
                     (acc_nonce acc)) e in
      set_namespace_registry_cache
        (<[addns_slug t := mkNamespaceRecord (addns_slug t) (addns_sender t)
             (as_u64 (wrap_i64 (block_height e + 1)))]> (namespace_registry_cache e)) e1).
Proof.
  intros Hwf [[slug Hv] Hn]. simpl in Hn.
  apply AddNamespaceTx_new_Ok in Hv as (_ & _ & Hf0 & HfM & _ & _).
  assert (Coin_new (addns_registration_fee t) = Ok (mkCoin (addns_registration_fee t))) as Hc
    by (by apply Coin_new_in).
  unfold process_add_namespace_tx. ledger_unfold. rewrite Hc. cbn beta iota.
  destruct (validate_add_namespace_not_taken e (addns_slug t)) as [[]|] eqn:Ev;
    [|left; eexists; split; [|reflexivity]; done].
  destruct (slug_to_namespace_cadopath (addns_slug t)) as [path|];
    [|left; eexists; split; [|reflexivity]; done].
  unfold Coin_is_zero, Coin_ltb. cbn [coin_amount].
  rewrite (proj2 (Z.eqb_neq _ _) Hf0). ledger_step.
  destruct (account_at rd e (addns_sender t)) as [[acc h]|] eqn:Ea;
    [|left; eexists; split; [|reflexivity]; done].
  assert (balance_of rd e (addns_sender t) = coin_amount (acc_balance acc)) as Hb
    by (unfold balance_of; by rewrite Ea).
  destruct (proj1 Hwf _ _ _ Ea) as [Haa Haw]. rewrite <- Hb.
  destruct (balance_of rd e (addns_sender t) <? addns_registration_fee t) eqn:El; eld_bool;
    [left; eexists; split; [|reflexivity]; done|right].
  pose proof (balance_of_range rd e (addns_sender t) Hwf).
  rewrite Coin_sub_in; [|apply Haw|done|cbn; lia]. cbn [coin_amount]. rewrite <- Hb.
  replace (mkAccount (addns_sender t)) with (mkAccount (acc_address acc)) by (by rewrite Haa).
  rewrite stage_account_run by (apply Account_wf_set; [done|lia]). cbn beta iota.
  eexists _, acc, h. split_and!; [done|lia|done|]. reflexivity.
Qed.

Lemma add_namespace_settles e t :
  ledger_wf rd e → payload_ok (AddNamespace t) →
  ∃ resp e', run (process_add_namespace_tx rd t) e = Some (resp, e') ∧
    settled (delta (addns_sender t) (- addns_registration_fee t)) (λ _, 0) e resp e'.
Proof.
  intros Hwf Hp. destruct (add_namespace_cases e t Hwf Hp)
    as [(resp & Hr & Hc)|(ev & acc & h & Ea & Hf & _ & Hc)].
  { eexists _, _. split; [exact Hc|by apply settled_rejected]. }
  eexists _, _. split; [exact Hc|]. destruct Hp as [_ Hn]. simpl in Hn. cbv zeta.
  unfold settled. cbn [resp_code resp_ok Z.eqb]. eapply moves_frame; [|reflexivity|reflexivity].
  eapply (stake_debit rd e (addns_sender t)); [done|exact Ea|lia].
Qed.

(** The registry transactions and posts touch no account. *)
Lemma register_settles e t pk :
  ledger_wf rd e →
  ∃ resp e', run (process_register_capacity_tx rd protocol t pk) e = Some (resp, e') ∧
    settled (λ _, 0) (λ _, 0) e resp e'.
Proof.
  intros Hwf. unfold process_register_capacity_tx. ledger_unfold.
  destruct (PublicKey_try_from pk); [|eexists _, _; split; [done|by apply settled_rejected]].
  destruct (is_from_public_key _ _); cbn [negb];
    [|eexists _, _; split; [done|by apply settled_rejected]].
  ledger_step. destruct (account_at rd e (register_sender t));
    [|eexists _, _; split; [done|by apply settled_rejected]].
  destruct (existsb _ _); cbn [negb];
    [|eexists _, _; split; [done|by apply settled_frame]].
  destruct (List.find _ _); [|eexists _, _; split; [done|by apply settled_rejected]].
  case_bool_decide; [|eexists _, _; split; [done|by apply settled_rejected]].
  eexists _, _; split; [done|by apply settled_frame].
Qed.

Lemma unregister_settles e t :
  ledger_wf rd e →
  ∃ resp e', run (process_unregister_capacity_tx rd t) e = Some (resp, e') ∧
    settled (λ _, 0) (λ _, 0) e resp e'.
Proof.
  intros Hwf. unfold process_unregister_capacity_tx. ledger_unfold. ledger_step.
  destruct (account_at rd e (unregister_sender t));
    eexists _, _; (split; [done|]); [by apply settled_frame|by apply settled_rejected].
Qed.

Lemma update_settles e t :
  ledger_wf rd e →
  ∃ resp e', run (process_update_capacity_merkle_root_tx rd t) e = Some (resp, e') ∧
    settled (λ _, 0) (λ _, 0) e resp e'.
Proof.
  intros Hwf. unfold process_update_capacity_merkle_root_tx. ledger_unfold. ledger_step.
  destruct (account_at rd e (update_sender t));
    [|eexists _, _; split; [done|by apply settled_rejected]].
  destruct (existsb _ _); cbn [negb]; eexists _, _; (split; [done|]);
    [by apply settled_frame|by apply settled_rejected].
Qed.

Lemma post_settles e t :
  ledger_wf rd e →
  ∃ resp e', run (process_post_message_tx protocol t) e = Some (resp, e') ∧
    settled (λ _, 0) (λ _, 0) e resp e'.
Proof.
  intros Hwf. unfold process_post_message_tx. ledger_unfold.
  destruct (validate_namespace_upload_authorization _ _ _);
    eexists _, _; (split; [done|]); [by apply settled_frame|by apply settled_rejected].
Qed.

(** What the protocol constants guarantee. *)
Definition protocol_wf : Prop :=
  coin_wf (min_stake_amount protocol) ∧ coin_wf (verified_proof_reward_base_amount protocol).

Lemma process_settles e tx :
  ledger_wf rd e → protocol_wf → payload_ok (payload_inner (tx_payload tx)) →
  ∃ resp e', run (process rd protocol tx) e = Some (resp, e') ∧
    settled (balance_change tx) (stake_change tx) e resp e'.
Proof.
  intros Hwf [Hmin Hrew] Hp. unfold process, balance_change, stake_change.
  destruct (payload_inner (tx_payload tx)) as [t|t|t|t|t|t|t|t|t];
    eauto using transfer_settles, unstake_settles, stake_settles, verified_proof_settles,
      register_settles, unregister_settles, update_settles, post_settles, add_namespace_settles.
  destruct (String.eqb _ _); [|by apply stake_settles].
  destruct (UnstakeTx_new (stake_sender t) (stake_amount t)) as [u|] eqn:Eu.
  - pose proof Eu as (-> & _)%UnstakeTx_new_Ok. destruct Hp as [_ Hn].
    by apply (unstake_settles e (mkUnstakeTx (stake_sender t) (stake_amount t))).
  - eexists _, _. split; [done|by apply settled_rejected].
Qed.
End settlement.

(** ** Delivery of one transaction *)

Section delivery.
Context {H : HexCrate} {HL : HexLaws H} {HC : HashCrates} {C : RecordCodecs}
  {CL : RecordCodecsLaws C} {E : Ed25519} {J : TxJson} {R : RandCrate} {SJ : SerdeJson}
  {W : TxWire SJ J} (rd : StorageReads) (protocol : ProtocolConstants).

Lemma structure_fee v :
  validate_transaction_structure v = Ok tt →
  ∃ m fee, as_object v = Some m ∧ field m "fee" value_as_u64 = Some fee ∧ fee ≤ u32_max.
Proof.
  unfold validate_transaction_structure. destruct (validate_transaction_size v); [|done].
  destruct (as_object v) as [m|]; [|done]. cbn [ok_or].
  destruct (required_fields m _ _) as [[]|] eqn:Er; [|done].
  apply required_fields_Ok in Er. rewrite !Forall_cons_iff in Er.
  destruct Er as (_ & _ & _ & _ & Hfee & _).
  destruct (str_field m "sig" _); [|done]. destruct (validate_hex_string _ 64); [|done].
  destruct (is_number (index m "nonce")); [|done]. cbn [negb].
  destruct (value_as_u64 (index m "nonce")); [|done]. cbn [ok_or].
  destruct (validate_positive_integer _ _ _ "nonce"); [|done].
  destruct (is_object (index m "payload")); [|done]. cbn [negb].
  destruct (str_field m "public_key" _); [|done]. destruct (validate_hex_string _ 32); [|done].
  destruct (is_number (index m "fee")); [|done]. cbn [negb].
  destruct (value_as_u64 (index m "fee")) as [fee|] eqn:Ef; [|done]. cbn [ok_or].
  unfold validate_positive_integer. destruct (fee <? 0); [done|].
  destruct (u32_max <? fee) eqn:Em; [done|]. eld_bool. intros _.
  exists m, fee. split; [done|]. split; [|done]. unfold field.
  by rewrite (contains_key_index m "fee" Hfee).
Qed.

(** A decoded transaction went through its payload's constructor. *)
Lemma decode_tx_ok b tx :
  decode_tx protocol b = Ok tx →
  payload_ok (payload_inner (tx_payload tx)) ∧ 0 ≤ nonce_value (tx_nonce tx) ≤ u32_max ∧
  0 ≤ tx_fee tx.
Proof.
  unfold decode_tx. destruct (_ <? _); [done|].
  destruct (from_utf8 b) as [hx|]; [|done]. cbn [ok_or].
  destruct (validate_hex_string hx _); [|done].
  destruct (hex_decode hx) as [b'|]; [|done]. cbn [ok_or].
  destruct (from_utf8 b') as [js|]; [|done]. cbn [ok_or].
  destruct (validate_json_string js _ _); [|done].
  destruct (value_from_str js) as [v|] eqn:Ev; [|done]. cbn [ok_or].
  destruct (validate_transaction_structure v) as [[]|] eqn:Es; [|done].
  destruct (tx_from_json js) as [tx'|] eqn:Et; [|done]. intros [= <-].
  destruct (structure_fee v Es) as (m & fee & Hm & Hf & _).
  destruct (Tx_decoded v tx') as (Hp & Hn & Hfee & _); [by eapply tx_from_json_value|].
  done.
Qed.

Lemma decode_tx_err b r : decode_tx protocol b = Err r → resp_code r ≠ 0.
Proof.
  unfold decode_tx. destruct (_ <? _); [by intros [= <-]|].
  destruct (from_utf8 b) as [hx|]; [|by intros [= <-]]. cbn [ok_or].
  destruct (validate_hex_string hx _); [|by intros [= <-]].
  destruct (hex_decode hx) as [b'|]; [|by intros [= <-]]. cbn [ok_or].
  destruct (from_utf8 b') as [js|]; [|by intros [= <-]]. cbn [ok_or].
  destruct (validate_json_string js _ _); [|by intros [= <-]].
  destruct (value_from_str js) as [v|]; [|by intros [= <-]]. cbn [ok_or].
  destruct (validate_transaction_structure v); [|by intros [= <-]].
  destruct (tx_from_json js); [done|by intros [= <-]].
Qed.

(** The envelope after the charge. *)
Definition charged (tx : Tx) (h : byte_array 32) (e : AppStateEnvelope) : AppStateEnvelope :=
  let s := sender (payload_inner (tx_payload tx)) in
  with_account s h (mkAccount s (mkCoin (balance_of rd e s - tx_fee tx)) (tx_nonce tx)) e.

Lemma charge_cases e tx :
  ledger_wf rd e → 0 ≤ nonce_value (tx_nonce tx) ≤ u32_max → 0 ≤ tx_fee tx →
  let s := sender (payload_inner (tx_payload tx)) in
  (∃ r, charge rd tx e = Return r e ∧ resp_code r ≠ 0) ∨
  ∃ acc h, account_at rd e s = Some (acc, h) ∧
    Nonce_next (acc_nonce acc) = Some (tx_nonce tx) ∧ 0 < tx_fee tx ≤ balance_of rd e s ∧
    charge rd tx e = Next tt (charged tx h e).
Proof.
  intros Hwf Hn Hfee. cbv zeta. unfold charge. ledger_unfold. rewrite CadoPath_new_address by done.
  cbn beta iota. set (s := sender _).
  change (get_account_from_cado rd e (eld_path Cado_Account (hex_with_prefix s)))
    with (account_at rd e s).
  destruct (account_at rd e s) as [[acc h]|] eqn:Ea; [|left; eexists; by split].
  destruct (Nonce_next (acc_nonce acc)) as [n|] eqn:En; [|left; eexists; by split].
  case_bool_decide as Hnn; cbn [negb]; [subst n|left; eexists; by split].
  unfold TxAmount_to_coin. destruct (Coin_new (tx_fee tx)) as [c|] eqn:Ec;
    [|left; eexists; by split]. apply Coin_new_Ok in Ec as [-> HfM].
  unfold validate_fee_amount. cbn [coin_amount].
  destruct (tx_fee tx =? 0) eqn:E0; [left; eexists; by split|]. eld_bool.
  rewrite (proj2 (Z.ltb_ge MAX_COIN (tx_fee tx))) by done.
  destruct (proj1 Hwf _ _ _ Ea) as [Haa Haw].
  assert (balance_of rd e s = coin_amount (acc_balance acc)) as Hb
    by (unfold balance_of; by rewrite Ea).
  unfold Coin_ltb. cbn [coin_amount]. rewrite <- Hb.
  destruct (balance_of rd e s <? tx_fee tx) eqn:El; [left; eexists; by split|]. eld_bool.
  rewrite Coin_sub_in; [|apply Haw|done|cbn; lia]. cbn [coin_amount]. rewrite <- Hb.
  pose proof (balance_of_range rd e s Hwf).
  assert (Account_wf (mkAccount s (mkCoin (balance_of rd e s - tx_fee tx)) (tx_nonce tx))) as Hw'.
  { split; [|done]. split; simpl; lia. }
  destruct (bin_roundtrip _ Hw') as (b & Es & _). rewrite Es. right. exists acc, h.
  split_and!; [done|done|lia|lia|]. unfold charged. fold s. unfold with_account, account_path.
  rewrite Es. by rewrite update_cado_cache_eld.
Qed.

Lemma charged_account_wf tx e :
  let s := sender (payload_inner (tx_payload tx)) in
  ledger_wf rd e → 0 ≤ nonce_value (tx_nonce tx) ≤ u32_max →
  0 < tx_fee tx ≤ balance_of rd e s →
  Account_wf (mkAccount s (mkCoin (balance_of rd e s - tx_fee tx)) (tx_nonce tx)).
Proof.
  intros s Hwf Hn Hf. pose proof (balance_of_range rd e s Hwf).
  split; [split; cbn [acc_balance coin_amount]; lia|exact Hn].
Qed.

Lemma charged_wf tx h e :
  ledger_wf rd e → 0 ≤ nonce_value (tx_nonce tx) ≤ u32_max →
  0 < tx_fee tx ≤ balance_of rd e (sender (payload_inner (tx_payload tx))) →
  ledger_wf rd (charged tx h e).
Proof.
  intros Hwf Hn Hf. unfold charged.
  apply ledger_wf_with_account; [exact Hwf|by apply charged_account_wf|reflexivity].
Qed.

(** Rejected before the charge, or charged and processed. *)
Lemma deliver_cases cid b st :
  ledger_wf rd (envelope st) → protocol_wf protocol →
  (∃ r, run (deliver_tx_inner rd protocol cid b) (Some st) = Some (r, Some st) ∧ resp_code r ≠ 0) ∨
  ∃ tx acc h required r e',
    let s := sender (payload_inner (tx_payload tx)) in
    decode_tx protocol b = Ok tx ∧ Tx_verify tx cid = Ok true ∧
    calculate_dynamic_fee tx (fee_config protocol) = Ok required ∧
    coin_amount required ≤ tx_fee tx ∧
    account_at rd (envelope st) s = Some (acc, h) ∧
    Nonce_next (acc_nonce acc) = Some (tx_nonce tx) ∧
    0 < tx_fee tx ≤ balance_of rd (envelope st) s ∧
    run (process rd protocol tx) (charged tx h (envelope st)) = Some (r, e') ∧
    settled rd (balance_change protocol tx) (stake_change tx) (charged tx h (envelope st)) r e' ∧
    ledger_wf rd (charged tx h (envelope st)) ∧
    run (deliver_tx_inner rd protocol cid b) (Some st) =
      Some (with_gas tx r, Some (set_envelope e' st)).
Proof.
  intros Hwf Hpr. unfold deliver_tx_inner. ledger_unfold.
  destruct (decode_tx protocol b) as [tx|r0] eqn:Ed.
  2: { left. exists r0. split; [done|]. by eapply decode_tx_err. }
  destruct (decode_tx_ok b tx Ed) as (Hp & Hn & Hfee). cbn beta iota.
  destruct (Tx_verify tx cid) as [[|]|] eqn:Ev; [|left; eexists; by split..]. cbn [negb].
  destruct (calculate_dynamic_fee tx _) as [req|] eqn:Ereq; [|left; eexists; by split].
  destruct (TxAmount_to_coin (tx_fee tx)) as [pf|] eqn:Epf; [|left; eexists; by split].
  cbn beta iota. destruct (Coin_ltb pf req) eqn:Elt; [left; eexists; by split|].
  apply Coin_new_Ok in Epf as [-> _]. unfold Coin_ltb in Elt. cbn [coin_amount] in Elt. eld_bool.
  unfold on_current, answered.
  destruct (charge_cases (envelope st) tx Hwf Hn Hfee)
    as [(r & Hc & Hr)|(acc & h & Ha & Hnx & Hb & Hc)]; rewrite Hc.
  { left. exists r. split; [by destruct st|done]. }
  assert (ledger_wf rd (charged tx h (envelope st))) as Hwc.
  { by apply charged_wf. }
  destruct (process_settles rd protocol (charged tx h (envelope st)) tx Hwc Hpr Hp)
    as (r & e' & Hrun & Hs).
  right. exists tx, acc, h, req, r, e'. cbv zeta. split_and!; try done; try lia.
  cbn [set_envelope envelope]. unfold run in Hrun.
  destruct (process rd protocol tx (charged tx h (envelope st))) as [r1 e1|r1 e1|];
    [| |discriminate]; apply (inj Some) in Hrun; apply pair_eq in Hrun as [-> ->];
    destruct st; reflexivity.
Qed.

Lemma with_gas_code tx r : resp_code (with_gas tx r) = resp_code r.
Proof. unfold with_gas. repeat case_match; done. Qed.

Lemma charged_nonce tx h e a :
  ledger_wf rd e → 0 ≤ nonce_value (tx_nonce tx) ≤ u32_max →
  0 < tx_fee tx ≤ balance_of rd e (sender (payload_inner (tx_payload tx))) →
  nonce_of rd (charged tx h e) a =
    if bool_decide (a = sender (payload_inner (tx_payload tx))) then Some (tx_nonce tx)
    else nonce_of rd e a.
Proof.
  intros Hwf Hn Hf. unfold charged. rewrite nonce_of_with_account; [reflexivity|].
  by apply charged_account_wf.
Qed.

Lemma charged_balance tx h e a :
  ledger_wf rd e → 0 ≤ nonce_value (tx_nonce tx) ≤ u32_max →
  0 < tx_fee tx ≤ balance_of rd e (sender (payload_inner (tx_payload tx))) →
  balance_of rd (charged tx h e) a =
    balance_of rd e a + delta (sender (payload_inner (tx_payload tx))) (- tx_fee tx) a.
Proof.
  intros Hwf Hn Hf. unfold charged. rewrite balance_of_with_account by (by apply charged_account_wf).
  unfold delta. case_bool_decide; subst; cbn [acc_balance coin_amount]; lia.
Qed.

Lemma charged_stake tx h e a : stake_of rd (charged tx h e) a = stake_of rd e a.
Proof. unfold charged. apply stake_of_with_account. Qed.

(** The settlement of a charged envelope, read from the state before the charge. *)
Lemma settled_paid tx h e r e' d ds :
  let paid := λ a, balance_of rd e a + delta (sender (payload_inner (tx_payload tx))) (- tx_fee tx) a in
  ledger_wf rd e → 0 ≤ nonce_value (tx_nonce tx) ≤ u32_max →
  0 < tx_fee tx ≤ balance_of rd e (sender (payload_inner (tx_payload tx))) →
  settled rd d ds (charged tx h e) r e' →
  if resp_code r =? 0 then
    (∀ a, balance_of rd e' a = paid a + d a) ∧ ∀ a, stake_of rd e' a = stake_of rd e a + ds a
  else
    (∀ a, balance_of rd e' a = paid a ∧ stake_of rd e' a = stake_of rd e a) ∨
    (over_cap paid (stake_of rd e) d ds ∧
     ∀ a, balance_of rd e' a = paid a + Z.min 0 (d a) ∧
          stake_of rd e' a = stake_of rd e a + Z.min 0 (ds a)).
Proof.
  intros paid Hwf Hn Hf Hs.
  assert (∀ a, balance_of rd (charged tx h e) a = paid a) as Hb by (intros a; by apply charged_balance).
  pose proof (charged_stake tx h e) as Hst. unfold settled in Hs. destruct (_ =? 0).
  - destruct Hs as (_ & H1 & H2 & _). split; intros a; [rewrite H1, Hb|rewrite H2, Hst]; done.
  - destruct Hs as [->|[[a0 Ho] (_ & H1 & H2 & _)]]; [left; by split|right]. split.
    + exists a0. by rewrite <- Hb, <- Hst.
    + intros a. rewrite H1, H2, Hb, Hst. done.
Qed.

(** ** Which bytes are charged *)

(** What delivery checks before the processor runs. *)
Record chargeable (cid : string) (b : bytes) (e : AppStateEnvelope) (tx : Tx) : Prop := {
  adm_decoded : decode_tx protocol b = Ok tx;
  adm_signed : Tx_verify tx cid = Ok true;
  adm_fee : ∃ required, calculate_dynamic_fee tx (fee_config protocol) = Ok required ∧
              coin_amount required ≤ tx_fee tx;
  adm_nonce : ∃ k, nonce_of rd e (sender (payload_inner (tx_payload tx))) = Some k ∧
                Nonce_next k = Some (tx_nonce tx);
  adm_funds : 0 < tx_fee tx ≤ balance_of rd e (sender (payload_inner (tx_payload tx)));
}.

Lemma nonce_of_found e a k :
  nonce_of rd e a = Some k → ∃ acc h, account_at rd e a = Some (acc, h) ∧ acc_nonce acc = k.
Proof.
  unfold nonce_of. destruct (account_at rd e a) as [[acc h]|]; [|done]. intros [= <-]. eauto.
Qed.

Lemma chargeable_charge cid b e tx :
  ledger_wf rd e → 0 ≤ nonce_value (tx_nonce tx) ≤ u32_max → chargeable cid b e tx →
  ∃ e1, charge rd tx e = Next tt e1.
Proof.
  intros Hwf Hn [_ _ _ (k & Hk & Hnx) [Hf0 Hf]].
  apply nonce_of_found in Hk as (acc & h & Ha & <-). set (s := sender _) in *.
  pose proof (balance_of_range rd e s Hwf) as Hrange.
  unfold charge. ledger_unfold. rewrite CadoPath_new_address by done. cbn beta iota. fold s.
  change (get_account_from_cado rd e (eld_path Cado_Account (hex_with_prefix s)))
    with (account_at rd e s).
  rewrite Ha. cbn beta iota. rewrite Hnx, bool_decide_eq_true_2 by done. cbn [negb].
  unfold TxAmount_to_coin. rewrite Coin_new_in by lia.
  unfold validate_fee_amount. cbn [coin_amount].
  rewrite (proj2 (Z.eqb_neq (tx_fee tx) 0)), (proj2 (Z.ltb_ge MAX_COIN (tx_fee tx))) by lia.
  destruct (proj1 Hwf _ _ _ Ha) as [_ Haw].
  assert (balance_of rd e s = coin_amount (acc_balance acc)) as Hb
    by (unfold balance_of; by rewrite Ha).
  unfold Coin_ltb. cbn [coin_amount]. rewrite <- Hb, (proj2 (Z.ltb_ge _ _) Hf).
  rewrite Coin_sub_in; [|apply Haw|split; cbn; lia|cbn; lia]. cbn [coin_amount].
  rewrite <- Hb.
  destruct (bin_roundtrip _ (charged_account_wf tx e Hwf Hn (conj Hf0 Hf))) as (bs & Es & _).
  fold s in Es. rewrite Es. eauto.
Qed.

(** Chargeable bytes are never turned away with the state as it was. *)
Lemma chargeable_charged cid b st tx r :
  ledger_wf rd (envelope st) → protocol_wf protocol → chargeable cid b (envelope st) tx →
  run (deliver_tx_inner rd protocol cid b) (Some st) ≠ Some (r, Some st).
Proof.
  intros Hwf Hpr Had. pose proof Had as [Hd Hv (req & Hreq & Hle) (k & Hk & Hnx) Hf].
  destruct (decode_tx_ok b tx Hd) as (Hp & Hn & Hfee).
  destruct (chargeable_charge cid b (envelope st) tx Hwf Hn Had) as (e1 & Hch).
  destruct (charge_cases (envelope st) tx Hwf Hn Hfee)
    as [(r0 & Hc & _)|(acc & h & _ & _ & _ & Hc)]; [congruence|].
  destruct (process_settles rd protocol (charged tx h (envelope st)) tx
    (charged_wf tx h (envelope st) Hwf Hn Hf) Hpr Hp) as (r1 & e' & Hrun & Hs).
  apply settled_keeps in Hs as [_ Hkeep]; [|by apply charged_wf].
  assert (nonce_of rd e' (sender (payload_inner (tx_payload tx))) = Some (tx_nonce tx)) as Hk'.
  { apply Hkeep. rewrite charged_nonce by done. by rewrite bool_decide_eq_true_2. }
  pose proof (balance_of_range rd (envelope st) (sender (payload_inner (tx_payload tx))) Hwf).
  unfold deliver_tx_inner. ledger_unfold. rewrite Hd, Hv. cbn [negb]. rewrite Hreq.
  unfold TxAmount_to_coin. rewrite Coin_new_in by lia. unfold Coin_ltb. cbn [coin_amount].
  rewrite (proj2 (Z.ltb_ge _ _) Hle). unfold on_current, answered. rewrite Hc. unfold run in Hrun.
  assert (envelope st ≠ e') as Hne.
  { intros <-. rewrite Hk in Hk'. injection Hk' as Hk'. unfold Nonce_next in Hnx.
    destruct (checked_add _ _ _) as [v|] eqn:Ev; [|done].
    apply checked_add_Some in Ev as [-> _]. injection Hnx as Hnx. rewrite <- Hk' in Hnx.
    apply (f_equal nonce_value) in Hnx. simpl in Hnx. lia. }
  cbn [set_envelope envelope].
  destruct (process rd protocol tx (charged tx h (envelope st))) as [r2 e2|r2 e2|];
    [| |discriminate]; apply (inj Some) in Hrun; apply pair_eq in Hrun as [-> ->];
    intros [= _ Hst]; apply Hne; by rewrite <- Hst.
Qed.

(** A whole block of transactions, in order. *)
Fixpoint deliver_all (cid : string) (txs : list bytes) (s : option AppState) :
    option (list ResponseDeliverTx * option AppState) :=
  match txs with
  | [] => Some ([], s)
  | b :: txs =>
      match run (deliver_tx_inner rd protocol cid b) s with
      | None => None
      | Some (r, s') =>
          match deliver_all cid txs s' with
          | None => None
          | Some (rs, s'') => Some (r :: rs, s'')
          end
      end
  end.

(** Nonces never go back. *)
Definition nonces_grow (e e' : AppStateEnvelope) : Prop :=
  ∀ a k, nonce_of rd e a = Some k →
    ∃ k', nonce_of rd e' a = Some k' ∧ nonce_value k ≤ nonce_value k'.

Lemma deliver_step cid b st :
  ledger_wf rd (envelope st) → protocol_wf protocol →
  ∃ r st', run (deliver_tx_inner rd protocol cid b) (Some st) = Some (r, Some st') ∧
    ledger_wf rd (envelope st') ∧ nonces_grow (envelope st) (envelope st').
Proof.
  intros Hwf Hpr. destruct (deliver_cases cid b st Hwf Hpr)
    as [(r & Hr & _)|(tx & acc & h & req & r & e' & Hd & Hv & _ & _ & Ha & Hnx & Hf & _ & Hs & _ & Hr)].
  { exists r, st. split_and!; [done|done|]. intros a k Hk. exists k. split; [done|lia]. }
  exists (with_gas tx r), (set_envelope e' st). destruct (decode_tx_ok b tx Hd) as (_ & Hn & _).
  destruct (settled_keeps _ _ _ _ _ _ (charged_wf tx h _ Hwf Hn Hf) Hs) as [Hw Hkeep].
  split_and!; [done|done|]. intros a k Hk.
  cbn [set_envelope envelope].
  pose proof (charged_nonce tx h (envelope st) a Hwf Hn Hf) as Hc.
  case_bool_decide as Has.
  - exists (tx_nonce tx). split; [by apply Hkeep|]. subst a.
    unfold nonce_of in Hk. rewrite Ha in Hk. injection Hk as <-.
    unfold Nonce_next in Hnx. destruct (checked_add _ _ _) as [v|] eqn:Ev; [|done].
    apply checked_add_Some in Ev as [-> _]. injection Hnx as <-. simpl. lia.
  - exists k. split; [|lia]. apply Hkeep. by rewrite Hc.
Qed.

Lemma deliver_all_step cid txs st :
  ledger_wf rd (envelope st) → protocol_wf protocol →
  ∃ rs st', deliver_all cid txs (Some st) = Some (rs, Some st') ∧ length rs = length txs ∧
    ledger_wf rd (envelope st') ∧ nonces_grow (envelope st) (envelope st').
Proof.
  intros Hwf Hpr. revert st Hwf. induction txs as [|b txs IH]; intros st Hwf.
  { exists [], st. split_and!; [done|done|done|]. intros a k Hk. exists k. split; [done|lia]. }
  destruct (deliver_step cid b st Hwf Hpr) as (r & st1 & Hr & Hw1 & Hg1).
  destruct (IH st1 Hw1) as (rs & st2 & Hrs & Hlen & Hw2 & Hg2).
  exists (r :: rs), st2. cbn [deliver_all]. rewrite Hr, Hrs.
  split_and!; [done|simpl; by rewrite Hlen|done|]. intros a k Hk.
  destruct (Hg1 a k Hk) as (k1 & Hk1 & ?). destruct (Hg2 a k1 Hk1) as (k2 & Hk2 & ?).
  exists k2. split; [done|lia].
Qed.

(** A transaction whose nonce is not above its sender's is turned away. *)
Lemma stale_rejected cid b st tx k :
  ledger_wf rd (envelope st) → protocol_wf protocol → decode_tx protocol b = Ok tx →
  nonce_of rd (envelope st) (sender (payload_inner (tx_payload tx))) = Some k →
  nonce_value (tx_nonce tx) ≤ nonce_value k →
  ∃ r, run (deliver_tx_inner rd protocol cid b) (Some st) = Some (r, Some st) ∧ resp_code r ≠ 0.
Proof.
  intros Hwf Hpr Hd Hk Hle. destruct (deliver_cases cid b st Hwf Hpr)
    as [Hr|(tx' & acc & h & req & r & e' & Hd' & _ & _ & _ & Ha & Hnx & _)]; [exact Hr|exfalso].
  rewrite Hd in Hd'. injection Hd' as <-. unfold nonce_of in Hk. rewrite Ha in Hk.
  injection Hk as <-. unfold Nonce_next in Hnx.
  destruct (checked_add _ _ _) as [v|] eqn:Ev; [|done].
  apply checked_add_Some in Ev as [-> _]. injection Hnx as Hnx. rewrite <- Hnx in Hle.
  simpl in Hle. lia.
Qed.

(** ** Properties *)

(** C1. Delivery of any bytes answers and keeps the accounts well-formed.
    Bytes that do not decode, are not signed for this chain, offer less than
    the computed fee, whose nonce is not the successor of their sender's or
    whose fee exceeds its balance are answered with an error code and leave
    the state as it is.  Any others are charged once: the sender pays exactly
    the fee and its nonce is replaced by the transaction's while every other
    nonce stays.  When the answer is 0, every balance and every stake then
    moves by exactly what the payload says: a transfer, a stake or unstake, the
    reward a successful capacity proof mints, a namespace fee, nothing
    otherwise.  When the processor refuses, the fee stays paid and nothing else
    moves, except that a credit that would exceed the coin cap is refused after
    its debit, which stays. *)
Theorem deliver_tx_correct (cid : string) (b : bytes) (st : AppState) :
  ledger_wf rd (envelope st) → protocol_wf protocol →
  ∃ r st', run (deliver_tx_inner rd protocol cid b) (Some st) = Some (r, Some st') ∧
    ledger_wf rd (envelope st') ∧
    (((∀ tx, ¬ chargeable cid b (envelope st) tx) ∧ st' = st ∧ resp_code r ≠ 0) ∨
     ∃ tx, chargeable cid b (envelope st) tx ∧
       let s := sender (payload_inner (tx_payload tx)) in
       let paid := λ a, balance_of rd (envelope st) a + delta s (- tx_fee tx) a in
       let staked := stake_of rd (envelope st) in
       let d := balance_change protocol tx in
       let ds := stake_change tx in
       nonce_of rd (envelope st') s = Some (tx_nonce tx) ∧
       (∀ a n, a ≠ s → nonce_of rd (envelope st) a = Some n →
          nonce_of rd (envelope st') a = Some n) ∧
       if resp_code r =? 0 then
         (∀ a, balance_of rd (envelope st') a = paid a + d a) ∧
         ∀ a, stake_of rd (envelope st') a = staked a + ds a
       else
         (∀ a, balance_of rd (envelope st') a = paid a ∧
               stake_of rd (envelope st') a = staked a) ∨
         (over_cap paid staked d ds ∧
          ∀ a, balance_of rd (envelope st') a = paid a + Z.min 0 (d a) ∧
               stake_of rd (envelope st') a = staked a + Z.min 0 (ds a))).
Proof.
  intros Hwf Hpr. destruct (deliver_cases cid b st Hwf Hpr)
    as [(r & Hr & H0)|(tx & acc & h & req & r & e' & Hd & Hv & Hreq & Hle & Ha & Hnx & Hf & _ & Hs & Hwc & Hr)].
  { exists r, st. split_and!; [done|done|left]. split; [|done].
    intros tx Had. by apply (chargeable_charged cid b st tx r Hwf Hpr Had). }
  exists (with_gas tx r), (set_envelope e' st). destruct (decode_tx_ok b tx Hd) as (_ & Hn & _).
  destruct (settled_keeps _ _ _ _ _ _ Hwc Hs) as [Hw Hkeep].
  split_and!; [done|done|right]. exists tx.
  assert (nonce_of rd (envelope st) (sender (payload_inner (tx_payload tx))) = Some (acc_nonce acc))
    as Hk by (unfold nonce_of; by rewrite Ha).
  split; [by split; [..|exists req|exists (acc_nonce acc)|]|]. cbv zeta. cbn [set_envelope envelope].
  split_and!.
  - apply Hkeep. rewrite charged_nonce by done. by rewrite bool_decide_eq_true_2.
  - intros a n Hne Hna. apply Hkeep. rewrite charged_nonce by done.
    by rewrite bool_decide_eq_false_2.
  - rewrite with_gas_code. by apply (settled_paid tx h (envelope st) r e').
Qed.

(** C2. A charged transaction cannot be replayed: once delivery has moved the
    sender's nonce, delivering the same bytes again after any further
    transactions is rejected and leaves the state as it is. *)
Theorem delivered_once (cid : string) (b : bytes) (txs : list bytes) (st st1 : AppState)
    (r : ResponseDeliverTx) (rs : list ResponseDeliverTx) (s2 : option AppState) :
  ledger_wf rd (envelope st) → protocol_wf protocol →
  run (deliver_tx_inner rd protocol cid b) (Some st) = Some (r, Some st1) →
  st1 ≠ st ∨ resp_code r = 0 →
  deliver_all cid txs (Some st1) = Some (rs, s2) →
  ∃ st2 r', s2 = Some st2 ∧ resp_code r' ≠ 0 ∧
    run (deliver_tx_inner rd protocol cid b) (Some st2) = Some (r', Some st2).
Proof.
  intros Hwf Hpr Hr Hch Hall. destruct (deliver_step cid b st Hwf Hpr) as (r0 & st0 & Hr0 & Hw1 & _).
  rewrite Hr in Hr0. injection Hr0 as <- <-.
  destruct (deliver_all_step cid txs st1 Hw1 Hpr) as (rs0 & st2 & Hall' & _ & Hw2 & Hg).
  rewrite Hall in Hall'. injection Hall' as <- ->. exists st2.
  destruct (deliver_cases cid b st Hwf Hpr)
    as [(r0 & Hr0 & H0)|(tx & acc & h & req & r0 & e' & Hd & _ & _ & _ & _ & _ & Hf & _ & Hs & _ & Hr0)].
  { rewrite Hr in Hr0. injection Hr0 as <- <-. by destruct Hch. }
  rewrite Hr in Hr0. injection Hr0 as _ ->. destruct (decode_tx_ok b tx Hd) as (_ & Hn & _).
  destruct (settled_keeps _ _ _ _ _ _ (charged_wf tx h _ Hwf Hn Hf) Hs) as [_ Hkeep].
  assert (nonce_of rd e' (sender (payload_inner (tx_payload tx))) = Some (tx_nonce tx)) as Hk.
  { apply Hkeep. rewrite charged_nonce by done. by rewrite bool_decide_eq_true_2. }
  destruct (Hg _ _ Hk) as (k2 & Hk2 & Hle).
  destruct (stale_rejected cid b st2 tx k2 Hw2 Hpr Hd Hk2 Hle) as (r' & Hr' & H0).
  exists r'. by split_and!.
Qed.
End delivery.

(** ** Witnesses *)

(** A wire format with one document: a signed transfer of 250 units. *)
Definition test_sig : string := ref_hex_encode (test_key +++ test_key).

Definition test_value : Value :=
  JObject [("sig", JString test_sig); ("nonce", JNumber (PosInt 1));
    ("payload", JObject [("type", JString "Transfer"); ("sender", JString test_sender_text);
       ("recipient", JString test_recipient_text); ("amount", JString "250")]);
    ("public_key", JString (ref_hex_encode test_key)); ("fee", JNumber (PosInt 30000))].

Definition test_serde : SerdeJson := {|
  value_from_str s := if String.eqb s "{}" then Some test_value else None;
  value_to_string _ := Some "{}";
|}.

Definition test_json : TxJson := {|
  tx_to_json _ := Some "{}";
  tx_from_json s := v ← @value_from_str test_serde s; Tx_deserialize v;
  response_to_json _ _ _ _ _ _ _ := Some [];
|}.

Lemma test_wire : TxWire test_serde test_json.
Proof.
  constructor. intros s v m fee tx Hv _ _. unfold tx_from_json, test_json. rewrite Hv. done.
Qed.

Definition test_bytes : bytes := as_bytes (ref_hex_encode (as_bytes "{}")).
Definition test_state : AppState := mkAppState None test_env "eld".

Definition test_deliver : state_handler ResponseDeliverTx :=
  deliver_tx_inner (SJ := test_serde) (J := test_json) rd0 local_dev "eld" test_bytes.

Lemma local_dev_wf : protocol_wf local_dev.
Proof. split; split; vm_compute; discriminate. Qed.

Lemma test_deliver_accepted :
  match run test_deliver (Some test_state) with
  | Some (r, Some st') =>
      resp_code r = 0 ∧ balance_of rd0 (envelope st') test_sender = 69750 ∧
      balance_of rd0 (envelope st') test_recipient = 250
  | _ => False
  end.
Proof. vm_compute. split_and!; reflexivity. Qed.

Lemma deliver_tx_correct_witness :
  ∃ r st', run test_deliver (Some test_state) = Some (r, Some st') ∧
    ledger_wf rd0 (envelope st') ∧ resp_code r = 0 ∧
    balance_of rd0 (envelope st') test_sender = 69750 ∧
    balance_of rd0 (envelope st') test_recipient = 250.
Proof.
  destruct (deliver_tx_correct (W := test_wire) rd0 local_dev "eld" test_bytes test_state
    test_env_wf local_dev_wf) as (r & st' & Hr & Hw & _).
  exists r, st'. split; [exact Hr|]. split; [exact Hw|].
  pose proof test_deliver_accepted as Ha. unfold test_deliver in Ha. rewrite Hr in Ha.
  exact Ha.
Defined.

Lemma delivered_once_witness :
  match run test_deliver (Some test_state) with
  | Some (_, Some st1) => ∃ r', resp_code r' ≠ 0 ∧ run test_deliver (Some st1) = Some (r', Some st1)
  | _ => False
  end.
Proof.
  pose proof test_deliver_accepted as Ha.
  destruct (run test_deliver (Some test_state)) as [[r [st1|]]|] eqn:Hr; [|exact Ha|exact Ha].
  destruct (delivered_once (W := test_wire) rd0 local_dev "eld" test_bytes [] test_state st1 r []
    (Some st1) test_env_wf local_dev_wf Hr (or_intror (proj1 Ha)) eq_refl)
    as (st2 & r' & Hs & H0 & Hr').
  apply (inj Some) in Hs. rewrite Hs. exists r'. split; [exact H0|exact Hr'].
Defined.
