(* ===== verification/Storage.v ===== *)
(** Object storage: node_app/src/storage (cado_key_generator.rs and, of
    storage/rocksdb, cado/path.rs, cado/put.rs, cado/get.rs, cado/delete.rs,
    pinboard.rs, verified_proof.rs, keys.rs).

    The database is one finite map per column family; a transaction is the
    database with its writes, and committing it replaces the database.  The
    calls of the rocksdb crate themselves do not fail. *)
From S2P Require Import Prelude Externals Reference Coins Address Namespace Cado Records Pinboard AppState.

(** ** Column families *)

(** A message body waiting for its transaction to be committed. *)
Record TempBlobRecord : Type := mkTempBlobRecord {
  temp_blob : bytes;
  temp_expires_at_unix : Z;
}.

Record Database : Type := mkDatabase {
  cado_cf : gmap string bytes;
  path_index_cf : gmap string string;
  cado_map_cf : gmap string bytes;
  pinboard_meta_cf : gmap string PinboardMessageMetadata;
  pinboard_temp_blobs_cf : gmap string TempBlobRecord;
  pinboard_refcounts_cf : gmap string Z;
  pinboard_idx_wallet_cf : gset string;
  pinboard_idx_tag_cf : gset string;
  pinboard_idx_expiry_cf : gset string;
  pinboard_idx_commit_cf : gset string;
  verified_proof_submissions_cf : gset string;
}.

Definition empty_database : Database := mkDatabase ∅ ∅ ∅ ∅ ∅ ∅ ∅ ∅ ∅ ∅ ∅.

Definition set_cado_cf (v : gmap string bytes) (db : Database) : Database :=
  mkDatabase v (path_index_cf db) (cado_map_cf db) (pinboard_meta_cf db)
    (pinboard_temp_blobs_cf db) (pinboard_refcounts_cf db) (pinboard_idx_wallet_cf db)
    (pinboard_idx_tag_cf db) (pinboard_idx_expiry_cf db) (pinboard_idx_commit_cf db)
    (verified_proof_submissions_cf db).
Definition set_path_index_cf (v : gmap string string) (db : Database) : Database :=
  mkDatabase (cado_cf db) v (cado_map_cf db) (pinboard_meta_cf db)
    (pinboard_temp_blobs_cf db) (pinboard_refcounts_cf db) (pinboard_idx_wallet_cf db)
    (pinboard_idx_tag_cf db) (pinboard_idx_expiry_cf db) (pinboard_idx_commit_cf db)
    (verified_proof_submissions_cf db).
Definition set_cado_map_cf (v : gmap string bytes) (db : Database) : Database :=
  mkDatabase (cado_cf db) (path_index_cf db) v (pinboard_meta_cf db)
    (pinboard_temp_blobs_cf db) (pinboard_refcounts_cf db) (pinboard_idx_wallet_cf db)
    (pinboard_idx_tag_cf db) (pinboard_idx_expiry_cf db) (pinboard_idx_commit_cf db)
    (verified_proof_submissions_cf db).
Definition set_pinboard_meta_cf (v : gmap string PinboardMessageMetadata) (db : Database) : Database :=
  mkDatabase (cado_cf db) (path_index_cf db) (cado_map_cf db) v
    (pinboard_temp_blobs_cf db) (pinboard_refcounts_cf db) (pinboard_idx_wallet_cf db)
    (pinboard_idx_tag_cf db) (pinboard_idx_expiry_cf db) (pinboard_idx_commit_cf db)
    (verified_proof_submissions_cf db).
Definition set_pinboard_temp_blobs_cf (v : gmap string TempBlobRecord) (db : Database) : Database :=
  mkDatabase (cado_cf db) (path_index_cf db) (cado_map_cf db) (pinboard_meta_cf db)
    v (pinboard_refcounts_cf db) (pinboard_idx_wallet_cf db)
    (pinboard_idx_tag_cf db) (pinboard_idx_expiry_cf db) (pinboard_idx_commit_cf db)
    (verified_proof_submissions_cf db).
Definition set_pinboard_refcounts_cf (v : gmap string Z) (db : Database) : Database :=
  mkDatabase (cado_cf db) (path_index_cf db) (cado_map_cf db) (pinboard_meta_cf db)
    (pinboard_temp_blobs_cf db) v (pinboard_idx_wallet_cf db)
    (pinboard_idx_tag_cf db) (pinboard_idx_expiry_cf db) (pinboard_idx_commit_cf db)
    (verified_proof_submissions_cf db).
Definition set_pinboard_idx_wallet_cf (v : gset string) (db : Database) : Database :=
  mkDatabase (cado_cf db) (path_index_cf db) (cado_map_cf db) (pinboard_meta_cf db)
    (pinboard_temp_blobs_cf db) (pinboard_refcounts_cf db) v
    (pinboard_idx_tag_cf db) (pinboard_idx_expiry_cf db) (pinboard_idx_commit_cf db)
    (verified_proof_submissions_cf db).
Definition set_pinboard_idx_tag_cf (v : gset string) (db : Database) : Database :=
  mkDatabase (cado_cf db) (path_index_cf db) (cado_map_cf db) (pinboard_meta_cf db)
    (pinboard_temp_blobs_cf db) (pinboard_refcounts_cf db) (pinboard_idx_wallet_cf db)
    v (pinboard_idx_expiry_cf db) (pinboard_idx_commit_cf db)
    (verified_proof_submissions_cf db).
Definition set_pinboard_idx_expiry_cf (v : gset string) (db : Database) : Database :=
  mkDatabase (cado_cf db) (path_index_cf db) (cado_map_cf db) (pinboard_meta_cf db)
    (pinboard_temp_blobs_cf db) (pinboard_refcounts_cf db) (pinboard_idx_wallet_cf db)
    (pinboard_idx_tag_cf db) v (pinboard_idx_commit_cf db)
    (verified_proof_submissions_cf db).
Definition set_pinboard_idx_commit_cf (v : gset string) (db : Database) : Database :=
  mkDatabase (cado_cf db) (path_index_cf db) (cado_map_cf db) (pinboard_meta_cf db)
    (pinboard_temp_blobs_cf db) (pinboard_refcounts_cf db) (pinboard_idx_wallet_cf db)
    (pinboard_idx_tag_cf db) (pinboard_idx_expiry_cf db) v
    (verified_proof_submissions_cf db).
Definition set_verified_proof_submissions_cf (v : gset string) (db : Database) : Database :=
  mkDatabase (cado_cf db) (path_index_cf db) (cado_map_cf db) (pinboard_meta_cf db)
    (pinboard_temp_blobs_cf db) (pinboard_refcounts_cf db) (pinboard_idx_wallet_cf db)
    (pinboard_idx_tag_cf db) (pinboard_idx_expiry_cf db) (pinboard_idx_commit_cf db) v.

(** ** Path checks *)

Definition ALLOWED_SCOPES : list string :=
  [SCOPE_ELD_ROOT; "@user"; "@public"; "@test"; "@other"; "@eld"].
Definition MAX_PATH_LENGTH : nat := 512.

(** [char::is_control] of some character other than tab, line feed and
    carriage return, on the UTF-8 bytes: U+0000 to U+001F, U+007F, and U+0080
    to U+009F, which are encoded C2 80 to C2 9F. *)
Fixpoint has_forbidden_control (s : string) : bool :=
  match s with
  | EmptyString => false
  | String c s' =>
      ((ascii_between 0 31 c || ascii_between 127 127 c) &&
       negb (ascii_between 9 10 c || ascii_between 13 13 c)) ||
      (ascii_between 194 194 c &&
       match s' with String d _ => ascii_between 128 159 d | EmptyString => false end) ||
      has_forbidden_control s'
  end.

Definition traversal_patterns : list string :=
  [".."; "//"; "\"; "~"; "..\"; "../"; "\.."; "/.."; "..\"; "..//"; "//.."; "\..\"; "....";
   "..../"; "....\"; "..%2f"; "..%5c"; "%2e%2e"; "%2e%2e%2f"; "%2e%2e%5c"; "..%252f"; "..%255c";
   "%252e%252e"; "%252e%252e%252f"; "%252e%252e%255c"].

Section storage.
Context {H : HexCrate} {HC : HashCrates} {BC : Bincode CadoBody}.

(** [validate_cado_path_internal].  No character outside ASCII has a lower case
    among the letters of the patterns, so lowering ASCII is enough. *)
Definition validate_cado_path_internal (path : CadoPath) : eld_result unit :=
  let path_str := cp_path path in
  if (MAX_PATH_LENGTH <? String.length path_str)%nat
  then Err (ValidationError "cado_path_length")
  else if contains (String (ascii_of_N 0) EmptyString) path_str
  then Err (ValidationError "cado_path_null_bytes")
  else if has_forbidden_control path_str then Err (ValidationError "cado_path_control_chars")
  else if existsb (λ pattern, contains pattern (to_ascii_lowercase path_str)) traversal_patterns
  then Err (ValidationError "cado_path_traversal")
  else if (length (List.filter (λ s, negb (String.eqb s EmptyString))
                     (split_on "/"%char path_str)) <? 3)%nat
  then Err (ValidationError "cado_path_structure")
  else if negb (str_in ALLOWED_SCOPES (cp_scope path)) then Err (ValidationError "cado_path_scope")
  else if negb (str_in VALID_TYPES (cp_type path)) then Err (ValidationError "cado_path_type")
  else if String.eqb (cp_name path) EmptyString then Err (ValidationError "cado_path_name")
  else
    let type_ := cp_type path in
    let name := cp_name path in
    let? _ :=
      if str_in ["account"; "staking_account"; "storage_staking_account"] type_
      then validate_hex name 20 "cado_path_name_address"
      else if String.eqb type_ "namespace" then validate_namespace_slug name
      else validate_hex name 32 "cado_path_name_hex" in
    if contains "//" path_str || contains "\\" path_str
    then Err (ValidationError "cado_path_separators")
    else if ends_with_char "/"%char path_str || ends_with_char "\"%char path_str
    then Err (ValidationError "cado_path_ending")
    else Ok tt.

(** ** Keys *)

(** ["0x" || hex(sha256("{scope}|{type}|{tail}"))] *)
Definition storage_key (scope type_ tail : string) : string :=
  String.append "0x" (hex_encode (sha256 (as_bytes
    (String.append scope (String "|" (String.append type_ (String "|" tail))))))).

Definition AccountKeyGenerator_original_key (path : CadoPath) (cado : CadoBody) :
    eld_result string :=
  if negb (starts_with "0x" (cp_name path)) then Err (ValidationError "account_address") else
  let? name_bytes := ok_or (hex_decode (string_drop 2 (cp_name path)))
                       (ValidationError "account_address") in
  if negb (length name_bytes =? 20)%nat then Err (ValidationError "account_address") else
  match cado with
  | Immutable _ => Err (ValidationError "cado_type")
  | Mutable m =>
      if negb (String.eqb (meta_owner (cadomut_metadata m)) (cp_name path))
      then Err (ValidationError "metadata_owner")
      else Ok (storage_key (cp_scope path) (cp_type path)
                 (hex_encode (sha256 (as_bytes (cp_name path)))))
  end.

Definition GeneralKeyGenerator_original_key (path : CadoPath) (cado : CadoBody) :
    eld_result string :=
  let? _ :=
    if starts_with "0x" (cp_name path) then
      let? name_bytes := ok_or (hex_decode (string_drop 2 (cp_name path)))
                           (ValidationError "path_name") in
      if negb (length name_bytes =? 32)%nat then Err (ValidationError "path_name")
      else
        match cado with
        | Mutable m =>
            if negb (bool_decide (name_bytes = vec_to_list (cadomut_hash m))) &&
               negb (bool_decide (name_bytes = vec_to_list (cadomut_latest_hash m)))
            then Err (ValidationError "path_name")
            else Ok tt
        | Immutable _ => Ok tt
        end
    else Ok tt in
  Ok (storage_key (cp_scope path) (cp_type path) (hex_encode (CadoBody_hash_bytes cado))).

(** [NamespaceRegistryKeyGenerator] and [AppStateTipKeyGenerator]: the name is
    the key. *)
Definition NamedKeyGenerator_original_key (path : CadoPath) : string :=
  storage_key (cp_scope path) (cp_type path) (cp_name path).

(** [CADOKeyGenerator::generate_key] *)
Definition generate_key (path : CadoPath) (cado : CadoBody) : eld_result string :=
  if str_in ["account"; "staking_account"; "storage_staking_account"] (cp_type path)
  then AccountKeyGenerator_original_key path cado
  else if str_in ["app_state_tip"; "app_state_snapshot"; "epoch_record"; "namespace"] (cp_type path)
  then Ok (NamedKeyGenerator_original_key path)
  else if str_in ["cado_map"; "snapshot_metadata"; "snapshot_chunk"; "chunk_reference"]
            (cp_type path)
  then GeneralKeyGenerator_original_key path cado
  else Err (ValidationError "cado_type").

Record CADOKeys : Type := mkCADOKeys {
  original_key : string;
  latest_key : option string;
}.

Definition AccountKeyGenerator_latest_key (path : CadoPath) (cado : CadoBody) :
    eld_result (option string) :=
  match cado with
  | Mutable m => Ok (Some (storage_key (cp_scope path) (cp_type path)
                             (hex_encode (cadomut_latest_hash m))))
  | Immutable _ => Err (ValidationError "cado_type")
  end.

Definition GeneralKeyGenerator_latest_key (path : CadoPath) (cado : CadoBody) :
    eld_result (option string) :=
  match cado with
  | Mutable m => Ok (Some (storage_key (cp_scope path) (cp_type path)
                             (hex_encode (cadomut_latest_hash m))))
  | Immutable _ => Ok None
  end.

(** The generator of a type; named objects have no latest key. *)
Definition KeyGenerator_latest_key (path : CadoPath) (cado : CadoBody) : eld_result (option string) :=
  if str_in ["account"; "staking_account"; "storage_staking_account"] (cp_type path)
  then AccountKeyGenerator_latest_key path cado
  else if str_in ["app_state_tip"; "app_state_snapshot"; "epoch_record"; "namespace"] (cp_type path)
  then Ok None
  else GeneralKeyGenerator_latest_key path cado.

(** [CADOKeyGenerator::generate] *)
Definition generate (path : CadoPath) (cado : CadoBody) : eld_result CADOKeys :=
  let? original_key := generate_key path cado in
  let? latest_key := KeyGenerator_latest_key path cado in
  Ok (mkCADOKeys original_key latest_key).

(** ** Objects *)

(** [put_cadotype_by_path_with_tx]: an indexed path keeps its key. *)
Definition put_cado_type_with_tx (path : CadoPath) (cado_type : CadoBody) (tx : Database) :
    eld_result Database :=
  let? _ := validate_cado_path_internal path in
  let? key :=
    match path_index_cf tx !! cp_path path with
    | Some existing => Ok existing
    | None => match generate_key path cado_type with
              | Ok k => Ok k
              | Err _ => Err (StorageError "key_generation")
              end
    end in
  let? value := ok_or (bin_serialize cado_type) (StorageError "serialize_cado_type") in
  Ok (set_path_index_cf (<[cp_path path := key]> (path_index_cf tx))
        (set_cado_cf (<[key := value]> (cado_cf tx)) tx)).

Definition deserialize_stored_cado_type (path : CadoPath) (data : bytes) : eld_result CadoBody :=
  let result :=
    if String.eqb (cp_type path) "app_state_snapshot"
    then safe_deserialize_app_state_snapshot_cado_data data
    else safe_deserialize_cado_data data in
  match result with Ok c => Ok c | Err _ => Err (StorageError "deserialize_cado") end.

(** [get_cado_by_path]: a stored object whose key is not the one its path and
    body generate is refused. *)
Definition db_get_cado_by_path (db : Database) (path : CadoPath) : eld_result (option CadoBody) :=
  let? _ := validate_cado_path_internal path in
  match path_index_cf db !! cp_path path with
  | None => Ok None
  | Some key =>
      match cado_cf db !! key with
      | None => Ok None
      | Some data =>
          let? cado := deserialize_stored_cado_type path data in
          let? keys := generate path cado in
          if negb (String.eqb (original_key keys) key) then Err (StorageError "key_validation")
          else Ok (Some cado)
      end
  end.

(** [prepare_system_cado_deletion] reads the database, not the transaction. *)
Definition prepare_system_cado_deletion (db : Database) (path : CadoPath) (owner : string) :
    eld_result CADOKeys :=
  let? _ := validate_cado_path_internal path in
  let? _ := validate_system_deletion path in
  let? found := db_get_cado_by_path db path in
  let? cado := ok_or found (StorageError "get_cado_by_path") in
  if negb (String.eqb (meta_owner (CadoBody_metadata cado)) owner)
  then Err (StorageError "ownership_verification")
  else generate path cado.

Definition delete_cado_associated_keys_with_tx (path : CadoPath) (keys : CADOKeys) (tx : Database) :
    eld_result Database :=
  let cado1 := delete (original_key keys) (cado_cf tx) in
  let cado2 := match latest_key keys with Some k => delete k cado1 | None => cado1 end in
  let? map_path := CadoPath_new Cado_CadoMap (Key_Name (cp_name path)) in
  Ok (set_path_index_cf (delete (cp_path path) (path_index_cf tx))
        (set_cado_map_cf (delete (cp_path map_path) (cado_map_cf tx)) (set_cado_cf cado2 tx))).

Definition system_delete_cado_with_tx (db : Database) (path : CadoPath) (owner : string)
    (tx : Database) : eld_result Database :=
  let? keys := prepare_system_cado_deletion db path owner in
  delete_cado_associated_keys_with_tx path keys tx.

(** ** Pinboard rows *)

Definition u64_hex_fixed (v : Z) : string := hex_digits 16 v EmptyString.

Definition pinboard_wallet_index_key (wallet : string) (committed_height : Z) (message_id : string) :
    string :=
  String.append wallet (String ":" (String.append (u64_hex_fixed committed_height)
    (String ":" message_id))).
Definition pinboard_tag_index_key (tag : string) (committed_height : Z) (message_id : string) :
    string :=
  String.append tag (String ":" (String.append (u64_hex_fixed committed_height)
    (String ":" message_id))).
Definition pinboard_expiry_index_key (expires_height : Z) (message_id : string) : string :=
  String.append (u64_hex_fixed expires_height) (String ":" message_id).
Definition pinboard_commit_index_key (committed_height : Z) (message_id : string) : string :=
  String.append (u64_hex_fixed committed_height) (String ":" message_id).

Definition put_pinboard_metadata_with_tx (message_id : string) (meta : PinboardMessageMetadata)
    (tx : Database) : Database :=
  let m := <[message_id := meta]> (pinboard_meta_cf tx) in
  set_pinboard_meta_cf
    match pm_namespace meta with
    | Some namespace => <[pinboard_namespace_content_path namespace message_id := meta]> m
    | None => m
    end tx.

Definition put_pinboard_wallet_index_with_tx (row : string * Z * string) (tx : Database) : Database :=
  let '(wallet, h, id) := row in
  set_pinboard_idx_wallet_cf ({[pinboard_wallet_index_key wallet h id]} ∪ pinboard_idx_wallet_cf tx) tx.
Definition put_pinboard_tag_index_with_tx (row : string * Z * string) (tx : Database) : Database :=
  let '(tag, h, id) := row in
  set_pinboard_idx_tag_cf ({[pinboard_tag_index_key tag h id]} ∪ pinboard_idx_tag_cf tx) tx.
Definition put_pinboard_expiry_index_with_tx (row : Z * string) (tx : Database) : Database :=
  set_pinboard_idx_expiry_cf
    ({[pinboard_expiry_index_key row.1 row.2]} ∪ pinboard_idx_expiry_cf tx) tx.
Definition put_pinboard_commit_index_with_tx (row : Z * string) (tx : Database) : Database :=
  set_pinboard_idx_commit_cf
    ({[pinboard_commit_index_key row.1 row.2]} ∪ pinboard_idx_commit_cf tx) tx.

Definition update_pinboard_refcount_with_tx (content_key : string) (delta : Z) (tx : Database) :
    eld_result Database :=
  let next := default 0 (pinboard_refcounts_cf tx !! content_key) + delta in
  if next <? 0 then Err (StorageError "update_pinboard_refcount_with_tx")
  else Ok (set_pinboard_refcounts_cf (<[content_key := wrap_u64 next]> (pinboard_refcounts_cf tx)) tx).

(** [get_pinboard_temp_blob]: the expiry is not looked at. *)
Definition db_pinboard_temp_blob (db : Database) (content_key : string) : option bytes :=
  temp_blob <$> pinboard_temp_blobs_cf db !! content_key.

Definition put_pinboard_temp_blob (content_key : string) (b : bytes) (expires_at_unix : Z)
    (db : Database) : Database :=
  set_pinboard_temp_blobs_cf
    (<[content_key := mkTempBlobRecord b expires_at_unix]> (pinboard_temp_blobs_cf db)) db.

(** The answer says whether the blob is there. *)
Definition extend_pinboard_temp_blob_ttl (content_key : string) (expires_at_unix : Z) (db : Database) :
    bool * Database :=
  match pinboard_temp_blobs_cf db !! content_key with
  | None => (false, db)
  | Some record =>
      let extended := Z.max expires_at_unix (temp_expires_at_unix record) in
      if extended =? temp_expires_at_unix record then (true, db)
      else (true, put_pinboard_temp_blob content_key (temp_blob record) extended db)
  end.

Definition delete_pinboard_temp_blob_with_tx (content_key : string) (tx : Database) : Database :=
  set_pinboard_temp_blobs_cf (delete content_key (pinboard_temp_blobs_cf tx)) tx.

(** ** Challenge outcomes *)

Definition verified_proof_challenge_rewarded_key (challenge_id : string) : string :=
  String.append "vp_rewarded:" challenge_id.
Definition verified_proof_challenge_failed_key (challenge_id : string) : string :=
  String.append "vp_failed:" challenge_id.

Definition put_verified_proof_challenge_rewarded_with_tx (challenge_id : string) (tx : Database) :
    Database :=
  set_verified_proof_submissions_cf
    ({[verified_proof_challenge_rewarded_key challenge_id]} ∪ verified_proof_submissions_cf tx) tx.
Definition put_verified_proof_challenge_failed_with_tx (challenge_id : string) (tx : Database) :
    Database :=
  set_verified_proof_submissions_cf
    ({[verified_proof_challenge_failed_key challenge_id]} ∪ verified_proof_submissions_cf tx) tx.

(** The reads of consensus over a database. *)
Definition database_reads (db : Database) : StorageReads :=
  mkStorageReads (db_get_cado_by_path db)
    (λ id, Ok (bool_decide (verified_proof_challenge_rewarded_key id
                            ∈ verified_proof_submissions_cf db)))
    (λ id, Ok (bool_decide (verified_proof_challenge_failed_key id
                            ∈ verified_proof_submissions_cf db)))
    (λ key, Ok (db_pinboard_temp_blob db key)).
End storage.

(** ** Valid paths pass the checks *)

Definition is_path_char (c : ascii) : bool :=
  is_ascii_alphanumeric c || Ascii.eqb c "-"%char || Ascii.eqb c "_"%char || Ascii.eqb c "@"%char ||
  Ascii.eqb c "/"%char.

Lemma prefix_string_all (q : ascii → bool) p s :
  starts_with p s = true → string_all q s = true → string_all q p = true.
Proof.
  unfold starts_with. revert s. induction p as [|c p IH]; intros [|d s]; simpl; try done.
  destruct (ascii_dec c d) as [->|]; [|done]. intros Hp Hs. eld_bool. by rewrite H, (IH s).
Qed.

Lemma contains_absent (q : ascii → bool) p s :
  string_all q p = false → string_all q s = true → contains p s = false.
Proof.
  intros Hp Hs. assert (∀ t, string_all q t = true → starts_with p t = false) as Hno.
  { intros t Ht. destruct (starts_with p t) eqn:E; [|done].
    by rewrite (prefix_string_all q p t E Ht) in Hp. }
  induction s as [|c s IH]; cbn [contains]; rewrite Hno by done; [done|]. simpl in *. eld_bool.
  by apply IH.
Qed.

Lemma path_char_lower c : is_path_char c = true → is_path_char (ascii_to_lower c) = true.
Proof. by destruct c as [[] [] [] [] [] [] [] []]. Qed.

Lemma path_char_plain c : is_path_char c = true →
  ascii_between 0 31 c = false ∧ ascii_between 127 127 c = false ∧ ascii_between 194 194 c = false.
Proof. by destruct c as [[] [] [] [] [] [] [] []]. Qed.

Lemma path_no_control s : string_all is_path_char s = true → has_forbidden_control s = false.
Proof.
  induction s as [|c s IH]; simpl; [done|]. intros Hs. eld_bool.
  destruct (path_char_plain c H) as (-> & -> & ->). simpl. by apply IH.
Qed.

Lemma string_all_lower s :
  string_all is_path_char s = true → string_all is_path_char (to_ascii_lowercase s) = true.
Proof.
  unfold to_ascii_lowercase. induction s as [|c s IH]; simpl; [done|]. intros Hs. eld_bool.
  by rewrite path_char_lower, IH.
Qed.

Lemma no_slash_lower s : no_slash s = true → no_slash (to_ascii_lowercase s) = true.
Proof.
  unfold no_slash, to_ascii_lowercase. induction s as [|c s IH]; [done|].
  cbn [string_all string_map]. intros [Hc Hs]%andb_true_iff. rewrite IH by done.
  rewrite andb_true_r. revert Hc. by destruct c as [[] [] [] [] [] [] [] []].
Qed.

Lemma no_slash_contains s : no_slash s = true → contains "//" s = false.
Proof. by apply (contains_absent (λ c, negb (Ascii.eqb "/"%char c))). Qed.

Lemma slash_name_contains s : no_slash s = true → contains "//" (String "/" s) = false.
Proof.
  intros Hs. cbn [contains]. rewrite no_slash_contains by exact Hs. rewrite orb_false_r.
  destruct s as [|c s]; [done|]. unfold starts_with. cbn [String.prefix].
  destruct (ascii_dec "/" "/"); [|done]. destruct (ascii_dec "/" c) as [<-|]; [|done].
  discriminate Hs.
Qed.

Lemma contains_cons p c s :
  starts_with p (String c s) = false → contains p (String c s) = contains p s.
Proof. cbn [contains]. by intros ->. Qed.

Lemma ends_with_char_app c a d b :
  ends_with_char c (String.append a (String d b)) = ends_with_char c (String d b).
Proof.
  induction a as [|x a IH]; [done|]. destruct a as [|y a]; [done|exact IH].
Qed.

Lemma ends_with_char_absent (q : ascii → bool) c s :
  q c = false → string_all q s = true → ends_with_char c s = false.
Proof.
  intros Hc. induction s as [|x s IH]; simpl; [done|]. intros Hs. eld_bool.
  destruct s as [|y s]; [|by apply IH].
  destruct (Ascii.eqb_spec c x) as [<-|]; [congruence|done].
Qed.

Section path_laws.
Context {H : HexCrate} {HL : HexLaws H}.

Lemma validate_hex_field s n f g : validate_hex s n f = Ok tt → validate_hex s n g = Ok tt.
Proof.
  unfold validate_hex. destruct (starts_with _ _); [|done]. destruct (hex_decode _); [|done].
  by destruct (_ =? _)%nat.
Qed.

Lemma name_ok_chars t name :
  name_ok t name →
  string_all is_path_char name = true ∧ (0 < String.length name ≤ 66)%nat.
Proof.
  assert (∀ n f, validate_hex name n f = Ok tt → (n ≤ 32)%nat →
    string_all is_path_char name = true ∧ (0 < String.length name ≤ 66)%nat) as Hhex.
  { unfold validate_hex. intros n f. destruct (starts_with "0x" name) eqn:E; [|done].
    apply starts_with_0x in E as [d ->]. cbn [negb]. rewrite string_drop_0x.
    destruct (hex_decode d) as [b|] eqn:Ed; [|done].
    destruct (length b =? n)%nat eqn:El; [|done]. intros _ Hn. apply Nat.eqb_eq in El.
    rewrite string_all_app, string_length_app, (hex_decode_length _ _ Ed). simpl. split; [|lia].
    eapply string_all_impl; [|by eapply hex_decode_digits].
    intros c. by destruct c as [[] [] [] [] [] [] [] []]. }
  destruct t; simpl; intros Hn; try (eapply Hhex; [exact Hn|unfold expected_hex_length; simpl; lia]).
  apply validate_namespace_slug_Ok in Hn as (Hl & Hc & _). unfold SLUG_MIN_LEN, SLUG_MAX_LEN in Hl.
  split; [|lia]. eapply string_all_impl; [|exact Hc].
  intros c. by destruct c as [[] [] [] [] [] [] [] []].
Qed.

Lemma path_split t name :
  no_slash name = true →
  split_on "/"%char (cp_path (eld_path t name)) = [EmptyString; "@eld"; CadoType_as_str t; name].
Proof.
  intros Hn. unfold eld_path, path3. cbn [cp_path].
  change (String "/" ?s) with (String.append EmptyString (String "/" s)) at 1.
  rewrite split_on_app by done. rewrite split_on_app by done.
  rewrite split_on_app by (by destruct t). by rewrite split_on_none.
Qed.

Lemma eld_path_checked t name :
  name_ok t name → validate_cado_path_internal (eld_path t name) = Ok tt.
Proof.
  intros Hn. pose proof (name_ok_no_slash t name Hn) as Hs.
  destruct (name_ok_chars t name Hn) as [Hc Hl].
  assert (string_all is_path_char (cp_path (eld_path t name)) = true) as Hp.
  { unfold eld_path, path3. cbn [cp_path]. cbn [string_all].
    rewrite string_all_app. cbn [string_all]. rewrite string_all_app. cbn [string_all].
    rewrite Hc. by destruct t. }
  assert (contains "//" (to_ascii_lowercase (cp_path (eld_path t name))) = false) as Hslash.
  { apply no_slash_lower, slash_name_contains in Hs.
    unfold eld_path, path3, to_ascii_lowercase in *. cbn [cp_path].
    destruct t; cbn [CadoType_as_str SCOPE_ELD_ROOT String.append string_map];
      repeat (rewrite contains_cons by reflexivity); exact Hs. }
  assert (contains "//" (cp_path (eld_path t name)) = false) as Hslash'.
  { apply slash_name_contains in Hs. unfold eld_path, path3 in *. cbn [cp_path].
    destruct t; cbn [CadoType_as_str SCOPE_ELD_ROOT String.append];
      repeat (rewrite contains_cons by reflexivity); exact Hs. }
  assert (existsb (λ pattern, contains pattern (to_ascii_lowercase (cp_path (eld_path t name))))
    traversal_patterns = false) as Htr.
  { apply string_all_lower in Hp. apply not_true_iff_false. intros (q & Hq & Hin)%existsb_exists.
    assert (forallb (λ q, negb (string_all is_path_char q) || String.eqb q "//") traversal_patterns
      = true) as Hall by reflexivity.
    rewrite forallb_forall in Hall. specialize (Hall q Hq). apply orb_true_iff in Hall as [Ha|Ha].
    - rewrite (contains_absent is_path_char) in Hin; [done| |exact Hp]. by apply negb_true_iff.
    - apply String.eqb_eq in Ha as ->. by rewrite Hslash in Hin. }
  unfold validate_cado_path_internal. cbv zeta.
  assert ((MAX_PATH_LENGTH <? String.length (cp_path (eld_path t name)))%nat = false) as ->.
  { apply Nat.ltb_ge. unfold eld_path, path3, MAX_PATH_LENGTH. cbn [cp_path String.length].
    rewrite !string_length_app. cbn [String.length]. rewrite string_length_app.
    cbn [String.length]. assert (String.length (CadoType_as_str t) ≤ 23)%nat by (destruct t; simpl; lia).
    simpl. lia. }
  rewrite (contains_absent is_path_char) by done. rewrite path_no_control by done.
  rewrite Htr, path_split by done. cbn [cp_scope cp_type cp_name eld_path].
  rewrite Hslash', !(contains_absent is_path_char _ (cp_path (eld_path t name))) by done.
  rewrite (ends_with_char_absent is_path_char "\"%char) by done. cbn [orb].
  assert (String.eqb name EmptyString = false) as Hne.
  { destruct name; [simpl in Hl; lia|done]. }
  assert (ends_with_char "/"%char (cp_path (eld_path t name)) = false) as ->.
  { destruct name as [|c0 n0]; [done|].
    pose proof (ends_with_char_absent _ "/"%char (String c0 n0) eq_refl Hs). by destruct t. }
  rewrite Hne.
  replace (length _ <? 3)%nat with false by (destruct t; cbn [List.filter]; by rewrite Hne).
  destruct t; simpl in Hn |- *; unfold expected_hex_length in Hn; simpl in Hn;
    first [by rewrite Hn|by rewrite (validate_hex_field _ _ _ _ Hn)].
Qed.
End path_laws.

(** ** What is stored is found *)

(** The types whose key depends on the name only. *)
Definition is_named_type (t : CadoType) : bool :=
  match t with
  | Cado_CadoMap | Cado_SnapshotMetadata | Cado_SnapshotChunk | Cado_ChunkReference => false
  | _ => true
  end.

Definition stored_limit (t : CadoType) : Z :=
  match t with Cado_AppStateSnapshot => MAX_APP_STATE_SNAPSHOT_CADO_SIZE_BYTES | _ => 1024 * 1024 end.

Section store_laws.
Context {H : HexCrate} {HL : HexLaws H} {HC : HashCrates} {BC : Bincode CadoBody}
  {BL : BincodeLaws CadoBody (λ _, True)}.

Definition path_key (t : CadoType) (name : string) : string :=
  storage_key SCOPE_ELD_ROOT (CadoType_as_str t)
    (if is_address_type t then hex_encode (sha256 (as_bytes name)) else name).

(** An object the database accepts under a path and gives back. *)
Definition storable (t : CadoType) (name : string) (cado : CadoBody) : Prop :=
  is_named_type t = true ∧ name_ok t name ∧
  (∃ b, bin_serialize cado = Some b ∧ 0 < Z.of_nat (length b) ≤ stored_limit t) ∧
  (is_address_type t = true → ∃ m, cado = Mutable m ∧ meta_owner (cadomut_metadata m) = name).

(** Indexed paths carry the key of their name. *)
Definition index_wf (db : Database) : Prop :=
  ∀ t name key, is_named_type t = true → name_ok t name →
    path_index_cf db !! cp_path (eld_path t name) = Some key → key = path_key t name.

Lemma generate_storable t name cado :
  storable t name cado →
  generate_key (eld_path t name) cado = Ok (path_key t name) ∧
  ∃ l, generate (eld_path t name) cado = Ok (mkCADOKeys (path_key t name) l).
Proof.
  intros (Ht & Hn & _ & Ha).
  assert (generate_key (eld_path t name) cado = Ok (path_key t name)) as Hk.
  { unfold generate_key, AccountKeyGenerator_original_key, NamedKeyGenerator_original_key, path_key.
    destruct t; try done; simpl in Hn; unfold validate_hex, expected_hex_length in Hn; simpl in Hn |- *;
      destruct Ha as (m & -> & Ho); try done;
      destruct (starts_with "0x" name); try done; simpl in Hn |- *;
      destruct (hex_decode _); try done; simpl in Hn |- *;
      destruct (_ =? 20)%nat; try done; simpl; by rewrite Ho, String.eqb_refl. }
  split; [done|]. unfold generate. rewrite Hk. unfold KeyGenerator_latest_key.
  destruct t; try done; simpl in Ha |- *; try (by eexists);
    destruct Ha as (m & -> & _); try done; by eexists.
Qed.

Lemma stored_reads_back t name cado b :
  storable t name cado → bin_serialize cado = Some b →
  deserialize_stored_cado_type (eld_path t name) b = Ok cado.
Proof.
  intros (_ & _ & (b' & Eb & Hl) & _) E. rewrite E in Eb. injection Eb as <-.
  destruct (bin_roundtrip cado I) as (b' & Es & Ed). rewrite E in Es. injection Es as <-.
  unfold deserialize_stored_cado_type, safe_deserialize_app_state_snapshot_cado_data,
    safe_deserialize_cado_data, safe_bincode_deserialize.
  destruct b as [|x b]; [simpl in Hl; lia|]. rewrite Ed.
  assert ((stored_limit t <? Z.of_nat (length (x :: b))) = false) as Hf by (apply Z.ltb_ge; lia).
  destruct t; cbn [stored_limit] in Hf; cbn [cp_type eld_path CadoType_as_str String.eqb Ascii.eqb Bool.eqb];
    by rewrite Hf.
Qed.

(** What a put writes. *)
Definition with_object (t : CadoType) (name : string) (b : bytes) (db : Database) : Database :=
  set_path_index_cf (<[cp_path (eld_path t name) := path_key t name]> (path_index_cf db))
    (set_cado_cf (<[path_key t name := b]> (cado_cf db)) db).

Lemma put_storable t name cado tx :
  index_wf tx → storable t name cado →
  ∃ b, bin_serialize cado = Some b ∧
    put_cado_type_with_tx (eld_path t name) cado tx = Ok (with_object t name b tx).
Proof.
  intros Hwf Hs. pose proof Hs as (Ht & Hn & (b & Eb & _) & _). exists b. split; [done|].
  unfold put_cado_type_with_tx. rewrite eld_path_checked by done.
  destruct (generate_storable t name cado Hs) as [Hk _].
  destruct (path_index_cf tx !! cp_path (eld_path t name)) as [key|] eqn:Ei.
  - rewrite (Hwf t name key Ht Hn Ei), Eb. done.
  - rewrite Hk, Eb. done.
Qed.

Lemma eld_paths_inj t name t' name' :
  name_ok t name → name_ok t' name' → cp_path (eld_path t name) = cp_path (eld_path t' name') →
  t = t' ∧ name = name'.
Proof.
  intros Hn Hn' Hp. pose proof (CadoPath_parse_eld t name Hn) as E.
  rewrite Hp, (CadoPath_parse_eld t' name' Hn') in E. injection E as E1 E2 E3.
  split; [by apply (inj CadoType_as_str)|done].
Qed.

Lemma with_object_wf t name b db :
  name_ok t name → index_wf db → index_wf (with_object t name b db).
Proof.
  intros Hn Hwf t' name' key Ht' Hn'. cbn [with_object set_path_index_cf path_index_cf].
  destruct (decide (cp_path (eld_path t name) = cp_path (eld_path t' name'))) as [Hp|Hp].
  - rewrite <- Hp, lookup_insert_eq. intros [= <-].
    by destruct (eld_paths_inj _ _ _ _ Hn Hn' Hp) as [<- <-].
  - rewrite lookup_insert_ne by done. by apply Hwf.
Qed.

Lemma get_with_object t name cado b db :
  storable t name cado → bin_serialize cado = Some b →
  db_get_cado_by_path (with_object t name b db) (eld_path t name) = Ok (Some cado).
Proof.
  intros Hs Eb. unfold db_get_cado_by_path. rewrite eld_path_checked by (by apply Hs).
  cbn [with_object set_path_index_cf path_index_cf cado_cf set_cado_cf].
  rewrite !lookup_insert_eq. rewrite (stored_reads_back t name cado b Hs Eb).
  destruct (generate_storable t name cado Hs) as [_ [l ->]].
  cbn [original_key]. by rewrite String.eqb_refl.
Qed.

Lemma get_with_object_ne t name b db t' name' :
  name_ok t name → name_ok t' name' → is_named_type t' = true → index_wf db →
  path_key t name ≠ path_key t' name' →
  db_get_cado_by_path (with_object t name b db) (eld_path t' name') =
  db_get_cado_by_path db (eld_path t' name').
Proof.
  intros Hn Hn' Ht' Hwf Hk. unfold db_get_cado_by_path. rewrite eld_path_checked by done.
  cbn [with_object set_path_index_cf path_index_cf cado_cf set_cado_cf].
  rewrite lookup_insert_ne.
  - destruct (path_index_cf db !! cp_path (eld_path t' name')) as [key|] eqn:Ei; [|done].
    rewrite (Hwf t' name' key Ht' Hn' Ei). by rewrite lookup_insert_ne.
  - intros Hp. by destruct (eld_paths_inj _ _ _ _ Hn Hn' Hp) as [<- <-].
Qed.

(** Any accepted put under a named type writes the object's own row. *)
Lemma put_named_inv t name cado tx tx' :
  is_named_type t = true → name_ok t name → index_wf tx →
  put_cado_type_with_tx (eld_path t name) cado tx = Ok tx' →
  ∃ b, bin_serialize cado = Some b ∧ tx' = with_object t name b tx.
Proof.
  intros Ht Hn Hwf. unfold put_cado_type_with_tx. rewrite eld_path_checked by done.
  assert (∀ k, generate_key (eld_path t name) cado = Ok k → k = path_key t name) as Hk.
  { intros k. unfold generate_key, AccountKeyGenerator_original_key, NamedKeyGenerator_original_key,
      path_key. destruct t; try done; cbn -[storage_key hex_encode starts_with hex_decode string_drop];
      try (by intros [= <-]); destruct (starts_with _ _); try done; cbn [negb];
      destruct (hex_decode _); try done; cbn [ok_or]; destruct (_ =? 20)%nat; try done; cbn [negb];
      destruct cado as [|m]; try done; destruct (String.eqb _ _); try done; by intros [= <-]. }
  destruct (path_index_cf tx !! cp_path (eld_path t name)) as [key|] eqn:Ei.
  - rewrite (Hwf t name key Ht Hn Ei). destruct (bin_serialize cado) as [b|]; [|done].
    intros [= <-]. by exists b.
  - destruct (generate_key _ _) as [k|]; [|done]. rewrite (Hk k eq_refl).
    destruct (bin_serialize cado) as [b|]; [|done]. intros [= <-]. by exists b.
Qed.

(** Reads depend on the object families only. *)
Definition same_objects (db db' : Database) : Prop :=
  cado_cf db' = cado_cf db ∧ path_index_cf db' = path_index_cf db.

Lemma same_objects_get db db' p :
  same_objects db db' → db_get_cado_by_path db' p = db_get_cado_by_path db p.
Proof. intros [E1 E2]. unfold db_get_cado_by_path. by rewrite E1, E2. Qed.

Lemma same_objects_wf db db' : same_objects db db' → index_wf db → index_wf db'.
Proof. intros [_ E] Hw t name key Ht Hn. rewrite E. by apply Hw. Qed.

(** Objects keyed by content: immutable bodies of the other types. *)
Lemma general_key t name c :
  is_named_type t = false → name_ok t name →
  generate_key (eld_path t name) (Immutable c) =
    Ok (storage_key SCOPE_ELD_ROOT (CadoType_as_str t) (hex_encode (cado_hash c))) ∧
  generate (eld_path t name) (Immutable c) =
    Ok (mkCADOKeys (storage_key SCOPE_ELD_ROOT (CadoType_as_str t) (hex_encode (cado_hash c))) None).
Proof.
  intros Ht Hn.
  assert (generate_key (eld_path t name) (Immutable c) =
    Ok (storage_key SCOPE_ELD_ROOT (CadoType_as_str t) (hex_encode (cado_hash c)))) as Hk.
  { unfold generate_key, GeneralKeyGenerator_original_key.
    destruct t; try done; simpl in Hn; unfold validate_hex, expected_hex_length in Hn; simpl in Hn |- *;
      destruct (starts_with "0x" name); try done; simpl in Hn |- *;
      destruct (hex_decode _); try done; simpl in Hn |- *; by destruct (_ =? 32)%nat. }
  split; [done|]. unfold generate. rewrite Hk. unfold KeyGenerator_latest_key. by destruct t.
Qed.

Lemma immutable_reads_back t name c b :
  is_named_type t = false → bin_serialize (Immutable c) = Some b →
  0 < Z.of_nat (length b) ≤ 1024 * 1024 →
  deserialize_stored_cado_type (eld_path t name) b = Ok (Immutable c).
Proof.
  intros Ht Eb Hl. destruct (bin_roundtrip (Immutable c) I) as (b' & Es & Ed).
  rewrite Eb in Es. injection Es as <-.
  unfold deserialize_stored_cado_type, safe_deserialize_cado_data, safe_bincode_deserialize.
  destruct b as [|x b]; [simpl in Hl; lia|]. rewrite Ed.
  assert ((1024 * 1024 <? Z.of_nat (length (x :: b))) = false) as Hf by (apply Z.ltb_ge; lia).
  destruct t; try done; cbn [cp_type eld_path CadoType_as_str String.eqb Ascii.eqb Bool.eqb];
    by rewrite Hf.
Qed.

Lemma put_general t name c b db :
  is_named_type t = false → name_ok t name → bin_serialize (Immutable c) = Some b →
  path_index_cf db !! cp_path (eld_path t name) = None →
  let key := storage_key SCOPE_ELD_ROOT (CadoType_as_str t) (hex_encode (cado_hash c)) in
  put_cado_type_with_tx (eld_path t name) (Immutable c) db =
  Ok (set_path_index_cf (<[cp_path (eld_path t name) := key]> (path_index_cf db))
        (set_cado_cf (<[key := b]> (cado_cf db)) db)).
Proof.
  intros Ht Hn Eb Ei key. unfold put_cado_type_with_tx. rewrite eld_path_checked, Ei by done.
  destruct (general_key t name c Ht Hn) as [-> _]. by rewrite Eb.
Qed.

Lemma get_general t name c b db :
  let key := storage_key SCOPE_ELD_ROOT (CadoType_as_str t) (hex_encode (cado_hash c)) in
  is_named_type t = false → name_ok t name → bin_serialize (Immutable c) = Some b →
  0 < Z.of_nat (length b) ≤ 1024 * 1024 →
  path_index_cf db !! cp_path (eld_path t name) = Some key → cado_cf db !! key = Some b →
  db_get_cado_by_path db (eld_path t name) = Ok (Some (Immutable c)).
Proof.
  intros key Ht Hn Eb Hl Hi Hc. unfold db_get_cado_by_path. rewrite eld_path_checked by done.
  rewrite Hi, Hc, (immutable_reads_back t name c b Ht Eb Hl).
  destruct (general_key t name c Ht Hn) as [_ ->]. cbn [original_key]. fold key.
  by rewrite String.eqb_refl.
Qed.

Lemma system_delete_general t name c db :
  let key := storage_key SCOPE_ELD_ROOT (CadoType_as_str t) (hex_encode (cado_hash c)) in
  CadoType_is_system_deletable t = true → name_ok t name →
  db_get_cado_by_path db (eld_path t name) = Ok (Some (Immutable c)) →
  ∃ db', system_delete_cado_with_tx db (eld_path t name) (meta_owner (cado_metadata c)) db = Ok db' ∧
    cado_cf db' = delete key (cado_cf db) ∧
    path_index_cf db' = delete (cp_path (eld_path t name)) (path_index_cf db).
Proof.
  intros key Hd Hn Hg. assert (is_named_type t = false) as Ht by (by destruct t).
  unfold system_delete_cado_with_tx, prepare_system_cado_deletion.
  rewrite eld_path_checked by done. rewrite Hg.
  assert (validate_system_deletion (eld_path t name) = Ok tt) as -> by (by destruct t).
  cbn [ok_or CadoBody_metadata]. rewrite String.eqb_refl. cbn [negb].
  destruct (general_key t name c Ht Hn) as [_ ->].
  unfold delete_cado_associated_keys_with_tx. cbn [cp_name eld_path latest_key original_key].
  assert (name_ok Cado_CadoMap name) as Hm by (by destruct t).
  rewrite (proj2 (CadoPath_new_Ok Cado_CadoMap (Key_Name name) (eld_path Cado_CadoMap name)));
    [by eexists|]. by eexists.
Qed.

(** ** Properties *)

(** An object written in a transaction is read back from it as it was
    written, whether its path is new or already indexed, and the write leaves
    every object with another storage key as it was; the index stays
    consistent with the names. *)
Theorem stored_object_reads_back (tx : Database) (t : CadoType) (name : string) (cado : CadoBody) :
  index_wf tx → storable t name cado →
  ∃ tx', put_cado_type_with_tx (eld_path t name) cado tx = Ok tx' ∧ index_wf tx' ∧
    db_get_cado_by_path tx' (eld_path t name) = Ok (Some cado) ∧
    ∀ t' name', is_named_type t' = true → name_ok t' name' →
      path_key t name ≠ path_key t' name' →
      db_get_cado_by_path tx' (eld_path t' name') = db_get_cado_by_path tx (eld_path t' name').
Proof.
  intros Hwf Hs. destruct (put_storable t name cado tx Hwf Hs) as (b & Eb & Hp).
  pose proof Hs as (_ & Hn & _). exists (with_object t name b tx). split_and!; [done| | |].
  - by apply with_object_wf.
  - by apply get_with_object.
  - intros t' name' Ht' Hn' Hk. by apply get_with_object_ne.
Qed.

(** Snapshot and chunk objects are stored under the hash of their content,
    so two paths with the same content share one row: deleting the first
    makes the second unreadable although its path is still indexed. *)
Theorem deleting_shared_content (t : CadoType) (name1 name2 owner : string) (data : bytes)
    (db : Database) :
  let cado := CadoBody_immutable data (CADOMetadata_new t owner) in
  CadoType_is_system_deletable t = true → name_ok t name1 → name_ok t name2 → name1 ≠ name2 →
  (∃ b, bin_serialize cado = Some b ∧ 0 < Z.of_nat (length b) ≤ 1024 * 1024) →
  path_index_cf db !! cp_path (eld_path t name1) = None →
  path_index_cf db !! cp_path (eld_path t name2) = None →
  ∃ db1 db2 db3,
    put_cado_type_with_tx (eld_path t name1) cado db = Ok db1 ∧
    put_cado_type_with_tx (eld_path t name2) cado db1 = Ok db2 ∧
    db_get_cado_by_path db2 (eld_path t name2) = Ok (Some cado) ∧
    system_delete_cado_with_tx db2 (eld_path t name1) owner db2 = Ok db3 ∧
    is_Some (path_index_cf db3 !! cp_path (eld_path t name2)) ∧
    db_get_cado_by_path db3 (eld_path t name2) = Ok None.
Proof.
  intros cado Hd Hn1 Hn2 Hne (b & Eb & Hl) Hi1 Hi2.
  assert (is_named_type t = false) as Ht by (by destruct t).
  assert (cp_path (eld_path t name1) ≠ cp_path (eld_path t name2)) as Hp.
  { intros Hp. by destruct (eld_paths_inj _ _ _ _ Hn1 Hn2 Hp). }
  set (c := CADO_new data (CADOMetadata_new t owner)) in *. change cado with (Immutable c) in *.
  set (key := storage_key SCOPE_ELD_ROOT (CadoType_as_str t) (hex_encode (cado_hash c))).
  set (db1 := set_path_index_cf (<[cp_path (eld_path t name1) := key]> (path_index_cf db))
                (set_cado_cf (<[key := b]> (cado_cf db)) db)).
  set (db2 := set_path_index_cf (<[cp_path (eld_path t name2) := key]> (path_index_cf db1))
                (set_cado_cf (<[key := b]> (cado_cf db1)) db1)).
  assert (db_get_cado_by_path db2 (eld_path t name1) = Ok (Some (Immutable c))) as Hg1.
  { apply (get_general t name1 c b); try done; cbn.
    - by rewrite lookup_insert_ne, lookup_insert_eq.
    - by rewrite lookup_insert_eq. }
  destruct (system_delete_general t name1 c db2 Hd Hn1 Hg1) as (db3 & Hdel & Ec & Ei).
  exists db1, db2, db3. split; [by apply put_general|]. split.
  { apply put_general; try done. cbn. by rewrite lookup_insert_ne. }
  split; [|split; [exact Hdel|]].
  { apply (get_general t name2 c b); try done; cbn; by rewrite lookup_insert_eq. }
  rewrite Ei, lookup_delete_ne by done. cbn. rewrite lookup_insert_eq. split; [by eexists|].
  unfold db_get_cado_by_path. rewrite eld_path_checked by done.
  rewrite Ei, Ec, lookup_delete_ne by done. cbn. rewrite lookup_insert_eq. fold key.
  by rewrite lookup_delete_eq.
Qed.
End store_laws.

(** ** Witnesses *)

#[export, program] Instance CADOMetadata_countable : Countable CADOMetadata :=
  inj_countable' (λ m, (meta_type m, meta_owner m)) (λ '(a, b), mkCADOMetadata a b) _.
Next Obligation. by intros []. Qed.

#[export, program] Instance CADO_countable : Countable CADO :=
  inj_countable' (λ c, (cado_hash c, cado_data c, cado_metadata c)) (λ '(a, b, c), mkCADO a b c) _.
Next Obligation. by intros []. Qed.

#[export, program] Instance CADOMut_countable : Countable CADOMut :=
  inj_countable' (λ c, (cadomut_hash c, cadomut_data c, cadomut_metadata c, cadomut_latest_hash c))
    (λ '(a, b, c, d), mkCADOMut a b c d) _.
Next Obligation. by intros []. Qed.

#[export, program] Instance CadoBody_countable : Countable CadoBody :=
  inj_countable' (λ b, match b with Immutable c => inl c | Mutable m => inr m end)
    (λ s, match s with inl c => Immutable c | inr m => Mutable m end) _.
Next Obligation. by intros []. Qed.

(** A codec of object bodies with a short code for one of them. *)
Definition body_bincode (b : CadoBody) : Bincode CadoBody :=
  shortcut_bincode b (countable_bincode CadoBody).

Lemma body_bincode_laws b : @BincodeLaws CadoBody (body_bincode b) (λ _, True).
Proof. apply shortcut_bincode_laws, countable_bincode_laws. Qed.

Definition test_owner : string := "0x00000000000000000000000000000000000000aa".
Definition test_body : CadoBody :=
  CadoBody_mutable_new [Init.Byte.x07] (CADOMetadata_new Cado_Account test_owner).

Lemma test_body_storable :
  storable (BC := body_bincode test_body) Cado_Account test_owner test_body.
Proof.
  split; [done|]. split; [by vm_compute|]. split.
  - exists [Init.Byte.x00]. split; [by vm_compute|]. by vm_compute.
  - intros _. by eexists.
Qed.

Lemma stored_object_reads_back_witness :
  ∃ tx', put_cado_type_with_tx (BC := body_bincode test_body) (eld_path Cado_Account test_owner)
           test_body empty_database = Ok tx' ∧
    db_get_cado_by_path (BC := body_bincode test_body) tx' (eld_path Cado_Account test_owner) =
      Ok (Some test_body).
Proof.
  destruct (stored_object_reads_back (BC := body_bincode test_body)
    (BL := body_bincode_laws test_body) empty_database Cado_Account test_owner test_body)
    as (tx' & E & _ & G & _); [by intros ?|exact test_body_storable|].
  by exists tx'.
Defined.

Definition test_chunk_name (c : ascii) : string :=
  String.append "0x" (string_of_list_ascii (replicate 64 c)).
Definition test_chunk_body : CadoBody :=
  CadoBody_immutable [Init.Byte.x07] (CADOMetadata_new Cado_SnapshotChunk "system").

Lemma deleting_shared_content_witness :
  ∃ db2 db3,
    db_get_cado_by_path (BC := body_bincode test_chunk_body) db2
      (eld_path Cado_SnapshotChunk (test_chunk_name "b")) = Ok (Some test_chunk_body) ∧
    system_delete_cado_with_tx (BC := body_bincode test_chunk_body) db2
      (eld_path Cado_SnapshotChunk (test_chunk_name "a")) "system" db2 = Ok db3 ∧
    db_get_cado_by_path (BC := body_bincode test_chunk_body) db3
      (eld_path Cado_SnapshotChunk (test_chunk_name "b")) = Ok None.
Proof.
  destruct (deleting_shared_content (BC := body_bincode test_chunk_body)
    (BL := body_bincode_laws test_chunk_body) Cado_SnapshotChunk (test_chunk_name "a")
    (test_chunk_name "b") "system" [Init.Byte.x07] empty_database)
    as (db1 & db2 & db3 & _ & _ & H1 & H2 & _ & H3);
    [done|by vm_compute|by vm_compute|done| |done|done|by exists db2, db3].
  exists [Init.Byte.x00]. split; by vm_compute.
Defined.
