(* ===== verification/Snapshot.v ===== *)
(** Snapshots of the committed state and restart from them:
    node_app/src/app_state/app_state_snapshot.rs, and [initialize_with_data] of
    app_state/app.rs. *)
From S2P Require Import Prelude Externals Reference Coins Address Namespace Cado Records Pinboard AppState Storage.

Record AppStateSnapshot : Type := mkAppStateSnapshot {
  snap_block_height : Z;
  snap_app_hash : byte_array 32;
  snap_chain_id : string;
  snap_current_epoch : Z;
  snap_committed_cado_cache : gmap string CadoBody;
  snap_state_trie_root : byte_array 32;
  snap_epoch_records_index : gset Z;
  snap_namespace_registry_index : gmap string NamespaceRecord;
  snap_validators : list ValidatorInfo;
  snap_active_validators : list ValidatorInfo;
  snap_capacity_validators : list CapacityValidatorInfo;
  snap_active_capacity_validator : option ActiveCapacityValidator;
}.

(** The bincode encodings of the tip and of the snapshot. *)
Class SnapshotCodecs : Type := {
  tip_codec :: Bincode AppStateTip;
  snapshot_codec :: Bincode AppStateSnapshot;
  body_codec :: Bincode CadoBody;
}.

Class SnapshotCodecsLaws (SC : SnapshotCodecs) : Prop := {
  tip_laws :: BincodeLaws AppStateTip (λ _, True);
  snapshot_laws :: BincodeLaws AppStateSnapshot (λ _, True);
  body_laws :: BincodeLaws CadoBody (λ _, True);
}.

Section snapshot.
Context {H : HexCrate} {HC : HashCrates} {T : TrieCrate} {SC : SnapshotCodecs}.

Definition AppStateSnapshot_new (state : AppState) : eld_result AppStateSnapshot :=
  let e := envelope state in
  let? app_hash := AppHash_bytes (app_hash state) in
  Ok (mkAppStateSnapshot (block_height e) app_hash (chain_id state) (current_epoch e)
        (without_infrastructure (committed_cado_cache e)) (root_hash (state_trie e))
        (epoch_records_index e) (namespace_registry_index e) (validators e) (active_validators e)
        (capacity_validators e) (active_capacity_validator e)).

Definition AppStateSnapshot_to_cado (s : AppStateSnapshot) : eld_result CadoBody :=
  let? serialized := ok_or (bin_serialize s) (StorageError "serialize_app_state_snapshot") in
  Ok (CadoBody_immutable serialized (CADOMetadata_new Cado_AppStateSnapshot "system")).

Definition AppStateSnapshot_latest_path : eld_result CadoPath :=
  let name_hex := String.append "0x" (hex_encode (sha256 (as_bytes "latest"))) in
  CadoPath_new Cado_AppStateSnapshot (Key_Name name_hex).

(** Writes the fields of the snapshot over the state, then checks the roots. *)
Definition apply_to_state (s : AppStateSnapshot) (cado_root_hash : byte_array 32) (state : AppState) :
    eld_result AppState :=
  let e := envelope state in
  let e := set_current_epoch (snap_current_epoch s) (set_block_height (snap_block_height s) e) in
  let e := set_committed_cado_cache
             (without_infrastructure (snap_committed_cado_cache s)) e in
  let e := set_namespace_registry_index (snap_namespace_registry_index s)
             (set_epoch_records_index (snap_epoch_records_index s) e) in
  let e := set_active_validators (snap_active_validators s)
             (set_validators (snap_validators s) e) in
  let e := set_active_capacity_validator (snap_active_capacity_validator s)
             (set_capacity_validators (snap_capacity_validators s) e) in
  let e := rebuild_state_trie_from_cache e in
  let rebuilt_root := root_hash (state_trie e) in
  if negb (bool_decide (rebuilt_root = cado_root_hash)) then Err (ValidationError "trie_root_hash")
  else if negb (bool_decide (snap_state_trie_root s = cado_root_hash))
  then Err (ValidationError "state_trie_root")
  else Ok (mkAppState (Some (snap_app_hash s)) e (snap_chain_id s)).

(** [get_deserialized_cado_by_path]: [Ok None] is the not-found error. *)
Definition get_deserialized_cado_by_path {A} `{Bincode A} (db : Database) (path : CadoPath) :
    eld_result (option A) :=
  let? found := db_get_cado_by_path db path in
  match found with
  | None => Ok None
  | Some cado =>
      let? a := ok_or (bin_deserialize (CadoBody_data cado)) (StorageError "deserialize") in
      Ok (Some a)
  end.

(** [initialize_with_data]; [None] is a fatal stop of the node. *)
Definition initialize_with_data (db : Database) (state : AppState) :
    option (eld_result AppState) :=
  let state := set_envelope (init_empty_trie (envelope state)) state in
  match CadoPath_new Cado_AppStateTip (Key_Name LATEST) with
  | Err _ => None
  | Ok tip_path =>
      match get_deserialized_cado_by_path (A := AppStateTip) db tip_path with
      | Err e => Some (Err e)
      | Ok None =>
          let genesis := AppStateTip_genesis in
          Some (Ok (set_app_hash (tip_app_hash genesis)
                      (set_envelope (set_block_height (tip_block_height genesis) (envelope state))
                         state)))
      | Ok (Some tip) =>
          let state := set_app_hash (tip_app_hash tip)
                         (set_envelope (set_block_height (tip_block_height tip) (envelope state))
                            state) in
          match AppStateSnapshot_latest_path with
          | Err _ => None
          | Ok snapshot_path =>
              match get_deserialized_cado_by_path (A := AppStateSnapshot) db snapshot_path with
              | Err _ | Ok None => None
              | Ok (Some snapshot) =>
                  if negb (snap_block_height snapshot =? tip_block_height tip) then None
                  else if negb (bool_decide (snap_app_hash snapshot = tip_app_hash tip)) then None
                  else
                    match apply_to_state snapshot (tip_cado_root_hash tip) state with
                    | Err _ => None
                    | Ok state => Some (Ok state)
                    end
              end
          end
      end
  end.
End snapshot.

(** ** Reference codecs *)

#[export] Instance AppStateTip_eq_dec : EqDecision AppStateTip.
Proof. solve_decision. Defined.
#[export] Instance AppStateSnapshot_eq_dec : EqDecision AppStateSnapshot.
Proof. solve_decision. Defined.

#[export, program] Instance AppStateTip_countable : Countable AppStateTip :=
  inj_countable' (λ t, (tip_block_height t, tip_cado_root_hash t, tip_app_hash t))
    (λ '(a, b, c), mkAppStateTip a b c) _.
Next Obligation. by intros []. Qed.

#[export, program] Instance AppStateSnapshot_countable : Countable AppStateSnapshot :=
  inj_countable' (λ s, (snap_block_height s, snap_app_hash s, snap_chain_id s, snap_current_epoch s,
      snap_committed_cado_cache s, snap_state_trie_root s, snap_epoch_records_index s,
      snap_namespace_registry_index s, snap_validators s, snap_active_validators s,
      snap_capacity_validators s, snap_active_capacity_validator s))
    (λ '(a, b, c, d, e, f, g, h, i, j, k, l), mkAppStateSnapshot a b c d e f g h i j k l) _.
Next Obligation. by intros []. Qed.

(** Codecs with a short code for one object body. *)
Definition test_snapshot_codecs (b : CadoBody) : SnapshotCodecs := {|
  tip_codec := countable_bincode AppStateTip;
  snapshot_codec := countable_bincode AppStateSnapshot;
  body_codec := body_bincode b;
|}.

Lemma test_snapshot_codecs_laws b : SnapshotCodecsLaws (test_snapshot_codecs b).
Proof.
  constructor; [apply countable_bincode_laws..|]. apply body_bincode_laws.
Qed.
