(* ===== verification/Epoch.v ===== *)
(** Epochs: consensus/epoch.rs (selection of validators and of the capacity
    validator, the epoch record), consensus/end_block.rs and the challenges of
    consensus/challenges.rs. *)
From S2P Require Import Prelude Externals Reference Coins Address Ordering Namespace Cado Records Tx Merkle Fee Pinboard AppState Ledger Processors VerifiedProof.

(** ** Validators *)

Definition compare_validator_priority (a b : ValidatorInfo) : comparison :=
  then_with (Coin_compare (val_stake b) (val_stake a))
    (then_with (Address_compare (val_address a) (val_address b))
       (bytes_compare (val_public_key a) (val_public_key b))).

Definition ELD_STORAGE_PROOF_TOPIC_PREFIX : string := "eld-storage-proof-topic-".

Section epoch.
Context {H : HexCrate} {HC : HashCrates} {C : RecordCodecs} {R : RandCrate} {T : TrieCrate}
  (protocol : ProtocolConstants).

Definition select_validators_for_epoch (s : AppState) : AppState :=
  let sorted := sort_by compare_validator_priority (validators (envelope s)) in
  set_envelope (set_active_validators
    (take (Z.to_nat (validators_per_epoch protocol)) sorted) (envelope s)) s.

(** ** The capacity validator *)

(** The sum of the lease wraps at 64 bits. *)
Definition eligible_capacity (current_block : Z) (cv : CapacityValidatorInfo) : bool :=
  match cv_merkle_root cv with Some _ => true | None => false end &&
  (current_block <=? wrap_u64 (cv_registered_block cv + cv_registration_duration cv)).

Definition selection_seed (epoch : Z) (chain_id : string) (eligible : list CapacityValidatorInfo) :
    byte_array 32 :=
  sha256 (as_bytes "CAPACITY_VALIDATOR_SELECTION" ++ be_bytes8 epoch ++ as_bytes chain_id ++
          (eligible ≫= λ cv, as_bytes (hex_with_prefix (cv_address cv)) ++
                             vec_to_list (pk_bytes (cv_public_key cv)))).

(** The [expect] on the first shuffled element holds because a shuffle keeps
    the elements; without one there is no selection. *)
Definition select_active_capacity_validator_for_epoch (epoch : Z) (s : AppState) : AppState :=
  let e := envelope s in
  let current_block := as_u64 (block_height e) in
  let eligible := List.filter (eligible_capacity current_block) (capacity_validators e) in
  match eligible with
  | [] => set_envelope (set_active_capacity_validator None e) s
  | _ =>
      let eligible :=
        sort_by (λ a b, Address_compare (cv_address a) (cv_address b)) eligible in
      let '(shuffled, rng1) :=
        rng_shuffle (rng_from_seed (selection_seed epoch (chain_id s) eligible)) eligible in
      match shuffled with
      | [] => s
      | selected :: _ =>
          let selected_address := cv_address selected in
          let challenge_pool :=
            if (length eligible =? 1)%nat then map cv_address eligible
            else map cv_address
                   (List.filter (λ cv, negb (bool_decide (cv_address cv = selected_address)))
                      eligible) in
          let challenge_pool := sort_by Address_compare challenge_pool in
          let challenged_providers :=
            match challenge_pool with
            | [] => []
            | _ =>
                let '(pool, _) := rng_shuffle rng1 challenge_pool in
                take (Z.to_nat (Z.min (challenges_per_epoch protocol)
                                  (Z.of_nat (length challenge_pool)))) pool
            end in
          let subscribed_topics :=
            map (λ a, String.append ELD_STORAGE_PROOF_TOPIC_PREFIX (hex_with_prefix a))
              challenged_providers in
          set_envelope (set_active_capacity_validator
            (Some (mkActiveCapacityValidator selected_address epoch challenged_providers
                     subscribed_topics)) e) s
      end
  end.

(** ** The epoch record *)

Definition find_provider (l : list CapacityValidatorInfo) (a : Address) :
    option CapacityValidatorInfo :=
  List.find (λ p, bool_decide (cv_address p = a)) l.

Definition build_epoch_record (s : AppState) (new_epoch blocks_per_epoch : Z) : EpochRecord :=
  let e := envelope s in
  let challenged :=
    match active_capacity_validator e with
    | Some sv => omap (find_provider (capacity_validators e)) (acv_challenged_providers sv)
    | None => []
    end in
  mkEpochRecord new_epoch (wrap_i64 (new_epoch * blocks_per_epoch)) (active_validators e)
    (active_capacity_validator e) challenged.

Definition store_epoch_record (record : EpochRecord) (s : AppState) : eld_result AppState :=
  let? serialized := EpochRecord_serialize_bin record in
  let metadata := CADOMetadata_new Cado_EpochRecord (to_string_i64 (er_epoch record)) in
  let cado := CadoBody_immutable serialized metadata in
  let? epoch_key := epoch_record_path_name (er_epoch record) in
  let? epoch_path := CadoPath_new Cado_EpochRecord (Key_Name epoch_key) in
  let e1 := update_cado_cache epoch_path cado (envelope s) in
  let? latest_path := CadoPath_new Cado_EpochRecord (Key_Name LATEST) in
  Ok (set_envelope (update_cado_cache latest_path cado e1) s).

(** ** end_block *)

Definition capacity_registration_expired (provider : CapacityValidatorInfo)
    (current_block : Z) : bool :=
  saturating_add u64_max (cv_registered_block provider) (cv_registration_duration provider)
    <? current_block.

Definition expire_capacity_registrations (l : list CapacityValidatorInfo) (current_block : Z) :
    list CapacityValidatorInfo :=
  List.filter (λ p, negb (capacity_registration_expired p current_block)) l.

Record ValidatorUpdate : Type := mkValidatorUpdate {
  update_power : Z;
  update_pub_key : bytes;
}.

(** The state part of [end_block_inner]: the new state and the validator
    updates sent to Tendermint; [None] is a fatal error. *)
Definition end_block (height : Z) (current : option AppState) :
    option (AppState * list ValidatorUpdate) :=
  let new_epoch := Z.quot height (blocks_per_epoch protocol) in
  match current with
  | None => None
  | Some s =>
      let current_epoch := current_epoch (envelope s) in
      let s := set_envelope (set_block_height height (envelope s)) s in
      let opened :=
        if current_epoch <? new_epoch then
          let e := envelope s in
          let s := set_envelope (set_capacity_validators
                     (expire_capacity_registrations (capacity_validators e) (as_u64 height)) e) s in
          let s := select_validators_for_epoch s in
          let s := select_active_capacity_validator_for_epoch new_epoch s in
          let record := build_epoch_record s new_epoch (blocks_per_epoch protocol) in
          match store_epoch_record record s with
          | Err _ => None
          | Ok s => Some (set_envelope (set_current_epoch new_epoch (envelope s)) s)
          end
        else Some s in
      match opened with
      | None => None
      | Some s =>
          let updates :=
            if current_epoch <? new_epoch
            then map (λ v, mkValidatorUpdate 10 (val_public_key v)) (active_validators (envelope s))
            else [] in
          Some (set_app_hash (calculate_app_hash (envelope s)) s, updates)
      end
  end.

(** ** Challenges *)

Record CapacityChallenge : Type := mkCapacityChallenge {
  ch_challenge_id : string;
  ch_challenger : Address;
  ch_provider_id : Address;
  ch_chunk_indices : list Z;
  ch_block_height : Z;
  ch_merkle_root : byte_array 32;
  ch_seed : byte_array 32;
  ch_expiration_block : Z;
}.

Definition build_challenged_capacity_provider_data (s : AppState) (ids : list Address) :
    list (Address * option (byte_array 32) * option (byte_array 32) * option Z) :=
  omap (λ a, cp ← find_provider (capacity_validators (envelope s)) a;
             Some (a, cv_merkle_root cp, cv_seed cp, cv_chunk_count cp)) ids.

(** The challenges published, in order; a provider without root or seed ends
    the loop. The wall-clock stamp of the message is left out. *)
Fixpoint generate_challenges_internal
    (providers : list (Address * option (byte_array 32) * option (byte_array 32) * option Z))
    (epoch block_height : Z) (validator_address : Address) : list CapacityChallenge :=
  match providers with
  | [] => []
  | (provider_id, merkle_root, seed, chunk_count) :: rest =>
      match merkle_root, seed with
      | Some merkle_root, Some seed =>
          let chunk_count := default 0 chunk_count in
          let rest := generate_challenges_internal rest epoch block_height validator_address in
          if chunk_count =? 0 then rest
          else
            let chunk_indices :=
              select_challenge_chunk_indices epoch provider_id block_height validator_address
                chunk_count (chunks_per_challenge protocol) in
            mkCapacityChallenge
              (ChallengeId_to_hex (compute_challenge_id validator_address provider_id block_height
                 chunk_indices))
              validator_address provider_id chunk_indices block_height merkle_root seed
              (wrap_i64 (block_height + 100)) :: rest
      | _, _ => []
      end
  end.
End epoch.

(** ** Lemmas *)

Definition priority_key (v : ValidatorInfo) : Coin * (Address * bytes) :=
  (val_stake v, (val_address v, val_public_key v)).

#[export] Instance priority_lawful : LawfulCompare compare_validator_priority.
Proof.
  refine (key_lawful priority_key (lex (λ x y, Coin_compare y x) (lex Address_compare bytes_compare))
    _ (lex_lawful _ _ (flip_lawful _ _) _)).
  intros [a s k] [b t m]. unfold priority_key. simpl. by intros [= -> -> ->].
Qed.

Section facts.
Context {H : HexCrate} {HL : HexLaws H} {HC : HashCrates} {C : RecordCodecs}
  {CL : RecordCodecsLaws C} {R : RandCrate} {RL : RandLaws R} {T : TrieCrate}
  (rd : StorageReads) (protocol : ProtocolConstants).

(** Removing the one entry with a given address. *)
Lemma others_all (l : list CapacityValidatorInfo) (a : Address) :
  a ∉ map cv_address l →
  map cv_address (List.filter (λ cv, negb (bool_decide (cv_address cv = a))) l) = map cv_address l.
Proof.
  induction l as [|x l IH]; [done|]. cbn [map List.filter]. intros Ha.
  apply not_elem_of_cons in Ha as [Hx Ha]. rewrite bool_decide_eq_false_2 by done.
  cbn [negb map]. by rewrite IH.
Qed.

Lemma others_perm (l : list CapacityValidatorInfo) (a : Address) :
  NoDup (map cv_address l) → a ∈ map cv_address l →
  a :: map cv_address (List.filter (λ cv, negb (bool_decide (cv_address cv = a))) l)
    ≡ₚ map cv_address l.
Proof.
  induction l as [|x l IH]; cbn [map List.filter]; [by intros _ ?%elem_of_nil|].
  intros [Hx Hnd]%list.NoDup_cons [->|Ha]%elem_of_cons.
  - rewrite bool_decide_eq_true_2 by done. cbn [negb]. by rewrite others_all.
  - rewrite bool_decide_eq_false_2 by (by intros <-). cbn [negb map].
    rewrite Permutation_swap. by rewrite IH.
Qed.

(** The addresses a state makes eligible. *)
Definition eligible_addresses (s : AppState) : list Address :=
  map cv_address (List.filter (eligible_capacity (as_u64 (block_height (envelope s))))
                    (capacity_validators (envelope s))).

(** The shape of a selection: who is selected and how many are challenged. *)
Lemma selection_cases epoch s :
  NoDup (eligible_addresses s) → 0 ≤ challenges_per_epoch protocol →
  let e' := envelope (select_active_capacity_validator_for_epoch protocol epoch s) in
  (eligible_addresses s = [] ∧ active_capacity_validator e' = None) ∨
  ∃ sv pool, active_capacity_validator e' = Some sv ∧ acv_epoch sv = epoch ∧
    acv_validator_address sv ∈ eligible_addresses s ∧
    (if (length (eligible_addresses s) =? 1)%nat then pool ≡ₚ eligible_addresses s
     else acv_validator_address sv :: pool ≡ₚ eligible_addresses s) ∧
    acv_challenged_providers sv =
      take (Z.to_nat (Z.min (challenges_per_epoch protocol) (Z.of_nat (length pool)))) pool.
Proof.
  unfold eligible_addresses, select_active_capacity_validator_for_epoch. intros Hnd Hc. cbv zeta.
  set (el0 := List.filter _ _) in *. destruct el0 as [|x0 l0] eqn:E0; [by left|right].
  rewrite <- E0 in *. set (el := sort_by _ el0).
  assert (map cv_address el ≡ₚ map cv_address el0) as Hel
    by (apply Permutation_map, sort_by_perm).
  assert (length el = length el0) as Hlen by (unfold el; by rewrite sort_by_perm).
  pose proof (rng_shuffle_perm (rng_from_seed (selection_seed epoch (chain_id s) el)) el) as Hsh.
  destruct (rng_shuffle _ el) as [shuffled r1]. cbn [fst] in Hsh.
  destruct shuffled as [|sel sh].
  { apply Permutation_nil_l in Hsh. rewrite <- Hsh, E0 in Hlen. done. }
  cbn [envelope set_envelope active_capacity_validator set_active_capacity_validator].
  assert (cv_address sel ∈ map cv_address el0) as Hsel.
  { rewrite <- Hel. apply list_elem_of_fmap. exists sel. split; [done|]. rewrite <- Hsh. by left. }
  rewrite Hlen. replace (length (map cv_address el0)) with (length el0) by (by rewrite length_map).
  set (pool0 := if (length el0 =? 1)%nat then _ else _). set (pool := sort_by Address_compare pool0).
  assert (if (length el0 =? 1)%nat then pool ≡ₚ map cv_address el0
          else cv_address sel :: pool ≡ₚ map cv_address el0) as Hpool.
  { pose proof (sort_by_perm Address_compare pool0) as Hpp. fold pool in Hpp. revert Hpp.
    unfold pool0. destruct (length el0 =? 1)%nat; intros ->; [done|].
    rewrite others_perm; [done|by rewrite Hel|by rewrite Hel]. }
  destruct pool as [|p0 pl] eqn:Ep.
  - exists (mkActiveCapacityValidator (cv_address sel) epoch [] []), [].
    split_and!; try done. cbn [take]. by destruct (Z.to_nat _).
  - rewrite <- Ep in *. pose proof (rng_shuffle_perm r1 pool) as Hsp.
    destruct (rng_shuffle r1 pool) as [pool' r2]. cbn [fst] in Hsp.
    eexists _, pool'. split; [reflexivity|].
    cbn [acv_epoch acv_validator_address acv_challenged_providers]. split_and!; [done|done| |].
    + destruct (length el0 =? 1)%nat; by rewrite Hsp.
    + by rewrite (Permutation_length Hsp).
Qed.

(** ** Properties *)

(** Epoch selection of validators is deterministic and takes the best: the
    active set depends only on which validators are registered, not on the
    order they registered in; it is the configured number of them, and no
    validator left out has a higher stake than one taken. *)
Theorem validator_selection_correct (s : AppState) :
  let active := active_validators (envelope (select_validators_for_epoch protocol s)) in
  (∀ s', validators (envelope s') ≡ₚ validators (envelope s) →
     active_validators (envelope (select_validators_for_epoch protocol s')) = active) ∧
  (∃ rest, active ++ rest ≡ₚ validators (envelope s) ∧
     ∀ v w, v ∈ active → w ∈ rest → coin_amount (val_stake w) ≤ coin_amount (val_stake v)) ∧
  length active = Nat.min (Z.to_nat (validators_per_epoch protocol))
                    (length (validators (envelope s))).
Proof.
  cbv zeta. unfold select_validators_for_epoch. cbn [envelope set_envelope active_validators
    set_active_validators]. set (n := Z.to_nat _).
  set (sorted := sort_by compare_validator_priority (validators (envelope s))).
  split_and!.
  - intros s' Hp. by rewrite (sort_by_unique _ _ _ Hp).
  - exists (drop n sorted). split; [rewrite take_drop; apply sort_by_perm|].
    intros v w Hv Hw. pose proof (sort_by_sorted compare_validator_priority
      (validators (envelope s))) as Hs. fold sorted in Hs.
    rewrite <- (take_drop n sorted) in Hs.
    assert (cmp_le compare_validator_priority v w) as Hle.
    { by eapply StronglySorted_app_1_elem_of. }
    unfold cmp_le, compare_validator_priority, Coin_compare in Hle.
    destruct (Z.compare_spec (coin_amount (val_stake w)) (coin_amount (val_stake v))); simpl in Hle;
      [lia|lia|done].
  - rewrite length_take. unfold sorted. by rewrite sort_by_perm.
Qed.

(** The capacity validator of an epoch is one of the eligible providers and
    challenges distinct eligible providers, as many as configured and
    available; it challenges itself only when it is the only one.  Nobody is
    selected only when nobody is eligible. *)
Theorem capacity_selection_correct (epoch : Z) (s : AppState) :
  NoDup (eligible_addresses s) → 0 ≤ challenges_per_epoch protocol →
  let n := Z.of_nat (length (eligible_addresses s)) in
  match active_capacity_validator
          (envelope (select_active_capacity_validator_for_epoch protocol epoch s)) with
  | None => eligible_addresses s = []
  | Some sv =>
      acv_epoch sv = epoch ∧ acv_validator_address sv ∈ eligible_addresses s ∧
      NoDup (acv_challenged_providers sv) ∧
      acv_challenged_providers sv ⊆ eligible_addresses s ∧
      (acv_validator_address sv ∈ acv_challenged_providers sv → n = 1) ∧
      Z.of_nat (length (acv_challenged_providers sv)) =
        Z.min (challenges_per_epoch protocol) (Z.max 1 (n - 1))
  end.
Proof.
  intros Hnd Hc n. unfold n.
  destruct (selection_cases epoch s Hnd Hc) as [[He ->]|(sv & pool & -> & Hep & Hin & Hp & Hch)];
    [done|].
  assert (pool ⊆ eligible_addresses s ∧ NoDup pool ∧
    (acv_validator_address sv ∈ pool → length (eligible_addresses s) = 1%nat) ∧
    Z.of_nat (length pool) = Z.max 1 (Z.of_nat (length (eligible_addresses s)) - 1))
    as (Hsub & Hndp & Hself & Hlen).
  { destruct (length (eligible_addresses s) =? 1)%nat eqn:E1.
    - apply Nat.eqb_eq in E1. split_and!; [intros x; by rewrite Hp|by rewrite Hp|done|].
      rewrite Hp. lia.
    - apply Nat.eqb_neq in E1. rewrite <- Hp in Hnd. apply list.NoDup_cons in Hnd as [Hni Hnd].
      split_and!; [intros x Hx; rewrite <- Hp; by right|done|done|].
      rewrite <- Hp in E1 |- *. cbn [length] in *. lia. }
  rewrite Hch. set (k := Z.to_nat _). split_and!; [done|done| | | |].
  - rewrite <- (take_drop k pool) in Hndp. by apply list.NoDup_app in Hndp as [? _].
  - intros x Hx. apply Hsub. rewrite <- (take_drop k pool). apply elem_of_app. by left.
  - intros Hx. rewrite Hself; [done|]. rewrite <- (take_drop k pool). apply elem_of_app. by left.
  - rewrite length_take. unfold k. lia.
Qed.
(** ** Opening an epoch *)

Definition epoch_state_wf (s : AppState) : Prop :=
  Forall ValidatorInfo_wf (validators (envelope s)) ∧
  Forall CapacityValidatorInfo_wf (capacity_validators (envelope s)) ∧
  NoDup (map cv_address (capacity_validators (envelope s))).

Lemma latest_not_epoch d epoch : from_str_radix16 d 0 = Some epoch → String.append "0x" d ≠ LATEST.
Proof.
  intros E Heq. apply (f_equal (string_drop 2)) in Heq. rewrite string_drop_0x in Heq. subst.
  vm_compute in E. discriminate.
Qed.

Lemma store_epoch_record_run record s :
  EpochRecord_wf record → 0 ≤ er_epoch record →
  ∃ cache, store_epoch_record record s = Ok (set_envelope (set_cado_cache cache (envelope s)) s) ∧
    get_epoch_record rd (set_cado_cache cache (envelope s)) (er_epoch record) = Ok (Some record).
Proof.
  intros Hw He. destruct (bin_roundtrip record Hw) as (b & Es & Ed).
  destruct (epoch_record_digits (er_epoch record)) as (d & En & Hl & Hd & Hr);
    [destruct Hw; lia|].
  pose proof (epoch_record_key d Hl Hd) as Ek.
  pose proof (epoch_record_key (string_drop 2 LATEST) eq_refl eq_refl) as El.
  change (String.append "0x" (string_drop 2 LATEST)) with LATEST in El.
  unfold store_epoch_record, EpochRecord_serialize_bin. rewrite Es. cbn [ok_or].
  cbv beta iota zeta. rewrite En. cbv beta iota. rewrite Ek. cbv beta iota. rewrite El.
  cbv beta iota. rewrite !update_cado_cache_eld by done. eexists; split; [reflexivity|].
  unfold get_epoch_record. rewrite En. cbv beta iota. rewrite Ek. cbv beta iota.
  unfold lookup_cado_staged_committed_then_db. cbn [cado_cache set_cado_cache].
  rewrite lookup_insert_ne, lookup_insert_eq.
  - unfold EpochRecord_deserialize_bin. cbn. by rewrite Ed.
  - intros Hp. destruct (CadoPath_new_inj _ _ _ _ _ _ El Ek Hp) as [_ Heq].
    apply (f_equal cp_name) in Heq. by apply (latest_not_epoch _ _ Hr).
Qed.
Lemma select_active_frame epoch s :
  ∃ v, select_active_capacity_validator_for_epoch protocol epoch s =
       set_envelope (set_active_capacity_validator v (envelope s)) s.
Proof.
  unfold select_active_capacity_validator_for_epoch.
  destruct (List.filter _ _) as [|x l]; [by eexists|]. cbv zeta.
  destruct (rng_shuffle _ _) as [[|sel sh] r1]; [|by eexists].
  exists (active_capacity_validator (envelope s)). by destruct s as [? [] ?].
Qed.

Lemma find_provider_Some l a p : find_provider l a = Some p → p ∈ l ∧ cv_address p = a.
Proof.
  unfold find_provider. intros [Hi Hb]%List.find_some.
  split; [by apply list_elem_of_In|by eld_bool].
Qed.

Lemma find_provider_is_Some l a : a ∈ map cv_address l → ∃ p, find_provider l a = Some p.
Proof.
  intros (p & -> & Hp)%list_elem_of_fmap. unfold find_provider.
  destruct (List.find _ l) eqn:E; [by eexists|].
  apply list_elem_of_In in Hp. pose proof (List.find_none _ _ E p Hp) as Hn.
  cbv beta in Hn. by rewrite bool_decide_eq_true_2 in Hn.
Qed.

Lemma find_all_addresses l ids :
  ids ⊆ map cv_address l → map cv_address (omap (find_provider l) ids) = ids.
Proof.
  induction ids as [|a ids IH]; intros Hs; [done|].
  destruct (find_provider_is_Some l a) as [p Ep]; [apply Hs; by left|].
  cbn. rewrite Ep. cbn. rewrite IH; [|intros x Hx; apply Hs; by right].
  by destruct (find_provider_Some _ _ _ Ep) as [_ ->].
Qed.

Lemma omap_find_in l (ids : list Address) p : p ∈ omap (find_provider l) ids → p ∈ l.
Proof. intros (a & _ & Ea)%list_elem_of_omap. by apply find_provider_Some in Ea as [? _]. Qed.

Lemma eligible_in l h p :
  p ∈ List.filter (eligible_capacity h) l → p ∈ l ∧ is_Some (cv_merkle_root p).
Proof.
  intros [Hi Hb]%list_elem_of_In%List.filter_In. split; [by apply list_elem_of_In|].
  unfold eligible_capacity in Hb. destruct (cv_merkle_root p); [by eexists|done].
Qed.
(** The state an opening [end_block] selects in: leases expired, validators chosen. *)
Definition opening_state (height : Z) (s : AppState) : AppState :=
  select_validators_for_epoch protocol
    (set_envelope (set_capacity_validators
       (expire_capacity_registrations (capacity_validators (envelope s)) (as_u64 height))
       (set_block_height height (envelope s))) s).

(** The record an opening [end_block] writes. *)
Definition opening_record (height epoch : Z) (s : AppState) : EpochRecord :=
  build_epoch_record
    (select_active_capacity_validator_for_epoch protocol epoch (opening_state height s)) epoch
    (blocks_per_epoch protocol).

Lemma expired_sublist l h : expire_capacity_registrations l h `sublist_of` l.
Proof.
  unfold expire_capacity_registrations. induction l as [|x l IH]; [done|]. cbn [List.filter].
  destruct (negb _); by constructor.
Qed.

Lemma filter_sublist {A} (f : A → bool) l : List.filter f l `sublist_of` l.
Proof. induction l as [|x l IH]; [done|]. cbn [List.filter]. destruct (f x); by constructor. Qed.

Lemma NoDup_sublist {A} (l k : list A) : l `sublist_of` k → NoDup k → NoDup l.
Proof.
  intros Hs Hn. apply sublist_submseteq, submseteq_Permutation in Hs as [k' Hp]. rewrite Hp in Hn.
  by apply list.NoDup_app in Hn as [? _].
Qed.

Lemma Forall_part {A} (P : A → Prop) l k : l `sublist_of` k → Forall P k → Forall P l.
Proof.
  intros Hs Hn. apply sublist_submseteq, submseteq_Permutation in Hs as [k' Hp]. rewrite Hp in Hn.
  by apply Forall_app in Hn as [? _].
Qed.

Lemma opening_state_wf height s :
  epoch_state_wf s → Forall ValidatorInfo_wf (active_validators (envelope (opening_state height s))) ∧
  Forall CapacityValidatorInfo_wf (capacity_validators (envelope (opening_state height s))) ∧
  NoDup (map cv_address (capacity_validators (envelope (opening_state height s)))) ∧
  NoDup (eligible_addresses (opening_state height s)).
Proof.
  intros (Hv & Hc & Hn). unfold opening_state, select_validators_for_epoch, eligible_addresses.
  cbn [envelope set_envelope active_validators validators capacity_validators block_height
    set_active_validators set_capacity_validators set_block_height].
  set (l := expire_capacity_registrations _ _).
  assert (l `sublist_of` capacity_validators (envelope s)) as Hl by apply expired_sublist.
  assert (NoDup (map cv_address l)) as Hnl.
  { eapply NoDup_sublist; [|exact Hn]. exact (fmap_sublist cv_address _ _ Hl). }
  split_and!; [|by eapply Forall_part|done|].
  - apply Forall_take. by rewrite sort_by_perm.
  - eapply NoDup_sublist; [|exact Hnl]. apply (fmap_sublist cv_address), filter_sublist.
Qed.
(** The challenged providers of a selection are all registered. *)
Lemma challenged_registered epoch s sv :
  NoDup (eligible_addresses s) → 0 ≤ challenges_per_epoch protocol →
  active_capacity_validator (envelope (select_active_capacity_validator_for_epoch protocol epoch s))
    = Some sv →
  acv_epoch sv = epoch ∧ acv_challenged_providers sv ⊆ eligible_addresses s.
Proof.
  intros Hnd Hc Hsv.
  destruct (selection_cases epoch s Hnd Hc) as [[_ E]|(sv' & pool & E & He & Hin & Hp & Hch)];
    rewrite E in Hsv; [done|]. injection Hsv as ->. split; [done|].
  intros x Hx. rewrite Hch in Hx.
  assert (x ∈ pool) as Hxp by (rewrite <- (take_drop (Z.to_nat (Z.min (challenges_per_epoch protocol)
    (Z.of_nat (length pool)))) pool); apply elem_of_app; by left).
  destruct (length (eligible_addresses s) =? 1)%nat; rewrite <- Hp; [done|by right].
Qed.

Lemma eligible_registered s : eligible_addresses s ⊆ map cv_address (capacity_validators (envelope s)).
Proof.
  intros x (p & -> & Hp)%list_elem_of_fmap. apply eligible_in in Hp as [Hp _].
  apply list_elem_of_fmap. by exists p.
Qed.

Lemma opening_record_facts height epoch s :
  epoch_state_wf s → 0 ≤ challenges_per_epoch protocol → 0 ≤ epoch →
  epoch * blocks_per_epoch protocol ≤ i64_max → 0 < blocks_per_epoch protocol →
  let s3 := select_active_capacity_validator_for_epoch protocol epoch (opening_state height s) in
  let r := opening_record height epoch s in
  EpochRecord_wf r ∧ er_start_block r = epoch * blocks_per_epoch protocol ∧
  from_option (λ sv, map cv_address (er_challenged_capacity_validators r) =
                     acv_challenged_providers sv) True (active_capacity_validator (envelope s3)).
Proof.
  intros Hwf Hc He Hmax Hb. cbv zeta.
  destruct (opening_state_wf height s Hwf) as (Hv & Hcv & Hnd & Hne).
  unfold opening_record, build_epoch_record.
  pose proof (challenged_registered epoch (opening_state height s)) as Hreg.
  destruct (select_active_frame epoch (opening_state height s)) as [v Ev].
  set (s3 := select_active_capacity_validator_for_epoch protocol epoch (opening_state height s)) in *.
  assert (capacity_validators (envelope s3) = capacity_validators (envelope (opening_state height s)))
    as Ecv by (by rewrite Ev).
  assert (active_validators (envelope s3) = active_validators (envelope (opening_state height s)))
    as Eav by (by rewrite Ev).
  cbn [er_start_block er_challenged_capacity_validators].
  rewrite wrap_i64_small by (unfold i64_min in *; nia).
  split_and!; [|done|].
  - unfold EpochRecord_wf. cbn [er_epoch er_start_block er_active_validators
      er_active_capacity_validator er_challenged_capacity_validators].
    rewrite Ecv, Eav. split_and!; try (unfold i64_min, i64_max in *; nia); [done| |].
    + destruct (active_capacity_validator (envelope s3)) as [sv|] eqn:Esv; [|done].
      destruct (Hreg sv Hne Hc eq_refl) as [<- _]. simpl. unfold i64_min, i64_max in *. nia.
    + destruct (active_capacity_validator (envelope s3)) as [sv|]; [|constructor].
      apply list.Forall_forall. intros p Hp%omap_find_in. by eapply list.Forall_forall in Hcv.
  - destruct (active_capacity_validator (envelope s3)) as [sv|] eqn:Esv; [|done]. simpl.
    apply find_all_addresses. rewrite Ecv. etrans; [|apply eligible_registered].
    by apply (Hreg sv Hne Hc).
Qed.
Lemma quot_epoch height : 0 ≤ height ≤ i64_max → 0 < blocks_per_epoch protocol →
  0 ≤ Z.quot height (blocks_per_epoch protocol) ∧
  Z.quot height (blocks_per_epoch protocol) * blocks_per_epoch protocol ≤ height.
Proof.
  intros Hh Hb. rewrite Z.quot_div_nonneg by lia. split; [apply Z.div_pos; lia|].
  pose proof (Z.mul_div_le height (blocks_per_epoch protocol)). lia.
Qed.

(** An opening [end_block], in full. *)
Lemma end_block_opens height s :
  epoch_state_wf s → 0 ≤ challenges_per_epoch protocol → 0 < blocks_per_epoch protocol →
  0 ≤ height ≤ i64_max →
  let epoch := Z.quot height (blocks_per_epoch protocol) in
  current_epoch (envelope s) < epoch →
  ∃ cache,
    let s3 := select_active_capacity_validator_for_epoch protocol epoch (opening_state height s) in
    let e' := set_current_epoch epoch (set_cado_cache cache (envelope s3)) in
    end_block protocol height (Some s) =
      Some (set_app_hash (calculate_app_hash e') (set_envelope e' s3),
            map (λ v, mkValidatorUpdate 10 (val_public_key v)) (active_validators e')) ∧
    get_epoch_record rd e' epoch = Ok (Some (opening_record height epoch s)).
Proof.
  intros Hwf Hc Hb Hh epoch Hlt. destruct (quot_epoch height Hh Hb) as [Hq0 Hq1].
  fold epoch in Hq0, Hq1.
  destruct (opening_record_facts height epoch s Hwf Hc Hq0 ltac:(lia) Hb) as (Hr & _ & _).
  destruct (store_epoch_record_run (opening_record height epoch s)
    (select_active_capacity_validator_for_epoch protocol epoch (opening_state height s)) Hr Hq0)
    as (cache & Est & Eg).
  exists cache. cbv zeta. split; [|exact Eg].
  unfold end_block. fold epoch. cbv zeta.
  change (current_epoch (envelope (set_envelope (set_block_height height (envelope s)) s)))
    with (current_epoch (envelope s)).
  destruct (current_epoch (envelope s) <? epoch) eqn:E; eld_bool; [|lia].
  change (select_validators_for_epoch protocol _) with (opening_state height s).
  fold (opening_record height epoch s). rewrite Est. reflexivity.
Qed.
Lemma list_find_omap l ids a cp :
  a ∈ ids → find_provider l a = Some cp →
  ∃ i, list_find (λ p, cv_address p = a) (omap (find_provider l) ids) = Some (i, cp).
Proof.
  intros Ha Hcp. induction ids as [|b ids IH]; [by apply elem_of_nil in Ha|].
  cbn [omap list_omap]. destruct (decide (b = a)) as [->|Hne].
  - rewrite Hcp. cbn. destruct (find_provider_Some _ _ _ Hcp) as [_ Hp].
    rewrite decide_True by done. by eexists.
  - apply elem_of_cons in Ha as [->|Ha]; [done|]. destruct (IH Ha) as [i Ei].
    destruct (find_provider l b) as [q|] eqn:Eq; [|by eexists].
    destruct (find_provider_Some _ _ _ Eq) as [_ Hq]. cbn.
    rewrite decide_False by congruence. rewrite Ei. by eexists.
Qed.

(** Where a generated challenge comes from. *)
Lemma generated_challenge providers epoch h v c :
  c ∈ generate_challenges_internal protocol providers epoch h v →
  ∃ pid root seed count,
    (pid, Some root, Some seed, Some count) ∈ providers ∧ count ≠ 0 ∧
    ch_challenger c = v ∧ ch_provider_id c = pid ∧ ch_merkle_root c = root ∧ ch_block_height c = h ∧
    ch_chunk_indices c = select_challenge_chunk_indices epoch pid h v count
                           (chunks_per_challenge protocol) ∧
    ch_challenge_id c = ChallengeId_to_hex (compute_challenge_id v pid h (ch_chunk_indices c)).
Proof.
  induction providers as [|[[[pid root] seed] count] l IH]; cbn [generate_challenges_internal];
    [by intros ?%elem_of_nil|].
  destruct root as [root|]; [|by intros ?%elem_of_nil].
  destruct seed as [seed|]; [|by intros ?%elem_of_nil]. cbv zeta.
  destruct (default 0 count =? 0) eqn:E; eld_bool.
  - intros (p' & r' & s' & c' & Hin & ?)%IH. exists p', r', s', c'. split; [by right|done].
  - destruct count as [count|]; [|done]. simpl in E. intros [->|Hc]%elem_of_cons.
    + exists pid, root, seed, count. split_and!; try done. by left.
    + destruct (IH Hc) as (p' & r' & s' & c' & Hin & ?). exists p', r', s', c'.
      split; [by right|done].
Qed.

Lemma proof_window height :
  0 < height ≤ i64_max → 0 < blocks_per_epoch protocol →
  proof_epoch_in_window height (Z.quot height (blocks_per_epoch protocol)) (blocks_per_epoch protocol)
    = Some (Z.quot height (blocks_per_epoch protocol)).
Proof.
  intros Hh Hb. destruct (quot_epoch height ltac:(lia) Hb) as [Hq _]. unfold proof_epoch_in_window.
  destruct (height <=? 0) eqn:E1; eld_bool; [lia|].
  destruct (Z.quot _ _ <? 0) eqn:E2; eld_bool; [lia|]. by rewrite Z.eqb_refl.
Qed.
(** Which leases survive: the saturating sum never hides an expiry. *)
Lemma expire_spec l height p :
  0 ≤ height ≤ i64_max →
  p ∈ expire_capacity_registrations l (as_u64 height) ↔
  p ∈ l ∧ height ≤ cv_registered_block p + cv_registration_duration p.
Proof.
  intros Hh. unfold expire_capacity_registrations.
  rewrite !list_elem_of_In, List.filter_In.
  rewrite as_u64_small by (unfold u64_max, i64_max in *; lia).
  unfold capacity_registration_expired, saturating_add.
  destruct (Z.min _ _ <? height) eqn:E; eld_bool; simpl;
    unfold u64_max, i64_max in *; split; intros [? ?]; split; try done; lia.
Qed.

Lemma challenge_id_parse c : ChallengeId_parse_hex (ChallengeId_to_hex c) = Ok c.
Proof.
  unfold ChallengeId_parse_hex, ChallengeId_to_hex.
  pose proof (decode_fixed_hex_encode 31 (challenge_bytes c) "challenge ID" EmptyString
    ltac:(auto)) as H1. change (String.append EmptyString ?x) with x in H1. rewrite H1.
  by destruct c.
Qed.

(** Where a published challenge comes from and what it is bound to. *)
Lemma issued_challenge_facts (height : Z) (s s' : AppState) (updates : list ValidatorUpdate)
    (sv : ActiveCapacityValidator) (c : CapacityChallenge) :
  epoch_state_wf s → 0 ≤ challenges_per_epoch protocol → 0 < blocks_per_epoch protocol →
  0 < height ≤ i64_max →
  let epoch := Z.quot height (blocks_per_epoch protocol) in
  current_epoch (envelope s) < epoch →
  end_block protocol height (Some s) = Some (s', updates) →
  active_capacity_validator (envelope s') = Some sv →
  c ∈ generate_challenges_internal protocol
        (build_challenged_capacity_provider_data s' (acv_challenged_providers sv)) epoch height
        (acv_validator_address sv) →
  ch_challenger c = acv_validator_address sv ∧ ch_block_height c = height ∧
  ch_challenge_id c = ChallengeId_to_hex (compute_challenge_id (acv_validator_address sv)
                        (ch_provider_id c) height (ch_chunk_indices c)) ∧
  (∃ cp count, find_provider (capacity_validators (envelope s')) (ch_provider_id c) = Some cp ∧
     cv_merkle_root cp = Some (ch_merkle_root c) ∧ cv_chunk_count cp = Some count ∧ 0 < count ∧
     ch_chunk_indices c = select_challenge_chunk_indices epoch (ch_provider_id c) height
                            (acv_validator_address sv) count (chunks_per_challenge protocol)) ∧
  ∃ record, get_epoch_record rd (envelope s') epoch = Ok record ∧
    bind_verified_proof record (current_epoch (envelope s')) (acv_validator_address sv)
      (ch_provider_id c) (ch_challenge_id c) (ch_block_height c) protocol =
    Some (mkVerifiedProofBinding (ch_provider_id c) (acv_validator_address sv) (ch_merkle_root c)
            (ch_chunk_indices c)
            (compute_challenge_id (acv_validator_address sv) (ch_provider_id c) height
               (ch_chunk_indices c))).
Proof.
  intros Hwf Hc Hb Hh epoch Hlt Hrun Hsv Hin.
  destruct (end_block_opens height s Hwf Hc Hb ltac:(lia) Hlt) as (cache & Hrun' & Hget).
  cbv zeta in Hrun', Hget. fold epoch in Hrun', Hget.
  pose proof (challenged_registered epoch (opening_state height s)) as Hreg.
  destruct (select_active_frame epoch (opening_state height s)) as [v Ev].
  set (s3 := select_active_capacity_validator_for_epoch protocol epoch (opening_state height s)) in *.
  rewrite Hrun in Hrun'. injection Hrun' as Es' _.
  rewrite Es' in *.
  cbn in Hsv.
  destruct (opening_state_wf height s Hwf) as (_ & Hcv & _ & Hne).
  destruct (Hreg sv Hne Hc Hsv) as [Hsve _].
  apply generated_challenge in Hin as (pid & root & seed & count & Hp & Hcount & Hch & Hpid & Hroot
    & Hbh & Hidx & Hid).
  apply list_elem_of_omap in Hp as (a & Ha & Hf).
  destruct (find_provider _ a) as [cp|] eqn:Ecp; [|done]. cbn in Hf.
  injection Hf as -> Er Eseed Ec.
  change (capacity_validators _) with (capacity_validators (envelope s3)) in Ecp.
  assert (0 < count) as Hpos.
  { destruct (find_provider_Some _ _ _ Ecp) as [Hm _]. rewrite Ev in Hm.
    eapply list.Forall_forall in Hcv; [|exact Hm]. destruct Hcv as (_ & _ & Hcc & _).
    rewrite Ec in Hcc. destruct Hcc. simpl in *. lia. }
  split; [exact Hch|]. split; [exact Hbh|]. split; [by rewrite Hpid|]. split.
  { exists cp, count. rewrite Hpid, Hroot. by split_and!. }
  exists (Some (opening_record height epoch s)). split; [exact Hget|].
  rewrite Hpid, Hroot, Hbh, Hid.
  unfold bind_verified_proof. cbn [current_epoch envelope set_app_hash set_envelope set_current_epoch].
  unfold epoch at 1. rewrite proof_window by done. cbn [mbind option_bind].
  unfold validate_verified_proof_binding, opening_record, build_epoch_record. fold epoch s3.
  cbn [er_epoch er_active_capacity_validator er_challenged_capacity_validators].
  rewrite Z.eqb_refl, Hsv. cbn [negb mbind option_bind]. rewrite Hsve, Z.eqb_refl. cbn [negb].
  rewrite !bool_decide_eq_true_2 by done. cbn [negb].
  destruct (list_find_omap _ _ _ _ Ha Ecp) as [i ->]. cbn [mbind option_bind snd].
  rewrite Ec, Er. destruct (0 <? count) eqn:E0; eld_bool; [|lia]. cbn [mbind option_bind].
  rewrite challenge_id_parse. cbn [ok mbind option_bind]. rewrite <- Hidx.
  rewrite bool_decide_eq_true_2 by done. done.
Qed.

(** C6. The end of a block never fails on a well-formed state.  The first block
    of an epoch opens it: expired leases are dropped (exactly those whose last
    block is past), the epoch number advances, and the record of the epoch is
    readable under its number and holds the active validators, the capacity
    validator and every challenged provider; any other block only records its
    height.  Both leave the app hash of the new state. *)
Theorem end_block_correct (height : Z) (s : AppState) :
  epoch_state_wf s → 0 ≤ challenges_per_epoch protocol → 0 < blocks_per_epoch protocol →
  0 ≤ height ≤ i64_max →
  let epoch := Z.quot height (blocks_per_epoch protocol) in
  ∃ s' updates, end_block protocol height (Some s) = Some (s', updates) ∧
    app_hash s' = Some (calculate_app_hash (envelope s')) ∧
    if current_epoch (envelope s) <? epoch then
      current_epoch (envelope s') = epoch ∧ block_height (envelope s') = height ∧
      (∀ p, p ∈ capacity_validators (envelope s') ↔
         p ∈ capacity_validators (envelope s) ∧
         height ≤ cv_registered_block p + cv_registration_duration p) ∧
      ∃ r, get_epoch_record rd (envelope s') epoch = Ok (Some r) ∧
        er_epoch r = epoch ∧ er_start_block r = epoch * blocks_per_epoch protocol ∧
        er_active_validators r = active_validators (envelope s') ∧
        er_active_capacity_validator r = active_capacity_validator (envelope s') ∧
        map cv_address (er_challenged_capacity_validators r) =
          from_option acv_challenged_providers [] (active_capacity_validator (envelope s'))
    else envelope s' = set_block_height height (envelope s) ∧ updates = [].
Proof.
  intros Hwf Hc Hb Hh epoch. destruct (current_epoch (envelope s) <? epoch) eqn:E; eld_bool.
  - destruct (quot_epoch height Hh Hb) as [Hq0 Hq1]. fold epoch in Hq0, Hq1.
    destruct (end_block_opens height s Hwf Hc Hb Hh E) as (cache & Hrun & Hget).
    destruct (opening_record_facts height epoch s Hwf Hc Hq0 ltac:(lia) Hb) as (_ & Hst & Hch).
    cbv zeta in Hrun, Hget, Hch. fold epoch in Hrun, Hget.
    destruct (select_active_frame epoch (opening_state height s)) as [v Ev].
    eexists _, _. split; [exact Hrun|]. split; [reflexivity|]. split; [reflexivity|].
    split; [by rewrite Ev|]. split; [intros p; rewrite Ev; by apply expire_spec|].
    exists (opening_record height epoch s). split; [exact Hget|].
    split_and!; [done|exact Hst|done|done|]. revert Hch.
    unfold opening_record, build_epoch_record. cbn.
    by destruct (active_capacity_validator _).
  - eexists _, _. unfold end_block. fold epoch. cbv zeta.
    change (current_epoch (envelope (set_envelope (set_block_height height (envelope s)) s)))
      with (current_epoch (envelope s)).
    destruct (current_epoch (envelope s) <? epoch) eqn:E'; eld_bool; [lia|done].
Qed.

(** C7. A published challenge can always be answered for: each challenge the
    selected validator sends when an epoch opens is bound by transaction
    delivery, against the record of that epoch, to the same provider, Merkle
    root and chunk indices. *)
Theorem issued_challenges_bind (height : Z) (s s' : AppState) (updates : list ValidatorUpdate)
    (sv : ActiveCapacityValidator) (c : CapacityChallenge) :
  epoch_state_wf s → 0 ≤ challenges_per_epoch protocol → 0 < blocks_per_epoch protocol →
  0 < height ≤ i64_max →
  let epoch := Z.quot height (blocks_per_epoch protocol) in
  current_epoch (envelope s) < epoch →
  end_block protocol height (Some s) = Some (s', updates) →
  active_capacity_validator (envelope s') = Some sv →
  c ∈ generate_challenges_internal protocol
        (build_challenged_capacity_provider_data s' (acv_challenged_providers sv)) epoch height
        (acv_validator_address sv) →
  ∃ record, get_epoch_record rd (envelope s') epoch = Ok record ∧
    bind_verified_proof record (current_epoch (envelope s')) (acv_validator_address sv)
      (ch_provider_id c) (ch_challenge_id c) (ch_block_height c) protocol =
    Some (mkVerifiedProofBinding (ch_provider_id c) (acv_validator_address sv) (ch_merkle_root c)
            (ch_chunk_indices c)
            (compute_challenge_id (acv_validator_address sv) (ch_provider_id c) height
               (ch_chunk_indices c))).
Proof.
  intros Hwf Hc Hb Hh epoch Hlt Hrun Hsv Hin.
  by apply (issued_challenge_facts height s s' updates sv c Hwf Hc Hb Hh Hlt Hrun Hsv Hin).
Qed.

(** Validator updates only ever add or keep: each update gives power 10 to
    a key of the active set, and a key that is no longer active gets no
    update at all, so Tendermint is never told to drop it. *)
Theorem validator_updates_never_remove (height : Z) (s s' : AppState)
    (updates : list ValidatorUpdate) (v : ValidatorInfo) :
  end_block protocol height (Some s) = Some (s', updates) →
  (∀ u, u ∈ updates → update_power u = 10 ∧
     update_pub_key u ∈ map val_public_key (active_validators (envelope s'))) ∧
  (v ∈ active_validators (envelope s) →
   val_public_key v ∉ map val_public_key (active_validators (envelope s')) →
   val_public_key v ∉ map update_pub_key updates).
Proof.
  intros Hrun.
  assert (updates = [] ∨ updates = map (λ v, mkValidatorUpdate 10 (val_public_key v))
    (active_validators (envelope s'))) as Hu.
  { revert Hrun. unfold end_block. cbv zeta.
    destruct (_ <? _); [destruct (store_epoch_record _ _) as [s4|]; [|done]|];
      intros [= <- <-]; [by right|by left]. }
  assert (∀ u, u ∈ updates → update_power u = 10 ∧
    update_pub_key u ∈ map val_public_key (active_validators (envelope s'))) as Hall.
  { intros u Hin. destruct Hu as [->| ->]; [by apply elem_of_nil in Hin|].
    apply list_elem_of_fmap in Hin as (w & -> & Hw). split; [done|].
    apply list_elem_of_fmap. by exists w. }
  split; [done|]. intros _ Hn (u & Hk & Hin)%list_elem_of_fmap. apply Hn. rewrite Hk. by apply Hall.
Qed.
End facts.

(** ** Witnesses *)

(** A stand-in trie root: the length of the trie. *)
Definition ref_trie : TrieCrate :=
  {| trie_root t := fit 32 (le_bytes 8 (Z.of_nat (size t))) |}.
#[local] Existing Instance ref_trie.

(** Two validators and two providers at the last block before epoch 1; the
    lease of the third provider has ended. *)
Definition test_second_provider : CapacityValidatorInfo :=
  mkCapacityValidatorInfo test_recipient Coin_zero (mkPublicKey test_key) 1024
    (Some (hash_chunk [])) (Some test_key) (Some 3) (Some 1) None 1 1000.
Definition test_late_provider : CapacityValidatorInfo :=
  mkCapacityValidatorInfo (mkAddress (vreplicate 20 Init.Byte.x09)) Coin_zero (mkPublicKey test_key)
    1024 (Some (hash_chunk [])) (Some test_key) (Some 3) (Some 1) None 1 5.

Definition test_epoch_state : AppState :=
  mkAppState None
    (set_validators [mkValidatorInfo test_sender (mkCoin 10) [Init.Byte.x01];
                     mkValidatorInfo test_recipient (mkCoin 20) [Init.Byte.x02]]
      (set_capacity_validators [test_provider_info; test_second_provider; test_late_provider]
        (set_block_height 19 envelope_default)))
    "eld".

Lemma test_epoch_state_wf : epoch_state_wf test_epoch_state.
Proof.
  unfold epoch_state_wf. split_and!.
  - repeat constructor; vm_compute; discriminate.
  - repeat constructor; vm_compute; discriminate.
  - refine (bool_decide_eq_true_1 _ _). vm_compute. reflexivity.
Qed.

Definition opening_codecs : RecordCodecs := {|
  account_codec := ref_account_codec;
  staking_codec := ref_staking_codec;
  namespace_codec := countable_bincode NamespaceRecord;
  epoch_codec := shortcut_bincode (opening_record local_dev 20 1 test_epoch_state)
                   (countable_bincode EpochRecord);
|}.

Lemma opening_codecs_laws : RecordCodecsLaws opening_codecs.
Proof.
  constructor; [apply ref_account_laws|apply ref_staking_laws|apply countable_bincode_laws|].
  apply shortcut_bincode_laws, countable_bincode_laws.
Qed.

Lemma capacity_selection_correct_witness :
  match active_capacity_validator
          (envelope (select_active_capacity_validator_for_epoch local_dev 1 test_epoch_state)) with
  | Some sv => acv_validator_address sv ∈ eligible_addresses test_epoch_state ∧
               length (acv_challenged_providers sv) = 1%nat
  | None => False
  end.
Proof.
  pose proof (capacity_selection_correct local_dev 1 test_epoch_state) as Ht.
  assert (NoDup (eligible_addresses test_epoch_state)) as Hn
    by (refine (bool_decide_eq_true_1 _ _); vm_compute; reflexivity).
  specialize (Ht Hn ltac:(discriminate)). cbv zeta in Ht.
  destruct (active_capacity_validator _) as [sv|] eqn:E; [|vm_compute in E; discriminate E].
  destruct Ht as (_ & Hin & _). split; [exact Hin|]. vm_compute in E. injection E as <-. reflexivity.
Defined.

Lemma end_block_correct_witness :
  ∃ s' updates, end_block (C := opening_codecs) local_dev 20 (Some test_epoch_state)
    = Some (s', updates) ∧ current_epoch (envelope s') = 1.
Proof.
  destruct (end_block_correct (C := opening_codecs) (CL := opening_codecs_laws) rd0 local_dev 20
    test_epoch_state test_epoch_state_wf) as (s' & u & Hrun & _ & Hc & _);
    [discriminate|reflexivity|split; vm_compute; discriminate|].
  exists s', u. split; [exact Hrun|exact Hc].
Defined.

(** The first challenge sent when epoch 1 opens. *)
Definition test_first_challenge (s : AppState) : option CapacityChallenge :=
  sv ← active_capacity_validator (envelope s);
  head (generate_challenges_internal local_dev
          (build_challenged_capacity_provider_data s (acv_challenged_providers sv)) 1 20
          (acv_validator_address sv)).

Lemma test_opening :
  match end_block (C := opening_codecs) local_dev 20 (Some test_epoch_state) with
  | Some (s', _) => current_epoch (envelope s') = 1 ∧ bool_decide (is_Some (test_first_challenge s'))
  | None => False
  end.
Proof. vm_compute. split; [reflexivity|exact I]. Qed.

Lemma issued_challenges_bind_witness :
  ∃ s' c sv record,
    test_first_challenge s' = Some c ∧
    get_epoch_record (C := opening_codecs) rd0 (envelope s') 1 = Ok record ∧
    is_Some (bind_verified_proof record 1 (acv_validator_address sv) (ch_provider_id c)
               (ch_challenge_id c) (ch_block_height c) local_dev).
Proof.
  pose proof test_opening as Ht.
  destruct (end_block (C := opening_codecs) local_dev 20 (Some test_epoch_state))
    as [[s' u]|] eqn:Hrun; [|destruct Ht].
  destruct Ht as [He [c Ec]%bool_decide_unpack]. pose proof Ec as Ec'.
  unfold test_first_challenge in Ec.
  destruct (active_capacity_validator (envelope s')) as [sv|] eqn:Esv; [|discriminate Ec].
  cbn [mbind option_bind] in Ec.
  destruct (issued_challenges_bind (C := opening_codecs) (CL := opening_codecs_laws) rd0 local_dev 20
    test_epoch_state s' u sv c test_epoch_state_wf) as (record & Hg & Hb);
    [discriminate|reflexivity|split; vm_compute; [reflexivity|discriminate]|reflexivity
    |exact Hrun|exact Esv|by apply head_Some_elem_of|].
  exists s', c, sv, record. split; [exact Ec'|]. split; [exact Hg|].
  rewrite He in Hb. rewrite Hb. by eexists.
Defined.

(** A key that was active in epoch 0 and is not registered any more. *)
Definition test_left_validator : ValidatorInfo :=
  mkValidatorInfo test_sender (mkCoin 10) [Init.Byte.x0a].
Definition test_leaving_state : AppState :=
  set_envelope (set_active_validators [test_left_validator] (envelope test_epoch_state))
    test_epoch_state.

Lemma test_leaving :
  match end_block (C := opening_codecs) local_dev 20 (Some test_leaving_state) with
  | Some (s', u) =>
      length u = 2%nat ∧
      bool_decide ([Init.Byte.x0a] ∈ map val_public_key (active_validators (envelope s'))) = false
  | None => False
  end.
Proof. vm_compute. split; reflexivity. Qed.

Lemma validator_updates_never_remove_witness :
  match end_block (C := opening_codecs) local_dev 20 (Some test_leaving_state) with
  | Some (_, updates) => (([Init.Byte.x0a] : bytes) ∉ map update_pub_key updates) ∧ length updates = 2%nat
  | None => False
  end.
Proof.
  pose proof test_leaving as Ht.
  destruct (end_block (C := opening_codecs) local_dev 20 (Some test_leaving_state))
    as [[s' u]|] eqn:Hrun; [|exact Ht].
  destruct Ht as [Hl Hb]. split; [|exact Hl].
  apply (validator_updates_never_remove (C := opening_codecs) local_dev 20 test_leaving_state
    s' u test_left_validator Hrun); [by left|by apply bool_decide_eq_false in Hb].
Defined.
