(* ===== verification/Commit.v ===== *)
(** The block lifecycle around delivery: consensus/commit.rs, begin_block.rs
    and init_chain.rs, over the database of [Storage.v].

    [None] is a fatal stop.  The background work a commit starts (snapshot
    chunks, slot writes, peer announcements, metrics) does not touch the state
    or the database and is left out. *)
From S2P Require Import Prelude Externals Reference Coins Address Ordering Namespace Cado Records Tx Merkle Fee Pinboard AppState Ledger Processors VerifiedProof Storage Snapshot Epoch.

Section commit.
Context {H : HexCrate} {HC : HashCrates} {C : RecordCodecs} {R : RandCrate} {T : TrieCrate}
  {SC : SnapshotCodecs} (protocol : ProtocolConstants).

(** *** Deletions *)

Fixpoint commit_deletes (db : Database) (l : list CADOMarkedForDeletion) (tx : Database) :
    option Database :=
  match l with
  | [] => Some tx
  | d :: l =>
      match system_delete_cado_with_tx db (md_path d) (md_owner d) tx with
      | Err _ => None
      | Ok tx => commit_deletes db l tx
      end
  end.

Definition remove_deleted (l : list CADOMarkedForDeletion) (e : AppStateEnvelope) : AppStateEnvelope :=
  let paths := map (λ d, cp_path (md_path d)) l in
  set_cado_cache_to_delete []
    (set_state_trie (foldr delete (state_trie e) paths)
       (set_committed_cado_cache (foldr delete (committed_cado_cache e) paths)
          (set_cado_cache (foldr delete (cado_cache e) paths) e))).

(** *** Objects *)

(** One staged object: infrastructure paths are skipped, a path that does not
    parse or is refused by the database is dropped from the cache. *)
Definition commit_object (st : Database * list string) (kv : string * CadoBody) :
    Database * list string :=
  let '(tx, failed) := st in
  let '(key, cado) := kv in
  if is_infrastructure_cado_path key then (tx, failed)
  else
    match CadoPath_parse key with
    | Err _ => (tx, failed ++ [key])
    | Ok cado_path =>
        match put_cado_type_with_tx cado_path cado tx with
        | Err _ => (tx, failed ++ [key])
        | Ok tx => (tx, failed)
        end
    end.

Definition commit_objects (cache : gmap string CadoBody) (tx : Database) : Database * list string :=
  foldl commit_object (tx, []) (map_to_list cache).

(** *** Pinboard *)

Fixpoint update_refcounts (l : list (string * Z)) (tx : Database) : option Database :=
  match l with
  | [] => Some tx
  | (content_key, delta) :: l =>
      match update_pinboard_refcount_with_tx content_key delta tx with
      | Err _ => None
      | Ok tx => update_refcounts l tx
      end
  end.

(** Every staged post needs its blob; then its rows are written and the blob
    released. *)
Definition commit_pinboard (db : Database) (e : AppStateEnvelope) (tx : Database) : option Database :=
  let metas := map_to_list (pinboard_meta_cache e) in
  if negb (forallb (λ m, bool_decide (is_Some (pinboard_temp_blobs_cf db !! pm_content_key m.2))) metas)
  then None
  else
    let tx := foldl (λ tx m, put_pinboard_metadata_with_tx m.1 m.2 tx) tx metas in
    let tx := foldl (λ tx r, put_pinboard_wallet_index_with_tx r tx) tx (pinboard_idx_wallet_add e) in
    let tx := foldl (λ tx r, put_pinboard_tag_index_with_tx r tx) tx (pinboard_idx_tag_add e) in
    let tx := foldl (λ tx r, put_pinboard_expiry_index_with_tx r tx) tx (pinboard_idx_expiry_add e) in
    let tx := foldl (λ tx r, put_pinboard_commit_index_with_tx r tx) tx (pinboard_idx_commit_add e) in
    tx ← update_refcounts (map_to_list (pinboard_refcount_deltas e)) tx;
    Some (foldl (λ tx k, delete_pinboard_temp_blob_with_tx k tx) tx
            (map (λ m, pm_content_key m.2) metas)).

Definition clear_pinboard (e : AppStateEnvelope) : AppStateEnvelope :=
  set_pinboard_refcount_deltas ∅
    (set_pinboard_idx_commit_add [] (set_pinboard_idx_expiry_add [] (set_pinboard_idx_tag_add []
       (set_pinboard_idx_wallet_add [] (set_pinboard_meta_cache ∅ e))))).

(** *** Challenge outcomes *)

Definition commit_outcomes (e : AppStateEnvelope) (tx : Database) : Database :=
  let tx := foldl (λ tx id, put_verified_proof_challenge_rewarded_with_tx id tx) tx
              (elements (verified_proof_rewarded_cache e)) in
  foldl (λ tx id, put_verified_proof_challenge_failed_with_tx id tx) tx
    (elements (failed_proof_counted_cache e)).

Definition clear_outcomes (e : AppStateEnvelope) : AppStateEnvelope :=
  set_failed_proof_counted_cache ∅ (set_verified_proof_rewarded_cache ∅ e).

(** *** Namespace registry: an entry that cannot be written is skipped *)

Definition commit_namespace (st : Database * AppStateEnvelope) (kv : string * NamespaceRecord) :
    Database * AppStateEnvelope :=
  let '(tx, e) := st in
  let '(namespace_slug, record) := kv in
  match slug_to_namespace_cadopath namespace_slug with
  | Err _ => (tx, e)
  | Ok path =>
      match NamespaceRecord_serialize_bin record with
      | Err _ => (tx, e)
      | Ok payload =>
          let cado := CadoBody_immutable payload (CADOMetadata_new Cado_Namespace namespace_slug) in
          match put_cado_type_with_tx path cado tx with
          | Err _ => (tx, e)
          | Ok tx =>
              (tx, set_namespace_registry_index
                     (<[namespace_slug := record]> (namespace_registry_index e))
                     (set_state_trie (StateTrie_insert (cp_path path) (content_hash cado) (state_trie e))
                        (set_committed_cado_cache
                           (<[cp_path path := cado]> (committed_cado_cache e)) e)))
          end
      end
  end.

Definition commit_namespaces (tx : Database) (e : AppStateEnvelope) : Database * AppStateEnvelope :=
  let '(tx, e) := foldl commit_namespace (tx, e) (map_to_list (namespace_registry_cache e)) in
  (tx, set_namespace_registry_cache ∅ e).

(** *** Merge into the committed cache and the trie *)

Definition merge_cache (e : AppStateEnvelope) : AppStateEnvelope :=
  let updates := without_infrastructure (cado_cache e) in
  let e := set_committed_cado_cache (updates ∪ committed_cado_cache e) e in
  let e := foldr insert_epoch_records_index_from_path e (map_to_list (cado_cache e)).*1 in
  set_state_trie ((content_hash <$> updates) ∪ state_trie e) e.

(** *** Tip and snapshot *)

Definition commit_tip (s : AppState) (tx : Database) : option Database :=
  let e := envelope s in
  match AppHash_bytes (app_hash s) with
  | Err _ => None
  | Ok hash =>
      let tip := mkAppStateTip (block_height e) (root_hash (state_trie e)) hash in
      serialized ← bin_serialize tip;
      let cado := CadoBody_immutable serialized (CADOMetadata_new Cado_AppStateTip "system") in
      let id := String.append "0x" (hex_encode (sha256 serialized)) in
      tip_path ← ok (CadoPath_new Cado_AppStateTip (Key_Name id));
      latest_path ← ok (CadoPath_new Cado_AppStateTip (Key_Name LATEST));
      tx ← ok (put_cado_type_with_tx tip_path cado tx);
      ok (put_cado_type_with_tx latest_path cado tx)
  end.

Definition commit_snapshot (s : AppState) (tx : Database) : option Database :=
  if Z.rem (block_height (envelope s)) (blocks_per_epoch protocol) =? 0 then
    snapshot ← ok (AppStateSnapshot_new s);
    cado ← ok (AppStateSnapshot_to_cado snapshot);
    path ← ok AppStateSnapshot_latest_path;
    ok (put_cado_type_with_tx path cado tx)
  else Some tx.

(** *** commit *)

(** [commit_inner]: the new committed state, the database and the answered
    hash. *)
Definition commit (db : Database) (current : option AppState) :
    option (AppState * Database * bytes) :=
  s ← current;
  if bool_decide (app_hash s = None) then None else
  let new_epoch := Z.quot (wrap_i64 (block_height (envelope s) + 1)) (blocks_per_epoch protocol) in
  let s := if current_epoch (envelope s) <? new_epoch
           then select_validators_for_epoch protocol s else s in
  let pending_deletes := cado_cache_to_delete (envelope s) in
  tx ← commit_deletes db pending_deletes db;
  let e := remove_deleted pending_deletes (envelope s) in
  let '(tx, failed_cados) := commit_objects (cado_cache e) tx in
  let e := set_cado_cache (foldr delete (cado_cache e) failed_cados) e in
  tx ← commit_pinboard db e tx;
  let e := clear_pinboard e in
  let tx := commit_outcomes e tx in
  let e := clear_outcomes e in
  let '(tx, e) := commit_namespaces tx e in
  let e := merge_cache e in
  let s := set_envelope e s in
  tx ← commit_tip s tx;
  tx ← commit_snapshot s tx;
  let s := set_envelope (set_cado_cache ∅ e) s in
  Some (s, tx, AppHash_to_vec (app_hash s)).

(** [begin_block_inner] *)
Definition begin_block (committed : AppState) : option AppState := Some committed.

(** *** init_chain *)

(** A validator of the genesis request: key bytes and power; an absent or
    non-Ed25519 key is [None]. *)
Record GenesisValidator : Type := mkGenesisValidator {
  gen_pub_key : option bytes;
  gen_power : Z;
}.

Context {E : Ed25519}.

(** One round of the loop: the validator recorded and its account staged when
    the working set has none.  [None] is a fatal stop. *)
Definition genesis_validator (st : list ValidatorInfo * AppStateEnvelope) (v : GenesisValidator) :
    option (list ValidatorInfo * AppStateEnvelope) :=
  let '(validators, e) := st in
  match gen_pub_key v with
  | None => Some st
  | Some public_key_bytes =>
      if negb (length public_key_bytes =? 32)%nat then Some st else
      match try_array 32 public_key_bytes with
      | None => Some st
      | Some array =>
          if negb (verifying_key_ok array) then Some st else
          match from_public_key array with
          | Err _ => Some st
          | Ok validator_addr =>
              let stake := if gen_power v <? 0 then 0 else as_u64 (gen_power v) in
              match Coin_new stake with
              | Err _ => Some st
              | Ok stake_coin =>
                  let validators :=
                    validators ++ [mkValidatorInfo validator_addr stake_coin public_key_bytes] in
                  match CadoPath_new Cado_Account (Key_Address validator_addr) with
                  | Err _ => Some (validators, e)
                  | Ok path =>
                      if has_cado_in_working_set e path then Some (validators, e)
                      else
                        serialized ← bin_serialize
                          (mkAccount validator_addr stake_coin (mkNonce Nonce_ZERO));
                        Some (validators,
                              update_cado_cache path
                                (CadoBody_mutable_new serialized
                                   (CADOMetadata_new Cado_Account (hex_with_prefix validator_addr))) e)
                  end
              end
          end
      end
  end.

Fixpoint genesis_validators (l : list GenesisValidator)
    (st : list ValidatorInfo * AppStateEnvelope) : option (list ValidatorInfo * AppStateEnvelope) :=
  match l with
  | [] => Some st
  | v :: l => st ← genesis_validator st v; genesis_validators l st
  end.

(** The state part of [init_chain_inner]; the protocol constants are installed
    before it. *)
Definition init_chain (expected_chain_id request_chain_id : string) (l : list GenesisValidator)
    (committed : AppState) : option AppState :=
  if negb (String.eqb request_chain_id expected_chain_id) then None
  else
    '(vs, e) ← genesis_validators l ([], envelope committed);
    let e := set_validators vs e in
    let e := set_active_validators
               (take (Z.to_nat (validators_per_epoch protocol)) (sort_by compare_validator_priority vs))
               e in
    Some (select_active_capacity_validator_for_epoch protocol 0 (set_envelope e committed)).
End commit.

(** ** Lemmas *)

Section commit_facts.
Context {H : HexCrate} {HL : HexLaws H} {HC : HashCrates} {C : RecordCodecs}
  {CL : RecordCodecsLaws C} {R : RandCrate} {T : TrieCrate} {SC : SnapshotCodecs}
  {SL : SnapshotCodecsLaws SC} (protocol : ProtocolConstants).

(** The other rows a commit reads. *)
Definition same_rows (db db' : Database) : Prop :=
  pinboard_refcounts_cf db' = pinboard_refcounts_cf db ∧
  verified_proof_submissions_cf db' = verified_proof_submissions_cf db.

(** [tx'] has only written objects whose keys satisfy [P]. *)
Definition wrote (P : string → Prop) (tx tx' : Database) : Prop :=
  index_wf tx' ∧
  ∀ t name, is_named_type t = true → name_ok t name → ¬ P (path_key t name) →
    db_get_cado_by_path tx' (eld_path t name) = db_get_cado_by_path tx (eld_path t name).

Lemma wrote_refl P tx : index_wf tx → wrote P tx tx.
Proof. by split. Qed.

Lemma wrote_wf P tx tx' : wrote P tx tx' → index_wf tx'.
Proof. by intros [Hw _]. Qed.

Lemma wrote_trans P Q tx1 tx2 tx3 :
  wrote P tx1 tx2 → wrote Q tx2 tx3 → wrote (λ k, P k ∨ Q k) tx1 tx3.
Proof.
  intros [_ H1] [Hw H2]. split; [done|]. intros t name Ht Hn HPQ.
  rewrite H2, H1; auto.
Qed.

Lemma wrote_weaken (P Q : string → Prop) tx tx' :
  (∀ k, P k → Q k) → wrote P tx tx' → wrote Q tx tx'.
Proof. intros HPQ [Hw H1]. split; [done|]. intros t name Ht Hn HQ. apply H1; auto. Qed.

Lemma wrote_same P tx tx' : index_wf tx → same_objects tx tx' → wrote P tx tx'.
Proof.
  intros Hw Hs. split; [by eapply same_objects_wf|]. intros. by apply same_objects_get.
Qed.

Lemma wrote_after_same P tx1 tx2 tx3 : same_objects tx1 tx2 → wrote P tx2 tx3 → wrote P tx1 tx3.
Proof.
  intros Hs [Hw H1]. split; [done|]. intros t name Ht Hn HP.
  rewrite H1 by done. by apply same_objects_get.
Qed.

Lemma put_wrote t name cado tx tx' :
  is_named_type t = true → name_ok t name → index_wf tx →
  put_cado_type_with_tx (eld_path t name) cado tx = Ok tx' →
  wrote (λ k, k = path_key t name) tx tx' ∧ same_rows tx tx'.
Proof.
  intros Ht Hn Hw Hp. destruct (put_named_inv t name cado tx tx' Ht Hn Hw Hp) as (b & _ & ->).
  split; [|done]. split; [by apply with_object_wf|]. intros t' name' Ht' Hn' Hk.
  apply get_with_object_ne; auto.
Qed.

(** A staged entry the database accepts. *)
Definition staged_entry (k : string) (c : CadoBody) : Prop :=
  ∃ t name, k = cp_path (eld_path t name) ∧ storable t name c ∧
    str_in INFRASTRUCTURE_CADO_TYPES (CadoType_as_str t) = false.

Lemma infrastructure_path t name :
  name_ok t name →
  is_infrastructure_cado_path (cp_path (eld_path t name)) =
    str_in INFRASTRUCTURE_CADO_TYPES (CadoType_as_str t).
Proof. intros Hn. unfold is_infrastructure_cado_path. by rewrite CadoPath_parse_eld. Qed.

Lemma commit_object_staged t name c tx failed :
  storable t name c → str_in INFRASTRUCTURE_CADO_TYPES (CadoType_as_str t) = false → index_wf tx →
  ∃ b, bin_serialize c = Some b ∧
    commit_object (tx, failed) (cp_path (eld_path t name), c) = (with_object t name b tx, failed).
Proof.
  intros Hs Hi Hw. pose proof Hs as (_ & Hn & _). unfold commit_object.
  rewrite infrastructure_path, Hi, CadoPath_parse_eld by done.
  destruct (put_storable t name c tx Hw Hs) as (b & Eb & ->). by exists b.
Qed.

(** The keys of a list of staged entries. *)
Definition keys_of (l : list (string * CadoBody)) (k : string) : Prop :=
  ∃ t name c, (cp_path (eld_path t name), c) ∈ l ∧ name_ok t name ∧ k = path_key t name.

Lemma commit_objects_fold l : ∀ tx failed,
  index_wf tx → (∀ k c, (k, c) ∈ l → staged_entry k c) →
  ∃ tx', foldl commit_object (tx, failed) l = (tx', failed) ∧
    wrote (keys_of l) tx tx' ∧ same_rows tx tx'.
Proof.
  induction l as [|[k c] l IH]; intros tx failed Hw Hall; cbn [foldl].
  { exists tx. split_and!; [done|by apply wrote_refl|done]. }
  destruct (Hall k c) as (t & name & -> & Hs & Hi); [by left|]. pose proof Hs as (Ht & Hn & _).
  destruct (commit_object_staged t name c tx failed Hs Hi Hw) as (b & Eb & ->).
  destruct (IH (with_object t name b tx) failed) as (tx' & -> & Hwr & Hr).
  { by apply with_object_wf. }
  { intros k' c' Hin. apply Hall. by right. }
  exists tx'. split_and!; [done| |done].
  assert (wrote (λ k, k = path_key t name) tx (with_object t name b tx)) as H1.
  { split; [by apply with_object_wf|]. intros t' name' Ht' Hn' Hk. apply get_with_object_ne; auto. }
  eapply wrote_weaken; [|exact (wrote_trans _ _ _ _ _ H1 Hwr)].
  intros k [->|(t' & name' & c' & Hin & Hn' & ->)].
  - exists t, name, c. split_and!; [by left|done|done].
  - exists t', name', c'. split_and!; [by right|done|done].
Qed.

Lemma commit_objects_wrote cache db tx1 failed :
  index_wf db → (∀ k c, cache !! k = Some c → staged_entry k c) →
  commit_objects cache db = (tx1, failed) →
  failed = [] ∧ wrote (keys_of (map_to_list cache)) db tx1 ∧ same_rows db tx1.
Proof.
  intros Hw Hst E. destruct (commit_objects_fold (map_to_list cache) db [] Hw) as (tx & Ef & Hwr).
  { intros k c Hin%elem_of_map_to_list. by apply Hst. }
  unfold commit_objects in E. rewrite Ef in E. by injection E as <- <-.
Qed.

(** *** Names of the system objects *)

Lemma system_name_ok t d :
  t ≠ Cado_Namespace → is_address_type t = false →
  String.length d = 64%nat → string_all is_ascii_hexdigit d = true →
  name_ok t (String.append "0x" d).
Proof.
  intros Ht Ha Hl Hd. destruct (hex_decode_total _ 32 Hl Hd) as [b Eb].
  pose proof (hex_decode_length _ _ Eb) as Hlb. rewrite Hl in Hlb.
  pose proof (validate_hex_ok _ _ "name" Eb) as E.
  replace (length b) with 32%nat in E by lia. by destruct t.
Qed.

Lemma digest_name_ok t (b : byte_array 32) :
  t ≠ Cado_Namespace → is_address_type t = false →
  name_ok t (String.append "0x" (hex_encode b)).
Proof.
  intros Ht Ha. apply system_name_ok; [done..| |apply hex_encode_hexdigits].
  by rewrite hex_encode_length, length_vec_to_list.
Qed.

Lemma latest_name_ok t : t ≠ Cado_Namespace → is_address_type t = false → name_ok t LATEST.
Proof. intros Ht Ha. by apply (system_name_ok t (string_drop 2 LATEST)). Qed.

Lemma system_path t name :
  t ≠ Cado_Namespace → name_ok t name →
  CadoPath_new t (Key_Name name) = Ok (eld_path t name).
Proof. intros Ht Hn. apply CadoPath_new_Ok. by exists name. Qed.

(** *** The rows of the other families *)

(** Pinboard writes leave the objects and the challenge outcomes alone. *)
Definition pinboard_only (tx tx' : Database) : Prop :=
  same_objects tx tx' ∧ verified_proof_submissions_cf tx' = verified_proof_submissions_cf tx.

Lemma pinboard_only_trans tx1 tx2 tx3 :
  pinboard_only tx1 tx2 → pinboard_only tx2 tx3 → pinboard_only tx1 tx3.
Proof. intros [[] ?] [[] ?]. repeat split; congruence. Qed.

(** A fold of row writes that keep a relation to the start keeps it. *)
Lemma foldl_rows {A} (R' : Database → Database → Prop) (f : Database → A → Database) l :
  (∀ tx, R' tx tx) → (∀ tx1 tx2 tx3, R' tx1 tx2 → R' tx2 tx3 → R' tx1 tx3) →
  (∀ tx a, R' tx (f tx a)) → ∀ tx, R' tx (foldl f tx l).
Proof.
  intros Hr Ht Hf. induction l as [|a l IH]; intros tx; cbn [foldl]; [done|].
  eapply Ht; [apply Hf|apply IH].
Qed.

Definition pinboard_rows (tx tx' : Database) : Prop :=
  pinboard_only tx tx' ∧ pinboard_refcounts_cf tx' = pinboard_refcounts_cf tx.

Lemma foldl_pinboard_rows {A} (f : Database → A → Database) l :
  (∀ tx a, pinboard_rows tx (f tx a)) → ∀ tx, pinboard_rows tx (foldl f tx l).
Proof.
  intros Hf. apply foldl_rows; [done| |done].
  intros tx1 tx2 tx3 [H1 E1] [H2 E2]. split; [by eapply pinboard_only_trans|congruence].
Qed.

Lemma pinboard_rows_trans tx1 tx2 tx3 :
  pinboard_rows tx1 tx2 → pinboard_rows tx2 tx3 → pinboard_rows tx1 tx3.
Proof. intros [H1 E1] [H2 E2]. split; [by eapply pinboard_only_trans|congruence]. Qed.

Lemma update_refcounts_run l : ∀ tx,
  NoDup l.*1 →
  (∀ k d, (k, d) ∈ l → 0 ≤ default 0 (pinboard_refcounts_cf tx !! k) + d) →
  ∃ tx', update_refcounts l tx = Some tx' ∧ pinboard_only tx tx'.
Proof.
  induction l as [|[k d] l IH]; intros tx Hnd Hok; cbn [update_refcounts]; [by exists tx|].
  unfold update_pinboard_refcount_with_tx. pose proof (Hok k d ltac:(by left)) as Hk.
  destruct (_ <? 0) eqn:E; eld_bool; [lia|]. apply list.NoDup_cons in Hnd as [Hnin Hnd].
  set (tx1 := set_pinboard_refcounts_cf _ _).
  destruct (IH tx1 Hnd) as (tx' & Hrun & Hp).
  { intros k' d' Hin. unfold tx1. cbn [set_pinboard_refcounts_cf pinboard_refcounts_cf].
    rewrite lookup_insert_ne; [by apply Hok; right|].
    intros <-. apply Hnin. apply list_elem_of_fmap. by exists (k, d'). }
  exists tx'. split; [done|]. by apply (pinboard_only_trans _ tx1).
Qed.

Lemma commit_pinboard_run db e tx :
  (∀ id m, pinboard_meta_cache e !! id = Some m →
     is_Some (pinboard_temp_blobs_cf db !! pm_content_key m)) →
  (∀ k d, pinboard_refcount_deltas e !! k = Some d →
     0 ≤ default 0 (pinboard_refcounts_cf tx !! k) + d) →
  ∃ tx', commit_pinboard db e tx = Some tx' ∧ pinboard_only tx tx'.
Proof.
  intros Hb Hc. unfold commit_pinboard.
  assert (forallb (λ m, bool_decide (is_Some (pinboard_temp_blobs_cf db !! pm_content_key m.2)))
    (map_to_list (pinboard_meta_cache e)) = true) as ->.
  { apply forallb_forall. intros [id m] Hin%list_elem_of_In%elem_of_map_to_list.
    apply bool_decide_eq_true. by eapply Hb. }
  cbn [negb]. cbv zeta. set (tx1 := foldl _ _ (pinboard_idx_commit_add e)).
  assert (pinboard_rows tx tx1) as [Hp1 Hr1].
  { unfold tx1. do 4 (eapply pinboard_rows_trans; [|apply foldl_pinboard_rows;
      intros ? row; first [done|by destruct row as [[? ?] ?]]]).
    apply foldl_pinboard_rows. intros tx0 [id m]. done. }
  destruct (update_refcounts_run (map_to_list (pinboard_refcount_deltas e)) tx1) as (tx2 & -> & Hp2).
  { apply NoDup_fst_map_to_list. }
  { intros k d Hin%elem_of_map_to_list. rewrite Hr1. by apply Hc. }
  eexists. split; [reflexivity|]. eapply pinboard_only_trans; [exact Hp1|].
  eapply pinboard_only_trans; [exact Hp2|].
  apply foldl_rows; [done|exact pinboard_only_trans|done].
Qed.

(** *** Outcomes *)

Lemma foldl_submissions (key : string → string) (f : Database → string → Database) l :
  (∀ tx id, f tx id = set_verified_proof_submissions_cf
                        ({[key id]} ∪ verified_proof_submissions_cf tx) tx) →
  ∀ tx, same_objects tx (foldl f tx l) ∧
    ∀ k, k ∈ verified_proof_submissions_cf (foldl f tx l) ↔
      k ∈ verified_proof_submissions_cf tx ∨ k ∈ key <$> l.
Proof.
  intros Hf. induction l as [|id l IH]; intros tx; cbn [foldl fmap list_fmap].
  { split; [done|]. intros k. rewrite elem_of_nil. tauto. }
  destruct (IH (f tx id)) as [[Ec Ei] Hk]. rewrite Hf in Ec, Ei, Hk |- *. split; [done|].
  intros k. rewrite Hk. cbn [set_verified_proof_submissions_cf verified_proof_submissions_cf].
  rewrite elem_of_union, elem_of_singleton, elem_of_cons. tauto.
Qed.

Lemma commit_outcomes_run e tx :
  same_objects tx (commit_outcomes e tx) ∧
  ∀ k, k ∈ verified_proof_submissions_cf (commit_outcomes e tx) ↔
    k ∈ verified_proof_submissions_cf tx ∨
    (∃ id, k = verified_proof_challenge_rewarded_key id ∧ id ∈ verified_proof_rewarded_cache e) ∨
    (∃ id, k = verified_proof_challenge_failed_key id ∧ id ∈ failed_proof_counted_cache e).
Proof.
  unfold commit_outcomes. set (tx1 := foldl _ tx _).
  destruct (foldl_submissions verified_proof_challenge_rewarded_key
    (λ tx id, put_verified_proof_challenge_rewarded_with_tx id tx)
    (elements (verified_proof_rewarded_cache e)) ltac:(done) tx) as [[E1 E2] H1].
  destruct (foldl_submissions verified_proof_challenge_failed_key
    (λ tx id, put_verified_proof_challenge_failed_with_tx id tx)
    (elements (failed_proof_counted_cache e)) ltac:(done) tx1) as [[E3 E4] H2].
  split; [split; [by rewrite E3|by rewrite E4]|]. intros k. rewrite H2. unfold tx1. rewrite H1.
  rewrite !list_elem_of_fmap. setoid_rewrite elem_of_elements. tauto.
Qed.

#[global] Instance rewarded_key_inj : Inj (=) (=) verified_proof_challenge_rewarded_key.
Proof. intros a b E. unfold verified_proof_challenge_rewarded_key in E. by simplify_eq/=. Qed.
#[global] Instance failed_key_inj : Inj (=) (=) verified_proof_challenge_failed_key.
Proof. intros a b E. unfold verified_proof_challenge_failed_key in E. by simplify_eq/=. Qed.

(** *** Namespaces *)

Lemma namespace_path slug path :
  slug_to_namespace_cadopath slug = Ok path →
  ∃ name, path = eld_path Cado_Namespace name ∧ name_ok Cado_Namespace name.
Proof.
  unfold slug_to_namespace_cadopath. destruct (normalize_namespace_slug slug) as [c|]; [|done].
  destruct (is_reserved_namespace_slug c); [done|].
  intros (name & -> & Hn & _)%CadoPath_new_Ok. by exists name.
Qed.

(** The trie holds the content hash of every committed object and of nothing
    else, and no infrastructure object is committed. *)
Definition in_step (trie : StateTrie) (cache : gmap string CadoBody) : Prop :=
  trie = content_hash <$> cache ∧
  ∀ k c, cache !! k = Some c → is_infrastructure_cado_path k = false.

Definition trie_in_step (e : AppStateEnvelope) : Prop :=
  in_step (state_trie e) (committed_cado_cache e).

(** The storage keys of a type. *)
Definition typed_key (t : CadoType) (k : string) : Prop :=
  ∃ name, name_ok t name ∧ k = path_key t name.

(** What registering namespaces may change of the state. *)
Definition registered (e e' : AppStateEnvelope) : Prop :=
  ∃ idx trie cache,
    e' = set_namespace_registry_index idx (set_state_trie trie (set_committed_cado_cache cache e)) ∧
    (∀ t name, t ≠ Cado_Namespace → name_ok t name →
       cache !! cp_path (eld_path t name) = committed_cado_cache e !! cp_path (eld_path t name)) ∧
    (trie_in_step e → trie_in_step e').

Lemma registered_refl e : registered e e.
Proof.
  exists (namespace_registry_index e), (state_trie e), (committed_cado_cache e).
  by destruct e.
Qed.

Lemma registered_trans e1 e2 e3 : registered e1 e2 → registered e2 e3 → registered e1 e3.
Proof.
  intros (i1 & t1 & c1 & -> & Hc1 & Ht1) (i2 & t2 & c2 & -> & Hc2 & Ht2).
  exists i2, t2, c2. split_and!; [done| |auto]. intros t name Ht Hn. rewrite Hc2, <- Hc1; done.
Qed.

(** The fields a commit carries over, and the staged rows. *)
Definition carried (e : AppStateEnvelope) :=
  (block_height e, current_epoch e, validators e, active_validators e, capacity_validators e,
   active_capacity_validator e, failed_proof_counts e, cado_cache_to_delete e).
Definition staged_pinboard (e : AppStateEnvelope) :=
  (pinboard_meta_cache e, pinboard_refcount_deltas e, pinboard_idx_wallet_add e,
   pinboard_idx_tag_add e, pinboard_idx_expiry_add e, pinboard_idx_commit_add e).
Definition staged_outcomes (e : AppStateEnvelope) :=
  (verified_proof_rewarded_cache e, failed_proof_counted_cache e).

Lemma registered_fields e e' :
  registered e e' →
  carried e' = carried e ∧ staged_pinboard e' = staged_pinboard e ∧
  staged_outcomes e' = staged_outcomes e ∧ cado_cache e' = cado_cache e ∧
  (∀ t name, t ≠ Cado_Namespace → name_ok t name →
     committed_cado_cache e' !! cp_path (eld_path t name) =
     committed_cado_cache e !! cp_path (eld_path t name)) ∧
  (trie_in_step e → trie_in_step e').
Proof. intros (idx & trie & cache & -> & Hc & Ht). by repeat (split; [done|]). Qed.

Lemma commit_namespace_run st kv :
  index_wf st.1 →
  wrote (typed_key Cado_Namespace) st.1 (commit_namespace st kv).1 ∧
  same_rows st.1 (commit_namespace st kv).1 ∧
  registered st.2 (commit_namespace st kv).2.
Proof.
  destruct st as [tx e], kv as [slug record]. cbn [fst snd]. intros Hw.
  assert (wrote (typed_key Cado_Namespace) tx tx ∧ same_rows tx tx ∧ registered e e) as Hskip.
  { split_and!; [by apply wrote_refl|done|apply registered_refl]. }
  unfold commit_namespace. destruct (slug_to_namespace_cadopath slug) as [path|] eqn:Ep; [|done].
  destruct (namespace_path _ _ Ep) as (name & -> & Hn).
  destruct (NamespaceRecord_serialize_bin record) as [payload|]; [|done].
  set (cado := CadoBody_immutable _ _).
  destruct (put_cado_type_with_tx (eld_path Cado_Namespace name) cado tx) as [tx'|] eqn:Eput; [|done].
  cbn [fst snd]. destruct (put_wrote Cado_Namespace name cado tx tx' eq_refl Hn Hw Eput) as [Hwr Hr].
  split_and!; [|done|].
  - eapply wrote_weaken; [|exact Hwr]. intros k ->. by exists name.
  - eexists _, _, _. split_and!; [done| |].
    + intros t name' Ht Hn'. rewrite lookup_insert_ne; [done|]. intros Hp.
      by destruct (eld_paths_inj _ _ _ _ Hn Hn' Hp) as [<- _].
    + intros [Et Hi]. split; cbn.
      * unfold StateTrie_insert. by rewrite Et, fmap_insert.
      * intros k c. rewrite lookup_insert_Some. intros [[<- <-]|[_ Hc]]; [|by eapply Hi].
        exact (infrastructure_path Cado_Namespace name Hn).
Qed.

Lemma commit_namespaces_fold l : ∀ st,
  index_wf st.1 →
  wrote (typed_key Cado_Namespace) st.1 (foldl commit_namespace st l).1 ∧
  same_rows st.1 (foldl commit_namespace st l).1 ∧
  registered st.2 (foldl commit_namespace st l).2.
Proof.
  induction l as [|kv l IH]; intros st Hw; cbn [foldl].
  { split_and!; [by apply wrote_refl|done|apply registered_refl]. }
  destruct (commit_namespace_run st kv Hw) as (H1 & H2 & H3).
  destruct (IH (commit_namespace st kv)) as (H4 & H5 & H6); [apply H1|]. split_and!.
  - eapply wrote_weaken; [|exact (wrote_trans _ _ _ _ _ H1 H4)]. by intros k [?|?].
  - destruct H2, H5. split; congruence.
  - by eapply registered_trans.
Qed.

Lemma commit_namespaces_run tx e :
  index_wf tx →
  ∃ tx2 e2, commit_namespaces tx e = (tx2, set_namespace_registry_cache ∅ e2) ∧
    wrote (typed_key Cado_Namespace) tx tx2 ∧ same_rows tx tx2 ∧ registered e e2.
Proof.
  intros Hw. unfold commit_namespaces.
  destruct (commit_namespaces_fold (map_to_list (namespace_registry_cache e)) (tx, e) Hw)
    as (H1 & H2 & H3).
  destruct (foldl commit_namespace (tx, e) _) as [tx2 e2]. by exists tx2, e2.
Qed.

(** *** Tip and snapshot *)

(** The tip of a state, as the commit stores it. *)
Definition tip_of (s : AppState) (hash : byte_array 32) : AppStateTip :=
  mkAppStateTip (block_height (envelope s)) (root_hash (state_trie (envelope s))) hash.

Lemma put_system t name cado tx :
  t = Cado_AppStateTip ∨ t = Cado_AppStateSnapshot → name_ok t name → index_wf tx →
  ∃ b, bin_serialize cado = Some b ∧
    put_cado_type_with_tx (eld_path t name) cado tx = Ok (with_object t name b tx) ∧
    wrote (typed_key t) tx (with_object t name b tx) ∧ same_rows tx (with_object t name b tx).
Proof.
  intros Ht Hn Hw. assert (is_named_type t = true) as Hnt by (by destruct Ht as [->| ->]).
  destruct (bin_roundtrip cado I) as (b & Eb & _). exists b.
  assert (put_cado_type_with_tx (eld_path t name) cado tx = Ok (with_object t name b tx)) as Hp.
  { unfold put_cado_type_with_tx. rewrite eld_path_checked by done.
    destruct (path_index_cf tx !! cp_path (eld_path t name)) as [key|] eqn:Ei.
    - rewrite (Hw t name key Hnt Hn Ei), Eb. done.
    - destruct Ht as [->| ->]; cbn; by rewrite Eb. }
  destruct (put_wrote t name cado tx _ Hnt Hn Hw Hp) as [Hwr Hr].
  split_and!; [done..| |done]. eapply wrote_weaken; [|exact Hwr]. intros k ->. by exists name.
Qed.

Lemma commit_tip_run s hash tx :
  app_hash s = Some hash → index_wf tx →
  ∃ tip cado b tx1,
    bin_serialize (tip_of s hash) = Some tip ∧
    cado = CadoBody_immutable tip (CADOMetadata_new Cado_AppStateTip "system") ∧
    bin_serialize cado = Some b ∧
    commit_tip s tx = Some (with_object Cado_AppStateTip LATEST b tx1) ∧
    index_wf tx1 ∧
    wrote (typed_key Cado_AppStateTip) tx (with_object Cado_AppStateTip LATEST b tx1) ∧
    same_rows tx (with_object Cado_AppStateTip LATEST b tx1).
Proof.
  intros Eh Hw. destruct (bin_roundtrip (tip_of s hash) I) as (tip & Et & _).
  unfold commit_tip. rewrite Eh. cbn [AppHash_bytes ok_or]. fold (tip_of s hash). rewrite Et.
  cbn [mbind option_bind]. set (cado := CadoBody_immutable tip _).
  assert (name_ok Cado_AppStateTip (String.append "0x" (hex_encode (sha256 tip)))) as Hid
    by (by apply digest_name_ok).
  pose proof (latest_name_ok Cado_AppStateTip ltac:(done) eq_refl) as Hl.
  rewrite (system_path Cado_AppStateTip _ ltac:(done) Hid),
    (system_path Cado_AppStateTip _ ltac:(done) Hl).
  cbn [ok mbind option_bind].
  destruct (put_system Cado_AppStateTip _ cado tx ltac:(by left) Hid Hw) as (b & Eb & -> & Hw1 & Hr1).
  cbn [ok mbind option_bind]. destruct (put_system Cado_AppStateTip LATEST cado
    (with_object Cado_AppStateTip (String.append "0x" (hex_encode (sha256 tip))) b tx)
    ltac:(by left) Hl (wrote_wf _ _ _ Hw1)) as (b' & Eb' & -> & Hw2 & Hr2).
  rewrite Eb in Eb'. injection Eb' as <-.
  eexists tip, cado, b, _. do 4 (split; [done|]). split; [apply Hw1|]. split.
  - eapply wrote_weaken; [|exact (wrote_trans _ _ _ _ _ Hw1 Hw2)]. by intros k [?|?].
  - destruct Hr1, Hr2. split; congruence.
Qed.

Definition snapshot_name : string := String.append "0x" (hex_encode (sha256 (as_bytes "latest"))).

Lemma snapshot_name_ok : name_ok Cado_AppStateSnapshot snapshot_name.
Proof. by apply digest_name_ok. Qed.

Lemma snapshot_path : AppStateSnapshot_latest_path = Ok (eld_path Cado_AppStateSnapshot snapshot_name).
Proof. apply system_path; [done|apply snapshot_name_ok]. Qed.

(** The snapshot of a state, as the commit stores it. *)
Definition snapshot_of (s : AppState) (hash : byte_array 32) : AppStateSnapshot :=
  let e := envelope s in
  mkAppStateSnapshot (block_height e) hash (chain_id s) (current_epoch e)
    (without_infrastructure (committed_cado_cache e)) (root_hash (state_trie e))
    (epoch_records_index e) (namespace_registry_index e) (validators e) (active_validators e)
    (capacity_validators e) (active_capacity_validator e).

(** An epoch start: the heights at which a snapshot is stored. *)
Definition snapshot_due (s : AppState) : bool :=
  Z.rem (block_height (envelope s)) (blocks_per_epoch protocol) =? 0.

Lemma commit_snapshot_run s hash tx :
  app_hash s = Some hash → index_wf tx →
  ∃ tx', commit_snapshot protocol s tx = Some tx' ∧
    wrote (typed_key Cado_AppStateSnapshot) tx tx' ∧ same_rows tx tx' ∧
    if snapshot_due s then
      ∃ snap cado b, bin_serialize (snapshot_of s hash) = Some snap ∧
        cado = CadoBody_immutable snap (CADOMetadata_new Cado_AppStateSnapshot "system") ∧
        bin_serialize cado = Some b ∧ tx' = with_object Cado_AppStateSnapshot snapshot_name b tx
    else tx' = tx.
Proof.
  intros Eh Hw. unfold commit_snapshot. fold (snapshot_due s). destruct (snapshot_due s).
  2: { exists tx. split_and!; [done|by apply wrote_refl|done|done]. }
  unfold AppStateSnapshot_new. rewrite Eh. cbn [AppHash_bytes ok_or ok mbind option_bind].
  fold (snapshot_of s hash). unfold AppStateSnapshot_to_cado.
  destruct (bin_roundtrip (snapshot_of s hash) I) as (snap & Es & _). rewrite Es.
  rewrite snapshot_path. cbn [ok_or ok mbind option_bind].
  destruct (put_system Cado_AppStateSnapshot snapshot_name
    (CadoBody_immutable snap (CADOMetadata_new Cado_AppStateSnapshot "system")) tx
    ltac:(by right) snapshot_name_ok Hw) as (b & Eb & -> & Hw1 & Hr1).
  eexists. split; [done|]. split; [done|]. split; [done|]. by eexists _, _, _.
Qed.

(** *** Staged objects are readable afterwards *)

(** No other staged path has the storage key of this one. *)
Definition own_key (l : list (string * CadoBody)) (t : CadoType) (name : string) : Prop :=
  ∀ t' name' c', (cp_path (eld_path t' name'), c') ∈ l → name_ok t' name' →
    path_key t' name' = path_key t name → t' = t ∧ name' = name.

Lemma commit_objects_read l : ∀ tx failed t name c,
  index_wf tx → NoDup l.*1 → (∀ k c, (k, c) ∈ l → staged_entry k c) →
  name_ok t name → own_key l t name → (cp_path (eld_path t name), c) ∈ l →
  db_get_cado_by_path (foldl commit_object (tx, failed) l).1 (eld_path t name) = Ok (Some c).
Proof.
  induction l as [|[k c0] l IH]; intros tx failed t name c Hw Hnd Hall Hn Hown Hin; cbn [foldl].
  { by apply elem_of_nil in Hin. }
  cbn [fmap list_fmap fst] in Hnd. apply list.NoDup_cons in Hnd as [Hnin Hnd].
  destruct (Hall k c0) as (t0 & name0 & -> & Hs & Hi); [by left|]. pose proof Hs as (Ht0 & Hn0 & _).
  destruct (commit_object_staged t0 name0 c0 tx failed Hs Hi Hw) as (b & Eb & ->).
  assert (∀ k c, (k, c) ∈ l → staged_entry k c) as Hall' by (intros ???; apply Hall; by right).
  assert (index_wf (with_object t0 name0 b tx)) as Hw' by (by apply with_object_wf).
  apply elem_of_cons in Hin as [Heq|Hin].
  2: { apply IH; try done. intros t' name' c' Hin'. apply (Hown t' name' c'). by right. }
  apply pair_eq in Heq as [Hp ->]. destruct (eld_paths_inj _ _ _ _ Hn Hn0 Hp) as [-> ->].
  destruct (commit_objects_fold l (with_object t0 name0 b tx) failed Hw' Hall')
    as (tx' & -> & [_ Hwr] & _).
  rewrite Hwr; [by apply get_with_object|done|done|].
  intros (t' & name' & c' & Hin' & Hn' & Hk).
  destruct (Hown t' name' c') as [-> ->]; [by right|done|done|].
  apply Hnin. apply list_elem_of_fmap. by exists (cp_path (eld_path t0 name0), c').
Qed.

(** *** The whole commit *)

(** A delivered block that can be committed: its hash was computed, its staged
    entries are storable, its posts have their blobs and no count drops below
    zero. *)
Record commit_ready (db : Database) (s : AppState) : Prop := {
  ready_index : index_wf db;
  ready_deletes : cado_cache_to_delete (envelope s) = [];
  ready_staged : ∀ k c, cado_cache (envelope s) !! k = Some c → staged_entry k c;
  ready_blobs : ∀ id m, pinboard_meta_cache (envelope s) !! id = Some m →
    is_Some (pinboard_temp_blobs_cf db !! pm_content_key m);
  ready_counts : ∀ k d, pinboard_refcount_deltas (envelope s) !! k = Some d →
    0 ≤ default 0 (pinboard_refcounts_cf db !! k) + d;
}.

Definition selected (s : AppState) : AppState :=
  let new_epoch := Z.quot (wrap_i64 (block_height (envelope s) + 1)) (blocks_per_epoch protocol) in
  if current_epoch (envelope s) <? new_epoch then select_validators_for_epoch protocol s else s.

Lemma selected_spec s :
  ∃ vs, selected s = set_envelope (set_active_validators vs (envelope s)) s.
Proof.
  unfold selected. destruct (_ <? _); [by eexists|].
  exists (active_validators (envelope s)). destruct s as [? e ?]. by destruct e.
Qed.

Lemma remove_deleted_none e : cado_cache_to_delete e = [] → remove_deleted [] e = e.
Proof. destruct e; cbn. intros ->. done. Qed.

Lemma app_hash_set_envelope e s : app_hash (set_envelope e s) = app_hash s.
Proof. done. Qed.

(** The state after the merge, before the staged cache is cleared. *)
Definition merged (s : AppState) (e2 : AppStateEnvelope) : AppState :=
  set_envelope (merge_cache (set_namespace_registry_cache ∅ e2)) (selected s).

(** Each stage in turn. *)
Lemma commit_run db s hash :
  commit_ready db s → app_hash s = Some hash →
  ∃ e2 tx1 tx2 tx3 db',
    commit protocol db (Some s) =
      Some (set_envelope (set_cado_cache ∅ (merge_cache (set_namespace_registry_cache ∅ e2)))
              (merged s e2), db', vec_to_list hash) ∧
    registered (clear_outcomes (clear_pinboard (envelope (selected s)))) e2 ∧
    commit_objects (cado_cache (envelope s)) db = (tx1, []) ∧
    wrote (typed_key Cado_Namespace) tx1 tx2 ∧
    commit_tip (merged s e2) tx2 = Some tx3 ∧ wrote (typed_key Cado_AppStateTip) tx2 tx3 ∧
    commit_snapshot protocol (merged s e2) tx3 = Some db' ∧ wrote (typed_key Cado_AppStateSnapshot) tx3 db' ∧
    (∀ k, k ∈ verified_proof_submissions_cf db' ↔
       k ∈ verified_proof_submissions_cf (commit_outcomes (envelope s) db)).
Proof.
  intros [Hw Hdel Hst Hbl Hct] Eh. destruct (selected_spec s) as [vs Esel].
  assert (app_hash (selected s) = Some hash) as Eh' by (by rewrite Esel).
  unfold commit. cbn [mbind option_bind]. rewrite bool_decide_false by (by rewrite Eh).
  fold (selected s). cbv zeta.
  assert (cado_cache_to_delete (envelope (selected s)) = []) as Hdel' by (by rewrite Esel).
  rewrite Hdel'. cbn [commit_deletes mbind option_bind]. rewrite remove_deleted_none by done.
  assert (cado_cache (envelope (selected s)) = cado_cache (envelope s)) as -> by (by rewrite Esel).
  destruct (commit_objects_fold (map_to_list (cado_cache (envelope s))) db [] Hw)
    as (tx1 & Eobj & Hw1 & Hr1).
  { intros k c Hin%elem_of_map_to_list. by apply Hst. }
  unfold commit_objects. rewrite Eobj. cbn [foldr].
  replace (set_cado_cache (cado_cache (envelope s)) (envelope (selected s)))
    with (envelope (selected s)) by (rewrite Esel; by destruct (envelope s)).
  destruct (commit_pinboard_run db (envelope (selected s)) tx1) as (txp & -> & Hso & Hsub).
  { rewrite Esel. exact Hbl. }
  { rewrite Esel. destruct Hr1 as [-> _]. exact Hct. }
  cbn [mbind option_bind]. set (e1 := clear_outcomes (clear_pinboard (envelope (selected s)))).
  set (txo := commit_outcomes (clear_pinboard (envelope (selected s))) txp).
  destruct (commit_outcomes_run (clear_pinboard (envelope (selected s))) txp) as [Hso' Hsub'].
  fold txo in Hso', Hsub'. clearbody txo.
  assert (index_wf txo) as Hwo.
  { eapply same_objects_wf; [exact Hso'|]. eapply same_objects_wf; [exact Hso|]. apply Hw1. }
  destruct (commit_namespaces_run txo e1 Hwo) as (tx2 & e2 & -> & Hw2 & Hr2 & Hreg).
  cbv beta iota. fold (merged s e2).
  assert (app_hash (merged s e2) = Some hash) as Ehm
    by (unfold merged; by rewrite app_hash_set_envelope).
  destruct (commit_tip_run (merged s e2) hash tx2 Ehm (wrote_wf _ _ _ Hw2))
    as (tip & cado & b & txt & _ & _ & _ & Htip & _ & Hw3 & Hr3).
  rewrite Htip. cbn [mbind option_bind].
  destruct (commit_snapshot_run (merged s e2) hash _ Ehm (wrote_wf _ _ _ Hw3)) as (db' & Hsnap & Hw4 & Hr4 & _).
  rewrite Hsnap. cbn [mbind option_bind].
  eexists e2, tx1, tx2, _, db'. split.
  { by rewrite app_hash_set_envelope, Ehm. }
  split; [done|]. split; [done|]. split.
  { eapply wrote_after_same; [exact Hso|]. by eapply wrote_after_same. }
  split; [exact Htip|]. split; [done|]. split; [done|]. split; [done|].
  intros k. destruct Hr1 as [_ Er1], Hr2 as [_ Er2], Hr3 as [_ Er3], Hr4 as [_ Er4].
  rewrite Er4, Er3, Er2, Hsub', Hsub, Er1.
  destruct (commit_outcomes_run (envelope s) db) as [_ ->]. by rewrite Esel.
Qed.

(** *** The state after a commit *)

Lemma epoch_index_fold l e :
  ∃ idx, foldr insert_epoch_records_index_from_path e l = set_epoch_records_index idx e.
Proof.
  induction l as [|k l [idx IH]]; cbn [foldr].
  { exists (epoch_records_index e). by destruct e. }
  rewrite IH. unfold insert_epoch_records_index_from_path.
  destruct (epoch_number_from_record_path k); by eexists.
Qed.

Lemma merge_cache_spec e :
  ∃ idx, merge_cache e =
    set_state_trie ((content_hash <$> without_infrastructure (cado_cache e)) ∪ state_trie e)
      (set_epoch_records_index idx
         (set_committed_cado_cache
            (without_infrastructure (cado_cache e) ∪ committed_cado_cache e) e)).
Proof.
  unfold merge_cache. cbv zeta. set (e' := set_committed_cado_cache _ e).
  destruct (epoch_index_fold (map_to_list (cado_cache e')).*1 e') as [idx ->]. by exists idx.
Qed.

Lemma in_step_union trie cache staged :
  in_step trie cache →
  in_step ((content_hash <$> without_infrastructure staged) ∪ trie)
    (without_infrastructure staged ∪ cache).
Proof.
  intros [-> Hi]. split.
  - by rewrite map_fmap_union.
  - intros k c. rewrite lookup_union_Some_raw. intros [Hc|[_ Hc]]; [|by eapply Hi].
    by apply map_lookup_filter_Some in Hc as [_ Hc].
Qed.

(** Nothing is left staged. *)
Definition staging_empty (e : AppStateEnvelope) : Prop :=
  cado_cache e = ∅ ∧ cado_cache_to_delete e = [] ∧ namespace_registry_cache e = ∅ ∧
  pinboard_meta_cache e = ∅ ∧ pinboard_refcount_deltas e = ∅ ∧ pinboard_idx_wallet_add e = [] ∧
  pinboard_idx_tag_add e = [] ∧ pinboard_idx_expiry_add e = [] ∧ pinboard_idx_commit_add e = [] ∧
  verified_proof_rewarded_cache e = ∅ ∧ failed_proof_counted_cache e = ∅.

(** Names of different types have different storage keys: no SHA-256 collision
    across types. *)
Definition types_separated : Prop :=
  ∀ t name t' name', is_named_type t = true → is_named_type t' = true →
    name_ok t name → name_ok t' name' → path_key t name = path_key t' name' → t = t'.

(** The types the block itself stages: accounts, stakes and epoch records. *)
Definition is_ledger_type (t : CadoType) : bool :=
  is_named_type t && negb (str_in INFRASTRUCTURE_CADO_TYPES (CadoType_as_str t)) &&
  negb (bool_decide (t = Cado_Namespace)).

Lemma merge_cache_fields e :
  carried (merge_cache e) = carried e ∧ staged_pinboard (merge_cache e) = staged_pinboard e ∧
  staged_outcomes (merge_cache e) = staged_outcomes e ∧
  namespace_registry_cache (merge_cache e) = namespace_registry_cache e ∧
  committed_cado_cache (merge_cache e) =
    without_infrastructure (cado_cache e) ∪ committed_cado_cache e ∧
  (trie_in_step e → trie_in_step (merge_cache e)).
Proof.
  destruct (merge_cache_spec e) as [idx ->]. do 5 (split; [done|]). apply in_step_union.
Qed.

(** The state a commit leaves, in terms of the state it was given. *)
Lemma merged_fields e e2 :
  registered (clear_outcomes (clear_pinboard e)) e2 →
  let e' := merge_cache (set_namespace_registry_cache ∅ e2) in
  carried e' = carried e ∧
  staged_pinboard e' = (∅, ∅, [], [], [], []) ∧ staged_outcomes e' = (∅, ∅) ∧
  namespace_registry_cache e' = ∅ ∧ (trie_in_step e → trie_in_step e') ∧
  ∀ t name, t ≠ Cado_Namespace → name_ok t name →
    committed_cado_cache e' !! cp_path (eld_path t name) =
    (without_infrastructure (cado_cache e) ∪ committed_cado_cache e) !! cp_path (eld_path t name).
Proof.
  intros (H1 & H2 & H3 & H4 & H5 & H6)%registered_fields. cbv zeta.
  destruct (merge_cache_fields (set_namespace_registry_cache ∅ e2)) as (M1 & M2 & M3 & M4 & M5 & M6).
  rewrite M1, M2, M3, M4, M5. split; [exact H1|]. split; [exact H2|]. split; [exact H3|].
  split; [done|]. split; [auto|]. intros t name Ht Hn. rewrite !lookup_union.
  change (cado_cache (set_namespace_registry_cache ∅ e2)) with (cado_cache e2).
  change (committed_cado_cache (set_namespace_registry_cache ∅ e2)) with (committed_cado_cache e2).
  by rewrite H4, H5.
Qed.

(** Selecting the validators touches the active set only. *)
Lemma selected_fields s :
  app_hash (selected s) = app_hash s ∧ chain_id (selected s) = chain_id s ∧
  cado_cache (envelope (selected s)) = cado_cache (envelope s) ∧
  committed_cado_cache (envelope (selected s)) = committed_cado_cache (envelope s) ∧
  state_trie (envelope (selected s)) = state_trie (envelope s) ∧
  block_height (envelope (selected s)) = block_height (envelope s) ∧
  cado_cache_to_delete (envelope (selected s)) = cado_cache_to_delete (envelope s).
Proof. destruct (selected_spec s) as [vs ->]. done. Qed.

(** Ledger objects are not written by the later stages. *)
Lemma ledger_key_apart t name :
  types_separated → is_ledger_type t = true → name_ok t name →
  ¬ typed_key Cado_Namespace (path_key t name) ∧ ¬ typed_key Cado_AppStateTip (path_key t name) ∧
  ¬ typed_key Cado_AppStateSnapshot (path_key t name).
Proof.
  intros Hsep Ht Hn. split_and!; intros (name' & Hn' & Hk);
    assert (is_named_type t = true) as Hnt by (by destruct t);
    apply Hsep in Hk; try done; by subst t.
Qed.

Lemma outcomes_carried db db' e e' id :
  (∀ k, k ∈ verified_proof_submissions_cf db' ↔
     k ∈ verified_proof_submissions_cf (commit_outcomes e db)) →
  staged_outcomes e' = (∅, ∅) →
  is_verified_proof_challenge_rewarded (database_reads db') e' id =
    is_verified_proof_challenge_rewarded (database_reads db) e id ∧
  is_verified_proof_challenge_failed (database_reads db') e' id =
    is_verified_proof_challenge_failed (database_reads db) e id.
Proof.
  intros Hsub [= E1 E2]. destruct (commit_outcomes_run e db) as [_ Hout].
  unfold is_verified_proof_challenge_rewarded, is_verified_proof_challenge_failed.
  rewrite E1, E2, !bool_decide_false by apply not_elem_of_empty.
  cbn [database_reads storage_challenge_rewarded storage_challenge_failed].
  split.
  - destruct (decide (id ∈ verified_proof_rewarded_cache e)) as [Hid|Hid].
    + rewrite (bool_decide_true _ Hid), bool_decide_true; [done|]. apply Hsub, Hout. right; left. eauto.
    + rewrite (bool_decide_false _ Hid). f_equal. apply bool_decide_ext. rewrite Hsub, Hout.
      split; [|by left]. intros [?|[(id' & Hk & Hin)|(id' & Hk & _)]]; [done| |done].
      by apply (inj _) in Hk as <-.
  - destruct (decide (id ∈ failed_proof_counted_cache e)) as [Hid|Hid].
    + rewrite (bool_decide_true _ Hid), bool_decide_true; [done|]. apply Hsub, Hout. right; right. eauto.
    + rewrite (bool_decide_false _ Hid). f_equal. apply bool_decide_ext. rewrite Hsub, Hout.
      split; [|by left]. intros [?|[(id' & Hk & _)|(id' & Hk & Hin)]]; [done|done|].
      by apply (inj _) in Hk as <-.
Qed.

(** Reads of ledger objects through a commit. *)
Lemma lookups_carried db db' tx1 tx2 tx3 e e' t name :
  index_wf db → types_separated → (∀ k c, cado_cache e !! k = Some c → staged_entry k c) →
  commit_objects (cado_cache e) db = (tx1, []) →
  wrote (typed_key Cado_Namespace) tx1 tx2 → wrote (typed_key Cado_AppStateTip) tx2 tx3 → wrote (typed_key Cado_AppStateSnapshot) tx3 db' →
  cado_cache e' = ∅ →
  committed_cado_cache e' !! cp_path (eld_path t name) =
    (without_infrastructure (cado_cache e) ∪ committed_cado_cache e) !! cp_path (eld_path t name) →
  is_ledger_type t = true → name_ok t name → own_key (map_to_list (cado_cache e)) t name →
  lookup_cado_staged_committed_then_db (database_reads db') e' (eld_path t name) =
    lookup_cado_staged_committed_then_db (database_reads db) e (eld_path t name) ∧
  ∀ c, cado_cache e !! cp_path (eld_path t name) = Some c →
    db_get_cado_by_path db' (eld_path t name) = Ok (Some c).
Proof.
  intros Hw Hsep Hst Eobj [_ W2] [_ W3] [_ W4] Ec Eco Ht Hn Hown.
  destruct (ledger_key_apart t name Hsep Ht Hn) as (K1 & K2 & K3).
  assert (is_named_type t = true) as Hnt by (by destruct t).
  assert (∀ k c, (k, c) ∈ map_to_list (cado_cache e) → staged_entry k c) as Hst'.
  { intros k c Hin%elem_of_map_to_list. by apply Hst. }
  assert (db_get_cado_by_path db' (eld_path t name) = db_get_cado_by_path tx1 (eld_path t name)) as Eg.
  { by rewrite W4, W3, W2. }
  split.
  - unfold lookup_cado_staged_committed_then_db. rewrite Ec, lookup_empty, Eco, lookup_union.
    cbn [database_reads get_cado_by_path]. unfold without_infrastructure.
    destruct (cado_cache e !! cp_path (eld_path t name)) as [c|] eqn:E.
    + erewrite map_lookup_filter_Some_2; [by destruct (committed_cado_cache e !! _)|exact E|].
      cbn [fst]. rewrite infrastructure_path by done. by destruct t.
    + rewrite (map_lookup_filter_None_2 _ (cado_cache e)) by (by left).
      rewrite left_id by apply _.
      destruct (committed_cado_cache e !! cp_path (eld_path t name)); [done|]. rewrite Eg.
      destruct (commit_objects_wrote _ _ _ _ Hw Hst Eobj) as (_ & [_ W1] & _). rewrite W1; [done..|].
      intros (t' & name' & c' & Hin & Hn' & Hk).
      destruct (Hown t' name' c' Hin Hn' (eq_sym Hk)) as [-> ->].
      apply elem_of_map_to_list in Hin. by rewrite E in Hin.
  - intros c Hc. rewrite Eg. unfold commit_objects in Eobj.
    change tx1 with (tx1, @nil string).1. rewrite <- Eobj.
    apply commit_objects_read; try done; [apply NoDup_fst_map_to_list|by apply elem_of_map_to_list].
Qed.

(** ** Properties *)

Lemma commit_cleared db s hash s' db' out :
  commit_ready db s → app_hash s = Some hash →
  commit protocol db (Some s) = Some (s', db', out) → staging_empty (envelope s').
Proof.
  intros Hready Eh Ec.
  destruct (commit_run db s hash Hready Eh) as (e2 & tx1 & tx2 & tx3 & db2 & Erun & Hreg & _).
  rewrite Ec in Erun. injection Erun as -> _ _. pose proof Hready as [_ Hdel _ _ _].
  destruct (selected_fields s) as (_ & _ & _ & _ & _ & _ & S7).
  destruct (merged_fields _ _ Hreg) as (M1 & M2 & M3 & M4 & _).
  set (e4 := merge_cache (set_namespace_registry_cache ∅ e2)) in *.
  pose proof (f_equal snd M1) as Ed. injection M2 as ? ? ? ? ? ?. injection M3 as ? ?.
  cbn [envelope set_envelope]. unfold staging_empty. split_and!; try done. cbn in Ed |- *.
  by rewrite Ed, S7.
Qed.

(** C8. When a block is ready to commit (no object is marked for deletion,
    every staged object is storable under its own path, every staged post has
    its temporary blob in the database, no reference count goes below zero) and
    storage keys of different types do not collide, the commit succeeds: it
    answers the hash of the block and keeps its height, leaves nothing staged,
    and keeps the path index well-formed and the trie in step with the
    committed objects; every account, stake and epoch record, and every
    challenge outcome, reads after it as before it; what the block staged is in
    the database. *)
Theorem commit_correct (db : Database) (s : AppState) (hash : byte_array 32) :
  commit_ready db s → app_hash s = Some hash → types_separated →
  ∃ s' db', commit protocol db (Some s) = Some (s', db', vec_to_list hash) ∧
    app_hash s' = Some hash ∧ block_height (envelope s') = block_height (envelope s) ∧
    staging_empty (envelope s') ∧ index_wf db' ∧
    (trie_in_step (envelope s) → trie_in_step (envelope s')) ∧
    (∀ t name, is_ledger_type t = true → name_ok t name →
       own_key (map_to_list (cado_cache (envelope s))) t name →
       let p := eld_path t name in
       lookup_cado_staged_committed_then_db (database_reads db') (envelope s') p =
         lookup_cado_staged_committed_then_db (database_reads db) (envelope s) p ∧
       ∀ c, cado_cache (envelope s) !! cp_path p = Some c →
         db_get_cado_by_path db' p = Ok (Some c)) ∧
    (∀ id, is_verified_proof_challenge_rewarded (database_reads db') (envelope s') id =
             is_verified_proof_challenge_rewarded (database_reads db) (envelope s) id ∧
           is_verified_proof_challenge_failed (database_reads db') (envelope s') id =
             is_verified_proof_challenge_failed (database_reads db) (envelope s) id).
Proof.
  intros Hready Eh Hsep. pose proof Hready as [Hw Hdel Hst _ _].
  destruct (commit_run db s hash Hready Eh)
    as (e2 & tx1 & tx2 & tx3 & db' & Erun & Hreg & Eobj & Hw2 & _ & Hw3 & _ & Hw4 & Hsub).
  destruct (selected_fields s) as (S1 & S2 & S3 & S4 & S5 & S6 & S7).
  destruct (merged_fields _ _ Hreg) as (M1 & M2 & M3 & M4 & M5 & M6).
  set (e4 := merge_cache (set_namespace_registry_cache ∅ e2)) in *.
  eexists _, db'. split; [exact Erun|]. split; [by rewrite <- Eh, <- S1|].
  cbn [envelope set_envelope]. split; [|split; [|split; [|split; [|split]]]].
  - rewrite <- S6. by injection M1.
  - exact (commit_cleared db s hash _ _ _ Hready Eh Erun).
  - by eapply wrote_wf.
  - intros Hs. apply M5. unfold trie_in_step. by rewrite S4, S5.
  - intros t name Ht Hn Hown. eapply lookups_carried; try done.
    rewrite <- S3, <- S4. apply M6; [by destruct t|done].
  - intros id. by apply outcomes_carried.
Qed.
End commit_facts.

(** ** Witnesses *)

(** The stand-in digest keeps the type of a storage key apart. *)
Lemma ref_types_separated : types_separated (H := ref_hex) (HC := ref_hashes).
Proof.
  intros t name t' name' _ _ _ _ E. unfold path_key, storage_key in E.
  apply (f_equal (string_drop 2)) in E. rewrite !string_drop_0x in E.
  apply (inj hex_encode) in E. destruct t, t'; try reflexivity; discriminate E.
Qed.

Definition test_delivered : AppState :=
  mkAppState (Some test_key)
    (set_verified_proof_rewarded_cache {["c1"]}
      (set_cado_cache {[cp_path (eld_path Cado_Account test_owner) := test_body]}
        (set_block_height 7 envelope_default))) "eld".

Lemma test_delivered_ready :
  commit_ready (SC := test_snapshot_codecs test_body) empty_database test_delivered.
Proof.
  constructor; try done.
  intros k c Hc. cbn [test_delivered envelope cado_cache set_cado_cache
    set_verified_proof_rewarded_cache] in Hc. apply lookup_singleton_Some in Hc as [<- <-].
  exists Cado_Account, test_owner. split; [done|]. split; [exact test_body_storable|done].
Qed.

Lemma commit_correct_witness :
  ∃ s' db', commit (SC := test_snapshot_codecs test_body) (T := ref_trie) local_dev empty_database
              (Some test_delivered) = Some (s', db', vec_to_list test_key) ∧
    staging_empty (envelope s') ∧
    db_get_cado_by_path (BC := body_bincode test_body) db' (eld_path Cado_Account test_owner) =
      Ok (Some test_body) ∧
    is_verified_proof_challenge_rewarded (database_reads (BC := body_bincode test_body) db')
      (envelope s') "c1" = Ok true.
Proof.
  destruct (commit_correct (SC := test_snapshot_codecs test_body)
    (SL := test_snapshot_codecs_laws test_body) (T := ref_trie) local_dev empty_database
    test_delivered test_key test_delivered_ready eq_refl ref_types_separated)
    as (s' & db' & E & _ & _ & Hst & _ & _ & Hl & Ho).
  exists s', db'. split; [exact E|]. split; [exact Hst|]. split.
  - destruct (Hl Cado_Account test_owner) as [_ Hr]; [done|by vm_compute| |by apply Hr].
    intros t' name' c' Hin Hn' _. apply elem_of_map_to_list in Hin.
    cbn [test_delivered envelope cado_cache set_cado_cache
      set_verified_proof_rewarded_cache] in Hin. apply lookup_singleton_Some in Hin as [Hp _].
    symmetry in Hp. apply (eld_paths_inj t' name' Cado_Account test_owner); [done|by vm_compute|done].
  - etransitivity; [exact (proj1 (Ho "c1"))|by vm_compute].
Defined.
