(* ===== verification/Restart.v ===== *)
(** Restart after a commit: what [initialize_with_data] makes of the database a
    commit has written (node_app/src/app_state/app.rs and
    abci_interface/consensus/commit.rs together). *)
From S2P Require Import Prelude Externals Reference Coins Address Ordering Namespace Cado Records Tx Merkle Fee Pinboard AppState Ledger Processors VerifiedProof Storage Snapshot Epoch Commit.

Section restart.
Context {H : HexCrate} {HL : HexLaws H} {HC : HashCrates} {C : RecordCodecs}
  {CL : RecordCodecsLaws C} {R : RandCrate} {T : TrieCrate} {SC : SnapshotCodecs}
  {SL : SnapshotCodecsLaws SC} (protocol : ProtocolConstants).

(** ** What a commit stores *)

(** The object a system value is stored as, within the limit of the reader. *)
Definition system_body {A} `{Bincode A} (t : CadoType) (a : A) (c : CadoBody) : Prop :=
  ∃ x, bin_serialize a = Some x ∧ c = CadoBody_immutable x (CADOMetadata_new t "system").

Definition readable_size {A} `{Bincode A} (t : CadoType) (a : A) : Prop :=
  ∀ c b, system_body t a c → bin_serialize c = Some b → 0 < Z.of_nat (length b) ≤ stored_limit t.

Lemma system_body_storable {A} `{Bincode A} t name (a : A) c :
  t = Cado_AppStateTip ∨ t = Cado_AppStateSnapshot → name_ok t name →
  system_body t a c → readable_size t a → storable t name c.
Proof.
  intros Ht Hn Hb Hs. split; [by destruct Ht as [->| ->]|]. split; [done|]. split.
  - destruct (bin_roundtrip c I) as (b & Eb & _). exists b. split; [done|]. by eapply Hs.
  - by destruct Ht as [->| ->].
Qed.

Lemma system_body_decodes {A} `{Bincode A} {BL : BincodeLaws A (λ _, True)} t (a : A) c db p :
  system_body t a c → db_get_cado_by_path db p = Ok (Some c) →
  get_deserialized_cado_by_path (A := A) db p = Ok (Some a).
Proof.
  intros (x & Ex & ->) Hg. unfold get_deserialized_cado_by_path. rewrite Hg.
  cbn [CadoBody_data CadoBody_immutable cado_data CADO_new].
  destruct (bin_roundtrip a I) as (x' & Ex' & Ed). rewrite Ex in Ex'. injection Ex' as <-.
  by rewrite Ed.
Qed.

Lemma system_keys_apart name name' :
  types_separated → name_ok Cado_AppStateTip name → name_ok Cado_AppStateSnapshot name' →
  path_key Cado_AppStateSnapshot name' ≠ path_key Cado_AppStateTip name.
Proof. intros Hsep Hn Hn' Hk. by apply Hsep in Hk. Qed.

(** The tip of the block is readable from the committed database. *)
Lemma commit_stores_tip s hash tx tx3 db' :
  types_separated → app_hash s = Some hash → index_wf tx →
  commit_tip s tx = Some tx3 → commit_snapshot protocol s tx3 = Some db' →
  readable_size Cado_AppStateTip (tip_of s hash) →
  get_deserialized_cado_by_path (A := AppStateTip) db' (eld_path Cado_AppStateTip LATEST) =
    Ok (Some (tip_of s hash)).
Proof.
  intros Hsep Eh Hw Et Es Hfit. pose proof (latest_name_ok Cado_AppStateTip ltac:(done) eq_refl) as Hl.
  destruct (commit_tip_run s hash tx Eh Hw) as (x & c & b & tx1 & Ex & Ec & Eb & Erun & Hw1 & Hw3 & _).
  rewrite Et in Erun. injection Erun as ->.
  assert (system_body Cado_AppStateTip (tip_of s hash) c) as Hb by (by exists x).
  assert (storable Cado_AppStateTip LATEST c) as Hst.
  { apply (system_body_storable _ _ (tip_of s hash)); [by left|done..]. }
  apply (system_body_decodes Cado_AppStateTip (tip_of s hash) c); [exact Hb|].
  destruct (commit_snapshot_run protocol s hash _ Eh (wrote_wf _ _ _ Hw3)) as (db'' & Es' & [_ W] & _ & _).
  rewrite Es in Es'. injection Es' as <-. rewrite W; [exact (get_with_object _ _ _ _ _ Hst Eb)|done|done|].
  intros (name' & Hn' & Hk). exact (system_keys_apart _ _ Hsep Hl Hn' (eq_sym Hk)).
Qed.

(** The snapshot of an epoch start is readable from the committed database. *)
Lemma commit_stores_snapshot s hash tx3 db' :
  app_hash s = Some hash → index_wf tx3 → snapshot_due protocol s = true →
  commit_snapshot protocol s tx3 = Some db' →
  readable_size Cado_AppStateSnapshot (snapshot_of s hash) →
  get_deserialized_cado_by_path (A := AppStateSnapshot) db'
    (eld_path Cado_AppStateSnapshot snapshot_name) = Ok (Some (snapshot_of s hash)).
Proof.
  intros Eh Hw Hdue Es Hfit.
  destruct (commit_snapshot_run protocol s hash tx3 Eh Hw) as (db'' & Es' & _ & _ & Hd).
  rewrite Es in Es'. injection Es' as <-. rewrite Hdue in Hd.
  destruct Hd as (x & c & b & Ex & Ec & Eb & ->).
  assert (system_body Cado_AppStateSnapshot (snapshot_of s hash) c) as Hb by (by exists x).
  apply (system_body_decodes Cado_AppStateSnapshot (snapshot_of s hash) c); [exact Hb|].
  apply get_with_object; [|done].
  apply (system_body_storable _ _ (snapshot_of s hash)); [by right|apply snapshot_name_ok|done..].
Qed.

(** The snapshot and the tip do not see the staged cache. *)
Lemma cleared_views e s c hash :
  tip_of (set_envelope (set_cado_cache c e) s) hash = tip_of (set_envelope e s) hash ∧
  snapshot_of (set_envelope (set_cado_cache c e) s) hash = snapshot_of (set_envelope e s) hash.
Proof. done. Qed.

(** The counts are visible in the hashed stream. *)
Lemma failed_counts_visible m :
  m ≠ ∅ → length (hash_failed_counts ∅) ≠ length (hash_failed_counts m).
Proof.
  intros Hm. unfold hash_failed_counts, hash_slice, hash_u64. rewrite !length_app, !le_bytes_length.
  assert (sorted_counts m ≠ []) as Hs.
  { unfold sorted_counts. intros E. apply Hm, map_to_list_empty_iff, Permutation_nil.
    rewrite <- E. apply merge_sort_Permutation. }
  destruct (sorted_counts m) as [|kv l]; [done|]. cbn [map concat].
  unfold hash_u32. rewrite !length_app, le_bytes_length.
  change (sorted_counts ∅) with (@nil (Address * Z)). cbn [map concat length]. lia.
Qed.

(** ** Restart *)

(** The fields a snapshot restores. *)
Definition persistent (s : AppState) :=
  (app_hash s, chain_id s, block_height (envelope s), current_epoch (envelope s),
   committed_cado_cache (envelope s), state_trie (envelope s), epoch_records_index (envelope s),
   namespace_registry_index (envelope s), validators (envelope s), active_validators (envelope s),
   capacity_validators (envelope s), active_capacity_validator (envelope s)).

(** The fields of the block being worked on, in no snapshot. *)
Definition volatile (e : AppStateEnvelope) :=
  (cado_cache e, cado_cache_to_delete e, namespace_registry_cache e, pinboard_meta_cache e,
   pinboard_refcount_deltas e, pinboard_idx_wallet_add e, pinboard_idx_tag_add e,
   pinboard_idx_expiry_add e, pinboard_idx_commit_add e, verified_proof_rewarded_cache e,
   failed_proof_counted_cache e, pending_fee_rewards e).

(** [s] with the failure counts of [s0]. *)
Definition restarted (s0 s : AppState) : AppState :=
  set_envelope (set_failed_proof_counts (failed_proof_counts (envelope s0)) (envelope s)) s.

Lemma restarted_exact s0 s r :
  staging_empty (envelope s) → staging_empty (envelope s0) →
  pending_fee_rewards (envelope s) = pending_fee_rewards (envelope s0) → persistent r = persistent s →
  failed_proof_counts (envelope r) = failed_proof_counts (envelope s0) →
  volatile (envelope r) = volatile (envelope s0) → r = restarted s0 s.
Proof.
  intros Hs H0 Hpe Hp Hf Hv. destruct s as [h e c], s0 as [h0 e0 c0], r as [hr er cr].
  unfold persistent, volatile, restarted, staging_empty in *.
  destruct e, e0, er; cbn in *. destruct_and!. by simplify_eq.
Qed.

Lemma without_infrastructure_id cache :
  (∀ k c, cache !! k = Some c → is_infrastructure_cado_path k = false) →
  without_infrastructure cache = cache.
Proof.
  intros Hi. apply map_filter_id. intros k c Hc. by eapply Hi.
Qed.

Lemma apply_snapshot s hash s0 :
  app_hash s = Some hash → trie_in_step (envelope s) →
  ∃ r, apply_to_state (snapshot_of s hash) (root_hash (state_trie (envelope s))) s0 = Ok r ∧
    persistent r = persistent s ∧
    failed_proof_counts (envelope r) = failed_proof_counts (envelope s0) ∧
    volatile (envelope r) = volatile (envelope s0).
Proof.
  intros Eh [Et Hi]. unfold apply_to_state, snapshot_of.
  cbn [snap_current_epoch snap_block_height snap_committed_cado_cache snap_namespace_registry_index
    snap_epoch_records_index snap_active_validators snap_validators snap_active_capacity_validator
    snap_capacity_validators snap_state_trie_root snap_app_hash snap_chain_id].
  rewrite !(without_infrastructure_id (committed_cado_cache (envelope s))) by done.
  set (e := set_active_capacity_validator _ _).
  assert (state_trie (rebuild_state_trie_from_cache e) = state_trie (envelope s)) as E.
  { by rewrite Et. }
  rewrite E, bool_decide_true by done. cbn [negb]. eexists. split; [reflexivity|].
  unfold persistent. cbn [app_hash chain_id envelope]. rewrite E, Eh. done.
Qed.

(** Between epoch starts the stored snapshot stays. *)
Lemma snapshot_kept db s tx1 tx2 tx3 :
  types_separated → index_wf db →
  (∀ k c, cado_cache (envelope s) !! k = Some c → staged_entry k c) →
  commit_objects (cado_cache (envelope s)) db = (tx1, []) →
  wrote (typed_key Cado_Namespace) tx1 tx2 → wrote (typed_key Cado_AppStateTip) tx2 tx3 →
  let p := eld_path Cado_AppStateSnapshot snapshot_name in
  db_get_cado_by_path tx3 p = db_get_cado_by_path db p.
Proof.
  intros Hsep Hw Hst Eobj [_ W2] [_ W3]. cbv zeta.
  destruct (commit_objects_wrote _ _ _ _ Hw Hst Eobj) as (_ & [_ W1] & _).
  pose proof snapshot_name_ok as Hs. rewrite W3, W2, W1; try done.
  - intros (t & name & c & Hin & Hn & Hk). apply elem_of_map_to_list, Hst in Hin.
    destruct Hin as (t' & name' & Hp & (Ht' & Hn' & _) & Hi).
    destruct (eld_paths_inj _ _ _ _ Hn Hn' Hp) as [-> ->].
    apply Hsep in Hk; try done. by subst t'.
  - intros (name & Hn & Hk). by apply Hsep in Hk.
  - intros (name & Hn & Hk). by apply Hsep in Hk.
Qed.

(** What a restart reads after a commit. *)
Lemma commit_then_reads db s hash s' db' out :
  commit_ready db s → app_hash s = Some hash → types_separated →
  commit protocol db (Some s) = Some (s', db', out) →
  readable_size Cado_AppStateTip (tip_of s' hash) →
  app_hash s' = Some hash ∧ block_height (envelope s') = block_height (envelope s) ∧
  (trie_in_step (envelope s) → trie_in_step (envelope s')) ∧
  get_deserialized_cado_by_path (A := AppStateTip) db' (eld_path Cado_AppStateTip LATEST) =
    Ok (Some (tip_of s' hash)) ∧
  let p := eld_path Cado_AppStateSnapshot snapshot_name in
  if snapshot_due protocol s then
    readable_size Cado_AppStateSnapshot (snapshot_of s' hash) →
    get_deserialized_cado_by_path (A := AppStateSnapshot) db' p = Ok (Some (snapshot_of s' hash))
  else db_get_cado_by_path db' p = db_get_cado_by_path db p.
Proof.
  intros Hready Eh Hsep Ec Hfit. pose proof Hready as [Hw _ Hst _ _].
  destruct (commit_run protocol db s hash Hready Eh)
    as (e2 & tx1 & tx2 & tx3 & db'' & Erun & Hreg & Eobj & Hw2 & Et & Hw3 & Es & Hw4 & _).
  rewrite Ec in Erun. injection Erun as -> -> _.
  destruct (selected_fields protocol s) as (S1 & _ & S3 & S4 & S5 & S6 & _).
  destruct (merged_fields _ _ Hreg) as (M1 & _ & _ & _ & M5 & _).
  unfold merged in *. set (e4 := merge_cache (set_namespace_registry_cache ∅ e2)) in *.
  destruct (cleared_views e4 (selected protocol s) ∅ hash) as [V1 V2].
  change (set_envelope (set_cado_cache ∅ e4) (set_envelope e4 (selected protocol s)))
    with (set_envelope (set_cado_cache ∅ e4) (selected protocol s)) in *.
  rewrite V1, V2 in *. clear V1 V2. cbn [envelope set_envelope].
  assert (app_hash (set_envelope e4 (selected protocol s)) = Some hash) as Eh4.
  { by rewrite app_hash_set_envelope, S1. }
  assert (block_height e4 = block_height (envelope s)) as Eb.
  { rewrite <- S6. by injection M1. }
  split; [by rewrite app_hash_set_envelope, S1|]. split; [exact Eb|]. split; [|split].
  - intros Hs. apply M5. unfold trie_in_step. by rewrite S4, S5.
  - apply (commit_stores_tip _ _ tx2 tx3); try done. exact (wrote_wf _ _ _ Hw2).
  - cbv zeta. assert (snapshot_due protocol (set_envelope e4 (selected protocol s)) =
      snapshot_due protocol s) as Ed by (unfold snapshot_due; cbn [envelope set_envelope]; by rewrite Eb).
    destruct (snapshot_due protocol s).
    + intros Hfit'. apply (commit_stores_snapshot _ _ tx3); try done. exact (wrote_wf _ _ _ Hw3).
    + destruct (commit_snapshot_run protocol _ hash tx3 Eh4 (wrote_wf _ _ _ Hw3))
        as (db3 & Es' & _ & _ & Hd). rewrite Es in Es'. injection Es' as <-. rewrite Ed in Hd.
      subst db''. by apply (snapshot_kept db s tx1 tx2 tx3).
Qed.

Lemma restart_paths :
  CadoPath_new Cado_AppStateTip (Key_Name LATEST) = Ok (eld_path Cado_AppStateTip LATEST) ∧
  AppStateSnapshot_latest_path = Ok (eld_path Cado_AppStateSnapshot snapshot_name).
Proof.
  split; [|apply snapshot_path]. apply system_path; [done|]. by apply latest_name_ok.
Qed.

Lemma restart_run db' s' hash s0 :
  app_hash s' = Some hash → trie_in_step (envelope s') →
  get_deserialized_cado_by_path (A := AppStateTip) db' (eld_path Cado_AppStateTip LATEST) =
    Ok (Some (tip_of s' hash)) →
  get_deserialized_cado_by_path (A := AppStateSnapshot) db'
    (eld_path Cado_AppStateSnapshot snapshot_name) = Ok (Some (snapshot_of s' hash)) →
  ∃ r, initialize_with_data db' s0 = Some (Ok r) ∧ persistent r = persistent s' ∧
    failed_proof_counts (envelope r) = failed_proof_counts (envelope s0) ∧
    volatile (envelope r) = volatile (envelope s0).
Proof.
  intros Eh Hs Et Esn. destruct restart_paths as [P1 P2]. unfold initialize_with_data.
  rewrite P1, Et, P2, Esn. cbv zeta.
  change (snap_block_height (snapshot_of s' hash)) with (block_height (envelope s')).
  change (tip_block_height (tip_of s' hash)) with (block_height (envelope s')).
  change (snap_app_hash (snapshot_of s' hash)) with hash.
  change (tip_app_hash (tip_of s' hash)) with hash.
  change (tip_cado_root_hash (tip_of s' hash)) with (root_hash (state_trie (envelope s'))).
  rewrite Z.eqb_refl, bool_decide_true by done. cbn [negb].
  match goal with |- context [apply_to_state _ _ ?x] =>
    destruct (apply_snapshot s' hash x Eh Hs) as (r & -> & Hp & Hf & Hc) end.
  by exists r.
Qed.

(** ** Properties *)

(** C9. A node that starts with nothing staged, after a commit of an epoch's
    first block whose tip and snapshot objects are small enough to be read back,
    is in the committed state, the same hash, chain id, height, epoch, objects,
    trie, registries, validators and providers, and nothing staged, in every
    field but one: the failure counts of the providers are in no snapshot and
    are those the node started with.  (The pending fee rewards, which no code
    writes, are the same on both sides.) *)
Theorem restart_restores_commit (db db' : Database) (s s' s0 : AppState) (hash : byte_array 32)
    (out : bytes) :
  commit_ready db s → app_hash s = Some hash → types_separated → trie_in_step (envelope s) →
  commit protocol db (Some s) = Some (s', db', out) →
  Z.rem (block_height (envelope s)) (blocks_per_epoch protocol) = 0 →
  readable_size Cado_AppStateTip (tip_of s' hash) →
  readable_size Cado_AppStateSnapshot (snapshot_of s' hash) →
  staging_empty (envelope s0) →
  pending_fee_rewards (envelope s') = pending_fee_rewards (envelope s0) →
  initialize_with_data db' s0 = Some (Ok (restarted s0 s')).
Proof.
  intros Hready Eh Hsep Htr Ec Hdue Hf1 Hf2 H0 Hpe.
  destruct (commit_then_reads db s hash s' db' out Hready Eh Hsep Ec Hf1)
    as (Eh' & _ & Htr' & Et & Hs). unfold snapshot_due in Hs. rewrite Hdue in Hs.
  destruct (restart_run db' s' hash s0 Eh' (Htr' Htr) Et (Hs Hf2)) as (r & Er & Hp & Hf & Hv).
  rewrite Er. do 2 f_equal. apply restarted_exact; [|done..].
  by eapply (commit_cleared protocol db s).
Qed.

(** C39. A node restarted after any other commit stops: the stored snapshot is
    of an earlier height than the tip, which start-up treats as fatal. *)
Theorem restart_mid_epoch_fatal (db db' : Database) (s s' s0 : AppState) (hash : byte_array 32)
    (out : bytes) :
  commit_ready db s → app_hash s = Some hash → types_separated →
  commit protocol db (Some s) = Some (s', db', out) →
  Z.rem (block_height (envelope s)) (blocks_per_epoch protocol) ≠ 0 →
  (∀ old, get_deserialized_cado_by_path (A := AppStateSnapshot) db
            (eld_path Cado_AppStateSnapshot snapshot_name) = Ok (Some old) →
     snap_block_height old < block_height (envelope s)) →
  readable_size Cado_AppStateTip (tip_of s' hash) →
  initialize_with_data db' s0 = None.
Proof.
  intros Hready Eh Hsep Ec Hdue Hold Hf1.
  destruct (commit_then_reads db s hash s' db' out Hready Eh Hsep Ec Hf1)
    as (_ & Eb & _ & Et & Hs). unfold snapshot_due in Hs.
  destruct (Z.eqb_spec (Z.rem (block_height (envelope s)) (blocks_per_epoch protocol)) 0); [done|].
  destruct restart_paths as [P1 P2]. unfold initialize_with_data. rewrite P1, Et, P2. cbv zeta.
  unfold get_deserialized_cado_by_path in Hold |- *. rewrite Hs.
  destruct (db_get_cado_by_path db _) as [[c|]|]; [|done..].
  destruct (bin_deserialize (CadoBody_data c)) as [old|]; [|done]. cbn [ok_or] in Hold |- *.
  specialize (Hold old eq_refl). cbn [tip_block_height tip_of].
  destruct (Z.eqb_spec (snap_block_height old) (block_height (envelope s'))); [lia|done].
Qed.

(** The failure counts of providers are part of the application hash but
    not of the snapshot: a fresh node restarted where a provider has failed a
    challenge hashes another byte stream than the nodes that kept running. *)
Theorem restart_forgets_failures (db db' : Database) (s s' s0 : AppState) (hash : byte_array 32)
    (out : bytes) :
  commit_ready db s → app_hash s = Some hash → types_separated → trie_in_step (envelope s) →
  commit protocol db (Some s) = Some (s', db', out) →
  Z.rem (block_height (envelope s)) (blocks_per_epoch protocol) = 0 →
  readable_size Cado_AppStateTip (tip_of s' hash) →
  readable_size Cado_AppStateSnapshot (snapshot_of s' hash) →
  failed_proof_counts (envelope s') ≠ ∅ → failed_proof_counts (envelope s0) = ∅ →
  ∃ r, initialize_with_data db' s0 = Some (Ok r) ∧
    envelope_hash_stream (envelope r) ≠ envelope_hash_stream (envelope s').
Proof.
  intros Hready Eh Hsep Htr Ec Hdue Hf1 Hf2 Hne H0.
  destruct (commit_then_reads db s hash s' db' out Hready Eh Hsep Ec Hf1)
    as (Eh' & _ & Htr' & Et & Hs). unfold snapshot_due in Hs. rewrite Hdue in Hs.
  destruct (restart_run db' s' hash s0 Eh' (Htr' Htr) Et (Hs Hf2)) as (r & Er & Hp & Hf & _).
  exists r. split; [exact Er|]. injection Hp as _ _ P1 P2 _ P3 _ _ P4 P5 P6 P7.
  unfold envelope_hash_stream. rewrite P1, P2, P3, P4, P5, P6, P7, Hf, H0.
  do 7 (intros E%app_inv_head; revert E). intros E%(f_equal length). revert E. by apply failed_counts_visible.
Qed.
End restart.

(** ** Witnesses *)

(** The last block before and the first block of an epoch, with a failure
    counted. *)
Definition test_block (height : Z) : AppState :=
  mkAppState (Some test_key)
    (set_failed_proof_counts {[test_sender := 1]}
      (set_current_epoch 1 (set_block_height height envelope_default))) "eld".

Definition test_system_body (t : CadoType) : CadoBody :=
  CadoBody_immutable [Init.Byte.x00] (CADOMetadata_new t "system").

(** Codecs with short codes for the tip and the snapshot of that block. *)
Definition test_restart_codecs (height : Z) : SnapshotCodecs := {|
  tip_codec := shortcut_bincode (tip_of (T := ref_trie) (test_block height) test_key)
                 (countable_bincode AppStateTip);
  snapshot_codec := shortcut_bincode (snapshot_of (T := ref_trie) (test_block height) test_key)
                      (countable_bincode AppStateSnapshot);
  body_codec := shortcut_bincode (test_system_body Cado_AppStateTip)
                  (shortcut_bincode (test_system_body Cado_AppStateSnapshot)
                     (countable_bincode CadoBody));
|}.

Lemma test_restart_laws height : SnapshotCodecsLaws (test_restart_codecs height).
Proof. constructor; repeat apply shortcut_bincode_laws; apply countable_bincode_laws. Qed.

Lemma test_block_views height :
  height = 20 ∨ height = 21 →
  match commit (SC := test_restart_codecs height) (T := ref_trie) local_dev empty_database
          (Some (test_block height)) with
  | Some (s', _, _) =>
      bool_decide (tip_of (T := ref_trie) s' test_key =
                   tip_of (T := ref_trie) (test_block height) test_key) &&
      bool_decide (snapshot_of (T := ref_trie) s' test_key =
                   snapshot_of (T := ref_trie) (test_block height) test_key) &&
      bool_decide (failed_proof_counts (envelope s') ≠ ∅)
  | None => false
  end = true.
Proof. intros [->| ->]; vm_compute; reflexivity. Qed.

Lemma test_block_commits height :
  height = 20 ∨ height = 21 →
  ∃ s' db' out,
    commit (SC := test_restart_codecs height) (T := ref_trie) local_dev empty_database
      (Some (test_block height)) = Some (s', db', out) ∧
    readable_size (SC := test_restart_codecs height)
      (H0 := tip_codec (SnapshotCodecs := test_restart_codecs height))
      Cado_AppStateTip (tip_of (T := ref_trie) s' test_key) ∧
    readable_size (SC := test_restart_codecs height)
      (H0 := snapshot_codec (SnapshotCodecs := test_restart_codecs height))
      Cado_AppStateSnapshot (snapshot_of (T := ref_trie) s' test_key) ∧
    failed_proof_counts (envelope s') ≠ ∅.
Proof.
  intros Hh. pose proof (test_block_views height Hh) as Hv.
  destruct (commit _ _ _) as [[[s' db'] out]|]; [|done].
  apply andb_prop in Hv as [Hv Hf]. apply andb_prop in Hv as [Ht Hs].
  apply bool_decide_eq_true in Ht, Hs, Hf. exists s', db', out. split; [done|].
  rewrite Ht, Hs. split; [|split; [|done]].
  - intros c b (x & Ex & ->) Eb. cbn [bin_serialize tip_codec test_restart_codecs shortcut_bincode] in Ex.
    rewrite bool_decide_true in Ex by done. injection Ex as <-.
    destruct Hh as [->| ->]; vm_compute in Eb; injection Eb as <-; by vm_compute.
  - intros c b (x & Ex & ->) Eb.
    cbn [bin_serialize snapshot_codec test_restart_codecs shortcut_bincode] in Ex.
    rewrite bool_decide_true in Ex by done. injection Ex as <-.
    destruct Hh as [->| ->]; vm_compute in Eb; injection Eb as <-; by vm_compute.
Qed.

Lemma test_block_pending :
  match commit (SC := test_restart_codecs 20) (T := ref_trie) local_dev empty_database
          (Some (test_block 20)) with
  | Some (s', _, _) => pending_fee_rewards (envelope s') = pending_fee_rewards envelope_default
  | None => False
  end.
Proof. vm_compute. reflexivity. Qed.

Lemma test_block_ready height :
  commit_ready (SC := test_restart_codecs height) empty_database (test_block height).
Proof. by constructor. Qed.

Lemma test_block_trie height : trie_in_step (envelope (test_block height)).
Proof. by split. Qed.

Lemma restart_restores_commit_witness :
  ∃ s' db' out,
    commit (SC := test_restart_codecs 20) (T := ref_trie) local_dev empty_database
      (Some (test_block 20)) = Some (s', db', out) ∧
    initialize_with_data (SC := test_restart_codecs 20) (T := ref_trie) db'
      (mkAppState None envelope_default "") =
      Some (Ok (restarted (mkAppState None envelope_default "") s')).
Proof.
  destruct (test_block_commits 20 ltac:(by left)) as (s' & db' & out & E & F1 & F2 & _).
  exists s', db', out. split; [exact E|].
  apply (restart_restores_commit (SC := test_restart_codecs 20) (SL := test_restart_laws 20)
    (T := ref_trie) local_dev empty_database db' (test_block 20) s'
    (mkAppState None envelope_default "") test_key out (test_block_ready 20) eq_refl
    ref_types_separated (test_block_trie 20) E eq_refl F1 F2); [repeat split; reflexivity|].
  pose proof test_block_pending as Hpe. rewrite E in Hpe. exact Hpe.
Defined.

Lemma restart_mid_epoch_fatal_witness :
  ∃ s' db' out,
    commit (SC := test_restart_codecs 21) (T := ref_trie) local_dev empty_database
      (Some (test_block 21)) = Some (s', db', out) ∧
    initialize_with_data (SC := test_restart_codecs 21) (T := ref_trie) db'
      (mkAppState None envelope_default "") = None.
Proof.
  destruct (test_block_commits 21 ltac:(by right)) as (s' & db' & out & E & F1 & _).
  exists s', db', out. split; [exact E|].
  apply (restart_mid_epoch_fatal (SC := test_restart_codecs 21) (SL := test_restart_laws 21)
    (T := ref_trie) local_dev empty_database db' (test_block 21) s'
    (mkAppState None envelope_default "") test_key out (test_block_ready 21) eq_refl
    ref_types_separated E); [discriminate| |exact F1].
  intros old Hold. vm_compute in Hold. discriminate.
Defined.

Lemma restart_forgets_failures_witness :
  ∃ s' db' out r,
    commit (SC := test_restart_codecs 20) (T := ref_trie) local_dev empty_database
      (Some (test_block 20)) = Some (s', db', out) ∧
    initialize_with_data (SC := test_restart_codecs 20) (T := ref_trie) db'
      (mkAppState None envelope_default "") = Some (Ok r) ∧
    envelope_hash_stream (T := ref_trie) (envelope r) ≠
      envelope_hash_stream (T := ref_trie) (envelope s').
Proof.
  destruct (test_block_commits 20 ltac:(by left)) as (s' & db' & out & E & F1 & F2 & Hne).
  destruct (restart_forgets_failures (SC := test_restart_codecs 20) (SL := test_restart_laws 20)
    (T := ref_trie) local_dev empty_database db' (test_block 20) s'
    (mkAppState None envelope_default "") test_key out (test_block_ready 20) eq_refl
    ref_types_separated (test_block_trie 20) E eq_refl F1 F2 Hne eq_refl) as (r & Er & Hs).
  exists s', db', out, r. split; [exact E|]. split; [exact Er|exact Hs].
Defined.
