(* ===== verification/StateRoot.v ===== *)
(** What the state root binds: the trie of commit.rs stores the original digest
    of a mutable object (common/src/cado.rs, [content_hash]), so rewriting an
    account leaves it as it was. *)
From S2P Require Import Prelude Externals Reference Coins Address Ordering Namespace Cado Records Tx Merkle Fee Pinboard AppState Ledger Processors VerifiedProof Storage Snapshot Epoch Commit.

Section state_root.
Context {H : HexCrate} {HL : HexLaws H} {HC : HashCrates} {C : RecordCodecs}
  {CL : RecordCodecsLaws C} {R : RandCrate} {T : TrieCrate} (rd : StorageReads).

(** Every staged object has the digest the trie already holds for its path. *)
Definition digests_kept (trie : StateTrie) (staged : gmap string CadoBody) : Prop :=
  ∀ k c, staged !! k = Some c → trie !! k = Some (content_hash c).

Lemma digests_kept_insert trie staged k c :
  digests_kept trie staged → trie !! k = Some (content_hash c) →
  digests_kept trie (<[k := c]> staged).
Proof.
  intros Hd Hk k' c'. rewrite lookup_insert_Some. intros [[<- <-]|[_ Hc]]; [done|by apply Hd].
Qed.

Lemma merge_keeps_trie e :
  digests_kept (state_trie e) (cado_cache e) → state_trie (merge_cache e) = state_trie e.
Proof.
  intros Hd. destruct (merge_cache_spec e) as [idx ->].
  cbn [state_trie set_state_trie]. apply map_eq. intros k. rewrite lookup_union, lookup_fmap.
  unfold without_infrastructure. destruct (filter _ (cado_cache e) !! k) as [c|] eqn:E.
  - apply map_lookup_filter_Some in E as [E _]. cbn [fmap option_fmap option_map].
    rewrite (Hd _ _ E). done.
  - cbn [fmap option_fmap option_map]. by rewrite left_id by apply _.
Qed.

(** A committed account and the digest it was first stored with. *)
Definition committed_account (e : AppStateEnvelope) (a : Address) (h : byte_array 32) : Prop :=
  ∃ m, committed_cado_cache e !! cp_path (account_path a) = Some (Mutable m) ∧ cadomut_hash m = h.

Lemma committed_account_at e a h acc h' :
  cado_cache e !! cp_path (account_path a) = None → committed_account e a h →
  account_at rd e a = Some (acc, h') → h' = h.
Proof.
  intros Hn (m & Hc & <-). unfold account_at, get_account_from_cado,
    lookup_cado_staged_committed_then_db. rewrite Hn, Hc.
  destruct (safe_deserialize_account_data _); [|done]. by intros [= _ <-].
Qed.

Lemma committed_account_trie e a h :
  trie_in_step e → committed_account e a h → state_trie e !! cp_path (account_path a) = Some h.
Proof. intros [-> _] (m & Hc & <-). by rewrite lookup_fmap, Hc. Qed.

Lemma hash_of_carried e e' :
  carried e' = carried e → state_trie e' = state_trie e → calculate_app_hash e' = calculate_app_hash e.
Proof.
  intros [= E1 E2 E3 E4 E5 E6 E7 _] E. unfold calculate_app_hash, envelope_hash_stream.
  by rewrite E1, E2, E3, E4, E5, E6, E7, E.
Qed.

(** An envelope that only restages committed accounts under their digests. *)
Definition restaged (e e' : AppStateEnvelope) : Prop :=
  carried e' = carried e ∧ state_trie e' = state_trie e ∧ digests_kept (state_trie e) (cado_cache e').

Lemma restaged_hash e e' :
  restaged e e' →
  state_trie (merge_cache e') = state_trie e ∧ calculate_app_hash (merge_cache e') = calculate_app_hash e.
Proof.
  intros (Hc & Ht & Hd). assert (state_trie (merge_cache e') = state_trie e) as E.
  { rewrite <- Ht. apply merge_keeps_trie. by rewrite Ht. }
  split; [exact E|]. apply hash_of_carried; [|exact E].
  destruct (merge_cache_fields e') as [-> _]. exact Hc.
Qed.

Lemma restaged_with_account e e' a h acc :
  restaged e e' → state_trie e !! cp_path (account_path a) = Some h →
  restaged e (with_account a h acc e').
Proof.
  intros (Hc & Ht & Hd) Hh. split; [exact Hc|]. split; [exact Ht|].
  unfold with_account. cbn [cado_cache set_cado_cache]. by apply digests_kept_insert.
Qed.

(** ** Properties *)

(** C40. A successful transfer between two committed accounts moves the amount
    and leaves the trie the commit will store, its root, and the application
    hash as they were: the hash the validators agree on does not bind account
    balances. *)
Theorem transfer_leaves_app_hash (e e' : AppStateEnvelope) (t : TransferTx)
    (resp : ResponseDeliverTx) (hs hr : byte_array 32) :
  let s := transfer_sender t in
  let r := transfer_recipient t in
  ledger_wf rd e → TransferTx_new s r (transfer_amount t) = Ok t → 0 < transfer_amount t →
  trie_in_step e → cado_cache e = ∅ → committed_account e s hs → committed_account e r hr →
  is_Some (account_at rd e r) →
  run (process_transfer_tx rd t) e = Some (resp, e') → resp_code resp = 0 →
  balance_of rd e' s = balance_of rd e s - transfer_amount t ∧
  state_trie (merge_cache e') = state_trie e ∧
  calculate_app_hash (merge_cache e') = calculate_app_hash e.
Proof.
  intros s r Hwf Hv Hn Htr Hempty Hs Hr [[racc rh] Era] Hrun Hok.
  pose proof (transfer_moves rd e t resp e' Hwf Hv ltac:(lia) Hrun) as Hm. rewrite Hok in Hm.
  destruct Hm as (_ & Hb & _). split.
  { rewrite Hb. unfold delta. fold s r. rewrite bool_decide_true by done.
    pose proof Hv as (_ & Hsr & _)%TransferTx_new_Ok. rewrite bool_decide_false by done. lia. }
  pose proof Hv as (_ & Hsr & Hn0 & HnM)%TransferTx_new_Ok.
  pose proof (transfer_cases rd e t Hwf ltac:(lia)) as Hc. cbv zeta in Hc. fold s r in Hc.
  destruct (account_at rd e s) as [[acc h]|] eqn:Es; [|rewrite Hrun in Hc; by injection Hc as ->].
  destruct (_ <? transfer_amount t); [rewrite Hrun in Hc; by injection Hc as ->|].
  destruct (MAX_COIN <? _); [rewrite Hrun in Hc; by injection Hc as ->|].
  destruct Hc as [ev Hc]. rewrite Hrun in Hc. injection Hc as _ ->.
  unfold account_or_fresh. fold r. rewrite Era. cbn [default fst snd].
  assert (∀ a, cado_cache e !! cp_path (account_path a) = None) as Hnone.
  { intros a. by rewrite Hempty. }
  pose proof (committed_account_at e s hs acc h (Hnone s) Hs Es) as ->.
  pose proof (committed_account_at e r hr racc rh (Hnone r) Hr Era) as ->.
  apply restaged_hash. repeat apply restaged_with_account; try by apply committed_account_trie.
  split; [done|]. split; [done|]. intros k c Hk. by rewrite Hempty in Hk.
Qed.
End state_root.

(** ** Witnesses *)

(** Two accounts, committed. *)
Definition test_staged_env : AppStateEnvelope :=
  with_account test_recipient zero_hash (mkAccount test_recipient (mkCoin 5) (mkNonce 0)) test_env.

Definition test_committed_env : AppStateEnvelope :=
  set_state_trie (content_hash <$> cado_cache test_staged_env)
    (set_committed_cado_cache (cado_cache test_staged_env) envelope_default).

Lemma test_committed_lookup p :
  lookup_cado_staged_committed_then_db rd0 test_committed_env p =
  lookup_cado_staged_committed_then_db rd0 test_staged_env p.
Proof.
  unfold lookup_cado_staged_committed_then_db.
  change (cado_cache test_committed_env) with (∅ : gmap string CadoBody).
  change (committed_cado_cache test_committed_env) with (cado_cache test_staged_env).
  change (committed_cado_cache test_staged_env) with (∅ : gmap string CadoBody).
  rewrite !lookup_empty. by destruct (cado_cache test_staged_env !! _).
Qed.

Lemma test_committed_env_wf : ledger_wf rd0 test_committed_env.
Proof.
  assert (ledger_wf rd0 test_staged_env) as [Ha Hs].
  { apply ledger_wf_with_account; [apply test_env_wf| |done]. split; split; simpl; discriminate. }
  split; intros a x h; unfold account_at, staking_at, get_account_from_cado,
    get_staking_account_from_cado; rewrite test_committed_lookup; [apply Ha|apply Hs].
Qed.

Lemma test_committed_env_trie : trie_in_step test_committed_env.
Proof.
  split; [done|]. intros k c Hk. change (committed_cado_cache test_committed_env)
    with (cado_cache test_staged_env) in Hk. unfold test_staged_env, test_env, with_account in Hk.
  cbn [cado_cache set_cado_cache] in Hk.
  apply lookup_insert_Some in Hk as [[<- _]|[_ Hk]]; [by vm_compute|].
  apply lookup_insert_Some in Hk as [[<- _]|[_ Hk]]; [by vm_compute|done].
Qed.

Lemma transfer_leaves_app_hash_witness :
  ∃ resp e',
    run (process_transfer_tx rd0 (mkTransferTx test_sender test_recipient 250)) test_committed_env =
      Some (resp, e') ∧
    balance_of rd0 e' test_sender = 99750 ∧
    calculate_app_hash (T := ref_trie) (merge_cache e') =
      calculate_app_hash (T := ref_trie) test_committed_env.
Proof.
  destruct (run (process_transfer_tx rd0 (mkTransferTx test_sender test_recipient 250))
    test_committed_env) as [[resp e']|] eqn:Er; [|by vm_compute in Er].
  exists resp, e'. split; [done|].
  destruct (transfer_leaves_app_hash (T := ref_trie) rd0 test_committed_env e'
    (mkTransferTx test_sender test_recipient 250) resp zero_hash zero_hash test_committed_env_wf)
    as (Hb & _ & Hh).
  - by vm_compute.
  - by vm_compute.
  - exact test_committed_env_trie.
  - done.
  - eexists. split; [vm_compute; reflexivity|done].
  - eexists. split; [vm_compute; reflexivity|done].
  - eexists. vm_compute. reflexivity.
  - exact Er.
  - assert (match run (process_transfer_tx rd0 (mkTransferTx test_sender test_recipient 250))
      test_committed_env with Some (r, _) => resp_code r = 0 | None => False end) as Hr
      by (vm_compute; reflexivity). by rewrite Er in Hr.
  - split; [|exact Hh]. etransitivity; [exact Hb|by vm_compute].
Defined.
