(* ===== verification/Slots.v ===== *)
(** Local capacity of a provider: the slot map and the capacity file
    (common/src/capacity/slot_allocator.rs) and the capacity manager over them
    (node_app/src/capacity/capacity_manager: allocation.rs, hashing.rs,
    merkle.rs, slot_io.rs, proofs.rs, mod.rs).

    The capacity file is its bytes; reads and writes of the disk succeed.  The
    slot map and the content map are kept on disk as JSON text, read back by
    the next start.  The transaction that publishes a new root is sent by the
    client and its outcome is only logged. *)
From S2P Require Import Prelude F64 Externals Reference Coins Address Namespace Cado Records Tx Merkle.

Definition MAX_CHUNK_SIZE : nat := 1024.

(** ** Data *)

Record Slot : Type := mkSlot {
  slot_offset : nat;
  slot_size : nat;
  slot_state : SlotState;
}.

Record SlotMap : Type := mkSlotMap {
  sm_slots : list Slot;
  sm_capacity_bytes : nat;
  sm_seed : byte_array 32;
  sm_provider_id : Address;
}.

(** content_id -> (slot_index, actual_size) pairs *)
Abbreviation ContentSlotMap := (gmap string (list (nat * nat))).

(** serde_json on the two files. *)
Class SlotJson : Type := {
  slot_map_to_json : SlotMap → string;
  slot_map_from_json : string → option SlotMap;
  content_map_to_json : ContentSlotMap → string;
  content_map_from_json : string → option ContentSlotMap;
}.

Class SlotJsonLaws (J : SlotJson) : Prop := {
  slot_map_json m : slot_map_from_json (slot_map_to_json m) = Some m;
  content_map_json m : content_map_from_json (content_map_to_json m) = Some m;
}.

(** The extendable output of BLAKE3, as many bytes as asked for. *)
Class Blake3Xof : Type := { blake3_xof : bytes → nat → bytes }.

Class Blake3XofLaws (X : Blake3Xof) : Prop := {
  blake3_xof_length b n : length (blake3_xof b n) = n;
}.

(** [CapacityManager] with its [SlotAllocator] and its files. *)
Record CapacityManager : Type := mkCapacityManager {
  cm_provider_id : Address;
  cm_slot_map : option SlotMap;
  cm_content_slot_map : ContentSlotMap;
  cm_merkle_tree : option CapacityProofMerkleTree;
  cm_initialized : bool;
  file_capacity : option bytes;
  file_slots : option string;
  file_content_map : option string;
}.

Definition set_slot_map (m : option SlotMap) (s : CapacityManager) : CapacityManager :=
  mkCapacityManager (cm_provider_id s) m (cm_content_slot_map s) (cm_merkle_tree s)
    (cm_initialized s) (file_capacity s) (file_slots s) (file_content_map s).
Definition set_content_slot_map (m : ContentSlotMap) (s : CapacityManager) : CapacityManager :=
  mkCapacityManager (cm_provider_id s) (cm_slot_map s) m (cm_merkle_tree s)
    (cm_initialized s) (file_capacity s) (file_slots s) (file_content_map s).
Definition set_merkle_tree (t : option CapacityProofMerkleTree) (s : CapacityManager) : CapacityManager :=
  mkCapacityManager (cm_provider_id s) (cm_slot_map s) (cm_content_slot_map s) t
    (cm_initialized s) (file_capacity s) (file_slots s) (file_content_map s).
Definition set_initialized (b : bool) (s : CapacityManager) : CapacityManager :=
  mkCapacityManager (cm_provider_id s) (cm_slot_map s) (cm_content_slot_map s) (cm_merkle_tree s)
    b (file_capacity s) (file_slots s) (file_content_map s).
Definition set_file_capacity (f : option bytes) (s : CapacityManager) : CapacityManager :=
  mkCapacityManager (cm_provider_id s) (cm_slot_map s) (cm_content_slot_map s) (cm_merkle_tree s)
    (cm_initialized s) f (file_slots s) (file_content_map s).
Definition set_file_slots (f : option string) (s : CapacityManager) : CapacityManager :=
  mkCapacityManager (cm_provider_id s) (cm_slot_map s) (cm_content_slot_map s) (cm_merkle_tree s)
    (cm_initialized s) (file_capacity s) f (file_content_map s).
Definition set_file_content_map (f : option string) (s : CapacityManager) : CapacityManager :=
  mkCapacityManager (cm_provider_id s) (cm_slot_map s) (cm_content_slot_map s) (cm_merkle_tree s)
    (cm_initialized s) (file_capacity s) (file_slots s) f.

(** ** Operations that may fail after changing the state *)

Definition cm (A : Type) : Type := CapacityManager → eld_result A * CapacityManager.

#[export] Instance cm_ret : MRet cm := λ A a s, (Ok a, s).
#[export] Instance cm_bind : MBind cm := λ A B f m s,
  match m s with
  | (Ok a, s) => f a s
  | (Err e, s) => (Err e, s)
  end.

Definition cm_get : cm CapacityManager := λ s, (Ok s, s).
Definition cm_modify (f : CapacityManager → CapacityManager) : cm unit := λ s, (Ok tt, f s).
Definition cm_lift {A} (r : eld_result A) : cm A := λ s, (r, s).

(** [unwrap_or_else] with a log. *)
Definition cm_ignore (m : cm unit) : cm unit := λ s, (Ok tt, (m s).2).

(** ** Files *)

Definition zeros (n : nat) : bytes := replicate n Init.Byte.x00.

(** Seek and [write_all]: a write past the end fills the gap with zeros. *)
Definition write_at (f : bytes) (off : nat) (d : bytes) : bytes :=
  take off (f ++ zeros (off - length f)) ++ d ++ drop (off + length d) f.

(** Seek and [read_exact]. *)
Definition read_at (f : bytes) (off n : nat) : option bytes :=
  if (off + n <=? length f)%nat then Some (take n (drop off f)) else None.

(** [Vec::resize] with zeros. *)
Definition resize (d : bytes) (n : nat) : bytes := take n d ++ zeros (n - length d).

Section slots.
Context {H : HexCrate} {HC : HashCrates} {X : Blake3Xof} {J : SlotJson}.

(** ** slot_allocator.rs *)

Definition slot_map_exists (s : CapacityManager) : bool :=
  match file_slots s with Some _ => true | None => false end.

Definition slot_map_ref (s : CapacityManager) : eld_result SlotMap :=
  ok_or (cm_slot_map s) (StorageError "slot_map_ref").

Definition load_content_slot_map : cm unit :=
  s ← cm_get;
  match file_content_map s with
  | None => cm_lift (Err (StorageError "load_content_slot_map"))
  | Some json =>
      m ← cm_lift (ok_or (content_map_from_json json) (StorageError "load_content_slot_map"));
      cm_modify (set_content_slot_map m)
  end.

Definition save_content_slot_map : cm unit :=
  cm_modify (λ s, set_file_content_map (Some (content_map_to_json (cm_content_slot_map s))) s).

(** A missing or invalid content map leaves the map as it is. *)
Definition load_slot_map : cm unit :=
  s ← cm_get;
  match file_slots s with
  | None => cm_lift (Err (StorageError "load_slot_map"))
  | Some json =>
      m ← cm_lift (ok_or (slot_map_from_json json) (StorageError "deserialize_slot_map"));
      _ ← cm_modify (set_slot_map (Some m));
      cm_ignore load_content_slot_map
  end.

Definition save_slot_map : cm unit :=
  s ← cm_get;
  m ← cm_lift (slot_map_ref s);
  cm_modify (set_file_slots (Some (slot_map_to_json m))).

Definition is_open (s : Slot) : bool :=
  match slot_state s with Slot_Open => true | _ => false end.

(** The loop of [find_open_slots]. *)
Fixpoint collect_open (slots : list Slot) (idx need : nat) (open_slots : list nat) : list nat :=
  match slots with
  | [] => open_slots
  | s :: slots =>
      if is_open s then
        let open_slots := open_slots ++ [idx] in
        if (need <=? length open_slots)%nat then open_slots
        else collect_open slots (S idx) need open_slots
      else collect_open slots (S idx) need open_slots
  end.

Definition find_open_slots (num_slots_needed : nat) (s : CapacityManager) : eld_result (list nat) :=
  let? m := slot_map_ref s in
  let open_slots := collect_open (sm_slots m) 0 num_slots_needed [] in
  if (length open_slots <? num_slots_needed)%nat then Err (StorageError "find_open_slots")
  else Ok open_slots.

(** Sets the state of one slot; an index out of bounds is an error. *)
Definition set_slot_state (op : string) (idx : nat) (state : SlotState) : cm unit :=
  s ← cm_get;
  m ← cm_lift (slot_map_ref s);
  match sm_slots m !! idx with
  | None => cm_lift (Err (StorageError op))
  | Some slot =>
      cm_modify (set_slot_map (Some (mkSlotMap
        (<[idx := mkSlot (slot_offset slot) (slot_size slot) state]> (sm_slots m))
        (sm_capacity_bytes m) (sm_seed m) (sm_provider_id m))))
  end.

Fixpoint set_slot_states (op : string) (l : list (nat * nat)) (state : SlotState) : cm unit :=
  match l with
  | [] => s ← cm_get; _ ← cm_lift (slot_map_ref s); mret tt
  | (idx, _) :: l => _ ← set_slot_state op idx state; set_slot_states op l state
  end.

Definition mark_slots_as_content (slot_sizes : list (nat * nat)) (deal_id : string)
    (committed_hash : byte_array 32) : cm unit :=
  _ ← set_slot_states "mark_slots_as_content" slot_sizes (Slot_Content deal_id committed_hash);
  _ ← cm_modify (λ s, set_content_slot_map (<[deal_id := slot_sizes]> (cm_content_slot_map s)) s);
  save_content_slot_map.

Definition find_slots_by_content_id (content_id : string) (s : CapacityManager) :
    eld_result (list (nat * nat)) :=
  ok_or (cm_content_slot_map s !! content_id) (NotFoundError "content_id_not_in_slot_map" content_id).

Definition remove_content_by_id (content_id : string) : cm (list (nat * nat)) :=
  s ← cm_get;
  slot_sizes ← cm_lift (find_slots_by_content_id content_id s);
  _ ← set_slot_states "remove_content_by_id" slot_sizes Slot_Open;
  _ ← cm_modify (λ s, set_content_slot_map (delete content_id (cm_content_slot_map s)) s);
  _ ← save_content_slot_map;
  mret slot_sizes.

Definition write_chunk_to_slot (slot_index : nat) (data : bytes) : cm hash32 :=
  s ← cm_get;
  m ← cm_lift (slot_map_ref s);
  slot ← cm_lift (ok_or (sm_slots m !! slot_index) (StorageError "write_chunk_to_slot"));
  if (slot_size slot <? length data)%nat then cm_lift (Err (StorageError "write_chunk_to_slot"))
  else
    let chunk_data := resize data (slot_size slot) in
    f ← cm_lift (ok_or (file_capacity s) (StorageError "write_chunk_to_slot"));
    _ ← cm_modify (set_file_capacity (Some (write_at f (slot_offset slot) chunk_data)));
    mret (hash_chunk chunk_data).

Definition read_chunk_from_slot (slot_index : nat) (s : CapacityManager) : eld_result bytes :=
  let? m := slot_map_ref s in
  let? slot := ok_or (sm_slots m !! slot_index) (StorageError "read_chunk_from_slot") in
  let? f := ok_or (file_capacity s) (StorageError "read_chunk_from_slot") in
  ok_or (read_at f (slot_offset slot) (slot_size slot)) (StorageError "read_chunk_from_slot").

(** ** hashing.rs *)

(** The bytes fed to a deterministic BLAKE3 hasher before the index. *)
Definition create_deterministic_hasher (prefix : string) (seed : byte_array 32)
    (provider_id : Address) : bytes :=
  as_bytes prefix ++ vec_to_list seed ++ as_bytes (hex_with_prefix provider_id).

Definition usize_le_bytes (n : nat) : bytes := le_bytes 8 (Z.of_nat n).

Definition generate_chunk_data (provider_id : Address) (seed : byte_array 32) (chunk_index : nat) :
    bytes :=
  blake3_xof (create_deterministic_hasher "CAPACITY_PROOF" seed provider_id
                ++ usize_le_bytes chunk_index) MAX_CHUNK_SIZE.

(** The first eight bytes of a digest as a little-endian integer. *)
Definition digest_u64 (h : byte_array 32) : Z := le_value (take 8 (vec_to_list h)).

(** ** merkle.rs *)

(** The leaf of one slot; content is read from the file.  [None] is the panic
    of the slice of a proof slot longer than its generated chunk. *)
Definition slot_leaf (m : SlotMap) (f : option bytes) (chunk_index : nat) (slot : Slot) :
    option (eld_result hash32) :=
  match slot_state slot with
  | Slot_Proof =>
      let chunk_data := generate_chunk_data (sm_provider_id m) (sm_seed m) chunk_index in
      if (length chunk_data <? slot_size slot)%nat then None
      else Some (Ok (hash_chunk (take (slot_size slot) chunk_data)))
  | Slot_Open => Some (Ok (hash_chunk (zeros (slot_size slot))))
  | Slot_Content _ _ => Some (
      let? f := ok_or f (StorageError "build_merkle_tree") in
      let? chunk_data := ok_or (read_at f (slot_offset slot) (slot_size slot))
                           (StorageError "build_merkle_tree") in
      Ok (hash_chunk chunk_data))
  end.

Fixpoint slot_leaves (m : SlotMap) (f : option bytes) (chunk_index : nat) (slots : list Slot) :
    option (eld_result (list hash32)) :=
  match slots with
  | [] => Some (Ok [])
  | slot :: slots =>
      r ← slot_leaf m f chunk_index slot;
      match r with
      | Err e => Some (Err e)
      | Ok h =>
          r ← slot_leaves m f (S chunk_index) slots;
          Some (let? hs := r in Ok (h :: hs))
      end
  end.

(** [None] is a panic: of a leaf, or of [build] on no slots. *)
Definition build_merkle_tree (m : SlotMap) (s : CapacityManager) :
    option (eld_result CapacityProofMerkleTree) :=
  r ← slot_leaves m (file_capacity s) 0 (sm_slots m);
  match r with
  | Err e => Some (Err e)
  | Ok leaf_hashes => t ← build leaf_hashes; Some (Ok t)
  end.

(** The indices are checked before [update_leaves], so its panic is out of
    reach. *)
Definition update_merkle_tree_for_content (slot_indices : list nat) (content_hashes : list hash32) :
    cm hash32 :=
  if negb (length slot_indices =? length content_hashes)%nat
  then cm_lift (Err (StorageError "update_merkle_tree_for_content"))
  else
    s ← cm_get;
    t ← cm_lift (ok_or (cm_merkle_tree s) (StorageError "update_merkle_tree_for_content"));
    if negb (forallb (λ i, (i <? leaf_count t)%nat) slot_indices)
    then cm_lift (Err (StorageError "update_merkle_tree_for_content"))
    else
      match update_leaves t (zip slot_indices content_hashes) with
      | None => cm_lift (Err (StorageError "update_leaves"))
      | Some t => _ ← cm_modify (set_merkle_tree (Some t)); mret (tree_root t)
      end.

Definition get_merkle_root (s : CapacityManager) : eld_result hash32 :=
  let? t := ok_or (cm_merkle_tree s) (StorageError "get_merkle_root") in Ok (tree_root t).

(** ** slot_io.rs *)

(** The loop of [store_content_chunks]. *)
Fixpoint write_chunks (slot_indices : list nat) (chunks : list bytes) :
    cm (list (nat * nat) * list hash32) :=
  match chunks, slot_indices with
  | [], _ => mret ([], [])
  | _ :: _, [] => cm_lift (Err (StorageError "index"))
  | chunk_data :: chunks, slot_index :: slot_indices =>
      if (MAX_CHUNK_SIZE <? length chunk_data)%nat
      then cm_lift (Err (StorageError "store_content_chunks"))
      else
        h ← write_chunk_to_slot slot_index (resize chunk_data MAX_CHUNK_SIZE);
        '(sizes, hashes) ← write_chunks slot_indices chunks;
        mret ((slot_index, length chunk_data) :: sizes, h :: hashes)
  end.

Definition committed_hash_of (content_hashes : list hash32) : hash32 :=
  sha256 (as_bytes "CONTENT_COMMIT" ++ (content_hashes ≫= λ h, vec_to_list h)).

Definition store_content_chunks (content_id : string) (chunks : list bytes) : cm (list nat) :=
  s ← cm_get;
  slot_indices ← cm_lift (find_open_slots (length chunks) s);
  '(slot_sizes, content_hashes) ← write_chunks slot_indices chunks;
  _ ← mark_slots_as_content slot_sizes content_id (committed_hash_of content_hashes);
  _ ← save_slot_map;
  let slot_indices := slot_sizes.*1 in
  _ ← update_merkle_tree_for_content slot_indices content_hashes;
  mret slot_indices.

Fixpoint read_chunks (slot_sizes : list (nat * nat)) (s : CapacityManager) : eld_result bytes :=
  match slot_sizes with
  | [] => Ok []
  | (slot_index, actual_size) :: slot_sizes =>
      let? chunk_data := read_chunk_from_slot slot_index s in
      if (length chunk_data <? actual_size)%nat then Err (StorageError "get_content_from_slots")
      else
        let? rest := read_chunks slot_sizes s in
        Ok (take actual_size chunk_data ++ rest)
  end.

Definition get_content_from_slots (content_id : string) (s : CapacityManager) :
    eld_result (option bytes) :=
  match find_slots_by_content_id content_id s with
  | Err _ => Ok None
  | Ok slot_sizes => let? content := read_chunks slot_sizes s in Ok (Some content)
  end.

Fixpoint zero_hashes (m : SlotMap) (slot_sizes : list (nat * nat)) : eld_result (list hash32) :=
  match slot_sizes with
  | [] => Ok []
  | (slot_index, _) :: slot_sizes =>
      let? slot := ok_or (sm_slots m !! slot_index) (StorageError "delete_content_from_slots") in
      let? hs := zero_hashes m slot_sizes in
      Ok (hash_chunk (zeros (slot_size slot)) :: hs)
  end.

Fixpoint clear_slots (slot_sizes : list (nat * nat)) : cm unit :=
  match slot_sizes with
  | [] => mret tt
  | (slot_index, _) :: slot_sizes => _ ← write_chunk_to_slot slot_index []; clear_slots slot_sizes
  end.

Definition delete_content_from_slots (content_id : string) : cm unit :=
  s ← cm_get;
  slot_sizes ← cm_lift (find_slots_by_content_id content_id s);
  m ← cm_lift (slot_map_ref s);
  slot_zero_hashes ← cm_lift (zero_hashes m slot_sizes);
  _ ← clear_slots slot_sizes;
  released ← remove_content_by_id content_id;
  _ ← save_slot_map;
  let released_indices := released.*1 in
  s ← cm_get;
  _ ← cm_lift (get_merkle_root s);
  _ ← update_merkle_tree_for_content released_indices slot_zero_hashes;
  mret tt.

(** ** proofs.rs *)

(** The loop of [generate_capacity_proof]; [None] is the panic of
    [generate_proof] on an index past the tree. *)
Fixpoint chunk_proofs (m : SlotMap) (f : bytes) (t : CapacityProofMerkleTree) (indices : list nat) :
    option (eld_result (list ChunkProof)) :=
  match indices with
  | [] => Some (Ok [])
  | i :: indices =>
      match sm_slots m !! i with
      | None => Some (Err (ValidationError "chunk_index"))
      | Some slot =>
          match read_at f (slot_offset slot) (slot_size slot) with
          | None => Some (Err (StorageError "read_chunk"))
          | Some chunk =>
              merkle_proof ← generate_proof t i;
              r ← chunk_proofs m f t indices;
              Some (let? proofs := r in
                    Ok (mkChunkProof (Z.of_nat i) chunk (hash_chunk chunk) merkle_proof
                          (slot_state slot) :: proofs))
          end
      end
  end.

(** The proofs of [generate_capacity_proof]; the remaining fields of the
    answer are copied from the request. *)
Definition generate_capacity_proof (provider_id : Address) (chunk_indices : list nat)
    (expected_merkle_root : hash32) (s : CapacityManager) : option (eld_result (list ChunkProof)) :=
  if negb (bool_decide (provider_id = cm_provider_id s)) then Some (Err (ValidationError "provider_id"))
  else if negb (cm_initialized s) then Some (Err (ValidationError "initialized"))
  else
    match cm_merkle_tree s with
    | None => Some (Err (ValidationError "merkle_tree"))
    | Some t =>
        if negb (bool_decide (tree_root t = expected_merkle_root))
        then Some (Err (ValidationError "merkle_root"))
        else
          match cm_slot_map s, file_capacity s with
          | None, _ => Some (Err (ValidationError "slot_map"))
          | _, None => Some (Err (StorageError "open_capacity_file"))
          | Some m, Some f => chunk_proofs m f t chunk_indices
          end
    end.

(** ** allocation.rs *)

(** [Vec::swap] *)
Definition swap {A} (l : list A) (i j : nat) : list A :=
  match l !! i, l !! j with
  | Some a, Some b => <[j := a]> (<[i := b]> l)
  | _, _ => l
  end.

(** The Fisher-Yates loop, [i] counting down to 1. *)
Fixpoint shuffle_slots (base : bytes) (i : nat) (l : list nat) : list nat :=
  match i with
  | O => l
  | S k =>
      let random_u64 := digest_u64 (blake3 (base ++ usize_le_bytes i)) in
      let j := Z.to_nat (random_u64 mod (Z.of_nat i + 1)) in
      shuffle_slots base k (swap l i j)
  end.

Definition chunk_offsets (capacity_bytes : nat) (seed : byte_array 32) (provider_id : Address) :
    list (nat * nat) :=
  let chunk_count := ((capacity_bytes + (MAX_CHUNK_SIZE - 1)) / MAX_CHUNK_SIZE)%nat in
  let num_permutable_slots := (chunk_count - 1)%nat in
  let slot_indices :=
    shuffle_slots (create_deterministic_hasher "OFFSET_MAP" seed provider_id)
      (num_permutable_slots - 1) (seq 0 num_permutable_slots) in
  let remainder := (capacity_bytes mod MAX_CHUNK_SIZE)%nat in
  let last_chunk_size := if (0 <? remainder)%nat then remainder else MAX_CHUNK_SIZE in
  map (λ slot_idx, (slot_idx * MAX_CHUNK_SIZE, MAX_CHUNK_SIZE)%nat) slot_indices
    ++ [(capacity_bytes - last_chunk_size, last_chunk_size)%nat].

(** The check of every pair of chunks. *)
Definition overlaps (a b : nat * nat) : bool :=
  (a.1 <? b.1 + b.2)%nat && (b.1 <? a.1 + a.2)%nat.

Fixpoint any_overlap (l : list (nat * nat)) : bool :=
  match l with
  | [] => false
  | a :: l => existsb (overlaps a) l || any_overlap l
  end.

(** [(PROOF_RATIO * 100.0) as u64] *)
Definition ratio_threshold : Z := f64_to_u128 (f64_mul (f64_div (f64_of_Z 8) (f64_of_Z 10)) (f64_of_Z 100)).

Definition initial_state (state_seed : byte_array 32) (chunk_index : nat) : SlotState :=
  let random_u64 := digest_u64 (blake3 (vec_to_list state_seed ++ usize_le_bytes chunk_index)) in
  if random_u64 mod 100 <? ratio_threshold then Slot_Proof else Slot_Open.

Definition initial_slots (capacity_bytes : nat) (seed : byte_array 32) (provider_id : Address) :
    list Slot :=
  let chunk_count := ((capacity_bytes + (MAX_CHUNK_SIZE - 1)) / MAX_CHUNK_SIZE)%nat in
  let state_seed := blake3 (create_deterministic_hasher "SLOT_STATE_MAP" seed provider_id) in
  imap (λ chunk_index '(offset, size), mkSlot offset size (initial_state state_seed chunk_index))
    (take chunk_count (chunk_offsets capacity_bytes seed provider_id)).

(** What allocation writes into a slot, and its leaf. *)
Definition initial_chunk (seed : byte_array 32) (provider_id : Address) (chunk_index : nat)
    (slot : Slot) : bytes :=
  match slot_state slot with
  | Slot_Proof => take (slot_size slot) (generate_chunk_data provider_id seed chunk_index)
  | _ => zeros (slot_size slot)
  end.

Fixpoint write_initial (seed : byte_array 32) (provider_id : Address) (chunk_index : nat)
    (slots : list Slot) (f : bytes) : bytes * list hash32 :=
  match slots with
  | [] => (f, [])
  | slot :: slots =>
      let chunk := initial_chunk seed provider_id chunk_index slot in
      let '(f, hs) :=
        write_initial seed provider_id (S chunk_index) slots (write_at f (slot_offset slot) chunk) in
      (f, hash_chunk chunk :: hs)
  end.

(** [None] is the panic of [build] on no chunks. *)
Definition allocate_capacity_internal (capacity_bytes : nat) (seed : byte_array 32)
    (s : CapacityManager) : option (eld_result hash32 * CapacityManager) :=
  let provider_id := cm_provider_id s in
  let s := set_file_capacity (Some (zeros capacity_bytes)) s in
  if any_overlap (chunk_offsets capacity_bytes seed provider_id)
  then Some (Err (StorageError "allocate_capacity"), s)
  else
    let slots := initial_slots capacity_bytes seed provider_id in
    let slot_map := mkSlotMap slots capacity_bytes seed provider_id in
    let '(f, leaf_hashes) := write_initial seed provider_id 0 slots (zeros capacity_bytes) in
    let s := set_file_slots (Some (slot_map_to_json slot_map))
               (set_slot_map (Some slot_map) (set_file_capacity (Some f) s)) in
    t ← build leaf_hashes;
    Some (Ok (tree_root t), set_merkle_tree (Some t) s).

(** [allocate_capacity]; the seed is the random one drawn. *)
Definition allocate_capacity (capacity_size_mb : Z) (seed : byte_array 32) (s : CapacityManager) :
    option (eld_result unit * CapacityManager) :=
  if slot_map_exists s then Some (Ok tt, s)
  else
    let capacity_bytes := Z.to_nat (wrap_u64 (capacity_size_mb * 1024 * 1024)) in
    '(r, s) ← allocate_capacity_internal capacity_bytes seed s;
    Some (match r with Ok _ => Ok tt | Err e => Err e end, s).

(** ** mod.rs *)

Definition initialize (s : CapacityManager) : option (eld_result unit * CapacityManager) :=
  if cm_initialized s then Some (Ok tt, s)
  else if slot_map_exists s then
    match load_slot_map s with
    | (Err e, s) => Some (Err e, s)
    | (Ok _, s) =>
        match cm_slot_map s with
        | None => Some (Ok tt, set_initialized true s)
        | Some m =>
            r ← build_merkle_tree m s;
            match r with
            | Err e => Some (Err e, s)
            | Ok t => Some (Ok tt, set_initialized true (set_merkle_tree (Some t) s))
            end
        end
    end
  else Some (Ok tt, set_initialized true s).
End slots.

(** The ratio is exactly 80 percent. *)
Lemma ratio_threshold_80 : ratio_threshold = 80.
Proof. vm_compute. reflexivity. Qed.

(** ** Files *)

Lemma zeros_length n : length (zeros n) = n.
Proof. apply length_replicate. Qed.

Lemma write_at_length f off d : (off + length d ≤ length f)%nat → length (write_at f off d) = length f.
Proof.
  intros Hl. unfold write_at. rewrite !length_app, length_take, length_app, zeros_length, length_drop. lia.
Qed.

Lemma write_at_lookup f off d i :
  (off + length d ≤ length f)%nat →
  write_at f off d !! i =
    if decide (i < off)%nat then f !! i
    else if decide (i < off + length d)%nat then d !! (i - off)%nat else f !! i.
Proof.
  intros Hl. unfold write_at. replace (off - length f)%nat with 0%nat by lia.
  change (zeros 0) with (@nil byte). rewrite app_nil_r.
  assert (length (take off f) = off) as Ht by (rewrite length_take; lia).
  destruct (decide (i < off)%nat).
  { rewrite lookup_app_l by lia. by rewrite lookup_take_lt. }
  rewrite lookup_app_r by lia. rewrite Ht. destruct (decide (i < off + length d)%nat).
  { rewrite lookup_app_l by lia. done. }
  rewrite lookup_app_r by lia. rewrite lookup_drop. f_equal. lia.
Qed.

(** A byte range of a file. *)
Definition range (f : bytes) (off n : nat) : bytes := take n (drop off f).

Lemma range_length f off n : (off + n ≤ length f)%nat → length (range f off n) = n.
Proof. intros Hl. unfold range. rewrite length_take, length_drop. lia. Qed.

Lemma range_lookup f off n i :
  range f off n !! i = if decide (i < n)%nat then f !! (off + i)%nat else None.
Proof.
  unfold range. destruct (decide (i < n)%nat).
  - rewrite lookup_take_lt by done. by rewrite lookup_drop.
  - apply lookup_take_ge. lia.
Qed.

Lemma read_at_range f off n : (off + n ≤ length f)%nat → read_at f off n = Some (range f off n).
Proof. intros Hl. unfold read_at. by rewrite (proj2 (Nat.leb_le _ _)). Qed.

Lemma range_write_same f off d :
  (off + length d ≤ length f)%nat → range (write_at f off d) off (length d) = d.
Proof.
  intros Hl. apply list_eq. intros i. rewrite range_lookup.
  destruct (decide (i < length d)%nat); [|symmetry; apply lookup_ge_None; lia].
  rewrite write_at_lookup by done.
  rewrite decide_False, decide_True by lia. f_equal. lia.
Qed.

Lemma range_write_other f off d off2 n :
  (off + length d ≤ length f)%nat → (off2 + n ≤ off ∨ off + length d ≤ off2)%nat →
  range (write_at f off d) off2 n = range f off2 n.
Proof.
  intros Hl Hd. apply list_eq. intros i. rewrite !range_lookup.
  destruct (decide (i < n)%nat); [|done]. rewrite write_at_lookup by done.
  destruct (decide (off2 + i < off)%nat); [done|]. rewrite decide_False; [done|lia].
Qed.

Lemma range_zeros off n c : (off + n ≤ c)%nat → range (zeros c) off n = zeros n.
Proof.
  intros Hl. unfold range, zeros. rewrite drop_replicate, take_replicate. f_equal. lia.
Qed.

Lemma resize_length d n : length (resize d n) = n.
Proof. unfold resize. rewrite length_app, length_take, zeros_length. lia. Qed.

Lemma resize_full d n : length d = n → resize d n = d.
Proof.
  intros Hl. unfold resize. rewrite take_ge by lia. rewrite Hl, Nat.sub_diag. apply app_nil_r.
Qed.

Lemma take_resize d n : (length d ≤ n)%nat → take (length d) (resize d n) = d.
Proof.
  intros Hl. unfold resize. rewrite (take_ge d n) by lia. by rewrite take_app_length.
Qed.

Lemma resize_nil n : resize [] n = zeros n.
Proof. unfold resize. rewrite take_nil, Nat.sub_0_r. done. Qed.
