(* ===== verification/Capacity.v ===== *)
(** What the local capacity of a provider promises: the capacity file, the slot
    map, the content map and the Merkle tree stay consistent, so that stored
    content reads back, deleted content frees its slots, a restart loses
    nothing and every challenge on the current root is answered. *)
From S2P Require Import Prelude F64 Externals Reference Coins Address Namespace Cado Records Tx TxCodes Merkle Slots.

Section capacity.
Context {H : HexCrate} {HC : HashCrates} {X : Blake3Xof} {J : SlotJson}.

(** ** The invariant *)

Definition slot_bytes (f : bytes) (sl : Slot) : bytes := range f (slot_offset sl) (slot_size sl).

Definition leaves (slots : list Slot) (f : bytes) : list hash32 :=
  (λ sl, hash_chunk (slot_bytes f sl)) <$> slots.

(** Every slot is one full chunk inside the file, and no two share a byte. *)
Record geometry_ok (slots : list Slot) (f : bytes) : Prop := {
  slot_fits i sl : slots !! i = Some sl →
    slot_size sl = MAX_CHUNK_SIZE ∧ (slot_offset sl + MAX_CHUNK_SIZE ≤ length f)%nat;
  slots_disjoint i j a b : i ≠ j → slots !! i = Some a → slots !! j = Some b →
    (slot_offset a + MAX_CHUNK_SIZE ≤ slot_offset b ∨
     slot_offset b + MAX_CHUNK_SIZE ≤ slot_offset a)%nat;
}.

(** What a slot that holds no content must hold. *)
Definition filler (m : SlotMap) (i : nat) (sl : Slot) : option bytes :=
  match slot_state sl with
  | Slot_Open => Some (zeros (slot_size sl))
  | Slot_Proof => Some (take (slot_size sl) (generate_chunk_data (sm_provider_id m) (sm_seed m) i))
  | Slot_Content _ _ => None
  end.

Record capacity_view (s : CapacityManager) (m : SlotMap) (f : bytes)
    (t : CapacityProofMerkleTree) : Prop := {
  view_slots : cm_slot_map s = Some m;
  view_file : file_capacity s = Some f;
  view_tree : cm_merkle_tree s = Some t;
  view_saved : file_slots s = Some (slot_map_to_json m);
  view_content_saved :
    file_content_map s = Some (content_map_to_json (cm_content_slot_map s)) ∨
    file_content_map s = None ∧ cm_content_slot_map s = ∅;
  view_geometry : geometry_ok (sm_slots m) f;
  view_leaves : build (leaves (sm_slots m) f) = Some t;
  view_filler i sl d : sm_slots m !! i = Some sl → filler m i sl = Some d → slot_bytes f sl = d;
  view_content id l : cm_content_slot_map s !! id = Some l →
    NoDup l.*1 ∧ ∀ i n, (i, n) ∈ l → (n ≤ MAX_CHUNK_SIZE)%nat ∧
      ∃ sl h, sm_slots m !! i = Some sl ∧ slot_state sl = Slot_Content id h;
}.

Definition capacity_ok (s : CapacityManager) : Prop := ∃ m f t, capacity_view s m f t.

(** ** The abstract store: chunks by content id, and free slots *)

Record Shelf : Type := mkShelf { shelved : gmap string (list bytes); room : nat }.

Definition shelf_put (id : string) (chunks : list bytes) (sh : Shelf) : option Shelf :=
  if (room sh <? length chunks)%nat then None
  else Some (mkShelf (<[id := chunks]> (shelved sh)) (room sh - length chunks)).

Definition shelf_drop (id : string) (sh : Shelf) : option Shelf :=
  chunks ← shelved sh !! id;
  Some (mkShelf (delete id (shelved sh)) (room sh + length chunks)).

Definition chunk_at (slots : list Slot) (f : bytes) (e : nat * nat) : bytes :=
  take e.2 (default [] (slot_bytes f <$> slots !! e.1)).

Definition chunks_at (slots : list Slot) (f : bytes) (l : list (nat * nat)) : list bytes :=
  chunk_at slots f <$> l.

Definition open_count (slots : list Slot) : nat := length (List.filter is_open slots).

Definition slots_of (s : CapacityManager) : list Slot :=
  match cm_slot_map s with Some m => sm_slots m | None => [] end.

Definition shelf_of (s : CapacityManager) : Shelf :=
  mkShelf (chunks_at (slots_of s) (default [] (file_capacity s))
             <$> cm_content_slot_map s)
    (open_count (slots_of s)).

(** ** Slots in place *)

Definition write_slots (slots : list Slot) (f : bytes) (ups : list (nat * bytes)) : bytes :=
  foldl (λ f u, match slots !! u.1 with Some sl => write_at f (slot_offset sl) u.2 | None => f end)
    f ups.

Definition with_state (st : SlotState) (sl : Slot) : Slot :=
  mkSlot (slot_offset sl) (slot_size sl) st.

Definition mark_all (slots : list Slot) (idxs : list nat) (st : SlotState) : list Slot :=
  foldl (λ l i, alter (with_state st) i l) slots idxs.

Lemma geometry_write slots f i sl d :
  geometry_ok slots f → slots !! i = Some sl → length d = MAX_CHUNK_SIZE →
  geometry_ok slots (write_at f (slot_offset sl) d) ∧
  slot_bytes (write_at f (slot_offset sl) d) sl = d ∧
  (∀ j sl', j ≠ i → slots !! j = Some sl' →
    slot_bytes (write_at f (slot_offset sl) d) sl' = slot_bytes f sl').
Proof.
  intros [Hfit Hdis] Hi Hd. destruct (Hfit i sl Hi) as [Hs Hb]. split_and!.
  - split; [|done]. rewrite write_at_length by lia. done.
  - unfold slot_bytes. rewrite Hs, <- Hd. apply range_write_same. lia.
  - intros j sl' Hj Hj'. destruct (Hfit j sl' Hj') as [Hs' _].
    apply range_write_other; [lia|]. destruct (Hdis j i sl' sl Hj Hj' Hi); lia.
Qed.

Lemma leaves_write slots f i sl d :
  geometry_ok slots f → slots !! i = Some sl → length d = MAX_CHUNK_SIZE →
  leaves slots (write_at f (slot_offset sl) d) = <[i := hash_chunk d]> (leaves slots f).
Proof.
  intros Hg Hi Hd. destruct (geometry_write slots f i sl d Hg Hi Hd) as (_ & Hsame & Hother).
  apply list_eq. intros j. unfold leaves. rewrite list_lookup_fmap. destruct (decide (j = i)) as [->|Hj].
  - rewrite list_lookup_insert_eq by (rewrite length_fmap; by eapply lookup_lt_Some).
    rewrite Hi. cbn [fmap option_fmap option_map]. by rewrite Hsame.
  - rewrite list_lookup_insert_ne by done. rewrite list_lookup_fmap.
    destruct (slots !! j) as [sl'|] eqn:Hj'; [|done]. cbn [fmap option_fmap option_map].
    by rewrite (Hother j sl' Hj Hj').
Qed.

(** Every update names a slot and carries a full chunk. *)
Definition updates_ok (slots : list Slot) (ups : list (nat * bytes)) : Prop :=
  Forall (λ u, (u.1 < length slots)%nat ∧ length u.2 = MAX_CHUNK_SIZE) ups.

Lemma write_slots_spec slots f ups :
  geometry_ok slots f → updates_ok slots ups →
  geometry_ok slots (write_slots slots f ups) ∧
  leaves slots (write_slots slots f ups) = write_all (leaves slots f) (prod_map id hash_chunk <$> ups).
Proof.
  intros Hg Hu. revert f Hg. induction Hu as [|[i d] ups [Hi Hd] _ IH]; intros f Hg; [done|].
  cbn [fst snd] in *. destruct (lookup_lt_is_Some_2 slots i Hi) as [sl Hsl].
  unfold write_slots, write_all. rewrite fmap_cons. cbn [foldl fst snd prod_map].
  rewrite Hsl. destruct (geometry_write slots f i sl d Hg Hsl Hd) as [Hg' _].
  destruct (IH _ Hg') as [IH1 IH2]. split; [exact IH1|]. etransitivity; [exact IH2|].
  by rewrite (leaves_write slots f i sl d Hg Hsl Hd).
Qed.

Lemma write_slots_out slots f ups j sl :
  geometry_ok slots f → updates_ok slots ups → j ∉ ups.*1 → slots !! j = Some sl →
  slot_bytes (write_slots slots f ups) sl = slot_bytes f sl.
Proof.
  intros Hg Hu Hj Hsl. revert f Hg. induction Hu as [|[i d] ups [Hi Hd] _ IH]; intros f Hg; [done|].
  rewrite fmap_cons in Hj. apply not_elem_of_cons in Hj as [Hji Hj]. cbn [fst snd] in *.
  destruct (lookup_lt_is_Some_2 slots i Hi) as [sli Hsli]. unfold write_slots. cbn [foldl fst snd].
  rewrite Hsli. destruct (geometry_write slots f i sli d Hg Hsli Hd) as (Hg' & _ & Hother).
  etransitivity; [exact (IH Hj _ Hg')|]. by apply (Hother j).
Qed.

Lemma write_slots_in slots f ups j d sl :
  geometry_ok slots f → updates_ok slots ups → NoDup ups.*1 → (j, d) ∈ ups → slots !! j = Some sl →
  slot_bytes (write_slots slots f ups) sl = d.
Proof.
  intros Hg Hu Hn Hin Hsl. revert f Hg. induction Hu as [|[i d'] ups [Hi Hd] Hu IH]; intros f Hg.
  { by apply elem_of_nil in Hin. }
  rewrite fmap_cons in Hn. apply list.NoDup_cons in Hn as [Hnin Hn]. cbn [fst snd] in *.
  destruct (lookup_lt_is_Some_2 slots i Hi) as [sli Hsli]. unfold write_slots. cbn [foldl fst snd].
  rewrite Hsli. destruct (geometry_write slots f i sli d' Hg Hsli Hd) as (Hg' & Hsame & _).
  apply elem_of_cons in Hin as [[= -> ->]|Hin]; [|by apply IH].
  assert (sl = sli) as -> by congruence. etransitivity; [|exact Hsame].
  exact (write_slots_out slots _ ups i sli Hg' Hu Hnin Hsli).
Qed.

(** ** States of slots *)

Lemma mark_all_lookup slots idxs st j :
  mark_all slots idxs st !! j =
    if bool_decide (j ∈ idxs) then with_state st <$> slots !! j else slots !! j.
Proof.
  unfold mark_all. revert slots. induction idxs as [|i idxs IH]; intros slots; [done|]. cbn [foldl].
  rewrite IH. destruct (decide (j = i)) as [->|Hj].
  - rewrite list_lookup_alter_eq. rewrite (bool_decide_eq_true_2 (i ∈ i :: idxs)) by (by left).
    case_bool_decide; [|done]. by destruct (slots !! i).
  - rewrite list_lookup_alter_ne by done. destruct (decide (j ∈ idxs)).
    + rewrite !bool_decide_eq_true_2; [done|by right|done].
    + rewrite !bool_decide_eq_false_2; [done| |done]. by intros [?|?]%elem_of_cons.
Qed.

Lemma mark_all_length slots idxs st : length (mark_all slots idxs st) = length slots.
Proof.
  unfold mark_all. revert slots. induction idxs as [|i idxs IH]; intros slots; [done|].
  cbn [foldl]. by rewrite IH, length_alter.
Qed.

(** Changing states moves nothing. *)
Lemma mark_all_geometry slots idxs st f :
  geometry_ok slots f → geometry_ok (mark_all slots idxs st) f.
Proof.
  assert (∀ j sl, mark_all slots idxs st !! j = Some sl →
    ∃ sl', slots !! j = Some sl' ∧ slot_offset sl = slot_offset sl' ∧ slot_size sl = slot_size sl') as Hm.
  { intros j sl. rewrite mark_all_lookup. case_bool_decide; [|eauto].
    destruct (slots !! j) as [x|]; [|done]. intros [= <-]. eauto. }
  intros [Hfit Hdis]. split.
  - intros i sl (x & Hx & -> & ->)%Hm. by eapply Hfit.
  - intros i j a b Hij (x & Hx & -> & _)%Hm (y & Hy & -> & _)%Hm. by eapply Hdis.
Qed.

Lemma mark_all_bytes slots idxs st f j :
  slot_bytes f <$> mark_all slots idxs st !! j = slot_bytes f <$> slots !! j.
Proof. rewrite mark_all_lookup. case_bool_decide; [|done]. by destruct (slots !! j). Qed.

Lemma mark_all_leaves slots idxs st f : leaves (mark_all slots idxs st) f = leaves slots f.
Proof.
  apply list_eq. intros j. unfold leaves. rewrite !list_lookup_fmap.
  pose proof (mark_all_bytes slots idxs st f j) as Hb.
  destruct (mark_all slots idxs st !! j), (slots !! j); cbn [fmap option_fmap option_map] in *; congruence.
Qed.

(** ** Open slots *)

Definition is_open_state (st : SlotState) : bool :=
  match st with Slot_Open => true | _ => false end.

Lemma is_open_with_state st sl : is_open (with_state st sl) = is_open_state st.
Proof. by destruct st. Qed.

Lemma open_count_alter slots i sl st :
  slots !! i = Some sl →
  (open_count (alter (with_state st) i slots) + Nat.b2n (is_open sl)
   = open_count slots + Nat.b2n (is_open_state st))%nat.
Proof.
  unfold open_count. revert i. induction slots as [|x slots IH]; intros i Hi; [done|].
  destruct i as [|i].
  - injection Hi as ->. change (alter (with_state st) 0%nat (sl :: slots)) with (with_state st sl :: slots).
    cbn [List.filter]. rewrite is_open_with_state.
    destruct (is_open_state st), (is_open sl); simpl; lia.
  - change (alter (with_state st) (S i) (x :: slots)) with (x :: alter (with_state st) i slots).
    cbn [List.filter]. specialize (IH i Hi). destruct (is_open x); simpl in *; lia.
Qed.

Lemma open_count_mark slots idxs st b :
  NoDup idxs → (∀ i, i ∈ idxs → is_open <$> slots !! i = Some b) →
  (open_count (mark_all slots idxs st) + length idxs * Nat.b2n b
   = open_count slots + length idxs * Nat.b2n (is_open_state st))%nat.
Proof.
  intros Hn. revert slots. induction Hn as [|i idxs Hi Hn IH]; intros slots Ho; [simpl; lia|].
  destruct (slots !! i) as [sl|] eqn:Hsl; [|by specialize (Ho i ltac:(by left)); rewrite Hsl in Ho].
  assert (is_open sl = b) as Hb by (specialize (Ho i ltac:(by left)); rewrite Hsl in Ho; by injection Ho).
  pose proof (open_count_alter slots i sl st Hsl) as Ha. unfold mark_all. cbn [foldl length].
  specialize (IH (alter (with_state st) i slots)). unfold mark_all in IH.
  assert (∀ j, j ∈ idxs → is_open <$> alter (with_state st) i slots !! j = Some b) as Hj.
  { intros j Hj. rewrite list_lookup_alter_ne by (by intros ->). apply Ho. by right. }
  specialize (IH Hj). rewrite Hb in Ha. lia.
Qed.

(** The indices of the open slots, counted from [idx]. *)
Fixpoint open_from (slots : list Slot) (idx : nat) : list nat :=
  match slots with
  | [] => []
  | s :: slots => if is_open s then idx :: open_from slots (S idx) else open_from slots (S idx)
  end.

Lemma collect_open_take slots idx need acc :
  (length acc < need ∨ acc = [])%nat →
  collect_open slots idx need acc = acc ++ take (Nat.max 1 (need - length acc)) (open_from slots idx).
Proof.
  revert idx acc. induction slots as [|s slots IH]; intros idx acc Ha.
  { cbn [collect_open open_from]. by rewrite take_nil, app_nil_r. }
  cbn [collect_open open_from]. destruct (is_open s); [|by apply IH]. rewrite length_app. cbn [length].
  destruct (need <=? length acc + 1)%nat eqn:Hn.
  - apply Nat.leb_le in Hn. replace (Nat.max 1 (need - length acc)) with 1%nat by lia. done.
  - apply Nat.leb_gt in Hn. rewrite IH by (rewrite length_app; simpl; lia). rewrite length_app, <- app_assoc.
    cbn [length]. replace (Nat.max 1 (need - length acc)) with (S (Nat.max 1 (need - (length acc + 1)))) by lia.
    done.
Qed.

Lemma open_from_length slots idx : length (open_from slots idx) = open_count slots.
Proof.
  unfold open_count. revert idx. induction slots as [|s slots IH]; intros idx; [done|].
  cbn [open_from List.filter]. destruct (is_open s); cbn [length]; by rewrite IH.
Qed.

Lemma open_from_spec slots idx :
  NoDup (open_from slots idx) ∧
  ∀ i, i ∈ open_from slots idx → (idx ≤ i)%nat ∧ is_open <$> slots !! (i - idx)%nat = Some true.
Proof.
  revert idx. induction slots as [|s slots IH]; intros idx.
  { split; [constructor|]. by intros i ?%elem_of_nil. }
  destruct (IH (S idx)) as [IH1 IH2]. cbn [open_from].
  assert (∀ i, i ∈ open_from slots (S idx) →
    (idx ≤ i)%nat ∧ is_open <$> (s :: slots) !! (i - idx)%nat = Some true) as Hrest.
  { intros i [Hi Ho]%IH2. split; [lia|]. replace (i - idx)%nat with (S (i - S idx)) by lia. done. }
  destruct (is_open s) eqn:E; [|done]. split.
  - apply list.NoDup_cons. split; [|done]. intros [Hi _]%IH2. lia.
  - intros i [->|Hi]%elem_of_cons; [|by apply Hrest]. split; [lia|]. rewrite Nat.sub_diag. simpl. by rewrite E.
Qed.

(** [find_open_slots] finds enough distinct open slots exactly when there are. *)
Lemma find_open_slots_spec n s m :
  cm_slot_map s = Some m →
  if (open_count (sm_slots m) <? n)%nat then find_open_slots n s = Err (StorageError "find_open_slots")
  else ∃ idxs, find_open_slots n s = Ok idxs ∧ (n ≤ length idxs)%nat ∧ NoDup idxs ∧
    ∀ i, i ∈ idxs → is_open <$> sm_slots m !! i = Some true.
Proof.
  intros Hm. unfold find_open_slots, slot_map_ref. rewrite Hm. cbn [ok_or].
  rewrite collect_open_take by (by right). cbn [app length]. rewrite Nat.sub_0_r.
  pose proof (open_from_length (sm_slots m) 0) as Hl. destruct (open_from_spec (sm_slots m) 0) as [Hn Ho].
  rewrite length_take, Hl. destruct (open_count (sm_slots m) <? n)%nat eqn:E.
  - apply Nat.ltb_lt in E. by rewrite (proj2 (Nat.ltb_lt _ _)) by lia.
  - apply Nat.ltb_ge in E. rewrite (proj2 (Nat.ltb_ge _ _)) by lia. eexists. split; [done|].
    split_and!.
    + rewrite length_take, Hl. lia.
    + eapply sublist_NoDup; [exact Hn|apply sublist_take].
    + intros i Hi. assert (i ∈ open_from (sm_slots m) 0) as Hi'
        by (eapply elem_of_sublist; [exact Hi|apply sublist_take]).
      destruct (Ho i Hi') as [_ Ho']. by rewrite Nat.sub_0_r in Ho'.
Qed.

(** ** Running the operations *)

Definition with_slots (m : SlotMap) (slots : list Slot) : SlotMap :=
  mkSlotMap slots (sm_capacity_bytes m) (sm_seed m) (sm_provider_id m).

Lemma with_slots_id m : with_slots m (sm_slots m) = m.
Proof. by destruct m. Qed.

Lemma set_file_capacity_id s f : file_capacity s = Some f → set_file_capacity (Some f) s = s.
Proof. intros Hf. destruct s. simpl in Hf. by subst. Qed.

Lemma set_slot_map_id s m : cm_slot_map s = Some m → set_slot_map (Some m) s = s.
Proof. intros Hf. destruct s. simpl in Hf. by subst. Qed.

Lemma write_chunk_run i d s m f sl :
  cm_slot_map s = Some m → file_capacity s = Some f → sm_slots m !! i = Some sl →
  (length d ≤ slot_size sl)%nat →
  write_chunk_to_slot i d s =
    (Ok (hash_chunk (resize d (slot_size sl))),
     set_file_capacity (Some (write_at f (slot_offset sl) (resize d (slot_size sl)))) s).
Proof.
  intros Hm Hf Hsl Hd. unfold write_chunk_to_slot, cm_get, cm_lift, slot_map_ref, mbind, cm_bind.
  rewrite Hm. cbn [ok_or]. rewrite Hsl. cbn [ok_or].
  rewrite (proj2 (Nat.ltb_ge _ _)) by lia. by rewrite Hf.
Qed.

Definition padded (d : bytes) : bytes := resize d MAX_CHUNK_SIZE.

Lemma write_chunks_run idxs chunks s m f :
  cm_slot_map s = Some m → file_capacity s = Some f → geometry_ok (sm_slots m) f →
  (length chunks ≤ length idxs)%nat → (∀ i, i ∈ idxs → is_Some (sm_slots m !! i)) →
  Forall (λ d, length d ≤ MAX_CHUNK_SIZE)%nat chunks →
  write_chunks idxs chunks s =
    (Ok (zip idxs (length <$> chunks), (λ d, hash_chunk (padded d)) <$> chunks),
     set_file_capacity (Some (write_slots (sm_slots m) f (zip idxs (padded <$> chunks)))) s).
Proof.
  intros Hm Hf Hg Hlen Hin Hc. revert idxs s f Hm Hf Hg Hlen Hin.
  induction Hc as [|d chunks Hd Hc IH]; intros idxs s f Hm Hf Hg Hlen Hin.
  { destruct idxs; cbn [write_chunks]; unfold mret, cm_ret; cbn [fmap list_fmap zip zip_with];
      unfold write_slots; cbn [foldl]; by rewrite (set_file_capacity_id s f Hf). }
  destruct idxs as [|i idxs]; [simpl in Hlen; lia|].
  destruct (Hin i ltac:(by left)) as [sl Hsl]. destruct (slot_fits _ _ Hg i sl Hsl) as [Hs Hb].
  cbn [write_chunks]. rewrite (proj2 (Nat.ltb_ge _ _)) by done. unfold mbind, cm_bind.
  rewrite (write_chunk_run i _ s m f sl Hm Hf Hsl) by (rewrite Hs, resize_length; lia).
  rewrite Hs, resize_full by apply resize_length. change (resize d MAX_CHUNK_SIZE) with (padded d).
  destruct (geometry_write _ f i sl (padded d) Hg Hsl (resize_length _ _)) as [Hg' _].
  rewrite (IH idxs (set_file_capacity (Some (write_at f (slot_offset sl) (padded d))) s)
    (write_at f (slot_offset sl) (padded d)) Hm eq_refl Hg') by (simpl in *; try lia; intros; apply Hin; by right).
  unfold mret, cm_ret. rewrite !fmap_cons. cbn [zip zip_with]. unfold write_slots at 2.
  cbn [foldl fst snd]. by rewrite Hsl.
Qed.

Lemma alter_insert_slot (slots : list Slot) (i : nat) sl st :
  slots !! i = Some sl → alter (with_state st) i slots = <[i := with_state st sl]> slots.
Proof.
  intros Hi. apply list_eq. intros j. destruct (decide (j = i)) as [->|Hj].
  - rewrite list_lookup_alter_eq, list_lookup_insert_eq by (by eapply lookup_lt_Some). by rewrite Hi.
  - by rewrite list_lookup_alter_ne, list_lookup_insert_ne.
Qed.

Lemma set_slot_states_run op l st s m :
  cm_slot_map s = Some m → (∀ i, i ∈ l.*1 → is_Some (sm_slots m !! i)) →
  set_slot_states op l st s =
    (Ok tt, set_slot_map (Some (with_slots m (mark_all (sm_slots m) l.*1 st))) s).
Proof.
  intros Hm Hin. revert s m Hm Hin. induction l as [|[i n] l IH]; intros s m Hm Hin.
  { cbn [set_slot_states]. unfold cm_get, cm_lift, slot_map_ref, mbind, cm_bind, mret, cm_ret.
    rewrite Hm. cbn [ok_or fmap list_fmap mark_all foldl]. rewrite with_slots_id.
    by rewrite (set_slot_map_id s m Hm). }
  destruct (Hin i ltac:(by left)) as [sl Hsl]. cbn [set_slot_states].
  unfold set_slot_state, cm_get, cm_lift, cm_modify, slot_map_ref, mbind, cm_bind.
  rewrite Hm. cbn [ok_or]. rewrite Hsl.
  set (m1 := mkSlotMap _ _ _ _). rewrite (IH (set_slot_map (Some m1) s) m1 eq_refl).
  - rewrite fmap_cons. cbn [fst]. unfold m1, with_slots, mark_all. cbn [foldl sm_slots sm_capacity_bytes
      sm_seed sm_provider_id]. rewrite (alter_insert_slot (sm_slots m) i sl st Hsl). done.
  - intros j Hj. unfold m1. cbn [sm_slots]. apply lookup_lt_is_Some. rewrite length_insert.
    apply lookup_lt_is_Some, Hin. by right.
Qed.

(** ** Rewriting some slots *)

(** The state after the slots of [ups] were written with their chunks, marked
    [st] and saved, with the content map [cmap] and the tree [t]. *)
Definition rewritten (s : CapacityManager) (m : SlotMap) (f : bytes) (ups : list (nat * bytes))
    (st : SlotState) (cmap : ContentSlotMap) (t : CapacityProofMerkleTree) : CapacityManager :=
  let m' := with_slots m (mark_all (sm_slots m) ups.*1 st) in
  mkCapacityManager (cm_provider_id s) (Some m') cmap (Some t) (cm_initialized s)
    (Some (write_slots (sm_slots m) f ups)) (Some (slot_map_to_json m'))
    (Some (content_map_to_json cmap)).

Lemma update_tree_run s t slots f ups :
  cm_merkle_tree s = Some t → build (leaves slots f) = Some t → geometry_ok slots f →
  updates_ok slots ups →
  ∃ t', update_merkle_tree_for_content ups.*1 (hash_chunk <$> ups.*2) s =
      (Ok (tree_root t'), set_merkle_tree (Some t') s) ∧
    build (leaves slots (write_slots slots f ups)) = Some t'.
Proof.
  intros Ht Hb Hg Hu. destruct (write_slots_spec slots f ups Hg Hu) as [_ Hl].
  assert (zip ups.*1 (hash_chunk <$> ups.*2) = prod_map id hash_chunk <$> ups) as Hz.
  { clear. induction ups as [|[i d] ups IH]; [done|]. rewrite !fmap_cons. cbn [zip zip_with fst snd prod_map].
    by f_equal. }
  assert (length (leaves slots f) = length slots) as Hlen by apply length_fmap.
  destruct (build_total (leaves slots (write_slots slots f ups))) as [t' Ht'].
  { intros E%(f_equal length). rewrite Hl, write_all_length in E. simpl in E.
    apply nil_length_inv in E. by rewrite E in Hb. }
  exists t'. split; [|exact Ht'].
  unfold update_merkle_tree_for_content. rewrite !length_fmap, Nat.eqb_refl. cbn [negb].
  unfold cm_get, cm_lift, mbind, cm_bind. rewrite Ht. cbn [ok_or].
  destruct (build_Some _ _ Hb) as (Htl & _). unfold leaf_count. rewrite Htl.
  assert (forallb (λ i, i <? length (leaves slots f))%nat ups.*1 = true) as Hr.
  { apply forallb_forall. intros i Hi%list_elem_of_In%list_elem_of_fmap. destruct Hi as (u & -> & Hi).
    apply Nat.ltb_lt. rewrite Hlen. unfold updates_ok in Hu. rewrite list.Forall_forall in Hu. by apply Hu. }
  rewrite Hr. cbn [negb]. rewrite (update_leaves_rebuild _ _ _ Hb), Hz.
  assert (forallb (λ u : nat * hash32, u.1 <? length (leaves slots f))%nat
            (prod_map id hash_chunk <$> ups) = true) as Hr'.
  { apply forallb_forall. intros u Hi%list_elem_of_In%list_elem_of_fmap. destruct Hi as (v & -> & Hi).
    apply Nat.ltb_lt. rewrite Hlen. unfold updates_ok in Hu. rewrite list.Forall_forall in Hu. by apply Hu. }
  rewrite Hr', <- Hl, Ht'. done.
Qed.

(** No slot about to be rewritten holds content of another id. *)
Definition not_others (slots : list Slot) (id : string) (idxs : list nat) : Prop :=
  ∀ i sl id' h, i ∈ idxs → slots !! i = Some sl → slot_state sl = Slot_Content id' h → id' = id.

(** Other content stays where it is. *)
Lemma rewritten_other s m f t ups st id id' l :
  capacity_view s m f t → updates_ok (sm_slots m) ups → not_others (sm_slots m) id ups.*1 →
  cm_content_slot_map s !! id' = Some l → id' ≠ id →
  (∀ i, i ∈ l.*1 → i ∉ ups.*1) ∧
  chunks_at (mark_all (sm_slots m) ups.*1 st) (write_slots (sm_slots m) f ups) l =
    chunks_at (sm_slots m) f l.
Proof.
  intros Hv Hu Hno Hl Hid. destruct (view_content _ _ _ _ Hv id' l Hl) as [_ Hin].
  assert (∀ i, i ∈ l.*1 → i ∉ ups.*1) as Hout.
  { intros i Hi Hi'. apply list_elem_of_fmap in Hi as ([i' n] & -> & Hi). cbn [fst] in Hi'.
    destruct (Hin _ _ Hi) as (_ & sl & h & Hsl & Hst). by eapply Hid, Hno. }
  split; [exact Hout|]. apply list_fmap_ext. intros k [i n] Hk%list_elem_of_lookup_2.
  unfold chunk_at. cbn [fst snd]. rewrite mark_all_bytes. f_equal.
  destruct (Hin i n Hk) as (_ & sl & h & Hsl & _). rewrite Hsl. cbn [fmap option_fmap option_map default].
  eapply write_slots_out; [exact (view_geometry _ _ _ _ Hv)|exact Hu| |exact Hsl].
  apply Hout, list_elem_of_fmap. by exists (i, n).
Qed.

Lemma rewritten_view s m f t ups st cmap t' id :
  capacity_view s m f t → updates_ok (sm_slots m) ups → NoDup ups.*1 →
  not_others (sm_slots m) id ups.*1 →
  build (leaves (sm_slots m) (write_slots (sm_slots m) f ups)) = Some t' →
  match st with
  | Slot_Open => ∀ i d, (i, d) ∈ ups → d = zeros MAX_CHUNK_SIZE
  | Slot_Proof => False
  | Slot_Content _ _ => True
  end →
  (∀ id' l, cmap !! id' = Some l → id' ≠ id → cm_content_slot_map s !! id' = Some l) →
  (∀ l, cmap !! id = Some l →
    NoDup l.*1 ∧ (∃ h, st = Slot_Content id h) ∧
    ∀ i n, (i, n) ∈ l → (n ≤ MAX_CHUNK_SIZE)%nat ∧ i ∈ ups.*1) →
  capacity_view (rewritten s m f ups st cmap t')
    (with_slots m (mark_all (sm_slots m) ups.*1 st)) (write_slots (sm_slots m) f ups) t'.
Proof.
  intros Hv Hu Hn Hno Ht' Hst Hother Hnew.
  pose proof (view_geometry _ _ _ _ Hv) as Hg. split; try done.
  - by left.
  - apply mark_all_geometry. by apply write_slots_spec.
  - cbn [sm_slots with_slots]. by rewrite mark_all_leaves.
  - intros i sl d Hi Hf. cbn [sm_slots with_slots] in Hi. rewrite mark_all_lookup in Hi.
    case_bool_decide as Hin.
    + destruct (sm_slots m !! i) as [x|] eqn:Hx; [|done]. injection Hi as <-.
      apply list_elem_of_fmap in Hin as ([i' d'] & -> & Hin). cbn [fst] in *.
      destruct (slot_fits _ _ Hg _ x Hx) as [Hsz _].
      change (slot_bytes (write_slots (sm_slots m) f ups) x = d).
      rewrite (write_slots_in _ _ _ _ _ x Hg Hu Hn Hin Hx).
      unfold filler in Hf. cbn [slot_state with_state slot_size] in Hf. destruct st as [| |id2 h2].
      * done.
      * injection Hf as <-. rewrite Hsz. by eapply Hst.
      * done.
    + rewrite (write_slots_out _ _ _ i sl Hg Hu Hin Hi).
      by apply (view_filler _ _ _ _ Hv i sl d Hi).
  - intros id' l Hl. cbn [cm_content_slot_map rewritten] in Hl. cbn [sm_slots with_slots].
    destruct (decide (id' = id)) as [->|Hid].
    + destruct (Hnew l Hl) as (Hnd & (h & ->) & Hin). split; [exact Hnd|]. intros i n [Hmax Hi]%Hin.
      split; [done|]. rewrite mark_all_lookup, bool_decide_eq_true_2 by done.
      assert (is_Some (sm_slots m !! i)) as [sl ->]; [|by exists (with_state (Slot_Content id h) sl), h].
      apply list_elem_of_fmap in Hi as (u & -> & Hi'). apply lookup_lt_is_Some.
      unfold updates_ok in Hu. rewrite list.Forall_forall in Hu. by apply Hu.
    + pose proof (Hother id' l Hl Hid) as Hl'. destruct (view_content _ _ _ _ Hv id' l Hl') as [Hnd Hin].
      destruct (rewritten_other s m f t ups st id id' l Hv Hu Hno Hl' Hid) as [Hout _].
      split; [exact Hnd|]. intros i n Hi. destruct (Hin i n Hi) as (Hmax & sl & h & Hsl & Hs).
      split; [done|]. exists sl, h. rewrite mark_all_lookup, bool_decide_eq_false_2; [done|].
      apply Hout, list_elem_of_fmap. by exists (i, n).
Qed.

(** ** Storing *)

Lemma zip_shorten {A} (used rest : list nat) (c : list A) :
  length used = length c → zip (used ++ rest) c = zip used c.
Proof. revert c. induction used as [|i used IH]; intros [|x c] Hl; [by destruct rest|done..|]. simpl in *. f_equal. apply IH. lia. Qed.

Lemma zip_updates_ok slots used (chunks : list bytes) :
  (∀ i, i ∈ used → is_Some (slots !! i)) → updates_ok slots (zip used (padded <$> chunks)).
Proof.
  intros Hin. apply list.Forall_forall. intros [j e] Hj. apply elem_of_zip_l in Hj as Hj1.
  apply elem_of_zip_r in Hj. apply list_elem_of_fmap in Hj as (d & -> & _). cbn [fst snd].
  split; [|apply resize_length]. by apply lookup_lt_is_Some, Hin.
Qed.

Lemma chunks_written slots f used (chunks : list bytes) st :
  geometry_ok slots f → length used = length chunks → NoDup used →
  (∀ i, i ∈ used → is_Some (slots !! i)) → Forall (λ d, length d ≤ MAX_CHUNK_SIZE)%nat chunks →
  chunks_at (mark_all slots used st) (write_slots slots f (zip used (padded <$> chunks)))
    (zip used (length <$> chunks)) = chunks.
Proof.
  intros Hg Hl Hn Hin Hc. apply list_eq. intros k. unfold chunks_at. rewrite list_lookup_fmap.
  destruct (chunks !! k) as [d|] eqn:Hd.
  - destruct (lookup_lt_is_Some_2 used k) as [i Hi]; [rewrite Hl; by eapply lookup_lt_Some|].
    assert (zip used (length <$> chunks) !! k = Some (i, length d)) as ->.
    { apply lookup_zip_with_Some. exists i, (length d). split_and!; [done..|].
      by rewrite list_lookup_fmap, Hd. }
    cbn [fmap option_fmap option_map]. f_equal. unfold chunk_at. cbn [fst snd].
    rewrite mark_all_bytes. destruct (Hin i ltac:(by eapply list_elem_of_lookup_2)) as [sl Hsl].
    rewrite Hsl. cbn [fmap option_fmap option_map default].
    rewrite (write_slots_in slots f (zip used (padded <$> chunks)) i (padded d) sl Hg).
    + rewrite list.Forall_forall in Hc. apply take_resize, Hc. by eapply list_elem_of_lookup_2.
    + by apply zip_updates_ok.
    + rewrite fst_zip by (rewrite length_fmap; lia). done.
    + apply (list_elem_of_lookup_2 _ k). apply lookup_zip_with_Some. exists i, (padded d).
      split_and!; [done..|]. by rewrite list_lookup_fmap, Hd.
    + exact Hsl.
  - assert (zip used (length <$> chunks) !! k = None) as ->; [|done].
    apply lookup_ge_None. rewrite length_zip_with, length_fmap. apply lookup_ge_None in Hd. lia.
Qed.

(** A view decides the shelf. *)
Lemma view_shelf s m f t :
  capacity_view s m f t →
  shelf_of s = mkShelf (chunks_at (sm_slots m) f <$> cm_content_slot_map s)
    (open_count (sm_slots m)).
Proof. intros Hv. unfold shelf_of, slots_of. by rewrite (view_slots _ _ _ _ Hv), (view_file _ _ _ _ Hv). Qed.

(** The shelf after some slots were rewritten: the entry of [id] is the new one
    and the others are as before. *)
Lemma rewritten_shelved s m f t ups st id cmap :
  capacity_view s m f t → updates_ok (sm_slots m) ups → not_others (sm_slots m) id ups.*1 →
  (∀ id', id' ≠ id → cmap !! id' = cm_content_slot_map s !! id') →
  chunks_at (mark_all (sm_slots m) ups.*1 st) (write_slots (sm_slots m) f ups)
    <$> cmap =
  match cmap !! id with
  | Some l => <[id := chunks_at (mark_all (sm_slots m) ups.*1 st) (write_slots (sm_slots m) f ups) l]>
                (shelved (shelf_of s))
  | None => delete id (shelved (shelf_of s))
  end.
Proof.
  intros Hv Hu Hno Heq. rewrite (view_shelf s m f t Hv). cbn [shelved]. apply map_eq. intros id'.
  rewrite lookup_fmap. destruct (decide (id' = id)) as [->|Hid].
  - destruct (cmap !! id); [by rewrite lookup_insert_eq|by rewrite lookup_delete_eq].
  - transitivity ((chunks_at (sm_slots m) f <$> cm_content_slot_map s) !! id').
    + rewrite lookup_fmap, (Heq id' Hid). destruct (cm_content_slot_map s !! id') as [l|] eqn:Hl; [|done].
      cbn [fmap option_fmap option_map]. f_equal.
      exact (proj2 (rewritten_other s m f t ups st id id' l Hv Hu Hno Hl Hid)).
    + destruct (cmap !! id); [by rewrite lookup_insert_ne|by rewrite lookup_delete_ne].
Qed.

(** The slots [store_content_chunks] uses, and the spare one when it needs none. *)
Lemma find_used n s m :
  cm_slot_map s = Some m → (n ≤ open_count (sm_slots m))%nat →
  ∃ used rest, find_open_slots n s = Ok (used ++ rest) ∧ length used = n ∧ NoDup used ∧
    (∀ i, i ∈ used → is_open <$> sm_slots m !! i = Some true) ∧
    (∀ i, i ∈ used ++ rest → is_Some (sm_slots m !! i)).
Proof.
  intros Hm Hroom. pose proof (find_open_slots_spec n s m Hm) as Hfind.
  rewrite (proj2 (Nat.ltb_ge _ _)) in Hfind by done. destruct Hfind as (idxs & Hfind & Hlen & Hn & Hopen).
  exists (take n idxs), (drop n idxs). rewrite take_drop. split_and!.
  - exact Hfind.
  - rewrite length_take. lia.
  - eapply sublist_NoDup; [exact Hn|apply sublist_take].
  - intros i Hi. apply Hopen. eapply elem_of_sublist; [exact Hi|apply sublist_take].
  - intros i Hi. specialize (Hopen i Hi). by destruct (sm_slots m !! i).
Qed.

(** The slot map and the content map marked and saved. *)
Definition saved (s : CapacityManager) (f : bytes) (m : SlotMap) (cmap : ContentSlotMap) : CapacityManager :=
  mkCapacityManager (cm_provider_id s) (Some m) cmap (cm_merkle_tree s) (cm_initialized s) (Some f)
    (Some (slot_map_to_json m)) (Some (content_map_to_json cmap)).

Lemma mark_and_save s m f sizes id h :
  cm_slot_map s = Some m → (∀ i, i ∈ sizes.*1 → is_Some (sm_slots m !! i)) →
  (_ ← mark_slots_as_content sizes id h; save_slot_map) (set_file_capacity (Some f) s) =
    (Ok tt, saved s f (with_slots m (mark_all (sm_slots m) sizes.*1 (Slot_Content id h)))
              (<[id := sizes]> (cm_content_slot_map s))).
Proof.
  intros Hm Hin. unfold mark_slots_as_content, mbind, cm_bind.
  rewrite (set_slot_states_run _ _ _ _ m) by done.
  unfold cm_modify, save_content_slot_map, save_slot_map, cm_get, cm_lift, slot_map_ref, mbind, cm_bind. done.
Qed.

Lemma store_run id chunks s m f t :
  capacity_view s m f t → Forall (λ d, length d ≤ MAX_CHUNK_SIZE)%nat chunks →
  (length chunks ≤ open_count (sm_slots m))%nat →
  ∃ used t' h,
    let ups := zip used (padded <$> chunks) in
    length used = length chunks ∧ NoDup used ∧
    (∀ i, i ∈ used → is_open <$> sm_slots m !! i = Some true) ∧
    build (leaves (sm_slots m) (write_slots (sm_slots m) f ups)) = Some t' ∧
    store_content_chunks id chunks s =
      (Ok used, rewritten s m f ups (Slot_Content id h)
                  (<[id := zip used (length <$> chunks)]> (cm_content_slot_map s)) t').
Proof.
  intros Hv Hc Hroom. pose proof (view_geometry _ _ _ _ Hv) as Hg.
  pose proof (view_slots _ _ _ _ Hv) as Hm. pose proof (view_file _ _ _ _ Hv) as Hf.
  destruct (find_used (length chunks) s m Hm Hroom) as (used & rest & Hfind & Hl & Hn & Hopen & Hin).
  assert (∀ i, i ∈ used → is_Some (sm_slots m !! i)) as Hin'
    by (intros; apply Hin, elem_of_app; by left).
  pose proof (zip_updates_ok (sm_slots m) used chunks Hin') as Hu.
  set (ups := zip used (padded <$> chunks)) in *. set (sizes := zip used (length <$> chunks)).
  assert (ups.*1 = used) as Hu1 by (apply fst_zip; rewrite length_fmap; lia).
  assert (hash_chunk <$> ups.*2 = (λ d, hash_chunk (padded d)) <$> chunks) as Hu2.
  { unfold ups. rewrite snd_zip by (rewrite length_fmap; lia). by rewrite <- list_fmap_compose. }
  assert (sizes.*1 = used) as Hz1 by (apply fst_zip; rewrite length_fmap; lia).
  set (h := committed_hash_of ((λ d, hash_chunk (padded d)) <$> chunks)).
  set (s1 := saved s (write_slots (sm_slots m) f ups)
    (with_slots m (mark_all (sm_slots m) used (Slot_Content id h))) (<[id := sizes]> (cm_content_slot_map s))).
  destruct (update_tree_run s1 t (sm_slots m) f ups) as (t' & Hup & Ht');
    [exact (view_tree _ _ _ _ Hv)|exact (view_leaves _ _ _ _ Hv)|done..|].
  exists used, t', h. split_and!; [done..|].
  unfold store_content_chunks, cm_get, cm_lift. unfold mbind at 1 2, cm_bind at 1 2. rewrite Hfind.
  unfold mbind at 1, cm_bind at 1.
  rewrite (write_chunks_run (used ++ rest) chunks s m f Hm Hf Hg ltac:(rewrite length_app; lia) Hin Hc).
  rewrite !zip_shorten by (by rewrite length_fmap). fold ups sizes h.
  pose proof (mark_and_save s m (write_slots (sm_slots m) f ups) sizes id h Hm) as Hsave.
  rewrite Hz1 in *. specialize (Hsave Hin'). fold s1 in Hsave.
  revert Hsave. unfold mbind, cm_bind.
  destruct (mark_slots_as_content sizes id h _) as [[[]|e] s2]; [|done]. intros Hsave. rewrite Hsave.
  rewrite Hu1, Hu2 in Hup. rewrite Hup. unfold mret, cm_ret, rewritten. by rewrite Hu1.
Qed.

(** ** Deleting *)

Lemma zero_hashes_run m l :
  (∀ i n, (i, n) ∈ l → ∃ sl, sm_slots m !! i = Some sl ∧ slot_size sl = MAX_CHUNK_SIZE) →
  zero_hashes m l = Ok (hash_chunk <$> ((λ e, (e.1, zeros MAX_CHUNK_SIZE)) <$> l).*2).
Proof.
  induction l as [|[i n] l IH]; intros Hin; [done|]. cbn [zero_hashes].
  destruct (Hin i n ltac:(by left)) as (sl & Hsl & Hs). rewrite Hsl. cbn [ok_or].
  rewrite IH by (intros; eapply Hin; by right). by rewrite Hs.
Qed.

Lemma clear_slots_run l s m f :
  cm_slot_map s = Some m → file_capacity s = Some f → geometry_ok (sm_slots m) f →
  (∀ i, i ∈ l.*1 → is_Some (sm_slots m !! i)) →
  clear_slots l s =
    (Ok tt, set_file_capacity
       (Some (write_slots (sm_slots m) f ((λ e, (e.1, zeros MAX_CHUNK_SIZE)) <$> l))) s).
Proof.
  revert s f. induction l as [|[i n] l IH]; intros s f Hm Hf Hg Hin.
  { cbn [clear_slots]. unfold write_slots. cbn [fmap list_fmap foldl].
    by rewrite (set_file_capacity_id s f Hf). }
  destruct (Hin i ltac:(by left)) as [sl Hsl]. destruct (slot_fits _ _ Hg i sl Hsl) as [Hs Hb].
  cbn [clear_slots]. unfold mbind, cm_bind.
  rewrite (write_chunk_run i [] s m f sl Hm Hf Hsl) by (simpl; lia). rewrite resize_nil, Hs.
  destruct (geometry_write _ f i sl (zeros MAX_CHUNK_SIZE) Hg Hsl (zeros_length _)) as [Hg' _].
  rewrite (IH (set_file_capacity (Some (write_at f (slot_offset sl) (zeros MAX_CHUNK_SIZE))) s)
    (write_at f (slot_offset sl) (zeros MAX_CHUNK_SIZE)) Hm eq_refl Hg')
    by (intros; apply Hin; by right).
  rewrite fmap_cons. unfold write_slots at 2. cbn [foldl fst snd]. by rewrite Hsl.
Qed.

Lemma remove_and_save s m f sizes id :
  cm_slot_map s = Some m → cm_content_slot_map s !! id = Some sizes →
  (∀ i, i ∈ sizes.*1 → is_Some (sm_slots m !! i)) →
  (r ← remove_content_by_id id; _ ← save_slot_map; mret r) (set_file_capacity (Some f) s) =
    (Ok sizes, saved s f (with_slots m (mark_all (sm_slots m) sizes.*1 Slot_Open))
                 (delete id (cm_content_slot_map s))).
Proof.
  intros Hm Hid Hin. unfold remove_content_by_id, find_slots_by_content_id, cm_get, cm_lift, mbind, cm_bind.
  cbn [cm_content_slot_map set_file_capacity]. rewrite Hid. cbn [ok_or].
  rewrite (set_slot_states_run _ _ _ _ m) by done.
  unfold cm_modify, save_content_slot_map, save_slot_map, cm_get, cm_lift, slot_map_ref, mbind, cm_bind. done.
Qed.

Lemma delete_run id s m f t l :
  capacity_view s m f t → cm_content_slot_map s !! id = Some l →
  ∃ t', let ups := (λ e, (e.1, zeros MAX_CHUNK_SIZE)) <$> l in
    updates_ok (sm_slots m) ups ∧ ups.*1 = l.*1 ∧
    build (leaves (sm_slots m) (write_slots (sm_slots m) f ups)) = Some t' ∧
    delete_content_from_slots id s =
      (Ok tt, rewritten s m f ups Slot_Open (delete id (cm_content_slot_map s)) t').
Proof.
  intros Hv Hid. pose proof (view_geometry _ _ _ _ Hv) as Hg.
  pose proof (view_slots _ _ _ _ Hv) as Hm. pose proof (view_file _ _ _ _ Hv) as Hf.
  destruct (view_content _ _ _ _ Hv id l Hid) as [_ Hin].
  set (ups := (λ e : nat * nat, (e.1, zeros MAX_CHUNK_SIZE)) <$> l).
  assert (∀ i, i ∈ l.*1 → is_Some (sm_slots m !! i)) as Hsome.
  { intros i Hi. apply list_elem_of_fmap in Hi as ([i' n] & -> & Hi). destruct (Hin _ _ Hi) as (_ & sl & h & Hsl & _).
    by exists sl. }
  assert (updates_ok (sm_slots m) ups) as Hu.
  { apply list.Forall_forall. intros u Hu. apply list_elem_of_fmap in Hu as (e & -> & He). cbn [fst snd].
    split; [|apply zeros_length]. apply lookup_lt_is_Some, Hsome, list_elem_of_fmap. by exists e. }
  assert (ups.*1 = l.*1) as Hu1 by (unfold ups; by rewrite <- list_fmap_compose).
  set (s1 := saved s (write_slots (sm_slots m) f ups)
    (with_slots m (mark_all (sm_slots m) l.*1 Slot_Open)) (delete id (cm_content_slot_map s))).
  destruct (update_tree_run s1 t (sm_slots m) f ups) as (t' & Hup & Ht');
    [exact (view_tree _ _ _ _ Hv)|exact (view_leaves _ _ _ _ Hv)|done..|].
  exists t'. split_and!; [done..|].
  unfold delete_content_from_slots, cm_get, cm_lift, find_slots_by_content_id, slot_map_ref.
  unfold mbind at 1 2 3 4, cm_bind at 1 2 3 4. rewrite Hid. cbn [ok_or]. rewrite Hm. cbn [ok_or].
  rewrite zero_hashes_run by (intros i n Hi; destruct (Hin i n Hi) as (_ & sl & h & Hsl & _);
    exists sl; split; [done|by apply (slot_fits _ _ Hg i)]).
  unfold mbind at 1, cm_bind at 1. rewrite (clear_slots_run l s m f Hm Hf Hg Hsome). fold ups.
  pose proof (remove_and_save s m (write_slots (sm_slots m) f ups) l id Hm Hid Hsome) as Hsave.
  fold s1 in Hsave. revert Hsave. unfold mbind, cm_bind.
  destruct (remove_content_by_id id _) as [[r|e] s2]; [|done].
  destruct (save_slot_map s2) as [[[]|e] s3]; [|done]. unfold mret, cm_ret. intros [= -> ->].
  unfold get_merkle_root. change (cm_merkle_tree s1) with (cm_merkle_tree s).
  rewrite (view_tree _ _ _ _ Hv). cbn [ok_or]. rewrite Hu1 in Hup. rewrite Hup.
  unfold rewritten. by rewrite Hu1.
Qed.

(** ** Refinement of the shelf *)

(** The process starts again on the same files. *)
Definition reopened (s : CapacityManager) : CapacityManager :=
  mkCapacityManager (cm_provider_id s) None ∅ None false (file_capacity s) (file_slots s)
    (file_content_map s).

Lemma read_chunks_run l s m f :
  cm_slot_map s = Some m → file_capacity s = Some f → geometry_ok (sm_slots m) f →
  (∀ i n, (i, n) ∈ l → (n ≤ MAX_CHUNK_SIZE)%nat ∧ is_Some (sm_slots m !! i)) →
  read_chunks l s = Ok (concat (chunks_at (sm_slots m) f l)).
Proof.
  intros Hm Hf Hg. induction l as [|[i n] l IH]; intros Hin; [done|].
  destruct (Hin i n ltac:(by left)) as [Hn [sl Hsl]]. destruct (slot_fits _ _ Hg i sl Hsl) as [Hs Hb].
  cbn [read_chunks]. unfold read_chunk_from_slot, slot_map_ref. rewrite Hm. cbn [ok_or].
  rewrite Hsl. cbn [ok_or]. rewrite Hf. cbn [ok_or]. rewrite read_at_range by lia. cbn [ok_or].
  rewrite range_length by lia. rewrite (proj2 (Nat.ltb_ge _ _)) by lia.
  rewrite IH by (intros; apply Hin; by right). unfold chunks_at. rewrite fmap_cons. cbn [concat].
  do 2 f_equal. unfold chunk_at. cbn [fst snd]. by rewrite Hsl.
Qed.

Lemma get_content_shelf id s :
  capacity_ok s → get_content_from_slots id s = Ok (@concat byte <$> shelved (shelf_of s) !! id).
Proof.
  intros (m & f & t & Hv). rewrite (view_shelf s m f t Hv). cbn [shelved]. rewrite lookup_fmap.
  unfold get_content_from_slots, find_slots_by_content_id.
  destruct (cm_content_slot_map s !! id) as [l|] eqn:Hl; [|done]. cbn [ok_or].
  destruct (view_content _ _ _ _ Hv id l Hl) as [_ Hin].
  rewrite (read_chunks_run l s m f (view_slots _ _ _ _ Hv) (view_file _ _ _ _ Hv) (view_geometry _ _ _ _ Hv)).
  - done.
  - intros i n Hi. destruct (Hin i n Hi) as (Hn & sl & h & Hsl & _). split; [done|by exists sl].
Qed.

Lemma store_shelf id chunks s :
  capacity_ok s → Forall (λ d, length d ≤ MAX_CHUNK_SIZE)%nat chunks →
  match shelf_put id chunks (shelf_of s) with
  | None => store_content_chunks id chunks s = (Err (StorageError "find_open_slots"), s)
  | Some sh => ∃ used s', store_content_chunks id chunks s = (Ok used, s') ∧
      length used = length chunks ∧ capacity_ok s' ∧ shelf_of s' = sh ∧
      cm_provider_id s' = cm_provider_id s ∧ cm_initialized s' = cm_initialized s
  end.
Proof.
  intros (m & f & t & Hv) Hc. pose proof (view_shelf s m f t Hv) as Hsh. unfold shelf_put. rewrite Hsh.
  cbn [room]. destruct (open_count (sm_slots m) <? length chunks)%nat eqn:Hroom.
  { pose proof (find_open_slots_spec (length chunks) s m (view_slots _ _ _ _ Hv)) as Hf. rewrite Hroom in Hf.
    unfold store_content_chunks, cm_get, cm_lift, mbind, cm_bind. by rewrite Hf. }
  apply Nat.ltb_ge in Hroom. rewrite <- Hsh.
  destruct (store_run id chunks s m f t Hv Hc Hroom) as (used & t' & h & Hl & Hn & Hopen & Ht' & Hrun).
  assert (∀ i, i ∈ used → is_Some (sm_slots m !! i)) as Hin
    by (intros i Hi; specialize (Hopen i Hi); by destruct (sm_slots m !! i)).
  pose proof (zip_updates_ok (sm_slots m) used chunks Hin) as Hu.
  pose proof (chunks_written (sm_slots m) f used chunks (Slot_Content id h) (view_geometry _ _ _ _ Hv)
    Hl Hn Hin Hc) as Hw.
  set (ups := zip used (padded <$> chunks)) in *. set (sizes := zip used (length <$> chunks)) in *.
  assert (ups.*1 = used) as Hu1 by (apply fst_zip; rewrite length_fmap; lia).
  assert (not_others (sm_slots m) id ups.*1) as Hno.
  { intros i sl id' h' Hi Hsl Hst. rewrite Hu1 in Hi. specialize (Hopen i Hi). rewrite Hsl in Hopen.
    unfold is_open in Hopen. cbn in Hopen. by rewrite Hst in Hopen. }
  assert (capacity_view (rewritten s m f ups (Slot_Content id h) (<[id := sizes]> (cm_content_slot_map s)) t')
    (with_slots m (mark_all (sm_slots m) ups.*1 (Slot_Content id h)))
    (write_slots (sm_slots m) f ups) t') as Hv'.
  { apply (rewritten_view s m f t ups _ _ _ id Hv Hu); [by rewrite Hu1|done..| |].
    - intros id' l Hl' Hid. by rewrite lookup_insert_ne in Hl'.
    - intros l Hl'. rewrite lookup_insert_eq in Hl'. injection Hl' as <-. split_and!.
      + unfold sizes. by rewrite fst_zip by (rewrite length_fmap; lia).
      + by exists h.
      + intros i n Hi. rewrite Hu1. split; [|by eapply elem_of_zip_l].
        apply elem_of_zip_r, list_elem_of_fmap in Hi as (d & -> & Hd).
        rewrite list.Forall_forall in Hc. by apply Hc. }
  eexists _, _. split; [exact Hrun|]. split_and!; [done|by eexists _, _, _| |done|done].
  rewrite (view_shelf _ _ _ _ Hv'). cbn [sm_slots with_slots cm_content_slot_map rewritten]. f_equal.
  - rewrite (rewritten_shelved s m f t ups _ id _ Hv Hu Hno) by (intros; by apply lookup_insert_ne).
    rewrite lookup_insert_eq, Hu1, Hw. done.
  - rewrite Hu1. pose proof (open_count_mark (sm_slots m) used (Slot_Content id h) true Hn Hopen) as Ho.
    cbn [room is_open_state Nat.b2n] in *. lia.
Qed.

Lemma delete_shelf id s :
  capacity_ok s →
  match shelf_drop id (shelf_of s) with
  | None => delete_content_from_slots id s = (Err (NotFoundError "content_id_not_in_slot_map" id), s)
  | Some sh => ∃ s', delete_content_from_slots id s = (Ok tt, s') ∧ capacity_ok s' ∧ shelf_of s' = sh ∧
      cm_provider_id s' = cm_provider_id s ∧ cm_initialized s' = cm_initialized s
  end.
Proof.
  intros (m & f & t & Hv). pose proof (view_shelf s m f t Hv) as Hsh. unfold shelf_drop.
  assert (shelved (shelf_of s) !! id = chunks_at (sm_slots m) f <$> cm_content_slot_map s !! id) as ->
    by (rewrite Hsh; apply lookup_fmap).
  destruct (cm_content_slot_map s !! id) as [l|] eqn:Hid; cycle 1.
  { unfold delete_content_from_slots, find_slots_by_content_id, cm_get, cm_lift, mbind, cm_bind. by rewrite Hid. }
  cbn [fmap option_fmap option_map mbind option_bind].
  destruct (delete_run id s m f t l Hv Hid) as (t' & Hu & Hu1 & Ht' & Hrun).
  destruct (view_content _ _ _ _ Hv id l Hid) as [Hn Hin].
  set (ups := (λ e : nat * nat, (e.1, zeros MAX_CHUNK_SIZE)) <$> l) in *.
  assert (∀ i, i ∈ l.*1 → ∃ sl h, sm_slots m !! i = Some sl ∧ slot_state sl = Slot_Content id h) as Hst.
  { intros i Hi. apply list_elem_of_fmap in Hi as ([i' n] & -> & Hi). by destruct (Hin _ _ Hi). }
  assert (not_others (sm_slots m) id ups.*1) as Hno.
  { intros i sl id' h' Hi Hsl Hs. rewrite Hu1 in Hi. destruct (Hst i Hi) as (sl' & h & Hsl' & Hs').
    congruence. }
  assert (capacity_view (rewritten s m f ups Slot_Open (delete id (cm_content_slot_map s)) t')
    (with_slots m (mark_all (sm_slots m) ups.*1 Slot_Open)) (write_slots (sm_slots m) f ups) t') as Hv'.
  { apply (rewritten_view s m f t ups _ _ _ id Hv Hu); [by rewrite Hu1|done..| | |].
    - intros i d Hi. apply list_elem_of_fmap in Hi as (e & [= -> ->] & _). done.
    - intros id' l' Hl' Hne. by rewrite lookup_delete_ne in Hl'.
    - intros l' Hl'. by rewrite lookup_delete_eq in Hl'. }
  eexists. split; [exact Hrun|]. split_and!; [by eexists _, _, _| |done|done].
  rewrite (view_shelf _ _ _ _ Hv'). cbn [sm_slots with_slots cm_content_slot_map rewritten]. f_equal.
  - rewrite (rewritten_shelved s m f t ups _ id _ Hv Hu Hno) by (intros; by apply lookup_delete_ne).
    by rewrite lookup_delete_eq.
  - rewrite Hsh, Hu1. cbn [room]. unfold chunks_at. rewrite length_fmap.
    pose proof (open_count_mark (sm_slots m) l.*1 Slot_Open false Hn) as Ho.
    rewrite length_fmap in Ho. cbn [is_open_state Nat.b2n] in Ho. rewrite <- (Nat.add_0_r (open_count _)).
    replace 0%nat with (length l * 0)%nat by lia. rewrite Ho; [lia|].
    intros i Hi. destruct (Hst i Hi) as (sl & h & Hsl & Hs). rewrite Hsl. unfold is_open. cbn. by rewrite Hs.
Qed.

(** ** Restart *)

Lemma slot_leaves_run {XL : Blake3XofLaws X} m f slots k :
  (∀ j sl, slots !! j = Some sl →
    slot_size sl = MAX_CHUNK_SIZE ∧ (slot_offset sl + MAX_CHUNK_SIZE ≤ length f)%nat ∧
    ∀ d, filler m (k + j) sl = Some d → slot_bytes f sl = d) →
  slot_leaves m (Some f) k slots = Some (Ok (leaves slots f)).
Proof.
  revert k. induction slots as [|sl slots IH]; intros k Hs; [done|]. cbn [slot_leaves].
  destruct (Hs 0%nat sl eq_refl) as (Hsz & Hfit & Hfill). rewrite Nat.add_0_r in Hfill.
  assert (slot_leaf m (Some f) k sl = Some (Ok (hash_chunk (slot_bytes f sl)))) as ->.
  { unfold slot_leaf. unfold filler in Hfill. destruct (slot_state sl); cbn [ok_or].
    - unfold generate_chunk_data at 1. rewrite blake3_xof_length, (proj2 (Nat.ltb_ge _ _)) by lia.
      by rewrite (Hfill _ eq_refl).
    - by rewrite (Hfill _ eq_refl).
    - rewrite read_at_range by lia. done. }
  cbn [mbind option_bind]. rewrite IH; [done|].
  intros j sl' Hj. destruct (Hs (S j) sl' Hj) as (H1 & H2 & H3). split_and!; [done..|].
  intros d. rewrite <- Nat.add_succ_comm in H3. apply H3.
Qed.

(** A restart rebuilds the state, with the tree the updates had led to. *)
Lemma restart_capacity {XL : Blake3XofLaws X} {JL : SlotJsonLaws J} s :
  capacity_ok s → initialize (reopened s) = Some (Ok tt, set_initialized true s).
Proof.
  intros (m & f & t & [Hm Hf Ht Hsm Hcm Hg Hb Hfill Hcont]).
  destruct s as [pid sm cmap tree ini fc fs fcm]. cbn in *. subst.
  unfold initialize, reopened, slot_map_exists. cbn [cm_initialized file_slots].
  unfold load_slot_map, load_content_slot_map, cm_ignore, cm_get, cm_lift, cm_modify, mbind, cm_bind.
  cbn [file_slots file_content_map]. rewrite slot_map_json. cbn [ok_or].
  assert (slot_leaves m (Some f) 0 (sm_slots m) = Some (Ok (leaves (sm_slots m) f))) as Hl.
  { apply slot_leaves_run. intros j sl Hj. destruct (slot_fits _ _ Hg j sl Hj). split_and!; [done..|].
    intros d. by apply Hfill. }
  destruct Hcm as [->|[-> ->]].
  - cbn [file_content_map set_slot_map]. rewrite content_map_json. cbn [ok_or snd cm_slot_map set_content_slot_map set_slot_map].
    unfold build_merkle_tree. cbn [file_capacity set_content_slot_map set_slot_map].
    rewrite Hl. cbn [mbind option_bind]. rewrite Hb. done.
  - cbn [file_content_map set_slot_map snd cm_slot_map].
    unfold build_merkle_tree. cbn [file_capacity set_slot_map].
    rewrite Hl. cbn [mbind option_bind]. rewrite Hb. done.
Qed.

(** ** Answers *)

Lemma chunk_proofs_run s m f t idxs :
  capacity_view s m f t → Forall (λ i, i < length (sm_slots m))%nat idxs →
  ∃ proofs, chunk_proofs m f t idxs = Some (Ok proofs) ∧ length proofs = length idxs ∧
    forallb (λ '(i, p), chunk_proof_ok (tree_root t) i p) (zip (Z.of_nat <$> idxs) proofs) = true.
Proof.
  intros Hv. induction 1 as [|i idxs Hi _ (proofs & Hp & Hl & Hok)]; [by exists []|].
  pose proof (view_geometry _ _ _ _ Hv) as Hg. destruct (lookup_lt_is_Some_2 _ i Hi) as [sl Hsl].
  destruct (slot_fits _ _ Hg i sl Hsl) as [Hs Hb].
  destruct (leaf_proof_verifies (leaves (sm_slots m) f) i (hash_chunk (slot_bytes f sl)))
    as (t' & p & Ht' & Hgen & _ & Hver).
  { unfold leaves. by rewrite list_lookup_fmap, Hsl. }
  rewrite (view_leaves _ _ _ _ Hv) in Ht'. injection Ht' as <-.
  cbn [chunk_proofs]. rewrite Hsl, read_at_range by lia.
  rewrite Hgen. cbn [mbind option_bind]. rewrite Hp. cbn [mbind option_bind]. eexists. split; [done|]. split; [simpl; by rewrite Hl|].
  rewrite fmap_cons. cbn [zip zip_with forallb]. fold (slot_bytes f sl). rewrite Hok.
  unfold chunk_proof_ok. cbn [chunk_index chunk_data chunk_hash chunk_merkle_proof chunk_slot_state].
  rewrite Z.eqb_refl, Nat2Z.id, Hver, bool_decide_eq_true_2 by done. cbn [andb].
  destruct (slot_state sl) eqn:Hst; [done| |done]. rewrite andb_true_r.
  rewrite (view_filler _ _ _ _ Hv i sl (zeros (slot_size sl)) Hsl) by (unfold filler; by rewrite Hst).
  apply forallb_forall. intros b Hb'. apply list_elem_of_In, elem_of_replicate in Hb' as [-> _]. by apply bool_decide_eq_true.
Qed.

Lemma honest_answer s root idxs :
  capacity_ok s → cm_initialized s = true → get_merkle_root s = Ok root →
  Forall (λ i, i < length (slots_of s))%nat idxs →
  ∃ proofs, generate_capacity_proof (cm_provider_id s) idxs root s = Some (Ok proofs) ∧
    validate_challenge_proof proofs root (Z.of_nat <$> idxs) = true.
Proof.
  intros (m & f & t & Hv) Hini Hroot Hin. unfold get_merkle_root in Hroot.
  rewrite (view_tree _ _ _ _ Hv) in Hroot. injection Hroot as <-.
  unfold slots_of in Hin. rewrite (view_slots _ _ _ _ Hv) in Hin.
  destruct (chunk_proofs_run s m f t idxs Hv Hin) as (proofs & Hp & Hl & Hok).
  exists proofs. unfold generate_capacity_proof, validate_challenge_proof.
  rewrite bool_decide_eq_true_2, Hini, (view_tree _ _ _ _ Hv) by done. cbn [negb].
  rewrite bool_decide_eq_true_2, (view_slots _ _ _ _ Hv), (view_file _ _ _ _ Hv) by done. cbn [negb].
  split; [exact Hp|]. rewrite length_fmap, Hl, Nat.eqb_refl. exact Hok.
Qed.

(** ** Allocation *)

Lemma swap_permutation {A} (l : list A) i j : swap l i j ≡ₚ l.
Proof.
  unfold swap. destruct (l !! i) as [a|] eqn:Hi; [|done]. destruct (l !! j) as [b|] eqn:Hj; [|done].
  destruct (decide (i = j)) as [->|Hij].
  { rewrite list_insert_insert_eq. rewrite list_insert_id; [done|congruence]. }
  pose proof (lookup_lt_Some _ _ _ Hi). pose proof (lookup_lt_Some _ _ _ Hj).
  apply Permutation_inj. split; [by rewrite !length_insert|].
  exists (λ k, if decide (k = i) then j else if decide (k = j) then i else k). split.
  - intros x y. repeat case_decide; subst; congruence.
  - intros k. cbv beta. destruct (decide (k = j)) as [->|Hkj].
    + rewrite list_lookup_insert_eq by (rewrite length_insert; done).
      by rewrite decide_False.
    + rewrite list_lookup_insert_ne by done. destruct (decide (k = i)) as [->|Hki].
      * rewrite list_lookup_insert_eq by done. by rewrite Hj.
      * by rewrite list_lookup_insert_ne.
Qed.

Lemma shuffle_permutation base i l : shuffle_slots base i l ≡ₚ l.
Proof.
  revert l. induction i as [|i IH]; intros l; [done|]. cbn [shuffle_slots]. rewrite IH. apply swap_permutation.
Qed.

(** A capacity of whole chunks is the first [c - 1] chunks of the file in some
    order, then the last one. *)
Lemma chunk_offsets_blocks c seed pid :
  ∃ blocks, blocks ≡ₚ seq 0 (S c) ∧
    chunk_offsets (S c * MAX_CHUNK_SIZE) seed pid = (λ k, (k * MAX_CHUNK_SIZE, MAX_CHUNK_SIZE))%nat <$> blocks.
Proof.
  unfold chunk_offsets.
  assert ((S c * MAX_CHUNK_SIZE + (MAX_CHUNK_SIZE - 1)) / MAX_CHUNK_SIZE = S c)%nat as ->.
  { rewrite Nat.div_add_l by done. rewrite Nat.div_small by (unfold MAX_CHUNK_SIZE; lia). lia. }
  assert ((S c * MAX_CHUNK_SIZE) mod MAX_CHUNK_SIZE = 0)%nat as -> by (apply Nat.Div0.mod_mul).
  replace (S c - 1)%nat with c by lia. change (0 <? 0)%nat with false. cbv beta iota zeta.
  exists (shuffle_slots (create_deterministic_hasher "OFFSET_MAP" seed pid) (c - 1) (seq 0 c) ++ [c]). split.
  - rewrite shuffle_permutation, seq_S. done.
  - rewrite fmap_app. f_equal. cbn [fmap list_fmap]. do 2 f_equal. lia.
Qed.

Lemma blocks_no_overlap blocks :
  NoDup blocks → any_overlap ((λ k, (k * MAX_CHUNK_SIZE, MAX_CHUNK_SIZE))%nat <$> blocks) = false.
Proof.
  induction 1 as [|k blocks Hk Hn IH]; [done|]. rewrite fmap_cons. cbn [any_overlap]. rewrite IH, orb_false_r.
  apply not_true_is_false. intros (e & He & Hov)%existsb_exists.
  apply list_elem_of_In, list_elem_of_fmap in He as (j & -> & Hj).
  assert (j ≠ k) by (by intros ->). unfold overlaps in Hov. cbn [fst snd] in Hov.
  apply andb_true_iff in Hov as [H1 H2]. apply Nat.ltb_lt in H1, H2. unfold MAX_CHUNK_SIZE in *. lia.
Qed.

(** What allocation leaves in the file: the initial chunk of every slot. *)
Lemma write_initial_spec seed pid slots k f :
  geometry_ok slots f → (∀ j sl, slots !! j = Some sl → length (initial_chunk seed pid (k + j) sl) = MAX_CHUNK_SIZE) →
  ∃ f', write_initial seed pid k slots f = (f', leaves slots f') ∧ length f' = length f ∧
    (∀ j sl, slots !! j = Some sl → slot_bytes f' sl = initial_chunk seed pid (k + j) sl) ∧
    (∀ off n, (∀ j sl, slots !! j = Some sl → off + n ≤ slot_offset sl ∨ slot_offset sl + MAX_CHUNK_SIZE ≤ off)%nat →
      range f' off n = range f off n).
Proof.
  revert k f. induction slots as [|sl slots IH]; intros k f Hg Hlen; [by exists f|].
  cbn [write_initial]. pose proof (Hlen 0%nat sl eq_refl) as Hd. rewrite Nat.add_0_r in Hd.
  set (d := initial_chunk seed pid k sl) in *. destruct (slot_fits _ _ Hg 0%nat sl eq_refl) as [Hs Hb].
  assert (length (write_at f (slot_offset sl) d) = length f) as Hwl by (apply write_at_length; lia).
  assert (geometry_ok slots (write_at f (slot_offset sl) d)) as Hg'.
  { split; [intros i; rewrite Hwl; apply (slot_fits _ _ Hg (S i))|].
    intros i j a b Hij. apply (slots_disjoint _ _ Hg (S i) (S j)). congruence. }
  destruct (IH (S k) _ Hg') as (f' & Hf' & Hl & Hin & Hout).
  { intros j sl' Hj. specialize (Hlen (S j) sl' Hj). by rewrite <- Nat.add_succ_comm in Hlen. }
  rewrite Hf'. assert (slot_bytes f' sl = d) as Hsl.
  { unfold slot_bytes. rewrite Hout.
    - rewrite Hs, <- Hd. apply range_write_same. lia.
    - intros j sl' Hj. rewrite Hs. apply (slots_disjoint _ _ Hg 0%nat (S j)); done. }
  exists f'. split_and!.
  - unfold leaves. rewrite fmap_cons. by rewrite Hsl.
  - by rewrite Hl, Hwl.
  - intros [|j] sl' Hj; [injection Hj as <-; by rewrite Nat.add_0_r|]. rewrite (Hin j sl' Hj).
    f_equal. lia.
  - intros off n Hd'. rewrite Hout by (intros j; apply (Hd' (S j))).
    apply range_write_other; [lia|]. destruct (Hd' 0%nat sl eq_refl); [by left|right; lia].
Qed.

Lemma initial_slots_lookup c seed pid blocks i :
  blocks ≡ₚ seq 0 (S c) →
  chunk_offsets (S c * MAX_CHUNK_SIZE) seed pid = (λ k, (k * MAX_CHUNK_SIZE, MAX_CHUNK_SIZE))%nat <$> blocks →
  initial_slots (S c * MAX_CHUNK_SIZE) seed pid !! i =
    (λ k, mkSlot (k * MAX_CHUNK_SIZE)%nat MAX_CHUNK_SIZE
       (initial_state (blake3 (create_deterministic_hasher "SLOT_STATE_MAP" seed pid)) i)) <$> blocks !! i.
Proof.
  intros Hp Ho. unfold initial_slots. rewrite Ho.
  assert ((S c * MAX_CHUNK_SIZE + (MAX_CHUNK_SIZE - 1)) / MAX_CHUNK_SIZE = S c)%nat as ->.
  { rewrite Nat.div_add_l by done. rewrite Nat.div_small by (unfold MAX_CHUNK_SIZE; lia). lia. }
  cbv zeta. rewrite take_ge by (rewrite length_fmap, Hp, length_seq; lia).
  rewrite list_lookup_imap, list_lookup_fmap. by destruct (blocks !! i).
Qed.

Lemma initial_geometry c seed pid :
  let slots := initial_slots (S c * MAX_CHUNK_SIZE) seed pid in
  any_overlap (chunk_offsets (S c * MAX_CHUNK_SIZE) seed pid) = false ∧
  geometry_ok slots (zeros (S c * MAX_CHUNK_SIZE)) ∧ length slots = S c ∧
  (∀ i sl, slots !! i = Some sl → slot_state sl = Slot_Proof ∨ slot_state sl = Slot_Open).
Proof.
  destruct (chunk_offsets_blocks c seed pid) as (blocks & Hp & Ho). cbv zeta.
  assert (NoDup blocks) as Hn by (rewrite Hp; apply NoDup_seq).
  split; [rewrite Ho; by apply blocks_no_overlap|]. split; [split|split].
  - intros i sl Hi. rewrite (initial_slots_lookup c seed pid blocks i Hp Ho) in Hi.
    destruct (blocks !! i) as [k|] eqn:Hk; [|done]. injection Hi as <-. cbn [slot_size slot_offset].
    split; [done|]. rewrite zeros_length. apply list_elem_of_lookup_2 in Hk. rewrite Hp in Hk.
    apply elem_of_seq in Hk. unfold MAX_CHUNK_SIZE. lia.
  - intros i j a b Hij Ha Hb. rewrite (initial_slots_lookup c seed pid blocks i Hp Ho) in Ha.
    rewrite (initial_slots_lookup c seed pid blocks j Hp Ho) in Hb.
    destruct (blocks !! i) as [k|] eqn:Hk; [|done]. destruct (blocks !! j) as [k'|] eqn:Hk'; [|done].
    injection Ha as <-. injection Hb as <-. cbn [slot_offset].
    assert (k ≠ k') by (intros ->; apply Hij; by eapply NoDup_lookup). unfold MAX_CHUNK_SIZE. lia.
  - unfold initial_slots. rewrite length_imap, length_take, Ho, length_fmap, Hp, length_seq.
    rewrite Nat.div_add_l by done. rewrite Nat.div_small by (unfold MAX_CHUNK_SIZE; lia). lia.
  - intros i sl Hi. rewrite (initial_slots_lookup c seed pid blocks i Hp Ho) in Hi.
    destruct (blocks !! i) as [k|] eqn:Hk; [|done]. injection Hi as <-. cbn [slot_state]. unfold initial_state.
    case_match; auto.
Qed.

Lemma allocate_run {XL : Blake3XofLaws X} c seed s :
  cm_content_slot_map s = ∅ → file_content_map s = None →
  ∃ root s', allocate_capacity_internal (S c * MAX_CHUNK_SIZE) seed s = Some (Ok root, s') ∧
    capacity_ok s' ∧ get_merkle_root s' = Ok root ∧ shelved (shelf_of s') = ∅ ∧ length (slots_of s') = S c ∧
    cm_provider_id s' = cm_provider_id s ∧ cm_initialized s' = cm_initialized s.
Proof.
  intros Hc0 Hcf. unfold allocate_capacity_internal. set (cap := (S c * MAX_CHUNK_SIZE)%nat).
  destruct (initial_geometry c seed (cm_provider_id s)) as (Hov & Hg & Hlen & Hst). fold cap in Hov, Hg, Hlen, Hst.
  rewrite Hov. set (slots := initial_slots cap seed (cm_provider_id s)) in *.
  assert (∀ j sl, slots !! j = Some sl →
    length (initial_chunk seed (cm_provider_id s) (0 + j) sl) = MAX_CHUNK_SIZE) as Hil.
  { intros j sl Hj. destruct (slot_fits _ _ Hg j sl Hj) as [Hs _]. unfold initial_chunk.
    destruct (Hst j sl Hj) as [-> | ->]; rewrite Hs; [|apply zeros_length].
    rewrite length_take. unfold generate_chunk_data. rewrite blake3_xof_length. lia. }
  destruct (write_initial_spec seed (cm_provider_id s) slots 0 (zeros cap) Hg Hil) as (f & Hf & Hl & Hin & _).
  rewrite Hf. destruct (build_total (leaves slots f)) as [t Ht].
  { intros E%(f_equal length). unfold leaves in E. rewrite length_fmap, Hlen in E. done. }
  rewrite Ht. cbn [mbind option_bind]. eexists _, _. split; [done|]. split_and!; try done.
  - exists (mkSlotMap slots cap seed (cm_provider_id s)), f, t. split; try done.
    + right. split; [exact Hcf|exact Hc0].
    + destruct Hg as [Hg1 Hg2]. split; [by rewrite Hl|done].
    + intros i sl d Hi Hd. cbn [sm_slots] in Hi. rewrite (Hin i sl Hi). unfold initial_chunk, filler in *.
      cbn [Nat.add]. destruct (slot_state sl); [by injection Hd as <-..|done].
    + intros id l Hl'. cbn [cm_content_slot_map set_merkle_tree set_file_slots set_slot_map set_file_capacity] in Hl'.
      by rewrite Hc0 in Hl'.
  - unfold shelf_of. cbn [shelved cm_content_slot_map set_merkle_tree set_file_slots set_slot_map set_file_capacity].
    rewrite Hc0. apply fmap_empty.
Qed.

Lemma allocate_mb_run {XL : Blake3XofLaws X} mb seed s :
  0 < mb < 2 ^ 44 → file_slots s = None → cm_content_slot_map s = ∅ → file_content_map s = None →
  ∃ root s', allocate_capacity mb seed s = Some (Ok tt, s') ∧ capacity_ok s' ∧
    get_merkle_root s' = Ok root ∧ shelved (shelf_of s') = ∅ ∧
    Z.of_nat (length (slots_of s')) = mb * 1024 ∧
    cm_provider_id s' = cm_provider_id s ∧ cm_initialized s' = cm_initialized s.
Proof.
  intros Hmb Hs Hc Hcf. unfold allocate_capacity, slot_map_exists. rewrite Hs.
  assert (Z.to_nat (wrap_u64 (mb * 1024 * 1024)) = (S (Z.to_nat (mb * 1024) - 1) * MAX_CHUNK_SIZE)%nat) as ->.
  { unfold wrap_u64, MAX_CHUNK_SIZE. rewrite Z.mod_small by lia. lia. }
  destruct (allocate_run (Z.to_nat (mb * 1024) - 1) seed s Hc Hcf)
    as (root & s' & Hrun & Hok & Hroot & Hsh & Hlen & Hp & Hi).
  rewrite Hrun. cbn [mbind option_bind]. exists root, s'. split_and!; try done. rewrite Hlen. lia.
Qed.

(** ** Properties *)

(** C21. Storing content refines the abstract shelf: with room for its chunks it
    takes that many open slots, the content then reads back as the chunks
    joined, every other content reads as before and all of the invariant (file,
    slot map, Merkle tree, saved maps) holds again; without room it fails and
    changes nothing. *)
Theorem store_content_refines (id : string) (chunks : list bytes) (s : CapacityManager) :
  capacity_ok s → Forall (λ d, length d ≤ MAX_CHUNK_SIZE)%nat chunks →
  match shelf_put id chunks (shelf_of s) with
  | None => store_content_chunks id chunks s = (Err (StorageError "find_open_slots"), s)
  | Some sh => ∃ used s', store_content_chunks id chunks s = (Ok used, s') ∧
      length used = length chunks ∧ capacity_ok s' ∧ shelf_of s' = sh ∧
      get_content_from_slots id s' = Ok (Some (concat chunks)) ∧
      (∀ id', id' ≠ id → get_content_from_slots id' s' = get_content_from_slots id' s)
  end.
Proof.
  intros Hok Hc. pose proof (store_shelf id chunks s Hok Hc) as Hs.
  destruct (shelf_put id chunks (shelf_of s)) as [sh|] eqn:Hput; [|exact Hs].
  destruct Hs as (used & s' & Hrun & Hl & Hok' & Hsh & _). exists used, s'. split_and!; [done..| |].
  all: unfold shelf_put in Hput; case_match; [done|]; injection Hput as <-.
  - rewrite (get_content_shelf id s' Hok'), Hsh. cbn [shelved]. by rewrite lookup_insert_eq.
  - intros id' Hid. rewrite (get_content_shelf id' s' Hok'), (get_content_shelf id' s Hok), Hsh.
    cbn [shelved]. by rewrite lookup_insert_ne.
Qed.

(** C22. Deleting content refines the abstract shelf: known content is gone, its
    slots are zeroed and open again, every other content reads as before and
    the invariant holds again; unknown content is an error that changes
    nothing. *)
Theorem delete_content_refines (id : string) (s : CapacityManager) :
  capacity_ok s →
  match shelf_drop id (shelf_of s) with
  | None => delete_content_from_slots id s = (Err (NotFoundError "content_id_not_in_slot_map" id), s)
  | Some sh => ∃ s', delete_content_from_slots id s = (Ok tt, s') ∧ capacity_ok s' ∧ shelf_of s' = sh ∧
      get_content_from_slots id s' = Ok None ∧
      (∀ id', id' ≠ id → get_content_from_slots id' s' = get_content_from_slots id' s)
  end.
Proof.
  intros Hok. pose proof (delete_shelf id s Hok) as Hs.
  destruct (shelf_drop id (shelf_of s)) as [sh|] eqn:Hdrop; [|exact Hs].
  destruct Hs as (s' & Hrun & Hok' & Hsh & _). exists s'. split_and!; [done..| |].
  all: unfold shelf_drop in Hdrop; destruct (shelved (shelf_of s) !! id); [|done];
    injection Hdrop as <-.
  - rewrite (get_content_shelf id s' Hok'), Hsh. cbn [shelved]. by rewrite lookup_delete_eq.
  - intros id' Hid. rewrite (get_content_shelf id' s' Hok'), (get_content_shelf id' s Hok), Hsh.
    cbn [shelved]. by rewrite lookup_delete_ne.
Qed.

(** Allocating capacity succeeds whenever the size in bytes fits a [u64]:
    the shuffled chunks never overlap, they are exactly the chunks of the file,
    and the capacity is consistent, holds no content and answers any challenge
    on its root. *)
Theorem allocate_capacity_correct {XL : Blake3XofLaws X} (mb : Z) (seed : byte_array 32)
    (s : CapacityManager) (idxs : list nat) :
  0 < mb < 2 ^ 44 → file_slots s = None → cm_content_slot_map s = ∅ → file_content_map s = None →
  cm_initialized s = true → Forall (λ i, Z.of_nat i < mb * 1024) idxs →
  ∃ s' root proofs, allocate_capacity mb seed s = Some (Ok tt, s') ∧ capacity_ok s' ∧
    shelved (shelf_of s') = ∅ ∧ Z.of_nat (length (slots_of s')) = mb * 1024 ∧
    get_merkle_root s' = Ok root ∧
    generate_capacity_proof (cm_provider_id s) idxs root s' = Some (Ok proofs) ∧
    validate_challenge_proof proofs root (Z.of_nat <$> idxs) = true.
Proof.
  intros Hmb Hs Hc Hcf Hini Hin.
  destruct (allocate_mb_run mb seed s Hmb Hs Hc Hcf) as (root & s' & Hrun & Hok & Hroot & Hsh & Hlen & Hp & Hi).
  destruct (honest_answer s' root idxs Hok) as (proofs & Hgen & Hval).
  - by rewrite Hi.
  - exact Hroot.
  - eapply list.Forall_impl; [exact Hin|]. cbv beta. lia.
  - exists s', root, proofs. rewrite <- Hp. by split_and!.
Qed.

(** A restart loses nothing: reading the saved slot map and content map
    back and rebuilding the Merkle tree from the file gives the state the
    process had, with the tree its incremental updates had led to. *)
Theorem restart_keeps_capacity {XL : Blake3XofLaws X} {JL : SlotJsonLaws J} (s : CapacityManager) :
  capacity_ok s → initialize (reopened s) = Some (Ok tt, set_initialized true s).
Proof. intros Hok. by apply restart_capacity. Qed.

(** An honest provider answers every challenge on its current root: for any
    slots of the map it produces one proof each, and the validators' check
    accepts them. *)
Theorem honest_provider_accepted (s : CapacityManager) (root : hash32) (idxs : list nat) :
  capacity_ok s → cm_initialized s = true → get_merkle_root s = Ok root →
  Forall (λ i, i < length (slots_of s))%nat idxs →
  ∃ proofs, generate_capacity_proof (cm_provider_id s) idxs root s = Some (Ok proofs) ∧
    validate_challenge_proof proofs root (Z.of_nat <$> idxs) = true.
Proof. intros Hok Hini Hroot Hin. by apply honest_answer. Qed.
End capacity.

(** ** Witnesses *)

#[export] Instance Slot_eq_dec : EqDecision Slot.
Proof. solve_decision. Defined.

#[export] Instance SlotMap_eq_dec : EqDecision SlotMap.
Proof. unfold EqDecision, Decision. decide equality; apply decide; apply _. Defined.

#[export, program] Instance Slot_countable : Countable Slot :=
  inj_countable' (λ s, (slot_offset s, slot_size s, slot_state s)) (λ '(a, b, c), mkSlot a b c) _.
Next Obligation. by intros []. Qed.

#[export, program] Instance SlotMap_countable : Countable SlotMap :=
  inj_countable' (λ m, (sm_slots m, sm_capacity_bytes m, sm_seed m, sm_provider_id m))
    (λ '(a, b, c, d), mkSlotMap a b c d) _.
Next Obligation. by intros []. Qed.

#[export] Instance ref_slot_json : SlotJson :=
  {| slot_map_to_json m := pos_to_text (encode m);
     slot_map_from_json s := decode (text_to_pos s);
     content_map_to_json m := pos_to_text (encode m);
     content_map_from_json s := decode (text_to_pos s) |}.

#[export] Instance ref_slot_json_laws : SlotJsonLaws ref_slot_json.
Proof. split; intros m; cbn; by rewrite text_to_pos_to_text, decode_encode. Qed.

(** A stand-in output: the input, cut or padded with zeros. *)
#[export] Instance ref_xof : Blake3Xof := {| blake3_xof b n := resize b n |}.

#[export] Instance ref_xof_laws : Blake3XofLaws ref_xof.
Proof. split. intros b n. apply resize_length. Qed.

(** Two open slots over a file of two chunks. *)
Definition test_provider : Address := mkAddress (vreplicate 20 Init.Byte.x07).
Definition test_slot_seed : byte_array 32 := vreplicate 32 Init.Byte.x05.
Definition test_slot_map : SlotMap :=
  mkSlotMap [mkSlot 1024 1024 Slot_Open; mkSlot 0 1024 Slot_Open] 2048 test_slot_seed test_provider.
Definition test_capacity : CapacityManager :=
  mkCapacityManager test_provider (Some test_slot_map) ∅
    (build (leaves (sm_slots test_slot_map) (zeros 2048))) true (Some (zeros 2048))
    (Some (slot_map_to_json test_slot_map)) None.

Lemma test_capacity_ok : capacity_ok test_capacity.
Proof.
  destruct (build_total (leaves (sm_slots test_slot_map) (zeros 2048))) as [t Ht]; [done|].
  assert (∀ i sl, sm_slots test_slot_map !! i = Some sl →
    sl = mkSlot 1024 1024 Slot_Open ∧ i = 0%nat ∨ sl = mkSlot 0 1024 Slot_Open ∧ i = 1%nat) as Hs.
  { intros [|[|i]] sl Hi; [injection Hi as <-; by left|injection Hi as <-; by right|done]. }
  exists test_slot_map, (zeros 2048), t. split; try done.
  - by right.
  - split.
    + intros i sl Hi. rewrite zeros_length. unfold MAX_CHUNK_SIZE.
      destruct (Hs i sl Hi) as [[-> _]|[-> _]]; cbn [slot_size slot_offset]; lia.
    + intros i j a b Hij Ha Hb. unfold MAX_CHUNK_SIZE.
      destruct (Hs i a Ha) as [[-> ->]|[-> ->]], (Hs j b Hb) as [[-> ->]|[-> ->]]; cbn [slot_offset]; lia.
  - intros i sl d Hi Hd.
    destruct (Hs i sl Hi) as [[-> _]|[-> _]]; unfold filler in Hd; cbn [slot_state slot_size] in Hd;
      injection Hd as <-; unfold slot_bytes; cbn [slot_offset slot_size]; apply range_zeros; lia.
Qed.

Definition test_pieces : list bytes := [[Init.Byte.x01; Init.Byte.x02]; [Init.Byte.x03]].

Lemma test_pieces_fit : Forall (λ d, length d ≤ MAX_CHUNK_SIZE)%nat test_pieces.
Proof. repeat constructor; unfold MAX_CHUNK_SIZE; simpl; lia. Qed.

(** The test capacity holding the two pieces. *)
Lemma test_capacity_filled :
  ∃ s, capacity_ok s ∧ shelf_of s = mkShelf {["c" := test_pieces]} 0 ∧ cm_initialized s = true.
Proof.
  destruct (store_shelf "c" test_pieces test_capacity test_capacity_ok test_pieces_fit)
    as (used & s & _ & _ & Hok & Hsh & _ & Hi).
  exists s. split_and!; [exact Hok| |exact Hi]. etransitivity; [exact Hsh|]. done.
Qed.

Lemma store_content_refines_witness :
  ∃ used s', store_content_chunks "c" test_pieces test_capacity = (Ok used, s') ∧
    length used = 2%nat ∧
    get_content_from_slots "c" s' = Ok (Some [Init.Byte.x01; Init.Byte.x02; Init.Byte.x03]).
Proof.
  destruct (store_content_refines "c" test_pieces test_capacity test_capacity_ok test_pieces_fit)
    as (used & s' & Hrun & Hl & _ & _ & Hget & _).
  exists used, s'. split; [exact Hrun|]. split; [exact Hl|exact Hget].
Defined.

Lemma delete_content_refines_witness :
  ∃ s s', capacity_ok s ∧ delete_content_from_slots "c" s = (Ok tt, s') ∧
    shelf_of s' = mkShelf ∅ 2 ∧ get_content_from_slots "c" s' = Ok None.
Proof.
  destruct test_capacity_filled as (s & Hok & Hsh & _).
  pose proof (delete_content_refines "c" s Hok) as Hd. rewrite Hsh in Hd.
  destruct Hd as (s' & Hrun & _ & Hsh' & Hget & _).
  exists s, s'. split; [exact Hok|]. split; [exact Hrun|]. split; [|exact Hget].
  etransitivity; [exact Hsh'|]. reflexivity.
Defined.

Definition test_fresh : CapacityManager :=
  mkCapacityManager test_provider None ∅ None true None None None.

Lemma allocate_capacity_correct_witness :
  ∃ s' root proofs, allocate_capacity 1 test_slot_seed test_fresh = Some (Ok tt, s') ∧
    capacity_ok s' ∧ Z.of_nat (length (slots_of s')) = 1024 ∧
    validate_challenge_proof proofs root [5; 1023] = true.
Proof.
  destruct (allocate_capacity_correct 1 test_slot_seed test_fresh [5; 1023]%nat)
    as (s' & root & proofs & Hrun & Hok & _ & Hl & _ & _ & Hval);
    [lia|reflexivity|reflexivity|reflexivity|reflexivity|repeat constructor|].
  exists s', root, proofs. split; [exact Hrun|]. split; [exact Hok|]. split; [exact Hl|exact Hval].
Defined.

Lemma restart_keeps_capacity_witness :
  initialize (reopened test_capacity) = Some (Ok tt, test_capacity).
Proof. apply (restart_keeps_capacity test_capacity test_capacity_ok). Defined.

Lemma honest_provider_accepted_witness :
  ∃ s root proofs, capacity_ok s ∧ generate_capacity_proof (cm_provider_id s) [1; 0]%nat root s = Some (Ok proofs) ∧
    validate_challenge_proof proofs root [1; 0] = true.
Proof.
  destruct (build_total (leaves (sm_slots test_slot_map) (zeros 2048))) as [t Ht]; [discriminate|].
  destruct (honest_provider_accepted test_capacity (tree_root t) [1; 0]%nat test_capacity_ok)
    as (proofs & Hgen & Hval).
  - reflexivity.
  - unfold get_merkle_root. change (cm_merkle_tree test_capacity) with
      (build (leaves (sm_slots test_slot_map) (zeros 2048))). rewrite Ht. reflexivity.
  - repeat constructor.
  - exists test_capacity, (tree_root t), proofs. split; [exact test_capacity_ok|]. split; [exact Hgen|exact Hval].
Defined.
