(* ===== verification/Feed.v ===== *)
(** Listings of pinboard messages: the rate limiter of prefix queries
    (node_app/src/storage/rate_limiter.rs), pagination (node_app/src/api/
    pagination.rs) and the paged scans of the commit, wallet and tag indexes
    (node_app/src/storage/rocksdb/pinboard.rs).

    A column family of keys is iterated in byte order.  Instants are
    nanoseconds of a clock that does not go back. *)
From S2P Require Import Prelude Externals Reference Coins Address Ordering Namespace Cado Records Tx Pinboard AppState Storage.

(** ** rate_limiter.rs *)

Record PrefixQueryRateLimiter : Type := mkRateLimiter {
  rl_requests : gmap string (list Z);
  rl_max_requests_per_minute : Z;
}.

Definition RateLimiter_new (max_requests_per_minute : Z) : PrefixQueryRateLimiter :=
  mkRateLimiter ∅ max_requests_per_minute.

Definition RateLimiter_default : PrefixQueryRateLimiter := RateLimiter_new 60.

(** Sixty seconds. *)
Definition MINUTE : Z := 60 * 1000000000.

Definition rate_key (client_id prefix : string) : string :=
  String.append client_id (String ":" prefix).

Definition is_allowed (client_id prefix : string) (now : Z) (rl : PrefixQueryRateLimiter) :
    bool * PrefixQueryRateLimiter :=
  let key := rate_key client_id prefix in
  let one_minute_ago := now - MINUTE in
  let put ts := mkRateLimiter (<[key := ts]> (rl_requests rl)) (rl_max_requests_per_minute rl) in
  match rl_requests rl !! key with
  | Some timestamps =>
      let timestamps := List.filter (λ t, one_minute_ago <? t) timestamps in
      if Z.of_nat (length timestamps) <? rl_max_requests_per_minute rl
      then (true, put (timestamps ++ [now]))
      else (false, put timestamps)
  | None => (true, put [now])
  end.

(** ** pagination.rs *)

Record PaginationParams : Type := mkPaginationParams {
  pg_page : nat;
  pg_page_size : nat;
}.

Definition PaginationParams_default : PaginationParams := mkPaginationParams 0 100.

Definition PaginationParams_validate (p : PaginationParams) (max_page_size : nat) : eld_result unit :=
  if (max_page_size <? pg_page_size p)%nat then Err (ValidationError "page size")
  else if (pg_page_size p =? 0)%nat then Err (ValidationError "page size")
  else Ok tt.

(** A [usize] product. *)
Definition PaginationParams_offset (p : PaginationParams) : nat :=
  Z.to_nat (wrap_u64 (Z.of_nat (pg_page p) * Z.of_nat (pg_page_size p))).

Record PaginatedResult (A : Type) : Type := mkPaginatedResult {
  pr_items : list A;
  pr_page : nat;
  pr_page_size : nat;
  pr_next_cursor : option string;
  pr_has_more : bool;
}.
Arguments mkPaginatedResult {A}.
Arguments pr_items {A}.
Arguments pr_has_more {A}.

Definition PaginatedResult_new {A} (items : list A) (page page_size : nat) (has_more : bool) :
    PaginatedResult A :=
  mkPaginatedResult items page page_size
    (if has_more
     then Some (String.append (to_string (Z.of_nat (S page))) (String ":" (to_string (Z.of_nat page_size))))
     else None)
    has_more.

Record PrefixQueryOptions : Type := mkPrefixQueryOptions {
  pq_pagination : PaginationParams;
  pq_max_results : nat;
  pq_max_memory_bytes : Z;
  pq_client_id : string;
}.

Definition PrefixQueryOptions_default : PrefixQueryOptions :=
  mkPrefixQueryOptions PaginationParams_default 1000 (50 * 1024 * 1024) "unknown".

Definition with_pagination (o : PrefixQueryOptions) (p : PaginationParams) : PrefixQueryOptions :=
  mkPrefixQueryOptions p (pq_max_results o) (pq_max_memory_bytes o) (pq_client_id o).

Definition PrefixQueryOptions_validate (o : PrefixQueryOptions) : eld_result unit :=
  let? _ := PaginationParams_validate (pq_pagination o) (pq_max_results o) in
  if (pq_max_results o =? 0)%nat then Err (ValidationError "max results")
  else if pq_max_memory_bytes o =? 0 then Err (ValidationError "max memory bytes")
  else Ok tt.

(** ** Iterators over a column family *)

Definition key_compare (a b : string) : comparison := bytes_compare (as_bytes a) (as_bytes b).

Definition sorted_keys (cf : gset string) : list string := sort_by key_compare (elements cf).

(** [IteratorMode::From(prefix, Forward)] *)
Fixpoint seek (prefix : string) (keys : list string) : list string :=
  match keys with
  | [] => []
  | k :: rest => match key_compare k prefix with Lt => seek prefix rest | _ => keys end
  end.

(** [str::rsplit_once(c)] *)
Fixpoint rsplit_once (c : ascii) (s : string) : option (string * string) :=
  match s with
  | EmptyString => None
  | String a s' =>
      match rsplit_once c s' with
      | Some (x, y) => Some (String a x, y)
      | None => if Ascii.eqb a c then Some (EmptyString, s') else None
      end
  end.

(** ** The listings of pinboard.rs *)

(** The loop the three listings share: the keys it accepts are counted, and
    those of the page are collected. *)
Fixpoint scan_page (o : PrefixQueryOptions) (accepts : string → bool) (id_of : string → string)
    (keys : list string) (total_processed : nat) (estimated_memory_usage : Z) (items : list string) :
    list string * nat :=
  match keys with
  | [] => (items, total_processed)
  | key_str :: keys =>
      if negb (accepts key_str) then (items, total_processed)
      else
        let total_processed := S total_processed in
        let estimated_memory_usage := estimated_memory_usage + Z.of_nat (String.length key_str) in
        if pq_max_memory_bytes o <? estimated_memory_usage then (items, total_processed)
        else if (pq_max_results o <? total_processed)%nat then (items, total_processed)
        else if (PaginationParams_offset (pq_pagination o) <? total_processed)%nat then
          if (length items <? pg_page_size (pq_pagination o))%nat
          then scan_page o accepts id_of keys total_processed estimated_memory_usage
                 (items ++ [id_of key_str])
          else (items, total_processed)
        else scan_page o accepts id_of keys total_processed estimated_memory_usage items
  end.

Definition page_of (o : PrefixQueryOptions) (r : list string * nat) : PaginatedResult string :=
  let p := pq_pagination o in
  PaginatedResult_new r.1 (pg_page p) (pg_page_size p)
    (PaginationParams_offset p + length r.1 <? r.2)%nat.

(** The message id at the end of a tag or wallet key. *)
Definition last_part (key_str : string) : string :=
  match rsplit_once ":" key_str with Some (_, msg) => msg | None => key_str end.

(** The message id after the height of a commit key. *)
Definition after_height (key_str : string) : string :=
  match split_once ":" key_str with Some (_, msg) => msg | None => key_str end.

Definition rate_limited {A} (client_id prefix : string) (now : Z) (rl : PrefixQueryRateLimiter)
    (k : eld_result A) : eld_result A * PrefixQueryRateLimiter :=
  let '(ok, rl) := is_allowed client_id prefix now rl in
  if ok then (k, rl) else (Err (StorageError "rate_limited_query"), rl).

Inductive PinboardGlobalFeedOrder : Type := Asc | Desc.

Definition feed_keys (order : PinboardGlobalFeedOrder) (db : Database) : list string :=
  match order with
  | Asc => sorted_keys (pinboard_idx_commit_cf db)
  | Desc => rev (sorted_keys (pinboard_idx_commit_cf db))
  end.

Definition get_pinboard_message_ids_global_secure (db : Database) (order : PinboardGlobalFeedOrder)
    (options : PrefixQueryOptions) (now : Z) (rl : PrefixQueryRateLimiter) :
    eld_result (PaginatedResult string) * PrefixQueryRateLimiter :=
  match PrefixQueryOptions_validate options with
  | Err _ => (Err (ValidationError "prefix_query_options"), rl)
  | Ok _ =>
      rate_limited (pq_client_id options) "pinboard_idx_commit:global" now rl
        (Ok (page_of options
               (scan_page options (λ _, true) after_height (feed_keys order db) 0 0 [])))
  end.

Definition get_pinboard_message_ids_by_wallet_secure (db : Database) (wallet : string)
    (options : PrefixQueryOptions) (now : Z) (rl : PrefixQueryRateLimiter) :
    eld_result (PaginatedResult string) * PrefixQueryRateLimiter :=
  match PrefixQueryOptions_validate options with
  | Err _ => (Err (ValidationError "prefix_query_options"), rl)
  | Ok _ =>
      rate_limited (pq_client_id options) (String.append "pinboard_idx_wallet:" wallet) now rl
        (let prefix := String.append wallet ":" in
         Ok (page_of options
               (scan_page options (starts_with prefix) last_part
                  (seek prefix (sorted_keys (pinboard_idx_wallet_cf db))) 0 0 [])))
  end.

Definition get_pinboard_message_ids_by_tag_secure {H : HexCrate} (db : Database) (tag : string)
    (options : PrefixQueryOptions) (now : Z) (rl : PrefixQueryRateLimiter) :
    eld_result (PaginatedResult string) * PrefixQueryRateLimiter :=
  match PrefixQueryOptions_validate options with
  | Err _ => (Err (ValidationError "prefix_query_options"), rl)
  | Ok _ =>
      rate_limited (pq_client_id options) (String.append "pinboard_idx_tag:" tag) now rl
        (let? tags := canonicalize_post_message_tags [tag] in
         let prefix := String.append (default tag (list.head tags)) ":" in
         Ok (page_of options
               (scan_page options (starts_with prefix) last_part
                  (seek prefix (sorted_keys (pinboard_idx_tag_cf db))) 0 0 [])))
  end.

(** ** The rate limiter *)

(** The times at which requests on one key were let through, oldest first. *)
Fixpoint allowed_times (client_id prefix : string) (calls : list (string * string * Z))
    (rl : PrefixQueryRateLimiter) : list Z :=
  match calls with
  | [] => []
  | (c, p, now) :: calls =>
      let '(ok, rl) := is_allowed c p now rl in
      let rest := allowed_times client_id prefix calls rl in
      if ok && String.eqb (rate_key c p) (rate_key client_id prefix) then now :: rest else rest
  end.

Definition in_window (T t : Z) : bool := (T - MINUTE <? t) && (t <=? T).

Definition recent (now : Z) (l : list Z) : list Z := List.filter (λ t, now - MINUTE <? t) l.

(** The times kept for a key. *)
Definition kept (client_id prefix : string) (rl : PrefixQueryRateLimiter) : list Z :=
  default [] (rl_requests rl !! rate_key client_id prefix).

Lemma recent_recent a b l : a ≤ b → recent b (recent a l) = recent b l.
Proof.
  intros Hab. unfold recent. induction l as [|t l IH]; [done|]. cbn [List.filter].
  destruct (a - MINUTE <? t) eqn:Ea; cbn [List.filter]; [by destruct (b - MINUTE <? t); rewrite IH|].
  destruct (b - MINUTE <? t) eqn:Eb; [|done]. apply Z.ltb_ge in Ea. apply Z.ltb_lt in Eb. lia.
Qed.

Lemma filter_length_le {A} (f g : A → bool) l :
  (∀ x, f x = true → g x = true) → (length (List.filter f l) ≤ length (List.filter g l))%nat.
Proof.
  intros Hfg. induction l as [|x l IH]; [done|]. cbn [List.filter].
  destruct (f x) eqn:E; [rewrite (Hfg x E); simpl; lia|]. destruct (g x); simpl; lia.
Qed.

Lemma window_recent T now l :
  now ≤ T → (length (List.filter (in_window T) l) ≤ length (recent now l))%nat.
Proof.
  intros Hn. apply filter_length_le. intros t. unfold in_window. intros [H1 _]%andb_true_iff.
  apply Z.ltb_lt in H1. apply Z.ltb_lt. lia.
Qed.

(** One call, seen from the times let through before it. *)
Lemma is_allowed_step client_id prefix c p now past rl :
  1 ≤ rl_max_requests_per_minute rl →
  recent now (kept client_id prefix rl) = recent now past →
  let '(ok, rl') := is_allowed c p now rl in
  let past' := if ok && String.eqb (rate_key c p) (rate_key client_id prefix) then past ++ [now] else past in
  rl_max_requests_per_minute rl' = rl_max_requests_per_minute rl ∧
  (∀ later, now ≤ later → recent later (kept client_id prefix rl') = recent later past') ∧
  (ok && String.eqb (rate_key c p) (rate_key client_id prefix) = true →
    Z.of_nat (length (recent now past)) < rl_max_requests_per_minute rl).
Proof.
  intros Hmax Hrec. unfold is_allowed.
  destruct (String.eqb_spec (rate_key c p) (rate_key client_id prefix)) as [E|E].
  - rewrite E. unfold kept in *. destruct (rl_requests rl !! rate_key client_id prefix) as [ts|]; cbn [from_option id] in *.
    + fold (recent now ts). rewrite Hrec.
      destruct (Z.ltb_spec (Z.of_nat (length (recent now past))) (rl_max_requests_per_minute rl));
        cbn [andb rl_requests rl_max_requests_per_minute]; rewrite lookup_insert_eq; cbn [from_option id];
        (split_and!; [done| |done]); intros later Hl.
      * unfold recent at 1 3. rewrite !filter_app. fold (recent later). f_equal.
        by apply recent_recent.
      * by apply recent_recent.
    + cbn [andb rl_requests rl_max_requests_per_minute]. rewrite lookup_insert_eq. cbn [from_option id].
      rewrite <- Hrec. split_and!; [done| |simpl; lia]. intros later Hl.
      unfold recent. rewrite filter_app. fold (recent later past).
      rewrite <- (recent_recent now later past Hl), <- Hrec. done.
  - assert (∀ ts, default [] (<[rate_key c p := ts]> (rl_requests rl) !! rate_key client_id prefix)
      = kept client_id prefix rl) as Hk by (intros ts; unfold kept; by rewrite lookup_insert_ne).
    destruct (rl_requests rl !! rate_key c p) as [ts|]; [destruct (_ <? _)|];
      rewrite ?andb_false_r; unfold kept at 1; cbn [rl_requests rl_max_requests_per_minute];
      rewrite Hk; (split_and!; [done| |done]);
      intros later Hl; rewrite <- (recent_recent now later _ Hl), Hrec; by apply recent_recent.
Qed.

Lemma allowed_times_bound client_id prefix calls now past rl :
  1 ≤ rl_max_requests_per_minute rl →
  StronglySorted Z.le (now :: calls.*2) →
  (∀ later, now ≤ later → recent later (kept client_id prefix rl) = recent later past) →
  (∀ T, Z.of_nat (length (List.filter (in_window T) past)) ≤ rl_max_requests_per_minute rl) →
  ∀ T, Z.of_nat (length (List.filter (in_window T) (past ++ allowed_times client_id prefix calls rl)))
       ≤ rl_max_requests_per_minute rl.
Proof.
  revert now past rl. induction calls as [|[[c p] t] calls IH]; intros now past rl Hmax Hs Hrec Hb T.
  { cbn [allowed_times]. by rewrite app_nil_r. }
  rewrite fmap_cons in Hs. cbn [snd] in Hs. apply StronglySorted_inv in Hs as [Hs Hnow].
  assert (now ≤ t) as Hnt by (by inversion Hnow).
  pose proof (is_allowed_step client_id prefix c p t past rl Hmax (Hrec t Hnt)) as Hstep.
  cbn [allowed_times]. destruct (is_allowed c p t rl) as [ok rl'].
  destruct Hstep as (Hm & Hrec' & Hlt).
  destruct (ok && String.eqb _ _) eqn:Hok.
  - replace (past ++ t :: allowed_times client_id prefix calls rl')
      with ((past ++ [t]) ++ allowed_times client_id prefix calls rl') by (by rewrite <- app_assoc).
    rewrite <- Hm. apply (IH t); [by rewrite Hm|done|done|].
    intros T'. rewrite filter_app, length_app, Hm. cbn [List.filter].
    destruct (in_window T' t) eqn:Ew; [|rewrite Nat.add_0_r; apply Hb].
    unfold in_window in Ew. apply andb_true_iff in Ew as [_ Ew]. apply Z.leb_le in Ew.
    pose proof (window_recent T' t past Ew). specialize (Hlt eq_refl). simpl. lia.
  - rewrite <- Hm. apply (IH t); [by rewrite Hm|done|done|]. intros T'. rewrite Hm. apply Hb.
Qed.

(** The limiter keeps its promise: over any sequence of calls on a clock
    that does not go back, whatever the other clients do, at most the maximum
    number of requests of one client on one prefix is let through in any
    minute. *)
Theorem rate_limit_respected (client_id prefix : string) (max : Z)
    (calls : list (string * string * Z)) (T : Z) :
  1 ≤ max → StronglySorted Z.le calls.*2 →
  Z.of_nat (length (List.filter (in_window T)
    (allowed_times client_id prefix calls (RateLimiter_new max)))) ≤ max.
Proof.
  intros Hmax Hs. destruct calls as [|[[c p] t] calls]; [simpl; lia|].
  apply (allowed_times_bound client_id prefix ((c, p, t) :: calls) t [] (RateLimiter_new max)).
  - done.
  - constructor; [done|]. rewrite fmap_cons in *. cbn [snd] in *. constructor; [lia|].
    by apply StronglySorted_inv in Hs as [_ Hs].
  - done.
  - intros T'. simpl. lia.
Qed.

(** ** Pages *)

(** The keys a scan counts: the accepted ones up to the first other. *)
Fixpoint accepted (accepts : string → bool) (keys : list string) : list string :=
  match keys with
  | [] => []
  | k :: keys => if accepts k then k :: accepted accepts keys else []
  end.

Definition memory_of (keys : list string) : Z :=
  foldr (λ k n, Z.of_nat (String.length k) + n) 0 keys.

Lemma memory_nonneg keys : 0 ≤ memory_of keys.
Proof. induction keys; simpl; [done|]. lia. Qed.

Lemma scan_page_spec o accepts id_of keys total mem items :
  mem + memory_of (accepted accepts keys) ≤ pq_max_memory_bytes o →
  (total ≤ pq_max_results o)%nat →
  length items = (total - PaginationParams_offset (pq_pagination o))%nat →
  (length items ≤ pg_page_size (pq_pagination o))%nat →
  let offset := PaginationParams_offset (pq_pagination o) in
  let size := pg_page_size (pq_pagination o) in
  scan_page o accepts id_of keys total mem items =
    (items ++ (id_of <$> take (size - length items)
       (drop (offset - total) (take (pq_max_results o - total) (accepted accepts keys)))),
     Nat.min (total + length (accepted accepts keys))
       (Nat.min (S (pq_max_results o)) (S (Nat.max (offset + size) total)))).
Proof.
  intros Hmem Htot Hlen Hsize. cbv zeta. set (offset := PaginationParams_offset _) in *.
  set (size := pg_page_size _) in *. revert total mem items Hmem Htot Hlen Hsize.
  induction keys as [|k keys IH]; intros total mem items Hmem Htot Hlen Hsize; cbn [scan_page accepted].
  { rewrite take_nil, drop_nil, take_nil, app_nil_r. cbn [length]. f_equal. lia. }
  destruct (accepts k) eqn:Ha; cbn [negb].
  2:{ rewrite take_nil, drop_nil, take_nil, app_nil_r. cbn [length]. f_equal. lia. }
  cbn [accepted memory_of foldr] in Hmem. rewrite Ha in Hmem. cbn [memory_of foldr] in Hmem.
  fold (memory_of (accepted accepts keys)) in Hmem.
  pose proof (memory_nonneg (accepted accepts keys)).
  rewrite (proj2 (Z.ltb_ge _ _)) by lia. fold offset size.
  destruct (Nat.ltb_spec (pq_max_results o) (S total)) as [Hfull|Hroom].
  { replace (pq_max_results o - total)%nat with 0%nat by lia. rewrite take_0, drop_nil, take_nil, app_nil_r.
    cbn [length]. f_equal. lia. }
  replace (pq_max_results o - total)%nat with (S (pq_max_results o - S total)) by lia. cbn [take length].
  destruct (Nat.ltb_spec offset (S total)) as [Hin|Hout].
  - replace (offset - total)%nat with 0%nat by lia. cbn [drop].
    destruct (Nat.ltb_spec (length items) size) as [Hpage|Hpage].
    + rewrite IH; [|lia|lia|rewrite length_app; simpl; lia|rewrite length_app; simpl; lia].
      rewrite <- app_assoc, length_app. cbn [length].
      replace (offset - S total)%nat with 0%nat by lia. cbn [drop].
      replace (size - length items)%nat with (S (size - (length items + 1))) by lia.
      cbn [take app]. rewrite fmap_cons. f_equal. lia.
    + replace (size - length items)%nat with 0%nat by lia. rewrite take_0. cbn [fmap list_fmap].
      rewrite app_nil_r. f_equal. lia.
  - rewrite IH by lia. replace (offset - total)%nat with (S (offset - S total)) by lia. cbn [drop].
    f_equal. lia.
Qed.

(** A page of a listing is a slice of the first [max_results] keys. *)
Lemma page_slice o accepts id_of keys :
  let offset := PaginationParams_offset (pq_pagination o) in
  let size := pg_page_size (pq_pagination o) in
  let r := page_of o (scan_page o accepts id_of keys 0 0 []) in
  (0 < size)%nat → memory_of (accepted accepts keys) ≤ pq_max_memory_bytes o →
  pr_items r = id_of <$> take size (drop offset (take (pq_max_results o) (accepted accepts keys))) ∧
  (pr_has_more r = true ↔
    (offset ≤ pq_max_results o ∧ offset + length (pr_items r) < length (accepted accepts keys))%nat).
Proof.
  cbv zeta. intros Hsize Hmem. rewrite scan_page_spec by (simpl; lia). cbn [app length].
  rewrite !Nat.sub_0_r. unfold page_of, PaginatedResult_new. cbn [pr_items pr_has_more fst snd]. split; [done|].
  rewrite length_fmap, Nat.ltb_lt, length_take, length_drop, length_take. cbn [Nat.add]. lia.
Qed.

(** ** Keys in order *)

Lemma as_bytes_append a b : as_bytes (String.append a b) = as_bytes a ++ as_bytes b.
Proof. unfold as_bytes. induction a as [|c a IH]; simpl; [done|]. by rewrite IH. Qed.

Lemma as_bytes_length s : length (as_bytes s) = String.length s.
Proof. unfold as_bytes. rewrite length_map. induction s; simpl; [done|]. by f_equal. Qed.

Lemma as_bytes_inj a b : as_bytes a = as_bytes b → a = b.
Proof.
  revert b. induction a as [|c a IH]; intros [|d b] E; try done. unfold as_bytes in E. simpl in E.
  injection E as E1 E2. f_equal; [|by apply IH].
  by rewrite <- (ascii_of_byte_of_ascii c), E1, ascii_of_byte_of_ascii.
Qed.

#[export] Instance key_compare_lawful : LawfulCompare key_compare.
Proof. apply (key_lawful as_bytes bytes_compare); [intros a b; apply as_bytes_inj|apply _]. Qed.

Lemma bytes_compare_app a b x y :
  length a = length b → bytes_compare (a ++ x) (b ++ y) = then_with (bytes_compare a b) (bytes_compare x y).
Proof.
  revert b. induction a as [|c a IH]; intros [|d b] Hl; try done. cbn [app bytes_compare].
  destruct (Byte.to_N c ?= Byte.to_N d)%N; [|done..]. apply IH. simpl in Hl. lia.
Qed.

Lemma string_append_assoc a b c :
  String.append a (String.append b c) = String.append (String.append a b) c.
Proof. induction a as [|x a IH]; [done|]. exact (f_equal (String x) IH). Qed.

Lemma hex_digits_append w n acc : hex_digits w n acc = String.append (hex_digits w n EmptyString) acc.
Proof.
  revert n acc. induction w as [|w IH]; intros n acc; [done|]. cbn [hex_digits].
  rewrite IH, (IH _ (String _ EmptyString)), <- string_append_assoc. done.
Qed.

Lemma nibble_compare a b :
  0 ≤ a < 16 → 0 ≤ b < 16 →
  bytes_compare (as_bytes (String (nibble_ascii a) EmptyString)) (as_bytes (String (nibble_ascii b) EmptyString))
  = (a ?= b).
Proof.
  intros Ha Hb.
  assert (∀ n, 0 ≤ n < 16 → In n [0;1;2;3;4;5;6;7;8;9;10;11;12;13;14;15]) as Hn by (intros; simpl; lia).
  apply Hn in Ha, Hb.
  repeat (destruct Ha as [<-|Ha]; [repeat (destruct Hb as [<-|Hb]; [vm_compute; reflexivity|]); destruct Hb|]).
  destruct Ha.
Qed.

(** Fixed-width hex keeps the order of numbers. *)
Lemma hex_digits_compare w a b :
  0 ≤ a < 16 ^ Z.of_nat w → 0 ≤ b < 16 ^ Z.of_nat w →
  bytes_compare (as_bytes (hex_digits w a EmptyString)) (as_bytes (hex_digits w b EmptyString)) = (a ?= b).
Proof.
  revert a b. induction w as [|w IH]; intros a b Ha Hb.
  { simpl in *. assert (a = 0) by lia. assert (b = 0) by lia. by subst. }
  rewrite Nat2Z.inj_succ, Z.pow_succ_r in Ha, Hb by lia. cbn [hex_digits].
  rewrite hex_digits_append, (hex_digits_append w (b / 16)), !as_bytes_append, bytes_compare_app.
  2:{ rewrite !as_bytes_length, !(proj2 (hex_digits_shape w _ EmptyString eq_refl)). done. }
  assert (0 ≤ a mod 16 < 16) as Ha' by (apply Z.mod_pos_bound; lia).
  assert (0 ≤ b mod 16 < 16) as Hb' by (apply Z.mod_pos_bound; lia).
  pose proof (Z.div_mod a 16 ltac:(done)). pose proof (Z.div_mod b 16 ltac:(done)).
  rewrite IH, nibble_compare by (lia || done).
  unfold then_with. destruct (Z.compare_spec (a / 16) (b / 16)) as [E|E|E].
  - rewrite <- E in *. destruct (Z.compare_spec (a mod 16) (b mod 16)); symmetry;
      [apply Z.compare_eq_iff|apply Z.compare_lt_iff|apply Z.compare_gt_iff]; lia.
  - symmetry. apply Z.compare_lt_iff. lia.
  - symmetry. apply Z.compare_gt_iff. lia.
Qed.

Definition height_ok (h : Z) : Prop := 0 ≤ h ≤ u64_max.

#[export] Instance height_ok_dec h : Decision (height_ok h).
Proof. unfold height_ok. apply _. Defined.

Lemma commit_key_compare h1 id1 h2 id2 :
  height_ok h1 → height_ok h2 →
  key_compare (pinboard_commit_index_key h1 id1) (pinboard_commit_index_key h2 id2) =
    lex Z.compare key_compare (h1, id1) (h2, id2).
Proof.
  unfold height_ok, u64_max. intros H1 H2. unfold key_compare, pinboard_commit_index_key, u64_hex_fixed, lex.
  rewrite !as_bytes_append, bytes_compare_app.
  2:{ rewrite !as_bytes_length, !(proj2 (hex_digits_shape 16 _ EmptyString eq_refl)). done. }
  rewrite hex_digits_compare by (simpl; lia). cbn [fst snd]. f_equal.
Qed.

Lemma insert_by_fmap {A B} (f : A → B) (c : B → B → comparison) (c' : A → A → comparison) x l :
  (∀ y, y ∈ l → c (f x) (f y) = c' x y) → insert_by c (f x) (f <$> l) = f <$> insert_by c' x l.
Proof.
  induction l as [|y l IH]; intros Hc; [done|]. rewrite fmap_cons. cbn [insert_by].
  rewrite (Hc y) by (by left). destruct (c' x y); [done..|]. rewrite fmap_cons. f_equal.
  apply IH. intros z Hz. apply Hc. by right.
Qed.

Lemma sort_by_fmap {A B} (f : A → B) (c : B → B → comparison) (c' : A → A → comparison) l :
  (∀ x y, x ∈ l → y ∈ l → c (f x) (f y) = c' x y) → sort_by c (f <$> l) = f <$> sort_by c' l.
Proof.
  induction l as [|x l IH]; intros Hc; [done|]. rewrite fmap_cons. unfold sort_by. cbn [foldr].
  change (insert_by c (f x) (sort_by c (f <$> l)) = f <$> insert_by c' x (sort_by c' l)).
  rewrite IH by (intros; apply Hc; by right). apply insert_by_fmap.
  intros y Hy. rewrite sort_by_perm in Hy. apply Hc; [by left|by right].
Qed.

(** The rows a commit index holds, and the order of its keys. *)
Definition commit_rows (rows : list (Z * string)) : gset string :=
  list_to_set ((λ r, pinboard_commit_index_key r.1 r.2) <$> rows).

Definition by_height (rows : list (Z * string)) : list (Z * string) :=
  sort_by (lex Z.compare key_compare) rows.

#[export] Instance Z_compare_lawful : LawfulCompare Z.compare.
Proof.
  split.
  - intros x y. apply Z.compare_eq_iff.
  - intros x y. apply Z.compare_antisym.
  - intros x y z. rewrite !Z.compare_lt_iff. lia.
Qed.

Lemma commit_rows_sorted rows :
  NoDup rows → Forall (λ r, height_ok r.1) rows →
  sorted_keys (commit_rows rows) = (λ r, pinboard_commit_index_key r.1 r.2) <$> by_height rows.
Proof.
  intros Hn Hh. rewrite list.Forall_forall in Hh.
  assert (∀ x y, x ∈ rows → y ∈ rows →
    key_compare (pinboard_commit_index_key x.1 x.2) (pinboard_commit_index_key y.1 y.2)
    = lex Z.compare key_compare x y) as Hc.
  { intros [h1 i1] [h2 i2] Hx Hy. apply commit_key_compare; [by apply (Hh _ Hx)|by apply (Hh _ Hy)]. }
  unfold sorted_keys, by_height. rewrite <- (sort_by_fmap _ key_compare) by exact Hc.
  apply sort_by_unique; [apply _|]. unfold commit_rows. apply elements_list_to_set.
  apply NoDup_fmap_2_strong; [|done]. intros x y Hx Hy E.
  apply (cmp_eq (cmp := lex Z.compare key_compare)). rewrite <- (Hc x y Hx Hy), E. by apply cmp_eq.
Qed.

Lemma after_height_key h id : after_height (pinboard_commit_index_key h id) = id.
Proof.
  unfold after_height, pinboard_commit_index_key. rewrite split_once_app; [done|].
  unfold u64_hex_fixed. pose proof (proj1 (hex_digits_shape 16 h EmptyString eq_refl)) as Hx.
  revert Hx. generalize (hex_digits 16 h EmptyString) as s. induction s as [|c s IH]; [done|].
  cbn [string_all]. intros [Hc Hs]%andb_true_iff. rewrite (IH Hs), andb_true_r.
  destruct (Ascii.eqb_spec ":" c) as [<-|]; [done|reflexivity].
Qed.

Lemma accepted_all keys : accepted (λ _, true) keys = keys.
Proof. induction keys as [|k keys IH]; [done|]. cbn [accepted]. by rewrite IH. Qed.

(** The message ids of the feed, in its order. *)
Definition feed_ids (order : PinboardGlobalFeedOrder) (rows : list (Z * string)) : list string :=
  match order with Asc => (by_height rows).*2 | Desc => rev (by_height rows).*2 end.

Lemma feed_keys_ids db order rows :
  pinboard_idx_commit_cf db = commit_rows rows → NoDup rows → Forall (λ r, height_ok r.1) rows →
  after_height <$> feed_keys order db = feed_ids order rows.
Proof.
  intros Hidx Hn Hh. unfold feed_keys, feed_ids. rewrite Hidx, commit_rows_sorted by done.
  assert (after_height <$> ((λ r, pinboard_commit_index_key r.1 r.2) <$> by_height rows) = (by_height rows).*2) as Hm.
  { rewrite <- list_fmap_compose. apply list_fmap_ext. intros i [h id] _. exact (after_height_key h id). }
  destruct order; [exact Hm|]. rewrite <- Hm. apply map_rev.
Qed.

Lemma global_page (db : Database) (order : PinboardGlobalFeedOrder) (rows : list (Z * string))
    (o : PrefixQueryOptions) (now : Z) (rl : PrefixQueryRateLimiter) :
  pinboard_idx_commit_cf db = commit_rows rows → NoDup rows → Forall (λ r, height_ok r.1) rows →
  PrefixQueryOptions_validate o = Ok tt →
  Z.of_nat (pg_page (pq_pagination o)) * Z.of_nat (pg_page_size (pq_pagination o)) ≤ u64_max →
  memory_of (feed_keys order db) ≤ pq_max_memory_bytes o →
  (is_allowed (pq_client_id o) "pinboard_idx_commit:global" now rl).1 = true →
  let offset := (pg_page (pq_pagination o) * pg_page_size (pq_pagination o))%nat in
  ∃ r, get_pinboard_message_ids_global_secure db order o now rl =
      (Ok r, (is_allowed (pq_client_id o) "pinboard_idx_commit:global" now rl).2) ∧
    pr_items r = take (pg_page_size (pq_pagination o))
                   (drop offset (take (pq_max_results o) (feed_ids order rows))) ∧
    (pr_has_more r = true ↔
      (offset ≤ pq_max_results o ∧ offset + length (pr_items r) < length rows)%nat).
Proof.
  intros Hidx Hn Hh Hval Hov Hmem Hrl. cbv zeta.
  assert (PaginationParams_offset (pq_pagination o)
    = pg_page (pq_pagination o) * pg_page_size (pq_pagination o))%nat as Hoff.
  { unfold PaginationParams_offset, wrap_u64. rewrite Z.mod_small by (unfold u64_max in Hov; lia). lia. }
  assert (0 < pg_page_size (pq_pagination o))%nat as Hsize.
  { unfold PrefixQueryOptions_validate, PaginationParams_validate in Hval.
    destruct (_ <? _)%nat; [done|]. destruct (Nat.eqb_spec (pg_page_size (pq_pagination o)) 0); [done|lia]. }
  unfold get_pinboard_message_ids_global_secure, rate_limited. rewrite Hval.
  destruct (is_allowed _ _ now rl) as [ok rl']. cbn [fst] in Hrl. subst ok. cbn [snd].
  pose proof (page_slice o (λ _, true) after_height (feed_keys order db)) as Hp. cbv zeta in Hp.
  rewrite accepted_all in Hp. destruct (Hp Hsize Hmem) as [Hi Hm]. rewrite Hoff in *.
  eexists. split; [done|]. rewrite Hi. split_and!.
  - by rewrite !fmap_take, fmap_drop, fmap_take, (feed_keys_ids db order rows) by done.
  - rewrite Hi in Hm. rewrite Hm.
    assert (length (feed_keys order db) = length rows) as ->; [|done].
    rewrite <- (length_fmap after_height), (feed_keys_ids db order rows) by done.
    unfold feed_ids. destruct order; rewrite ?length_rev, length_fmap; unfold by_height; by rewrite sort_by_perm.
Qed.

(** The global feed is the index in commit order, cut into pages: each page
    is the next slice of the messages ordered by height, newest or oldest
    first, and [has_more] says whether messages follow on a later page, up to
    the result limit. *)
Theorem global_feed_pages (db : Database) (order : PinboardGlobalFeedOrder) (rows : list (Z * string))
    (o : PrefixQueryOptions) (now : Z) (rl : PrefixQueryRateLimiter) :
  pinboard_idx_commit_cf db = commit_rows rows → NoDup rows → Forall (λ r, height_ok r.1) rows →
  PrefixQueryOptions_validate o = Ok tt →
  Z.of_nat (pg_page (pq_pagination o)) * Z.of_nat (pg_page_size (pq_pagination o)) ≤ u64_max →
  memory_of (feed_keys order db) ≤ pq_max_memory_bytes o →
  (is_allowed (pq_client_id o) "pinboard_idx_commit:global" now rl).1 = true →
  let offset := (pg_page (pq_pagination o) * pg_page_size (pq_pagination o))%nat in
  ∃ r, (get_pinboard_message_ids_global_secure db order o now rl).1 = Ok r ∧
    pr_items r = take (pg_page_size (pq_pagination o))
                   (drop offset (take (pq_max_results o) (feed_ids order rows))) ∧
    (pr_has_more r = true ↔
      (offset ≤ pq_max_results o ∧ offset + length (pr_items r) < length rows)%nat) ∧
    feed_ids Asc rows = (by_height rows).*2 ∧ by_height rows ≡ₚ rows ∧
    StronglySorted (λ a b, a.1 ≤ b.1) (by_height rows).
Proof.
  intros Hidx Hn Hh Hval Hov Hmem Hrl. cbv zeta.
  destruct (global_page db order rows o now rl Hidx Hn Hh Hval Hov Hmem Hrl) as (r & Hr & Hi & Hm).
  exists r. rewrite Hr. split_and!; [done|done|done|done|apply sort_by_perm|].
  pose proof (sort_by_sorted (lex Z.compare key_compare) rows) as Hs.
  fold (by_height rows) in Hs. induction Hs as [|[h1 i1] l _ IH Hx]; constructor; [exact IH|].
  eapply list.Forall_impl; [exact Hx|]. intros [h2 i2]. unfold cmp_le, lex. cbn [fst snd].
  destruct (Z.compare_spec h1 h2); simpl; [lia|lia|done].
Qed.

(** ** Tags that contain a colon *)

Lemma rsplit_once_none c s :
  string_all (λ c', negb (Ascii.eqb c' c)) s = true → rsplit_once c s = None.
Proof.
  induction s as [|a s IH]; [done|]. cbn [string_all rsplit_once].
  intros [Ha Hs]%andb_true_iff. rewrite (IH Hs). by destruct (Ascii.eqb a c).
Qed.

Lemma rsplit_once_app c a b :
  string_all (λ c', negb (Ascii.eqb c' c)) b = true →
  rsplit_once c (String.append a (String c b)) = Some (a, b).
Proof.
  intros Hb. induction a as [|x a IH].
  - change (String.append EmptyString (String c b)) with (String c b). cbn [rsplit_once].
    by rewrite (rsplit_once_none c b Hb), Ascii.eqb_refl.
  - change (String.append (String x a) (String c b)) with (String x (String.append a (String c b))).
    cbn [rsplit_once]. by rewrite IH.
Qed.

Lemma starts_with_append p s : starts_with p (String.append p s) = true.
Proof.
  induction p as [|c p IH]; [by destruct s|].
  change (String.append (String c p) s) with (String c (String.append p s)).
  unfold starts_with in *. cbn [String.prefix]. destruct (ascii_dec c c); [done|done].
Qed.

Lemma bytes_compare_prefix a b : bytes_compare (a ++ b) a ≠ Lt.
Proof.
  induction a as [|x a IH]; [by destruct b|]. cbn [app bytes_compare]. by rewrite N.compare_refl.
Qed.

Lemma seek_append p s keys : seek p (String.append p s :: keys) = String.append p s :: keys.
Proof.
  cbn [seek]. unfold key_compare. rewrite as_bytes_append.
  pose proof (bytes_compare_prefix (as_bytes p) (as_bytes s)). by destruct (bytes_compare _ _).
Qed.

(** A tag listing shows messages of other tags: the keys of a tag and of
    any tag that continues it after a colon share their prefix, and nothing
    keeps colons out of tags, so a message tagged [tag:sub] is listed under
    [tag]. *)
Theorem tag_listing_mixes_tags {H : HexCrate} (tag sub message_id : string) (h now : Z) :
  canonicalize_post_message_tags [tag] = Ok [tag] →
  string_all (λ c, negb (Ascii.eqb c ":")) message_id = true →
  Z.of_nat (String.length (pinboard_tag_index_key (String.append tag (String ":" sub)) h message_id))
    ≤ pq_max_memory_bytes PrefixQueryOptions_default →
  ∃ r rl, get_pinboard_message_ids_by_tag_secure
      (put_pinboard_tag_index_with_tx (String.append tag (String ":" sub), h, message_id) empty_database)
      tag PrefixQueryOptions_default now RateLimiter_default = (Ok r, rl) ∧
    pr_items r = [message_id].
Proof.
  intros Htag Hid Hmem. unfold get_pinboard_message_ids_by_tag_secure, rate_limited.
  cbn [PrefixQueryOptions_validate PrefixQueryOptions_default].
  change (PrefixQueryOptions_validate PrefixQueryOptions_default) with (@Ok EldError unit tt).
  cbv iota beta. unfold is_allowed. change (rl_requests RateLimiter_default) with (∅ : gmap string (list Z)).
  rewrite lookup_empty, Htag. eexists _, _. split; [done|].
  cbn [list.head default from_option id].
  set (key := pinboard_tag_index_key (String.append tag (String ":" sub)) h message_id) in *.
  assert (∃ rest, key = String.append (String.append tag ":") rest) as [rest Hrest].
  { exists (String.append sub (String ":" (String.append (u64_hex_fixed h) (String ":" message_id)))).
    unfold key, pinboard_tag_index_key. by rewrite <- !string_append_assoc. }
  assert (sorted_keys (pinboard_idx_tag_cf (put_pinboard_tag_index_with_tx
    (String.append tag (String ":" sub), h, message_id) empty_database)) = [key]) as ->.
  { unfold put_pinboard_tag_index_with_tx. cbn [pinboard_idx_tag_cf set_pinboard_idx_tag_cf]. fold key.
    change (pinboard_idx_tag_cf empty_database) with (∅ : gset string).
    unfold sorted_keys. rewrite union_empty_r_L, elements_singleton. done. }
  assert (seek (String.append tag ":") [key] = [key]) as -> by (rewrite Hrest; apply seek_append).
  assert (accepted (starts_with (String.append tag ":")) [key] = [key]) as Hacc
    by (cbn [accepted]; by rewrite Hrest, starts_with_append).
  destruct (page_slice PrefixQueryOptions_default (starts_with (String.append tag ":")) last_part [key])
    as [Hi _]; [simpl; lia|rewrite Hacc; simpl; unfold PrefixQueryOptions_default in Hmem; cbn in Hmem; lia|].
  rewrite Hi, Hacc. change (PaginationParams_offset (pq_pagination PrefixQueryOptions_default)) with 0%nat.
  cbn [pq_max_results PrefixQueryOptions_default take drop pg_page_size pq_pagination fmap list_fmap].
  assert (key = String.append (String.append (String.append tag (String ":" sub))
    (String ":" (u64_hex_fixed h))) (String ":" message_id)) as -> by (by rewrite <- string_append_assoc).
  change (take (pg_page_size PaginationParams_default) [?k]) with [k]. cbn [fmap list_fmap].
  unfold last_part. by rewrite (rsplit_once_app ":" _ message_id Hid).
Qed.

(** ** Witnesses *)

Lemma rate_limit_respected_witness :
  Z.of_nat (length (List.filter (in_window MINUTE)
    (allowed_times "c" "p" [("c", "p", 1); ("d", "p", 2); ("c", "p", 3); ("c", "p", 4)]
       (RateLimiter_new 2)))) ≤ 2.
Proof.
  apply (rate_limit_respected "c" "p" 2 [("c", "p", 1); ("d", "p", 2); ("c", "p", 3); ("c", "p", 4)]).
  - lia.
  - cbn. repeat (apply SSorted_nil || apply Forall_nil || constructor || lia).
Defined.

Definition test_rows : list (Z * string) := [(300, "m3"); (2, "m1"); (16, "m2")].
Definition test_feed_db : Database :=
  foldr put_pinboard_commit_index_with_tx empty_database test_rows.
Definition test_feed_options : PrefixQueryOptions :=
  mkPrefixQueryOptions (mkPaginationParams 1 2) 1000 1000 "c".

(** The second page of two, newest first: the oldest message alone. *)
Lemma global_feed_pages_witness :
  ∃ r, (get_pinboard_message_ids_global_secure test_feed_db Desc test_feed_options 0 RateLimiter_default).1
    = Ok r ∧ pr_items r = ["m1"] ∧ pr_has_more r = false.
Proof.
  destruct (global_feed_pages test_feed_db Desc test_rows test_feed_options 0 RateLimiter_default)
    as (r & Hr & Hi & Hm & _).
  - vm_compute. reflexivity.
  - apply (bool_decide_eq_true_1 (NoDup test_rows)). vm_compute. reflexivity.
  - repeat constructor; cbn; unfold u64_max; lia.
  - reflexivity.
  - cbn. unfold u64_max. lia.
  - vm_compute. discriminate.
  - reflexivity.
  - exists r. split; [exact Hr|]. split; [rewrite Hi; vm_compute; reflexivity|].
    apply not_true_is_false. intros Hmore. apply Hm in Hmore as [_ Hlt]. rewrite Hi in Hlt.
    vm_compute in Hlt. lia.
Defined.

Lemma tag_listing_mixes_tags_witness :
  ∃ r rl, get_pinboard_message_ids_by_tag_secure
      (put_pinboard_tag_index_with_tx ("a:b", 7, "m1") empty_database)
      "a" PrefixQueryOptions_default 0 RateLimiter_default = (Ok r, rl) ∧ pr_items r = ["m1"].
Proof.
  apply (tag_listing_mixes_tags "a" "b" "m1" 7 0); vm_compute; [reflexivity|reflexivity|discriminate].
Defined.
