(* ===== verification/Sync.v ===== *)
(** Content between peers: the handlers of announce, request and response
    messages (node_app/src/content/sync/sync_coordinator/pinboard.rs), the
    tracker of missing content (node_app/src/capacity/
    missing_content_tracker.rs), the periodic pass over it
    (node_app/src/content/sync/periodic_sync.rs) and the copy of committed
    blobs into slots (the task spawned at the end of commit.rs).

    Each handler is one step on the capacity and the tracker; the messages it
    broadcasts are part of its result.  Writing the tracker's file succeeds. *)
From S2P Require Import Prelude Externals Reference Coins Address Ordering Namespace Cado Records Tx Merkle Pinboard AppState Storage Slots Capacity.

(** ** Data *)

Record ContentId : Type := mkContentId { content_id_bytes : byte_array 32 }.
Record ManifestId : Type := mkManifestId { manifest_id_bytes : byte_array 32 }.

#[export] Instance ContentId_eq_dec : EqDecision ContentId.
Proof. solve_decision. Defined.

#[export] Instance ManifestId_eq_dec : EqDecision ManifestId.
Proof. solve_decision. Defined.

Record MissingContentRecord : Type := mkMissingContentRecord {
  mr_manifest_id : ManifestId;
  mr_content_id : ContentId;
  mr_block_height : Z;
  mr_discovered_at : Z;
  mr_attempt_count : Z;
  mr_last_attempt : option Z;
}.

(** serde_json on the tracker's file. *)
Class TrackerJson : Type := {
  tracker_to_json : gmap string MissingContentRecord → string;
  tracker_from_json : string → option (gmap string MissingContentRecord);
}.

Class TrackerJsonLaws (T : TrackerJson) : Prop := {
  tracker_json m : tracker_from_json (tracker_to_json m) = Some m;
}.

Record MissingContentTracker : Type := mkTracker {
  mt_records : gmap string MissingContentRecord;
  mt_file : option string;
}.

(** The messages on content. *)
Inductive SyncMsg : Type :=
| Announce (content_id : string)
| ContentRequest (content_id : string)
| ContentResponse (content_id content : string).

Section sync.
Context {H : HexCrate} {HC : HashCrates} {X : Blake3Xof} {J : SlotJson} {B : Base64} {T : TrackerJson}.

(** ** content_id.rs, manifest_id.rs *)

Definition ContentId_parse_hex (s : string) : eld_result ContentId :=
  let? b := decode_fixed_hex 32 s "content ID" in Ok (mkContentId b).

Definition ContentId_hex_with_prefix (c : ContentId) : string :=
  String.append "0x" (hex_encode (content_id_bytes c)).

Definition ManifestId_hex_with_prefix (m : ManifestId) : string :=
  String.append "0x" (hex_encode (manifest_id_bytes m)).

(** ** missing_content_tracker.rs *)

Definition with_0x_prefix (input : string) : string :=
  if starts_with "0x" input then input else String.append "0x" input.

Definition parse_content_id (input : string) : eld_result ContentId :=
  ContentId_parse_hex (with_0x_prefix input).

Definition tracker_load (t : MissingContentTracker) : eld_result MissingContentTracker :=
  match mt_file t with
  | None => Ok t
  | Some json =>
      let? records := ok_or (tracker_from_json json) (StorageError "load_missing_content") in
      Ok (mkTracker records (mt_file t))
  end.

Definition tracker_save (records : gmap string MissingContentRecord) : MissingContentTracker :=
  mkTracker records (Some (tracker_to_json records)).

Definition mark_content_synced (manifest_id : string) (t : MissingContentTracker) :
    MissingContentTracker :=
  match mt_records t !! manifest_id with
  | Some _ => tracker_save (delete manifest_id (mt_records t))
  | None => t
  end.

Definition mark_content_synced_by_content_id (content_id : string) (t : MissingContentTracker) :
    eld_result MissingContentTracker :=
  let? needle := parse_content_id content_id in
  let found := existsb (λ kv, bool_decide (mr_content_id kv.2 = needle)) (map_to_list (mt_records t)) in
  Ok (if found then tracker_save (base.filter (λ kv, mr_content_id kv.2 ≠ needle) (mt_records t)) else t).

Definition upsert_missing_content_by_content_id (content_id : string) (now : Z)
    (t : MissingContentTracker) : eld_result MissingContentTracker :=
  let? content_id := parse_content_id content_id in
  let manifest_id := mkManifestId (content_id_bytes content_id) in
  let key := ManifestId_hex_with_prefix manifest_id in
  let record := default (mkMissingContentRecord manifest_id content_id 0 now 0 None)
                  (mt_records t !! key) in
  Ok (tracker_save (<[key := mkMissingContentRecord (mr_manifest_id record) (mr_content_id record)
                               (mr_block_height record) (mr_discovered_at record)
                               (mr_attempt_count record) (Some now)]> (mt_records t))).

(** In some order of the hash map. *)
Definition get_all_missing_content (t : MissingContentTracker) : list MissingContentRecord :=
  (map_to_list (mt_records t)).*2.

Definition update_missing_content_record (record : MissingContentRecord) (t : MissingContentTracker) :
    MissingContentTracker :=
  tracker_save (<[ManifestId_hex_with_prefix (mr_manifest_id record) := record]> (mt_records t)).

(** ** Slots as a store of content *)

(** [bytes.chunks(MAX_CHUNK_SIZE)]; the length of the bytes is enough fuel. *)
Fixpoint chunks_fuel (fuel : nat) (b : bytes) : list bytes :=
  match fuel, b with
  | S fuel, _ :: _ => take MAX_CHUNK_SIZE b :: chunks_fuel fuel (drop MAX_CHUNK_SIZE b)
  | _, _ => []
  end.

Definition chunks (b : bytes) : list bytes := chunks_fuel (length b) b.

(** The write both callers make once [get_content_from_slots] said [None]; a
    failure is only logged. *)
Definition store_if_missing (content_key : string) (content : bytes) (cm : CapacityManager) :
    CapacityManager :=
  match get_content_from_slots content_key cm with
  | Ok (Some _) => cm
  | Ok None => (store_content_chunks content_key (chunks content) cm).2
  | Err _ => cm
  end.

(** The task [commit] spawns over the blobs of the block. *)
Definition mirror_blobs (blobs : list (string * bytes)) (cm : CapacityManager) : CapacityManager :=
  foldl (λ cm b, store_if_missing b.1 b.2 cm) cm blobs.

(** ** pinboard.rs of the coordinator *)

Definition handle_announce (db : Database) (cm : CapacityManager) (content_key : string) (now : Z)
    (t : MissingContentTracker) : MissingContentTracker * list SyncMsg :=
  match db_pinboard_temp_blob db content_key with
  | Some _ => (t, [])
  | None =>
      match get_content_from_slots content_key cm with
      | Ok (Some _) => (t, [])
      | Ok None =>
          (match upsert_missing_content_by_content_id content_key now t with Ok t => t | Err _ => t end,
           [ContentRequest content_key])
      | Err _ => (t, [])
      end
  end.

Definition handle_content_request (db : Database) (cm : CapacityManager) (content_key : string) :
    list SyncMsg :=
  match db_pinboard_temp_blob db content_key with
  | Some content_bytes => [ContentResponse content_key (base64_encode content_bytes)]
  | None =>
      match get_content_from_slots content_key cm with
      | Ok (Some content_bytes) => [ContentResponse content_key (base64_encode content_bytes)]
      | _ => []
      end
  end.

(** The key of content: the hex SHA-256 of its bytes. *)
Definition content_key_of (b : bytes) : string := hex_encode (sha256 b).

Definition handle_content_response (content_key content : string)
    (s : CapacityManager * MissingContentTracker) : CapacityManager * MissingContentTracker :=
  let '(cm, t) := s in
  match get_content_from_slots content_key cm with
  | Ok None =>
      match base64_decode content with
      | None => (cm, t)
      | Some content_bytes =>
          if String.eqb (content_key_of content_bytes) content_key then
            (store_if_missing content_key content_bytes cm,
             match mark_content_synced_by_content_id content_key t with Ok t => t | Err _ => t end)
          else (cm, t)
      end
  | _ => (cm, t)
  end.

(** ** periodic_sync.rs *)

Definition MAX_MISSING_CONTENT_PER_PASS : nat := 32.

Definition attempt_compare (a b : MissingContentRecord) : comparison :=
  lex Z.compare Z.compare (default 0 (mr_last_attempt a), mr_discovered_at a)
    (default 0 (mr_last_attempt b), mr_discovered_at b).

Definition select_missing_for_pass (records : list MissingContentRecord) (limit : nat) :
    list MissingContentRecord :=
  take limit (sort_by attempt_compare records).

(** [str::trim_start_matches("0x")] *)
Fixpoint trim_start_matches_0x (s : string) : string :=
  match s with
  | String "0" (String "x" s') => trim_start_matches_0x s'
  | _ => s
  end.

Definition attempted (record : MissingContentRecord) (now : Z) : MissingContentRecord :=
  mkMissingContentRecord (mr_manifest_id record) (mr_content_id record) (mr_block_height record)
    (mr_discovered_at record) ((mr_attempt_count record + 1) mod 2 ^ 32) (Some now).

(** One record of a pass. *)
Definition request_missing (cm : CapacityManager) (now : Z)
    (s : MissingContentTracker * list SyncMsg) (record : MissingContentRecord) :
    MissingContentTracker * list SyncMsg :=
  match get_content_from_slots (ContentId_hex_with_prefix (mr_content_id record)) cm with
  | Ok (Some _) =>
      (mark_content_synced (ManifestId_hex_with_prefix (mr_manifest_id record)) s.1, s.2)
  | Ok None =>
      (update_missing_content_record (attempted record now) s.1,
       s.2 ++ [ContentRequest
                 (trim_start_matches_0x (ContentId_hex_with_prefix (mr_content_id record)))])
  | Err _ => s
  end.

Definition check_and_request_missing (cm : CapacityManager) (now : Z) (t : MissingContentTracker) :
    MissingContentTracker * list SyncMsg :=
  foldl (request_missing cm now) (t, [])
    (select_missing_for_pass (get_all_missing_content t) MAX_MISSING_CONTENT_PER_PASS).

(** ** Chunks *)

Lemma chunks_fuel_spec fuel b :
  (length b ≤ fuel)%nat →
  concat (chunks_fuel fuel b) = b ∧ Forall (λ d, length d ≤ MAX_CHUNK_SIZE)%nat (chunks_fuel fuel b) ∧
  length (chunks_fuel fuel b) = ((length b + (MAX_CHUNK_SIZE - 1)) / MAX_CHUNK_SIZE)%nat.
Proof.
  revert b. induction fuel as [|fuel IH]; intros b Hl.
  { destruct b; [|simpl in Hl; lia]. done. }
  destruct b as [|x b]; [done|]. set (l := x :: b) in *.
  change (chunks_fuel (S fuel) l) with (take MAX_CHUNK_SIZE l :: chunks_fuel fuel (drop MAX_CHUNK_SIZE l)).
  assert (0 < length l)%nat by (simpl; lia).
  destruct (IH (drop MAX_CHUNK_SIZE l)) as (IH1 & IH2 & IH3).
  { rewrite length_drop. unfold MAX_CHUNK_SIZE. lia. }
  cbn [concat length]. rewrite IH1, IH3, length_drop. split_and!.
  - apply take_drop.
  - constructor; [|done]. rewrite length_take. lia.
  - unfold MAX_CHUNK_SIZE. destruct (Nat.le_gt_cases (length l) 1024).
    + replace (length l - 1024)%nat with 0%nat by lia. rewrite (Nat.div_small (0 + _)) by lia.
      replace (length l + (1024 - 1))%nat with (1 * 1024 + (length l - 1))%nat by lia.
      rewrite Nat.div_add_l by lia. rewrite Nat.div_small by lia. done.
    + replace (length l + (1024 - 1))%nat with (1 * 1024 + (length l - 1024 + (1024 - 1)))%nat by lia.
      by rewrite Nat.div_add_l by lia.
Qed.

Lemma chunks_concat b : concat (chunks b) = b.
Proof. by apply chunks_fuel_spec. Qed.

Lemma chunks_small b : Forall (λ d, length d ≤ MAX_CHUNK_SIZE)%nat (chunks b).
Proof. by apply chunks_fuel_spec. Qed.

Lemma chunks_count b : length (chunks b) = ((length b + (MAX_CHUNK_SIZE - 1)) / MAX_CHUNK_SIZE)%nat.
Proof. by apply chunks_fuel_spec. Qed.

(** ** Storing *)

(** [store_if_missing] on the shelf. *)
Lemma store_if_missing_shelf key b cm :
  capacity_ok cm →
  capacity_ok (store_if_missing key b cm) ∧
  shelf_of (store_if_missing key b cm) =
    match shelved (shelf_of cm) !! key with
    | Some _ => shelf_of cm
    | None => default (shelf_of cm) (shelf_put key (chunks b) (shelf_of cm))
    end.
Proof.
  intros Hok. unfold store_if_missing. rewrite (get_content_shelf key cm Hok).
  destruct (shelved (shelf_of cm) !! key) as [l|]; [done|]. cbn [fmap option_fmap option_map].
  pose proof (store_shelf key (chunks b) cm Hok (chunks_small b)) as Hs.
  destruct (shelf_put key (chunks b) (shelf_of cm)) as [sh|].
  - destruct Hs as (used & s' & Hrun & _ & Hok' & Hsh & _). by rewrite Hrun.
  - by rewrite Hs.
Qed.

(** Every content is stored under its digest. *)
Definition content_addressed (cm : CapacityManager) : Prop :=
  ∀ key l, shelved (shelf_of cm) !! key = Some l → key = content_key_of (concat l).

Lemma store_if_missing_addressed key b cm :
  capacity_ok cm → content_addressed cm → key = content_key_of b →
  content_addressed (store_if_missing key b cm).
Proof.
  intros Hok Had Hk. destruct (store_if_missing_shelf key b cm Hok) as [_ Hsh].
  unfold content_addressed. rewrite Hsh. destruct (shelved (shelf_of cm) !! key); [done|].
  unfold shelf_put. destruct (_ <? _)%nat; [done|]. cbn [from_option id shelved]. intros key' l.
  destruct (decide (key' = key)) as [->|Hne].
  - rewrite lookup_insert_eq. intros [= <-]. by rewrite chunks_concat.
  - rewrite lookup_insert_ne by done. apply Had.
Qed.

(** The whole response handler on the capacity. *)
Lemma handle_content_response_cases key content cm t :
  capacity_ok cm →
  handle_content_response key content (cm, t) = (cm, t) ∨
  ∃ b, base64_decode content = Some b ∧ key = content_key_of b ∧
    shelved (shelf_of cm) !! key = None ∧
    handle_content_response key content (cm, t) =
      (store_if_missing key b cm,
       match mark_content_synced_by_content_id key t with Ok t => t | Err _ => t end).
Proof.
  intros Hok. unfold handle_content_response. rewrite (get_content_shelf key cm Hok).
  destruct (shelved (shelf_of cm) !! key); [by left|]. cbn [fmap option_fmap option_map].
  destruct (base64_decode content) as [b|]; [|by left].
  destruct (String.eqb_spec (content_key_of b) key) as [<-|]; [|by left].
  right. by exists b.
Qed.

(** ** The life of a provider *)

(** The tracker of the message handler and that of the periodic service each
    keep their own records, over one file (runtime/p2p.rs). *)
Record provider_state : Type := mkProviderState {
  ps_capacity : CapacityManager;
  ps_handler : gmap string MissingContentRecord;
  ps_periodic : gmap string MissingContentRecord;
  ps_file : option string;
}.

(** What changes a provider: the blobs of committed blocks, messages of peers,
    the periodic pass, the removal of expired content and restarts. *)
Inductive provider_step : provider_state → provider_state → Prop :=
| step_mirror blobs cm hd pd file :
    Forall (λ b, b.1 = content_key_of b.2) blobs →
    provider_step (mkProviderState cm hd pd file) (mkProviderState (mirror_blobs blobs cm) hd pd file)
| step_response key content cm hd pd file cm' t' :
    handle_content_response key content (cm, mkTracker hd file) = (cm', t') →
    provider_step (mkProviderState cm hd pd file) (mkProviderState cm' (mt_records t') pd (mt_file t'))
| step_announce db key now cm hd pd file t' msgs :
    handle_announce db cm key now (mkTracker hd file) = (t', msgs) →
    provider_step (mkProviderState cm hd pd file) (mkProviderState cm (mt_records t') pd (mt_file t'))
| step_pass now cm hd pd file t' msgs :
    check_and_request_missing cm now (mkTracker pd file) = (t', msgs) →
    provider_step (mkProviderState cm hd pd file) (mkProviderState cm hd (mt_records t') (mt_file t'))
| step_delete key cm hd pd file r cm' :
    delete_content_from_slots key cm = (r, cm') →
    provider_step (mkProviderState cm hd pd file) (mkProviderState cm' hd pd file)
| step_restart cm hd pd file cm' t' :
    initialize (reopened cm) = Some (Ok tt, cm') →
    tracker_load (mkTracker ∅ file) = Ok t' →
    provider_step (mkProviderState cm hd pd file)
      (mkProviderState cm' (mt_records t') (mt_records t') file).

Definition provider_inv (s : provider_state) : Prop :=
  capacity_ok (ps_capacity s) ∧ content_addressed (ps_capacity s).

Lemma mirror_blobs_inv blobs cm :
  capacity_ok cm → content_addressed cm → Forall (λ b, b.1 = content_key_of b.2) blobs →
  capacity_ok (mirror_blobs blobs cm) ∧ content_addressed (mirror_blobs blobs cm).
Proof.
  intros Hok Had Hb. revert cm Hok Had. induction Hb as [|[key b] blobs Hk _ IH]; intros cm Hok Had; [done|].
  unfold mirror_blobs. cbn [foldl fst snd] in *. apply IH.
  - by apply store_if_missing_shelf.
  - by apply store_if_missing_addressed.
Qed.

Lemma delete_inv key cm :
  capacity_ok cm → content_addressed cm →
  capacity_ok (delete_content_from_slots key cm).2 ∧
  content_addressed (delete_content_from_slots key cm).2.
Proof.
  intros Hok Had. pose proof (delete_shelf key cm Hok) as Hd.
  destruct (shelf_drop key (shelf_of cm)) as [sh|] eqn:Hdrop; [|by rewrite Hd].
  destruct Hd as (s' & -> & Hok' & Hsh & _). split; [done|]. unfold content_addressed. cbn [snd]. rewrite Hsh.
  unfold shelf_drop in Hdrop. destruct (shelved (shelf_of cm) !! key); [|done]. injection Hdrop as <-.
  cbn [shelved]. intros key' l' [_ Hl]%lookup_delete_Some. by apply Had.
Qed.

Lemma provider_step_inv {XL : Blake3XofLaws X} {JL : SlotJsonLaws J} s s' :
  provider_step s s' → provider_inv s → provider_inv s'.
Proof.
  intros Hstep [Hok Had]. unfold provider_inv.
  destruct Hstep as [blobs cm hd pd file Hb|key content cm hd pd file cm' t' Hr|db key now cm hd pd file t' msgs _
    |now cm hd pd file t' msgs _|key cm hd pd file r cm' Hd|cm hd pd file cm' t' Hi _]; cbn [ps_capacity] in *.
  - by apply mirror_blobs_inv.
  - destruct (handle_content_response_cases key content cm (mkTracker hd file) Hok)
      as [E | (b & _ & Hk & _ & E)]; rewrite E in Hr; injection Hr as <- <-; [done|].
    split; [by apply store_if_missing_shelf|by apply store_if_missing_addressed].
  - done.
  - done.
  - pose proof (delete_inv key cm Hok Had) as Hinv. by rewrite Hd in Hinv.
  - rewrite (restart_capacity cm Hok) in Hi. injection Hi as <-.
    destruct Hok as (m & f & t0 & [H1 H2 H3 H4 H5 H6 H7 H8 H9]). split; [|exact Had].
    by exists m, f, t0.
Qed.

Lemma provider_steps_inv {XL : Blake3XofLaws X} {JL : SlotJsonLaws J} s s' :
  rtc provider_step s s' → provider_inv s → provider_inv s'.
Proof. induction 1 as [|s1 s2 s3 Hstep _ IH]; [done|]. intros Hi. by eapply IH, provider_step_inv. Qed.

(** Whatever happens to a provider after it allocated its capacity — blobs
    of committed blocks, any messages of peers, honest or not, expiry and
    restarts, in any order — its files and its tree stay consistent, every
    content it serves has the digest it is stored under, a restart succeeds,
    and every challenge on its current root is answered and accepted. *)
Theorem provider_always_consistent {XL : Blake3XofLaws X} {JL : SlotJsonLaws J}
    (mb : Z) (seed : byte_array 32) (s0 cm0 : CapacityManager)
    (hd pd : gmap string MissingContentRecord) (file : option string) (s : provider_state) :
  0 < mb < 2 ^ 44 → file_slots s0 = None → cm_content_slot_map s0 = ∅ → file_content_map s0 = None →
  allocate_capacity mb seed s0 = Some (Ok tt, cm0) →
  rtc provider_step (mkProviderState cm0 hd pd file) s →
  let cm := ps_capacity s in
  capacity_ok cm ∧
  (∀ key b, get_content_from_slots key cm = Ok (Some b) → key = content_key_of b) ∧
  initialize (reopened cm) = Some (Ok tt, set_initialized true cm) ∧
  (∀ root idxs, cm_initialized cm = true → get_merkle_root cm = Ok root →
    Forall (λ i, i < length (slots_of cm))%nat idxs →
    ∃ proofs, generate_capacity_proof (cm_provider_id cm) idxs root cm = Some (Ok proofs) ∧
      validate_challenge_proof proofs root (Z.of_nat <$> idxs) = true).
Proof.
  intros Hmb Hs Hc Hcf Hall Hrun cm.
  assert (provider_inv (mkProviderState cm0 hd pd file)) as Hinv.
  { destruct (allocate_mb_run mb seed s0 Hmb Hs Hc Hcf) as (root & s' & Hint & Hok & _ & Hsh & _).
    rewrite Hint in Hall. injection Hall as <-.
    split; [exact Hok|]. intros key l Hl. cbn [ps_capacity] in Hl. by rewrite Hsh in Hl. }
  destruct (provider_steps_inv _ _ Hrun Hinv) as [Hok Had]. fold cm in Hok, Had. clearbody cm. split_and!.
  - exact Hok.
  - intros key b Hget. rewrite (get_content_shelf key cm Hok) in Hget.
    destruct (shelved (shelf_of cm) !! key) as [l|] eqn:Hl; [|done]. injection Hget as <-. by apply Had.
  - by apply restart_capacity.
  - intros root idxs Hini Hroot Hin. by apply honest_answer.
Qed.

(** ** Content between two peers *)

Lemma parse_content_key {HL : HexLaws H} (d : byte_array 32) :
  parse_content_id (hex_encode d) = Ok (mkContentId d).
Proof.
  unfold parse_content_id, with_0x_prefix, ContentId_parse_hex.
  assert (starts_with "0x" (hex_encode d) = false) as ->.
  { apply not_true_is_false. intros Hx. apply starts_with_0x in Hx as [t Ht].
    pose proof (hex_encode_digits d) as Hd. rewrite Ht in Hd. done. }
  rewrite (decode_fixed_hex_encode 31 d "content ID" "0x"); [done|by left].
Qed.

Lemma mark_synced_clears {HL : HexLaws H} (d : byte_array 32) t :
  ∃ t', mark_content_synced_by_content_id (hex_encode d) t = Ok t' ∧
    (∀ k r, mt_records t' !! k = Some r → mr_content_id r ≠ mkContentId d) ∧
    (∀ k r, mr_content_id r ≠ mkContentId d → mt_records t' !! k = Some r ↔ mt_records t !! k = Some r).
Proof.
  unfold mark_content_synced_by_content_id. rewrite parse_content_key. eexists. split; [done|].
  destruct (existsb _ _) eqn:Hf; split.
  - intros k r Hr. cbn [mt_records tracker_save] in Hr. by apply map_lookup_filter_Some in Hr as [_ Hr].
  - intros k r Hne. cbn [mt_records tracker_save]. rewrite map_lookup_filter_Some. split; [by intros [Hr _]|by intros Hr].
  - intros k r Hr E. apply not_true_iff_false in Hf. apply Hf, existsb_exists. exists (k, r).
    split; [|by apply bool_decide_eq_true]. by apply list_elem_of_In, elem_of_map_to_list.
  - done.
Qed.

(** Content travels: a provider that holds content answers a request for
    it, and the answer, handled by a provider that lacks it and has room, puts
    the same bytes into its slots under the same key and takes the content off
    its list of missing content, leaving the other entries. *)
Theorem content_travels_between_peers {HL : HexLaws H} {BL : Base64Laws B} (db : Database)
    (cmA cmB : CapacityManager) (tB : MissingContentTracker) (key : string) (b : bytes) :
  capacity_ok cmA → content_addressed cmA → get_content_from_slots key cmA = Ok (Some b) →
  pinboard_temp_blobs_cf db !! key = None →
  capacity_ok cmB → get_content_from_slots key cmB = Ok None →
  ((length b + (MAX_CHUNK_SIZE - 1)) / MAX_CHUNK_SIZE ≤ room (shelf_of cmB))%nat →
  ∃ content cmB' tB',
    handle_content_request db cmA key = [ContentResponse key content] ∧
    handle_content_response key content (cmB, tB) = (cmB', tB') ∧
    capacity_ok cmB' ∧ get_content_from_slots key cmB' = Ok (Some b) ∧
    (∀ key', key' ≠ key → get_content_from_slots key' cmB' = get_content_from_slots key' cmB) ∧
    (∀ k r, mt_records tB' !! k = Some r → mr_content_id r ≠ mkContentId (sha256 b)) ∧
    (∀ k r, mr_content_id r ≠ mkContentId (sha256 b) →
      mt_records tB' !! k = Some r ↔ mt_records tB !! k = Some r).
Proof.
  intros HokA HadA HgetA Htemp HokB HgetB Hroom.
  rewrite (get_content_shelf key cmA HokA) in HgetA.
  destruct (shelved (shelf_of cmA) !! key) as [l|] eqn:HlA; [|done]. injection HgetA as Hl.
  pose proof (HadA key l HlA) as Hkey. rewrite Hl in Hkey.
  rewrite (get_content_shelf key cmB HokB) in HgetB.
  destruct (shelved (shelf_of cmB) !! key) as [lB|] eqn:HlB; [done|].
  destruct (mark_synced_clears (sha256 b) tB) as (tB' & Hmark & Hgone & Hkept).
  exists (base64_encode b), (store_if_missing key b cmB), tB'.
  destruct (store_if_missing_shelf key b cmB HokB) as [Hok' Hsh]. rewrite HlB in Hsh.
  unfold shelf_put in Hsh. rewrite chunks_count, (proj2 (Nat.ltb_ge _ _)) in Hsh by done.
  cbn [from_option id] in Hsh. split_and!; try done.
  - unfold handle_content_request, db_pinboard_temp_blob. rewrite Htemp; cbn [fmap option_fmap option_map]. rewrite (get_content_shelf key cmA HokA), HlA.
    cbn [fmap option_fmap option_map]. by rewrite Hl.
  - unfold handle_content_response. rewrite (get_content_shelf key cmB HokB), HlB, base64_roundtrip.
    cbn [fmap option_fmap option_map]. rewrite <- Hkey, String.eqb_refl.
    rewrite Hkey. unfold content_key_of. by rewrite Hmark.
  - rewrite (get_content_shelf key _ Hok'), Hsh. cbn [shelved]. rewrite lookup_insert_eq.
    cbn [fmap option_fmap option_map]. by rewrite chunks_concat.
  - intros key' Hne. rewrite (get_content_shelf key' _ Hok'), (get_content_shelf key' cmB HokB), Hsh.
    cbn [shelved]. by rewrite lookup_insert_ne.
Qed.

(** A provider without room forgets what it misses: handling the right
    content it cannot store changes nothing in its slots, yet the content is
    taken off the list of missing content, so it is not requested again. *)
Theorem full_provider_forgets_missing {HL : HexLaws H} {BL : Base64Laws B}
    (cm : CapacityManager) (t : MissingContentTracker) (b : bytes) :
  capacity_ok cm → get_content_from_slots (content_key_of b) cm = Ok None →
  (room (shelf_of cm) < (length b + (MAX_CHUNK_SIZE - 1)) / MAX_CHUNK_SIZE)%nat →
  ∃ t', handle_content_response (content_key_of b) (base64_encode b) (cm, t) = (cm, t') ∧
    (∀ k r, mt_records t' !! k = Some r → mr_content_id r ≠ mkContentId (sha256 b)).
Proof.
  intros Hok Hget Hroom. destruct (mark_synced_clears (sha256 b) t) as (t' & Hmark & Hgone & _).
  exists t'. split; [|exact Hgone]. unfold handle_content_response. rewrite Hget, base64_roundtrip, String.eqb_refl.
  unfold content_key_of at 2. rewrite Hmark. f_equal. unfold store_if_missing. rewrite Hget.
  pose proof (store_shelf (content_key_of b) (chunks b) cm Hok (chunks_small b)) as Hs.
  unfold shelf_put in Hs. rewrite chunks_count, (proj2 (Nat.ltb_lt _ _)) in Hs by done. by rewrite Hs.
Qed.

Lemma prefixed_key_absent {HL : HexLaws H} cm (c : ContentId) :
  capacity_ok cm → content_addressed cm →
  get_content_from_slots (ContentId_hex_with_prefix c) cm = Ok None.
Proof.
  intros Hok Had. rewrite (get_content_shelf _ cm Hok).
  destruct (shelved (shelf_of cm) !! _) as [l|] eqn:Hl; [|done].
  apply Had in Hl. apply (f_equal String.length) in Hl. unfold content_key_of, ContentId_hex_with_prefix in Hl.
  change (String.length (String.append "0x" ?x)) with (S (S (String.length x))) in Hl.
  rewrite !hex_encode_length, !length_vec_to_list in Hl. lia.
Qed.

Lemma trim_prefix {HL : HexLaws H} (d : byte_array 32) :
  trim_start_matches_0x (String.append "0x" (hex_encode d)) = hex_encode d.
Proof.
  change (String.append "0x" (hex_encode d)) with (String "0" (String "x" (hex_encode d))).
  cbn [trim_start_matches_0x]. pose proof (hex_encode_digits d) as Hd.
  destruct (hex_encode d) as [|c0 [|c1 s]]; [done| |].
  - destruct c0 as [[] [] [] [] [] [] [] []]; done.
  - cbn [string_all] in Hd. apply andb_true_iff in Hd as [_ Hd]. apply andb_true_iff in Hd as [Hc1 _].
    destruct c0 as [[] [] [] [] [] [] [] []]; try done.
    destruct c1 as [[] [] [] [] [] [] [] []]; done.
Qed.

(** Content that arrived another way stays listed as missing: the periodic
    pass looks it up under its prefixed id, which no slot uses, so it requests
    it again and keeps the record, and the answer to the request is ignored
    because the content is there. *)
Theorem present_content_requested_again {HL : HexLaws H} (cm : CapacityManager) (now : Z)
    (k : string) (r : MissingContentRecord) (b : bytes) (file : option string) :
  capacity_ok cm → content_addressed cm →
  get_content_from_slots (content_key_of b) cm = Ok (Some b) →
  mr_content_id r = mkContentId (sha256 b) →
  k = ManifestId_hex_with_prefix (mr_manifest_id r) →
  check_and_request_missing cm now (mkTracker {[k := r]} file) =
    (tracker_save {[k := attempted r now]}, [ContentRequest (content_key_of b)]) ∧
  ∀ content t, handle_content_response (content_key_of b) content (cm, t) = (cm, t).
Proof.
  intros Hok Had Hget Hid ->. split.
  - unfold check_and_request_missing, select_missing_for_pass, get_all_missing_content.
    cbn [mt_records]. rewrite map_to_list_singleton. cbn [fmap list_fmap snd sort_by foldr insert_by].
    change (take MAX_MISSING_CONTENT_PER_PASS [r]) with [r]. cbn [foldl].
    unfold request_missing. rewrite (prefixed_key_absent cm _ Hok Had), Hid. cbn [fst snd app].
    unfold ContentId_hex_with_prefix. cbn [content_id_bytes]. rewrite trim_prefix.
    unfold update_missing_content_record. cbn [mt_records attempted mr_manifest_id].
    by rewrite insert_singleton_eq.
  - intros content t. unfold handle_content_response. by rewrite Hget.
Qed.

(** ** Two trackers over one file *)

(** Records under their own ids, none of them of the content [d]. *)
Definition records_without (d : byte_array 32) (records : gmap string MissingContentRecord) : Prop :=
  ∀ k r, records !! k = Some r → mr_content_id r ≠ mkContentId d.

(** A pass requests and saves what its own records hold. *)
Lemma pass_own_records {HL : HexLaws H} cm now d batch t msgs :
  capacity_ok cm → content_addressed cm →
  Forall (λ r, mr_content_id r ≠ mkContentId d) batch → records_without d (mt_records t) →
  ContentRequest (hex_encode d) ∉ msgs →
  (mt_file t = Some (tracker_to_json (mt_records t)) ∨ batch ≠ []) →
  let '(t', msgs') := foldl (request_missing cm now) (t, msgs) batch in
  records_without d (mt_records t') ∧ (ContentRequest (hex_encode d) ∉ msgs') ∧
  mt_file t' = Some (tracker_to_json (mt_records t')).
Proof.
  intros Hok Had Hb. revert t msgs. induction Hb as [|r batch Hr _ IH]; intros t msgs Ht Hm Hf.
  { cbn [foldl]. split_and!; [done..|]. by destruct Hf. }
  cbn [foldl]. unfold request_missing at 2. rewrite (prefixed_key_absent cm (mr_content_id r) Hok Had).
  cbn [fst snd]. apply IH.
  - intros k r' Hk. unfold update_missing_content_record in Hk. cbn [tracker_save mt_records] in Hk.
    apply lookup_insert_Some in Hk as [[_ <-]|[_ Hk]]; [exact Hr|by eapply Ht].
  - rewrite elem_of_app, list_elem_of_singleton. intros [Hin|Heq]; [done|].
    unfold ContentId_hex_with_prefix in Heq. rewrite trim_prefix in Heq. injection Heq as Heq.
    apply (f_equal hex_decode) in Heq. rewrite !hex_decode_encode in Heq. injection Heq as Heq.
    apply vec_to_list_inj2 in Heq. apply Hr. destruct (mr_content_id r). simpl in Heq. by subst.
  - by left.
Qed.

(** Announced content is requested once and then lost: the handler records
    it as missing, but the periodic service works on its own records, so no
    later pass requests it, and the pass saves those records over the file,
    after which a restart does not know the content is missing either. *)
Theorem announced_content_lost {HL : HexLaws H} {TL : TrackerJsonLaws T} (db : Database)
    (cm : CapacityManager) (d : byte_array 32) (now later : Z) (hd : MissingContentTracker)
    (pd : gmap string MissingContentRecord) :
  capacity_ok cm → content_addressed cm →
  pinboard_temp_blobs_cf db !! hex_encode d = None →
  get_content_from_slots (hex_encode d) cm = Ok None →
  records_without d pd → pd ≠ ∅ →
  ∃ hd' k r t' msgs t2,
    handle_announce db cm (hex_encode d) now hd = (hd', [ContentRequest (hex_encode d)]) ∧
    mt_records hd' !! k = Some r ∧ mt_file hd' = Some (tracker_to_json (mt_records hd')) ∧
    check_and_request_missing cm later (mkTracker pd (mt_file hd')) = (t', msgs) ∧
    (ContentRequest (hex_encode d) ∉ msgs) ∧
    tracker_load (mkTracker ∅ (mt_file t')) = Ok t2 ∧ records_without d (mt_records t2).
Proof.
  intros Hok Had Htemp Hget Hpd Hne.
  assert (∃ hd' k r, handle_announce db cm (hex_encode d) now hd = (hd', [ContentRequest (hex_encode d)]) ∧
    mt_records hd' !! k = Some r ∧ mt_file hd' = Some (tracker_to_json (mt_records hd')))
    as (hd' & k & r & Hann & Hrec & Hfile).
  { unfold handle_announce, upsert_missing_content_by_content_id, db_pinboard_temp_blob. rewrite Htemp; cbn [fmap option_fmap option_map]. rewrite Hget, parse_content_key.
    eexists _, _, _. split; [done|]. split; [|done]. cbn [mt_records tracker_save]. by rewrite lookup_insert_eq. }
  set (batch := select_missing_for_pass (get_all_missing_content (mkTracker pd (mt_file hd')))
    MAX_MISSING_CONTENT_PER_PASS).
  pose proof (pass_own_records cm later d batch (mkTracker pd (mt_file hd')) []) as Hpass.
  destruct (foldl (request_missing cm later) (mkTracker pd (mt_file hd'), []) batch) as [t' msgs] eqn:Hrun.
  destruct Hpass as (Hw & Hm & Hf); [done|done| |done|by intros ?%elem_of_nil| |].
  { apply Forall_take. rewrite sort_by_perm. unfold get_all_missing_content. cbn [mt_records].
    apply list.Forall_forall. intros r' Hr'. apply list_elem_of_fmap in Hr' as ([k' x] & -> & Hin).
    apply elem_of_map_to_list in Hin. by eapply Hpd. }
  { right. unfold batch, select_missing_for_pass. intros E. apply Hne, map_to_list_empty_iff.
    apply (f_equal length) in E. rewrite length_take, sort_by_perm in E. unfold get_all_missing_content in E.
    cbn [mt_records] in E. rewrite length_fmap in E. apply nil_length_inv. unfold MAX_MISSING_CONTENT_PER_PASS in E.
    cbn [length] in E. lia. }
  exists hd', k, r, t', msgs, (mkTracker (mt_records t') (mt_file t')). split_and!; try done.
  unfold tracker_load. cbn [mt_file]. rewrite Hf. by rewrite tracker_json.
Qed.
End sync.

(** ** Witnesses *)

#[export, program] Instance ContentId_countable : Countable ContentId :=
  inj_countable' content_id_bytes mkContentId _.
Next Obligation. by intros []. Qed.

#[export, program] Instance ManifestId_countable : Countable ManifestId :=
  inj_countable' manifest_id_bytes mkManifestId _.
Next Obligation. by intros []. Qed.

#[export] Instance MissingContentRecord_eq_dec : EqDecision MissingContentRecord.
Proof. solve_decision. Defined.

#[export, program] Instance MissingContentRecord_countable : Countable MissingContentRecord :=
  inj_countable' (λ r, (mr_manifest_id r, mr_content_id r, mr_block_height r, mr_discovered_at r,
      mr_attempt_count r, mr_last_attempt r))
    (λ '(a, b, c, d, e, f), mkMissingContentRecord a b c d e f) _.
Next Obligation. by intros []. Qed.

#[export] Instance ref_tracker_json : TrackerJson :=
  {| tracker_to_json m := pos_to_text (encode m);
     tracker_from_json s := decode (text_to_pos s) |}.

#[export] Instance ref_tracker_json_laws : TrackerJsonLaws ref_tracker_json.
Proof. split. intros m. cbn. by rewrite text_to_pos_to_text, decode_encode. Qed.

Definition test_blob : bytes := [Init.Byte.x01; Init.Byte.x02].
Definition test_missing : MissingContentRecord :=
  mkMissingContentRecord (mkManifestId (sha256 test_blob)) (mkContentId (sha256 test_blob)) 0 5 0 None.
Definition test_tracker : MissingContentTracker :=
  mkTracker {[ManifestId_hex_with_prefix (mr_manifest_id test_missing) := test_missing]} None.

(** The test capacity with the blob in it. *)
Definition test_holder : CapacityManager :=
  store_if_missing (content_key_of test_blob) test_blob test_capacity.

Lemma test_holder_ok :
  capacity_ok test_holder ∧ content_addressed test_holder ∧
  get_content_from_slots (content_key_of test_blob) test_holder = Ok (Some test_blob).
Proof.
  destruct (store_if_missing_shelf (content_key_of test_blob) test_blob test_capacity test_capacity_ok) as [Hok Hsh].
  split; [exact Hok|]. split.
  - apply store_if_missing_addressed; [apply test_capacity_ok| |done]. by intros key l Hl.
  - unfold test_holder. rewrite (get_content_shelf _ _ Hok), Hsh. done.
Qed.

Lemma test_lacking : get_content_from_slots (content_key_of test_blob) test_capacity = Ok None.
Proof. done. Qed.

Lemma provider_always_consistent_witness :
  ∃ cm0 s, allocate_capacity 1 test_slot_seed test_fresh = Some (Ok tt, cm0) ∧
    rtc provider_step (mkProviderState cm0 ∅ ∅ None) s ∧ capacity_ok (ps_capacity s).
Proof.
  destruct (allocate_mb_run 1 test_slot_seed test_fresh) as (root & cm0 & Hall & _);
    [lia|reflexivity|reflexivity|reflexivity|].
  exists cm0, (mkProviderState (mirror_blobs [(content_key_of test_blob, test_blob)] cm0) ∅ ∅ None).
  split; [exact Hall|].
  assert (rtc provider_step (mkProviderState cm0 ∅ ∅ None)
    (mkProviderState (mirror_blobs [(content_key_of test_blob, test_blob)] cm0) ∅ ∅ None)) as Hrun.
  { apply rtc_once, step_mirror. repeat constructor. }
  split; [exact Hrun|].
  apply (provider_always_consistent 1 test_slot_seed test_fresh cm0 ∅ ∅ None
    (mkProviderState (mirror_blobs [(content_key_of test_blob, test_blob)] cm0) ∅ ∅ None));
    [lia|reflexivity|reflexivity|reflexivity|exact Hall|exact Hrun].
Defined.

Lemma content_travels_between_peers_witness :
  ∃ content cmB' tB',
    handle_content_request empty_database test_holder (content_key_of test_blob) =
      [ContentResponse (content_key_of test_blob) content] ∧
    handle_content_response (content_key_of test_blob) content (test_capacity, test_tracker) = (cmB', tB') ∧
    get_content_from_slots (content_key_of test_blob) cmB' = Ok (Some test_blob).
Proof.
  destruct test_holder_ok as (Hok & Had & Hget).
  destruct (content_travels_between_peers empty_database test_holder test_capacity test_tracker
    (content_key_of test_blob) test_blob Hok Had Hget) as (content & cmB' & tB' & Hreq & Hres & _ & Hgot & _).
  - reflexivity.
  - exact test_capacity_ok.
  - exact test_lacking.
  - vm_compute. lia.
  - exists content, cmB', tB'. split; [exact Hreq|]. split; [exact Hres|exact Hgot].
Defined.

Lemma test_big_lacking : get_content_from_slots (content_key_of (zeros 2049)) test_capacity = Ok None.
Proof. vm_compute. done. Qed.

Lemma full_provider_forgets_missing_witness :
  ∃ t', handle_content_response (content_key_of (zeros 2049)) (base64_encode (zeros 2049))
    (test_capacity, test_tracker) = (test_capacity, t').
Proof.
  destruct (full_provider_forgets_missing test_capacity test_tracker (zeros 2049) test_capacity_ok
    test_big_lacking) as (t' & Ht' & _).
  - rewrite zeros_length. vm_compute. lia.
  - exists t'. exact Ht'.
Defined.

Lemma present_content_requested_again_witness :
  (check_and_request_missing test_holder 9 test_tracker).2 = [ContentRequest (content_key_of test_blob)].
Proof.
  destruct test_holder_ok as (Hok & Had & Hget).
  destruct (present_content_requested_again test_holder 9 _ test_missing test_blob None Hok Had Hget
    eq_refl eq_refl) as [Hpass _].
  unfold test_tracker. rewrite Hpass. reflexivity.
Defined.

Definition other_missing : MissingContentRecord :=
  mkMissingContentRecord (mkManifestId (vreplicate 32 Init.Byte.x09)) (mkContentId (vreplicate 32 Init.Byte.x09))
    0 1 0 None.

Lemma announced_content_lost_witness :
  ∃ hd' t' msgs,
    handle_announce empty_database test_capacity (content_key_of test_blob) 3 (mkTracker ∅ None) =
      (hd', [ContentRequest (content_key_of test_blob)]) ∧
    check_and_request_missing test_capacity 9 (mkTracker {["k" := other_missing]} (mt_file hd')) = (t', msgs) ∧
    ContentRequest (content_key_of test_blob) ∉ msgs.
Proof.
  destruct (announced_content_lost empty_database test_capacity (sha256 test_blob) 3 9 (mkTracker ∅ None)
    {["k" := other_missing]}) as (hd' & k & r & t' & msgs & t2 & Hann & _ & _ & Hpass & Hno & _).
  - exact test_capacity_ok.
  - intros key l Hl. discriminate Hl.
  - reflexivity.
  - exact test_lacking.
  - intros k r Hk. apply lookup_singleton_Some in Hk as [_ <-]. discriminate.
  - apply map_non_empty_singleton.
  - exists hd', t', msgs. split; [exact Hann|]. split; [exact Hpass|exact Hno].
Defined.
