(* ===== verification/Gc.v ===== *)
(** Removal of expired pinboard content from the slots: the tick of
    node_app/src/storage/pinboard_blob_gc.rs over the global feed, and its
    counters and log (node_app/src/storage/rocksdb/pinboard_gc.rs).

    The pages of one tick are read at the instants of [clock]. *)
From S2P Require Import Prelude Externals Reference Coins Address Ordering Namespace Cado Records Tx Merkle Pinboard AppState Storage Slots Capacity Feed.

Definition PINBOARD_GC_MAX_SCAN_PER_TICK : nat := 500.
Definition PINBOARD_GC_MAX_DELETES_PER_TICK : nat := 200.
Definition PINBOARD_GC_PAGE_SIZE : nat := 200.

(** ** pinboard_gc.rs *)

Record PinboardGcDeletedItem : Type := mkGcDeletedItem {
  gd_wallet : string;
  gd_message_id : string;
  gd_deleted_at_height : Z;
}.

(** The two column families of the collector: its counters and its log. *)
Record GcMeta : Type := mkGcMeta {
  gc_counters : gmap string Z;
  gc_deleted_log : gmap string PinboardGcDeletedItem;
}.

Definition get_pinboard_gc_u64 (key : string) (m : GcMeta) : Z := default 0 (gc_counters m !! key).

Definition put_pinboard_gc_u64 (key : string) (v : Z) (m : GcMeta) : GcMeta :=
  mkGcMeta (<[key := v]> (gc_counters m)) (gc_deleted_log m).

Definition increment_pinboard_gc_counter (key : string) (delta : Z) (m : GcMeta) : Z * GcMeta :=
  let next := saturating_add u64_max (get_pinboard_gc_u64 key m) delta in
  (next, put_pinboard_gc_u64 key next m).

Definition append_pinboard_gc_deleted_item (wallet message_id : string) (deleted_at_height : Z)
    (m : GcMeta) : GcMeta :=
  let '(seq, m) := increment_pinboard_gc_counter "metrics:deleted_seq" 1 m in
  mkGcMeta (gc_counters m)
    (<[u64_hex_fixed seq := mkGcDeletedItem wallet message_id deleted_at_height]> (gc_deleted_log m)).

Record PinboardGcMetrics : Type := mkGcMetrics {
  gm_deleted_count : Z;
  gm_scanned_count : Z;
  gm_lag_blocks : Z;
  gm_deleted_items : list PinboardGcDeletedItem;
}.

(** The log is read in the order of its keys. *)
Definition get_pinboard_gc_metrics (m : GcMeta) : PinboardGcMetrics :=
  mkGcMetrics (get_pinboard_gc_u64 "metrics:deleted_count" m)
    (get_pinboard_gc_u64 "metrics:scanned_count" m)
    (saturating_sub (get_pinboard_gc_u64 "metrics:last_seen_height" m)
       (get_pinboard_gc_u64 "metrics:last_deleted_expires_height" m))
    (omap (λ k, gc_deleted_log m !! k) (sorted_keys (dom (gc_deleted_log m)))).

Section gc.
Context {H : HexCrate} {HC : HashCrates} {X : Blake3Xof} {J : SlotJson}.

(** ** pinboard_blob_gc.rs *)

Definition gc_options (page : nat) : PrefixQueryOptions :=
  with_pagination PrefixQueryOptions_default (mkPaginationParams page PINBOARD_GC_PAGE_SIZE).

(** The latest expiry seen for the content of one message. *)
Definition note_expiry (db : Database) (acc : gmap string Z) (message_id : string) : gmap string Z :=
  match pinboard_meta_cf db !! message_id with
  | Some meta =>
      <[pm_content_key meta := Z.max (default 0 (acc !! pm_content_key meta)) (pm_expires_height meta)]> acc
  | None => acc
  end.

(** The loop over the messages of a page. *)
Fixpoint note_page (db : Database) (items : list string) (scanned : nat) (acc : gmap string Z) :
    nat * gmap string Z :=
  match items with
  | [] => (scanned, acc)
  | message_id :: items =>
      if (PINBOARD_GC_MAX_SCAN_PER_TICK <=? scanned)%nat then (scanned, acc)
      else note_page db items (S scanned) (note_expiry db acc message_id)
  end.

(** The loop over the pages; every page scans at least one message, so the
    scan limit is enough fuel. *)
Fixpoint scan_feed (fuel : nat) (db : Database) (clock : nat → Z) (page scanned : nat)
    (acc : gmap string Z) (rl : PrefixQueryRateLimiter) :
    eld_result (nat * gmap string Z) * PrefixQueryRateLimiter :=
  match fuel with
  | O => (Ok (scanned, acc), rl)
  | S fuel =>
      if (scanned <? PINBOARD_GC_MAX_SCAN_PER_TICK)%nat then
        match get_pinboard_message_ids_global_secure db Desc (gc_options page) (clock page) rl with
        | (Err e, rl) => (Err e, rl)
        | (Ok ids, rl) =>
            match pr_items ids with
            | [] => (Ok (scanned, acc), rl)
            | items =>
                let '(scanned, acc) := note_page db items scanned acc in
                if pr_has_more ids then scan_feed fuel db clock (S page) scanned acc rl
                else (Ok (scanned, acc), rl)
            end
        end
      else (Ok (scanned, acc), rl)
  end.

Definition candidate_compare (a b : string * Z) : comparison :=
  lex Z.compare key_compare (a.2, a.1) (b.2, b.1).

Definition delete_candidates (current_height : Z) (content_max_expires : gmap string Z) :
    list (string * Z) :=
  sort_by candidate_compare
    (List.filter (λ e, e.2 <=? current_height) (map_to_list content_max_expires)).

(** [find_pinboard_metadata_refs_by_content_key] *)
Definition find_pinboard_metadata_refs_by_content_key (db : Database) (content_key : string) :
    list (string * string) :=
  omap (λ k,
    meta ← pinboard_meta_cf db !! k;
    if String.eqb (pm_content_key meta) content_key
    then Some (hex_with_prefix (pm_original_signer meta), pm_message_id meta) else None)
    (sorted_keys (dom (pinboard_meta_cf db))).

Record GcState : Type := mkGcState {
  gs_capacity : CapacityManager;
  gs_meta : GcMeta;
  gs_deletes : Z;
  gs_last_deleted : Z;
}.

(** One candidate; failures are logged. *)
Definition gc_delete (db : Database) (current_height : Z) (s : GcState) (candidate : string * Z) :
    GcState :=
  match delete_content_from_slots candidate.1 (gs_capacity s) with
  | (Ok _, cm) =>
      let refs := find_pinboard_metadata_refs_by_content_key db candidate.1 in
      mkGcState cm
        (foldl (λ m r, append_pinboard_gc_deleted_item r.1 r.2 current_height m) (gs_meta s) refs)
        (gs_deletes s + 1) candidate.2
  | (Err _, cm) => mkGcState cm (gs_meta s) (gs_deletes s) (gs_last_deleted s)
  end.

Definition run_gc_tick (db : Database) (current_height : Z) (clock : nat → Z)
    (cm : CapacityManager) (m : GcMeta) (rl : PrefixQueryRateLimiter) :
    eld_result unit * (CapacityManager * GcMeta * PrefixQueryRateLimiter) :=
  match scan_feed PINBOARD_GC_MAX_SCAN_PER_TICK db clock 0 0 ∅ rl with
  | (Err e, rl) => (Err e, (cm, m, rl))
  | (Ok (scanned, content_max_expires), rl) =>
      let s := foldl (gc_delete db current_height) (mkGcState cm m 0 0)
                 (take PINBOARD_GC_MAX_DELETES_PER_TICK
                    (delete_candidates current_height content_max_expires)) in
      let m := (increment_pinboard_gc_counter "metrics:scanned_count" (Z.of_nat scanned) (gs_meta s)).2 in
      let m := (increment_pinboard_gc_counter "metrics:deleted_count" (gs_deletes s) m).2 in
      let m := put_pinboard_gc_u64 "metrics:last_seen_height" current_height m in
      let m := if 0 <? gs_deletes s
               then put_pinboard_gc_u64 "metrics:last_deleted_expires_height" (gs_last_deleted s) m
               else m in
      (Ok tt, (gs_capacity s, m, rl))
  end.

(** ** Scanning *)

Definition noted (db : Database) (ids : list string) : gmap string Z := foldl (note_expiry db) ∅ ids.

Lemma note_page_spec db items scanned acc :
  note_page db items scanned acc =
    ((scanned + length (take (PINBOARD_GC_MAX_SCAN_PER_TICK - scanned) items))%nat,
     foldl (note_expiry db) acc (take (PINBOARD_GC_MAX_SCAN_PER_TICK - scanned) items)).
Proof.
  revert scanned acc. induction items as [|i items IH]; intros scanned acc; cbn [note_page].
  { rewrite take_nil. cbn [foldl length]. by rewrite Nat.add_0_r. }
  destruct (Nat.leb_spec PINBOARD_GC_MAX_SCAN_PER_TICK scanned) as [Hle|Hlt].
  - replace (PINBOARD_GC_MAX_SCAN_PER_TICK - scanned)%nat with 0%nat by lia. cbn [take foldl length].
    by rewrite Nat.add_0_r.
  - rewrite IH. replace (PINBOARD_GC_MAX_SCAN_PER_TICK - scanned)%nat
      with (S (PINBOARD_GC_MAX_SCAN_PER_TICK - S scanned)) by lia. cbn [take foldl length]. f_equal. lia.
Qed.

(** The limiter lets a key with room through. *)
Lemma is_allowed_room c p now rl :
  Z.of_nat (length (kept c p rl)) < rl_max_requests_per_minute rl →
  (is_allowed c p now rl).1 = true ∧
  (length (kept c p (is_allowed c p now rl).2) ≤ S (length (kept c p rl)))%nat ∧
  rl_max_requests_per_minute (is_allowed c p now rl).2 = rl_max_requests_per_minute rl.
Proof.
  intros Hlt. unfold is_allowed, kept in *.
  destruct (rl_requests rl !! rate_key c p) as [ts|]; cbn [from_option id] in *; cycle 1.
  { cbn [fst snd rl_requests rl_max_requests_per_minute]. rewrite lookup_insert_eq.
    cbn [from_option id length]. split_and!; [done|lia|done]. }
  fold (recent now ts). assert (length (recent now ts) ≤ length ts)%nat as Hf by apply List.filter_length_le.
  rewrite (proj2 (Z.ltb_lt _ _)) by lia. cbn [fst snd rl_requests rl_max_requests_per_minute].
  rewrite lookup_insert_eq. cbn [from_option id]. rewrite length_app. cbn [length]. split_and!; [done|lia|done].
Qed.

(** The hypotheses on the feed the collector reads. *)
Record feed_ready (db : Database) (rows : list (Z * string)) : Prop := {
  ready_index : pinboard_idx_commit_cf db = commit_rows rows;
  ready_nodup : NoDup rows;
  ready_heights : Forall (λ r, height_ok r.1) rows;
  ready_memory : memory_of (feed_keys Desc db) ≤ pq_max_memory_bytes PrefixQueryOptions_default;
}.

Definition gc_kept (rl : PrefixQueryRateLimiter) : list Z :=
  kept "unknown" "pinboard_idx_commit:global" rl.

Lemma feed_ids_length order rows : length (feed_ids order rows) = length rows.
Proof.
  unfold feed_ids. destruct order; rewrite ?length_rev, length_fmap; unfold by_height; by rewrite sort_by_perm.
Qed.

(** One page of the collector, within the result limit. *)
Lemma gc_page db rows page now rl :
  feed_ready db rows → (page < 3)%nat →
  Z.of_nat (length (gc_kept rl)) < rl_max_requests_per_minute rl →
  ∃ r rl', get_pinboard_message_ids_global_secure db Desc (gc_options page) now rl = (Ok r, rl') ∧
    pr_items r = take PINBOARD_GC_PAGE_SIZE (drop (page * PINBOARD_GC_PAGE_SIZE) (feed_ids Desc rows)) ∧
    (pr_has_more r = true ↔ (page * PINBOARD_GC_PAGE_SIZE + length (pr_items r) < length rows)%nat) ∧
    (length (gc_kept rl') ≤ S (length (gc_kept rl)))%nat ∧
    rl_max_requests_per_minute rl' = rl_max_requests_per_minute rl.
Proof.
  intros [Hidx Hn Hh Hmem] Hp Hrl.
  destruct (is_allowed_room "unknown" "pinboard_idx_commit:global" now rl Hrl) as (Hal & Hk & Hm).
  destruct (global_page db Desc rows (gc_options page) now rl Hidx Hn Hh) as (r & Hr & Hi & Hmore).
  - done.
  - unfold gc_options, PINBOARD_GC_PAGE_SIZE, u64_max. cbn [pg_page pg_page_size pq_pagination with_pagination]. lia.
  - exact Hmem.
  - exact Hal.
  - exists r. eexists. split; [exact Hr|].
    cbn [gc_options with_pagination pq_pagination pg_page pg_page_size pq_max_results PrefixQueryOptions_default
      pq_client_id] in *. split_and!; [|rewrite Hmore|exact Hk|exact Hm].
    + rewrite Hi, skipn_firstn_comm, take_take. f_equal.
      unfold PINBOARD_GC_PAGE_SIZE. lia.
    + unfold PINBOARD_GC_PAGE_SIZE in *. lia.
Qed.

Lemma scan_feed_from db rows clock k page fuel rl :
  feed_ready db rows → (page + k = 3)%nat → (k < fuel)%nat →
  (page * PINBOARD_GC_PAGE_SIZE ≤ length rows)%nat →
  Z.of_nat (length (gc_kept rl)) + Z.of_nat k ≤ rl_max_requests_per_minute rl →
  let ids := feed_ids Desc rows in
  let seen := Nat.min PINBOARD_GC_MAX_SCAN_PER_TICK (page * PINBOARD_GC_PAGE_SIZE) in
  ∃ rl', scan_feed fuel db clock page seen (noted db (take seen ids)) rl =
    (Ok (Nat.min PINBOARD_GC_MAX_SCAN_PER_TICK (length rows),
         noted db (take PINBOARD_GC_MAX_SCAN_PER_TICK ids)), rl').
Proof.
  intros Hready. revert page fuel rl. induction k as [|k IH]; intros page fuel rl Hpk Hfuel Hn Hrl; cbv zeta;
    (destruct fuel as [|fuel]; [lia|]); cbn [scan_feed]; pose proof (feed_ids_length Desc rows) as Hlen.
  { replace page with 3%nat in * by lia. unfold PINBOARD_GC_PAGE_SIZE, PINBOARD_GC_MAX_SCAN_PER_TICK in *.
    rewrite (proj2 (Nat.ltb_ge _ _)) by lia. replace (Nat.min 500 (3 * 200)) with 500%nat by lia.
    replace (Nat.min 500 (length rows)) with 500%nat by lia. by eexists. }
  rewrite (proj2 (Nat.ltb_lt _ _)) by (unfold PINBOARD_GC_PAGE_SIZE, PINBOARD_GC_MAX_SCAN_PER_TICK; lia).
  destruct (gc_page db rows page (clock page) rl Hready ltac:(lia) ltac:(lia))
    as (r & rl' & Hr & Hi & Hmore & Hk & Hm). rewrite Hr.
  set (ids := feed_ids Desc rows) in *. set (seen := Nat.min _ _).
  assert (seen = page * PINBOARD_GC_PAGE_SIZE)%nat as Hseen
    by (unfold seen, PINBOARD_GC_PAGE_SIZE, PINBOARD_GC_MAX_SCAN_PER_TICK; lia).
  assert (length (pr_items r) = Nat.min PINBOARD_GC_PAGE_SIZE (length rows - seen)) as Hil
    by (rewrite Hi, length_take, length_drop; lia).
  destruct (pr_items r) as [|i items] eqn:Hitems.
  { cbn [length] in Hil. exists rl'.
    assert (seen = length rows ∧ seen ≤ PINBOARD_GC_MAX_SCAN_PER_TICK)%nat as [Hall Hmax]
      by (unfold seen, PINBOARD_GC_PAGE_SIZE in *; lia).
    rewrite !take_ge by lia. by replace (Nat.min _ _) with seen by lia. }
  rewrite note_page_spec.
  assert (foldl (note_expiry db) (noted db (take seen ids)) (take (PINBOARD_GC_MAX_SCAN_PER_TICK - seen) (i :: items))
    = noted db (take (seen + Nat.min (PINBOARD_GC_MAX_SCAN_PER_TICK - seen) PINBOARD_GC_PAGE_SIZE) ids)) as ->.
  { unfold noted. rewrite <- foldl_app. f_equal. rewrite Hi, take_take, <- Hseen, take_take_drop. done. }
  rewrite length_take. rewrite <- Hitems in *.
  destruct (pr_has_more r) eqn:Hhm.
  - pose proof (proj1 Hmore eq_refl) as Hlt.
    destruct (IH (S page) fuel rl') as [rl2 Hrec]; [lia|lia|lia|lia|]. exists rl2.
    rewrite <- Hrec.
    replace (Nat.min PINBOARD_GC_MAX_SCAN_PER_TICK (S page * PINBOARD_GC_PAGE_SIZE))
      with (seen + Nat.min (PINBOARD_GC_MAX_SCAN_PER_TICK - seen) PINBOARD_GC_PAGE_SIZE)%nat by lia.
    by replace (length (pr_items r)) with PINBOARD_GC_PAGE_SIZE by lia.
  - assert (¬ page * PINBOARD_GC_PAGE_SIZE + length (pr_items r) < length rows)%nat as Hge
      by (intros Hc; by apply Hmore in Hc).
    exists rl'.
    replace (Nat.min PINBOARD_GC_MAX_SCAN_PER_TICK (length rows))
      with (seen + Nat.min (PINBOARD_GC_MAX_SCAN_PER_TICK - seen) (length (pr_items r)))%nat by lia.
    destruct (Nat.le_gt_cases PINBOARD_GC_MAX_SCAN_PER_TICK (seen + PINBOARD_GC_PAGE_SIZE)).
    + by replace (seen + Nat.min (PINBOARD_GC_MAX_SCAN_PER_TICK - seen) PINBOARD_GC_PAGE_SIZE)%nat
        with PINBOARD_GC_MAX_SCAN_PER_TICK by lia.
    + by rewrite !(take_ge ids) by lia.
Qed.

Lemma scan_feed_run db rows clock rl :
  feed_ready db rows → Z.of_nat (length (gc_kept rl)) + 3 ≤ rl_max_requests_per_minute rl →
  ∃ rl', scan_feed PINBOARD_GC_MAX_SCAN_PER_TICK db clock 0 0 ∅ rl =
    (Ok (Nat.min PINBOARD_GC_MAX_SCAN_PER_TICK (length rows),
         noted db (take PINBOARD_GC_MAX_SCAN_PER_TICK (feed_ids Desc rows))), rl').
Proof.
  intros Hready Hrl. apply (scan_feed_from db rows clock 3 0 PINBOARD_GC_MAX_SCAN_PER_TICK rl);
    [done|done|unfold PINBOARD_GC_MAX_SCAN_PER_TICK; lia|lia|lia].
Qed.

(** ** The latest expiry of each content *)

(** Some scanned message has the content. *)
Definition refers (db : Database) (ids : list string) (key : string) (expires : Z) : Prop :=
  ∃ id meta, id ∈ ids ∧ pinboard_meta_cf db !! id = Some meta ∧
    pm_content_key meta = key ∧ pm_expires_height meta = expires.

Lemma noted_snoc db ids id : noted db (ids ++ [id]) = note_expiry db (noted db ids) id.
Proof. unfold noted. by rewrite foldl_app. Qed.

Lemma refers_snoc db ids id key e :
  refers db (ids ++ [id]) key e ↔ refers db ids key e ∨ refers db [id] key e.
Proof.
  unfold refers. split.
  - intros (i & m & [Hi|Hi]%elem_of_app & Hr); [left|right]; eauto.
  - intros [(i & m & Hi & Hr)|(i & m & Hi & Hr)]; exists i, m; (split; [|exact Hr]); apply elem_of_app; auto.
Qed.

Lemma refers_one db id key e :
  refers db [id] key e ↔
  ∃ meta, pinboard_meta_cf db !! id = Some meta ∧ pm_content_key meta = key ∧ pm_expires_height meta = e.
Proof.
  unfold refers. split.
  - intros (i & m & ->%list_elem_of_singleton & Hr). eauto.
  - intros (m & Hr). exists id, m. split; [by left|done].
Qed.

Lemma noted_spec db ids key :
  match noted db ids !! key with
  | None => ∀ e, ¬ refers db ids key e
  | Some v => (∃ e, refers db ids key e) ∧ (∀ e, refers db ids key e → e ≤ v) ∧
      (v = 0 ∨ refers db ids key v)
  end.
Proof.
  induction ids as [|mid ids IH] using rev_ind.
  { unfold noted. cbn [foldl]. rewrite lookup_empty. by intros e (i & m & Hi%elem_of_nil & _). }
  rewrite noted_snoc. unfold note_expiry.
  assert (∀ e, refers db (ids ++ [mid]) key e ↔ refers db ids key e ∨ refers db [mid] key e) as Hsn
    by (intros; apply refers_snoc).
  destruct (pinboard_meta_cf db !! mid) as [meta|] eqn:Hmeta.
  - assert (∀ e, refers db [mid] key e ↔ pm_content_key meta = key ∧ pm_expires_height meta = e) as Hone.
    { intros e. rewrite refers_one, Hmeta. split; [intros (m & [= <-] & Hr); exact Hr|eauto]. }
    destruct (decide (pm_content_key meta = key)) as [Hk|Hk].
    + rewrite Hk, lookup_insert_eq. set (e0 := pm_expires_height meta) in *.
      destruct (noted db ids !! key) as [v|]; cbn [from_option id].
      * destruct IH as (Hex & Hle & Hv). split_and!.
        -- exists e0. apply Hsn. right. by apply Hone.
        -- intros e [He%Hle|[_ <-]%Hone]%Hsn; lia.
        -- destruct (Z.max_spec v e0) as [[_ ->]|[_ ->]].
           ++ right. apply Hsn. right. by apply Hone.
           ++ destruct Hv as [Hv|Hv]; [by left|right]. apply Hsn. by left.
      * split_and!.
        -- exists e0. apply Hsn. right. by apply Hone.
        -- intros e [He|[_ <-]%Hone]%Hsn; [by destruct (IH e)|lia].
        -- destruct (Z.max_spec 0 e0) as [[_ ->]|[_ ->]]; [|by left].
           right. apply Hsn. right. by apply Hone.
    + rewrite lookup_insert_ne by done. destruct (noted db ids !! key) as [v|].
      * destruct IH as ((e & He) & Hle & Hv). split_and!.
        -- exists e. apply Hsn. by left.
        -- intros e' [He'|[He' _]%Hone]%Hsn; [by apply Hle|done].
        -- destruct Hv as [Hv|Hv]; [by left|right]. apply Hsn. by left.
      * intros e [He|[He _]%Hone]%Hsn; [by apply (IH e)|done].
  - assert (∀ e, ¬ refers db [mid] key e) as Hnone.
    { intros e Hr. apply refers_one in Hr as (m & Hm & _). by rewrite Hmeta in Hm. }
    destruct (noted db ids !! key) as [v|].
    + destruct IH as ((e & He) & Hle & Hv). split_and!.
      * exists e. apply Hsn. by left.
      * intros e' [He'|He']%Hsn; [by apply Hle|by destruct (Hnone e')].
      * destruct Hv as [Hv|Hv]; [by left|right]. apply Hsn. by left.
    + intros e [He|He]%Hsn; [by apply (IH e)|by apply (Hnone e)].
Qed.

(** ** Deleting *)

Lemma candidates_keys h m key :
  key ∈ (delete_candidates h m).*1 ↔ ∃ v, m !! key = Some v ∧ v ≤ h.
Proof.
  unfold delete_candidates. split.
  - intros ([k v] & -> & Hin)%list_elem_of_fmap. rewrite sort_by_perm in Hin.
    apply list_elem_of_In, filter_In in Hin as [Hin Hle]. apply list_elem_of_In, elem_of_map_to_list in Hin.
    exists v. split; [done|]. by apply Z.leb_le.
  - intros (v & Hm & Hle). apply list_elem_of_fmap. exists (key, v). split; [done|].
    rewrite sort_by_perm. apply list_elem_of_In, filter_In. split; [|by apply Z.leb_le].
    by apply list_elem_of_In, elem_of_map_to_list.
Qed.

Lemma gc_deletes db h l s :
  capacity_ok (gs_capacity s) →
  let s' := foldl (gc_delete db h) s l in
  capacity_ok (gs_capacity s') ∧
  ∀ key, shelved (shelf_of (gs_capacity s')) !! key =
    if bool_decide (key ∈ l.*1) then None else shelved (shelf_of (gs_capacity s)) !! key.
Proof.
  cbv zeta. revert s. induction l as [|[k v] l IH]; intros s Hok; [done|]. cbn [foldl].
  assert (capacity_ok (gs_capacity (gc_delete db h s (k, v))) ∧
    shelved (shelf_of (gs_capacity (gc_delete db h s (k, v)))) = delete k (shelved (shelf_of (gs_capacity s))))
    as [Hok' Hsh].
  { pose proof (delete_shelf k (gs_capacity s) Hok) as Hd. unfold gc_delete. cbn [fst].
    unfold shelf_drop in Hd. destruct (shelved (shelf_of (gs_capacity s)) !! k) as [c|] eqn:Hk.
    - destruct Hd as (cm & -> & Hok' & Hsh & _). cbn [gs_capacity]. split; [done|]. by rewrite Hsh.
    - cbn in Hd. rewrite Hd. cbn [gs_capacity]. split; [done|]. by rewrite delete_id. }
  destruct (IH (gc_delete db h s (k, v)) Hok') as [Hok2 Hkeys]. split; [exact Hok2|].
  intros key. rewrite Hkeys, Hsh, fmap_cons. cbn [fst].
  destruct (decide (key = k)) as [->|Hne].
  - rewrite lookup_delete_eq, (bool_decide_eq_true_2 (k ∈ k :: _)) by (by left). by case_bool_decide.
  - rewrite lookup_delete_ne by done. rewrite (bool_decide_ext (key ∈ k :: l.*1) (key ∈ l.*1)); [done|].
    rewrite elem_of_cons. split; [by intros [?|?]|by right].
Qed.

(** The tick on the capacity. *)
Lemma gc_tick_run db rows h clock cm m rl :
  feed_ready db rows → capacity_ok cm →
  Z.of_nat (length (gc_kept rl)) + 3 ≤ rl_max_requests_per_minute rl →
  let expiries := noted db (take PINBOARD_GC_MAX_SCAN_PER_TICK (feed_ids Desc rows)) in
  ∃ cm' m' rl', run_gc_tick db h clock cm m rl = (Ok tt, (cm', m', rl')) ∧ capacity_ok cm' ∧
    ∀ key, get_content_from_slots key cm' =
      if bool_decide (key ∈ (take PINBOARD_GC_MAX_DELETES_PER_TICK (delete_candidates h expiries)).*1)
      then Ok None else get_content_from_slots key cm.
Proof.
  intros Hready Hok Hrl. cbv zeta. destruct (scan_feed_run db rows clock rl Hready Hrl) as [rl' Hscan].
  unfold run_gc_tick. rewrite Hscan. set (expiries := noted db _).
  destruct (gc_deletes db h (take PINBOARD_GC_MAX_DELETES_PER_TICK (delete_candidates h expiries))
    (mkGcState cm m 0 0) Hok) as [Hok' Hkeys].
  eexists _, _, rl'. split; [reflexivity|]. split; [exact Hok'|]. intros key.
  rewrite (get_content_shelf key _ Hok'), Hkeys, (get_content_shelf key cm Hok). cbn [gs_capacity].
  by case_bool_decide.
Qed.

(** Content all of whose scanned messages have expired. *)
Definition expired (db : Database) (scanned : list string) (h : Z) (key : string) : Prop :=
  (∃ e, refers db scanned key e) ∧ ∀ e, refers db scanned key e → e ≤ h.

Lemma candidates_expired db scanned h key :
  0 ≤ h → key ∈ (delete_candidates h (noted db scanned)).*1 ↔ expired db scanned h key.
Proof.
  intros Hh. rewrite candidates_keys. pose proof (noted_spec db scanned key) as Hs. unfold expired. split.
  - intros (v & Hn & Hle). rewrite Hn in Hs. destruct Hs as (Hex & Hmax & _). split; [done|].
    intros e He. specialize (Hmax e He). lia.
  - intros [[e He] Hall]. destruct (noted db scanned !! key) as [v|]; [|by destruct (Hs e)].
    destruct Hs as (_ & _ & [-> |Hv]); eauto.
Qed.

#[local] Instance candidate_compare_lawful : LawfulCompare candidate_compare.
Proof.
  apply (key_lawful (λ a : string * Z, (a.2, a.1)) (lex Z.compare key_compare)); [|apply lex_lawful].
  - intros [? ?] [? ?] [= -> ->]. done.
  - split; [apply Z.compare_eq_iff|intros; apply Z.compare_antisym|].
    intros x y z. rewrite !Z.compare_lt_iff. lia.
  - apply _.
Qed.

(** The candidates come in the order of their latest expiry. *)
Lemma candidates_sorted h m : StronglySorted (λ a b, a.2 ≤ b.2) (delete_candidates h m).
Proof.
  unfold delete_candidates. pose proof (sort_by_sorted candidate_compare
    (List.filter (λ e, e.2 <=? h) (map_to_list m))) as Hs.
  induction Hs as [|x l _ IH Hx]; [constructor|]. constructor; [exact IH|].
  eapply list.Forall_impl; [exact Hx|]. intros y Hy. unfold cmp_le, candidate_compare, lex in Hy. cbn [fst snd] in Hy.
  destruct (Z.compare_spec x.2 y.2); cbn in Hy; [lia|lia|done].
Qed.

(** C25. What a tick of the collector removes, exactly.  It looks at the newest
    500 messages of the feed; the candidates are the contents all of whose
    scanned messages have expired, in the order of their latest expiry; the
    first 200 of them are gone after the tick, and every other content, whether
    it has not expired, is of no scanned message, or is a later candidate, reads
    as before; the slots stay consistent.  The limiter of feed queries must have
    room for the three pages of a tick.  The candidates do not depend on what is
    stored: content that is already gone counts among the first 200 of every
    tick, so candidates beyond them stay. *)
Theorem gc_tick_correct (db : Database) (rows : list (Z * string)) (h : Z) (clock : nat → Z)
    (cm : CapacityManager) (m : GcMeta) (rl : PrefixQueryRateLimiter) :
  feed_ready db rows → capacity_ok cm → 0 ≤ h →
  Z.of_nat (length (gc_kept rl)) + 3 ≤ rl_max_requests_per_minute rl →
  let scanned := take PINBOARD_GC_MAX_SCAN_PER_TICK (feed_ids Desc rows) in
  let candidates := delete_candidates h (noted db scanned) in
  ∃ cm' m' rl', run_gc_tick db h clock cm m rl = (Ok tt, (cm', m', rl')) ∧ capacity_ok cm' ∧
    (∀ key, key ∈ candidates.*1 ↔ expired db scanned h key) ∧
    StronglySorted (λ a b, a.2 ≤ b.2) candidates ∧
    (∀ key v, (key, v) ∈ candidates →
       (∀ e, refers db scanned key e → e ≤ v) ∧ (v = 0 ∨ refers db scanned key v)) ∧
    ∀ key, get_content_from_slots key cm' =
      if bool_decide (key ∈ (take PINBOARD_GC_MAX_DELETES_PER_TICK candidates).*1)
      then Ok None else get_content_from_slots key cm.
Proof.
  intros Hready Hok Hh Hrl scanned candidates.
  destruct (gc_tick_run db rows h clock cm m rl Hready Hok Hrl) as (cm' & m' & rl' & Hrun & Hok' & Hkeys).
  exists cm', m', rl'. split; [exact Hrun|]. split; [exact Hok'|]. split; [|split; [|split; [|exact Hkeys]]].
  - intros key. by apply candidates_expired.
  - apply candidates_sorted.
  - intros key v Hin. unfold candidates, delete_candidates in Hin. rewrite sort_by_perm in Hin.
    apply list_elem_of_In, filter_In in Hin as [Hin _]. apply list_elem_of_In, elem_of_map_to_list in Hin.
    pose proof (noted_spec db scanned key) as Hs. rewrite Hin in Hs. by destruct Hs as (_ & ? & ?).
Qed.

(** The collector deletes content that is still in use: a message older
    than the newest 500 is never looked at, so when the messages among those
    that share its content have expired, its content is removed although it
    has not expired itself. *)
Theorem gc_deletes_live_content (db : Database) (rows : list (Z * string)) (h : Z) (clock : nat → Z)
    (cm : CapacityManager) (m : GcMeta) (rl : PrefixQueryRateLimiter) (old : string)
    (meta : PinboardMessageMetadata) (e : Z) :
  feed_ready db rows → capacity_ok cm → 0 ≤ h →
  Z.of_nat (length (gc_kept rl)) + 3 ≤ rl_max_requests_per_minute rl →
  let scanned := take PINBOARD_GC_MAX_SCAN_PER_TICK (feed_ids Desc rows) in
  (length (delete_candidates h (noted db scanned)) ≤ PINBOARD_GC_MAX_DELETES_PER_TICK)%nat →
  old ∈ drop PINBOARD_GC_MAX_SCAN_PER_TICK (feed_ids Desc rows) →
  pinboard_meta_cf db !! old = Some meta → h < pm_expires_height meta →
  refers db scanned (pm_content_key meta) e →
  (∀ e', refers db scanned (pm_content_key meta) e' → e' ≤ h) →
  ∃ cm' m' rl', run_gc_tick db h clock cm m rl = (Ok tt, (cm', m', rl')) ∧
    get_content_from_slots (pm_content_key meta) cm' = Ok None ∧
    ∃ live, refers db (feed_ids Desc rows) (pm_content_key meta) live ∧ h < live.
Proof.
  intros Hready Hok Hh Hrl scanned Hlen Hold Hmeta Hlive Hr Hall.
  destruct (gc_tick_run db rows h clock cm m rl Hready Hok Hrl) as (cm' & m' & rl' & Hrun & _ & Hkeys).
  fold scanned in Hkeys. exists cm', m', rl'. split; [exact Hrun|]. split; cycle 1.
  { exists (pm_expires_height meta). split; [|done]. exists old, meta. split; [|done].
    eapply elem_of_sublist; [exact Hold|apply sublist_drop]. }
  rewrite Hkeys, bool_decide_eq_true_2; [done|].
  rewrite take_ge by done. apply candidates_keys.
  pose proof (noted_spec db scanned (pm_content_key meta)) as Hs.
  destruct (noted db scanned !! pm_content_key meta) as [v|]; [|by destruct (Hs e)].
  destruct Hs as (_ & _ & [-> |Hv]); eauto.
Qed.

(** ** The limiter the collector shares *)

(** Feed queries of the default client, one after another. *)
Definition feed_queries (db : Database) (order : PinboardGlobalFeedOrder) (o : PrefixQueryOptions)
    (times : list Z) (rl : PrefixQueryRateLimiter) : PrefixQueryRateLimiter :=
  foldl (λ rl t, (get_pinboard_message_ids_global_secure db order o t rl).2) rl times.

Lemma recent_all now l : Forall (λ t, now - MINUTE < t) l → recent now l = l.
Proof.
  unfold recent. induction 1 as [|t l Ht _ IH]; [done|]. cbn [List.filter].
  rewrite (proj2 (Z.ltb_lt _ _)) by done. by rewrite IH.
Qed.

(** Within one minute the limiter keeps the first requests up to its maximum. *)
Lemma feed_queries_kept db order o times now rl done_ :
  PrefixQueryOptions_validate o = Ok tt → pq_client_id o = "unknown" →
  0 < rl_max_requests_per_minute rl →
  Forall (λ t, now - MINUTE < t ≤ now) times → Forall (λ t, now - MINUTE < t) done_ →
  gc_kept rl = take (Z.to_nat (rl_max_requests_per_minute rl)) done_ →
  gc_kept (feed_queries db order o times rl) =
    take (Z.to_nat (rl_max_requests_per_minute rl)) (done_ ++ times) ∧
  rl_max_requests_per_minute (feed_queries db order o times rl) = rl_max_requests_per_minute rl.
Proof.
  intros Hval Hcl Hmax Ht. revert rl done_ Hmax. induction Ht as [|t times [Hlo Hhi] Ht IH];
    intros rl done_ Hmax Hd Hk.
  { by rewrite app_nil_r. }
  unfold feed_queries. cbn [foldl].
  set (rl1 := (get_pinboard_message_ids_global_secure db order o t rl).2).
  fold (feed_queries db order o times rl1).
  assert (gc_kept rl1 = take (Z.to_nat (rl_max_requests_per_minute rl)) (done_ ++ [t]) ∧
    rl_max_requests_per_minute rl1 = rl_max_requests_per_minute rl) as [Hk1 Hm1].
  { assert (rl1 = (is_allowed "unknown" "pinboard_idx_commit:global" t rl).2) as ->.
    { unfold rl1, get_pinboard_message_ids_global_secure, rate_limited. rewrite Hval, Hcl.
      by destruct (is_allowed _ _ t rl) as [[] ?]. }
    unfold is_allowed. unfold gc_kept, kept in *.
    destruct (rl_requests rl !! rate_key _ _) as [ts|] eqn:Hts; cbn [from_option id] in Hk.
    - fold (recent t ts). rewrite (recent_all t ts); cycle 1.
      { rewrite Hk. apply Forall_take. eapply list.Forall_impl; [exact Hd|]. cbv beta. intros x. lia. }
      assert (length ts = Nat.min (Z.to_nat (rl_max_requests_per_minute rl)) (length done_)) as Hl
        by (rewrite Hk, length_take; lia).
      destruct (Z.ltb_spec (Z.of_nat (length ts)) (rl_max_requests_per_minute rl));
        cbn [snd rl_requests rl_max_requests_per_minute]; rewrite lookup_insert_eq; cbn [from_option id];
        (split; [|done]).
      + rewrite take_app_ge by lia. rewrite Hk, take_ge by lia. f_equal.
        rewrite take_ge by (simpl; lia). done.
      + rewrite take_app_le by lia. exact Hk.
    - cbn [snd rl_requests rl_max_requests_per_minute]. rewrite lookup_insert_eq. cbn [from_option id].
      split; [|done]. destruct done_ as [|x done_]; [|destruct (Z.to_nat _) eqn:E; [lia|done]].
      rewrite take_ge by (simpl; lia). done. }
  destruct (IH rl1 (done_ ++ [t])) as [IH1 IH2].
  - by rewrite Hm1.
  - apply Forall_app. split; [exact Hd|]. constructor; [lia|constructor].
  - by rewrite Hm1.
  - rewrite IH1, IH2, Hm1, <- app_assoc. done.
Qed.

Lemma scan_feed_refused fuel db clock acc rl e rl' :
  get_pinboard_message_ids_global_secure db Desc (gc_options 0) (clock 0%nat) rl = (Err e, rl') →
  scan_feed (S fuel) db clock 0 0 acc rl = (Err e, rl').
Proof. intros Hl. cbn [scan_feed]. by rewrite Hl. Qed.

(** Feed queries starve the collector: the pages it reads count against the
    same limit as the feed queries of the ABCI interface, which use the same
    default client, so after sixty of those within a minute a tick fails before
    it scanned anything and removes nothing. *)
Theorem feed_queries_starve_gc (db : Database) (order : PinboardGlobalFeedOrder) (p : PaginationParams)
    (times : list Z) (h : Z) (clock : nat → Z) (cm : CapacityManager) (m : GcMeta) :
  let o := with_pagination PrefixQueryOptions_default p in
  PrefixQueryOptions_validate o = Ok tt → (60 ≤ length times)%nat →
  Forall (λ t, clock 0%nat - MINUTE < t ≤ clock 0%nat) times →
  ∃ rl', run_gc_tick db h clock cm m (feed_queries db order o times RateLimiter_default) =
    (Err (StorageError "rate_limited_query"), (cm, m, rl')).
Proof.
  intros o Hval Hlen Ht.
  destruct (feed_queries_kept db order o times (clock 0%nat) RateLimiter_default []) as [Hk Hm]; try done.
  set (rl := feed_queries _ _ _ _ _) in *. change (rl_max_requests_per_minute RateLimiter_default) with 60 in *.
  cbn [app] in Hk. change (Z.to_nat 60) with 60%nat in Hk.
  unfold gc_kept, kept in Hk.
  assert (∃ rl', get_pinboard_message_ids_global_secure db Desc (gc_options 0) (clock 0%nat) rl =
    (Err (StorageError "rate_limited_query"), rl')) as [rl' Hl].
  2:{ exists rl'. unfold run_gc_tick. change PINBOARD_GC_MAX_SCAN_PER_TICK with (S 499).
      by rewrite (scan_feed_refused _ _ _ _ _ _ _ Hl). }
  unfold get_pinboard_message_ids_global_secure, rate_limited, is_allowed.
  change (PrefixQueryOptions_validate (gc_options 0)) with (@Ok EldError unit tt). cbv iota.
  change (pq_client_id (gc_options 0)) with "unknown".
  destruct (rl_requests rl !! rate_key _ _) as [ts|]; cbn [from_option id] in Hk.
  - fold (recent (clock 0%nat) ts). rewrite recent_all, Hm, Hk, length_take; cycle 1.
    { rewrite Hk. apply Forall_take. eapply list.Forall_impl; [exact Ht|]. cbv beta. by intros x [Hx _]. }
    rewrite Nat.min_l by done. by eexists.
  - apply (f_equal length) in Hk. rewrite length_take in Hk. cbn [length] in Hk. lia.
Qed.
End gc.

(** ** Witnesses *)

Lemma committed_rows rows :
  pinboard_idx_commit_cf (foldr put_pinboard_commit_index_with_tx empty_database rows) = commit_rows rows.
Proof.
  induction rows as [|r rows IH]; [done|].
  change ({[pinboard_commit_index_key r.1 r.2]}
    ∪ pinboard_idx_commit_cf (foldr put_pinboard_commit_index_with_tx empty_database rows)
    = {[pinboard_commit_index_key r.1 r.2]} ∪ commit_rows rows). by rewrite IH.
Qed.

Lemma meta_keeps_index v db :
  pinboard_idx_commit_cf (set_pinboard_meta_cf v db) = pinboard_idx_commit_cf db.
Proof. done. Qed.

Definition test_message (id key : string) (height expires : Z) : PinboardMessageMetadata :=
  mkPinboardMessageMetadata id test_provider key "text/plain" expires "public" None [] height 0 None.

(** Two messages, the content of one of which has expired. *)
Definition test_gc_rows : list (Z * string) := [(1, "m1"); (2, "m2")].
Definition test_gc_db : Database :=
  set_pinboard_meta_cf
    {["m1" := test_message "m1" "c" 1 10; "m2" := test_message "m2" "d" 2 90]}
    (foldr put_pinboard_commit_index_with_tx empty_database test_gc_rows).

Lemma test_gc_ready : feed_ready test_gc_db test_gc_rows.
Proof.
  split.
  - unfold test_gc_db. rewrite meta_keeps_index. apply committed_rows.
  - apply (bool_decide_eq_true_1 (NoDup test_gc_rows)). vm_compute. reflexivity.
  - repeat constructor; cbn; unfold u64_max; lia.
  - vm_compute. discriminate.
Qed.

Definition test_gc_meta : GcMeta := mkGcMeta ∅ ∅.

Lemma gc_tick_correct_witness :
  ∃ cm cm' m' rl', run_gc_tick test_gc_db 50 (λ _, 0) cm test_gc_meta RateLimiter_default =
      (Ok tt, (cm', m', rl')) ∧
    get_content_from_slots "c" cm = Ok (Some (concat test_pieces)) ∧
    get_content_from_slots "c" cm' = Ok None.
Proof.
  destruct test_capacity_filled as (cm & Hok & Hsh & _).
  destruct (gc_tick_correct test_gc_db test_gc_rows 50 (λ _, 0) cm test_gc_meta RateLimiter_default
    test_gc_ready Hok) as (cm' & m' & rl' & Hrun & _ & _ & _ & _ & Hgone).
  - lia.
  - vm_compute. discriminate.
  - exists cm, cm', m', rl'. split; [exact Hrun|].
    split; [rewrite (get_content_shelf "c" cm Hok), Hsh; reflexivity|].
    rewrite (Hgone "c"). vm_compute. reflexivity.
Defined.

(** 501 messages; the oldest and the newest share their content. *)
Definition crowded_rows : list (Z * string) :=
  (0, "old") :: ((λ n, (Z.of_nat n, u64_hex_fixed (Z.of_nat n))) <$> seq 1 500).
Definition crowded_meta : gmap string PinboardMessageMetadata :=
  {["old" := test_message "old" "c" 0 90; u64_hex_fixed 500 := test_message (u64_hex_fixed 500) "c" 500 10]}.
Definition crowded_db : Database :=
  set_pinboard_meta_cf crowded_meta
    (foldr put_pinboard_commit_index_with_tx empty_database crowded_rows).

Lemma crowded_ready : feed_ready crowded_db crowded_rows.
Proof.
  assert (pinboard_idx_commit_cf crowded_db = commit_rows crowded_rows) as Hidx
    by (unfold crowded_db; rewrite meta_keeps_index; apply committed_rows).
  assert (NoDup crowded_rows) as Hn
    by (apply (NoDup_fmap_1 fst), (bool_decide_eq_true_1 (NoDup crowded_rows.*1)); vm_compute; reflexivity).
  assert (Forall (λ r, height_ok r.1) crowded_rows) as Hh
    by (apply (bool_decide_eq_true_1 (Forall (λ r, height_ok r.1) crowded_rows)); vm_compute; reflexivity).
  split; [done..|]. unfold feed_keys. rewrite Hidx, commit_rows_sorted by done. vm_compute. discriminate.
Qed.

(** Only the metadata decide what is noted. *)
Lemma noted_meta v db1 db2 ids :
  noted (set_pinboard_meta_cf v db1) ids = noted (set_pinboard_meta_cf v db2) ids.
Proof. done. Qed.

Lemma crowded_candidates :
  (length (delete_candidates 50 (noted crowded_db
     (take PINBOARD_GC_MAX_SCAN_PER_TICK (feed_ids Desc crowded_rows)))) ≤ PINBOARD_GC_MAX_DELETES_PER_TICK)%nat.
Proof.
  unfold crowded_db. rewrite (noted_meta _ _ empty_database). apply Nat.leb_le. vm_compute. reflexivity.
Qed.

Lemma gc_deletes_live_content_witness :
  ∃ cm cm' m' rl', run_gc_tick crowded_db 50 (λ _, 0) cm test_gc_meta RateLimiter_default =
      (Ok tt, (cm', m', rl')) ∧
    get_content_from_slots "c" cm = Ok (Some (concat test_pieces)) ∧
    get_content_from_slots "c" cm' = Ok None.
Proof.
  destruct test_capacity_filled as (cm & Hok & Hsh & _).
  destruct (gc_deletes_live_content crowded_db crowded_rows 50 (λ _, 0) cm test_gc_meta RateLimiter_default
    "old" (test_message "old" "c" 0 90) 10 crowded_ready Hok) as (cm' & m' & rl' & Hrun & Hgone & _).
  - lia.
  - vm_compute. discriminate.
  - exact crowded_candidates.
  - apply (bool_decide_eq_true_1 ("old" ∈ drop PINBOARD_GC_MAX_SCAN_PER_TICK (feed_ids Desc crowded_rows))).
    vm_compute. reflexivity.
  - reflexivity.
  - cbn. lia.
  - exists (u64_hex_fixed 500), (test_message (u64_hex_fixed 500) "c" 500 10).
    split; [|repeat split; reflexivity].
    apply (bool_decide_eq_true_1
      (u64_hex_fixed 500 ∈ take PINBOARD_GC_MAX_SCAN_PER_TICK (feed_ids Desc crowded_rows))).
    vm_compute. reflexivity.
  - intros e' (id & meta & Hin & Hm & Hc & <-).
    cbn [pinboard_meta_cf crowded_db set_pinboard_meta_cf] in Hm. unfold crowded_meta in Hm.
    apply lookup_insert_Some in Hm as [[<- <-]|[_ Hm]].
    + exfalso. revert Hin. apply (bool_decide_eq_false_1
        ("old" ∈ take PINBOARD_GC_MAX_SCAN_PER_TICK (feed_ids Desc crowded_rows))). vm_compute. reflexivity.
    + apply lookup_singleton_Some in Hm as [_ <-]. cbn. lia.
  - exists cm, cm', m', rl'. split; [exact Hrun|].
    split; [rewrite (get_content_shelf "c" cm Hok), Hsh; reflexivity|exact Hgone].
Defined.

Lemma feed_queries_starve_gc_witness :
  ∃ rl', run_gc_tick test_gc_db 50 (λ _, 60) test_capacity test_gc_meta
      (feed_queries test_gc_db Asc (with_pagination PrefixQueryOptions_default (mkPaginationParams 0 20))
         (Z.of_nat <$> seq 1 60) RateLimiter_default) =
    (Err (StorageError "rate_limited_query"), (test_capacity, test_gc_meta, rl')).
Proof.
  apply (feed_queries_starve_gc test_gc_db Asc (mkPaginationParams 0 20) (Z.of_nat <$> seq 1 60) 50
    (λ _, 60) test_capacity test_gc_meta).
  - reflexivity.
  - vm_compute. lia.
  - apply (bool_decide_eq_true_1 (Forall (λ t, 60 - MINUTE < t ≤ 60) (Z.of_nat <$> seq 1 60))).
    vm_compute. reflexivity.
Defined.
