(* ===== verification/Mempool.v ===== *)
(** The mempool connection: mempool/mod.rs ([check_tx]) over the committed
    lookup of api/cado.rs, and how its verdicts relate to those of delivery. *)
From S2P Require Import Prelude Externals Reference Coins Address Namespace Cado Records Tx Merkle Wire Validation Fee Pinboard AppState Ledger Processors VerifiedProof Deliver Epoch Storage Snapshot Commit.

(** [ResponseCheckTx]; the texts are dropped and every other field keeps its
    default. *)
Record ResponseCheckTx : Type := mkResponseCheckTx { check_code : Z }.

Definition response_check_tx_error_nonce_not_sequential := mkResponseCheckTx 3.
Definition response_check_tx_error_verification_failed := mkResponseCheckTx 4.
Definition response_check_tx_error_nonce_overflow := mkResponseCheckTx 6.
Definition response_check_tx_error_tx_too_large := mkResponseCheckTx 7.
Definition response_check_tx_error_sender_doesnt_exist := mkResponseCheckTx 9.
Definition response_check_tx_error_insufficient_fee := mkResponseCheckTx 11.
Definition response_check_tx_error_fee_calculation_failed := mkResponseCheckTx 75.
Definition response_check_tx_error_invalid_utf8_encoding := mkResponseCheckTx 76.
Definition response_check_tx_error_invalid_hex_encoding := mkResponseCheckTx 77.
Definition response_check_tx_error_json_parsing_failed := mkResponseCheckTx 78.

Section mempool.
Context {H : HexCrate} {HC : HashCrates} {C : RecordCodecs} {E : Ed25519} {J : TxJson}.

(** The last committed cache, then the database; never what the block being
    delivered has staged. *)
Definition lookup_cado_by_path_excluding_current_cache (committed : AppState) (rd : StorageReads)
    (path : CadoPath) : eld_result (option CadoBody) :=
  match committed_cado_cache (envelope committed) !! cp_path path with
  | Some cado => Ok (Some cado)
  | None => get_cado_by_path rd path
  end.

(** The text of a transaction, as [check_tx] reads it. *)
Definition check_decode (protocol : ProtocolConstants) (tx_bytes : bytes) :
    result ResponseCheckTx Tx :=
  if max_tx_bytes protocol <? Z.of_nat (length tx_bytes)
  then Err response_check_tx_error_tx_too_large else
  let? hex_str := ok_or (from_utf8 tx_bytes) response_check_tx_error_invalid_utf8_encoding in
  let? decoded_bytes := ok_or (hex_decode hex_str) response_check_tx_error_invalid_hex_encoding in
  let? decoded_json := ok_or (from_utf8 decoded_bytes)
                         response_check_tx_error_invalid_utf8_encoding in
  ok_or (tx_from_json decoded_json) response_check_tx_error_json_parsing_failed.

(** The account the committed state shows for the sender. *)
Definition check_sender (committed : AppState) (rd : StorageReads) (sender_addr : Address) :
    result ResponseCheckTx Account :=
  match CadoPath_new Cado_Account (Key_Address sender_addr) with
  | Err _ => Err response_check_tx_error_verification_failed
  | Ok sender_path =>
      match lookup_cado_by_path_excluding_current_cache committed rd sender_path with
      | Ok (Some (Mutable cado_mut)) =>
          match safe_deserialize_account_data (cadomut_data cado_mut) with
          | Ok account => Ok account
          | Err _ => Err response_check_tx_error_verification_failed
          end
      | Ok (Some (Immutable _)) => Err response_check_tx_error_verification_failed
      | Ok None => Err response_check_tx_error_sender_doesnt_exist
      | Err _ => Err response_check_tx_error_verification_failed
      end
  end.

Definition check_nonce (sender_account : Account) (tx : Tx) : result ResponseCheckTx unit :=
  match Nonce_next (acc_nonce sender_account) with
  | None => Err response_check_tx_error_nonce_overflow
  | Some expected_nonce =>
      if negb (bool_decide (expected_nonce = tx_nonce tx))
      then Err response_check_tx_error_nonce_not_sequential else Ok tt
  end.

Definition check_fee (protocol : ProtocolConstants) (tx : Tx) : result ResponseCheckTx unit :=
  match calculate_dynamic_fee tx (fee_config protocol) with
  | Err _ => Err response_check_tx_error_fee_calculation_failed
  | Ok required_fee =>
      match TxAmount_to_coin (tx_fee tx) with
      | Err _ => Err response_check_tx_error_insufficient_fee
      | Ok provided_fee =>
          if Coin_ltb provided_fee required_fee
          then Err response_check_tx_error_insufficient_fee else Ok tt
      end
  end.

(** [check_tx]: [protocol] is the handle, empty until the genesis block. *)
Definition check_tx (protocol : option ProtocolConstants) (chain_id : string)
    (committed : AppState) (rd : StorageReads) (tx_bytes : bytes) : ResponseCheckTx :=
  let verdict :=
    let? protocol := ok_or protocol response_check_tx_error_fee_calculation_failed in
    let? tx := check_decode protocol tx_bytes in
    if negb (match Tx_verify tx chain_id with Ok b => b | Err _ => false end)
    then Err response_check_tx_error_verification_failed else
    let? sender_account := check_sender committed rd (sender (payload_inner (tx_payload tx))) in
    let? _ := check_nonce sender_account tx in
    check_fee protocol tx in
  match verdict with Ok _ => mkResponseCheckTx 0 | Err response => response end.
End mempool.

(** ** Against delivery *)

Section agreement.
Context {H : HexCrate} {HL : HexLaws H} {HC : HashCrates} {C : RecordCodecs}
  {CL : RecordCodecsLaws C} {E : Ed25519} {J : TxJson} {R : RandCrate} {SJ : SerdeJson}
  {W : TxWire SJ J} {T : TrieCrate} {SC : SnapshotCodecs} {SL : SnapshotCodecsLaws SC}.

(** Delivery reads what the mempool reads, after more checks of the text. *)
Lemma check_decode_weaker protocol b tx :
  decode_tx protocol b = Ok tx → check_decode protocol b = Ok tx.
Proof.
  unfold decode_tx, check_decode. destruct (_ <? _); [done|].
  destruct (from_utf8 b) as [hx|]; [|done]. cbn [ok_or].
  destruct (validate_hex_string hx _); [|done].
  destruct (hex_decode hx) as [b'|]; [|done]. cbn [ok_or].
  destruct (from_utf8 b') as [js|]; [|done]. cbn [ok_or].
  destruct (validate_json_string js _ _); [|done].
  destruct (value_from_str js); [|done]. cbn [ok_or].
  destruct (validate_transaction_structure _); [|done].
  destruct (tx_from_json js); cbn [ok_or]; congruence.
Qed.

(** The answers of delivery to a transaction the mempool may have accepted. *)
Definition late_rejections : list Z := [5; 52; 66; 71; 72; 73].

Local Ltac late :=
  right; eexists; split; [reflexivity|cbn; repeat constructor].

Lemma check_decode_stronger protocol b tx :
  check_decode protocol b = Ok tx →
  decode_tx protocol b = Ok tx ∨
  ∃ r, decode_tx protocol b = Err r ∧ resp_code r ∈ late_rejections.
Proof.
  unfold decode_tx, check_decode. destruct (_ <? _); [done|].
  destruct (from_utf8 b) as [hx|]; [|done]. cbn [ok_or].
  destruct (hex_decode hx) as [b'|]; [|done]. cbn [ok_or].
  destruct (from_utf8 b') as [js|]; [|done]. cbn [ok_or].
  destruct (tx_from_json js) as [tx'|]; [|done]. intros [= ->].
  destruct (validate_hex_string hx _); [|late].
  destruct (validate_json_string js _ _); [|late].
  destruct (value_from_str js); [|late].
  cbn [ok_or].
  destruct (validate_transaction_structure _); [|late].
  by left.
Qed.

(** On a state with nothing staged the mempool sees the accounts delivery sees. *)
Lemma check_sender_account rd st a :
  cado_cache (envelope st) = ∅ →
  match check_sender st rd a with
  | Ok acc => ∃ h, account_at rd (envelope st) a = Some (acc, h)
  | Err _ => account_at rd (envelope st) a = None
  end.
Proof.
  intros Hc. unfold check_sender. rewrite CadoPath_new_address by done. cbn beta iota.
  unfold account_at, account_path, get_account_from_cado, lookup_cado_staged_committed_then_db,
    lookup_cado_by_path_excluding_current_cache. rewrite Hc, lookup_empty.
  destruct (committed_cado_cache (envelope st) !! _) as [[c|m]|]; [done| |].
  - destruct (safe_deserialize_account_data _); [by eexists|done].
  - destruct (get_cado_by_path rd _) as [[[c|m]|]|]; [done| |done|done].
    destruct (safe_deserialize_account_data _); [by eexists|done].
Qed.

Lemma check_fee_Ok protocol tx :
  check_fee protocol tx = Ok tt ↔
  ∃ required, calculate_dynamic_fee tx (fee_config protocol) = Ok required ∧
    TxAmount_to_coin (tx_fee tx) = Ok (mkCoin (tx_fee tx)) ∧ coin_amount required ≤ tx_fee tx.
Proof.
  unfold check_fee. destruct (calculate_dynamic_fee tx _) as [req|].
  2: { split; [done|]. by intros (? & ? & _). }
  destruct (TxAmount_to_coin (tx_fee tx)) as [c|] eqn:Ec.
  2: { split; [done|]. by intros (? & _ & ? & _). }
  apply Coin_new_Ok in Ec as [-> _]. unfold Coin_ltb. cbn [coin_amount].
  destruct (_ <? _) eqn:El; eld_bool.
  - split; [done|]. intros (? & [= <-] & _ & ?). lia.
  - split; [|done]. intros _. eauto.
Qed.

(** What an accepted transaction has shown. *)
Lemma check_tx_accepts protocol cid st rd b :
  cado_cache (envelope st) = ∅ →
  check_code (check_tx (Some protocol) cid st rd b) = 0 ↔
  ∃ tx acc h, check_decode protocol b = Ok tx ∧ Tx_verify tx cid = Ok true ∧
    account_at rd (envelope st) (sender (payload_inner (tx_payload tx))) = Some (acc, h) ∧
    Nonce_next (acc_nonce acc) = Some (tx_nonce tx) ∧ check_fee protocol tx = Ok tt.
Proof.
  intros Hc. unfold check_tx. cbn [ok_or].
  destruct (check_decode protocol b) as [tx|r] eqn:Ed.
  2: { split; [|by intros (? & ? & ? & ? & _)]. intros Hr. exfalso. revert Ed Hr.
       unfold check_decode. destruct (_ <? _); [by intros [= <-]|].
       destruct (from_utf8 b) as [hx|]; [|by intros [= <-]]. cbn [ok_or].
       destruct (hex_decode hx) as [b'|]; [|by intros [= <-]]. cbn [ok_or].
       destruct (from_utf8 b') as [js|]; [|by intros [= <-]]. cbn [ok_or].
       destruct (tx_from_json js); [done|by intros [= <-]]. }
  pose proof (check_sender_account rd st (sender (payload_inner (tx_payload tx))) Hc) as Hs.
  destruct (Tx_verify tx cid) as [[|]|] eqn:Ev; cbn [negb].
  2,3: split; [done|]; intros (tx' & ? & ? & [= <-] & ? & _); congruence.
  destruct (check_sender st rd _) as [acc|r] eqn:Es.
  2: { split; [|by intros (tx' & ? & ? & [= <-] & _ & ? & _); congruence]. intros Hr. exfalso.
       revert Es Hr. unfold check_sender. clear.
       repeat case_match; intros [= <-]; done. }
  destruct Hs as [h Ha]. unfold check_nonce.
  destruct (Nonce_next (acc_nonce acc)) as [n|] eqn:En.
  2: { split; [done|]. intros (tx' & ? & ? & [= <-] & _ & ? & ? & _). congruence. }
  case_bool_decide as Hn; cbn [negb].
  2: { split; [done|]. intros (tx' & ? & ? & [= <-] & _ & ? & ? & _). congruence. }
  subst n. destruct (check_fee protocol tx) as [[]|r] eqn:Ef.
  - split; [|done]. intros _. exists tx, acc, h. by split_and!.
  - split; [|intros (tx' & ? & ? & [= <-] & _ & _ & _ & ?); congruence]. intros Hr. exfalso.
    revert Ef Hr. unfold check_fee. clear. repeat case_match; intros [= <-]; done.
Qed.

Lemma late_code r : resp_code r ∈ late_rejections → resp_code r ≠ 0.
Proof. intros Hr E0. rewrite E0 in Hr. unfold late_rejections in Hr.
  repeat (apply elem_of_cons in Hr as [Hr|Hr]; [discriminate|]). by apply elem_of_nil in Hr. Qed.

(** With the nonce in order, only the funds can stop the charge. *)
Lemma charge_in_order rd tx e acc h :
  let s := sender (payload_inner (tx_payload tx)) in
  ledger_wf rd e → 0 ≤ nonce_value (tx_nonce tx) ≤ u32_max → 0 ≤ tx_fee tx →
  account_at rd e s = Some (acc, h) → Nonce_next (acc_nonce acc) = Some (tx_nonce tx) →
  TxAmount_to_coin (tx_fee tx) = Ok (mkCoin (tx_fee tx)) →
  if (tx_fee tx =? 0) || (balance_of rd e s <? tx_fee tx)
  then ∃ r, charge rd tx e = Return r e ∧ resp_code r ∈ late_rejections
  else charge rd tx e = Next tt (charged rd tx h e).
Proof.
  intros s Hwf Hnr H0 Ha Hn Hc. pose proof (charge_cases rd e tx Hwf Hnr H0) as Hcases.
  revert Hcases. cbv zeta. fold s. unfold charge. ledger_unfold.
  rewrite CadoPath_new_address by done. cbn beta iota. fold s.
  change (get_account_from_cado rd e (eld_path Cado_Account (hex_with_prefix s)))
    with (account_at rd e s). rewrite Ha. cbn beta iota. rewrite Hn. cbn beta iota.
  rewrite bool_decide_eq_true_2 by done. cbn [negb]. rewrite Hc. cbn beta iota.
  unfold validate_fee_amount. cbn [coin_amount].
  assert (balance_of rd e s = coin_amount (acc_balance acc)) as Hb
    by (unfold balance_of; by rewrite Ha).
  apply Coin_new_Ok in Hc as [_ Hm]. rewrite (proj2 (Z.ltb_ge MAX_COIN (tx_fee tx))) by done.
  unfold Coin_ltb. cbn [coin_amount]. rewrite <- Hb.
  destruct (tx_fee tx =? 0) eqn:E0; cbn [orb]; [|destruct (balance_of rd e s <? tx_fee tx) eqn:El].
  1,2: intros _; eexists; split; [reflexivity|cbn; repeat constructor].
  destruct (proj1 Hwf _ _ _ Ha) as [_ [Hw _]]. eld_bool.
  rewrite Coin_sub_in; [|apply Hw|done|cbn [coin_amount]; lia]. cbn [coin_amount]. rewrite <- Hb.
  pose proof (charged_account_wf rd tx e Hwf Hnr) as Hw'. cbv zeta in Hw'. fold s in Hw'.
  destruct (bin_roundtrip _ (Hw' ltac:(lia))) as (b & Es & _). rewrite Es. cbn beta iota.
  by intros [(r & ? & _)|(acc' & h' & [= <- <-] & _ & _ & Hch)].
Qed.

(** Delivery of an accepted transaction: turned away late, or charged. *)
Lemma deliver_accepted rd protocol cid st b tx acc h :
  let s := sender (payload_inner (tx_payload tx)) in
  ledger_wf rd (envelope st) → protocol_wf protocol →
  check_decode protocol b = Ok tx → Tx_verify tx cid = Ok true →
  account_at rd (envelope st) s = Some (acc, h) →
  Nonce_next (acc_nonce acc) = Some (tx_nonce tx) → check_fee protocol tx = Ok tt →
  ∃ r st', run (deliver_tx_inner rd protocol cid b) (Some st) = Some (r, Some st') ∧
    (st' = st ∧ resp_code r ∈ late_rejections ∨
     nonce_of rd (envelope st') s = Some (tx_nonce tx)).
Proof.
  intros s Hwf Hpr Hd Hv Ha Hn (req & Hreq & Hco & Hle)%check_fee_Ok.
  unfold deliver_tx_inner. ledger_unfold.
  destruct (check_decode_stronger _ _ _ Hd) as [Hd'|(r & Hd' & Hl)]; rewrite Hd'; cbn beta iota.
  2: { exists r, st. split; [done|]. by left. }
  rewrite Hv. cbn [negb]. rewrite Hreq, Hco. cbn beta iota. unfold Coin_ltb. cbn [coin_amount].
  rewrite (proj2 (Z.ltb_ge _ _) Hle). unfold on_current, answered.
  destruct (decode_tx_ok protocol b tx Hd') as (Hp & Hnr & H0).
  pose proof (charge_in_order rd tx (envelope st) acc h Hwf Hnr H0 Ha Hn Hco) as Hch.
  destruct (_ || _) eqn:Ef.
  { destruct Hch as (r & -> & Hl). exists r, st. split; [by destruct st|]. by left. }
  apply orb_false_iff in Ef as [E1 E2]. eld_bool. fold s in E2. rewrite Hch. cbn [set_envelope envelope].
  assert (0 < tx_fee tx ≤ balance_of rd (envelope st) s) as Hf by lia.
  destruct (process_settles rd protocol (charged rd tx h (envelope st)) tx
    (charged_wf rd tx h (envelope st) Hwf Hnr Hf) Hpr Hp) as (r & e' & Hrun & Hs).
  apply settled_keeps in Hs as [_ Hkeep]; [|by apply charged_wf].
  exists (with_gas tx r), (set_envelope e' st). unfold run in Hrun. split.
  - destruct (process rd protocol tx (charged rd tx h (envelope st))) as [r1 e1|r1 e1|];
      [| |discriminate]; injection Hrun as -> ->; by destruct st.
  - right. apply Hkeep. rewrite charged_nonce by done. by rewrite bool_decide_eq_true_2.
Qed.

Lemma next_nonce_moves k n : Nonce_next k = Some n → nonce_value n = nonce_value k + 1.
Proof.
  unfold Nonce_next. destruct (checked_add _ _ _) as [v|] eqn:Ev; [|done].
  apply checked_add_Some in Ev as [-> _]. by intros [= <-].
Qed.

(** A nonce at or below the account's is refused for its nonce. *)
Lemma stale_refused protocol cid st rd b tx k :
  cado_cache (envelope st) = ∅ → decode_tx protocol b = Ok tx → Tx_verify tx cid = Ok true →
  nonce_of rd (envelope st) (sender (payload_inner (tx_payload tx))) = Some k →
  nonce_value (tx_nonce tx) ≤ nonce_value k →
  check_code (check_tx (Some protocol) cid st rd b) ∈ [3; 6].
Proof.
  intros Hc Hd Hv Hk Hle. unfold check_tx. cbn [ok_or].
  rewrite (check_decode_weaker _ _ _ Hd), Hv. cbn [negb].
  pose proof (check_sender_account rd st (sender (payload_inner (tx_payload tx))) Hc) as Hs.
  unfold nonce_of in Hk. destruct (check_sender st rd _) as [acc|r]; [|by rewrite Hs in Hk].
  destruct Hs as [h Ha]. rewrite Ha in Hk. injection Hk as <-. unfold check_nonce.
  destruct (Nonce_next (acc_nonce acc)) as [n|] eqn:En; [|cbn; repeat constructor].
  apply next_nonce_moves in En.
  rewrite bool_decide_eq_false_2 by (intros ->; lia). cbn. constructor.
Qed.

(** ** Through the end of a block *)

Lemma account_kept rd e e' a :
  cado_cache e' !! cp_path (account_path a) = cado_cache e !! cp_path (account_path a) →
  committed_cado_cache e' = committed_cado_cache e →
  account_at rd e' a = account_at rd e a.
Proof.
  intros H1 H2. unfold account_at, get_account_from_cado, lookup_cado_staged_committed_then_db.
  by rewrite H1, H2.
Qed.

Lemma epoch_object_kept key path cado e a :
  CadoPath_new Cado_EpochRecord (Key_Name key) = Ok path →
  cado_cache (update_cado_cache path cado e) !! cp_path (account_path a) =
    cado_cache e !! cp_path (account_path a).
Proof.
  intros Hp. unfold update_cado_cache. destruct (is_infrastructure path); [done|].
  cbn [cado_cache set_cado_cache]. apply lookup_insert_ne. intros Heq.
  assert (CadoPath_new Cado_Account (Key_Address a) = Ok (account_path a)) as Ha
    by (by apply CadoPath_new_address).
  by destruct (CadoPath_new_inj _ _ _ _ _ _ Hp Ha Heq) as [? _].
Qed.

Lemma end_block_accounts rd protocol height s s' updates a :
  end_block protocol height (Some s) = Some (s', updates) →
  account_at rd (envelope s') a = account_at rd (envelope s) a ∧ is_Some (app_hash s').
Proof.
  unfold end_block. cbv zeta. destruct (_ <? _).
  2: { intros [= <- _]. split; [|by eexists]. by apply account_kept. }
  destruct (store_epoch_record _ _) as [s4|] eqn:Es; [|done]. intros [= <- _].
  split; [|by eexists]. cbn [envelope set_envelope set_app_hash].
  transitivity (account_at rd (envelope s4) a); [by apply account_kept|].
  revert Es. unfold store_epoch_record.
  destruct (EpochRecord_serialize_bin _) as [b|]; [|done].
  destruct (epoch_record_path_name _) as [key|]; [|done].
  destruct (CadoPath_new _ (Key_Name key)) as [p1|] eqn:E1; [|done].
  destruct (CadoPath_new _ (Key_Name LATEST)) as [p2|] eqn:E2; [|done].
  intros [= <-]. cbn [envelope set_envelope].
  match goal with |- context [select_active_capacity_validator_for_epoch ?p ?n ?s0] =>
    destruct (select_active_frame p n s0) as [v ->] end.
  apply account_kept.
  - rewrite (epoch_object_kept _ _ _ _ _ E2), (epoch_object_kept _ _ _ _ _ E1). done.
  - unfold update_cado_cache. by destruct (is_infrastructure p2), (is_infrastructure p1).
Qed.

(** Accounts read after a commit as they read before it. *)
Lemma commit_accounts protocol db s hash s' db' out a :
  commit_ready db s → app_hash s = Some hash → types_separated →
  own_key (map_to_list (cado_cache (envelope s))) Cado_Account (hex_with_prefix a) →
  commit protocol db (Some s) = Some (s', db', out) →
  cado_cache (envelope s') = ∅ ∧
  account_at (database_reads db') (envelope s') a = account_at (database_reads db) (envelope s) a.
Proof.
  intros Hready Eh Hsep Hown Ec. pose proof Hready as [Hw _ Hst _ _].
  destruct (commit_run protocol db s hash Hready Eh)
    as (e2 & tx1 & tx2 & tx3 & db2 & Erun & Hreg & Eobj & Hw2 & _ & Hw3 & _ & Hw4 & _).
  rewrite Ec in Erun. injection Erun as -> -> _. split; [done|].
  destruct (selected_fields protocol s) as (_ & _ & S3 & S4 & _).
  destruct (merged_fields _ _ Hreg) as (_ & _ & _ & _ & _ & M6).
  assert (name_ok Cado_Account (hex_with_prefix a)) as Hn by apply validate_hex_address.
  unfold account_at, get_account_from_cado. cbn [envelope set_envelope].
  edestruct (lookups_carried db db2 tx1 tx2 tx3 (envelope s)
    (set_cado_cache ∅ (merge_cache (set_namespace_registry_cache ∅ e2))) Cado_Account
    (hex_with_prefix a)) as [Hl _]; try done.
  - rewrite <- S3, <- S4. by apply M6.
  - unfold account_path. by rewrite Hl.
Qed.

(** ** Properties *)

(** C17. The mempool and delivery agree at the head of a block: whatever the
    first delivery of a block would charge, [check_tx] accepts; and what
    [check_tx] accepts is charged, unless delivery's own checks of the text
    (hex, JSON, structure) refuse it or the balance does not cover the fee, in
    which case the state stays as it is. *)
Theorem check_tx_agrees_with_delivery (rd : StorageReads) (protocol : ProtocolConstants)
    (cid : string) (b : bytes) (st : AppState) :
  ledger_wf rd (envelope st) → protocol_wf protocol → cado_cache (envelope st) = ∅ →
  ∃ r st', run (deliver_tx_inner rd protocol cid b) (begin_block st) = Some (r, Some st') ∧
    (st' ≠ st ∨ resp_code r = 0 → check_code (check_tx (Some protocol) cid st rd b) = 0) ∧
    (check_code (check_tx (Some protocol) cid st rd b) = 0 →
       st' ≠ st ∨ st' = st ∧ resp_code r ∈ late_rejections).
Proof.
  intros Hwf Hpr Hc. unfold begin_block.
  destruct (deliver_step rd protocol cid b st Hwf Hpr) as (r & st' & Hr & _ & _).
  exists r, st'. split; [exact Hr|]. split.
  - intros Hch. apply check_tx_accepts; [done|]. destruct (deliver_cases rd protocol cid b st Hwf Hpr)
      as [(r0 & Hr0 & H0)|(tx & acc & h & req & _ & _ & Hd & Hv & Hreq & Hle & Ha & Hnx & Hf & _)].
    { rewrite Hr in Hr0. injection Hr0 as <- <-. by destruct Hch. }
    exists tx, acc, h. split_and!; [by apply check_decode_weaker|done..|].
    apply check_fee_Ok. exists req. split_and!; [done| |done].
    apply Coin_new_Ok. split; [done|].
    pose proof (balance_of_range rd (envelope st) (sender (payload_inner (tx_payload tx))) Hwf). lia.
  - intros (tx & acc & h & Hd & Hv & Ha & Hnx & Hfee)%check_tx_accepts; [|done].
    destruct (deliver_accepted rd protocol cid st b tx acc h Hwf Hpr Hd Hv Ha Hnx Hfee)
      as (r0 & st0 & Hr0 & Hout). rewrite Hr in Hr0. injection Hr0 as <- <-.
    destruct Hout as [Hout|Hk]; [by right|left]. intros ->. unfold nonce_of in Hk.
    rewrite Ha in Hk. injection Hk as Hk. apply next_nonce_moves in Hnx. rewrite Hk in Hnx. lia.
Qed.

(** A charged transaction does not come back through the mempool: once the
    block that charged it has delivered its other transactions, ended and
    committed, [check_tx] on the committed state refuses the same bytes for
    their nonce. *)
Theorem committed_tx_refused (db db' : Database) (protocol : ProtocolConstants) (cid : string)
    (b : bytes) (txs : list bytes) (height : Z) (st st1 st2 st3 st4 : AppState)
    (r : ResponseDeliverTx) (rs : list ResponseDeliverTx) (updates : list ValidatorUpdate)
    (out : bytes) :
  ledger_wf (database_reads db) (envelope st) → protocol_wf protocol →
  run (deliver_tx_inner (database_reads db) protocol cid b) (begin_block st) = Some (r, Some st1) →
  st1 ≠ st ∨ resp_code r = 0 →
  deliver_all (database_reads db) protocol cid txs (Some st1) = Some (rs, Some st2) →
  end_block protocol height (Some st2) = Some (st3, updates) →
  commit_ready db st3 → types_separated →
  (∀ tx, decode_tx protocol b = Ok tx →
     own_key (map_to_list (cado_cache (envelope st3))) Cado_Account
       (hex_with_prefix (sender (payload_inner (tx_payload tx))))) →
  commit protocol db (Some st3) = Some (st4, db', out) →
  check_code (check_tx (Some protocol) cid st4 (database_reads db') b) ∈ [3; 6].
Proof.
  intros Hwf Hpr Hr Hch Hall Hend Hready Hsep Hown Hcom.
  destruct (deliver_cases (database_reads db) protocol cid b st Hwf Hpr)
    as [(r0 & Hr0 & H0)|(tx & acc & h & req & r0 & e' & Hd & Hv & _ & _ & _ & _ & Hf & _ & Hs & _ & Hr0)].
  { unfold begin_block in Hr. rewrite Hr in Hr0. injection Hr0 as <- <-. by destruct Hch. }
  unfold begin_block in Hr. rewrite Hr in Hr0. injection Hr0 as _ ->.
  destruct (decode_tx_ok protocol b tx Hd) as (_ & Hn & _).
  apply settled_keeps in Hs as [Hw1 Hkeep]; [|by apply charged_wf].
  set (s := sender (payload_inner (tx_payload tx))) in *.
  destruct (deliver_all_step (database_reads db) protocol cid txs (set_envelope e' st) Hw1 Hpr)
    as (rs0 & st2' & Hall' & _ & _ & Hg).
  rewrite Hall in Hall'. injection Hall' as <- <-.
  destruct (Hg s (tx_nonce tx)) as (k & Hk & Hle).
  { apply Hkeep. rewrite charged_nonce by done. by rewrite bool_decide_eq_true_2. }
  destruct (end_block_accounts (database_reads db) protocol height st2 st3 updates s Hend)
    as [He [hash Eh]].
  destruct (commit_accounts protocol db st3 hash st4 db' out s Hready Eh Hsep (Hown tx Hd) Hcom)
    as [Hc4 Ha4].
  unfold nonce_of in Hk. rewrite <- He, <- Ha4 in Hk.
  by apply (stale_refused _ _ _ _ _ tx k).
Qed.
End agreement.

(** ** Witnesses *)

(** A committed head with the sender's account, and the block that delivers
    the transfer to it. *)
Definition test_head : AppState :=
  mkAppState None (set_committed_cado_cache (cado_cache test_env) envelope_default) "eld".

Lemma test_head_wf {B : Bincode CadoBody} rd :
  rd = rd0 ∨ rd = database_reads empty_database → ledger_wf rd (envelope test_head).
Proof.
  intros Hrd. destruct test_env_wf as [Ha Hs].
  assert (∀ p, lookup_cado_staged_committed_then_db rd (envelope test_head) p =
               lookup_cado_staged_committed_then_db rd0 test_env p) as Hl.
  { intros p. unfold lookup_cado_staged_committed_then_db.
    change (cado_cache (envelope test_head)) with (∅ : gmap string CadoBody).
    change (committed_cado_cache (envelope test_head)) with (cado_cache test_env).
    change (committed_cado_cache test_env) with (∅ : gmap string CadoBody).
    rewrite !lookup_empty. destruct (cado_cache test_env !! _); [done|].
    destruct Hrd as [->| ->]; [done|]. cbn [get_cado_by_path database_reads].
    unfold db_get_cado_by_path. by destruct (validate_cado_path_internal p). }
  split.
  - intros a acc h. unfold account_at, get_account_from_cado. rewrite Hl. apply Ha.
  - intros a acc h. unfold staking_at, get_staking_account_from_cado. rewrite Hl. apply Hs.
Qed.

Lemma check_tx_agrees_with_delivery_witness :
  check_code (check_tx (J := test_json) (Some local_dev) "eld" test_head rd0 test_bytes) = 0 ∧
  ∃ r st', run test_deliver (begin_block test_head) = Some (r, Some st') ∧ st' ≠ test_head.
Proof.
  split; [by vm_compute|].
  destruct (check_tx_agrees_with_delivery (W := test_wire) rd0 local_dev "eld" test_bytes test_head
    (test_head_wf (B := body_bincode test_body) rd0 (or_introl eq_refl)) local_dev_wf eq_refl)
    as (r & st' & Hr & _ & Hb).
  exists r, st'. split; [exact Hr|]. destruct Hb as [Hb|[_ Hb]]; [by vm_compute|exact Hb|exfalso].
  assert (match run test_deliver (begin_block test_head) with
          | Some (r, _) => resp_code r | None => 1 end = 0) as H0 by (by vm_compute).
  unfold test_deliver in H0. rewrite Hr in H0. by apply (late_code r Hb).
Defined.

Definition test_sent : AppState :=
  match run test_deliver (begin_block test_head) with
  | Some (_, Some s) => s
  | _ => test_head
  end.
Definition test_ended : AppState :=
  match end_block (T := ref_trie) local_dev 1 (Some test_sent) with
  | Some (s, _) => s
  | None => test_sent
  end.
Definition test_sent_body (a : Address) : CadoBody :=
  default test_body (cado_cache (envelope test_sent) !! cp_path (account_path a)).

(** Codecs with short codes for the two accounts. *)
Definition test_pool_codecs : SnapshotCodecs := {|
  tip_codec := countable_bincode AppStateTip;
  snapshot_codec := countable_bincode AppStateSnapshot;
  body_codec := shortcut_bincode (test_sent_body test_sender)
                  (shortcut_bincode (test_sent_body test_recipient) (countable_bincode CadoBody));
|}.

Lemma test_pool_laws : SnapshotCodecsLaws test_pool_codecs.
Proof.
  constructor; [apply countable_bincode_laws..|].
  repeat apply shortcut_bincode_laws. apply countable_bincode_laws.
Qed.

Lemma test_ended_cache k c :
  cado_cache (envelope test_ended) !! k = Some c →
  ∃ a, (a = test_sender ∨ a = test_recipient) ∧ k = cp_path (account_path a) ∧
    c = test_sent_body a.
Proof.
  assert (map_to_list (cado_cache (envelope test_ended)) =
    [(cp_path (account_path test_sender), test_sent_body test_sender);
     (cp_path (account_path test_recipient), test_sent_body test_recipient)]) as Hl
    by (vm_compute; reflexivity).
  intros Hc%elem_of_map_to_list. rewrite Hl in Hc. clear Hl.
  apply elem_of_cons in Hc as [Hc|Hc]; [|apply elem_of_cons in Hc as [Hc|Hc]].
  - apply pair_eq in Hc as [-> ->]. exact (ex_intro _ test_sender (conj (or_introl eq_refl) (conj eq_refl eq_refl))).
  - apply pair_eq in Hc as [-> ->]. exact (ex_intro _ test_recipient (conj (or_intror eq_refl) (conj eq_refl eq_refl))).
  - by apply elem_of_nil in Hc.
Qed.

Lemma ready_without_posts {SC : SnapshotCodecs} s :
  cado_cache_to_delete (envelope s) = [] → pinboard_meta_cache (envelope s) = ∅ →
  pinboard_refcount_deltas (envelope s) = ∅ →
  (∀ k c, cado_cache (envelope s) !! k = Some c → staged_entry k c) →
  commit_ready empty_database s.
Proof.
  intros Hd Hm Hr Hst. constructor; [by intros ?|done|done| |].
  - intros id m. by rewrite Hm, lookup_empty.
  - intros k d. by rewrite Hr, lookup_empty.
Qed.

Lemma test_body_stored a :
  a = test_sender ∨ a = test_recipient →
  storable (BC := body_codec (SnapshotCodecs := test_pool_codecs)) Cado_Account (hex_with_prefix a)
    (test_sent_body a).
Proof.
  intros Ha. split; [done|]. split; [apply validate_hex_address|]. split.
  - destruct Ha as [->| ->]; eexists; (split; [vm_compute; reflexivity|vm_compute; by split]).
  - intros _. destruct Ha as [->| ->]; vm_compute; eexists; by split.
Qed.

Lemma test_ended_ready : commit_ready (SC := test_pool_codecs) empty_database test_ended.
Proof.
  apply ready_without_posts; [vm_compute; reflexivity..|].
  intros k c (a & Ha & -> & ->)%test_ended_cache. exists Cado_Account, (hex_with_prefix a).
  split; [reflexivity|]. split; [by apply test_body_stored|reflexivity].
Qed.

Lemma test_ended_keys tx :
  decode_tx (SJ := test_serde) (J := test_json) local_dev test_bytes = Ok tx →
  own_key (map_to_list (cado_cache (envelope test_ended))) Cado_Account
    (hex_with_prefix (sender (payload_inner (tx_payload tx)))).
Proof.
  intros Hd t' name' c' (a & Ha & Hp & _)%elem_of_map_to_list%test_ended_cache Hn Hk.
  destruct (eld_paths_inj _ _ Cado_Account (hex_with_prefix a) Hn (validate_hex_address a "name") Hp) as [-> ->].
  split; [done|]. assert (sender (payload_inner (tx_payload tx)) = test_sender) as Hs.
  { vm_compute in Hd. by injection Hd as <-. }
  rewrite Hs in Hk |- *. clear Hd Hs.
  destruct Ha as [->| ->]; [reflexivity|]. exfalso. vm_compute in Hk. discriminate.
Qed.

Definition test_answer : ResponseDeliverTx :=
  match run test_deliver (begin_block test_head) with
  | Some (r, _) => r
  | None => resp_error 1
  end.

Lemma test_answer_ok : resp_code test_answer = 0.
Proof. vm_compute. reflexivity. Qed.

Lemma test_sent_run :
  run (deliver_tx_inner (SJ := test_serde) (J := test_json)
    (database_reads (BC := body_codec (SnapshotCodecs := test_pool_codecs)) empty_database)
    local_dev "eld" test_bytes) (begin_block test_head) = Some (test_answer, Some test_sent).
Proof. vm_compute. reflexivity. Qed.

Lemma test_ended_run :
  end_block (T := ref_trie) local_dev 1 (Some test_sent) = Some (test_ended, []).
Proof. vm_compute. reflexivity. Qed.

Lemma committed_tx_refused_witness :
  ∃ st4 db' out,
    commit (SC := test_pool_codecs) (T := ref_trie) local_dev empty_database (Some test_ended) =
      Some (st4, db', out) ∧
    check_code (check_tx (J := test_json) (Some local_dev) "eld" st4
      (database_reads (BC := body_codec (SnapshotCodecs := test_pool_codecs)) db') test_bytes)
      ∈ [3; 6].
Proof.
  destruct (app_hash test_ended) as [hash|] eqn:Eh; [|by vm_compute in Eh].
  destruct (commit_run (SL := test_pool_laws) (T := ref_trie) local_dev empty_database test_ended hash
    test_ended_ready Eh) as (e2 & _ & _ & _ & db' & Erun & _).
  eexists _, db', _. split; [exact Erun|].
  apply (committed_tx_refused (SL := test_pool_laws) (W := test_wire) (T := ref_trie) empty_database
    db' local_dev "eld" test_bytes [] 1 test_head test_sent test_sent test_ended _ test_answer [] []
    _ (test_head_wf _ (or_intror eq_refl)) local_dev_wf test_sent_run (or_intror test_answer_ok)
    eq_refl test_ended_run test_ended_ready ref_types_separated test_ended_keys Erun).
Defined.
