(* ===== verification/Outcome.v ===== *)
(** The outcome of a capacity challenge over the life of the chain: what the
    verified-proof processor records is kept by every delivery, by the end of a
    block and by a commit, whatever they do. *)
From S2P Require Import Prelude Externals Reference Coins Address Namespace Cado Records Tx Merkle Wire Validation Fee Pinboard AppState Ledger Processors VerifiedProof Deliver Epoch Storage Snapshot Commit.

(** ** Handlers keep the recorded outcomes *)

Definition outcomes_kept (e e' : AppStateEnvelope) : Prop :=
  verified_proof_rewarded_cache e ⊆ verified_proof_rewarded_cache e' ∧
  failed_proof_counted_cache e ⊆ failed_proof_counted_cache e'.

#[global] Instance outcomes_kept_preorder : PreOrder outcomes_kept.
Proof. split; [done|]. intros e1 e2 e3 [? ?] [? ?]. split; by etrans. Qed.

Definition keeps_outcomes {A} (h : env_handler A) : Prop := ∀ e,
  match h e with Next _ e' | Return _ e' => outcomes_kept e e' | Fatal => True end.

Lemma keeps_bind {A B} (h : env_handler A) (f : A → env_handler B) :
  keeps_outcomes h → (∀ a, keeps_outcomes (f a)) → keeps_outcomes (h ≫= f).
Proof.
  intros Hh Hf e. specialize (Hh e). unfold mbind, handler_bind.
  destruct (h e) as [a e1|r e1|]; [|done..]. specialize (Hf a e1).
  destruct (f a e1); [by etrans..|done].
Qed.

Lemma keeps_modify f : (∀ e, outcomes_kept e (f e)) → keeps_outcomes (modify f).
Proof. intros Hf e. apply Hf. Qed.

Lemma keeps_or_return {Er A} (r : result Er A) k : keeps_outcomes (or_return r k).
Proof. intros e. by destruct r. Qed.

Lemma keeps_some_or_return {A} (o : option A) r : keeps_outcomes (some_or_return o r).
Proof. intros e. by destruct o. Qed.

Lemma keeps_return_if c r : keeps_outcomes (return_if c r).
Proof. intros e. by destruct c. Qed.

Lemma keeps_expect {Er A} (r : result Er A) : keeps_outcomes (expect r).
Proof. intros e. by destruct r. Qed.

Lemma keeps_get_state : keeps_outcomes get_state.
Proof. done. Qed.

Lemma keeps_mret {A} (a : A) : keeps_outcomes (mret a).
Proof. done. Qed.

Lemma keeps_return_early {A} r : keeps_outcomes (return_early (A := A) r).
Proof. done. Qed.

Create HintDb outcomes.
#[export] Hint Resolve keeps_modify keeps_or_return keeps_some_or_return keeps_return_if
  keeps_expect keeps_get_state keeps_mret keeps_return_early : outcomes.

#[export] Hint Extern 1 (outcomes_kept _ _) => split; reflexivity : outcomes.

(** Walk a handler: binds, branches, and its state updates. *)
Ltac keeps_walk :=
  repeat first
    [ apply keeps_bind; [|intros ?]
    | progress cbn beta iota zeta
    | solve [auto with outcomes]
    | case_match ].

Section processors.
Context {H : HexCrate} {HC : HashCrates} {C : RecordCodecs} {E : Ed25519} {J : TxJson}
  {R : RandCrate} (rd : StorageReads) (protocol : ProtocolConstants).

Lemma update_cado_cache_outcomes path c e : outcomes_kept e (update_cado_cache path c e).
Proof. unfold update_cado_cache. by case_match. Qed.

Lemma keeps_stage_account owner hash a : keeps_outcomes (stage_account owner hash a).
Proof. unfold stage_account. keeps_walk. apply keeps_modify, update_cado_cache_outcomes. Qed.

Lemma keeps_stage_staking owner hash a : keeps_outcomes (stage_staking_account owner hash a).
Proof. unfold stage_staking_account. keeps_walk. apply keeps_modify, update_cado_cache_outcomes. Qed.

Lemma keeps_read_account owner : keeps_outcomes (read_account rd owner).
Proof. unfold read_account. keeps_walk. Qed.

Lemma keeps_read_staking owner : keeps_outcomes (read_staking_account rd owner).
Proof. unfold read_staking_account. keeps_walk. Qed.

#[local] Hint Resolve keeps_stage_account keeps_stage_staking keeps_read_account
  keeps_read_staking update_cado_cache_outcomes : outcomes.

Lemma keeps_credit provider reward : keeps_outcomes (credit_verified_proof_reward rd provider reward).
Proof. unfold credit_verified_proof_reward. keeps_walk. Qed.

Lemma record_failed_outcomes provider n e :
  outcomes_kept e (record_failed_capacity_proof provider n e).2.
Proof. unfold record_failed_capacity_proof. by case_match. Qed.

Lemma keeps_verified_proof tx : keeps_outcomes (process_verified_proof_tx rd protocol tx).
Proof.
  unfold process_verified_proof_tx. cbv zeta.
  repeat (apply keeps_bind; [by auto with outcomes|intros ?]).
  destruct (vp_failed tx).
  - apply keeps_bind; [by auto with outcomes|intros _]. intros e. ledger_unfold.
    pose proof (record_failed_outcomes (vp_capacity_provider tx)
      (failed_proofs_before_slash protocol) e) as [Hr Hf].
    destruct (record_failed_capacity_proof _ _ e) as [[n slashed] e1]. cbn [snd] in *.
    split; [exact Hr|]. cbn. set_solver.
  - repeat (apply keeps_bind; [by auto using keeps_credit with outcomes|intros ?]).
    apply keeps_bind; [|auto with outcomes]. apply keeps_modify. intros e. split; cbn; set_solver.
Qed.

Lemma keeps_process tx : keeps_outcomes (process rd protocol tx).
Proof.
  unfold process. case_match; try apply keeps_verified_proof;
    unfold process_register_capacity_tx, process_unregister_capacity_tx,
      process_update_capacity_merkle_root_tx, process_transfer_tx, process_stake_tx,
      process_unstake_tx, process_post_message_tx, process_add_namespace_tx;
    keeps_walk.
Qed.

Lemma keeps_charge tx : keeps_outcomes (charge rd tx).
Proof. unfold charge. keeps_walk. Qed.
End processors.

(** ** The steps of a chain *)

Section chain.
Context {H : HexCrate} {HC : HashCrates} {C : RecordCodecs} {E : Ed25519} {J : TxJson}
  {R : RandCrate} {SJ : SerdeJson} {T : TrieCrate} {SC : SnapshotCodecs}
  (protocol : ProtocolConstants) (cid : string).

Lemma deliver_outcomes rd b st r st' :
  run (deliver_tx_inner rd protocol cid b) (Some st) = Some (r, Some st') →
  outcomes_kept (envelope st) (envelope st').
Proof.
  unfold deliver_tx_inner. ledger_unfold.
  destruct (decode_tx protocol b) as [tx|]; [|by intros [= _ <-]].
  destruct (negb _); [by intros [= _ <-]|].
  destruct (calculate_dynamic_fee tx _) as [req|]; [|by intros [= _ <-]].
  destruct (TxAmount_to_coin _) as [fee|]; [|by intros [= _ <-]].
  destruct (Coin_ltb _ _); [by intros [= _ <-]|]. unfold on_current, answered.
  pose proof (keeps_charge rd tx (envelope st)) as Hc.
  destruct (charge rd tx (envelope st)) as [[] e1|r1 e1|]; [|by intros [= _ <-]|done].
  cbn [set_envelope envelope]. pose proof (keeps_process rd protocol tx e1) as Hp.
  destruct (process rd protocol tx e1) as [r2 e2|r2 e2|]; [..|done];
    intros [= _ <-]; cbn [envelope]; by etrans.
Qed.

Lemma end_block_outcomes height st st' updates :
  end_block protocol height (Some st) = Some (st', updates) →
  outcomes_kept (envelope st) (envelope st').
Proof.
  unfold end_block. cbv zeta. destruct (_ <? _); [|by intros [= <- _]].
  destruct (store_epoch_record _ _) as [s4|] eqn:Es; [|done]. intros [= <- _].
  revert Es. unfold store_epoch_record.
  destruct (EpochRecord_serialize_bin _) as [b|]; [|done].
  destruct (epoch_record_path_name _) as [key|]; [|done].
  destruct (CadoPath_new _ (Key_Name key)) as [p1|]; [|done].
  destruct (CadoPath_new _ (Key_Name LATEST)) as [p2|]; [|done].
  intros [= <-]. cbn [envelope set_envelope set_app_hash].
  match goal with |- context [select_active_capacity_validator_for_epoch ?p ?n ?s0] =>
    destruct (select_active_frame p n s0) as [v ->] end.
  unfold update_cado_cache. by destruct (is_infrastructure p2), (is_infrastructure p1).
Qed.

(** *** A commit: the recorded rows are only written by their own stage *)

Definition submissions_kept (tx tx' : Database) : Prop :=
  verified_proof_submissions_cf tx' = verified_proof_submissions_cf tx.

#[local] Instance submissions_kept_preorder : PreOrder submissions_kept.
Proof. split; [done|]. unfold submissions_kept. intros ? ? ? -> ->. done. Qed.

Lemma put_cado_submissions path c tx tx' :
  put_cado_type_with_tx path c tx = Ok tx' → submissions_kept tx tx'.
Proof. unfold put_cado_type_with_tx. intros Hp. repeat case_match; by simplify_eq. Qed.

Lemma deletes_submissions db l : ∀ tx tx', commit_deletes db l tx = Some tx' → submissions_kept tx tx'.
Proof.
  induction l as [|d l IH]; intros tx tx'; cbn [commit_deletes]; [by intros [= <-]|].
  destruct (system_delete_cado_with_tx _ _ _ tx) as [tx1|] eqn:Ed; [|done].
  intros Hr. etrans; [|by apply IH]. revert Ed. unfold system_delete_cado_with_tx.
  destruct (prepare_system_cado_deletion _ _ _) as [keys|]; [|done].
  unfold delete_cado_associated_keys_with_tx.
  destruct (CadoPath_new _ _); [|done]. by intros [= <-].
Qed.

Lemma objects_submissions cache tx : submissions_kept tx (commit_objects cache tx).1.
Proof.
  unfold commit_objects. set (st := (tx, [])). change tx with st.1 at 1. generalize st.
  induction (map_to_list cache) as [|[k c] l IH]; intros [tx1 failed]; [done|].
  cbn [foldl]. etrans; [|apply IH]. unfold commit_object.
  destruct (is_infrastructure_cado_path k); [done|].
  destruct (CadoPath_parse k); [|done].
  destruct (put_cado_type_with_tx _ _ _) eqn:Ep; [|done]. by eapply put_cado_submissions.
Qed.

Lemma refcounts_submissions l : ∀ tx tx', update_refcounts l tx = Some tx' → submissions_kept tx tx'.
Proof.
  induction l as [|[k d] l IH]; intros tx tx'; cbn [update_refcounts]; [by intros [= <-]|].
  unfold update_pinboard_refcount_with_tx. destruct (_ <? 0); [done|].
  intros Hr. etrans; [|by apply IH]. done.
Qed.

Lemma pinboard_submissions db e tx tx' : commit_pinboard db e tx = Some tx' → submissions_kept tx tx'.
Proof.
  unfold commit_pinboard. destruct (negb _); [done|]. cbv zeta.
  set (tx1 := foldl _ _ (pinboard_idx_commit_add e)).
  assert (submissions_kept tx tx1) as H1.
  { unfold tx1. repeat (etrans; [|apply (foldl_rows submissions_kept); [done|by etrans|];
      intros ? row; first [done|by destruct row as [[? ?] ?]]]). done. }
  destruct (update_refcounts _ tx1) as [tx2|] eqn:Er; [|done]. cbn [mbind option_bind].
  intros [= <-]. etrans; [exact H1|]. etrans; [by eapply refcounts_submissions|].
  apply (foldl_rows submissions_kept); [done|by etrans|done].
Qed.

Lemma namespaces_submissions tx e : submissions_kept tx (commit_namespaces tx e).1.
Proof.
  unfold commit_namespaces. generalize (map_to_list (namespace_registry_cache e)). intros l.
  assert (∀ st, submissions_kept st.1 (foldl commit_namespace st l).1) as Hf.
  { induction l as [|[slug rec] l IH]; intros [tx1 e1]; [done|]. cbn [foldl].
    etrans; [|apply IH]. unfold commit_namespace. repeat case_match; try done.
    by eapply put_cado_submissions. }
  specialize (Hf (tx, e)). by destruct (foldl commit_namespace (tx, e) l).
Qed.

Lemma ok_put_submissions path c tx tx' :
  ok (put_cado_type_with_tx path c tx) = Some tx' → submissions_kept tx tx'.
Proof.
  destruct (put_cado_type_with_tx path c tx) eqn:Ep; [|done]. intros [= <-].
  by eapply put_cado_submissions.
Qed.

Lemma tip_submissions s tx tx' : commit_tip s tx = Some tx' → submissions_kept tx tx'.
Proof.
  unfold commit_tip. destruct (AppHash_bytes _); [|done]. cbv zeta. intros Ht. bind_option.
  etrans; by eapply ok_put_submissions.
Qed.

Lemma snapshot_submissions s tx tx' : commit_snapshot protocol s tx = Some tx' → submissions_kept tx tx'.
Proof.
  unfold commit_snapshot. destruct (_ =? 0); [|by intros [= <-]]. intros Ht. bind_option.
  by eapply ok_put_submissions.
Qed.

Lemma namespaces_outcomes tx e : staged_outcomes (commit_namespaces tx e).2 = staged_outcomes e.
Proof.
  unfold commit_namespaces. generalize (map_to_list (namespace_registry_cache e)). intros l.
  assert (∀ st, staged_outcomes (foldl commit_namespace st l).2 = staged_outcomes st.2) as Hf.
  { induction l as [|[slug rec] l IH]; intros [tx1 e1]; [done|]. cbn [foldl]. rewrite IH.
    unfold commit_namespace. by repeat case_match. }
  specialize (Hf (tx, e)). by destruct (foldl commit_namespace (tx, e) l).
Qed.

(** Whatever else a commit writes, the outcomes of its block are on record. *)
Lemma commit_submissions db st st' db' out :
  commit protocol db (Some st) = Some (st', db', out) →
  staged_outcomes (envelope st') = (∅, ∅) ∧
  ∀ k, k ∈ verified_proof_submissions_cf db' ↔
       k ∈ verified_proof_submissions_cf (commit_outcomes (envelope st) db).
Proof.
  unfold commit. cbn [mbind option_bind]. destruct (bool_decide _); [done|].
  fold (selected protocol st). cbv zeta. destruct (selected_spec protocol st) as [vs Esel].
  destruct (commit_deletes _ _ db) as [tx1|] eqn:E1; [|done]. cbn [mbind option_bind].
  apply deletes_submissions in E1.
  set (e1 := remove_deleted _ _). pose proof (objects_submissions (cado_cache e1) tx1) as E2.
  destruct (commit_objects (cado_cache e1) tx1) as [tx2 failed]. cbn [fst] in E2.
  set (e2 := set_cado_cache (foldr delete (cado_cache e1) failed) e1).
  destruct (commit_pinboard db e2 tx2) as [tx3|] eqn:E3; [|done]. cbn [mbind option_bind].
  apply pinboard_submissions in E3.
  destruct (commit_outcomes_run (clear_pinboard e2) tx3) as [_ E4].
  set (tx4 := commit_outcomes _ tx3) in *. set (e3 := clear_outcomes _).
  pose proof (namespaces_submissions tx4 e3) as E5.
  pose proof (namespaces_outcomes tx4 e3) as O5.
  destruct (commit_namespaces tx4 e3) as [tx5 e5]. cbn [fst snd] in E5, O5.
  destruct (commit_tip _ tx5) as [tx6|] eqn:E6; [|done]. cbn [mbind option_bind].
  apply tip_submissions in E6.
  destruct (commit_snapshot _ _ tx6) as [tx7|] eqn:E7; [|done]. cbn [mbind option_bind].
  apply snapshot_submissions in E7. intros [= <- <- _]. split.
  - cbn [envelope set_envelope].
    change (staged_outcomes (merge_cache e5) = (∅, ∅)).
    destruct (merge_cache_fields e5) as (_ & _ & -> & _). by rewrite O5.
  - intros k. rewrite E7, E6, E5, E4, E3, E2, E1.
    destruct (commit_outcomes_run (envelope st) db) as [_ ->].
    unfold e2, e1. rewrite Esel. done.
Qed.

(** ** One outcome for each challenge id *)

(** What the node does between two looks at its state: a transaction
    delivered, a block ended, a block committed. *)
Inductive chain_step : Database * AppState → Database * AppState → Prop :=
  | chain_deliver db st b r st' :
      run (deliver_tx_inner (database_reads db) protocol cid b) (Some st) = Some (r, Some st') →
      chain_step (db, st) (db, st')
  | chain_end db st height st' updates :
      end_block protocol height (Some st) = Some (st', updates) →
      chain_step (db, st) (db, st')
  | chain_commit db st st' db' out :
      commit protocol db (Some st) = Some (st', db', out) →
      chain_step (db, st) (db', st').

Lemma outcomes_kept_known rd e e' id :
  outcomes_kept e e' → outcome_known rd e id → outcome_known rd e' id.
Proof.
  intros [Hr Hf]. unfold outcome_known, is_verified_proof_challenge_rewarded,
    is_verified_proof_challenge_failed.
  intros [Hk|Hk]; [left|right]; case_bool_decide as Hin;
    case_bool_decide as Hin'; try done; destruct Hin'; auto.
Qed.

Lemma chain_step_known n n' id :
  chain_step n n' → outcome_known (database_reads n.1) (envelope n.2) id →
  outcome_known (database_reads n'.1) (envelope n'.2) id.
Proof.
  intros [db st b r st' Hs|db st h st' u Hs|db st st' db' out Hs]; cbn [fst snd].
  - by apply outcomes_kept_known, (deliver_outcomes _ _ _ _ _ Hs).
  - by apply outcomes_kept_known, (end_block_outcomes _ _ _ _ Hs).
  - apply commit_submissions in Hs as [Hc Hs].
    destruct (outcomes_carried db db' (envelope st) (envelope st') id Hs Hc) as [Er Ef].
    unfold outcome_known. by rewrite Er, Ef.
Qed.

Lemma chain_known n n' id :
  rtc chain_step n n' → outcome_known (database_reads n.1) (envelope n.2) id →
  outcome_known (database_reads n'.1) (envelope n'.2) id.
Proof. induction 1 as [|n n1 n2 Hs _ IH]; [done|]. intros Hk. eauto using chain_step_known. Qed.

Context {HL : HexLaws H} {CL : RecordCodecsLaws C}.

(** C5. An outcome is final for the text of its challenge id: once a proof was
    accepted, as a reward or as a counted failure, then after any further
    deliveries, block ends and commits, a proof whose challenge id is the same
    text is rejected and changes nothing.  Another spelling of the same id,
    such as one with a [0x] prefix, is not covered: it is bound to the same
    challenge and looked up under its own text. *)
Theorem challenge_has_one_outcome (db db' : Database) (st st' : AppState)
    (e1 : AppStateEnvelope) (tx tx' : VerifiedProofTx) (resp : ResponseDeliverTx) :
  coin_wf (verified_proof_reward_base_amount protocol) →
  ledger_wf (database_reads db) (envelope st) →
  run (process_verified_proof_tx (database_reads db) protocol tx) (envelope st) = Some (resp, e1) →
  resp_code resp = 0 →
  rtc chain_step (db, set_envelope e1 st) (db', st') →
  vp_challenge_id tx' = vp_challenge_id tx →
  run (process_verified_proof_tx (database_reads db') protocol tx') (envelope st') =
    Some (response_deliver_tx_error_validation_failed, envelope st').
Proof.
  intros Hrw Hwf Hrun H0 Hsteps Hid. apply known_rejected. rewrite Hid.
  apply (chain_known _ _ _ Hsteps). cbn [fst snd set_envelope envelope].
  by eapply accepted_known.
Qed.
End chain.

(** ** Witnesses *)

(** The proof of the challenged epoch, rewarded; then its block ends. *)
Definition test_outcome_state : AppState := mkAppState None test_epoch_env "eld".

Abbreviation empty_reads := (database_reads (BC := body_bincode test_body) empty_database).

Lemma empty_reads_wf : ledger_wf (C := test_codecs) empty_reads test_epoch_env.
Proof.
  split; intros a x h; unfold account_at, staking_at, get_account_from_cado,
    get_staking_account_from_cado, lookup_cado_staged_committed_then_db;
    cbn [test_epoch_env cado_cache committed_cado_cache set_current_epoch
         set_committed_cado_cache envelope_default]; rewrite lookup_empty;
    (rewrite lookup_singleton_ne; [|intros Heq; vm_compute in Heq; discriminate]);
    cbn [get_cado_by_path database_reads]; unfold db_get_cado_by_path;
    by destruct (validate_cado_path_internal _).
Qed.

Lemma test_outcome_run :
  match run (process_verified_proof_tx (C := test_codecs) empty_reads local_dev test_proof_tx)
          test_epoch_env with
  | Some (resp, e1) =>
      resp_code resp = 0 ∧ (current_epoch e1 <? Z.quot 20 (blocks_per_epoch local_dev)) = false
  | None => False
  end.
Proof. vm_compute. split; reflexivity. Qed.

Lemma challenge_has_one_outcome_witness :
  ∃ resp e1 st1 updates,
    run (process_verified_proof_tx (C := test_codecs) empty_reads local_dev test_proof_tx)
      test_epoch_env = Some (resp, e1) ∧ resp_code resp = 0 ∧
    end_block (C := test_codecs) (T := ref_trie) local_dev 20
      (Some (set_envelope e1 test_outcome_state)) = Some (st1, updates) ∧
    run (process_verified_proof_tx (C := test_codecs) empty_reads local_dev test_proof_tx)
      (envelope st1) = Some (response_deliver_tx_error_validation_failed, envelope st1).
Proof.
  pose proof test_outcome_run as Ht.
  destruct (run (process_verified_proof_tx (C := test_codecs) empty_reads local_dev test_proof_tx)
              test_epoch_env) as [[resp e1]|] eqn:Hr; [|destruct Ht].
  destruct Ht as [H0 Hep].
  assert (∃ st1 u, end_block (C := test_codecs) (T := ref_trie) local_dev 20
    (Some (set_envelope e1 test_outcome_state)) = Some (st1, u)) as (st1 & u & He).
  { unfold end_block. cbn [envelope set_envelope]. rewrite Hep. eauto. }
  exists resp, e1, st1, u. split; [reflexivity|]. split; [exact H0|]. split; [exact He|].
  apply (challenge_has_one_outcome (CL := test_codecs_laws) (SC := test_snapshot_codecs test_body)
    (T := ref_trie) (SJ := test_serde) local_dev "eld" empty_database empty_database
    test_outcome_state st1 e1 test_proof_tx test_proof_tx resp);
    [split; vm_compute; discriminate|exact empty_reads_wf|exact Hr|exact H0| |reflexivity].
  apply rtc_once. eapply chain_end. exact He.
Defined.
