(* ===== verification/Exchange.v ===== *)
(** The challenge exchange between a capacity provider and the capacity
    validator: the two handlers of sync_coordinator/challenges.rs, and the
    submission of the resulting transaction
    (wallet/verified_proof_chain_submitter.rs with the nonce cursor of
    wallet/sequential_optimistic_nonce_sender.rs and the claim rows of
    storage/rocksdb/verified_proof.rs). *)
From S2P Require Import Prelude Externals Reference Coins Address Namespace Cado Records Tx Merkle Wire Validation Fee Pinboard AppState Ledger Processors VerifiedProof Deliver Epoch Storage Snapshot Commit Slots Capacity Mempool.

(** [SyncMsg::CapacityChallengeResponse] *)
Record CapacityChallengeResponse : Type := mkCapacityChallengeResponse {
  cr_challenge_id : string;
  cr_provider_id : Address;
  cr_challenger : Address;
  cr_block_height : Z;
  cr_proofs : list ChunkProof;
  cr_generated_at : Z;
  cr_provider_pubkey : string;
  cr_provider_signature : string;
}.

(** What a validated response hands to the submitter: the arguments of
    [submit_verified_proof], [VerifiedProofSubmissionProofs] included. *)
Record VerifiedProofSubmission : Type := mkVerifiedProofSubmission {
  vs_capacity_provider : string;
  vs_challenge_id : string;
  vs_block_height : Z;
  vs_proofs : list ChunkProof;
  vs_generated_at : Z;
  vs_provider_pubkey : string;
  vs_provider_signature : string;
  vs_failed : bool;
}.

Definition DUMMY_TX_SIG : string := string_of_list_ascii (replicate 128 "0"%char).

Section exchange.
Context {H : HexCrate} {HC : HashCrates} {E : Ed25519} {J : TxJson}.

(** *** The provider *)

(** [handle_capacity_challenge]: the topic and the message it publishes, if
    any; [None] is a panic.  [wallet] reads the key file of an address,
    [now] is the clock. *)
Definition handle_capacity_challenge (wallet : Address → eld_result (option signing_key)) (now : Z)
    (capacity_manager : CapacityManager) (c : CapacityChallenge) :
    option (option (string * CapacityChallengeResponse)) :=
  match ChallengeId_parse_hex (ch_challenge_id c) with
  | Err _ => Some None
  | Ok challenge_id =>
      let provider := ch_provider_id c in
      proof ← generate_capacity_proof provider (Z.to_nat <$> ch_chunk_indices c) (ch_merkle_root c)
                capacity_manager;
      match proof with
      | Err _ => Some None
      | Ok proofs =>
          match wallet provider with
          | Ok (Some sk) =>
              match sign_capacity_challenge_response sk (ChallengeId_to_hex challenge_id) provider
                      (ch_challenger c) (ch_block_height c) proofs now with
              | Some (provider_pubkey, provider_signature) =>
                  Some (Some (String.append ELD_STORAGE_PROOF_TOPIC_PREFIX (hex_with_prefix provider),
                    mkCapacityChallengeResponse (ChallengeId_to_hex challenge_id) provider
                      (ch_challenger c) (ch_block_height c) proofs now provider_pubkey
                      provider_signature))
              | None => Some None
              end
          | _ => Some None
          end
      end
  end.

(** *** The validator *)

(** [matches_capacity_validator_wallet] of the local identity *)
Definition matches_capacity_validator_wallet (capacity_validator_address : option Address)
    (selected_validator : Address) : bool :=
  match capacity_validator_address with
  | Some addr => bool_decide (addr = selected_validator)
  | None => false
  end.

(** [handle_capacity_challenge_response]: the submission it spawns, if any. *)
Definition handle_capacity_challenge_response (local : option Address)
    (committed_state : option AppState) (r : CapacityChallengeResponse) :
    option VerifiedProofSubmission :=
  let challenger := cr_challenger r in
  let provider := cr_provider_id r in
  if negb (matches_capacity_validator_wallet local challenger) then None else
  state ← committed_state;
  sv ← active_capacity_validator (envelope state);
  if negb (bool_decide (acv_validator_address sv = challenger)) then None else
  _ ← verify_capacity_challenge_response (cr_challenge_id r) provider challenger
        (cr_block_height r) (cr_proofs r) (cr_generated_at r) (cr_provider_pubkey r)
        (cr_provider_signature r);
  let chunk_indices := map chunk_index (cr_proofs r) in
  provider_info ← find_provider (capacity_validators (envelope state)) provider;
  expected_merkle_root ← cv_merkle_root provider_info;
  let is_valid := validate_challenge_proof (cr_proofs r) expected_merkle_root chunk_indices in
  Some (mkVerifiedProofSubmission (hex_with_prefix provider) (cr_challenge_id r)
          (cr_block_height r) (cr_proofs r) (cr_generated_at r) (cr_provider_pubkey r)
          (cr_provider_signature r) (negb is_valid)).

(** *** The submitter *)

(** [Wallet], of which the name and the file format are left out *)
Record Wallet : Type := mkWallet { wallet_address : Address; wallet_key : signing_key }.

(** [VerifiedProofChainSubmitter]: the nonce cursor and the claim rows. *)
Record Submitter : Type := mkSubmitter {
  next_tx_nonce : option Nonce;
  submission_claims : gset string;
}.

Definition verified_proof_submission_claim_key (sender_address_hex challenge_id : string) : string :=
  String.append "vp_submit:"
    (String.append (to_ascii_lowercase sender_address_hex) (String ":" challenge_id)).

(** [take_next_nonce]; [fetch] is the answer of the chain. *)
Definition take_next_nonce (fetch : eld_result (option Nonce)) (slot : option Nonce) :
    eld_result Nonce * option Nonce :=
  let assign current := (Ok current, Nonce_next current) in
  match slot with
  | Some current => assign current
  | None =>
      match fetch with
      | Err e => (Err e, None)
      | Ok None => (Err (NetworkError "nonce retrieval"), None)
      | Ok (Some current) => assign current
      end
  end.

(** The payload of a submission: the constructor, then the flag. *)
Definition submission_tx (sender : Address) (now : Z) (p : VerifiedProofSubmission) :
    eld_result VerifiedProofTx :=
  let? provider_addr := parse_hex_str (vs_capacity_provider p) in
  let? t := VerifiedProofTx_new sender provider_addr (vs_challenge_id p) (vs_block_height p)
              (vs_block_height p) now (vs_proofs p) (vs_generated_at p) (vs_provider_pubkey p)
              (vs_provider_signature p) in
  Ok (mkVerifiedProofTx (vp_sender t) (vp_capacity_provider t) (vp_challenge_id t)
        (vp_block_height t) (vp_verified_at_block t) (vp_verified_at_timestamp t) (vp_proofs t)
        (vp_generated_at t) (vp_provider_pubkey t) (vp_provider_signature t) (vs_failed p)).

(** [build_signed_verified_proof_hex]: the signed transaction and its text. *)
Definition build_signed_verified_proof_hex (wallet : Wallet) (protocol : option ProtocolConstants)
    (chain_id : string) (now : Z) (s : VerifiedProofSubmission) (assigned_nonce : Nonce) :
    eld_result (Tx * string) :=
  let? t := submission_tx (wallet_address wallet) now s in
  let tx := Tx_new assigned_nonce (Payload_new (VerifiedProof t))
              (hex_encode (verifying_key_of (wallet_key wallet))) in
  let? protocol := ok_or protocol (InitializationError "protocol") in
  let? dummy := TxSig_new DUMMY_TX_SIG in
  let? dynamic_fee := calculate_dynamic_fee (with_sig tx dummy) (fee_config protocol) in
  let tx := mkTx (tx_sig tx) (tx_nonce tx) (tx_payload tx) (tx_public_key tx)
              (coin_amount dynamic_fee) in
  let? tx := Tx_sign tx (wallet_key wallet) chain_id in
  let? json := ok_or (tx_to_json tx) (TransactionError "serialize") in
  Ok (tx, hex_encode (as_bytes json)).

(** [submit_verified_proof].  [fetch] and [refetch] are the chain's answers to
    the nonce queries before and after the broadcast, [send] is the broadcast. *)
Definition submit_verified_proof (wallet : eld_result (option Wallet))
    (fetch refetch : eld_result (option Nonce)) (send : string → eld_result unit)
    (protocol : option ProtocolConstants) (chain_id : string) (now : Z)
    (p : VerifiedProofSubmission) (s : Submitter) : eld_result unit * Submitter :=
  match wallet with
  | Err e => (Err e, s)
  | Ok None => (Err (WalletError "get" ""), s)
  | Ok (Some wallet) =>
      let key := verified_proof_submission_claim_key (hex_with_prefix (wallet_address wallet))
                   (vs_challenge_id p) in
      if bool_decide (key ∈ submission_claims s) then (Ok tt, s) else
      match take_next_nonce fetch (next_tx_nonce s) with
      | (Err e, slot) => (Err e, mkSubmitter slot (submission_claims s))
      | (Ok assigned_nonce, slot) =>
          match build_signed_verified_proof_hex wallet protocol chain_id now p assigned_nonce with
          | Err e => (Err e, mkSubmitter (Some assigned_nonce) (submission_claims s))
          | Ok (_, hex_encoded) =>
              match send hex_encoded with
              | Ok _ => (Ok tt, mkSubmitter slot ({[ key ]} ∪ submission_claims s))
              | Err (NetworkError op) =>
                  let next := match refetch with Ok (Some next) => next | _ => assigned_nonce end in
                  (Err (NetworkError op), mkSubmitter (Some next) (submission_claims s))
              | Err e => (Err e, mkSubmitter (Some assigned_nonce) (submission_claims s))
              end
          end
      end
  end.
End exchange.

(** ** Lemmas *)

Lemma submission_fields {H : HexCrate} sender later p t :
  submission_tx sender later p = Ok t →
  vp_sender t = sender ∧ parse_hex_str (vs_capacity_provider p) = Ok (vp_capacity_provider t) ∧
  vp_challenge_id t = vs_challenge_id p ∧ vp_block_height t = vs_block_height p ∧
  vp_proofs t = vs_proofs p ∧ vp_failed t = vs_failed p.
Proof.
  unfold submission_tx, VerifiedProofTx_new. destruct (parse_hex_str _) as [a|]; [|done].
  repeat case_match; intros [= <-]; simplify_eq; done.
Qed.

Section exchange_facts.
Context {H : HexCrate} {HL : HexLaws H} {HC : HashCrates} {C : RecordCodecs}
  {CL : RecordCodecsLaws C} {E : Ed25519} {EL : Ed25519Laws E} {J : TxJson} {R : RandCrate}
  {RL : RandLaws R} {X : Blake3Xof} {SJ : SlotJson} {T : TrieCrate}
  (rd : StorageReads) (protocol : ProtocolConstants).

(** A challenge asks for chunks of the provider, and for some. *)
Lemma challenge_indices epoch a h v count :
  0 < count → 0 < chunks_per_challenge protocol →
  let l := select_challenge_chunk_indices epoch a h v count (chunks_per_challenge protocol) in
  Forall (λ i, 0 ≤ i < count) l ∧ (0 < length l)%nat.
Proof.
  intros Hc Hp. cbv zeta. unfold select_challenge_chunk_indices.
  destruct (count =? 0) eqn:E0; eld_bool; [lia|].
  match goal with |- context [rng_shuffle ?g ?l] => pose proof (rng_shuffle_perm g l) as Hsh;
    destruct (rng_shuffle g l) as [l' g'] end. cbn [fst] in Hsh. split.
  - apply Forall_take. rewrite Hsh. apply list.Forall_forall. intros i Hi%elem_of_seqZ. lia.
  - rewrite length_take, Hsh, length_seqZ. lia.
Qed.

(** Accepted proofs are for the chunks in question, in order. *)
Lemma accepted_indices proofs root idxs :
  validate_challenge_proof proofs root idxs = true →
  map chunk_index proofs = idxs ∧ length proofs = length idxs.
Proof.
  unfold validate_challenge_proof. intros [Hl Hall]%andb_prop.
  apply Nat.eqb_eq in Hl. split; [|done]. revert idxs Hl Hall.
  induction proofs as [|p proofs IH]; intros [|i idxs]; try done. cbn.
  intros [= Hl] [Hp Hall]%andb_prop. f_equal; [|by apply IH].
  unfold chunk_proof_ok in Hp. repeat (apply andb_prop in Hp as [Hp ?]). by eld_bool.
Qed.

(** The text of a challenge id is safe. *)
Lemma hex_text_safe s n :
  string_all is_ascii_hexdigit s = true → (0 < String.length s ≤ n)%nat →
  validate_safe_string s n = Ok tt.
Proof.
  intros Hs Hn. unfold validate_safe_string. destruct (String.eqb_spec s EmptyString) as [->|_];
    [simpl in Hn; lia|].
  rewrite (proj2 (Nat.ltb_ge n (String.length s))) by lia.
  assert (∀ p, (∀ c, is_ascii_hexdigit c = true → p c = false) → string_any p s = false) as Hany.
  { intros p Hp. clear Hn. induction s as [|c s IH]; [done|]. cbn in *.
    apply andb_prop in Hs as [Hc Hs]. by rewrite Hp, IH. }
  assert (existsb (λ ch, string_any (Ascii.eqb ch) s) dangerous_chars = false) as ->.
  { cbn [existsb dangerous_chars]. rewrite !Hany; [done|..];
      intros c Hc; destruct c as [[] [] [] [] [] [] [] []]; done || discriminate. }
  assert (has_control s = false) as ->; [|done].
  clear Hn Hany. induction s as [|c s IH]; [done|]. cbn [has_control string_all] in *.
  apply andb_prop in Hs as [Hc Hs]. rewrite (IH Hs), orb_false_r.
  destruct c as [[] [] [] [] [] [] [] []]; done || discriminate.
Qed.

Lemma challenge_id_safe c : validate_safe_string (ChallengeId_to_hex c) 100 = Ok tt.
Proof.
  apply hex_text_safe; [apply hex_encode_hexdigits|]. unfold ChallengeId_to_hex.
  rewrite hex_encode_length, length_vec_to_list. lia.
Qed.

(** Behind the gates, a success with room for the reward is accepted. *)
Lemma gated_success e tx b :
  ledger_wf rd e → coin_wf (verified_proof_reward_base_amount protocol) →
  vp_gates rd protocol e tx b → vp_failed tx = false →
  let provider := vp_capacity_provider tx in
  let reward := coin_amount (verified_proof_reward_base_amount protocol) in
  balance_of rd e provider + reward ≤ MAX_COIN →
  ∃ events, run (process_verified_proof_tx rd protocol tx) e =
    Some (resp_ok events, rewarded_envelope rd protocol e provider reward (vp_challenge_id tx)).
Proof.
  intros Hwf Hrw [G0 G1 (epoch & record & Gw & Gr & Gv) Gs Gp] Ef. cbv zeta. intros Hm.
  unfold process_verified_proof_tx. ledger_unfold.
  rewrite Coin_new_in by apply Hrw. cbn beta iota. rewrite G0. cbn beta iota. rewrite G1.
  cbn beta iota. rewrite Gw. cbn beta iota. rewrite Gr. cbn beta iota.
  unfold bind_verified_proof. rewrite Gw. cbn [mbind option_bind]. rewrite Gv. cbn beta iota.
  rewrite Gs. cbn beta iota. rewrite Ef in Gp |- *. rewrite Gp. cbn [negb].
  rewrite credit_run by (done || exact Hrw). cbn [coin_amount].
  rewrite (proj2 (Z.ltb_ge MAX_COIN _)) by done. cbn beta iota. by eexists.
Qed.

(** *** A challenge and the parties to it *)

(** The challenge [c] was published when the block [height] opened an epoch. *)
Record issued (height : Z) (s s' : AppState) (sv : ActiveCapacityValidator)
    (c : CapacityChallenge) : Prop := {
  issued_wf : epoch_state_wf s;
  issued_height : 0 < height ≤ i64_max;
  issued_opens : current_epoch (envelope s) < Z.quot height (blocks_per_epoch protocol);
  issued_end : ∃ updates, end_block protocol height (Some s) = Some (s', updates);
  issued_validator : active_capacity_validator (envelope s') = Some sv;
  issued_sent : c ∈ generate_challenges_internal protocol
    (build_challenged_capacity_provider_data s' (acv_challenged_providers sv))
    (Z.quot height (blocks_per_epoch protocol)) height (acv_validator_address sv);
}.

(** The manager [m] holds the capacity registered for the challenged provider,
    and [sk] is the provider's key. *)
Record honest (s' : AppState) (c : CapacityChallenge) (m : CapacityManager) (sk : signing_key) :
    Prop := {
  honest_consistent : capacity_ok m;
  honest_initialized : cm_initialized m = true;
  honest_id : cm_provider_id m = ch_provider_id c;
  honest_root : get_merkle_root m = Ok (ch_merkle_root c);
  honest_count : ∀ cp, find_provider (capacity_validators (envelope s')) (ch_provider_id c) = Some cp →
    cv_chunk_count cp = Some (Z.of_nat (length (slots_of m)));
  honest_key : from_public_key (verifying_key_of sk) = Ok (ch_provider_id c);
}.

(** The epoch of the challenge is still open and the challenge is unsettled. *)
Record unsettled (s' : AppState) (c : CapacityChallenge) (e : AppStateEnvelope) : Prop := {
  unsettled_wf : ledger_wf rd e;
  unsettled_epoch : current_epoch e = current_epoch (envelope s');
  unsettled_record : get_epoch_record rd e (current_epoch e) =
    get_epoch_record rd (envelope s') (current_epoch (envelope s'));
  unsettled_rewarded : is_verified_proof_challenge_rewarded rd e (ch_challenge_id c) = Ok false;
  unsettled_failed : is_verified_proof_challenge_failed rd e (ch_challenge_id c) = Ok false;
  unsettled_room : balance_of rd e (ch_provider_id c) +
    coin_amount (verified_proof_reward_base_amount protocol) ≤ MAX_COIN;
}.

(** The protocol parameters the exchange relies on. *)
Definition exchange_params : Prop :=
  0 ≤ challenges_per_epoch protocol ∧ 0 < blocks_per_epoch protocol ∧
  0 < chunks_per_challenge protocol ∧ coin_wf (verified_proof_reward_base_amount protocol).

Lemma of_to_nat_indices l n :
  Forall (λ i, 0 ≤ i < Z.of_nat n) l →
  Z.of_nat <$> (Z.to_nat <$> l) = l ∧ Forall (λ i, i < n)%nat (Z.to_nat <$> l).
Proof.
  induction 1 as [|i l Hi _ [IH1 IH2]]; [done|]. rewrite !fmap_cons. split.
  - rewrite IH1, Z2Nat.id by lia. done.
  - constructor; [lia|done].
Qed.

(** The honest provider's answer. *)
Lemma honest_response height s s' sv c m sk wallet now :
  exchange_params → issued height s s' sv c → honest s' c m sk →
  wallet (ch_provider_id c) = Ok (Some sk) →
  (∀ proofs, is_Some (response_to_json (ch_challenge_id c) (hex_with_prefix (ch_provider_id c))
     (hex_with_prefix (ch_challenger c)) height proofs now (hex_encode (verifying_key_of sk)))) →
  ∃ topic proofs pk sig,
    handle_capacity_challenge wallet now m c =
      Some (Some (topic, mkCapacityChallengeResponse (ch_challenge_id c) (ch_provider_id c)
        (acv_validator_address sv) height proofs now pk sig)) ∧
    validate_challenge_proof proofs (ch_merkle_root c) (ch_chunk_indices c) = true ∧
    (0 < length proofs)%nat ∧ String.eqb pk EmptyString = false ∧
    String.eqb sig EmptyString = false ∧
    verify_capacity_challenge_response (ch_challenge_id c) (ch_provider_id c)
      (acv_validator_address sv) height proofs now pk sig = Some tt.
Proof.
  intros (Hc & Hb & Hcc & _) [Hwf Hh Hop (updates & Hend) Hsv Hin] [Hok Hini Hid Hroot Hcount Hkey]
    Hw Hj.
  destruct (issued_challenge_facts rd protocol height s s' updates sv c Hwf Hc Hb Hh Hop Hend Hsv Hin)
    as (Hch & Hbh & Hcid & (cp & count & Hcp & _ & Hcnt & Hpos & Hidx) & _).
  rewrite (Hcount cp Hcp) in Hcnt. injection Hcnt as <-.
  destruct (challenge_indices (Z.quot height (blocks_per_epoch protocol)) (ch_provider_id c) height
    (acv_validator_address sv) _ Hpos Hcc) as [Hrange Hlen].
  rewrite <- Hidx in Hrange, Hlen. destruct (of_to_nat_indices _ _ Hrange) as [Hback Hnat].
  destruct (honest_answer m (ch_merkle_root c) (Z.to_nat <$> ch_chunk_indices c) Hok Hini Hroot Hnat)
    as (proofs & Hgen & Hval).
  rewrite Hid in Hgen. rewrite Hback in Hval. destruct (Hj proofs) as [mj Hmj].
  pose proof (challenge_id_parse (compute_challenge_id (acv_validator_address sv)
    (ch_provider_id c) height (ch_chunk_indices c))) as Hparse. rewrite <- Hcid in Hparse.
  unfold handle_capacity_challenge. rewrite Hparse. cbv zeta. rewrite Hgen. cbn [mbind option_bind]. rewrite Hw.
  destruct (sign_capacity_challenge_response sk (ch_challenge_id c) (ch_provider_id c)
    (ch_challenger c) height proofs now) as [[pk sig]|] eqn:Es.
  2: { exfalso. unfold sign_capacity_challenge_response in Es. by rewrite Hmj in Es. }
  rewrite Hbh, <- Hcid, Es, Hch. eexists _, proofs, pk, sig. split; [done|]. split; [done|].
  rewrite Hch in Es. split; [by rewrite (proj2 (accepted_indices _ _ _ Hval))|].
  pose proof (response_sign_then_verify sk _ _ _ _ _ _ pk sig Hkey Es) as Hver.
  split; [|split; [|done]]; revert Hver; unfold verify_capacity_challenge_response;
    destruct (String.eqb pk EmptyString), (String.eqb sig EmptyString); done.
Qed.

(** A signed answer to the selected validator is judged by its own chunks. *)
Lemma signed_response_judged st sv provider id h proofs now pk sig cp root :
  active_capacity_validator (envelope st) = Some sv →
  find_provider (capacity_validators (envelope st)) provider = Some cp →
  cv_merkle_root cp = Some root →
  let v := acv_validator_address sv in
  verify_capacity_challenge_response id provider v h proofs now pk sig = Some tt →
  handle_capacity_challenge_response (Some v) (Some st)
    (mkCapacityChallengeResponse id provider v h proofs now pk sig) =
  Some (mkVerifiedProofSubmission (hex_with_prefix provider) id h proofs now pk sig
          (negb (validate_challenge_proof proofs root (map chunk_index proofs)))).
Proof.
  intros Hsv Hcp Hroot v Hver. unfold handle_capacity_challenge_response.
  cbn [cr_challenger cr_provider_id cr_challenge_id cr_block_height cr_proofs cr_generated_at
    cr_provider_pubkey cr_provider_signature matches_capacity_validator_wallet mbind option_bind].
  rewrite bool_decide_eq_true_2 by done. cbn [negb]. rewrite Hsv. cbn [mbind option_bind].
  fold v. rewrite bool_decide_eq_true_2 by done. cbn [negb]. rewrite Hver. cbn [mbind option_bind].
  rewrite Hcp. cbn [mbind option_bind]. by rewrite Hroot.
Qed.

Lemma submission_builds sender later provider c h proofs now pk sig failed :
  0 < h → (0 < length proofs)%nat → timestamp_ok now = true → timestamp_ok later = true →
  String.eqb pk EmptyString = false → String.eqb sig EmptyString = false →
  submission_tx sender later (mkVerifiedProofSubmission (hex_with_prefix provider)
    (ChallengeId_to_hex c) h proofs now pk sig failed) =
  Ok (mkVerifiedProofTx sender provider (ChallengeId_to_hex c) h h later proofs now pk sig failed).
Proof.
  intros Hh Hlen Hnow Hlater Hpk Hsig. unfold submission_tx.
  cbn [vs_capacity_provider vs_challenge_id vs_block_height vs_proofs vs_generated_at
    vs_provider_pubkey vs_provider_signature vs_failed].
  destruct (identifier_text_roundtrip provider c "") as (-> & _).
  unfold VerifiedProofTx_new. rewrite challenge_id_safe, (proj2 (Z.leb_gt h 0)) by done.
  rewrite Z.ltb_irrefl, Hlater, Hnow, Hpk, Hsig. by rewrite bool_decide_eq_false_2 by lia.
Qed.

(** ** Properties *)

(** C11. The challenge protocol works end to end: a provider that holds the
    capacity it registered and receives the challenge published for it answers;
    the selected validator judges the answer valid and submits it as a success;
    and the transaction, while the epoch is open and the challenge unsettled,
    is accepted: it pays exactly the reward to the provider, moves nothing else
    and settles the challenge. *)
Theorem honest_provider_rewarded (height : Z) (s s' st : AppState) (sv : ActiveCapacityValidator)
    (c : CapacityChallenge) (m : CapacityManager) (sk : signing_key)
    (wallet : Address → eld_result (option signing_key)) (now later : Z) (e : AppStateEnvelope) :
  exchange_params → issued height s s' sv c → honest s' c m sk → unsettled s' c e →
  wallet (ch_provider_id c) = Ok (Some sk) → timestamp_ok now = true → timestamp_ok later = true →
  (∀ proofs, is_Some (response_to_json (ch_challenge_id c) (hex_with_prefix (ch_provider_id c))
     (hex_with_prefix (ch_challenger c)) height proofs now (hex_encode (verifying_key_of sk)))) →
  active_capacity_validator (envelope st) = Some sv →
  capacity_validators (envelope st) = capacity_validators (envelope s') →
  ∃ topic r p t events e',
    handle_capacity_challenge wallet now m c = Some (Some (topic, r)) ∧
    handle_capacity_challenge_response (Some (acv_validator_address sv)) (Some st) r = Some p ∧
    vs_failed p = false ∧ submission_tx (acv_validator_address sv) later p = Ok t ∧
    run (process_verified_proof_tx rd protocol t) e = Some (resp_ok events, e') ∧
    moves rd e e' (delta (ch_provider_id c)
      (coin_amount (verified_proof_reward_base_amount protocol))) (λ _, 0) ∧
    is_verified_proof_challenge_rewarded rd e' (ch_challenge_id c) = Ok true.
Proof.
  intros Hpar Hiss Hhon [Uwf Uep Urec Urew Ufail Uroom] Hw Hnow Hlater Hj Hsv Hcvs.
  destruct (honest_response height s s' sv c m sk wallet now Hpar Hiss Hhon Hw Hj)
    as (topic & proofs & pk & sig & Hans & Hval & Hlen & Hpk & Hsig & Hver).
  destruct Hpar as (Hc & Hb & Hcc & Hrw). destruct Hiss as [Hwf Hh Hop (updates & Hend) Hsv' Hin].
  destruct (issued_challenge_facts rd protocol height s s' updates sv c Hwf Hc Hb Hh Hop Hend Hsv' Hin)
    as (Hch & Hbh & Hcid & (cp & count & Hcp & Hroot & _) & record & Hrec & Hbind).
  set (epoch := Z.quot height (blocks_per_epoch protocol)) in *.
  assert (current_epoch (envelope s') = epoch) as Hepoch.
  { destruct (end_block_opens rd protocol height s Hwf Hc Hb ltac:(lia) Hop) as (cache & Hrun & _).
    rewrite Hend in Hrun. injection Hrun as -> _. done. }
  set (t := mkVerifiedProofTx (acv_validator_address sv) (ch_provider_id c) (ch_challenge_id c)
    height height later proofs now pk sig false).
  destruct (accepted_indices _ _ _ Hval) as [Hmap _].
  rewrite Hbh in Hbind. unfold bind_verified_proof in Hbind. rewrite Hepoch in Hbind.
  assert (proof_epoch_in_window height epoch (blocks_per_epoch protocol) = Some epoch) as Hwin
    by (by apply proof_window).
  rewrite Hwin in Hbind. cbn [mbind option_bind] in Hbind.
  destruct record as [record|]; [|done]. cbn [mbind option_bind] in Hbind.
  match type of Hbind with _ = Some ?b =>
    destruct (gated_success e t b Uwf Hrw) as (events & Hrun); [| |exact Uroom|] end.
  { constructor; [exact Urew|exact Ufail| |exact Hver|exact Hval].
    exists epoch, record. rewrite Uep, Hepoch. split; [exact Hwin|]. split; [|exact Hbind].
    by rewrite <- Hepoch, <- Uep, Urec, Hepoch. }
  { reflexivity. }
  eexists topic, _, _, t, events, _. split; [exact Hans|]. split; [|split; [|split; [|split; [exact Hrun|]]]].
  - rewrite <- Hcvs in Hcp.
    exact (signed_response_judged st sv _ _ _ _ _ _ _ cp _ Hsv Hcp Hroot Hver).
  - cbn [vs_failed]. by rewrite Hmap, Hval.
  - rewrite Hmap, Hval. unfold t. rewrite Hcid. apply submission_builds; try done. lia.
  - split; [apply rewarded_moves; [done|apply Hrw|exact Uroom]|].
    unfold is_verified_proof_challenge_rewarded. rewrite bool_decide_eq_true_2; [done|].
    apply elem_of_union_l, elem_of_singleton. reflexivity.
Qed.

(** The validator never compares an answer with what it asked: a provider
    that answers with correct proofs of other chunks is submitted as a success,
    delivery rejects that transaction, and so no failure is counted. *)
Theorem wrong_chunks_escape_failure (st : AppState) (sv : ActiveCapacityValidator)
    (cp : CapacityValidatorInfo) (root : byte_array 32) (r : CapacityChallengeResponse) :
  active_capacity_validator (envelope st) = Some sv → cr_challenger r = acv_validator_address sv →
  find_provider (capacity_validators (envelope st)) (cr_provider_id r) = Some cp →
  cv_merkle_root cp = Some root →
  verify_capacity_challenge_response (cr_challenge_id r) (cr_provider_id r) (cr_challenger r)
    (cr_block_height r) (cr_proofs r) (cr_generated_at r) (cr_provider_pubkey r)
    (cr_provider_signature r) = Some tt →
  validate_challenge_proof (cr_proofs r) root (map chunk_index (cr_proofs r)) = true →
  ∃ p, handle_capacity_challenge_response (Some (acv_validator_address sv)) (Some st) r = Some p ∧
    vs_failed p = false ∧
    ∀ later t e, submission_tx (acv_validator_address sv) later p = Ok t →
      ledger_wf rd e → coin_wf (verified_proof_reward_base_amount protocol) →
      (∀ epoch record b,
         proof_epoch_in_window (vp_block_height t) (current_epoch e) (blocks_per_epoch protocol)
           = Some epoch →
         get_epoch_record rd e epoch = Ok (Some record) →
         validate_verified_proof_binding record (vp_sender t) (vp_capacity_provider t)
           (vp_challenge_id t) (vp_block_height t) (blocks_per_epoch protocol)
           (chunks_per_challenge protocol) = Some b →
         expected_indices b ≠ map chunk_index (cr_proofs r)) →
      run (process_verified_proof_tx rd protocol t) e =
        Some (response_deliver_tx_error_validation_failed, e).
Proof.
  intros Hsv Hch Hcp Hroot Hver Hval. rewrite Hch in Hver. destruct r as [id pr ch h proofs now pk sig].
  cbn [cr_challenger cr_provider_id cr_challenge_id cr_block_height cr_proofs cr_generated_at
    cr_provider_pubkey cr_provider_signature] in *. subst ch.
  rewrite (signed_response_judged st sv pr id h proofs now pk sig cp root Hsv Hcp Hroot Hver), Hval.
  eexists. split; [reflexivity|]. split; [reflexivity|]. intros later t e Ht Hwf Hrw Hother.
  assert (vp_proofs t = proofs ∧ vp_failed t = false) as [Hp Hf].
  { by destruct (submission_fields _ _ _ _ Ht) as (_ & _ & _ & _ & Hp & Hf). }
  destruct (verified_proof_cases rd protocol e t Hwf Hrw) as [Hrej|(b & ev & e' & Hg & _)]; [exact Hrej|].
  destruct Hg as [_ _ (epoch & record & Hwin & Hrec & Hb) _ Hproof]. exfalso.
  rewrite Hf, Hp in Hproof. apply accepted_indices in Hproof as [Hi _].
  by apply (Hother epoch record b Hwin Hrec Hb).
Qed.
End exchange_facts.

(** ** The nonce cursor *)

Section stranding.
Context {H : HexCrate} {HL : HexLaws H} {HC : HashCrates} {C : RecordCodecs}
  {CL : RecordCodecsLaws C} {E : Ed25519} {J : TxJson} {R : RandCrate} {SJ : SerdeJson}
  {W : TxWire SJ J}.

Lemma bytes_of_string s : String.string_of_list_ascii (map Ascii.ascii_of_byte (as_bytes s)) = s.
Proof.
  unfold as_bytes. rewrite List.map_map. rewrite (List.map_ext _ id).
  - rewrite List.map_id. apply String.string_of_list_ascii_of_string.
  - intros a. apply Ascii.ascii_of_byte_of_ascii.
Qed.

Lemma from_utf8_bytes s s' : from_utf8 (as_bytes s) = Some s' → s' = s.
Proof. unfold from_utf8. destruct (utf8_valid _); [|done]. intros [= <-]. apply bytes_of_string. Qed.

(** The text of a transaction reads as that transaction or not at all. *)
Lemma sent_text_reads protocol tx tx' json :
  tx_from_json json = Some tx →
  check_decode protocol (as_bytes (hex_encode (as_bytes json))) = Ok tx' → tx' = tx.
Proof.
  intros Hj. unfold check_decode. destruct (_ <? _); [done|].
  destruct (from_utf8 _) as [hx|] eqn:Ex; [|done]. apply from_utf8_bytes in Ex as ->. cbn [ok_or].
  rewrite hex_decode_encode. cbn [ok_or].
  destruct (from_utf8 _) as [js|] eqn:Ej; [|done]. apply from_utf8_bytes in Ej as ->. cbn [ok_or].
  rewrite Hj. by intros [= <-].
Qed.

(** A built transaction carries the assigned nonce and the wallet's address. *)
Lemma built_tx wallet protocol cid now p n tx hex :
  build_signed_verified_proof_hex wallet protocol cid now p n = Ok (tx, hex) →
  tx_nonce tx = n ∧ sender (payload_inner (tx_payload tx)) = wallet_address wallet ∧
  ∃ json, tx_to_json tx = Some json ∧ hex = hex_encode (as_bytes json).
Proof.
  unfold build_signed_verified_proof_hex.
  destruct (submission_tx (wallet_address wallet) now p) as [t|] eqn:Et; [|done].
  destruct (ok_or protocol _) as [pr|]; [|done]. destruct (TxSig_new _) as [d|]; [|done].
  destruct (calculate_dynamic_fee _ _) as [fee|]; [|done].
  destruct (Tx_sign _ _ _) as [tx0|] eqn:Es; [|done].
  destruct (tx_to_json tx0) as [json|] eqn:Ej; [|done]. intros [= <- <-].
  unfold Tx_sign in Es. destruct (ok_or (signing_bytes _ _) _); [|done]. injection Es as <-.
  split; [done|]. split; [|by exists json]. cbn.
  by destruct (submission_fields _ _ _ _ Et) as [Hs _].
Qed.

(** A proof that delivery rejects strands the submitter.  Delivery charges
    before it processes, so the nonce is spent; the submitter takes the error
    for a transaction that was not included and puts the spent nonce back.
    From then on every submission, whatever its challenge, is built with that
    nonce, refused by [check_tx], and leaves the submitter as it was. *)
Theorem rejected_delivery_strands_submitter (rd : StorageReads) (protocol : ProtocolConstants)
    (cid : string) (w : Wallet) (now : Z) (fetch refetch : eld_result (option Nonce))
    (send : string → eld_result unit) (p : VerifiedProofSubmission) (s : Submitter) (n : Nonce)
    (tx : Tx) (hex : string) :
  protocol_wf protocol → next_tx_nonce s = Some n →
  verified_proof_submission_claim_key (hex_with_prefix (wallet_address w)) (vs_challenge_id p)
    ∉ submission_claims s →
  build_signed_verified_proof_hex w (Some protocol) cid now p n = Ok (tx, hex) →
  (∀ json, tx_to_json tx = Some json → tx_from_json json = Some tx) →
  send hex = Err (TransactionError "consensus") →
  let submit := submit_verified_proof (Ok (Some w)) in
  let stuck := mkSubmitter (Some n) (submission_claims s) in
  submit fetch refetch send (Some protocol) cid now p s = (Err (TransactionError "consensus"), stuck) ∧
  (∀ st st1 r, ledger_wf rd (envelope st) →
     run (deliver_tx_inner rd protocol cid (as_bytes hex)) (Some st) = Some (r, Some st1) → st1 ≠ st →
     nonce_of rd (envelope st1) (wallet_address w) = Some n) ∧
  ∀ st k fetch' refetch' send' now' p' tx' hex',
    cado_cache (envelope st) = ∅ → nonce_of rd (envelope st) (wallet_address w) = Some k →
    nonce_value n ≤ nonce_value k →
    verified_proof_submission_claim_key (hex_with_prefix (wallet_address w)) (vs_challenge_id p')
      ∉ submission_claims s →
    build_signed_verified_proof_hex w (Some protocol) cid now' p' n = Ok (tx', hex') →
    (∀ json, tx_to_json tx' = Some json → tx_from_json json = Some tx') →
    (check_code (check_tx (Some protocol) cid st rd (as_bytes hex')) ≠ 0 →
     send' hex' = Err (TransactionError "mempool_validation")) →
    submit fetch' refetch' send' (Some protocol) cid now' p' stuck =
      (Err (TransactionError "mempool_validation"), stuck).
Proof.
  intros Hpr Hn Hcl Hb Hj Hsend submit stuck.
  destruct (built_tx _ _ _ _ _ _ _ _ Hb) as (Htn & Hts & json & Hjson & ->).
  split; [|split].
  - unfold submit, submit_verified_proof. rewrite bool_decide_eq_false_2 by done.
    rewrite Hn. cbn [take_next_nonce]. rewrite Hb, Hsend. done.
  - intros st st1 r Hwf Hrun Hne. destruct (deliver_cases rd protocol cid (as_bytes (hex_encode (as_bytes json))) st Hwf Hpr)
      as [(r0 & Hr0 & _)|(tx0 & acc & h & req & r0 & e' & Hd & _ & _ & _ & _ & _ & Hf & _ & Hs & _ & Hr0)].
    { rewrite Hrun in Hr0. by injection Hr0 as _ ->. }
    rewrite Hrun in Hr0. injection Hr0 as _ ->. destruct (decode_tx_ok protocol _ tx0 Hd) as (_ & Hnr & _).
    apply check_decode_weaker in Hd. apply (sent_text_reads _ tx) in Hd as ->; [|by apply Hj].
    apply settled_keeps in Hs as [_ Hkeep]; [|by apply charged_wf].
    rewrite <- Hts, <- Htn. apply Hkeep.
    rewrite charged_nonce by done. by rewrite bool_decide_eq_true_2.
  - intros st k fetch' refetch' send' now' p' tx' hex' Hc Hk Hle Hcl' Hb' Hj' Hsend'.
    destruct (built_tx _ _ _ _ _ _ _ _ Hb') as (Htn' & Hts' & json' & Hjson' & ->).
    unfold submit, submit_verified_proof. cbn [submission_claims next_tx_nonce stuck].
    rewrite bool_decide_eq_false_2 by done. cbn [take_next_nonce]. rewrite Hb', Hsend'; [done|].
    intros Hacc. apply check_tx_accepts in Hacc as (tx0 & acc & h & Hd & _ & Ha & Hnx & _); [|done].
    apply (sent_text_reads _ tx') in Hd as ->; [|by apply Hj']. rewrite Hts' in Ha.
    unfold nonce_of in Hk. rewrite Ha in Hk. injection Hk as <-. apply next_nonce_moves in Hnx.
    rewrite Htn' in Hnx. lia.
Qed.
End stranding.

(** ** Witnesses *)

(** One provider with the two open slots of [test_capacity], registered with
    its root; it is the only candidate, so it validates itself. *)
Definition test_slot_root : byte_array 32 :=
  match get_merkle_root test_capacity with Ok root => root | Err _ => zero_hash end.
Definition test_slot_provider : CapacityValidatorInfo :=
  mkCapacityValidatorInfo test_sender Coin_zero (mkPublicKey test_key) 2048
    (Some test_slot_root) (Some test_key) (Some 2) (Some 1) None 1 1000.
Definition test_alone : AppState :=
  mkAppState None (set_capacity_validators [test_slot_provider]
    (set_block_height 19 envelope_default)) "eld".

Definition alone_codecs : RecordCodecs := {|
  account_codec := ref_account_codec;
  staking_codec := ref_staking_codec;
  namespace_codec := countable_bincode NamespaceRecord;
  epoch_codec := shortcut_bincode (opening_record local_dev 20 1 test_alone)
                   (countable_bincode EpochRecord);
|}.

Lemma alone_codecs_laws : RecordCodecsLaws alone_codecs.
Proof.
  constructor; [apply ref_account_laws|apply ref_staking_laws|apply countable_bincode_laws|].
  apply shortcut_bincode_laws, countable_bincode_laws.
Qed.

Definition test_opened : AppState :=
  match end_block (C := alone_codecs) (T := ref_trie) local_dev 20 (Some test_alone) with
  | Some (s, _) => s
  | None => test_alone
  end.
Definition test_selected : ActiveCapacityValidator :=
  default test_active (active_capacity_validator (envelope test_opened)).
Definition test_issued : CapacityChallenge :=
  default (mkCapacityChallenge "" test_sender test_sender [] 0 test_slot_root test_key 0)
    (test_first_challenge test_opened).

Lemma test_exchange_params : exchange_params local_dev.
Proof. split_and!; try (split; vm_compute; discriminate); vm_compute; discriminate || reflexivity. Qed.

Lemma test_issued_ok :
  issued (C := alone_codecs) (T := ref_trie) local_dev 20 test_alone test_opened test_selected
    test_issued.
Proof.
  constructor.
  - split_and!.
    + constructor.
    + repeat constructor; vm_compute; discriminate.
    + repeat constructor; vm_compute. intros Hn%elem_of_nil. exact Hn.
  - split; vm_compute; [reflexivity|discriminate].
  - vm_compute. reflexivity.
  - exists []. vm_compute. reflexivity.
  - vm_compute. reflexivity.
  - apply head_Some_elem_of. vm_compute. reflexivity.
Qed.

Lemma test_honest_ok : honest test_opened test_issued test_capacity test_sk.
Proof.
  constructor.
  - exact test_capacity_ok.
  - reflexivity.
  - vm_compute. reflexivity.
  - vm_compute. reflexivity.
  - intros cp Hcp.
    assert (find_provider (capacity_validators (envelope test_opened)) (ch_provider_id test_issued) =
      Some test_slot_provider) as Hf by (vm_compute; reflexivity).
    rewrite Hf in Hcp. injection Hcp as <-. reflexivity.
  - vm_compute. reflexivity.
Qed.

Lemma test_unsettled_ok :
  unsettled (C := alone_codecs) rd0 local_dev test_opened test_issued test_epoch_env.
Proof.
  constructor.
  - apply test_epoch_env_wf.
  - vm_compute. reflexivity.
  - vm_compute. reflexivity.
  - vm_compute. reflexivity.
  - vm_compute. reflexivity.
  - vm_compute. discriminate.
Qed.

Lemma honest_provider_rewarded_witness :
  ∃ topic r p t events e',
    handle_capacity_challenge (λ _, Ok (Some test_sk)) 1600000000 test_capacity test_issued =
      Some (Some (topic, r)) ∧
    handle_capacity_challenge_response (Some (acv_validator_address test_selected))
      (Some test_opened) r = Some p ∧
    submission_tx (acv_validator_address test_selected) 1600000000 p = Ok t ∧
    run (process_verified_proof_tx (C := alone_codecs) rd0 local_dev t) test_epoch_env =
      Some (resp_ok events, e').
Proof.
  destruct (honest_provider_rewarded (CL := alone_codecs_laws) (J := ref_tx_json) (T := ref_trie) rd0 local_dev 20
    test_alone test_opened test_opened test_selected test_issued test_capacity test_sk
    (λ _, Ok (Some test_sk)) 1600000000 1600000000 test_epoch_env test_exchange_params test_issued_ok
    test_honest_ok test_unsettled_ok eq_refl eq_refl eq_refl (λ _, mk_is_Some _ ([] : bytes) eq_refl)
    (issued_validator _ _ _ _ _ _ test_issued_ok) eq_refl)
    as (topic & r & p & t & ev & e' & H1 & H2 & _ & H3 & H4 & _).
  exists topic, r, p, t, ev, e'. split; [exact H1|]. split; [exact H2|]. split; [exact H3|exact H4].
Defined.

(** The same provider answers for one chunk where two were asked. *)
Definition test_partial_proofs : list ChunkProof :=
  match generate_capacity_proof test_sender [0%nat] test_slot_root test_capacity with
  | Some (Ok proofs) => proofs
  | _ => []
  end.
Definition test_partial : CapacityChallengeResponse :=
  let '(pk, sig) := default (EmptyString, EmptyString)
    (sign_capacity_challenge_response test_sk (ch_challenge_id test_issued) test_sender test_sender 20
       test_partial_proofs 1600000000) in
  mkCapacityChallengeResponse (ch_challenge_id test_issued) test_sender test_sender 20
    test_partial_proofs 1600000000 pk sig.

Lemma test_partial_valid :
  validate_challenge_proof (cr_proofs test_partial) test_slot_root
    (map chunk_index (cr_proofs test_partial)) = true.
Proof. vm_compute. reflexivity. Qed.

Lemma test_partial_signed :
  verify_capacity_challenge_response (cr_challenge_id test_partial) (cr_provider_id test_partial)
    (cr_challenger test_partial) (cr_block_height test_partial) (cr_proofs test_partial)
    (cr_generated_at test_partial) (cr_provider_pubkey test_partial)
    (cr_provider_signature test_partial) = Some tt.
Proof. vm_compute. reflexivity. Qed.

Lemma test_two_chunks b :
  validate_verified_proof_binding (opening_record local_dev 20 1 test_alone) test_sender test_sender
    (ch_challenge_id test_issued) 20 (blocks_per_epoch local_dev) (chunks_per_challenge local_dev)
    = Some b → length (expected_indices b) = 2%nat.
Proof.
  intros Hb. assert (match validate_verified_proof_binding (opening_record local_dev 20 1 test_alone)
    test_sender test_sender (ch_challenge_id test_issued) 20 (blocks_per_epoch local_dev)
    (chunks_per_challenge local_dev) with
    | Some b => length (expected_indices b) | None => 2%nat end = 2%nat) as Hl
    by (vm_compute; reflexivity).
  by rewrite Hb in Hl.
Qed.

Lemma test_partial_submission p :
  handle_capacity_challenge_response (Some (acv_validator_address test_selected)) (Some test_opened)
    test_partial = Some p →
  ∃ t, submission_tx (acv_validator_address test_selected) 1600000000 p = Ok t ∧
    vp_sender t = test_sender ∧ vp_capacity_provider t = test_sender ∧
    vp_challenge_id t = ch_challenge_id test_issued ∧ vp_block_height t = 20.
Proof.
  intros Hp. assert (match handle_capacity_challenge_response
    (Some (acv_validator_address test_selected)) (Some test_opened) test_partial with
    | Some p =>
        match submission_tx (acv_validator_address test_selected) 1600000000 p with
        | Ok t => (vp_sender t, vp_capacity_provider t, vp_challenge_id t, vp_block_height t) =
                  (test_sender, test_sender, ch_challenge_id test_issued, 20)
        | Err _ => False
        end
    | None => False
    end) as Ht by (vm_compute; reflexivity).
  rewrite Hp in Ht. destruct (submission_tx _ _ p) as [t|]; [|destruct Ht].
  apply pair_eq in Ht as [Ht H4]. apply pair_eq in Ht as [Ht H3]. apply pair_eq in Ht as [H1 H2].
  exists t. split; [reflexivity|]. split; [exact H1|]. split; [exact H2|]. split; [exact H3|exact H4].
Qed.

Lemma test_epoch_records record :
  get_epoch_record (C := alone_codecs) rd0 test_epoch_env 1 = Ok (Some record) →
  record = opening_record local_dev 20 1 test_alone.
Proof.
  intros Hr. assert (get_epoch_record (C := alone_codecs) rd0 test_epoch_env 1 =
    Ok (Some (opening_record local_dev 20 1 test_alone))) as Hr' by (vm_compute; reflexivity).
  rewrite Hr' in Hr. by injection Hr as ->.
Qed.

Lemma wrong_chunks_escape_failure_witness :
  ∃ p t, handle_capacity_challenge_response (Some (acv_validator_address test_selected))
      (Some test_opened) test_partial = Some p ∧ vs_failed p = false ∧
    submission_tx (acv_validator_address test_selected) 1600000000 p = Ok t ∧
    run (process_verified_proof_tx (C := alone_codecs) rd0 local_dev t) test_epoch_env =
      Some (response_deliver_tx_error_validation_failed, test_epoch_env).
Proof.
  destruct (wrong_chunks_escape_failure (CL := alone_codecs_laws) (J := ref_tx_json) rd0 local_dev
    test_opened test_selected test_slot_provider test_slot_root test_partial
    (issued_validator _ _ _ _ _ _ test_issued_ok)) as (p & Hp & Hf & Hrun);
    [vm_compute; reflexivity|vm_compute; reflexivity|reflexivity|exact test_partial_signed
    |exact test_partial_valid|].
  destruct (test_partial_submission p Hp) as (t & Ht & H1 & H2 & H3 & H4).
  exists p, t. split; [exact Hp|]. split; [exact Hf|]. split; [exact Ht|].
  apply (Hrun 1600000000 t test_epoch_env Ht test_epoch_env_wf); [split; vm_compute; discriminate|].
  rewrite H1, H2, H3, H4. intros epoch record b Hwin Hrec Hb Heq.
  vm_compute in Hwin. injection Hwin as <-. apply test_epoch_records in Hrec as ->.
  apply test_two_chunks in Hb. rewrite Heq in Hb. vm_compute in Hb. discriminate Hb.
Defined.

(** A wallet whose spent nonce is put back, and a retry of the same proof. *)
Definition test_wallet : Wallet := mkWallet test_sender test_sk.
Definition test_submission : VerifiedProofSubmission :=
  mkVerifiedProofSubmission (hex_with_prefix test_recipient) "aa" 20 [test_chunk] 1600000000 "aa" "bb"
    false.
Definition test_submitter : Submitter := mkSubmitter (Some (mkNonce 0)) ∅.

Definition test_built : Tx :=
  match build_signed_verified_proof_hex test_wallet (Some local_dev) "eld" 1600000000 test_submission
          (mkNonce 0) with
  | Ok (tx, _) => tx
  | Err _ => test_tx
  end.
Definition built_json : TxJson := {|
  tx_to_json _ := Some "{}";
  tx_from_json _ := Some test_built;
  response_to_json _ _ _ _ _ _ _ := Some [];
|}.
Definition no_value : SerdeJson := {| value_from_str _ := None; value_to_string _ := None |}.

Lemma built_wire : TxWire no_value built_json.
Proof. constructor. intros s v m fee tx Hv. discriminate Hv. Qed.

Lemma test_built_run :
  build_signed_verified_proof_hex (J := built_json) test_wallet (Some local_dev) "eld" 1600000000
    test_submission (mkNonce 0) = Ok (test_built, hex_encode (as_bytes "{}")).
Proof. vm_compute. reflexivity. Qed.

Lemma rejected_delivery_strands_submitter_witness :
  let submit := submit_verified_proof (J := built_json) (Ok (Some test_wallet)) in
  submit (Ok None) (Ok None) (λ _, Err (TransactionError "consensus")) (Some local_dev) "eld"
    1600000000 test_submission test_submitter =
    (Err (TransactionError "consensus"), test_submitter) ∧
  submit (Ok (Some (mkNonce 1))) (Ok (Some (mkNonce 1)))
    (λ _, Err (TransactionError "mempool_validation")) (Some local_dev) "eld" 1600000000
    test_submission test_submitter = (Err (TransactionError "mempool_validation"), test_submitter).
Proof.
  intros submit.
  destruct (rejected_delivery_strands_submitter (W := built_wire) rd0 local_dev "eld" test_wallet
    1600000000 (Ok None) (Ok None) (λ _, Err (TransactionError "consensus")) test_submission
    test_submitter (mkNonce 0) test_built (hex_encode (as_bytes "{}")) local_dev_wf eq_refl
    (not_elem_of_empty _) test_built_run (λ _ _, eq_refl) eq_refl) as (H1 & _ & H3).
  split; [exact H1|].
  apply (H3 test_head (mkNonce 0) _ _ _ 1600000000 test_submission test_built
    (hex_encode (as_bytes "{}"))); first [reflexivity | exact test_built_run | apply not_elem_of_empty].
Defined.
