(* ===== verification/Paging.v ===== *)
(** Listings read page by page: a listing is a strictly ordered list, a cursor
    is the key of an entry, and a page is the first entries after the cursor.
    Used for the lists of transactions, epochs and namespaces of the REST
    interface. *)
From S2P Require Import Prelude.

(** ** Filters *)

Lemma filter_none {A} (f : A → bool) l : (∀ x, x ∈ l → f x = false) → List.filter f l = [].
Proof.
  induction l as [|x l IH]; intros Hf; [done|]. cbn [List.filter]. rewrite (Hf x) by (by left).
  apply IH. intros y Hy. apply Hf. by right.
Qed.

Lemma filter_all {A} (p : A → bool) l : (∀ a, a ∈ l → p a = true) → List.filter p l = l.
Proof.
  induction l as [|a l IH]; intros Hp; [done|]. cbn [List.filter]. rewrite Hp by (by left).
  rewrite IH; [done|]. intros b Hb. apply Hp. by right.
Qed.

Lemma filter_comm {A} (p q : A → bool) l :
  List.filter p (List.filter q l) = List.filter q (List.filter p l).
Proof.
  induction l as [|a l IH]; [done|]. cbn [List.filter].
  destruct (p a) eqn:Ep, (q a) eqn:Eq; cbn [List.filter]; rewrite ?Ep, ?Eq, IH; done.
Qed.

Lemma filter_filter_absorb {A} (p q : A → bool) l :
  (∀ a, a ∈ l → p a = true → q a = true) → List.filter p (List.filter q l) = List.filter p l.
Proof.
  induction l as [|a l IH]; intros Hpq; [done|]. cbn [List.filter].
  assert (List.filter p (List.filter q l) = List.filter p l) as IH' by (apply IH; intros; apply Hpq; [by right|done]).
  destruct (q a) eqn:Eq; cbn [List.filter]; rewrite IH'; [done|].
  destruct (p a) eqn:Ep; [|done]. rewrite Hpq in Eq; [done|by left|done].
Qed.

Lemma filter_map_comm {A B} (f : A → B) (p : B → bool) l :
  List.filter p (f <$> l) = f <$> List.filter (λ a, p (f a)) l.
Proof.
  induction l as [|a l IH]; [done|]. rewrite fmap_cons. cbn [List.filter]. rewrite IH. by destruct (p (f a)).
Qed.

Lemma filter_sorted {A} (R : A → A → Prop) (p : A → bool) l :
  StronglySorted R l → StronglySorted R (List.filter p l).
Proof.
  induction 1 as [|a l Hl IH Ha]; [constructor|]. cbn [List.filter]. destruct (p a); [|done].
  constructor; [done|]. rewrite list.Forall_forall in Ha |- *. intros b Hb. apply Ha.
  apply list_elem_of_In, filter_In in Hb as [Hb _]. by apply list_elem_of_In.
Qed.

Lemma sorted_snoc {A} (R : A → A → Prop) l a :
  StronglySorted R l → Forall (λ b, R b a) l → StronglySorted R (l ++ [a]).
Proof.
  induction 1 as [|b l Hl IH Hb]; intros Ha; [by repeat constructor|]. inversion Ha; subst.
  cbn [app]. constructor; [by apply IH|]. apply Forall_app. split; [done|]. by repeat constructor.
Qed.

Lemma sorted_rev {A} (R : A → A → Prop) l : StronglySorted R l → StronglySorted (λ a b, R b a) (rev l).
Proof.
  induction 1 as [|a l Hl IH Ha]; [constructor|]. cbn [rev]. apply sorted_snoc; [done|].
  rewrite list.Forall_forall in *. intros b Hb. apply Ha. rewrite list_elem_of_In in *. by apply in_rev.
Qed.

Lemma StronglySorted_map {A K} (f : A → K) (R : A → A → Prop) (Q : K → K → Prop) l :
  (∀ a b, a ∈ l → b ∈ l → R a b → Q (f a) (f b)) → StronglySorted R l → StronglySorted Q (f <$> l).
Proof.
  intros HR Hs. induction Hs as [|a l Hl IH Ha]; [constructor|]. rewrite fmap_cons. constructor.
  - apply IH. intros x y Hx Hy. apply HR; by right.
  - apply Forall_fmap. rewrite list.Forall_forall in Ha |- *. intros b Hb.
    apply HR; [by left|by right|by apply Ha].
Qed.

(** One entry more than the page is fetched, to see whether more follow. *)
Lemma probe_page {A} (limit : Z) (rest : list A) :
  0 ≤ limit →
  let rows := take (S (Z.to_nat limit)) rest in
  (limit <? Z.of_nat (length rows)) = (Z.to_nat limit <? length rest)%nat ∧
  (if limit <? Z.of_nat (length rows) then take (Z.to_nat limit) rows else rows) = take (Z.to_nat limit) rest.
Proof.
  intros Hl rows. unfold rows. rewrite length_take.
  destruct (Nat.ltb_spec (Z.to_nat limit) (length rest)).
  - rewrite (proj2 (Z.ltb_lt _ _)) by lia. split; [done|]. by rewrite take_take, Nat.min_l by lia.
  - rewrite (proj2 (Z.ltb_ge _ _)) by lia. split; [done|]. by rewrite !take_ge by lia.
Qed.

(** ** Cursors *)

Section cursors.
Context {A C St : Type} (after : option C → A → bool) (key : A → C).

(** A client that asks for page after page, from the last entry it has; [page]
    answers with entries and whether more follow. *)
Fixpoint walk (fuel : nat) (page : option C → St → option (list A * bool * St)) (c : option C) (s : St) :
    option (list A) :=
  match fuel with
  | O => None
  | S fuel =>
      match page c s with
      | None => None
      | Some (rows, has_next, s) =>
          if has_next : bool then
            match list.last rows with
            | None => None
            | Some e => match walk fuel page (Some (key e)) s with
                        | None => None
                        | Some rest => Some (rows ++ rest)
                        end
            end
          else Some rows
      end
  end.

Definition precedes (a b : A) : Prop := after (Some (key a)) b = true.

Hypothesis after_self : ∀ a, after (Some (key a)) a = false.
Hypothesis after_trans : ∀ c a b, after c a = true → precedes a b → after c b = true.

(** In a strictly ordered list the entries after one of them follow it. *)
Lemma cursor_suffix l e r :
  StronglySorted precedes (l ++ e :: r) → List.filter (after (Some (key e))) (l ++ e :: r) = r.
Proof.
  intros Hs. assert (∀ x, x ∈ l ++ [e] → after (Some (key e)) x = false) as Hf.
  { intros x Hx. destruct (after (Some (key e)) x) eqn:E; [|done]. exfalso.
    assert (x = e ∨ precedes x e) as [->|Hb].
    { apply elem_of_app in Hx as [Hx| ->%list_elem_of_singleton]; [|by left]. right.
      apply (StronglySorted_app_1_elem_of precedes l (e :: r)); [done|done|by left]. }
    - by rewrite after_self in E.
    - pose proof (after_trans _ _ _ Hb E) as Hxx. by rewrite after_self in Hxx. }
  rewrite (app_assoc l [e] r : l ++ e :: r = _), List.filter_app, filter_none by done. cbn [app].
  apply filter_all. intros x Hx.
  apply (StronglySorted_app_1_r _ l) in Hs. apply StronglySorted_inv in Hs as [_ Hs].
  rewrite list.Forall_forall in Hs. by apply Hs.
Qed.

(** The last entry of a page is the cursor of what the page leaves. *)
Lemma cursor_advances M c n e :
  StronglySorted precedes M → (0 < n)%nat → List.filter (after c) M !! (n - 1)%nat = Some e →
  List.filter (after (Some (key e))) M = drop n (List.filter (after c) M) ∧
  list.last (take n (List.filter (after c) M)) = Some e.
Proof.
  intros Hs Hn He. set (rest := List.filter (after c) M) in *.
  assert (take n rest = take (n - 1) rest ++ [e]) as Ht.
  { replace n with (S (n - 1)) at 1 by lia. by apply take_S_r. }
  assert (rest = take (n - 1) rest ++ e :: drop n rest) as Hr.
  { rewrite <- (take_drop n rest) at 1. rewrite Ht, <- (assoc (++)). done. }
  split; [|rewrite Ht; apply last_snoc].
  assert (after c e = true) as Hoe.
  { assert (e ∈ rest) as Her by (by eapply list_elem_of_lookup_2).
    unfold rest in Her. rewrite list_elem_of_In, filter_In in Her. tauto. }
  assert (StronglySorted precedes rest) as Hsr by (by apply filter_sorted).
  rewrite Hr in Hsr. rewrite <- (cursor_suffix _ e _ Hsr), <- Hr. unfold rest. symmetry.
  apply filter_filter_absorb. intros x _ Hx. by eapply after_trans.
Qed.

(** Pages of [n] entries of a strictly ordered list, walked to the end, are the
    list. *)
Lemma walk_complete (I : St → Prop) (page : option C → St → option (list A * bool * St)) M n :
  StronglySorted precedes M → (0 < n)%nat →
  (∀ c s, I s → match c with Some k => ∃ e, e ∈ M ∧ k = key e | None => True end →
     let rest := List.filter (after c) M in
     ∃ s', page c s = Some (take n rest, (n <? length rest)%nat, s') ∧ I s') →
  ∀ fuel c s, I s → match c with Some k => ∃ e, e ∈ M ∧ k = key e | None => True end →
    (length (List.filter (after c) M) < fuel)%nat →
    walk fuel page c s = Some (List.filter (after c) M).
Proof.
  intros Hs Hn Hp. induction fuel as [|fuel IH]; intros c s Hi Hc Hf; [lia|]. cbn [walk].
  destruct (Hp c s Hi Hc) as (s' & -> & Hi'). set (rest := List.filter (after c) M) in *.
  destruct (Nat.ltb_spec n (length rest)) as [Hlt|Hge]; [|by rewrite take_ge by lia].
  destruct (lookup_lt_is_Some_2 rest (n - 1)) as [e He]; [lia|].
  destruct (cursor_advances M c n e Hs Hn He) as [Hd Hl]. fold rest in Hd, Hl. rewrite Hl.
  rewrite (IH (Some (key e)) s'), Hd; [by rewrite take_drop|done| |rewrite Hd, length_drop; lia].
  exists e. split; [|done]. assert (e ∈ rest) as Her by (by eapply list_elem_of_lookup_2).
  unfold rest in Her. rewrite list_elem_of_In, filter_In in Her. apply list_elem_of_In. tauto.
Qed.
End cursors.
