(* ===== verification/Prefix.v ===== *)
(** Listings of stored objects by path prefix: [validate_cado_prefix_security]
    of node_app/src/storage/rocksdb/cado/path.rs, the four queries of
    cado/prefix.rs, and the account count of
    abci_interface/info/account_count_query_processor.rs. *)
From S2P Require Import Prelude Externals Reference Coins Address Ordering Namespace Cado Records Tx Pinboard AppState Storage Feed Paging.

Definition MAX_PREFIX_LENGTH : nat := 256.

Definition PATH_PREFIX_ACCOUNT : string := "/@eld/account/".

(** [iter.map(f).collect::<Result<Vec<_>, _>>()] *)
Fixpoint map_results {A B} (f : A → eld_result B) (l : list A) : eld_result (list B) :=
  match l with
  | [] => Ok []
  | a :: l => let? b := f a in let? bs := map_results f l in Ok (b :: bs)
  end.

Definition validate_cado_prefix_security (prefix : string) : eld_result unit :=
  if (MAX_PREFIX_LENGTH <? String.length prefix)%nat then Err (ValidationError "cado_prefix_length")
  else if existsb (λ pattern, contains pattern (to_ascii_lowercase prefix)) [".."; "//"; "\"; "~"]
  then Err (ValidationError "cado_prefix_traversal")
  else if negb (starts_with "/" prefix) then Err (ValidationError "cado_prefix_format")
  else if has_forbidden_control prefix then Err (ValidationError "cado_prefix_control_chars")
  else if contains (String (ascii_of_N 0) EmptyString) prefix
  then Err (ValidationError "cado_prefix_null_bytes")
  else
    match List.filter (λ s, negb (String.eqb s EmptyString)) (split_on "/"%char prefix) with
    | scope :: _ =>
        if starts_with "@" scope && negb (str_in ALLOWED_SCOPES scope)
        then Err (ValidationError "cado_prefix_scope")
        else Ok tt
    | [] => Ok tt
    end.

Section prefix_queries.
Context {H : HexCrate} {HC : HashCrates} {BC : Bincode CadoBody}.

(** The paths of the index from [prefix] on, in byte order. *)
Definition paths_from (db : Database) (prefix : string) : list string :=
  seek prefix (sorted_keys (dom (path_index_cf db))).

(** The paths of the page are parsed as they are collected; a path that does
    not parse fails the query. *)
Definition get_cado_paths_by_prefix_secure (db : Database) (prefix : string)
    (options : PrefixQueryOptions) (now : Z) (rl : PrefixQueryRateLimiter) :
    eld_result (PaginatedResult CadoPath) * PrefixQueryRateLimiter :=
  match PrefixQueryOptions_validate options with
  | Err _ => (Err (ValidationError "prefix_query_options"), rl)
  | Ok _ =>
      rate_limited (pq_client_id options) prefix now rl
        (let '(found, total_processed) :=
           scan_page options (starts_with prefix) id (paths_from db prefix) 0 0 [] in
         let? paths := map_results CadoPath_parse found in
         let p := pq_pagination options in
         Ok (PaginatedResult_new paths (pg_page p) (pg_page_size p)
               (PaginationParams_offset p + length paths <? total_processed)%nat))
  end.

Definition get_cado_paths_by_prefix (db : Database) (prefix : string) (now : Z)
    (rl : PrefixQueryRateLimiter) : eld_result (list CadoPath) * PrefixQueryRateLimiter :=
  match validate_cado_prefix_security prefix with
  | Err e => (Err e, rl)
  | Ok _ =>
      let '(ok, rl) := is_allowed "default" prefix now rl in
      if negb ok then (Err (StorageError "rate_limit_check"), rl)
      else
        let '(result, rl) :=
          get_cado_paths_by_prefix_secure db prefix PrefixQueryOptions_default now rl in
        ((let? r := result in Ok (pr_items r)), rl)
  end.

(** The loop of [get_cados_by_prefix_secure]: the memory also counts the keys
    and the objects read, and a path without a row is skipped. *)
Fixpoint scan_cados (db : Database) (prefix : string) (o : PrefixQueryOptions)
    (rows : list string) (total_processed : nat) (estimated_memory_usage : Z)
    (results : list CadoBody) : eld_result (list CadoBody * nat) :=
  match rows with
  | [] => Ok (results, total_processed)
  | path :: rows =>
      if negb (starts_with prefix path) then Ok (results, total_processed)
      else
        let key := default EmptyString (path_index_cf db !! path) in
        let total_processed := S total_processed in
        let memory := estimated_memory_usage +
                      (Z.of_nat (String.length path) + Z.of_nat (String.length key)) in
        if pq_max_memory_bytes o <? memory then Ok (results, total_processed)
        else if (pq_max_results o <? total_processed)%nat then Ok (results, total_processed)
        else if (PaginationParams_offset (pq_pagination o) <? total_processed)%nat then
          if (length results <? pg_page_size (pq_pagination o))%nat then
            match cado_cf db !! key with
            | None => scan_cados db prefix o rows total_processed memory results
            | Some value =>
                let memory := memory + Z.of_nat (length value) in
                if pq_max_memory_bytes o <? memory then Ok (results, total_processed)
                else
                  match safe_deserialize_cado_data value with
                  | Err _ => Err (StorageError "deserialize_cado_type")
                  | Ok cado =>
                      scan_cados db prefix o rows total_processed memory (results ++ [cado])
                  end
            end
          else Ok (results, total_processed)
        else scan_cados db prefix o rows total_processed memory results
  end.

Definition get_cados_by_prefix_secure (db : Database) (prefix : string)
    (options : PrefixQueryOptions) (now : Z) (rl : PrefixQueryRateLimiter) :
    eld_result (PaginatedResult CadoBody) * PrefixQueryRateLimiter :=
  match PrefixQueryOptions_validate options with
  | Err _ => (Err (ValidationError "prefix_query_options"), rl)
  | Ok _ =>
      rate_limited (pq_client_id options) prefix now rl
        (let? r := scan_cados db prefix options (paths_from db prefix) 0 0 [] in
         let p := pq_pagination options in
         Ok (PaginatedResult_new r.1 (pg_page p) (pg_page_size p)
               (PaginationParams_offset p + length r.1 <? r.2)%nat))
  end.

Definition get_cados_by_prefix (db : Database) (prefix : string) (now : Z)
    (rl : PrefixQueryRateLimiter) : eld_result (list CadoBody) * PrefixQueryRateLimiter :=
  match validate_cado_prefix_security prefix with
  | Err e => (Err e, rl)
  | Ok _ =>
      let '(ok, rl) := is_allowed "default" prefix now rl in
      if negb ok then (Err (StorageError "rate_limit_check"), rl)
      else
        let '(result, rl) :=
          get_cados_by_prefix_secure db prefix PrefixQueryOptions_default now rl in
        ((let? r := result in Ok (pr_items r)), rl)
  end.

(** The number the account count query reports. *)
Definition process_account_count_query (db : Database) (now : Z) (rl : PrefixQueryRateLimiter) :
    eld_result nat * PrefixQueryRateLimiter :=
  let '(paths, rl) := get_cado_paths_by_prefix db PATH_PREFIX_ACCOUNT now rl in
  ((let? paths := paths in Ok (length paths)), rl).
End prefix_queries.

(** ** A prefix is an interval of the byte order *)

Lemma starts_with_bytes p s :
  starts_with p s = true → ∃ t, as_bytes s = as_bytes p ++ t.
Proof.
  unfold starts_with. revert s. induction p as [|c p IH]; intros s Hp; [by exists (as_bytes s)|].
  destruct s as [|d s]; [done|]. cbn [String.prefix] in Hp.
  destruct (ascii_dec c d) as [<-|]; [|done]. destruct (IH s Hp) as [t E]. exists t.
  unfold as_bytes in *. cbn. by rewrite E.
Qed.

Lemma bytes_starts_with p s t : as_bytes s = as_bytes p ++ t → starts_with p s = true.
Proof.
  unfold starts_with. revert s. induction p as [|c p IH]; intros s E; [by destruct s|].
  destruct s as [|d s]; [done|]. unfold as_bytes in E. cbn in E. injection E as E1 E2.
  assert (d = c) as -> by (by rewrite <- (ascii_of_byte_of_ascii d), E1, ascii_of_byte_of_ascii).
  cbn [String.prefix]. destruct (ascii_dec c c); [|done]. by apply IH.
Qed.

Lemma bytes_between p a b :
  bytes_compare a p ≠ Lt → bytes_compare a (p ++ b) ≠ Gt → ∃ t, a = p ++ t.
Proof.
  revert a b. induction p as [|x p IH]; intros a b H1 H2; [by exists a|].
  destruct a as [|y a]; [done|]. cbn [bytes_compare app] in H1, H2.
  destruct (N.compare_spec (Byte.to_N y) (Byte.to_N x)) as [E|E|E];
    [|by destruct H1|by destruct H2].
  destruct (IH a b H1 H2) as [t ->]. exists t. cbn. f_equal.
  pose proof (Byte.of_to_N y) as Ey. rewrite E, Byte.of_to_N in Ey. by injection Ey.
Qed.

(** Past the last path with a prefix there is no other. *)
Lemma prefix_interval p a b :
  key_compare a p ≠ Lt → cmp_le key_compare a b → starts_with p b = true → starts_with p a = true.
Proof.
  intros Ha Hab (t & Eb)%starts_with_bytes. unfold cmp_le, key_compare in *. rewrite Eb in Hab.
  destruct (bytes_between _ _ _ Ha Hab) as [u E]. by eapply bytes_starts_with.
Qed.

Lemma prefix_not_lt p a : starts_with p a = true → key_compare a p ≠ Lt.
Proof. intros (t & E)%starts_with_bytes. unfold key_compare. rewrite E. apply bytes_compare_prefix. Qed.

(** On keys not below the prefix, scanning while it holds finds every key with it. *)
Lemma accepted_interval p l :
  StronglySorted (cmp_le key_compare) l → Forall (λ b, key_compare b p ≠ Lt) l →
  accepted (starts_with p) l = List.filter (starts_with p) l.
Proof.
  induction 1 as [|b l Hl IH Hb]; intros Hge; [done|]. cbn [accepted List.filter].
  inversion Hge as [|? ? Hgeb Hge']; subst. destruct (starts_with p b) eqn:Eb; [by rewrite IH|].
  symmetry. apply filter_none. intros c Hc. destruct (starts_with p c) eqn:Ec; [|done].
  rewrite list.Forall_forall in Hb. by rewrite (prefix_interval p b c Hgeb (Hb c Hc) Ec) in Eb.
Qed.

Lemma above_trans p a b : key_compare a p ≠ Lt → cmp_le key_compare a b → key_compare b p ≠ Lt.
Proof.
  intros Hap Hab Hlt. assert (cmp_le key_compare b p) as Hbp by (unfold cmp_le; congruence).
  pose proof (cmp_le_trans key_compare a b p Hab Hbp) as Hle. unfold cmp_le in Hle.
  destruct (key_compare a p) eqn:Eap; [|done..]. apply cmp_eq in Eap as ->.
  apply Hab. rewrite (cmp_antisym (cmp := key_compare) b p), Hlt. done.
Qed.

(** Seeking a key with a prefix and scanning while the prefix holds finds
    every key with it that is not below. *)
Lemma scan_interval_from p lower l :
  starts_with p lower = true → StronglySorted (cmp_le key_compare) l →
  accepted (starts_with p) (seek lower l) =
  List.filter (λ k, starts_with p k && match key_compare k lower with Lt => false | _ => true end) l.
Proof.
  intros Hlow. induction 1 as [|a l Hl IH Ha]; [done|]. cbn [seek].
  destruct (key_compare a lower) eqn:Eal; cbn [List.filter]; rewrite Eal; cbn match.
  2:{ rewrite andb_false_r. exact IH. }
  all: assert (key_compare a lower ≠ Lt) as Hal by congruence.
  all: assert (StronglySorted (cmp_le key_compare) (a :: l)) as Hs by (by constructor).
  all: assert (Forall (λ b, key_compare b lower ≠ Lt) (a :: l)) as Hge
    by (constructor; [done|]; eapply list.Forall_impl; [exact Ha|]; intros b; by apply above_trans).
  all: rewrite accepted_interval; [|exact Hs|].
  all: try (eapply list.Forall_impl; [exact Hge|]; intros b Hb; apply (above_trans _ lower);
    [by apply prefix_not_lt|]; unfold cmp_le; rewrite (cmp_antisym (cmp := key_compare) b lower);
    destruct (key_compare b lower) eqn:?; done).
  all: cbn [List.filter]; rewrite andb_true_r; inversion Hge as [|? ? _ Hge']; subst;
    rewrite list.Forall_forall in Hge';
    rewrite (filter_ext_in _ (λ k, starts_with p k && match key_compare k lower with Lt => false | _ => true end) l);
    [done|]; intros k Hk%list_elem_of_In; specialize (Hge' k Hk);
    destruct (key_compare k lower) eqn:?; by rewrite ?andb_true_r.
Qed.

(** Seeking a prefix and scanning while it holds finds every path with it. *)
Lemma scan_interval p l :
  StronglySorted (cmp_le key_compare) l →
  accepted (starts_with p) (seek p l) = List.filter (starts_with p) l.
Proof.
  intros Hs. rewrite scan_interval_from; [|by apply (bytes_starts_with p p []); rewrite app_nil_r|done].
  apply filter_ext. intros k. destruct (starts_with p k) eqn:E; [|done]. apply prefix_not_lt in E.
  destruct (key_compare k p) eqn:?; done.
Qed.

(** ** The page of a query *)

Lemma accepted_take f n keys : accepted f (take n keys) = take n (accepted f keys).
Proof.
  revert n. induction keys as [|k keys IH]; intros [|n]; [done..|]. cbn [take accepted].
  destruct (f k); [|done]. cbn [take]. by rewrite IH.
Qed.

(** A scan looks at no more than the keys of the pages so far and one more. *)
Lemma scan_page_take o accepts id_of keys total mem items :
  let offset := PaginationParams_offset (pq_pagination o) in
  let size := pg_page_size (pq_pagination o) in
  length items = (total - offset)%nat → (total ≤ offset + size)%nat →
  scan_page o accepts id_of (take (S (offset + size) - total) keys) total mem items =
  scan_page o accepts id_of keys total mem items.
Proof.
  intros offset size. revert total mem items.
  induction keys as [|k keys IH]; intros total mem items Hi Hs; [by rewrite take_nil|].
  replace (S (offset + size) - total)%nat with (S (S (offset + size) - S total)) by lia.
  cbn [take scan_page]. fold offset size. destruct (accepts k); [|done]. cbn [negb].
  destruct (_ <? _); [done|]. destruct (_ <? _)%nat; [done|].
  destruct (Nat.ltb_spec offset (S total)) as [Hin|Hout].
  - destruct (Nat.ltb_spec (length items) size) as [Hroom|Hfull]; [|done].
    apply IH; rewrite ?length_app; cbn [length]; lia.
  - apply IH; lia.
Qed.

Lemma memory_bound n keys :
  Forall (λ k, (String.length k ≤ n)%nat) keys → memory_of keys ≤ Z.of_nat n * Z.of_nat (length keys).
Proof. induction 1; cbn [memory_of foldr length]; [lia|]. fold (memory_of l). lia. Qed.

Lemma accepted_incl f keys k : k ∈ accepted f keys → k ∈ keys.
Proof.
  induction keys as [|x keys IH]; [done|]. cbn [accepted]. destruct (f x); [|by intros ?%not_elem_of_nil].
  intros [->|Hk]%elem_of_cons; [by left|right; by apply IH].
Qed.

Lemma seek_incl p keys k : k ∈ seek p keys → k ∈ keys.
Proof.
  induction keys as [|x keys IH]; [done|]. cbn [seek]. destruct (key_compare x p); [done| |done].
  intros Hk. right. by apply IH.
Qed.

Lemma map_results_Ok {A B C} (f : A → eld_result B) (g : C → A) (h : C → B) l :
  Forall (λ c, f (g c) = Ok (h c)) l → map_results f (g <$> l) = Ok (h <$> l).
Proof. induction 1 as [|c l Hc Hl IH]; [done|]. rewrite fmap_cons. cbn [map_results]. by rewrite Hc, IH. Qed.

Section prefix_laws.
Context {H : HexCrate} {HL : HexLaws H}.

(** Every indexed path is one of the chain's own. *)
Definition eld_indexed (db : Database) : Prop :=
  ∀ k, k ∈ dom (path_index_cf db) → ∃ t name, name_ok t name ∧ k = cp_path (eld_path t name).

(** The indexed paths with a prefix, in byte order. *)
Definition paths_with (db : Database) (prefix : string) : list string :=
  List.filter (starts_with prefix) (sorted_keys (dom (path_index_cf db))).

Lemma sorted_keys_in cf k : k ∈ sorted_keys cf ↔ k ∈ cf.
Proof. unfold sorted_keys. rewrite sort_by_perm. apply elem_of_elements. Qed.

Lemma paths_with_in db prefix k :
  k ∈ paths_with db prefix ↔ k ∈ dom (path_index_cf db) ∧ starts_with prefix k = true.
Proof. unfold paths_with. rewrite list_elem_of_In, filter_In, <- list_elem_of_In, sorted_keys_in. done. Qed.

Lemma eld_path_length t name : name_ok t name → (String.length (cp_path (eld_path t name)) ≤ 512)%nat.
Proof.
  intros Hn. pose proof (eld_path_checked t name Hn) as Hc. revert Hc.
  unfold validate_cado_path_internal. destruct (Nat.ltb_spec MAX_PATH_LENGTH
    (String.length (cp_path (eld_path t name)))) as [|Hle]; [done|]. intros _. exact Hle.
Qed.

Lemma scan_prefix db prefix :
  eld_indexed db →
  scan_page PrefixQueryOptions_default (starts_with prefix) id (paths_from db prefix) 0 0 [] =
    (take 100 (paths_with db prefix), Nat.min (length (paths_with db prefix)) 101).
Proof.
  intros Hix. pose proof (scan_page_take PrefixQueryOptions_default (starts_with prefix) id
    (paths_from db prefix) 0 0 [] eq_refl (Nat.le_0_l _)) as Ht.
  change (PaginationParams_offset (pq_pagination PrefixQueryOptions_default)) with 0%nat in Ht.
  change (S (0 + pg_page_size (pq_pagination PrefixQueryOptions_default)) - 0)%nat with 101%nat in Ht.
  rewrite <- Ht. clear Ht. rewrite scan_page_spec; [| |simpl; lia..].
  - change (PaginationParams_offset (pq_pagination PrefixQueryOptions_default)) with 0%nat.
    change (pg_page_size (pq_pagination PrefixQueryOptions_default)) with 100%nat.
    change (pq_max_results PrefixQueryOptions_default) with 1000%nat.
    rewrite accepted_take. unfold paths_from.
    rewrite scan_interval by (apply sort_by_sorted; apply _). fold (paths_with db prefix).
    cbn [app length]. rewrite !Nat.sub_0_r, drop_0, !take_take, list_fmap_id, length_take.
    f_equal. lia.
  - rewrite Z.add_0_l. etransitivity.
    + apply (memory_bound 512). apply list.Forall_forall. intros k Hk.
      apply accepted_incl in Hk. assert (k ∈ paths_from db prefix) as Hp.
      { rewrite <- (take_drop 101 (paths_from db prefix)). apply elem_of_app. by left. }
      apply seek_incl, sorted_keys_in in Hp. destruct (Hix k Hp) as (t & name & Hn & ->).
      by apply eld_path_length.
    + rewrite accepted_take, length_take. cbn [pq_max_memory_bytes PrefixQueryOptions_default]. lia.
Qed.

(** What the limiter decides on a query: it is asked for the client "default"
    and then for the client "unknown". *)
Definition prefix_allowed (prefix : string) (now : Z) (rl : PrefixQueryRateLimiter) : bool :=
  let '(ok, rl) := is_allowed "default" prefix now rl in ok && (is_allowed "unknown" prefix now rl).1.

Definition prefix_counted (prefix : string) (now : Z) (rl : PrefixQueryRateLimiter) :
    PrefixQueryRateLimiter :=
  let '(ok, rl) := is_allowed "default" prefix now rl in
  if ok then (is_allowed "unknown" prefix now rl).2 else rl.

(** Paths as types and names. *)
Definition row_path (r : CadoType * string) : CadoPath := eld_path r.1 r.2.
Definition row_ok (r : CadoType * string) : Prop := name_ok r.1 r.2.

Lemma path_rows l :
  (∀ k, k ∈ l → ∃ t name, name_ok t name ∧ k = cp_path (eld_path t name)) →
  ∃ rows, Forall row_ok rows ∧ l = (λ r, cp_path (row_path r)) <$> rows.
Proof.
  induction l as [|k l IH]; intros Hl; [by exists []|].
  destruct (Hl k ltac:(by left)) as (t & name & Hn & ->).
  destruct IH as (rows & Hr & ->); [intros x Hx; apply Hl; by right|].
  exists ((t, name) :: rows). split; [by constructor|done].
Qed.

Lemma paths_by_prefix_run db prefix now rl :
  eld_indexed db → validate_cado_prefix_security prefix = Ok tt →
  ∃ rows, Forall row_ok rows ∧ (λ r, cp_path (row_path r)) <$> rows = take 100 (paths_with db prefix) ∧
  get_cado_paths_by_prefix db prefix now rl =
    (if prefix_allowed prefix now rl then Ok (row_path <$> rows)
     else Err (StorageError (if (is_allowed "default" prefix now rl).1
                             then "rate_limited_query" else "rate_limit_check")),
     prefix_counted prefix now rl).
Proof.
  intros Hix Hv. destruct (path_rows (take 100 (paths_with db prefix))) as (rows & Hr & Er).
  { intros k Hk. apply Hix. apply (paths_with_in db prefix).
    rewrite <- (take_drop 100 (paths_with db prefix)). apply elem_of_app. by left. }
  exists rows. split; [done|]. split; [done|].
  unfold get_cado_paths_by_prefix, prefix_allowed, prefix_counted. rewrite Hv.
  destruct (is_allowed "default" prefix now rl) as [[] rl1]; cbn [negb andb fst]; [|done].
  unfold get_cado_paths_by_prefix_secure, rate_limited.
  change (PrefixQueryOptions_validate PrefixQueryOptions_default) with (@Ok EldError _ tt). cbv iota.
  cbn [pq_client_id PrefixQueryOptions_default].
  destruct (is_allowed "unknown" prefix now rl1) as [[] rl2]; cbn [fst snd]; [|done].
  fold PrefixQueryOptions_default. rewrite (scan_prefix db prefix Hix), Er.
  rewrite (map_results_Ok _ _ row_path); [done|]. eapply list.Forall_impl; [exact Hr|].
  intros [t name] Hn. by apply CadoPath_parse_eld.
Qed.

Lemma account_prefix_ok : validate_cado_prefix_security PATH_PREFIX_ACCOUNT = Ok tt.
Proof. reflexivity. Qed.

(** The account count query reports the number of accounts only up to one
    hundred, the size of the default page of a prefix query: beyond it every
    further account leaves the count as it is. *)
Theorem account_count_capped (db : Database) (now : Z) (rl : PrefixQueryRateLimiter) :
  eld_indexed db → prefix_allowed PATH_PREFIX_ACCOUNT now rl = true →
  (process_account_count_query db now rl).1 =
    Ok (Nat.min 100 (length (paths_with db PATH_PREFIX_ACCOUNT))).
Proof.
  intros Hix Ha. unfold process_account_count_query.
  destruct (paths_by_prefix_run db PATH_PREFIX_ACCOUNT now rl Hix account_prefix_ok)
    as (rows & _ & Er & ->). rewrite Ha. cbn [fst]. f_equal.
  rewrite length_fmap, <- (length_fmap (λ r, cp_path (row_path r)) rows), Er, length_take. done.
Qed.
End prefix_laws.
