(* ===== verification/StateSync.v ===== *)
(** Chunked snapshots and state sync: abci_interface/snapshot (manager.rs,
    connection.rs, codec.rs), storage/rocksdb/snapshots.rs, [put_cado_data] of
    storage/rocksdb/cado/put.rs, and the snapshot types of storage/traits.rs.

    The lz4 crate is a parameter; free disk space and the clock are arguments. *)
From S2P Require Import Prelude F64 Externals Reference Coins Address Ordering Namespace Cado Records Tx Pinboard AppState Ledger Storage Snapshot Commit Feed Prefix.

(** ** Records *)

Record SnapshotMetadata : Type := mkSnapshotMetadata {
  sm_height : Z;
  sm_epoch : Z;
  sm_format_version : Z;
  sm_chunk_count : Z;
  sm_total_size : Z;
  sm_compression : string;
  sm_created_at : Z;
  sm_app_hash : byte_array 32;
  sm_accounts_count : Z;
  sm_staking_accounts_count : Z;
  sm_storage_staking_accounts_count : Z;
  sm_namespaces_count : Z;
  sm_chunk_hashes : list string;
}.

Record SnapshotStateCounts : Type := mkSnapshotStateCounts {
  accounts_count : Z;
  staking_accounts_count : Z;
  storage_staking_accounts_count : Z;
  namespaces_count : Z;
}.

Record SnapshotChunk : Type := mkSnapshotChunk {
  chunk_index : Z;
  chunk_data : bytes;
  chunk_hash : string;
  chunk_size : Z;
}.

Record AbciSnapshot : Type := mkAbciSnapshot {
  abci_version : Z;
  abci_app_state_snapshot : AppStateSnapshot;
}.

Record CADOMap : Type := mkCADOMap {
  map_from : string;
  map_to : string;
}.

(** ** The lz4 crate and the encodings *)

Class Lz4Crate : Type := {
  compress : bytes → option bytes;
  decompress : bytes → option bytes;
}.

(** [compress(_, None, true)] writes the size in front, and [decompress(_,
    None)] reads it. *)
Class Lz4Laws (L : Lz4Crate) : Prop := {
  decompress_compress b c : compress b = Some c → decompress c = Some b;
}.

Class StateSyncCodecs : Type := {
  metadata_codec :: Bincode SnapshotMetadata;
  chunk_codec :: Bincode SnapshotChunk;
  abci_codec :: Bincode AbciSnapshot;
  map_codec :: Bincode CADOMap;
}.

Class StateSyncCodecsLaws (C : StateSyncCodecs) : Prop := {
  metadata_laws :: BincodeLaws SnapshotMetadata (λ _, True);
  chunk_laws :: BincodeLaws SnapshotChunk (λ _, True);
  abci_laws :: BincodeLaws AbciSnapshot (λ _, True);
}.

(** ** codec.rs *)

Definition SNAPSHOT_FORMAT_VERSION : Z := 2.

Definition AbciSnapshot_new (s : AppStateSnapshot) : AbciSnapshot :=
  mkAbciSnapshot SNAPSHOT_FORMAT_VERSION s.

Definition serialize_abci_snapshot {C : StateSyncCodecs} (s : AbciSnapshot) : eld_result bytes :=
  ok_or (bin_serialize s) (StorageError "serialize_abci_snapshot").

(** [AppStateSnapshot::state_counts] *)
Definition state_counts (s : AppStateSnapshot) : SnapshotStateCounts :=
  foldr (λ '(_, cado) c,
    let type_ := meta_type (CadoBody_metadata cado) in
    if String.eqb type_ "account" then
      mkSnapshotStateCounts (accounts_count c + 1) (staking_accounts_count c)
        (storage_staking_accounts_count c) (namespaces_count c)
    else if String.eqb type_ "staking_account" then
      mkSnapshotStateCounts (accounts_count c) (staking_accounts_count c + 1)
        (storage_staking_accounts_count c) (namespaces_count c)
    else if String.eqb type_ "storage_staking_account" then
      mkSnapshotStateCounts (accounts_count c) (staking_accounts_count c)
        (storage_staking_accounts_count c + 1) (namespaces_count c)
    else if String.eqb type_ "namespace" then
      mkSnapshotStateCounts (accounts_count c) (staking_accounts_count c)
        (storage_staking_accounts_count c) (namespaces_count c + 1)
    else c)
    (mkSnapshotStateCounts 0 0 0 0) (map_to_list (snap_committed_cado_cache s)).

(** [data.chunks(size)]; the length of the data is enough fuel. *)
Fixpoint chunks_of (fuel : nat) (size : Z) (data : bytes) : list bytes :=
  match fuel, data with
  | S fuel, _ :: _ =>
      if Z.of_nat (length data) <=? size then [data]
      else take (Z.to_nat size) data :: chunks_of fuel size (drop (Z.to_nat size) data)
  | _, _ => []
  end.

(** [n as u32] *)
Definition as_u32 (n : Z) : Z := n mod 2 ^ 32.

(** [x as u64] *)
Definition f64_to_u64 (x : f64) : Z := Z.min u64_max (f64_to_u128 x).

Section state_sync.
Context {H : HexCrate} {HC : HashCrates} {R : RecordCodecs} {SC : SnapshotCodecs}
  {C : StateSyncCodecs} {Z4 : Lz4Crate}.

(** ** [put_cado_data] *)

(** The first version of a mutable object: an empty account of its name. *)
Definition original_data (path : CadoPath) : eld_result bytes :=
  let? address := parse_hex_str (cp_name path) in
  if String.eqb (cp_type path) "account"
  then Account_serialize_bin (mkAccount address Coin_zero (mkNonce Nonce_ZERO))
  else StakingAccount_serialize_bin (mkStakingAccount address Coin_zero address).

(** Rows of the version a mutable object had are dropped. *)
Definition drop_existing (path : CadoPath) (key : string) (db : Database) : eld_result Database :=
  match cado_cf db !! key with
  | None => Ok db
  | Some existing_value =>
      let? existing := ok_or (bin_deserialize existing_value) (StorageError "deserialize_cado_type") in
      match existing with
      | Immutable _ => Ok db
      | Mutable m =>
          match generate path (Mutable m) with
          | Err _ => Err (StorageError "generate_old_keys")
          | Ok old_keys =>
              match latest_key old_keys with
              | None => Ok db
              | Some old => Ok (set_cado_map_cf (delete old (cado_map_cf db))
                                  (set_cado_cf (delete old (cado_cf db)) db))
              end
          end
      end
  end.

Definition put_latest (keys : CADOKeys) (value : bytes) (db : Database) : eld_result Database :=
  match latest_key keys with
  | None => Ok db
  | Some latest =>
      let? map_value := ok_or (bin_serialize (mkCADOMap latest (original_key keys)))
                          (StorageError "serialize_map") in
      Ok (set_cado_map_cf (<[latest := map_value]> (cado_map_cf db))
            (set_cado_cf (<[latest := value]> (cado_cf db)) db))
  end.

(** The row of an object and its entry in the index. *)
Definition write_row (path key : string) (value : bytes) (db : Database) : Database :=
  set_path_index_cf (<[path := key]> (path_index_cf db))
    (set_cado_cf (<[key := value]> (cado_cf db)) db).

Definition put_cado_data (path : CadoPath) (data : bytes) (metadata : CADOMetadata) (db : Database) :
    eld_result Database :=
  let? _ := validate_cado_path_internal path in
  if String.eqb (cp_type path) "account" || String.eqb (cp_type path) "staking_account" then
    let? _ := validate_hex (cp_name path) 20 "address" in
    let? original := original_data path in
    let cado := CadoBody_mutable_updated (sha256 original) data
                  (CADOMetadata_with_owner metadata (cp_name path)) in
    let? keys := generate path cado in
    let? value := ok_or (bin_serialize cado) (StorageError "serialize_cado_type") in
    let? db := drop_existing path (original_key keys) db in
    let? db := put_latest keys value
                 (set_cado_cf (<[original_key keys := value]> (cado_cf db)) db) in
    Ok (set_path_index_cf (<[cp_path path := original_key keys]> (path_index_cf db)) db)
  else
    let cado := CadoBody_immutable data metadata in
    let? keys := generate path cado in
    let? value := ok_or (bin_serialize cado) (StorageError "serialize_cado_type") in
    Ok (write_row (cp_path path) (original_key keys) value db).

(** ** storage/rocksdb/snapshots.rs *)

Definition snapshot_metadata_id (height : Z) : string :=
  String.append "0x" (hex_encode (sha256 (as_bytes (to_string_i64 height)))).

Definition snapshot_chunk_id (height index : Z) : string :=
  String.append "0x" (hex_encode (sha256 (as_bytes
    (String.append (to_string_i64 height) (String "_" (to_string index)))))).

Definition put_snapshot_metadata (metadata : SnapshotMetadata) (db : Database) : eld_result Database :=
  let? path := CadoPath_new Cado_SnapshotMetadata (Key_Name (snapshot_metadata_id (sm_height metadata))) in
  let? data := ok_or (bin_serialize metadata) (StorageError "serialize_snapshot_metadata") in
  put_cado_data path data (CADOMetadata_new Cado_SnapshotMetadata "system") db.

Definition get_snapshot_metadata (db : Database) (height : Z) : eld_result (option SnapshotMetadata) :=
  let? path := CadoPath_new Cado_SnapshotMetadata (Key_Name (snapshot_metadata_id height)) in
  get_deserialized_cado_by_path db path.

Definition put_snapshot_chunk (height : Z) (chunk : SnapshotChunk) (db : Database) : eld_result Database :=
  let? path := CadoPath_new Cado_SnapshotChunk (Key_Name (snapshot_chunk_id height (chunk_index chunk))) in
  let? data := ok_or (bin_serialize chunk) (StorageError "serialize_snapshot_chunk") in
  put_cado_data path data (CADOMetadata_new Cado_SnapshotChunk "system") db.

Definition get_snapshot_chunk (db : Database) (height index : Z) : eld_result (option SnapshotChunk) :=
  let? path := CadoPath_new Cado_SnapshotChunk (Key_Name (snapshot_chunk_id height index)) in
  get_deserialized_cado_by_path db path.

(** [system_delete_cado] outside a transaction. *)
Definition system_delete_cado (path : CadoPath) (owner : string) (db : Database) : eld_result Database :=
  let? keys := prepare_system_cado_deletion db path owner in
  delete_cado_associated_keys_with_tx path keys db.

Definition delete_snapshot_chunk (height index : Z) (db : Database) : eld_result Database :=
  let? path := CadoPath_new Cado_SnapshotChunk (Key_Name (snapshot_chunk_id height index)) in
  system_delete_cado path "system" db.

Definition delete_snapshot_metadata (height : Z) (db : Database) : eld_result Database :=
  let? path := CadoPath_new Cado_SnapshotMetadata (Key_Name (snapshot_metadata_id height)) in
  system_delete_cado path "system" db.

Definition PATH_PREFIX_SNAPSHOT_METADATA : string := "/@eld/snapshot_metadata/".

(** The loop of [get_latest_snapshot_metadata]; unreadable rows are skipped. *)
Definition later_snapshot (db : Database) (best : option SnapshotMetadata * Z) (path : CadoPath) :
    option SnapshotMetadata * Z :=
  match get_deserialized_cado_by_path (A := SnapshotMetadata) db path with
  | Ok (Some m) => if best.2 <? sm_height m then (Some m, sm_height m) else best
  | _ => best
  end.

Definition get_latest_snapshot_metadata (db : Database) (now : Z) (rl : PrefixQueryRateLimiter) :
    eld_result (option SnapshotMetadata) * PrefixQueryRateLimiter :=
  let '(paths, rl) := get_cado_paths_by_prefix db PATH_PREFIX_SNAPSHOT_METADATA now rl in
  ((let? paths := paths in Ok (foldl (later_snapshot db) (None, i64_min) paths).1), rl).

(** The loop of [list_snapshots]: it stops once [limit] are collected. *)
Fixpoint collect_snapshots (db : Database) (limit : Z) (paths : list CadoPath)
    (snapshots : list SnapshotMetadata) : list SnapshotMetadata :=
  match paths with
  | [] => snapshots
  | path :: paths =>
      let snapshots :=
        match get_deserialized_cado_by_path db path with
        | Ok (Some m) => snapshots ++ [m]
        | _ => snapshots
        end in
      if limit <=? Z.of_nat (length snapshots) then snapshots
      else collect_snapshots db limit paths snapshots
  end.

Definition list_snapshots (db : Database) (limit now : Z) (rl : PrefixQueryRateLimiter) :
    eld_result (list SnapshotMetadata) * PrefixQueryRateLimiter :=
  let '(paths, rl) := get_cado_paths_by_prefix db PATH_PREFIX_SNAPSHOT_METADATA now rl in
  ((let? paths := paths in
    Ok (sort_by (λ a b, Z.compare (sm_height b) (sm_height a)) (collect_snapshots db limit paths []))),
   rl).

(** ** manager.rs *)

Definition CHUNK_SIZE : Z := 10000000.

(** The compressed chunks with the hashes of the originals. *)
Fixpoint compress_chunks (chunks : list bytes) : eld_result (list (bytes * string)) :=
  match chunks with
  | [] => Ok []
  | chunk :: chunks =>
      let? compressed := ok_or (compress chunk) (StorageError "compress_chunk") in
      let? rest := compress_chunks chunks in
      Ok ((compressed, hex_encode (sha256 chunk)) :: rest)
  end.

Definition new_metadata (height : Z) (app_hash : byte_array 32) (counts : SnapshotStateCounts)
    (created_at : Z) (compressed : list (bytes * string)) : SnapshotMetadata :=
  mkSnapshotMetadata height (wrap_u64 (Z.quot height 100)) 1
    (as_u32 (Z.of_nat (length compressed)))
    (foldr (λ c n, Z.of_nat (length c.1) + n) 0 compressed) "lz4" created_at app_hash
    (accounts_count counts) (staking_accounts_count counts) (storage_staking_accounts_count counts)
    (namespaces_count counts) compressed.*2.

Definition new_chunk (i : nat) (c : bytes * string) : SnapshotChunk :=
  mkSnapshotChunk (as_u32 (Z.of_nat i)) c.1 c.2 CHUNK_SIZE.

(** The chunks stored so far stay when one fails. *)
Fixpoint put_snapshot_chunks (height : Z) (chunks : list SnapshotChunk) (db : Database) :
    eld_result unit * Database :=
  match chunks with
  | [] => (Ok tt, db)
  | chunk :: chunks =>
      match put_snapshot_chunk height chunk db with
      | Err e => (Err e, db)
      | Ok db => put_snapshot_chunks height chunks db
      end
  end.

Definition create_snapshot_with_app_hash (height : Z) (data : bytes) (app_hash : byte_array 32)
    (counts : SnapshotStateCounts) (created_at : Z) (db : Database) : eld_result unit * Database :=
  match compress_chunks (chunks_of (length data) CHUNK_SIZE data) with
  | Err e => (Err e, db)
  | Ok compressed =>
      match put_snapshot_metadata (new_metadata height app_hash counts created_at compressed) db with
      | Err e => (Err e, db)
      | Ok db => put_snapshot_chunks height (imap new_chunk compressed) db
      end
  end.

Definition create_snapshot_from_latest_state (height created_at : Z) (db : Database) :
    eld_result unit * Database :=
  match
    let? tip_path := CadoPath_new Cado_AppStateTip (Key_Name LATEST) in
    let? tip := get_deserialized_cado_by_path (A := AppStateTip) db tip_path in
    let? tip := ok_or tip (NotFoundError "CADO" (cp_path tip_path)) in
    if negb (tip_block_height tip =? height)
    then Err (ValidationError "app_state_tip.block_height") else
    let? snapshot_path := AppStateSnapshot_latest_path in
    let? snapshot := get_deserialized_cado_by_path (A := AppStateSnapshot) db snapshot_path in
    let? snapshot := ok_or snapshot (NotFoundError "CADO" (cp_path snapshot_path)) in
    if negb (snap_block_height snapshot =? height)
    then Err (ValidationError "app_state_snapshot.block_height")
    else if negb (bool_decide (snap_app_hash snapshot = tip_app_hash tip))
    then Err (ValidationError "app_state_snapshot.app_hash")
    else if negb (bool_decide (snap_state_trie_root snapshot = tip_cado_root_hash tip))
    then Err (ValidationError "app_state_snapshot.state_trie_root")
    else
      let? payload := serialize_abci_snapshot (AbciSnapshot_new snapshot) in
      Ok (snapshot, payload)
  with
  | Err e => (Err e, db)
  | Ok (snapshot, payload) =>
      create_snapshot_with_app_hash height payload (snap_app_hash snapshot) (state_counts snapshot)
        created_at db
  end.

(** ** connection.rs *)

(** [abci::types::Snapshot] *)
Record OfferedSnapshot : Type := mkOfferedSnapshot {
  off_height : Z;
  off_format : Z;
  off_chunks : Z;
  off_hash : bytes;
}.

Inductive OfferSnapshotResult : Type :=
| Offer_Accept
| Offer_Abort
| Offer_Reject
| Offer_RejectFormat.

Inductive ApplySnapshotChunkResult : Type :=
| Apply_Unknown
| Apply_Accept.

(** [available] is what [get_available_space] answered. *)
Definition has_capacity_for (available : eld_result Z) (size : Z) : bool :=
  let safety_factor := f64_div (f64_of_Z 12) (f64_of_Z 10) in
  let required_space := f64_to_u64 (f64_mul (f64_of_Z size) safety_factor) in
  match available with
  | Ok available => required_space <? available
  | Err _ => false
  end.

Definition abci_list_snapshots (db : Database) (now : Z) (rl : PrefixQueryRateLimiter) :
    list OfferedSnapshot * PrefixQueryRateLimiter :=
  let '(listed, rl) := list_snapshots db 100 now rl in
  (match listed with
   | Ok snapshots =>
       (λ s, mkOfferedSnapshot (wrap_u64 (sm_height s)) (sm_format_version s) (sm_chunk_count s)
               (sm_app_hash s)) <$> snapshots
   | Err _ => []
   end, rl).

Definition load_snapshot_chunk (db : Database) (height index : Z) : bytes :=
  match get_snapshot_chunk db (wrap_i64 height) index with
  | Ok (Some chunk) => chunk_data chunk
  | _ => []
  end.

Definition offer_snapshot (db : Database) (available : eld_result Z) (snapshot : option OfferedSnapshot)
    (app_hash : bytes) : OfferSnapshotResult :=
  match snapshot with
  | None => Offer_Reject
  | Some offered =>
      match get_snapshot_metadata db (wrap_i64 (off_height offered)) with
      | Ok (Some _) => Offer_Reject
      | Err _ => Offer_Abort
      | Ok None =>
          if negb (off_format offered =? 1) then Offer_RejectFormat
          else if negb (bool_decide (app_hash = [])) && negb (bool_decide (off_hash offered = app_hash))
          then Offer_Reject
          else if negb (has_capacity_for available (off_chunks offered * 10000000)) then Offer_Abort
          else Offer_Accept
      end
  end.

Definition store_snapshot_chunk (height : Z) (chunk : SnapshotChunk) (db : Database) :
    eld_result Database :=
  let? found := get_snapshot_metadata db height in
  let? metadata := ok_or found (NotFoundError "snapshot metadata" (to_string_i64 height)) in
  if sm_chunk_count metadata <=? chunk_index chunk then Err (ValidationError "chunk index")
  else
    let verified_chunk := mkSnapshotChunk (chunk_index chunk) (chunk_data chunk)
      (hex_encode (sha256 (chunk_data chunk))) (Z.of_nat (length (chunk_data chunk))) in
    match put_snapshot_chunk height verified_chunk db with
    | Ok db => Ok db
    | Err _ => Err (StorageError "store snapshot chunk")
    end.

Definition apply_snapshot_chunk (index : Z) (data : bytes) (now : Z)
    (db : Database) (rl : PrefixQueryRateLimiter) :
    ApplySnapshotChunkResult * (Database * PrefixQueryRateLimiter) :=
  let '(listed, rl) := list_snapshots db 10 now rl in
  match listed with
  | Err _ | Ok [] => (Apply_Unknown, (db, rl))
  | Ok (latest :: _) =>
      match store_snapshot_chunk (sm_height latest)
              (mkSnapshotChunk index data EmptyString (Z.of_nat (length data))) db with
      | Err _ => (Apply_Unknown, (db, rl))
      | Ok db => (Apply_Accept, (db, rl))
      end
  end.
End state_sync.

(** ** Pieces *)

Lemma chunks_of_concat fuel size data :
  0 < size → (length data ≤ fuel)%nat → concat (chunks_of fuel size data) = data.
Proof.
  intros Hs. revert data. induction fuel as [|fuel IH]; intros [|x data] Hl; [done|simpl in Hl; lia|done|].
  cbn [chunks_of]. destruct (_ <=? size) eqn:E; [by rewrite concat_cons, concat_nil, app_nil_r|].
  rewrite concat_cons, IH; [apply take_drop|]. rewrite length_drop. simpl in Hl |- *. lia.
Qed.

Section state_sync_laws.
Context {H : HexCrate} {HL : HexLaws H} {HC : HashCrates} {R : RecordCodecs} {SC : SnapshotCodecs}
  {SL : SnapshotCodecsLaws SC} {C : StateSyncCodecs} {CL : StateSyncCodecsLaws C} {Z4 : Lz4Crate}.

(** *** Rows of snapshot objects *)

(** An object kept under the hash of its content. *)
Record SyncObject : Type := mkSyncObject {
  so_type : CadoType;
  so_name : string;
  so_data : bytes;
}.

Definition so_cado (o : SyncObject) : CADO :=
  CADO_new (so_data o) (CADOMetadata_new (so_type o) "system").
Definition so_path (o : SyncObject) : string := cp_path (eld_path (so_type o) (so_name o)).
Definition so_key (o : SyncObject) : string :=
  storage_key SCOPE_ELD_ROOT (CadoType_as_str (so_type o)) (hex_encode (cado_hash (so_cado o))).
Definition so_ok (o : SyncObject) : Prop :=
  is_named_type (so_type o) = false ∧ name_ok (so_type o) (so_name o).

(** The object is small enough to be read back. *)
Definition so_fits (o : SyncObject) : Prop :=
  ∃ b, bin_serialize (Immutable (so_cado o)) = Some b ∧ 0 < Z.of_nat (length b) ≤ 1024 * 1024.

Definition so_bytes (o : SyncObject) : bytes := default [] (bin_serialize (Immutable (so_cado o))).

Definition write_object (db : Database) (o : SyncObject) : Database :=
  write_row (so_path o) (so_key o) (so_bytes o) db.

Lemma put_cado_data_object o db :
  so_ok o →
  put_cado_data (eld_path (so_type o) (so_name o)) (so_data o) (CADOMetadata_new (so_type o) "system") db =
  Ok (write_object db o).
Proof.
  intros [Ht Hn]. unfold put_cado_data. rewrite eld_path_checked by done.
  assert (String.eqb (cp_type (eld_path (so_type o) (so_name o))) "account" ||
    String.eqb (cp_type (eld_path (so_type o) (so_name o))) "staking_account" = false) as ->
    by (by destruct (so_type o)).
  unfold CadoBody_immutable. fold (so_cado o).
  destruct (general_key (so_type o) (so_name o) (so_cado o) Ht Hn) as [_ ->].
  unfold write_object, so_bytes. destruct (bin_roundtrip (Immutable (so_cado o)) I) as (b & -> & _). done.
Qed.

(** Writes of objects with their own paths and keys are all readable. *)
Lemma write_objects_lookup os db o :
  NoDup (so_path <$> os) → NoDup (so_key <$> os) → o ∈ os →
  path_index_cf (foldl write_object db os) !! so_path o = Some (so_key o) ∧
  cado_cf (foldl write_object db os) !! so_key o = Some (so_bytes o).
Proof.
  induction os as [|x os IH] using rev_ind; intros Hp Hk Ho; [by apply not_elem_of_nil in Ho|].
  rewrite fmap_app in Hp, Hk. apply list.NoDup_app in Hp as (Hp & Hpx & _), Hk as (Hk & Hkx & _).
  rewrite foldl_app. cbn [foldl write_object write_row set_path_index_cf path_index_cf set_cado_cf cado_cf].
  apply elem_of_app in Ho as [Ho|Ho%list_elem_of_singleton].
  - destruct (IH Hp Hk Ho) as [E1 E2].
    assert (so_path x ≠ so_path o).
    { intros E. apply (Hpx (so_path o)); [by apply list_elem_of_fmap_2|]. rewrite <- E. by left. }
    assert (so_key x ≠ so_key o).
    { intros E. apply (Hkx (so_key o)); [by apply list_elem_of_fmap_2|]. rewrite <- E. by left. }
    by rewrite !lookup_insert_ne by done.
  - subst x. by rewrite !lookup_insert_eq.
Qed.

Lemma write_objects_other os db k :
  k ∉ so_path <$> os → path_index_cf (foldl write_object db os) !! k = path_index_cf db !! k.
Proof.
  revert db. induction os as [|x os IH]; intros db Hk; [done|]. cbn [foldl].
  rewrite fmap_cons, not_elem_of_cons in Hk. destruct Hk as [Hx Hk]. rewrite (IH _ Hk).
  cbn [write_object write_row set_path_index_cf path_index_cf]. by rewrite lookup_insert_ne.
Qed.

Lemma write_objects_rows os db k :
  k ∉ so_key <$> os → cado_cf (foldl write_object db os) !! k = cado_cf db !! k.
Proof.
  revert db. induction os as [|x os IH]; intros db Hk; [done|]. cbn [foldl].
  rewrite fmap_cons, not_elem_of_cons in Hk. destruct Hk as [Hx Hk]. rewrite (IH _ Hk).
  cbn [write_object write_row set_path_index_cf path_index_cf set_cado_cf cado_cf].
  by rewrite lookup_insert_ne.
Qed.

Lemma read_object {A} {B : Bincode A} o db a :
  so_ok o → so_fits o → bin_deserialize (so_data o) = Some a →
  path_index_cf db !! so_path o = Some (so_key o) → cado_cf db !! so_key o = Some (so_bytes o) →
  get_deserialized_cado_by_path db (eld_path (so_type o) (so_name o)) = Ok (Some a).
Proof.
  intros [Ht Hn] (b & Eb & Hl) Ha Hi Hc. unfold get_deserialized_cado_by_path.
  unfold so_bytes in Hc. rewrite Eb in Hc. cbn [from_option id default] in Hc.
  rewrite (get_general (so_type o) (so_name o) (so_cado o) b db Ht Hn Eb Hl Hi Hc).
  cbn [CadoBody_data so_cado CADO_new cado_data]. by rewrite Ha.
Qed.
(** *** Snapshot objects *)

Definition metadata_object (m : SnapshotMetadata) : SyncObject :=
  mkSyncObject Cado_SnapshotMetadata (snapshot_metadata_id (sm_height m)) (default [] (bin_serialize m)).
Definition chunk_object (height : Z) (c : SnapshotChunk) : SyncObject :=
  mkSyncObject Cado_SnapshotChunk (snapshot_chunk_id height (chunk_index c)) (default [] (bin_serialize c)).

Lemma metadata_object_ok m : so_ok (metadata_object m).
Proof. split; [done|]. by apply digest_name_ok. Qed.
Lemma chunk_object_ok height c : so_ok (chunk_object height c).
Proof. split; [done|]. by apply digest_name_ok. Qed.

Lemma serialized {A} {B : Bincode A} {L : BincodeLaws A (λ _, True)} (a : A) :
  bin_serialize a = Some (default [] (bin_serialize a)) ∧
  bin_deserialize (default [] (bin_serialize a)) = Some a.
Proof. destruct (bin_roundtrip a I) as (b & -> & E). done. Qed.

Lemma metadata_path height :
  CadoPath_new Cado_SnapshotMetadata (Key_Name (snapshot_metadata_id height)) =
  Ok (eld_path Cado_SnapshotMetadata (snapshot_metadata_id height)).
Proof. apply system_path; [done|]. by apply digest_name_ok. Qed.
Lemma chunk_path height index :
  CadoPath_new Cado_SnapshotChunk (Key_Name (snapshot_chunk_id height index)) =
  Ok (eld_path Cado_SnapshotChunk (snapshot_chunk_id height index)).
Proof. apply system_path; [done|]. by apply digest_name_ok. Qed.

Lemma put_snapshot_metadata_run m db :
  put_snapshot_metadata m db = Ok (write_object db (metadata_object m)).
Proof.
  unfold put_snapshot_metadata. rewrite metadata_path, (proj1 (serialized m)). cbn [ok_or].
  exact (put_cado_data_object (metadata_object m) db (metadata_object_ok m)).
Qed.

Lemma put_snapshot_chunk_run height c db :
  put_snapshot_chunk height c db = Ok (write_object db (chunk_object height c)).
Proof.
  unfold put_snapshot_chunk. rewrite chunk_path, (proj1 (serialized c)). cbn [ok_or].
  exact (put_cado_data_object (chunk_object height c) db (chunk_object_ok height c)).
Qed.

Lemma put_snapshot_chunks_run height cs db :
  put_snapshot_chunks height cs db = (Ok tt, foldl write_object db (chunk_object height <$> cs)).
Proof.
  revert db. induction cs as [|c cs IH]; intros db; [done|]. cbn [put_snapshot_chunks].
  rewrite put_snapshot_chunk_run. apply IH.
Qed.

Lemma get_snapshot_metadata_object m db :
  so_fits (metadata_object m) →
  path_index_cf db !! so_path (metadata_object m) = Some (so_key (metadata_object m)) →
  cado_cf db !! so_key (metadata_object m) = Some (so_bytes (metadata_object m)) →
  get_snapshot_metadata db (sm_height m) = Ok (Some m).
Proof.
  intros Hf Hp Hk. unfold get_snapshot_metadata. rewrite metadata_path.
  apply (read_object (metadata_object m)); [apply metadata_object_ok|done| |done..].
  apply (proj2 (serialized m)).
Qed.

Lemma get_snapshot_chunk_object height c db :
  so_fits (chunk_object height c) →
  path_index_cf db !! so_path (chunk_object height c) = Some (so_key (chunk_object height c)) →
  cado_cf db !! so_key (chunk_object height c) = Some (so_bytes (chunk_object height c)) →
  get_snapshot_chunk db height (chunk_index c) = Ok (Some c).
Proof.
  intros Hf Hp Hk. unfold get_snapshot_chunk. rewrite chunk_path.
  apply (read_object (chunk_object height c)); [apply chunk_object_ok|done| |done..].
  apply (proj2 (serialized c)).
Qed.

(** The objects of a snapshot, in the order they are written. *)
Definition snapshot_objects (m : SnapshotMetadata) (compressed : list (bytes * string)) :
    list SyncObject :=
  metadata_object m :: (chunk_object (sm_height m) <$> imap new_chunk compressed).

Lemma create_run height data app_hash counts created_at compressed db :
  compress_chunks (chunks_of (length data) CHUNK_SIZE data) = Ok compressed →
  create_snapshot_with_app_hash height data app_hash counts created_at db =
    (Ok tt, foldl write_object db
       (snapshot_objects (new_metadata height app_hash counts created_at compressed) compressed)).
Proof.
  intros E. unfold create_snapshot_with_app_hash. rewrite E, put_snapshot_metadata_run.
  apply put_snapshot_chunks_run.
Qed.

Lemma compress_chunks_Ok chunks compressed :
  compress_chunks chunks = Ok compressed →
  Forall2 (λ b c, compress b = Some c.1 ∧ c.2 = hex_encode (sha256 b)) chunks compressed.
Proof.
  revert compressed. induction chunks as [|b chunks IH]; intros compressed; cbn [compress_chunks].
  { by intros [= <-]. }
  destruct (compress b) as [c|] eqn:Ec; [|done]. cbn [ok_or].
  destruct (compress_chunks chunks) as [rest|]; [|done]. intros [= <-]. constructor; [done|]. by apply IH.
Qed.

Lemma wrap_u64_i64 h : i64_min ≤ h ≤ i64_max → wrap_i64 (wrap_u64 h) = h.
Proof.
  intros Hh. rewrite <- (wrap_i64_small h Hh) at 2. unfold wrap_i64, wrap_u64. f_equal.
  by rewrite Zplus_mod_idemp_l.
Qed.

(** What a peer that asks for every chunk of a snapshot gets, decompressed. *)
Definition fetch_chunks (db : Database) (m : SnapshotMetadata) : option (list bytes) :=
  mapM (λ i, decompress (load_snapshot_chunk db (wrap_u64 (sm_height m)) (Z.of_nat i)))
    (seq 0 (Z.to_nat (sm_chunk_count m))).
Context {ZL : Lz4Laws Z4}.

(** Chunk [i] of a stored snapshot, decompressed, is piece [i] of the data. *)
Lemma load_chunk db m compressed i b c :
  i64_min ≤ sm_height m ≤ i64_max → Z.of_nat (length compressed) ≤ u32_max →
  NoDup (so_path <$> snapshot_objects m compressed) → NoDup (so_key <$> snapshot_objects m compressed) →
  Forall so_fits (snapshot_objects m compressed) →
  compressed !! i = Some c → compress b = Some c.1 →
  decompress (load_snapshot_chunk (foldl write_object db (snapshot_objects m compressed))
    (wrap_u64 (sm_height m)) (Z.of_nat i)) = Some b.
Proof.
  intros Hh Hlen Hp Hk Hf Ei Ec. apply decompress_compress in Ec. rewrite <- Ec. f_equal.
  unfold load_snapshot_chunk. rewrite wrap_u64_i64 by done.
  assert (as_u32 (Z.of_nat i) = Z.of_nat i) as Eu.
  { unfold as_u32. apply Z.mod_small. apply lookup_lt_Some in Ei. unfold u32_max in Hlen. lia. }
  assert (chunk_object (sm_height m) (new_chunk i c) ∈ snapshot_objects m compressed) as Ho.
  { right. apply list_elem_of_fmap_2. apply list_elem_of_lookup. exists i. by rewrite list_lookup_imap, Ei. }
  destruct (write_objects_lookup _ db _ Hp Hk Ho) as [E1 E2]. rewrite list.Forall_forall in Hf.
  pose proof (get_snapshot_chunk_object (sm_height m) (new_chunk i c) _ (Hf _ Ho) E1 E2) as Hg.
  cbn [chunk_index new_chunk] in Hg. rewrite Eu in Hg. by rewrite Hg.
Qed.

Lemma fetch_created db m chunks compressed :
  i64_min ≤ sm_height m ≤ i64_max → Z.of_nat (length compressed) ≤ u32_max →
  sm_chunk_count m = as_u32 (Z.of_nat (length compressed)) →
  compress_chunks chunks = Ok compressed →
  NoDup (so_path <$> snapshot_objects m compressed) → NoDup (so_key <$> snapshot_objects m compressed) →
  Forall so_fits (snapshot_objects m compressed) →
  fetch_chunks (foldl write_object db (snapshot_objects m compressed)) m = Some chunks.
Proof.
  intros Hh Hlen Hc E%compress_chunks_Ok Hp Hk Hf. unfold fetch_chunks. rewrite Hc.
  unfold as_u32. rewrite Z.mod_small, Nat2Z.id by (unfold u32_max in Hlen; lia).
  apply mapM_Some. apply Forall2_same_length_lookup. split.
  { rewrite length_seq. symmetry. by eapply Forall2_length. }
  intros i j b Ej Eb. apply lookup_seq in Ej as [-> _]. cbn [Nat.add].
  destruct (Forall2_lookup_l _ _ _ _ _ E Eb) as (c & Ec & Hcb & _). by eapply load_chunk.
Qed.

(** The state a snapshot of a height is made from. *)
Record latest_state (db : Database) (height : Z) (tip : AppStateTip) (s : AppStateSnapshot) : Prop := {
  ls_tip : get_deserialized_cado_by_path db (eld_path Cado_AppStateTip LATEST) = Ok (Some tip);
  ls_snapshot : get_deserialized_cado_by_path db
    (eld_path Cado_AppStateSnapshot snapshot_name) = Ok (Some s);
  ls_tip_height : tip_block_height tip = height;
  ls_height : snap_block_height s = height;
  ls_app_hash : snap_app_hash s = tip_app_hash tip;
  ls_root : snap_state_trie_root s = tip_cado_root_hash tip;
}.

(** The stored form of a snapshot is small enough, and nothing in it collides. *)
Record objects_apart (os : list SyncObject) : Prop := {
  oa_paths : NoDup (so_path <$> os);
  oa_keys : NoDup (so_key <$> os);
  oa_fits : Forall so_fits os;
}.

Lemma create_from_latest_run db height created_at tip s payload compressed :
  latest_state db height tip s →
  bin_serialize (AbciSnapshot_new s) = Some payload →
  compress_chunks (chunks_of (length payload) CHUNK_SIZE payload) = Ok compressed →
  create_snapshot_from_latest_state height created_at db =
    (Ok tt, foldl write_object db
       (snapshot_objects (new_metadata height (snap_app_hash s) (state_counts s) created_at compressed)
          compressed)).
Proof.
  intros [Ht Hs Hth Hsh Ha Hr] Ep Ec. unfold create_snapshot_from_latest_state.
  pose proof (latest_name_ok Cado_AppStateTip ltac:(done) eq_refl) as Hl.
  rewrite (system_path Cado_AppStateTip LATEST ltac:(done) Hl).
  rewrite Ht. cbn [ok_or]. rewrite Hth, Z.eqb_refl. cbn [negb]. rewrite snapshot_path, Hs. cbn [ok_or].
  rewrite Hsh, Z.eqb_refl, !bool_decide_true by done. cbn [negb].
  unfold serialize_abci_snapshot. rewrite Ep. cbn [ok_or]. by apply create_run.
Qed.

(** Objects of the named types are not touched. *)
Lemma write_objects_named os db t name :
  Forall so_ok os → index_wf db → is_named_type t = true → name_ok t name →
  path_key t name ∉ so_key <$> os →
  db_get_cado_by_path (foldl write_object db os) (eld_path t name) =
  db_get_cado_by_path db (eld_path t name).
Proof.
  intros Hos Hw Ht Hn Hk. unfold db_get_cado_by_path.
  assert (cp_path (eld_path t name) ∉ so_path <$> os) as Hp.
  { intros (o & Eo & Ho)%list_elem_of_fmap. rewrite list.Forall_forall in Hos.
    destruct (Hos o Ho) as [Hto Hno]. destruct (eld_paths_inj _ _ _ _ Hn Hno Eo) as [-> _]. congruence. }
  rewrite (write_objects_other _ _ _ Hp).
  destruct (path_index_cf db !! cp_path (eld_path t name)) as [key|] eqn:Ei; [|done].
  rewrite (Hw t name key Ht Hn Ei), (write_objects_rows _ _ _ Hk). done.
Qed.

Lemma snapshot_objects_ok m compressed : Forall so_ok (snapshot_objects m compressed).
Proof.
  constructor; [apply metadata_object_ok|]. apply Forall_fmap, list.Forall_forall. intros c _.
  apply chunk_object_ok.
Qed.

(** C10. At an epoch start a node turns its committed state into a chunked
    snapshot.  When the metadata and every compressed chunk fit, as stored
    objects, the one-megabyte limit of reads, and their paths and storage keys
    are distinct, the metadata it stores carries the committed app hash, a peer
    that asks for every chunk and decompresses it gets pieces with the listed
    hashes, the pieces put together are the encoding of the committed state,
    and no other object of consensus changes.  (A larger chunk is written but
    cannot be read back.) *)
Theorem created_snapshot_served (db : Database) (height created_at : Z) (tip : AppStateTip)
    (s : AppStateSnapshot) (payload : bytes) (compressed : list (bytes * string)) :
  let m := new_metadata height (snap_app_hash s) (state_counts s) created_at compressed in
  i64_min ≤ height ≤ i64_max → latest_state db height tip s → index_wf db →
  bin_serialize (AbciSnapshot_new s) = Some payload →
  compress_chunks (chunks_of (length payload) CHUNK_SIZE payload) = Ok compressed →
  Z.of_nat (length compressed) ≤ u32_max → objects_apart (snapshot_objects m compressed) →
  ∃ db' pieces, create_snapshot_from_latest_state height created_at db = (Ok tt, db') ∧
    get_snapshot_metadata db' height = Ok (Some m) ∧ sm_app_hash m = tip_app_hash tip ∧
    fetch_chunks db' m = Some pieces ∧
    sm_chunk_hashes m = (λ b, hex_encode (sha256 b)) <$> pieces ∧
    bin_deserialize (concat pieces) = Some (AbciSnapshot_new s) ∧
    ∀ t name, is_named_type t = true → name_ok t name →
      path_key t name ∉ so_key <$> snapshot_objects m compressed →
      db_get_cado_by_path db' (eld_path t name) = db_get_cado_by_path db (eld_path t name).
Proof.
  intros m Hh Hls Hw Ep Ec Hlen [Hp Hk Hf].
  eexists _, _. split; [by apply (create_from_latest_run db height created_at tip s payload compressed)|].
  fold m. split_and!.
  - assert (metadata_object m ∈ snapshot_objects m compressed) as Ho by (by left).
    destruct (write_objects_lookup _ db _ Hp Hk Ho) as [E1 E2]. rewrite list.Forall_forall in Hf.
    exact (get_snapshot_metadata_object m _ (Hf _ Ho) E1 E2).
  - apply Hls.
  - by apply (fetch_created db m (chunks_of (length payload) CHUNK_SIZE payload) compressed).
  - apply compress_chunks_Ok in Ec. cbn [m new_metadata sm_chunk_hashes].
    clear -Ec. induction Ec as [|b c bs cs [_ E] _ IH]; [done|]. rewrite !fmap_cons. by rewrite IH, E.
  - rewrite chunks_of_concat by (unfold CHUNK_SIZE; lia).
    destruct (bin_roundtrip (AbciSnapshot_new s) I) as (b & Eb & Ed).
    rewrite Ep in Eb. by injection Eb as <-.
  - intros t name Ht Hn Hnk. by apply write_objects_named; [apply snapshot_objects_ok|..].
Qed.
(** *** Objects that are too large *)

Lemma oversized_object {A} {B : Bincode A} o db b :
  so_ok o → bin_serialize (Immutable (so_cado o)) = Some b → 1024 * 1024 < Z.of_nat (length b) →
  path_index_cf db !! so_path o = Some (so_key o) → cado_cf db !! so_key o = Some (so_bytes o) →
  get_deserialized_cado_by_path (A := A) db (eld_path (so_type o) (so_name o)) =
    Err (StorageError "deserialize_cado").
Proof.
  intros [Ht Hn] Eb Hl Hi Hc. unfold get_deserialized_cado_by_path, db_get_cado_by_path.
  rewrite eld_path_checked by done. fold (so_path o). rewrite Hi, Hc. unfold so_bytes. rewrite Eb.
  cbn [from_option id default].
  unfold deserialize_stored_cado_type, safe_deserialize_cado_data, safe_bincode_deserialize.
  destruct b as [|x b]; [simpl in Hl; lia|].
  assert ((1024 * 1024 <? Z.of_nat (length (x :: b))) = true) as Hf by (apply Z.ltb_lt; lia).
  destruct (so_type o); try done; cbn [cp_type eld_path CadoType_as_str String.eqb Ascii.eqb Bool.eqb];
    by rewrite Hf.
Qed.

(** Chunks are cut at ten megabytes, objects are read back only up to one: a
    snapshot with a chunk that compresses to more is created without an error
    and listed with its metadata, but a peer that asks for the chunk gets no
    bytes. *)
Theorem oversized_chunk_unreadable (db : Database) (height created_at : Z) (app_hash : byte_array 32)
    (counts : SnapshotStateCounts) (data : bytes) (compressed : list (bytes * string)) (i : nat)
    (c : bytes * string) (b : bytes) :
  let m := new_metadata height app_hash counts created_at compressed in
  let os := snapshot_objects m compressed in
  i64_min ≤ height ≤ i64_max → Z.of_nat (length compressed) ≤ u32_max →
  compress_chunks (chunks_of (length data) CHUNK_SIZE data) = Ok compressed →
  NoDup (so_path <$> os) → NoDup (so_key <$> os) → so_fits (metadata_object m) →
  compressed !! i = Some c →
  bin_serialize (Immutable (so_cado (chunk_object height (new_chunk i c)))) = Some b →
  1024 * 1024 < Z.of_nat (length b) →
  ∃ db', create_snapshot_with_app_hash height data app_hash counts created_at db = (Ok tt, db') ∧
    get_snapshot_metadata db' height = Ok (Some m) ∧
    load_snapshot_chunk db' (wrap_u64 height) (Z.of_nat i) = [].
Proof.
  intros m os Hh Hlen Ec Hp Hk Hf Ei Eb Hl. eexists. split; [by apply create_run|]. fold m os.
  assert (metadata_object m ∈ os) as Hm by (by left).
  assert (chunk_object height (new_chunk i c) ∈ os) as Ho.
  { right. apply list_elem_of_fmap_2. apply list_elem_of_lookup. exists i. by rewrite list_lookup_imap, Ei. }
  destruct (write_objects_lookup _ db _ Hp Hk Hm) as [M1 M2].
  destruct (write_objects_lookup _ db _ Hp Hk Ho) as [E1 E2].
  split; [exact (get_snapshot_metadata_object m _ Hf M1 M2)|].
  unfold load_snapshot_chunk. rewrite wrap_u64_i64 by done.
  pose proof (oversized_object (A := SnapshotChunk) _ _ b (chunk_object_ok height (new_chunk i c)) Eb Hl E1 E2)
    as Hg. cbn [so_type so_name chunk_object chunk_index new_chunk] in Hg.
  assert (as_u32 (Z.of_nat i) = Z.of_nat i) as Eu.
  { unfold as_u32. apply Z.mod_small. apply lookup_lt_Some in Ei. unfold u32_max in Hlen. lia. }
  rewrite Eu in Hg. unfold get_snapshot_chunk. by rewrite chunk_path, Hg.
Qed.

(** *** Restoring from peers *)

(** The calls of the consensus engine during state sync. *)
Inductive SyncCall : Type :=
| Call_Offer (available : eld_result Z) (snapshot : option OfferedSnapshot) (app_hash : bytes)
| Call_Apply (index : Z) (data : bytes) (now : Z).

Inductive SyncAnswer : Type :=
| Answer_Offer (r : OfferSnapshotResult)
| Answer_Apply (r : ApplySnapshotChunkResult).

Definition sync_call (n : Database * PrefixQueryRateLimiter) (c : SyncCall) :
    SyncAnswer * (Database * PrefixQueryRateLimiter) :=
  match c with
  | Call_Offer available snapshot app_hash =>
      (Answer_Offer (offer_snapshot n.1 available snapshot app_hash), n)
  | Call_Apply index data now =>
      let '(r, n) := apply_snapshot_chunk index data now n.1 n.2 in (Answer_Apply r, n)
  end.

Fixpoint sync_calls (n : Database * PrefixQueryRateLimiter) (cs : list SyncCall) :
    list SyncAnswer * (Database * PrefixQueryRateLimiter) :=
  match cs with
  | [] => ([], n)
  | c :: cs =>
      let '(a, n) := sync_call n c in let '(answers, n) := sync_calls n cs in (a :: answers, n)
  end.

(** No snapshot metadata is indexed. *)
Definition no_snapshots (db : Database) : Prop := paths_with db PATH_PREFIX_SNAPSHOT_METADATA = [].

Lemma snapshot_prefix_ok : validate_cado_prefix_security PATH_PREFIX_SNAPSHOT_METADATA = Ok tt.
Proof. reflexivity. Qed.

Lemma apply_without_snapshots db rl index data now :
  eld_indexed db → no_snapshots db →
  ∃ rl', apply_snapshot_chunk index data now db rl = (Apply_Unknown, (db, rl')).
Proof.
  intros Hix Hno. unfold apply_snapshot_chunk, list_snapshots.
  destruct (paths_by_prefix_run db PATH_PREFIX_SNAPSHOT_METADATA now rl Hix snapshot_prefix_ok)
    as (rows & _ & Er & ->). unfold no_snapshots in Hno. rewrite Hno in Er. apply fmap_nil_inv in Er as ->.
  destruct (prefix_allowed _ _ _); eexists; done.
Qed.

(** The conditions under which an offer is accepted. *)
Lemma offer_accepted db available offered app_hash :
  offer_snapshot db available (Some offered) app_hash = Offer_Accept ↔
  get_snapshot_metadata db (wrap_i64 (off_height offered)) = Ok None ∧ off_format offered = 1 ∧
  (app_hash = [] ∨ off_hash offered = app_hash) ∧
  has_capacity_for available (off_chunks offered * 10000000) = true.
Proof.
  unfold offer_snapshot. destruct (get_snapshot_metadata _ _) as [[m|]|]; [split; [done|by intros []]| |
    split; [done|by intros []]].
  destruct (off_format offered =? 1) eqn:Ef; cbn [negb]; [|split; [done|intros (_ & E & _); lia]].
  destruct (bool_decide_reflect (app_hash = [])) as [Ha|Ha];
    destruct (bool_decide_reflect (off_hash offered = app_hash)) as [Eh|Eh]; cbn [negb andb];
    destruct (has_capacity_for _ _); cbn [negb]; (split; [try done|]); try (by intros (_ & _ & _ & ?));
    try (intros _; split_and!; [done|lia|tauto|done]); intros (_ & _ & [?|?] & _); done.
Qed.
Lemma metadata_absent db height : no_snapshots db → get_snapshot_metadata db height = Ok None.
Proof.
  intros Hno. unfold get_snapshot_metadata. rewrite metadata_path.
  unfold get_deserialized_cado_by_path, db_get_cado_by_path.
  rewrite eld_path_checked by (by apply digest_name_ok).
  destruct (path_index_cf db !! _) as [key|] eqn:Ei; [|done]. exfalso.
  apply (not_elem_of_nil (cp_path (eld_path Cado_SnapshotMetadata (snapshot_metadata_id height)))).
  rewrite <- Hno. apply paths_with_in. split; [by eapply elem_of_dom_2|].
  exact (starts_with_append PATH_PREFIX_SNAPSHOT_METADATA (snapshot_metadata_id height)).
Qed.

(** A node that has no snapshot of its own accepts an offered one, but every
    chunk it is then given is answered with unknown, and its database stays
    as it was whatever the calls: state sync never restores a fresh node. *)
Theorem state_sync_never_restores (db : Database) (rl : PrefixQueryRateLimiter) :
  eld_indexed db → no_snapshots db →
  (∀ available offered app_hash, off_format offered = 1 → (app_hash = [] ∨ off_hash offered = app_hash) →
     has_capacity_for available (off_chunks offered * 10000000) = true →
     offer_snapshot db available (Some offered) app_hash = Offer_Accept) ∧
  ∀ calls, let '(answers, (db', _)) := sync_calls (db, rl) calls in
    db' = db ∧ ∀ r, Answer_Apply r ∈ answers → r = Apply_Unknown.
Proof.
  intros Hix Hno. split.
  { intros available offered app_hash Hf Ha Hc. apply offer_accepted. by rewrite metadata_absent. }
  intros calls. revert rl. induction calls as [|c calls IH]; intros rl; cbn [sync_calls].
  { split; [done|]. by intros r ?%not_elem_of_nil. }
  destruct c as [available offered app_hash|index data now]; cbn [sync_call fst snd].
  - specialize (IH rl). destruct (sync_calls (db, rl) calls) as [answers [db' rl']].
    destruct IH as [-> IH]. split; [done|]. intros r [[=]|Hr]%elem_of_cons. by apply IH.
  - destruct (apply_without_snapshots db rl index data now Hix Hno) as [rl1 ->].
    specialize (IH rl1). destruct (sync_calls (db, rl1) calls) as [answers [db' rl']].
    destruct IH as [-> IH]. split; [done|]. intros r [[= ->]|Hr]%elem_of_cons; [done|by apply IH].
Qed.

(** The calls with an applied chunk always go to the snapshot the node lists
    first, its own: a chunk a peer sends replaces the node's chunk of that
    index without being compared with the hash the metadata lists, and is
    what the node serves from then on. *)
Theorem applied_chunk_replaces_own (db : Database) (rl rl' : PrefixQueryRateLimiter) (index now : Z)
    (data : bytes) (m : SnapshotMetadata) (rest : list SnapshotMetadata) :
  let c := mkSnapshotChunk index data (hex_encode (sha256 data)) (Z.of_nat (length data)) in
  list_snapshots db 10 now rl = (Ok (m :: rest), rl') →
  get_snapshot_metadata db (sm_height m) = Ok (Some m) → i64_min ≤ sm_height m ≤ i64_max →
  index < sm_chunk_count m → so_fits (chunk_object (sm_height m) c) →
  ∃ db', apply_snapshot_chunk index data now db rl = (Apply_Accept, (db', rl')) ∧
    load_snapshot_chunk db' (wrap_u64 (sm_height m)) index = data.
Proof.
  intros c El Em Hh Hi Hf. unfold apply_snapshot_chunk. rewrite El.
  unfold store_snapshot_chunk. cbn [chunk_index chunk_data]. rewrite Em. cbn [ok_or].
  rewrite (proj2 (Z.leb_gt _ _)) by done. fold c. rewrite put_snapshot_chunk_run.
  eexists. split; [done|]. unfold load_snapshot_chunk. rewrite wrap_u64_i64 by done.
  destruct (write_objects_lookup [chunk_object (sm_height m) c] db (chunk_object (sm_height m) c))
    as [E1 E2]; [apply NoDup_singleton..|by left|].
  cbn [foldl] in E1, E2. pose proof (get_snapshot_chunk_object (sm_height m) c _ Hf E1 E2) as Hg.
  change (chunk_index c) with index in Hg. by rewrite Hg.
Qed.
End state_sync_laws.

(** ** Witnesses *)

#[export] Instance SnapshotMetadata_eq_dec : EqDecision SnapshotMetadata.
Proof. solve_decision. Defined.
#[export] Instance SnapshotChunk_eq_dec : EqDecision SnapshotChunk.
Proof. solve_decision. Defined.
#[export] Instance AbciSnapshot_eq_dec : EqDecision AbciSnapshot.
Proof. solve_decision. Defined.
#[export] Instance CADOMap_eq_dec : EqDecision CADOMap.
Proof. solve_decision. Defined.

#[export, program] Instance SnapshotMetadata_countable : Countable SnapshotMetadata :=
  inj_countable' (λ m, (sm_height m, sm_epoch m, sm_format_version m, sm_chunk_count m, sm_total_size m,
      sm_compression m, sm_created_at m, sm_app_hash m, sm_accounts_count m, sm_staking_accounts_count m,
      sm_storage_staking_accounts_count m, sm_namespaces_count m, sm_chunk_hashes m))
    (λ '(a, b, c, d, e, f, g, h, i, j, k, l, n), mkSnapshotMetadata a b c d e f g h i j k l n) _.
Next Obligation. by intros []. Qed.
#[export, program] Instance SnapshotChunk_countable : Countable SnapshotChunk :=
  inj_countable' (λ c, (chunk_index c, chunk_data c, chunk_hash c, chunk_size c))
    (λ '(a, b, c, d), mkSnapshotChunk a b c d) _.
Next Obligation. by intros []. Qed.
#[export, program] Instance AbciSnapshot_countable : Countable AbciSnapshot :=
  inj_countable' (λ s, (abci_version s, abci_app_state_snapshot s)) (λ '(a, b), mkAbciSnapshot a b) _.
Next Obligation. by intros []. Qed.
#[export, program] Instance CADOMap_countable : Countable CADOMap :=
  inj_countable' (λ m, (map_from m, map_to m)) (λ '(a, b), mkCADOMap a b) _.
Next Obligation. by intros []. Qed.

(** A stand-in compression: one byte in front. *)
#[export] Instance ref_lz4 : Lz4Crate :=
  {| compress b := Some (Init.Byte.x01 :: b);
     decompress c := match c with _ :: b => Some b | [] => None end |}.
#[export] Instance ref_lz4_laws : Lz4Laws ref_lz4.
Proof. constructor. by intros b c [= <-]. Qed.

(** Codecs with short codes for the values of a list. *)
Definition shortcuts_bincode {A : Type} `{Countable A} (l : list A) : Bincode A :=
  foldr (λ a B, shortcut_bincode a B) (countable_bincode A) l.

Lemma shortcuts_bincode_laws {A : Type} `{Countable A} (l : list A) :
  @BincodeLaws A (shortcuts_bincode l) (λ _, True).
Proof. induction l; [apply countable_bincode_laws|]. by apply shortcut_bincode_laws. Qed.

Definition test_snapshot : AppStateSnapshot :=
  mkAppStateSnapshot 100 (fit 32 []) "eld" 1 ∅ (fit 32 []) ∅ ∅ [] [] [] None.
Definition test_tip : AppStateTip := mkAppStateTip 100 (fit 32 []) (fit 32 []).
Definition test_compressed : list (bytes * string) :=
  [([Init.Byte.x01; Init.Byte.x00], hex_encode (sha256 [Init.Byte.x00]))].
Definition test_metadata : SnapshotMetadata :=
  new_metadata 100 (fit 32 []) (mkSnapshotStateCounts 0 0 0 0) 7 test_compressed.
Definition test_sync_chunk : SnapshotChunk := new_chunk 0 ([Init.Byte.x01; Init.Byte.x00], hex_encode (sha256 [Init.Byte.x00])).

#[local] Instance test_sync_codecs : StateSyncCodecs := {|
  metadata_codec := shortcuts_bincode [test_metadata];
  chunk_codec := shortcuts_bincode [test_sync_chunk];
  abci_codec := shortcuts_bincode [AbciSnapshot_new test_snapshot];
  map_codec := countable_bincode CADOMap;
|}.
#[local] Instance test_sync_laws : StateSyncCodecsLaws test_sync_codecs.
Proof. constructor; apply shortcuts_bincode_laws. Qed.

Definition test_object (t : CadoType) : CadoBody :=
  CadoBody_immutable [Init.Byte.x00] (CADOMetadata_new t "system").

#[local] Instance test_state_codecs : SnapshotCodecs := {|
  tip_codec := shortcuts_bincode [test_tip];
  snapshot_codec := shortcuts_bincode [test_snapshot];
  body_codec := shortcuts_bincode (test_object <$>
    [Cado_AppStateTip; Cado_AppStateSnapshot; Cado_SnapshotMetadata; Cado_SnapshotChunk]);
|}.
#[local] Instance test_state_laws : SnapshotCodecsLaws test_state_codecs.
Proof. constructor; apply shortcuts_bincode_laws. Qed.

(** A database with a tip and a snapshot of the same height. *)
Definition test_sync_db : Database :=
  with_object Cado_AppStateSnapshot snapshot_name [Init.Byte.x01; Init.Byte.x00]
    (with_object Cado_AppStateTip LATEST [Init.Byte.x00] empty_database).

Lemma test_sync_db_wf : index_wf test_sync_db.
Proof.
  apply with_object_wf; [apply snapshot_name_ok|]. apply with_object_wf; [by apply latest_name_ok|].
  intros t name key _ _ [=].
Qed.

Lemma test_latest_state : latest_state test_sync_db 100 test_tip test_snapshot.
Proof. constructor; [vm_compute; reflexivity..]. Qed.

Lemma test_objects_apart : objects_apart (snapshot_objects test_metadata test_compressed).
Proof.
  constructor; [by apply (bool_decide_unpack _); vm_compute..|].
  repeat constructor; (eexists; split; [vm_compute; reflexivity|by vm_compute]).
Qed.

Lemma created_snapshot_served_witness :
  ∃ db' pieces, create_snapshot_from_latest_state 100 7 test_sync_db = (Ok tt, db') ∧
    get_snapshot_metadata db' 100 = Ok (Some test_metadata) ∧
    fetch_chunks db' test_metadata = Some pieces ∧
    bin_deserialize (concat pieces) = Some (AbciSnapshot_new test_snapshot).
Proof.
  destruct (created_snapshot_served test_sync_db 100 7 test_tip test_snapshot [Init.Byte.x00]
    test_compressed) as (db' & pieces & E & Em & _ & Ef & _ & Ed & _);
    [by vm_compute|exact test_latest_state|exact test_sync_db_wf|vm_compute; reflexivity|
     vm_compute; reflexivity|by vm_compute|exact test_objects_apart|].
  exists db', pieces. split; [exact E|]. split; [exact Em|]. split; [exact Ef|exact Ed].
Defined.

Lemma test_sync_db_indexed : eld_indexed test_sync_db.
Proof.
  intros k Hk. cbn [test_sync_db with_object set_path_index_cf path_index_cf set_cado_cf] in Hk.
  rewrite !dom_insert, !elem_of_union, !elem_of_singleton in Hk. destruct Hk as [->|[->|Hk]].
  - exists Cado_AppStateSnapshot, snapshot_name. split; [apply snapshot_name_ok|done].
  - exists Cado_AppStateTip, LATEST. split; [by apply latest_name_ok|done].
  - exfalso. revert Hk. apply not_elem_of_empty.
Qed.

Definition test_offer : OfferedSnapshot := mkOfferedSnapshot 200 1 3 (fit 32 []).

Lemma state_sync_never_restores_witness :
  offer_snapshot test_sync_db (Ok 50000000) (Some test_offer) (fit 32 []) = Offer_Accept ∧
  let '(answers, (db', _)) := sync_calls (test_sync_db, RateLimiter_default)
    [Call_Offer (Ok 50000000) (Some test_offer) (fit 32 []); Call_Apply 0 [Init.Byte.x01] 1] in
  db' = test_sync_db ∧ ∀ r, Answer_Apply r ∈ answers → r = Apply_Unknown.
Proof.
  destruct (state_sync_never_restores test_sync_db RateLimiter_default test_sync_db_indexed)
    as [Ho Hc]; [vm_compute; reflexivity|]. split; [|apply Hc].
  apply Ho; [reflexivity|by right|vm_compute; reflexivity].
Defined.

(** The database once the sample snapshot is created. *)
Definition test_served_db : Database :=
  foldl write_object test_sync_db (snapshot_objects test_metadata test_compressed).

Definition test_foreign : SnapshotChunk :=
  mkSnapshotChunk 0 [Init.Byte.x09] (hex_encode (sha256 [Init.Byte.x09])) 1.

#[local] Instance foreign_sync_codecs : StateSyncCodecs := {|
  metadata_codec := shortcuts_bincode [test_metadata];
  chunk_codec := shortcuts_bincode [test_sync_chunk; test_foreign];
  abci_codec := shortcuts_bincode [AbciSnapshot_new test_snapshot];
  map_codec := countable_bincode CADOMap;
|}.
#[local] Instance foreign_sync_laws : StateSyncCodecsLaws foreign_sync_codecs.
Proof. constructor; apply shortcuts_bincode_laws. Qed.

#[local] Instance foreign_state_codecs : SnapshotCodecs := {|
  tip_codec := shortcuts_bincode [test_tip];
  snapshot_codec := shortcuts_bincode [test_snapshot];
  body_codec := shortcuts_bincode ((test_object <$>
    [Cado_AppStateTip; Cado_AppStateSnapshot; Cado_SnapshotMetadata; Cado_SnapshotChunk]) ++
    [CadoBody_immutable [Init.Byte.x01; Init.Byte.x00] (CADOMetadata_new Cado_SnapshotChunk "system")]);
|}.
#[local] Instance foreign_state_laws : SnapshotCodecsLaws foreign_state_codecs.
Proof. constructor; apply shortcuts_bincode_laws. Qed.

Lemma applied_chunk_replaces_own_witness :
  ∃ db' rl', apply_snapshot_chunk 0 [Init.Byte.x09] 1 test_served_db RateLimiter_default =
      (Apply_Accept, (db', rl')) ∧
    load_snapshot_chunk db' 100 0 = [Init.Byte.x09].
Proof.
  destruct (applied_chunk_replaces_own test_served_db RateLimiter_default
    (prefix_counted PATH_PREFIX_SNAPSHOT_METADATA 1 RateLimiter_default) 0 1 [Init.Byte.x09]
    test_metadata []) as (db' & E & L);
    [vm_compute; reflexivity|vm_compute; reflexivity|by vm_compute|reflexivity| |].
  - eexists. split; [vm_compute; reflexivity|by vm_compute].
  - eexists db', _. split; [exact E|exact L].
Defined.

(** A codec with a long code for one value. *)
Definition long_bincode {A : Type} `{EqDecision A} (a0 : A) (n : nat) (B : Bincode A) : Bincode A :=
  {| bin_serialize a :=
       if bool_decide (a = a0) then Some (replicate n Init.Byte.x02)
       else match bin_serialize a with Some b => Some (Init.Byte.x01 :: b) | None => None end;
     bin_deserialize b :=
       match b with Init.Byte.x01 :: b => bin_deserialize b | _ => Some a0 end |}.

Lemma long_bincode_laws {A : Type} `{EqDecision A} (a0 : A) (n : nat) (B : Bincode A) (wf : A → Prop) :
  @BincodeLaws A B wf → @BincodeLaws A (long_bincode a0 n B) wf.
Proof.
  intros L. constructor. intros a Ha. simpl. case_bool_decide as Ea.
  - subst. eexists. split; [done|]. by destruct n.
  - destruct (bin_roundtrip a Ha) as (b & -> & Hb). eexists. by split.
Qed.

Definition long_state_codecs : SnapshotCodecs := {|
  tip_codec := shortcuts_bincode [test_tip];
  snapshot_codec := shortcuts_bincode [test_snapshot];
  body_codec := long_bincode (test_object Cado_SnapshotChunk) (Z.to_nat (1024 * 1024 + 1))
    (shortcuts_bincode [test_object Cado_SnapshotMetadata]);
|}.
Lemma long_state_laws : SnapshotCodecsLaws long_state_codecs.
Proof.
  constructor; [apply shortcuts_bincode_laws..|]. apply long_bincode_laws, shortcuts_bincode_laws.
Qed.

Lemma oversized_chunk_unreadable_witness :
  ∃ db', create_snapshot_with_app_hash (SC := long_state_codecs) 100 [Init.Byte.x00] (fit 32 [])
      (mkSnapshotStateCounts 0 0 0 0) 7 empty_database = (Ok tt, db') ∧
    get_snapshot_metadata (SC := long_state_codecs) db' 100 = Ok (Some test_metadata) ∧
    load_snapshot_chunk (SC := long_state_codecs) db' 100 0 = [].
Proof.
  apply (oversized_chunk_unreadable (SC := long_state_codecs) (SL := long_state_laws)
    (C := foreign_sync_codecs) (CL := foreign_sync_laws) empty_database 100 7
    (fit 32 []) (mkSnapshotStateCounts 0 0 0 0) [Init.Byte.x00] test_compressed 0
    ([Init.Byte.x01; Init.Byte.x00], hex_encode (sha256 [Init.Byte.x00]))
    (replicate (Z.to_nat (1024 * 1024 + 1)) Init.Byte.x02));
    [by vm_compute|by vm_compute|vm_compute; reflexivity|by apply (bool_decide_unpack _); vm_compute..| | | |].
  - eexists. split; [vm_compute; reflexivity|by vm_compute].
  - reflexivity.
  - cbn [bin_serialize body_codec long_state_codecs long_bincode].
    rewrite bool_decide_true; [reflexivity|]. by vm_compute.
  - rewrite length_replicate, Z2Nat.id; lia.
Defined.
