(* ===== verification/Indexer.v ===== *)
(** The transaction index: node_app/src/indexer (mod.rs,
    transaction_indexer.rs) and its rows and queries in storage/rocksdb
    (indexer.rs, keys.rs).

    The two column families are maps from keys to bytes, iterated in byte
    order.  The JSON texts of serde are parameters; the clock is an argument. *)
From S2P Require Import Prelude Externals Reference Coins Address Ordering Namespace Cado Records Tx TxCodes Wire TxTyped Pinboard AppState Ledger Deliver Storage Feed Paging Prefix.

(** ** Records *)

Inductive TransactionStatus : Type := Success | Failed.

Record IndexedEvent : Type := mkIndexedEvent {
  ie_tx_id : string;
  ie_event_index : Z;
  ie_event_type : string;
  ie_attributes : list (string * string);
  ie_block_height : Z;
  ie_block_index : Z;
  ie_timestamp : Z;
}.

Record IndexedTransaction : Type := mkIndexedTransaction {
  ix_id : string;
  ix_block_height : Z;
  ix_block_index : Z;
  ix_timestamp : Z;
  ix_tx : Tx;
  ix_status : TransactionStatus;
  ix_gas_used : option Z;
  ix_events : list IndexedEvent;
}.

(** [serde_json::to_vec] and [from_slice].  Serializing a transaction does not
    fail: the code expects it. *)
Class IndexerJson : Type := {
  tx_to_vec : Tx → bytes;
  itx_to_vec : IndexedTransaction → option bytes;
  itx_from_slice : bytes → option IndexedTransaction;
  iev_to_vec : IndexedEvent → option bytes;
  iev_from_slice : bytes → option IndexedEvent;
}.

Class IndexerJsonLaws (J : IndexerJson) : Prop := {
  itx_json e : ∃ b, itx_to_vec e = Some b ∧ itx_from_slice b = Some e;
  iev_json e : ∃ b, iev_to_vec e = Some b ∧ iev_from_slice b = Some e;
}.

(** The column families [indexed_transactions] and [indexed_events]. *)
Record IndexDb : Type := mkIndexDb {
  itx_cf : gmap string bytes;
  iev_cf : gmap string bytes;
}.

Definition empty_index : IndexDb := mkIndexDb ∅ ∅.

Definition put_itx (k : string) (v : bytes) (db : IndexDb) : IndexDb :=
  mkIndexDb (<[k := v]> (itx_cf db)) (iev_cf db).
Definition put_iev (k : string) (v : bytes) (db : IndexDb) : IndexDb :=
  mkIndexDb (itx_cf db) (<[k := v]> (iev_cf db)).

(** ** keys.rs *)

Definition INDEXED_TRANSACTIONS_PRIMARY_TOTAL_COUNT_KEY : string :=
  "_meta:indexed_transactions_primary_total".
Definition VERIFIED_PROOF_GLOBAL_REWARDS_COUNT_KEY : string :=
  "_meta:verified_proof_global_rewards_count".
Definition BLOCK_POS_CHRON_LOWER_BOUND : string := "block_pos:".
Definition BLOCK_POS_CHRON_UPPER_BOUND_EXCLUSIVE : string := "block_pos;".
Definition INDEXER_CURSOR_KEY : string := "meta:indexer:last_synced_height".

(** ["{:016x}:{:08x}"] of a position in the chain. *)
Definition position_hex (block_height block_index : Z) : string :=
  String.append (hex_digits 16 block_height EmptyString)
    (String ":" (hex_digits 8 block_index EmptyString)).

Definition block_position_chron_index_key_bytes (block_height block_index : Z) : string :=
  String.append "block_pos:" (position_hex block_height block_index).

Definition verified_proof_reward_index_key (provider_normalized : string)
    (block_height block_index : Z) : string :=
  String.append "vp:" (String.append provider_normalized
    (String ":" (position_hex block_height block_index))).

Fixpoint parse_hex_digits (max : Z) (s : string) (acc : Z) : option Z :=
  match s with
  | EmptyString => Some acc
  | String c s =>
      match ascii_nibble c with
      | None => None
      | Some d =>
          match checked_mul max acc 16 with
          | None => None
          | Some m => match checked_add max m d with
                      | None => None
                      | Some v => parse_hex_digits max s v
                      end
          end
      end
  end.

(** [uN::from_str_radix(s, 16)] *)
Definition from_str_radix_16 (max : Z) (s : string) : option Z :=
  match s with
  | EmptyString => None
  | String c s' =>
      if Ascii.eqb c "+"%char then
        match s' with EmptyString => None | _ => parse_hex_digits max s' 0 end
      else parse_hex_digits max s 0
  end.

Definition parse_block_position_chron_key (key_str : string) : option (Z * Z) :=
  rest ← strip_prefix "block_pos:" key_str;
  '(h_hex, ix_hex) ← split_once ":" rest;
  bh ← from_str_radix_16 u64_max h_hex;
  bi ← from_str_radix_16 u32_max ix_hex;
  Some (bh, bi).

Definition parse_verified_proof_reward_index_key (key_str : string) : option (string * Z * Z) :=
  rest ← strip_prefix "vp:" key_str;
  match split_on ":"%char rest with
  | [addr; h_hex; ix_hex] =>
      h ← from_str_radix_16 u64_max h_hex;
      bi ← from_str_radix_16 u32_max ix_hex;
      Some (addr, h, bi)
  | _ => None
  end.

Record IndexedTxChronFilters : Type := mkChronFilters {
  filter_block_height : option Z;
  filter_sender : option Address;
  filter_payload_type : option string;
}.

Section indexer.
Context {H : HexCrate} {HC : HashCrates} {J : IndexerJson}.

(** ** Counters *)

(** The iterated pairs of a family, in byte order. *)
Definition rows_of (cf : gmap string bytes) : list (string * bytes) :=
  (λ k, (k, default [] (cf !! k))) <$> sorted_keys (dom cf).

(** Primary rows: full transactions under their id. *)
Definition is_primary_key (k : string) : bool := starts_with "0x" k && negb (contains ":" k).

Definition count_primary_indexed_transaction_keys (db : IndexDb) : Z :=
  Z.of_nat (length (List.filter (λ r, is_primary_key r.1) (rows_of (itx_cf db)))).

Definition decode_u64_meta (b : bytes) : eld_result Z :=
  if (length b =? 8)%nat then Ok (le_value b)
  else Err (StorageError "decode_indexed_transaction_total_count_meta").

Definition indexed_transaction_primary_total_count (db : IndexDb) : eld_result Z * IndexDb :=
  match itx_cf db !! INDEXED_TRANSACTIONS_PRIMARY_TOTAL_COUNT_KEY with
  | Some b => (decode_u64_meta b, db)
  | None =>
      let n := count_primary_indexed_transaction_keys db in
      (Ok n, put_itx INDEXED_TRANSACTIONS_PRIMARY_TOTAL_COUNT_KEY (le_bytes 8 n) db)
  end.

Definition bump_indexed_transaction_primary_total_count (db : IndexDb) : eld_result unit * IndexDb :=
  let new_total :=
    match itx_cf db !! INDEXED_TRANSACTIONS_PRIMARY_TOTAL_COUNT_KEY with
    | Some b =>
        let? cur := decode_u64_meta b in
        ok_or (checked_add u64_max cur 1) (StorageError "bump_indexed_transaction_total_count")
    | None => Ok (count_primary_indexed_transaction_keys db)
    end in
  match new_total with
  | Err e => (Err e, db)
  | Ok n => (Ok tt, put_itx INDEXED_TRANSACTIONS_PRIMARY_TOTAL_COUNT_KEY (le_bytes 8 n) db)
  end.

Definition read_verified_proof_global_rewards_count (db : IndexDb) : Z :=
  match itx_cf db !! VERIFIED_PROOF_GLOBAL_REWARDS_COUNT_KEY with
  | None => 0
  | Some b => if (length b =? 8)%nat then le_value b else 0
  end.

Definition bump_verified_proof_global_rewards_count (db : IndexDb) : IndexDb :=
  let next := saturating_add u64_max (read_verified_proof_global_rewards_count db) 1 in
  put_itx VERIFIED_PROOF_GLOBAL_REWARDS_COUNT_KEY (le_bytes 8 next) db.

(** ** Indexing *)

Definition calculate_tx_id (tx : Tx) : string :=
  String.append "0x" (hex_encode (sha256 (tx_to_vec tx))).

(** The attributes are text already; lossy decoding leaves UTF-8 as it is. *)
Definition indexed_event_from_abci (tx_id : string) (event_index : Z) (event : Event)
    (block_height block_index timestamp : Z) : IndexedEvent :=
  mkIndexedEvent tx_id event_index (event_type event) (event_attributes event) block_height
    block_index timestamp.

(** The provider a successful, not failed proof rewards. *)
Definition rewarded_provider (status : TransactionStatus) (tx : Tx) : option string :=
  match status, payload_inner (tx_payload tx) with
  | Success, VerifiedProof vp_tx =>
      if vp_failed vp_tx then None
      else Some (to_ascii_lowercase (hex_with_prefix (vp_capacity_provider vp_tx)))
  | _, _ => None
  end.

Definition indexed_transaction_of (tx : Tx) (block_height block_index : Z)
    (status : TransactionStatus) (gas_used : option Z) (events : list Event) (timestamp : Z) :
    IndexedTransaction :=
  let tx_id := calculate_tx_id tx in
  mkIndexedTransaction tx_id block_height block_index timestamp tx status gas_used
    (imap (λ i event, indexed_event_from_abci tx_id (Z.of_nat i) event block_height block_index
                        timestamp) events).

Definition index_transaction (tx : Tx) (block_height block_index : Z) (status : TransactionStatus)
    (gas_used : option Z) (events : list Event) (timestamp : Z) (db : IndexDb) :
    eld_result unit * IndexDb :=
  let tx_id := calculate_tx_id tx in
  match itx_to_vec (indexed_transaction_of tx block_height block_index status gas_used events
                      timestamp) with
  | None => (Err (StorageError "serialize_indexed_transaction"), db)
  | Some serialized =>
      let primary_already_present := bool_decide (is_Some (itx_cf db !! tx_id)) in
      let db := put_itx tx_id serialized db in
      let db := put_itx (String.append "block_height:" (String.append (to_string block_height)
                  (String.append ":tx_index:" (to_string block_index)))) (as_bytes tx_id) db in
      let db := put_itx (block_position_chron_index_key_bytes block_height block_index)
                  (as_bytes tx_id) db in
      let db := put_itx (String.append "sender:" (String.append
                  (hex_with_prefix (sender (payload_inner (tx_payload tx))))
                  (String.append ":nonce:" (to_string (nonce_value (tx_nonce tx))))))
                  (as_bytes tx_id) db in
      let db := put_itx (String.append "type:" (String.append (payload_type (tx_payload tx))
                  (String ":" tx_id))) (as_bytes tx_id) db in
      let db :=
        match rewarded_provider status tx with
        | Some provider_key =>
            bump_verified_proof_global_rewards_count
              (put_itx (verified_proof_reward_index_key provider_key block_height block_index) [] db)
        | None => db
        end in
      if primary_already_present then (Ok tt, db)
      else bump_indexed_transaction_primary_total_count db
  end.

(** ** Queries on transactions *)

Definition normalize_tx_id (tx_id : string) : string :=
  if starts_with "0x" tx_id then tx_id else String.append "0x" tx_id.

Definition get_indexed_transaction (db : IndexDb) (tx_id : string) :
    eld_result (option IndexedTransaction) :=
  match itx_cf db !! normalize_tx_id tx_id with
  | None => Ok None
  | Some data =>
      let? e := ok_or (itx_from_slice data) (StorageError "deserialize_indexed_transaction") in
      Ok (Some e)
  end.

Definition indexed_transaction_matches_optional_filters (ix : IndexedTransaction)
    (f : IndexedTxChronFilters) : bool :=
  match filter_block_height f with Some h => ix_block_height ix =? h | None => true end &&
  match filter_sender f with
  | Some addr => bool_decide (sender (payload_inner (tx_payload (ix_tx ix))) = addr)
  | None => true
  end &&
  match filter_payload_type f with
  | Some pt => String.eqb (payload_type (tx_payload (ix_tx ix))) pt
  | None => true
  end.

Definition load_primary_indexed_transaction_by_cf (db : IndexDb) (tx_id_bytes : bytes) :
    eld_result IndexedTransaction :=
  let? normalized := ok_or (from_utf8 tx_id_bytes) (StorageError "indexed_tx_secondary_tx_id_utf8") in
  match itx_cf db !! normalized with
  | Some b => ok_or (itx_from_slice b) (StorageError "deserialize_indexed_transaction_by_secondary")
  | None => Err (StorageError "missing_primary_for_block_pos_row")
  end.

(** [chron_block_position_read_options]: the rows between the bounds. *)
Definition chron_rows (db : IndexDb) : list (string * bytes) :=
  List.filter (λ r,
    match key_compare r.1 BLOCK_POS_CHRON_LOWER_BOUND with Lt => false | _ => true end &&
    match key_compare r.1 BLOCK_POS_CHRON_UPPER_BOUND_EXCLUSIVE with Lt => true | _ => false end)
    (rows_of (itx_cf db)).

(** Backwards from the end, or from the last key not above [seek]. *)
Definition rows_back (seek : option string) (rows : list (string * bytes)) : list (string * bytes) :=
  rev match seek with
      | None => rows
      | Some ck => List.filter (λ r, match key_compare r.1 ck with Gt => false | _ => true end) rows
      end.

Fixpoint scan_chron_desc (db : IndexDb) (cursor_tuple : option (Z * Z)) (f : IndexedTxChronFilters)
    (fetch_limit : nat) (rows : list (string * bytes)) (out : list IndexedTransaction) :
    eld_result (list IndexedTransaction) :=
  match rows with
  | [] => Ok out
  | (key_str, value) :: rows =>
      if negb (starts_with "block_pos:" key_str)
      then scan_chron_desc db cursor_tuple f fetch_limit rows out
      else
        match parse_block_position_chron_key key_str with
        | None => Err (StorageError "parse_block_pos_key")
        | Some (kh, ki) =>
            if match cursor_tuple with
               | Some (ch, ci) => (ch <? kh) || ((kh =? ch) && (ci <=? ki))
               | None => false
               end
            then scan_chron_desc db cursor_tuple f fetch_limit rows out
            else
              match load_primary_indexed_transaction_by_cf db value with
              | Err e => Err e
              | Ok indexed_tx =>
                  if negb (indexed_transaction_matches_optional_filters indexed_tx f)
                  then scan_chron_desc db cursor_tuple f fetch_limit rows out
                  else
                    let out := out ++ [indexed_tx] in
                    if (fetch_limit <=? length out)%nat then Ok out
                    else scan_chron_desc db cursor_tuple f fetch_limit rows out
              end
        end
  end.

Definition list_indexed_transactions_chron_desc_scanned (db : IndexDb) (cursor_tuple : option (Z * Z))
    (f : IndexedTxChronFilters) (fetch_limit : nat) : eld_result (list IndexedTransaction) :=
  let seek := (λ c, block_position_chron_index_key_bytes c.1 c.2) <$> cursor_tuple in
  scan_chron_desc db cursor_tuple f fetch_limit (rows_back seek (chron_rows db)) [].

(** [limit] and the extra row, a saturating [u32] sum, at least one. *)
Definition list_indexed_transactions_chron_desc (db : IndexDb) (cursor_exclusive : option (Z * Z))
    (limit : Z) (fetch_one_extra_row : bool) (f : IndexedTxChronFilters) :
    eld_result (list IndexedTransaction) :=
  let extra := if fetch_one_extra_row then 1 else 0 in
  list_indexed_transactions_chron_desc_scanned db cursor_exclusive f
    (Nat.max (Z.to_nat (saturating_add u32_max limit extra)) 1).

Fixpoint count_matching (db : IndexDb) (f : IndexedTxChronFilters) (rows : list (string * bytes))
    (n : Z) : eld_result Z :=
  match rows with
  | [] => Ok n
  | (_, value) :: rows =>
      let? indexed_tx := load_primary_indexed_transaction_by_cf db value in
      count_matching db f rows
        (if indexed_transaction_matches_optional_filters indexed_tx f then n + 1 else n)
  end.

Definition count_indexed_transactions_matching_chron_filters (db : IndexDb)
    (f : IndexedTxChronFilters) : eld_result Z :=
  count_matching db f (chron_rows db) 0.

(** ** Events *)

Definition event_primary_key (tx_id : string) (event_index : Z) : string :=
  String.append "tx_id:" (String.append tx_id (String.append ":event_index:" (to_string event_index))).

Definition event_position (block_height block_index event_index : Z) : string :=
  String.append "block_height:" (String.append (to_string block_height)
    (String.append ":block_index:" (String.append (to_string block_index)
      (String.append ":event_index:" (to_string event_index))))).

Definition index_event (tx_id : string) (event_index : Z) (event : Event)
    (block_height block_index timestamp : Z) (db : IndexDb) : eld_result unit * IndexDb :=
  let indexed_event :=
    indexed_event_from_abci tx_id event_index event block_height block_index timestamp in
  match iev_to_vec indexed_event with
  | None => (Err (StorageError "serialize_indexed_event"), db)
  | Some serialized =>
      let primary_key := event_primary_key tx_id event_index in
      let position := event_position block_height block_index event_index in
      let db := put_iev primary_key serialized db in
      let db := put_iev (String.append "type:" (String.append (ie_event_type indexed_event)
                  (String ":" position))) (as_bytes primary_key) db in
      (Ok tt, put_iev position (as_bytes primary_key) db)
  end.

(** The loop of [get_events_by_tx_id] over all rows: it stops at the first key
    above the prefix that does not start with it. *)
Fixpoint collect_events (prefix : string) (rows : list (string * bytes)) (events : list IndexedEvent) :
    eld_result (list IndexedEvent) :=
  match rows with
  | [] => Ok events
  | (key_str, value) :: rows =>
      if starts_with prefix key_str then
        let? e := ok_or (iev_from_slice value) (StorageError "deserialize_indexed_event") in
        collect_events prefix rows (events ++ [e])
      else match key_compare key_str prefix with
           | Gt => Ok events
           | _ => collect_events prefix rows events
           end
  end.

Definition get_events_by_tx_id (db : IndexDb) (tx_id : string) : eld_result (list IndexedEvent) :=
  let prefix := String.append "tx_id:" (String.append (normalize_tx_id tx_id) ":event_index:") in
  let? events := collect_events prefix (rows_of (iev_cf db)) [] in
  Ok (sort_by (λ a b, Z.compare (ie_event_index a) (ie_event_index b)) events).

Definition is_event_position_key (key_str : string) : bool :=
  starts_with "block_height:" key_str && contains ":block_index:" key_str &&
  contains ":event_index:" key_str.

(** The loop of [get_all_events]: every position row is counted, those past
    the offset are loaded until the page is full. *)
Fixpoint page_events (db : IndexDb) (offset : Z) (limit : nat) (rows : list (string * bytes))
    (events : list IndexedEvent) (count skipped : Z) : eld_result (list IndexedEvent * Z) :=
  match rows with
  | [] => Ok (events, count)
  | (key_str, value) :: rows =>
      if negb (is_event_position_key key_str) then page_events db offset limit rows events count skipped
      else if skipped <? offset
      then page_events db offset limit rows events (count + 1) (skipped + 1)
      else if (length events <? limit)%nat then
        match iev_cf db !! String.string_of_list_ascii (map Ascii.ascii_of_byte value) with
        | None => page_events db offset limit rows events (count + 1) skipped
        | Some data =>
            let? e := ok_or (iev_from_slice data) (StorageError "deserialize_indexed_event") in
            page_events db offset limit rows (events ++ [e]) (count + 1) skipped
        end
      else page_events db offset limit rows events (count + 1) skipped
  end.

(** The offset is a [u32] product. *)
Definition get_all_events (db : IndexDb) (page limit : Z) : eld_result (list IndexedEvent * Z) :=
  let offset := ((page - 1) mod 2 ^ 32 * limit) mod 2 ^ 32 in
  page_events db offset (Z.to_nat limit) (rev (rows_of (iev_cf db))) [] 0 0.

(** ** Rewards *)

(** The loop of [aggregate_verified_proof_rewards]. *)
Fixpoint count_rewards (prefix : string) (from_height to_height : Z) (keys : list string) (count : Z) : Z :=
  match keys with
  | [] => count
  | key_str :: keys =>
      if negb (starts_with prefix key_str) then count
      else
        match parse_verified_proof_reward_index_key key_str with
        | None => count_rewards prefix from_height to_height keys count
        | Some (_, h, _) =>
            if h <? from_height then count_rewards prefix from_height to_height keys count
            else if to_height <? h then count
            else count_rewards prefix from_height to_height keys (count + 1)
        end
  end.

Definition saturating_mul_u128 (a b : Z) : Z := Z.min u128_max (a * b).

Definition aggregate_verified_proof_rewards (db : IndexDb) (provider : string)
    (from_height to_height reward_per_proof : Z) : eld_result (Z * Z) :=
  let? addr := parse_hex_str provider in
  let normalized := to_ascii_lowercase (hex_with_prefix addr) in
  let lower := verified_proof_reward_index_key normalized from_height 0 in
  let prefix := String.append "vp:" (String.append normalized ":") in
  let count := count_rewards prefix from_height to_height
                 (seek lower (sorted_keys (dom (itx_cf db)))) 0 in
  Ok (count, saturating_mul_u128 count reward_per_proof).

Definition global_verified_proof_rewards (db : IndexDb) (reward_per_proof : Z) : Z * Z :=
  let count := read_verified_proof_global_rewards_count db in
  (count, saturating_mul_u128 count reward_per_proof).

(** ** The cursor of the sync loop *)

Definition get_indexer_cursor (db : IndexDb) : eld_result (option Z) :=
  match itx_cf db !! INDEXER_CURSOR_KEY with
  | None => Ok None
  | Some b =>
      let? s := ok_or (from_utf8 b) (StorageError "get_indexer_cursor") in
      let? h := ok_or (parse_unsigned u64_max s) (StorageError "get_indexer_cursor") in
      Ok (Some h)
  end.

Definition set_indexer_cursor (height : Z) (db : IndexDb) : IndexDb :=
  put_itx INDEXER_CURSOR_KEY (as_bytes (to_string height)) db.

Definition block_position_indexed (db : IndexDb) (block_height block_index : Z) : bool :=
  bool_decide (is_Some (itx_cf db !! block_position_chron_index_key_bytes block_height block_index)).
End indexer.

(** ** Keys *)

Lemma string_drop_append p s : string_drop (String.length p) (String.append p s) = s.
Proof.
  unfold string_drop. rewrite string_length_app.
  replace (String.length p + String.length s - String.length p)%nat with (String.length s) by lia.
  induction p as [|c p IH]; [|exact IH]. induction s as [|c s IH]; [done|].
  change (String c (String.substring 0 (String.length s) s) = String c s). by f_equal.
Qed.

Lemma strip_prefix_append p s : strip_prefix p (String.append p s) = Some s.
Proof. unfold strip_prefix. by rewrite starts_with_append, string_drop_append. Qed.

Lemma starts_with_inv p s : starts_with p s = true → ∃ t, s = String.append p t.
Proof.
  intros (t & E)%starts_with_bytes. exists (String.string_of_list_ascii (map Ascii.ascii_of_byte t)).
  apply as_bytes_inj. rewrite E, as_bytes_append. f_equal. unfold as_bytes.
  rewrite String.list_ascii_of_string_of_list_ascii, map_map.
  rewrite <- (map_id t) at 1. apply map_ext. intros b. symmetry. apply Ascii.byte_of_ascii_of_byte.
Qed.

Lemma parse_hex_digits_hex max w n acc :
  0 ≤ n < 16 ^ Z.of_nat w → n ≤ max →
  parse_hex_digits max (hex_digits w n acc) 0 = parse_hex_digits max acc n.
Proof.
  revert n acc. induction w as [|w IH]; intros n acc Hn Hm.
  { simpl in Hn. simpl. f_equal. lia. }
  rewrite Nat2Z.inj_succ, Z.pow_succ_r in Hn by lia.
  assert (0 ≤ n mod 16 < 16) as Hd by (apply Z.mod_pos_bound; lia).
  assert (n = 16 * (n / 16) + n mod 16) as Hdm by (apply Z.div_mod; lia).
  assert (0 ≤ n / 16 < 16 ^ Z.of_nat w).
  { split; [apply Z.div_pos; lia|]. apply Z.div_lt_upper_bound; lia. }
  cbn [hex_digits]. rewrite IH by lia. cbn [parse_hex_digits].
  rewrite (proj1 (nibble_roundtrip _ Hd)). unfold checked_mul, checked_add.
  rewrite !(proj2 (Z.leb_le _ _)) by lia. f_equal. lia.
Qed.

Lemma hex_head max s :
  s ≠ EmptyString → string_all is_ascii_hexdigit s = true →
  from_str_radix_16 max s = parse_hex_digits max s 0.
Proof.
  destruct s as [|c s]; [done|]. intros _ Hs. cbn [string_all] in Hs. apply andb_true_iff in Hs as [Hc _].
  unfold from_str_radix_16. destruct (Ascii.eqb_spec c "+"%char) as [->|]; [done|reflexivity].
Qed.

Lemma from_str_radix_16_hex max w n :
  max < 16 ^ Z.of_nat (S w) → 0 ≤ n ≤ max →
  from_str_radix_16 max (hex_digits (S w) n EmptyString) = Some n.
Proof.
  intros Hn Hm. destruct (hex_digits_shape (S w) n EmptyString eq_refl) as [Hd Hl].
  rewrite hex_head; [by rewrite parse_hex_digits_hex by lia| |done]. intros E. rewrite E in Hl. done.
Qed.

(** Hex text has no colon. *)
Lemma hex_no_colon s :
  string_all is_ascii_hexdigit s = true → string_all (λ c, negb (Ascii.eqb ":" c)) s = true.
Proof.
  apply string_all_impl. intros c Hc. destruct (Ascii.eqb_spec ":"%char c) as [<-|]; [done|reflexivity].
Qed.

Lemma hex_digits_no_colon w n : string_all (λ c, negb (Ascii.eqb ":" c)) (hex_digits w n EmptyString) = true.
Proof. by apply hex_no_colon, hex_digits_shape. Qed.

(** A position of the chain, within the widths of the key. *)
Definition position_ok (p : Z * Z) : Prop := 0 ≤ p.1 ≤ u64_max ∧ 0 ≤ p.2 ≤ u32_max.

Lemma parse_chron_key h i :
  position_ok (h, i) →
  parse_block_position_chron_key (block_position_chron_index_key_bytes h i) = Some (h, i).
Proof.
  intros [Hh Hi]. cbn [fst snd] in *.
  unfold parse_block_position_chron_key, block_position_chron_index_key_bytes, position_hex.
  rewrite strip_prefix_append. cbn [mbind option_bind].
  rewrite split_once_app by apply hex_digits_no_colon. cbn [mbind option_bind].
  rewrite from_str_radix_16_hex by done. cbn [mbind option_bind].
  by rewrite from_str_radix_16_hex by done.
Qed.

Lemma parse_reward_key p h i :
  string_all (λ c, negb (Ascii.eqb ":" c)) p = true → position_ok (h, i) →
  parse_verified_proof_reward_index_key (verified_proof_reward_index_key p h i) = Some (p, h, i).
Proof.
  intros Hp [Hh Hi]. cbn [fst snd] in *.
  unfold parse_verified_proof_reward_index_key, verified_proof_reward_index_key, position_hex.
  rewrite strip_prefix_append. cbn [mbind option_bind]. rewrite split_on_app by done.
  rewrite split_on_app by apply hex_digits_no_colon. rewrite split_on_none by apply hex_digits_no_colon.
  rewrite from_str_radix_16_hex by done. cbn [mbind option_bind].
  by rewrite from_str_radix_16_hex by done.
Qed.

(** The byte order of keys is the order of the chain. *)
Lemma position_compare p q :
  position_ok p → position_ok q →
  bytes_compare (as_bytes (position_hex p.1 p.2)) (as_bytes (position_hex q.1 q.2)) =
    lex Z.compare Z.compare p q.
Proof.
  unfold position_ok, u64_max, u32_max. intros [Hp1 Hp2] [Hq1 Hq2]. unfold position_hex, lex.
  rewrite !as_bytes_append, bytes_compare_app.
  2:{ rewrite !as_bytes_length, !(proj2 (hex_digits_shape 16 _ EmptyString eq_refl)). done. }
  rewrite hex_digits_compare by (simpl; lia). f_equal.
  change (bytes_compare (as_bytes (hex_digits 8 p.2 EmptyString)) (as_bytes (hex_digits 8 q.2 EmptyString))
    = (p.2 ?= q.2)).
  by rewrite hex_digits_compare by (simpl; lia).
Qed.

Lemma bytes_compare_same a x y : bytes_compare (a ++ x) (a ++ y) = bytes_compare x y.
Proof. rewrite bytes_compare_app by done. by rewrite (proj2 (cmp_eq (cmp := bytes_compare) a a) eq_refl). Qed.

Lemma chron_key_compare p q :
  position_ok p → position_ok q →
  key_compare (block_position_chron_index_key_bytes p.1 p.2)
    (block_position_chron_index_key_bytes q.1 q.2) = lex Z.compare Z.compare p q.
Proof.
  intros Hp Hq. unfold key_compare, block_position_chron_index_key_bytes.
  rewrite !as_bytes_append, bytes_compare_same. by apply position_compare.
Qed.

(** The keys between [block_pos:] and [block_pos;] are those with the prefix. *)
Lemma bytes_range q x y a :
  (∀ z, Byte.to_N x ≤ Byte.to_N z → Byte.to_N z < Byte.to_N y → z = x)%N → (Byte.to_N x < Byte.to_N y)%N →
  bytes_compare a (q ++ [x]) ≠ Lt ∧ bytes_compare a (q ++ [y]) = Lt ↔ ∃ t, a = q ++ x :: t.
Proof.
  intros Hxy Hlt. revert a. induction q as [|z q IH]; intros a; cbn [app].
  - destruct a as [|b a]; [split; [by intros []|by intros [t [=]]]|]. cbn [bytes_compare].
    destruct (N.compare_spec (Byte.to_N b) (Byte.to_N x)) as [E|E|E];
      destruct (N.compare_spec (Byte.to_N b) (Byte.to_N y)) as [F|F|F]; try lia.
    + assert (b = x) as -> by (apply Hxy; lia). split; [by eexists|]. intros _. split; [by destruct a|done].
    + split; [by intros []|]. intros (t & [= -> ->]). lia.
    + split; [by intros [_ ?]; destruct a|]. intros (t & [= -> ->]). lia.
    + split; [|intros (t & [= -> ->]); lia]. intros _. assert (b = x) as -> by (apply Hxy; lia). by eexists.
    + split; [by intros []|]. intros (t & [= -> ->]). lia.
  - destruct a as [|b a]; [split; [by intros []|by intros [t [=]]]|]. cbn [bytes_compare].
    destruct (N.compare_spec (Byte.to_N b) (Byte.to_N z)) as [E|E|E].
    + rewrite IH. assert (b = z) as ->.
      { pose proof (Byte.of_to_N b) as Eb. rewrite E, Byte.of_to_N in Eb. by injection Eb. }
      split; intros (t & Et); exists t; [by rewrite Et|by injection Et].
    + split; [by intros []|]. intros (t & [= -> _]). lia.
    + split; [by intros []|]. intros (t & [= -> _]). lia.
Qed.

Lemma chron_range k :
  match key_compare k BLOCK_POS_CHRON_LOWER_BOUND with Lt => false | _ => true end &&
  match key_compare k BLOCK_POS_CHRON_UPPER_BOUND_EXCLUSIVE with Lt => true | _ => false end =
  starts_with "block_pos:" k.
Proof.
  apply eq_true_iff_eq. transitivity (∃ t, as_bytes k = as_bytes "block_pos" ++ Init.Byte.x3a :: t).
  - rewrite <- (bytes_range (as_bytes "block_pos") Init.Byte.x3a Init.Byte.x3b); [|
      intros z; by destruct z|done].
    unfold key_compare. change (as_bytes BLOCK_POS_CHRON_LOWER_BOUND)
      with (as_bytes "block_pos" ++ [Init.Byte.x3a]).
    change (as_bytes BLOCK_POS_CHRON_UPPER_BOUND_EXCLUSIVE) with (as_bytes "block_pos" ++ [Init.Byte.x3b]).
    rewrite andb_true_iff. destruct (bytes_compare _ _); destruct (bytes_compare _ _); intuition discriminate.
  - split.
    + intros (t & E). apply (bytes_starts_with _ _ t). exact E.
    + intros (t & E)%starts_with_bytes. exists t. exact E.
Qed.

(** A sorted list is determined by its elements. *)
Lemma sorted_determined l1 l2 :
  StronglySorted (cmp_le key_compare) l1 → NoDup l1 → NoDup l2 → (∀ k, k ∈ l1 ↔ k ∈ l2) →
  l1 = sort_by key_compare l2.
Proof.
  intros Hs H1 H2 Hk. apply (StronglySorted_unique_strong (cmp_le key_compare));
    [intros x y _ _; apply cmp_le_antisym; apply _|done|apply sort_by_sorted; apply _|].
  rewrite sort_by_perm. by apply NoDup_Permutation.
Qed.

(** The keys of a family that satisfy a predicate, in order. *)
Lemma keys_determined (cf : gmap string bytes) (p : string → bool) (l : list string) :
  NoDup l → (∀ k, k ∈ l ↔ p k = true ∧ is_Some (cf !! k)) →
  List.filter p (sorted_keys (dom cf)) = sort_by key_compare l.
Proof.
  intros Hl Hk. apply sorted_determined; [| |done|].
  - apply filter_sorted. unfold sorted_keys. apply sort_by_sorted. apply _.
  - apply NoDup_ListNoDup, List.NoDup_filter, NoDup_ListNoDup. unfold sorted_keys.
    rewrite sort_by_perm. apply NoDup_elements.
  - intros k. rewrite Hk, list_elem_of_In, filter_In, <- list_elem_of_In, sorted_keys_in, elem_of_dom. tauto.
Qed.

Section indexer_laws.
Context {H : HexCrate} {HL : HexLaws H} {HC : HashCrates} {J : IndexerJson} {JL : IndexerJsonLaws J}.

(** ** What the index holds *)

Definition position (e : IndexedTransaction) : Z * Z := (ix_block_height e, ix_block_index e).
Definition chron_key (e : IndexedTransaction) : string :=
  block_position_chron_index_key_bytes (ix_block_height e) (ix_block_index e).
Definition provider_of (e : IndexedTransaction) : option string :=
  rewarded_provider (ix_status e) (ix_tx e).
Definition is_rewarded (e : IndexedTransaction) : bool := bool_decide (is_Some (provider_of e)).
Definition reward_key (e : IndexedTransaction) : option string :=
  p ← provider_of e; Some (verified_proof_reward_index_key p (ix_block_height e) (ix_block_index e)).

Definition entry_ok (e : IndexedTransaction) : Prop :=
  position_ok (position e) ∧ ix_id e = calculate_tx_id (ix_tx e).

(** The family [indexed_transactions] holds exactly the entries [es]. *)
Record indexed (db : IndexDb) (es : list IndexedTransaction) : Prop := {
  in_ok : Forall entry_ok es;
  in_ids : NoDup (ix_id <$> es);
  in_positions : NoDup (position <$> es);
  in_row e : e ∈ es → ∃ b, itx_cf db !! ix_id e = Some b ∧ itx_from_slice b = Some e;
  in_primary k : is_primary_key k = true → is_Some (itx_cf db !! k) → k ∈ ix_id <$> es;
  in_chron k v : starts_with "block_pos:" k = true →
    itx_cf db !! k = Some v ↔ ∃ e, e ∈ es ∧ k = chron_key e ∧ v = as_bytes (ix_id e);
  in_rewards k : starts_with "vp:" k = true →
    is_Some (itx_cf db !! k) ↔ ∃ e, e ∈ es ∧ reward_key e = Some k;
  in_total : itx_cf db !! INDEXED_TRANSACTIONS_PRIMARY_TOTAL_COUNT_KEY = None ∨
    itx_cf db !! INDEXED_TRANSACTIONS_PRIMARY_TOTAL_COUNT_KEY =
      Some (le_bytes 8 (Z.of_nat (length es)));
}.

(** The global counter counts the rewarded entries. *)
Definition rewards_counted (db : IndexDb) (es : list IndexedTransaction) : Prop :=
  read_verified_proof_global_rewards_count db = Z.of_nat (length (List.filter is_rewarded es)).

Lemma utf8_ascii s : string_all (λ c, ascii_between 0 127 c) s = true → from_utf8 (as_bytes s) = Some s.
Proof.
  intros Hs. unfold from_utf8.
  assert (utf8_valid (as_bytes s) = true) as ->.
  { induction s as [|c s IH]; [done|]. cbn [string_all] in Hs. apply andb_true_iff in Hs as [Hc Hs].
    change (as_bytes (String c s)) with (Ascii.byte_of_ascii c :: as_bytes s). cbn [utf8_valid].
    rewrite (IH Hs). destruct c as [[] [] [] [] [] [] [] []]; try reflexivity; discriminate. }
  f_equal. apply as_bytes_inj. unfold as_bytes.
  rewrite String.list_ascii_of_string_of_list_ascii, !map_map.
  apply map_ext. intros c. by rewrite Ascii.ascii_of_byte_of_ascii.
Qed.

Lemma tx_id_shape tx :
  string_all (λ c, is_ascii_hexdigit c || Ascii.eqb c "x") (calculate_tx_id tx) = true.
Proof.
  unfold calculate_tx_id. change (String.append "0x" ?x) with (String "0" (String "x" x)).
  cbn [string_all]. apply (string_all_impl is_ascii_hexdigit).
  - intros c ->. done.
  - apply hex_encode_hexdigits.
Qed.

Lemma tx_id_utf8 tx : from_utf8 (as_bytes (calculate_tx_id tx)) = Some (calculate_tx_id tx).
Proof.
  apply utf8_ascii. eapply string_all_impl; [|apply tx_id_shape]. intros c.
  destruct c as [[] [] [] [] [] [] [] []]; done.
Qed.

Lemma tx_id_primary tx : is_primary_key (calculate_tx_id tx) = true.
Proof.
  unfold is_primary_key. rewrite (starts_with_append "0x" _ : starts_with "0x" (calculate_tx_id tx) = true).
  cbn [andb]. apply negb_true_iff. eapply (contains_absent _ ":"); [|apply tx_id_shape]. done.
Qed.

(** *** Loading *)

Lemma load_entry db es e :
  indexed db es → e ∈ es →
  load_primary_indexed_transaction_by_cf db (as_bytes (ix_id e)) = Ok e.
Proof.
  intros Hi He. unfold load_primary_indexed_transaction_by_cf.
  pose proof (in_ok _ _ Hi) as Hok. rewrite list.Forall_forall in Hok.
  destruct (Hok e He) as [_ Eid]. rewrite Eid, tx_id_utf8. cbn [ok_or]. rewrite <- Eid.
  destruct (in_row _ _ Hi e He) as (b & -> & Eb). by rewrite Eb.
Qed.
(** *** The chronological rows *)

Definition by_position (a b : IndexedTransaction) : comparison :=
  lex Z.compare Z.compare (position a) (position b).

Definition oldest_first (es : list IndexedTransaction) : list IndexedTransaction := sort_by by_position es.
Definition newest_first (es : list IndexedTransaction) : list IndexedTransaction := rev (oldest_first es).

Definition entry_row (e : IndexedTransaction) : string * bytes := (chron_key e, as_bytes (ix_id e)).

Lemma entry_position db es e : indexed db es → e ∈ es → position_ok (position e).
Proof. intros Hi He. pose proof (in_ok _ _ Hi) as Hok. rewrite list.Forall_forall in Hok. by apply Hok. Qed.

Lemma chron_keys_compare db es a b :
  indexed db es → a ∈ es → b ∈ es → key_compare (chron_key a) (chron_key b) = by_position a b.
Proof. intros Hi Ha Hb. by apply (chron_key_compare (position a) (position b)); eapply entry_position. Qed.

Lemma NoDup_inj_on {A B} (f : A → B) l a b : NoDup (f <$> l) → a ∈ l → b ∈ l → f a = f b → a = b.
Proof.
  intros Hn (i & Ei)%list_elem_of_lookup (j & Ej)%list_elem_of_lookup E.
  assert (i = j) as -> by (eapply NoDup_lookup; [done|rewrite list_lookup_fmap, Ei; done|];
    rewrite list_lookup_fmap, Ej; simpl; by rewrite E). congruence.
Qed.

Lemma chron_keys_NoDup db es : indexed db es → NoDup (chron_key <$> es).
Proof.
  intros Hi. apply NoDup_fmap_2_strong; [|eapply NoDup_fmap_1, in_positions, Hi].
  intros a b Ha Hb E. apply (NoDup_inj_on position es); [apply (in_positions _ _ Hi)|done..|].
  apply (cmp_eq (cmp := lex Z.compare Z.compare)). change (by_position a b = Eq).
  rewrite <- (chron_keys_compare db es a b Hi Ha Hb), E. by apply cmp_eq.
Qed.

Lemma chron_key_starts e : starts_with "block_pos:" (chron_key e) = true.
Proof. exact (starts_with_append "block_pos:" (position_hex _ _)). Qed.

Lemma chron_rows_entries db es : indexed db es → chron_rows db = entry_row <$> oldest_first es.
Proof.
  intros Hi. unfold chron_rows, rows_of. rewrite filter_map_comm. cbn [fst].
  rewrite (filter_ext _ (starts_with "block_pos:")) by (intros k; apply chron_range).
  rewrite (keys_determined (itx_cf db) _ (chron_key <$> es) (chron_keys_NoDup db es Hi)).
  - rewrite (sort_by_fmap chron_key key_compare by_position)
      by (intros; by eapply chron_keys_compare).
    rewrite <- list_fmap_compose. apply Forall_fmap_ext. rewrite list.Forall_forall. intros e He.
    unfold oldest_first in He. rewrite sort_by_perm in He. unfold entry_row. simpl. f_equal.
    by rewrite (proj2 (in_chron _ _ Hi (chron_key e) (as_bytes (ix_id e)) (chron_key_starts e))
      (ex_intro _ e (conj He (conj eq_refl eq_refl)))).
  - intros k. split.
    + intros (e & -> & He)%list_elem_of_fmap. split; [apply chron_key_starts|].
      exists (as_bytes (ix_id e)). apply (in_chron _ _ Hi); [apply chron_key_starts|by exists e].
    + intros [Hk (v & (e & He & -> & _)%(in_chron _ _ Hi _ _ Hk))]. by apply list_elem_of_fmap_2.
Qed.

(** *** Listings *)

(** Strictly before the cursor in the order of the chain. *)
Definition older (cursor : option (Z * Z)) (e : IndexedTransaction) : bool :=
  match cursor with
  | None => true
  | Some (ch, ci) => negb ((ch <? ix_block_height e) ||
                           ((ix_block_height e =? ch) && (ci <=? ix_block_index e)))
  end.

Lemma scan_entries db es cursor f n : indexed db es → ∀ l out,
  (∀ e, e ∈ l → e ∈ es) → (length out < n)%nat →
  scan_chron_desc db cursor f n (entry_row <$> l) out =
    Ok (out ++ take (n - length out) (List.filter
      (λ e, indexed_transaction_matches_optional_filters e f) (List.filter (older cursor) l))).
Proof.
  intros Hi l. induction l as [|e l IH]; intros out Hl Hn.
  { cbn. by rewrite take_nil, app_nil_r. }
  assert (e ∈ es) as He by (apply Hl; by left).
  assert (∀ x, x ∈ l → x ∈ es) as Hl' by (intros x Hx; apply Hl; by right).
  rewrite fmap_cons. cbn [scan_chron_desc entry_row fst snd]. rewrite chron_key_starts. cbn [negb].
  unfold chron_key. rewrite (parse_chron_key _ _ (entry_position db es e Hi He)).
  cbn [List.filter]. fold (chron_key e).
  assert (older cursor e = negb match cursor with
    | Some (ch, ci) => (ch <? ix_block_height e) || ((ix_block_height e =? ch) && (ci <=? ix_block_index e))
    | None => false end) as -> by (by destruct cursor as [[]|]).
  destruct (match cursor with Some _ => _ | None => false end); cbn [negb]; [by apply IH|].
  rewrite (load_entry db es e Hi He). cbn [List.filter].
  destruct (indexed_transaction_matches_optional_filters e f); cbn [negb]; [|by apply IH].
  destruct (Nat.leb_spec n (length (out ++ [e]))) as [Hfull|Hroom]; rewrite length_app in *; cbn [length] in *.
  - replace (n - length out)%nat with 1%nat by lia. cbn [take]. done.
  - rewrite IH by (rewrite ?length_app; cbn [length]; done || lia). rewrite <- app_assoc, length_app. cbn [length].
    replace (n - length out)%nat with (S (n - (length out + 1))) by lia. done.
Qed.

Lemma filter_rev {A} (p : A → bool) l : List.filter p (rev l) = rev (List.filter p l).
Proof.
  induction l as [|a l IH]; [done|]. cbn [rev List.filter]. rewrite List.filter_app, IH. cbn [List.filter].
  destruct (p a); [done|]. by rewrite app_nil_r.
Qed.

Lemma list_entries db es cursor f n :
  indexed db es → match cursor with Some c => position_ok c | None => True end → (0 < n)%nat →
  list_indexed_transactions_chron_desc_scanned db cursor f n =
    Ok (take n (List.filter (λ e, indexed_transaction_matches_optional_filters e f)
      (List.filter (older cursor) (newest_first es)))).
Proof.
  intros Hi Hc Hn. unfold list_indexed_transactions_chron_desc_scanned.
  rewrite (chron_rows_entries db es Hi).
  assert (∀ e, e ∈ oldest_first es → e ∈ es) as Ho
    by (intros e; unfold oldest_first; by rewrite sort_by_perm).
  assert (∃ l, rows_back ((λ c, block_position_chron_index_key_bytes c.1 c.2) <$> cursor)
      (entry_row <$> oldest_first es) = entry_row <$> l ∧ (∀ e, e ∈ l → e ∈ es) ∧
      List.filter (older cursor) l = List.filter (older cursor) (newest_first es)) as (l & -> & Hl & El).
  { destruct cursor as [[ch ci]|]; cbn [fmap option_fmap option_map rows_back fst snd].
    - unfold rows_back. rewrite filter_map_comm. cbn [fst entry_row].
      exists (rev (List.filter (λ e, match key_compare (chron_key e)
        (block_position_chron_index_key_bytes ch ci) with Gt => false | _ => true end) (oldest_first es))).
      split_and!.
      + by rewrite <- map_rev.
      + intros e He. apply Ho. apply list_elem_of_In, in_rev, filter_In in He as [He _].
        by apply list_elem_of_In.
      + unfold newest_first. rewrite !filter_rev. f_equal. apply filter_filter_absorb.
        intros e He Hold. unfold chron_key.
        rewrite (chron_key_compare (position e) (ch, ci) (entry_position db es e Hi (Ho e He)) Hc
          : key_compare (block_position_chron_index_key_bytes (ix_block_height e) (ix_block_index e))
              (block_position_chron_index_key_bytes ch ci) = _).
        unfold older in Hold. unfold lex, then_with, position. cbn [fst snd].
        destruct (Z.compare_spec (ix_block_height e) ch), (Z.compare_spec (ix_block_index e) ci); try done;
          exfalso; apply negb_true_iff, orb_false_iff in Hold as [Ho1 Ho2]; eld_bool; lia.
    - unfold rows_back. exists (newest_first es). split_and!; [by rewrite <- map_rev| |done].
      intros e He. apply Ho. apply list_elem_of_In, in_rev in He. by apply list_elem_of_In. }
  rewrite (scan_entries db es cursor f n Hi l [] Hl) by (simpl; lia). cbn [length app].
  by rewrite Nat.sub_0_r, El.
Qed.
(** *** What indexing writes *)

(** The characters that tell the families of keys apart. *)
Definition row_kind (k : string) : option ascii * option ascii :=
  match String.get 0 k with
  | Some "b"%char | Some "_"%char => (String.get 0 k, String.get 6 k)
  | c => (c, None)
  end.

Lemma put_other k k' v db : row_kind k' ≠ row_kind k → itx_cf (put_itx k v db) !! k' = itx_cf db !! k'.
Proof. intros Hk. cbn [put_itx itx_cf]. apply lookup_insert_ne. by intros ->. Qed.

Lemma put_same k v db : itx_cf (put_itx k v db) !! k = Some v.
Proof. cbn [put_itx itx_cf]. apply lookup_insert_eq. Qed.

(** The rows of one transaction, without the counters. *)
Definition base_rows (e : IndexedTransaction) (serialized : bytes) (db : IndexDb) : IndexDb :=
  let tx := ix_tx e in
  let id := as_bytes (ix_id e) in
  put_itx (String.append "type:" (String.append (payload_type (tx_payload tx)) (String ":" (ix_id e)))) id
    (put_itx (String.append "sender:" (String.append (hex_with_prefix (sender (payload_inner (tx_payload tx))))
                (String.append ":nonce:" (to_string (nonce_value (tx_nonce tx)))))) id
      (put_itx (chron_key e) id
        (put_itx (String.append "block_height:" (String.append (to_string (ix_block_height e))
                    (String.append ":tx_index:" (to_string (ix_block_index e))))) id
          (put_itx (ix_id e) serialized db)))).

Definition reward_rows (e : IndexedTransaction) (db : IndexDb) : IndexDb :=
  match reward_key e with
  | Some k => bump_verified_proof_global_rewards_count (put_itx k [] db)
  | None => db
  end.

Lemma index_transaction_run tx h i status gas events now db :
  let e := indexed_transaction_of tx h i status gas events now in
  ∃ b, itx_to_vec e = Some b ∧ itx_from_slice b = Some e ∧
    index_transaction tx h i status gas events now db =
      if bool_decide (is_Some (itx_cf db !! ix_id e)) then (Ok tt, reward_rows e (base_rows e b db))
      else bump_indexed_transaction_primary_total_count (reward_rows e (base_rows e b db)).
Proof.
  intros e. destruct (itx_json e) as (b & Eb & Ed). exists b. split; [done|]. split; [done|].
  unfold index_transaction. fold e. rewrite Eb. unfold reward_rows, reward_key, provider_of.
  cbn [ix_status ix_tx e indexed_transaction_of]. by destruct (rewarded_provider status tx).
Qed.

(** Lookups after the rows are written, by kind of key. *)
Definition primary_kind : option ascii * option ascii := (Some "0"%char, None).
Definition chron_kind : option ascii * option ascii := (Some "b"%char, Some "p"%char).
Definition reward_kind : option ascii * option ascii := (Some "v"%char, None).
Definition total_kind : option ascii * option ascii := (Some "_"%char, Some "i"%char).
Definition global_kind : option ascii * option ascii := (Some "_"%char, Some "v"%char).
Definition cursor_kind : option ascii * option ascii := (Some "m"%char, None).

Lemma ix_id_kind tx : row_kind (calculate_tx_id tx) = primary_kind.
Proof. reflexivity. Qed.

Lemma reward_key_kind e k : reward_key e = Some k → row_kind k = reward_kind.
Proof. unfold reward_key. destruct (provider_of e); [|done]. by intros [= <-]. Qed.

Lemma base_rows_lookup e b db k :
  row_kind (ix_id e) = primary_kind →
  itx_cf (base_rows e b db) !! k =
    if bool_decide (row_kind k = primary_kind) then itx_cf (put_itx (ix_id e) b db) !! k
    else if bool_decide (row_kind k = chron_kind)
    then itx_cf (put_itx (chron_key e) (as_bytes (ix_id e)) db) !! k
    else if bool_decide (row_kind k ∈ [reward_kind; total_kind; global_kind; cursor_kind]) then itx_cf db !! k
    else itx_cf (base_rows e b db) !! k.
Proof.
  intros Hid. unfold base_rows. case_bool_decide as H1.
  { rewrite !(put_other _ k) by (rewrite H1; discriminate). done. }
  case_bool_decide as H2.
  { do 2 rewrite (put_other _ k) by (rewrite H2; discriminate).
    cbn [put_itx itx_cf]. destruct (decide (k = chron_key e)) as [->|Hk]; [by rewrite !lookup_insert_eq|].
    rewrite !(lookup_insert_ne _ (chron_key e)) by done.
    rewrite lookup_insert_ne by (intros <-; discriminate H2).
    by rewrite lookup_insert_ne by (intros <-; rewrite Hid in H2; discriminate). }
  case_bool_decide as H3; [|done].
  assert (row_kind k = reward_kind ∨ row_kind k = total_kind ∨ row_kind k = global_kind ∨
    row_kind k = cursor_kind) as H4.
  { rewrite !elem_of_cons, elem_of_nil in H3. tauto. }
  rewrite !(put_other _ k); [done|..]; destruct H4 as [->|[->|[->| ->]]]; rewrite ?Hid; discriminate.
Qed.
Definition written (e : IndexedTransaction) (b : bytes) (db : IndexDb) : IndexDb :=
  reward_rows e (base_rows e b db).

Lemma reward_rows_other e db k :
  row_kind k ≠ reward_kind → row_kind k ≠ global_kind →
  itx_cf (reward_rows e db) !! k = itx_cf db !! k.
Proof.
  intros H1 H2. unfold reward_rows. destruct (reward_key e) as [rk|] eqn:E; [|done].
  unfold bump_verified_proof_global_rewards_count. rewrite !put_other; [done| |done].
  by rewrite (reward_key_kind e rk E).
Qed.

Lemma written_primary e b db k :
  row_kind (ix_id e) = primary_kind → row_kind k = primary_kind →
  itx_cf (written e b db) !! k = itx_cf (put_itx (ix_id e) b db) !! k.
Proof.
  intros Hid Hk. unfold written. rewrite reward_rows_other by (rewrite Hk; discriminate).
  rewrite base_rows_lookup by done. by rewrite bool_decide_true.
Qed.

Lemma written_chron e b db k :
  row_kind (ix_id e) = primary_kind → row_kind k = chron_kind →
  itx_cf (written e b db) !! k = itx_cf (put_itx (chron_key e) (as_bytes (ix_id e)) db) !! k.
Proof.
  intros Hid Hk. unfold written. rewrite reward_rows_other by (rewrite Hk; discriminate).
  rewrite base_rows_lookup by done. rewrite Hk. by rewrite bool_decide_false, bool_decide_true.
Qed.

Lemma base_rows_rest e b db k :
  row_kind (ix_id e) = primary_kind → row_kind k ∈ [reward_kind; total_kind; global_kind; cursor_kind] →
  itx_cf (base_rows e b db) !! k = itx_cf db !! k.
Proof.
  intros Hid Hk. rewrite base_rows_lookup by done.
  assert (row_kind k = reward_kind ∨ row_kind k = total_kind ∨ row_kind k = global_kind ∨
    row_kind k = cursor_kind) as Hc.
  { rewrite !elem_of_cons, elem_of_nil in Hk. tauto. }
  rewrite (bool_decide_false (row_kind k = primary_kind)) by (by destruct Hc as [->|[->|[->| ->]]]).
  rewrite (bool_decide_false (row_kind k = chron_kind)) by (by destruct Hc as [->|[->|[->| ->]]]).
  by rewrite bool_decide_true.
Qed.

Lemma written_total e b db :
  row_kind (ix_id e) = primary_kind →
  itx_cf (written e b db) !! INDEXED_TRANSACTIONS_PRIMARY_TOTAL_COUNT_KEY =
  itx_cf db !! INDEXED_TRANSACTIONS_PRIMARY_TOTAL_COUNT_KEY.
Proof.
  intros Hid. unfold written. rewrite reward_rows_other by discriminate. apply base_rows_rest; [done|].
  change (total_kind ∈ [reward_kind; total_kind; global_kind; cursor_kind]). right. by left.
Qed.

Lemma written_reward e b db k :
  row_kind (ix_id e) = primary_kind → row_kind k = reward_kind →
  is_Some (itx_cf (written e b db) !! k) ↔ reward_key e = Some k ∨ is_Some (itx_cf db !! k).
Proof.
  intros Hid Hk. assert (itx_cf (base_rows e b db) !! k = itx_cf db !! k) as Hb.
  { apply base_rows_rest; [done|]. rewrite Hk. by left. }
  unfold written, reward_rows. destruct (reward_key e) as [rk|] eqn:E.
  - unfold bump_verified_proof_global_rewards_count. rewrite put_other by (rewrite Hk; discriminate).
    cbn [put_itx itx_cf]. destruct (decide (k = rk)) as [->|Hne].
    + rewrite lookup_insert_eq. split; [by left|]. by eexists.
    + rewrite lookup_insert_ne by done. rewrite Hb. split; [by right|]. by intros [[= ->]|].
  - rewrite Hb. split; [by right|]. by intros [|].
Qed.

Lemma is_rewarded_key e : is_rewarded e = bool_decide (is_Some (reward_key e)).
Proof.
  unfold is_rewarded, reward_key. apply bool_decide_ext. destruct (provider_of e); [|done].
  split; by eexists.
Qed.

Lemma written_global e b db :
  row_kind (ix_id e) = primary_kind →
  0 ≤ read_verified_proof_global_rewards_count db < u64_max →
  read_verified_proof_global_rewards_count (written e b db) =
  read_verified_proof_global_rewards_count db + (if is_rewarded e then 1 else 0).
Proof.
  intros Hid Hr.
  assert (∀ db', itx_cf db' !! VERIFIED_PROOF_GLOBAL_REWARDS_COUNT_KEY =
      itx_cf db !! VERIFIED_PROOF_GLOBAL_REWARDS_COUNT_KEY →
    read_verified_proof_global_rewards_count db' = read_verified_proof_global_rewards_count db) as Hsame.
  { intros db' E. unfold read_verified_proof_global_rewards_count. by rewrite E. }
  assert (itx_cf (base_rows e b db) !! VERIFIED_PROOF_GLOBAL_REWARDS_COUNT_KEY =
      itx_cf db !! VERIFIED_PROOF_GLOBAL_REWARDS_COUNT_KEY) as Hb.
  { apply base_rows_rest; [done|]. change (global_kind ∈ [reward_kind; total_kind; global_kind; cursor_kind]).
    right. right. by left. }
  rewrite is_rewarded_key. unfold written, reward_rows. destruct (reward_key e) as [rk|] eqn:E.
  - rewrite bool_decide_true by (by eexists). unfold bump_verified_proof_global_rewards_count.
    rewrite (Hsame (put_itx rk [] (base_rows e b db))).
    2:{ rewrite put_other; [done|]. by rewrite (reward_key_kind e rk E). }
    unfold read_verified_proof_global_rewards_count at 1. rewrite put_same, le_bytes_length. cbn [Nat.eqb].
    unfold saturating_add, u64_max in *. rewrite Z.min_r by lia. apply le_roundtrip. simpl. lia.
  - rewrite bool_decide_false by (by intros [? [=]]). rewrite Z.add_0_r. by apply Hsame.
Qed.

(** *** The total *)

Lemma count_primary db ids :
  NoDup ids → Forall (λ k, is_primary_key k = true) ids →
  (∀ k, is_primary_key k = true → is_Some (itx_cf db !! k) ↔ k ∈ ids) →
  count_primary_indexed_transaction_keys db = Z.of_nat (length ids).
Proof.
  intros Hn Hp Hk. unfold count_primary_indexed_transaction_keys, rows_of.
  rewrite filter_map_comm, length_fmap. cbn [fst]. rewrite (filter_ext _ is_primary_key) by done.
  rewrite (keys_determined (itx_cf db) is_primary_key ids Hn).
  - by rewrite sort_by_perm.
  - rewrite list.Forall_forall in Hp. intros k. split.
    + intros Hin. split; [by apply Hp|]. apply Hk; [by apply Hp|done].
    + intros [Hpk Hs]. by apply Hk.
Qed.

Lemma primary_key_kind k : is_primary_key k = true → row_kind k = primary_kind.
Proof. unfold is_primary_key. intros [(t & ->)%starts_with_inv _]%andb_true_iff. reflexivity. Qed.

Lemma chron_key_kind k : starts_with "block_pos:" k = true → row_kind k = chron_kind.
Proof. intros (t & ->)%starts_with_inv. reflexivity. Qed.

Lemma reward_prefix_kind k : starts_with "vp:" k = true → row_kind k = reward_kind.
Proof. intros (t & ->)%starts_with_inv. reflexivity. Qed.
(** A new entry beside those indexed. *)
Record fresh_entry (es : list IndexedTransaction) (e : IndexedTransaction) : Prop := {
  fe_ok : entry_ok e;
  fe_id : ix_id e ∉ ix_id <$> es;
  fe_position : position e ∉ position <$> es;
  fe_room : Z.of_nat (length es) < u64_max;
}.

Lemma primary_ids db es k :
  indexed db es → is_primary_key k = true → is_Some (itx_cf db !! k) ↔ k ∈ ix_id <$> es.
Proof.
  intros Hi Hk. split; [by apply (in_primary _ _ Hi)|].
  intros (e & -> & He)%list_elem_of_fmap. destruct (in_row _ _ Hi e He) as (b & -> & _). by eexists.
Qed.

Lemma ids_primary db es : indexed db es → Forall (λ k, is_primary_key k = true) (ix_id <$> es).
Proof.
  intros Hi. apply Forall_fmap. eapply list.Forall_impl; [apply (in_ok _ _ Hi)|].
  intros e [_ E]. simpl. rewrite E. apply tx_id_primary.
Qed.

Lemma filter_length_bound {A} (p : A → bool) l : (length (List.filter p l) ≤ length l)%nat.
Proof. induction l as [|a l IH]; cbn [List.filter]; [done|]. destruct (p a); cbn [length]; lia. Qed.

(** The rows of a fresh entry extend what the index holds, counters aside. *)
(** [es'] is [es] with the entry of one transaction written, or written again
    at its position. *)
Record entry_written (es : list IndexedTransaction) (e : IndexedTransaction)
    (es' : list IndexedTransaction) : Prop := {
  ew_ok : entry_ok e;
  ew_in x : x ∈ es' ↔ x = e ∨ (x ∈ es ∧ ix_id x ≠ ix_id e);
  ew_same x : x ∈ es → ix_id x = ix_id e ↔ position x = position e;
  ew_reward x : x ∈ es → ix_id x = ix_id e → reward_key x = reward_key e;
}.

Lemma ew_ids es e es' k : entry_written es e es' → k ∈ ix_id <$> es' ↔ k = ix_id e ∨ k ∈ ix_id <$> es.
Proof.
  intros Hw. rewrite !list_elem_of_fmap. split.
  - intros (x & -> & [->|[Hx _]]%(ew_in _ _ _ Hw)); [by left|]. right. by exists x.
  - intros [->|(x & -> & Hx)]; [exists e; split; [done|]; apply (ew_in _ _ _ Hw); by left|].
    destruct (decide (ix_id x = ix_id e)) as [E|E].
    + exists e. split; [done|]. apply (ew_in _ _ _ Hw). by left.
    + exists x. split; [done|]. apply (ew_in _ _ _ Hw). by right.
Qed.

Lemma chron_key_inj db es e x :
  indexed db es → entry_ok e → x ∈ es → chron_key x = chron_key e → position x = position e.
Proof.
  intros Hi [He _] Hx E.
  pose proof (parse_chron_key _ _ He : parse_block_position_chron_key (chron_key e) = Some (position e)) as E1.
  pose proof (parse_chron_key _ _ (entry_position db es x Hi Hx)
    : parse_block_position_chron_key (chron_key x) = Some (position x)) as E2.
  congruence.
Qed.

Lemma written_chron_rows db es e b es' k v :
  indexed db es → entry_written es e es' → starts_with "block_pos:" k = true →
  itx_cf (written e b db) !! k = Some v ↔ ∃ x, x ∈ es' ∧ k = chron_key x ∧ v = as_bytes (ix_id x).
Proof.
  intros Hi Hw Hs. destruct (ew_ok _ _ _ Hw) as [Hpos Eid].
  rewrite written_chron by (rewrite ?Eid; apply ix_id_kind || by apply chron_key_kind).
  cbn [put_itx itx_cf]. destruct (decide (k = chron_key e)) as [->|Hne].
  - rewrite lookup_insert_eq. split.
    + intros [= <-]. exists e. split; [|done]. apply (ew_in _ _ _ Hw). by left.
    + intros (x & [->|[Hx Hnx]]%(ew_in _ _ _ Hw) & Ek & ->); [done|]. destruct Hnx.
      apply (ew_same _ _ _ Hw x Hx). by eapply chron_key_inj.
  - rewrite lookup_insert_ne, (in_chron _ _ Hi k v Hs) by done. split.
    + intros (x & Hx & -> & ->). exists x. split; [|done]. apply (ew_in _ _ _ Hw). right. split; [done|].
      intros E. apply (ew_same _ _ _ Hw x Hx) in E. apply Hne. unfold chron_key.
      unfold position in E. by injection E as -> ->.
    + intros (x & [->|[Hx _]]%(ew_in _ _ _ Hw) & Ek & ->); [done|]. by exists x.
Qed.

Lemma written_reward_rows db es e b es' k :
  indexed db es → entry_written es e es' → starts_with "vp:" k = true →
  is_Some (itx_cf (written e b db) !! k) ↔ ∃ x, x ∈ es' ∧ reward_key x = Some k.
Proof.
  intros Hi Hw Hs. destruct (ew_ok _ _ _ Hw) as [_ Eid].
  rewrite written_reward by (rewrite ?Eid; apply ix_id_kind || by apply reward_prefix_kind).
  rewrite (in_rewards _ _ Hi k Hs). split.
  - intros [Er|(x & Hx & Er)]; [exists e; split; [apply (ew_in _ _ _ Hw); by left|done]|].
    destruct (decide (ix_id x = ix_id e)) as [E|E].
    + exists e. split; [apply (ew_in _ _ _ Hw); by left|]. by rewrite <- (ew_reward _ _ _ Hw x Hx E).
    + exists x. split; [|done]. apply (ew_in _ _ _ Hw). by right.
  - intros (x & [->|[Hx _]]%(ew_in _ _ _ Hw) & Er); [by left|]. right. by exists x.
Qed.

(** The rows of one transaction and a right total: the index of [es']. *)
Lemma written_indexed db es e b es' db' :
  indexed db es → entry_written es e es' → itx_from_slice b = Some e →
  NoDup (ix_id <$> es') → NoDup (position <$> es') →
  (∀ k, row_kind k ≠ total_kind → itx_cf db' !! k = itx_cf (written e b db) !! k) →
  itx_cf db' !! INDEXED_TRANSACTIONS_PRIMARY_TOTAL_COUNT_KEY = None ∨
    itx_cf db' !! INDEXED_TRANSACTIONS_PRIMARY_TOTAL_COUNT_KEY =
      Some (le_bytes 8 (Z.of_nat (length es'))) →
  indexed db' es'.
Proof.
  intros Hi Hw Hb Hids Hps Hsame Htot. pose proof (ew_ok _ _ _ Hw) as [_ Eid].
  assert (row_kind (ix_id e) = primary_kind) as Hk by (rewrite Eid; apply ix_id_kind).
  constructor; [|done|done| | | | |done].
  - rewrite list.Forall_forall. intros x [->|[Hx _]]%(ew_in _ _ _ Hw); [apply (ew_ok _ _ _ Hw)|].
    pose proof (in_ok _ _ Hi) as Ho. rewrite list.Forall_forall in Ho. by apply Ho.
  - intros x [->|[Hx Hne]]%(ew_in _ _ _ Hw).
    + exists b. split; [|done]. rewrite Hsame by (rewrite Hk; discriminate). by rewrite written_primary, put_same.
    + destruct (in_row _ _ Hi x Hx) as (bx & Ex & Edx). exists bx. split; [|done].
      assert (row_kind (ix_id x) = primary_kind) as Hkx.
      { apply primary_key_kind. pose proof (ids_primary db es Hi) as Hall.
        rewrite list.Forall_forall in Hall. apply Hall. by apply list_elem_of_fmap_2. }
      rewrite Hsame by (rewrite Hkx; discriminate). rewrite written_primary by done.
      cbn [put_itx itx_cf]. by rewrite lookup_insert_ne.
  - intros k Hpk. rewrite Hsame by (rewrite (primary_key_kind k Hpk); discriminate).
    rewrite written_primary by (done || by apply primary_key_kind).
    rewrite (ew_ids _ _ _ k Hw), <- (primary_ids db es k Hi Hpk). cbn [put_itx itx_cf].
    destruct (decide (k = ix_id e)) as [->|Hne]; [by left|]. rewrite lookup_insert_ne by done. by right.
  - intros k v Hs. rewrite Hsame by (rewrite (chron_key_kind k Hs); discriminate).
    by eapply written_chron_rows.
  - intros k Hs. rewrite Hsame by (rewrite (reward_prefix_kind k Hs); discriminate).
    by eapply written_reward_rows.
Qed.

Lemma fresh_written es e : fresh_entry es e → entry_written es e (es ++ [e]).
Proof.
  intros Hf. assert (∀ x, x ∈ es → ix_id x ≠ ix_id e) as Hn.
  { intros x Hx E. apply (fe_id _ _ Hf). rewrite <- E. by apply list_elem_of_fmap_2. }
  constructor; [apply (fe_ok _ _ Hf)| | |].
  - intros x. rewrite elem_of_app, list_elem_of_singleton. split; [|tauto].
    intros [Hx|Hx]; [right; split; [done|by apply Hn]|by left].
  - intros x Hx. split; [intros E; by destruct (Hn x Hx)|]. intros E. destruct (fe_position _ _ Hf).
    rewrite <- E. by apply list_elem_of_fmap_2.
  - intros x Hx E. by destruct (Hn x Hx).
Qed.

Lemma NoDup_snoc_fmap {B} (f : IndexedTransaction → B) es e :
  NoDup (f <$> es) → f e ∉ f <$> es → NoDup (f <$> (es ++ [e])).
Proof.
  intros Hn He. rewrite fmap_app. apply list.NoDup_app. split; [done|]. split; [|apply NoDup_singleton].
  by intros k Hk ->%list_elem_of_singleton.
Qed.

Lemma global_same db db' :
  itx_cf db' !! VERIFIED_PROOF_GLOBAL_REWARDS_COUNT_KEY = itx_cf db !! VERIFIED_PROOF_GLOBAL_REWARDS_COUNT_KEY →
  read_verified_proof_global_rewards_count db' = read_verified_proof_global_rewards_count db.
Proof. unfold read_verified_proof_global_rewards_count. by intros ->. Qed.

(** Indexing a new transaction at a new position. *)
Lemma index_fresh db es tx h i status gas events now :
  let e := indexed_transaction_of tx h i status gas events now in
  indexed db es → fresh_entry es e →
  ∃ db', index_transaction tx h i status gas events now db = (Ok tt, db') ∧ indexed db' (es ++ [e]) ∧
    (0 ≤ read_verified_proof_global_rewards_count db < u64_max →
     read_verified_proof_global_rewards_count db' =
       read_verified_proof_global_rewards_count db + (if is_rewarded e then 1 else 0)) ∧
    ∃ b, db' = put_itx INDEXED_TRANSACTIONS_PRIMARY_TOTAL_COUNT_KEY
                 (le_bytes 8 (Z.of_nat (length (es ++ [e])))) (written e b db).
Proof.
  intros e Hi Hf. destruct (index_transaction_run tx h i status gas events now db) as (b & _ & Ed & ->).
  fold e in Ed |- *. pose proof (proj2 (fe_ok _ _ Hf)) as Eid. rewrite bool_decide_false.
  2:{ intros Hs. apply (fe_id _ _ Hf). apply (primary_ids db es); [done| |done].
      rewrite Eid. apply tx_id_primary. }
  fold (written e b db).
  pose proof (NoDup_snoc_fmap ix_id es e (in_ids _ _ Hi) (fe_id _ _ Hf)) as Hids.
  assert (itx_cf (written e b db) !! INDEXED_TRANSACTIONS_PRIMARY_TOTAL_COUNT_KEY =
    itx_cf db !! INDEXED_TRANSACTIONS_PRIMARY_TOTAL_COUNT_KEY) as Htot
    by (apply written_total; rewrite Eid; apply ix_id_kind).
  assert (bump_indexed_transaction_primary_total_count (written e b db) =
    (Ok tt, put_itx INDEXED_TRANSACTIONS_PRIMARY_TOTAL_COUNT_KEY
       (le_bytes 8 (Z.of_nat (length (es ++ [e])))) (written e b db))) as ->.
  { unfold bump_indexed_transaction_primary_total_count. rewrite Htot.
    pose proof (fe_room _ _ Hf) as Hroom. destruct (in_total _ _ Hi) as [E | ->].
    - assert (indexed (written e b db) (es ++ [e])) as Hi'.
      { eapply written_indexed; [exact Hi|by apply fresh_written|done|done|
          apply (NoDup_snoc_fmap position); [apply (in_positions _ _ Hi)|apply (fe_position _ _ Hf)]|done|].
        left. by rewrite Htot. }
      rewrite E, (count_primary _ (ix_id <$> (es ++ [e])) Hids); [by rewrite length_fmap| |].
      + by eapply ids_primary.
      + intros k. by apply primary_ids.
    - rewrite length_app. cbn [length]. unfold decode_u64_meta. rewrite le_bytes_length. cbn [Nat.eqb].
      unfold u64_max in Hroom. rewrite le_roundtrip by (simpl; lia). unfold checked_add, u64_max.
      rewrite (proj2 (Z.leb_le _ _)) by lia. cbn [ok_or]. by rewrite Nat2Z.inj_add. }
  eexists. split; [done|]. split; [|split; [|by exists b]].
  - eapply written_indexed; [exact Hi|by apply fresh_written|done|done|
      apply (NoDup_snoc_fmap position); [apply (in_positions _ _ Hi)|apply (fe_position _ _ Hf)]| |].
    + intros k Hk. by apply put_other.
    + right. apply put_same.
  - intros Hr. rewrite (global_same (written e b db)) by (by apply put_other).
    apply written_global; [rewrite Eid; apply ix_id_kind|done].
Qed.

(** Indexing a transaction of the index again, at its position: the entry is
    replaced, the total stays, and a rewarded proof is counted once more. *)
Lemma index_again db es1 es2 e0 tx h i status gas events now :
  let e := indexed_transaction_of tx h i status gas events now in
  indexed db (es1 ++ e0 :: es2) → ix_id e0 = ix_id e → position e0 = position e →
  reward_key e0 = reward_key e →
  ∃ db', index_transaction tx h i status gas events now db = (Ok tt, db') ∧
    indexed db' (es1 ++ e :: es2) ∧
    (0 ≤ read_verified_proof_global_rewards_count db < u64_max →
     read_verified_proof_global_rewards_count db' =
       read_verified_proof_global_rewards_count db + (if is_rewarded e then 1 else 0)).
Proof.
  intros e Hi Ei Ep Er. destruct (index_transaction_run tx h i status gas events now db) as (b & _ & Ed & ->).
  fold e in Ed |- *. pose proof (eq_refl : ix_id e = calculate_tx_id (ix_tx e)) as Eid.
  assert (e0 ∈ es1 ++ e0 :: es2) as He0 by (rewrite elem_of_app, elem_of_cons; tauto).
  rewrite bool_decide_true.
  2:{ rewrite <- Ei. destruct (in_row _ _ Hi e0 He0) as (b0 & -> & _). by eexists. }
  fold (written e b db). eexists. split; [done|].
  split; [|intros Hr; by apply written_global; [rewrite Eid; apply ix_id_kind|]].
  eapply written_indexed; [exact Hi| |exact Ed| | |done|].
  - assert (∀ x, x ∈ es1 ++ e0 :: es2 → ix_id x = ix_id e → x = e0) as Hid.
    { intros x Hx E. apply (NoDup_inj_on ix_id _ _ _ (in_ids _ _ Hi)); [done|done|congruence]. }
    assert (∀ x, x ∈ es1 ++ e0 :: es2 → position x = position e → x = e0) as Hpo.
    { intros x Hx E. apply (NoDup_inj_on position _ _ _ (in_positions _ _ Hi)); [done|done|congruence]. }
    constructor.
    + split; [|done]. rewrite <- Ep. by eapply entry_position.
    + intros x. pose proof (in_ids _ _ Hi) as Hn. rewrite fmap_app, fmap_cons in Hn.
      apply list.NoDup_app in Hn as (_ & H1 & H2). apply list.NoDup_cons in H2 as [H2 _].
      rewrite !elem_of_app, !elem_of_cons. split.
      * intros [Hx|[->|Hx]]; [|by left|]; right; (split; [tauto|]); intros E.
        -- apply (H1 (ix_id x)); [by apply list_elem_of_fmap_2|]. rewrite E, <- Ei. by left.
        -- apply H2. rewrite Ei, <- E. by apply list_elem_of_fmap_2.
      * intros [->|[[Hx|[->|Hx]] Hne]]; [tauto..| |]; [by destruct Hne|tauto].
    + intros x Hx. split; intros E; [by rewrite (Hid x Hx E)|by rewrite (Hpo x Hx E)].
    + intros x Hx E. by rewrite (Hid x Hx E).
  - pose proof (in_ids _ _ Hi) as Hn. rewrite fmap_app, fmap_cons in *. by rewrite <- Ei.
  - pose proof (in_positions _ _ Hi) as Hn. rewrite fmap_app, fmap_cons in *. by rewrite <- Ep.
  - rewrite written_total by (rewrite Eid; apply ix_id_kind).
    pose proof (in_total _ _ Hi) as Ht. rewrite !length_app in *. exact Ht.
Qed.

(** *** Counts *)

Lemma filter_length_perm {A} (p : A → bool) l l' :
  l ≡ₚ l' → length (List.filter p l) = length (List.filter p l').
Proof.
  induction 1 as [|a l l' _ IH|a b l|l1 l2 l3 _ IH1 _ IH2]; cbn [List.filter]; [done| | |congruence].
  - destruct (p a); cbn [length]; by rewrite IH.
  - by destruct (p a), (p b).
Qed.

Lemma count_entries db es f : indexed db es →
  count_indexed_transactions_matching_chron_filters db f =
    Ok (Z.of_nat (length (List.filter (λ e, indexed_transaction_matches_optional_filters e f) es))).
Proof.
  intros Hi. unfold count_indexed_transactions_matching_chron_filters.
  rewrite (chron_rows_entries db es Hi).
  assert (∀ l n, (∀ e, e ∈ l → e ∈ es) → count_matching db f (entry_row <$> l) n =
    Ok (n + Z.of_nat (length (List.filter (λ e, indexed_transaction_matches_optional_filters e f) l)))) as Hc.
  { induction l as [|e l IH]; intros n Hl; [cbn; f_equal; lia|]. rewrite fmap_cons.
    cbn [count_matching entry_row List.filter]. rewrite (load_entry db es e Hi) by (apply Hl; by left).
    rewrite IH by (intros x Hx; apply Hl; by right).
    destruct (indexed_transaction_matches_optional_filters e f); cbn [length]; f_equal; lia. }
  rewrite Hc by (intros e; unfold oldest_first; by rewrite sort_by_perm).
  by rewrite (filter_length_perm _ _ es) by apply sort_by_perm.
Qed.

(** Rows of other kinds do not matter. *)
Lemma indexed_other db db' es :
  indexed db es →
  (∀ k, row_kind k = primary_kind ∨ row_kind k = chron_kind ∨ row_kind k = reward_kind →
     itx_cf db' !! k = itx_cf db !! k) →
  itx_cf db' !! INDEXED_TRANSACTIONS_PRIMARY_TOTAL_COUNT_KEY = None ∨
    itx_cf db' !! INDEXED_TRANSACTIONS_PRIMARY_TOTAL_COUNT_KEY =
      Some (le_bytes 8 (Z.of_nat (length es))) →
  indexed db' es.
Proof.
  intros [H1 H2 H3 H4 H5 H6 H7 H8] Hk Ht. constructor; [done..| | | | |done].
  - intros x Hx. destruct (H4 x Hx) as (b & Eb & Ed). exists b. split; [|done]. rewrite Hk; [done|].
    left. rewrite list.Forall_forall in H1. destruct (H1 x Hx) as [_ ->]. apply ix_id_kind.
  - intros k Hp. rewrite Hk by (left; by apply primary_key_kind). by apply H5.
  - intros k v Hp. rewrite Hk by (right; left; by apply chron_key_kind). by apply H6.
  - intros k Hp. rewrite Hk by (right; right; by apply reward_prefix_kind). by apply H7.
Qed.

(** The repaired counter is written back; nothing else changes. *)
Lemma total_entries db es : indexed db es → Z.of_nat (length es) ≤ u64_max →
  ∃ db', indexed_transaction_primary_total_count db = (Ok (Z.of_nat (length es)), db') ∧ indexed db' es.
Proof.
  intros Hi Hr. unfold indexed_transaction_primary_total_count. destruct (in_total _ _ Hi) as [E|E]; rewrite E.
  - rewrite (count_primary db (ix_id <$> es)), length_fmap;
      [|apply (in_ids _ _ Hi)|by eapply ids_primary|intros k; by apply primary_ids].
    eexists. split; [done|]. apply (indexed_other db); [done| |right; apply put_same].
    intros k [Hk|[Hk|Hk]]; apply put_other; rewrite Hk; discriminate.
  - exists db. split; [|done]. f_equal. unfold decode_u64_meta. rewrite le_bytes_length. cbn [Nat.eqb].
    unfold u64_max in Hr. by rewrite le_roundtrip by (simpl; lia).
Qed.

(** *** Rewards of a provider *)

Definition no_colon (s : string) : Prop := string_all (λ c, negb (Ascii.eqb ":" c)) s = true.

Lemma provider_text a : no_colon (to_ascii_lowercase (hex_with_prefix a)).
Proof.
  unfold no_colon, hex_with_prefix, Address_hex.
  assert (string_all (λ c, is_ascii_hexdigit c || Ascii.eqb c "x")
    (String.append "0x" (hex_encode (addr_value a))) = true) as Hs.
  { change (String.append "0x" ?x) with (String "0" (String "x" x)). cbn [string_all].
    apply (string_all_impl is_ascii_hexdigit); [by intros c ->|apply hex_encode_hexdigits]. }
  revert Hs. generalize (String.append "0x" (hex_encode (addr_value a))).
  induction s as [|c s IH]; [done|]. intros Hs. cbn [string_all] in Hs. apply andb_true_iff in Hs as [Hc Hs].
  change (to_ascii_lowercase (String c s)) with (String (ascii_to_lower c) (to_ascii_lowercase s)).
  cbn [string_all]. rewrite (IH Hs), andb_true_r.
  destruct c as [[] [] [] [] [] [] [] []]; try reflexivity; discriminate.
Qed.

Lemma provider_of_text e p : provider_of e = Some p → no_colon p.
Proof.
  unfold provider_of, rewarded_provider. destruct (ix_status e); [|done].
  destruct (payload_inner _); try done. destruct (vp_failed _); [done|]. intros [= <-]. apply provider_text.
Qed.

Lemma append_inj_l p a b : String.append p a = String.append p b → a = b.
Proof. induction p as [|c p IH]; [done|]. intros E. apply IH. by injection E. Qed.

(** Only keys of the provider itself start with its prefix. *)
Lemma reward_key_provider p q h i :
  no_colon p → no_colon q →
  starts_with (String.append "vp:" (String.append p ":")) (verified_proof_reward_index_key q h i) = true →
  p = q.
Proof.
  intros Hp Hq (t & E)%starts_with_inv. unfold verified_proof_reward_index_key in E.
  rewrite <- !string_append_assoc in E. apply append_inj_l in E.
  pose proof (split_once_app ":"%char q (position_hex h i) Hq) as E1.
  pose proof (split_once_app ":"%char p t Hp) as E2.
  change (String.append ":" t) with (String ":" t) in E. rewrite E, E2 in E1. congruence.
Qed.

Lemma reward_key_starts p h i :
  starts_with (String.append "vp:" (String.append p ":")) (verified_proof_reward_index_key p h i) = true.
Proof.
  unfold verified_proof_reward_index_key.
  replace (String.append "vp:" (String.append p (String ":" (position_hex h i))))
    with (String.append (String.append "vp:" (String.append p ":")) (position_hex h i)).
  - apply starts_with_append.
  - rewrite <- !string_append_assoc. done.
Qed.

Lemma reward_key_compare p a b :
  position_ok a → position_ok b →
  key_compare (verified_proof_reward_index_key p a.1 a.2) (verified_proof_reward_index_key p b.1 b.2) =
    lex Z.compare Z.compare a b.
Proof.
  intros Ha Hb. unfold key_compare, verified_proof_reward_index_key.
  rewrite !as_bytes_append, bytes_compare_same, bytes_compare_same.
  change (as_bytes (String ":" ?x)) with (as_bytes ":" ++ as_bytes x). rewrite bytes_compare_same.
  by apply position_compare.
Qed.
Lemma count_rewards_accepted prefix from to keys n :
  count_rewards prefix from to keys n =
  count_rewards prefix from to (accepted (starts_with prefix) keys) n.
Proof.
  revert n. induction keys as [|k keys IH]; intros n; [done|]. cbn [count_rewards accepted].
  destruct (starts_with prefix k) eqn:E; [|done]. cbn [count_rewards negb]. rewrite E. cbn [negb].
  destruct (parse_verified_proof_reward_index_key k) as [[[a h] i]|]; [|apply IH].
  destruct (h <? from); [apply IH|]. destruct (to <? h); [done|apply IH].
Qed.

Definition provider_key (p : string) (e : IndexedTransaction) : string :=
  verified_proof_reward_index_key p (ix_block_height e) (ix_block_index e).

(** On entries in the order of the chain the count stops at the last height. *)
Lemma count_rewards_sorted p from to L n :
  no_colon p → Forall (λ e, position_ok (position e) ∧ from ≤ ix_block_height e) L →
  StronglySorted (λ a b, ix_block_height a ≤ ix_block_height b) L →
  count_rewards (String.append "vp:" (String.append p ":")) from to (provider_key p <$> L) n =
  n + Z.of_nat (length (List.filter (λ e, ix_block_height e <=? to) L)).
Proof.
  intros Hp Hall Hs. revert n Hall. induction Hs as [|e L HsL IH He]; intros n Hall; [cbn; lia|].
  inversion Hall as [|? ? [Hpos Hfrom] Hall']; subst. rewrite fmap_cons. cbn [count_rewards List.filter].
  unfold provider_key at 1 2. rewrite reward_key_starts. cbn [negb].
  rewrite (parse_reward_key p _ _ Hp Hpos). rewrite (proj2 (Z.ltb_ge _ _)) by done.
  destruct (Z.leb_spec (ix_block_height e) to) as [Hle|Hgt].
  - rewrite (proj2 (Z.ltb_ge _ _)) by done. rewrite IH by done. cbn [length]. lia.
  - rewrite (proj2 (Z.ltb_lt _ _)) by done. rewrite filter_none; [cbn; lia|].
    intros x Hx. rewrite list.Forall_forall in He. specialize (He x Hx). apply Z.leb_gt. lia.
Qed.

(** The entries that reward a provider from a height on. *)
Definition rewards_from (p : string) (from : Z) (e : IndexedTransaction) : bool :=
  bool_decide (provider_of e = Some p) && (from <=? ix_block_height e).

Lemma not_below p from e :
  position_ok (position e) → 0 ≤ from ≤ u64_max →
  match key_compare (provider_key p e) (verified_proof_reward_index_key p from 0) with
  | Lt => false | _ => true end = (from <=? ix_block_height e).
Proof.
  intros He Hf. assert (position_ok (from, 0)) as H0 by (split; cbn; unfold u32_max; lia).
  unfold provider_key. rewrite (reward_key_compare p (position e) (from, 0) He H0
    : key_compare (verified_proof_reward_index_key p (ix_block_height e) (ix_block_index e))
        (verified_proof_reward_index_key p from 0) = _).
  destruct He as [He1 He2]. unfold lex, then_with, position in *. cbn [fst snd] in *.
  destruct (Z.compare_spec (ix_block_height e) from), (Z.leb_spec from (ix_block_height e)); try lia; try done.
  by destruct (Z.compare_spec (ix_block_index e) 0); try lia.
Qed.

Lemma reward_keys_of db es p from :
  indexed db es → no_colon p → 0 ≤ from ≤ u64_max →
  List.filter (λ k, starts_with (String.append "vp:" (String.append p ":")) k &&
      match key_compare k (verified_proof_reward_index_key p from 0) with Lt => false | _ => true end)
    (sorted_keys (dom (itx_cf db))) =
  sort_by key_compare (provider_key p <$> List.filter (rewards_from p from) es).
Proof.
  intros Hi Hp Hf. apply keys_determined.
  - apply NoDup_fmap_2_strong.
    + intros a b Ha Hb E. apply list_elem_of_In, filter_In in Ha as [Ha _], Hb as [Hb _].
      apply list_elem_of_In in Ha, Hb.
      apply (NoDup_inj_on position es); [apply (in_positions _ _ Hi)|done..|].
      pose proof (parse_reward_key p _ _ Hp (entry_position db es a Hi Ha)) as E1.
      pose proof (parse_reward_key p _ _ Hp (entry_position db es b Hi Hb)) as E2.
      unfold provider_key in E. rewrite E, E2 in E1. unfold position. congruence.
    + apply NoDup_ListNoDup, List.NoDup_filter, NoDup_ListNoDup.
      eapply NoDup_fmap_1, (in_positions _ _ Hi).
  - intros k. split.
    + intros (e & -> & He)%list_elem_of_fmap. apply list_elem_of_In, filter_In in He as [He Hr].
      apply list_elem_of_In in He. unfold rewards_from in Hr. apply andb_true_iff in Hr as [Hpe Hfe].
      apply bool_decide_eq_true in Hpe. rewrite (not_below p from e), Hfe by (by eapply entry_position || done).
      unfold provider_key at 1. rewrite reward_key_starts. split; [done|].
      apply (in_rewards _ _ Hi).
      * exact (starts_with_append "vp:" (String.append p (String ":" (position_hex _ _)))).
      * exists e. split; [done|]. unfold reward_key. by rewrite Hpe.
    + intros [[Hs Hl]%andb_true_iff Hk].
      assert (starts_with "vp:" k = true) as Hv.
      { destruct (starts_with_inv _ _ Hs) as [t ->]. rewrite <- string_append_assoc. apply starts_with_append. }
      apply (in_rewards _ _ Hi k Hv) in Hk as (e & He & Ek).
      unfold reward_key in Ek. destruct (provider_of e) as [q|] eqn:Eq; [|done]. injection Ek as <-.
      assert (p = q) as <- by (eapply reward_key_provider; [done|by eapply provider_of_text|exact Hs]).
      fold (provider_key p e) in Hl |- *.
      apply list_elem_of_fmap_2. apply list_elem_of_In, filter_In. split; [by apply list_elem_of_In|].
      unfold rewards_from. rewrite bool_decide_true by done. cbn [andb].
      by rewrite <- (not_below p from e) by (by eapply entry_position || done).
Qed.

Lemma aggregate_entries db es addr from to reward :
  indexed db es → 0 ≤ from ≤ u64_max →
  let p := to_ascii_lowercase (hex_with_prefix addr) in
  let n := Z.of_nat (length (List.filter (λ e, bool_decide (provider_of e = Some p) &&
             ((from <=? ix_block_height e) && (ix_block_height e <=? to))) es)) in
  aggregate_verified_proof_rewards db (hex_with_prefix addr) from to reward =
    Ok (n, saturating_mul_u128 n reward).
Proof.
  intros Hi Hf p n. unfold aggregate_verified_proof_rewards.
  rewrite (parse_hex_with_prefix addr). fold p.
  rewrite count_rewards_accepted, scan_interval_from;
    [|apply reward_key_starts|unfold sorted_keys; apply sort_by_sorted; apply _].
  rewrite (reward_keys_of db es p from Hi (provider_text addr) Hf).
  set (L := List.filter (rewards_from p from) es).
  assert (∀ e, e ∈ L → position_ok (position e) ∧ from ≤ ix_block_height e) as HLs.
  { intros e He. apply list_elem_of_In, filter_In in He as [He Hr]. apply list_elem_of_In in He.
    split; [by eapply entry_position|]. unfold rewards_from in Hr. eld_bool. lia. }
  assert (∀ a b, a ∈ L → b ∈ L → key_compare (provider_key p a) (provider_key p b) = by_position a b) as Hc.
  { intros a b Ha Hb. apply (reward_key_compare p (position a) (position b)); by apply HLs. }
  assert (sort_by key_compare (provider_key p <$> L) = provider_key p <$> sort_by by_position L) as Es
    by (by apply sort_by_fmap).
  assert (StronglySorted (λ a b, ix_block_height a ≤ ix_block_height b) (sort_by by_position L)) as Hs.
  { pose proof (sort_by_sorted key_compare (provider_key p <$> L)) as Hso. rewrite Es in Hso.
    assert (∀ e, e ∈ sort_by by_position L → e ∈ L) as Hin by (intros e; by rewrite sort_by_perm).
    revert Hso Hin. generalize (sort_by by_position L). induction l as [|a l IH]; intros Hso Hin; [constructor|].
    rewrite fmap_cons in Hso. inversion Hso as [|? ? Hso' Ha]; subst. constructor.
    - apply IH; [done|]. intros e He. apply Hin. by right.
    - rewrite list.Forall_forall. intros b Hb. rewrite list.Forall_forall in Ha.
      specialize (Ha (provider_key p b) (list_elem_of_fmap_2 _ _ _ Hb)). unfold cmp_le in Ha.
      rewrite Hc in Ha by (apply Hin; (by left) || (by right)).
      unfold by_position, lex, then_with, position in Ha. cbn [fst snd] in Ha.
      destruct (Z.compare_spec (ix_block_height a) (ix_block_height b)); [lia|lia|done]. }
  rewrite Es, count_rewards_sorted; [|apply provider_text| |exact Hs].
  2:{ rewrite list.Forall_forall. intros e He. rewrite sort_by_perm in He. by apply HLs. }
  assert (0 + Z.of_nat (length (List.filter (λ e, ix_block_height e <=? to) (sort_by by_position L))) = n) as ->.
  { unfold n. rewrite (filter_length_perm _ _ L) by apply sort_by_perm. unfold L, rewards_from.
    clear. induction es as [|e es IH]; [done|]. cbn [List.filter].
    destruct (bool_decide _); cbn [andb]; [|exact IH]. destruct (from <=? _); cbn [andb List.filter]; [|exact IH].
    destruct (_ <=? to); cbn [length]; lia. }
  done.
Qed.

(** *** Theorems *)

Lemma index_empty : indexed empty_index [].
Proof.
  constructor; [constructor|constructor|constructor|by intros e []%elem_of_nil| | | |by left].
  - intros k _ [v [=]].
  - intros k v _. split; [intros [=]|]. by intros (e & []%elem_of_nil & _).
  - intros k _. split; [intros [v [=]]|]. by intros (e & []%elem_of_nil & _).
Qed.

Lemma normalize_id tx : normalize_tx_id (calculate_tx_id tx) = calculate_tx_id tx.
Proof. unfold normalize_tx_id, calculate_tx_id. by rewrite starts_with_append. Qed.

Lemma get_entry db es e : indexed db es → e ∈ es → get_indexed_transaction db (ix_id e) = Ok (Some e).
Proof.
  intros Hi He. destruct (in_row _ _ Hi e He) as (b & Eb & Ed). unfold get_indexed_transaction.
  pose proof (in_ok _ _ Hi) as Ho. rewrite list.Forall_forall in Ho.
  rewrite (proj2 (Ho e He)), normalize_id, <- (proj2 (Ho e He)), Eb. cbn [ok_or]. by rewrite Ed.
Qed.

Lemma get_absent db es tx_id :
  indexed db es → is_primary_key (normalize_tx_id tx_id) = true → normalize_tx_id tx_id ∉ ix_id <$> es →
  get_indexed_transaction db tx_id = Ok None.
Proof.
  intros Hi Hp Hn. unfold get_indexed_transaction.
  destruct (itx_cf db !! normalize_tx_id tx_id) eqn:E; [|done]. destruct Hn.
  apply (in_primary _ _ Hi); [done|]. by eexists.
Qed.

Lemma position_entry db es e :
  indexed db es → e ∈ es → block_position_indexed db (ix_block_height e) (ix_block_index e) = true.
Proof.
  intros Hi He. apply bool_decide_eq_true. exists (as_bytes (ix_id e)).
  apply (in_chron _ _ Hi); [apply chron_key_starts|]. by exists e.
Qed.

Lemma rewarded_snoc es e :
  Z.of_nat (length (List.filter is_rewarded (es ++ [e]))) =
  Z.of_nat (length (List.filter is_rewarded es)) + (if is_rewarded e then 1 else 0).
Proof. rewrite List.filter_app, length_app. cbn [List.filter]. destruct (is_rewarded e); cbn [length]; lia. Qed.

(** *** The rows for look-ups by height, sender and type *)

Definition height_key (e : IndexedTransaction) : string :=
  String.append "block_height:" (String.append (to_string (ix_block_height e))
    (String.append ":tx_index:" (to_string (ix_block_index e)))).
Definition sender_key (e : IndexedTransaction) : string :=
  String.append "sender:" (String.append (hex_with_prefix (sender (payload_inner (tx_payload (ix_tx e)))))
    (String.append ":nonce:" (to_string (nonce_value (tx_nonce (ix_tx e)))))).
Definition type_key (e : IndexedTransaction) : string :=
  String.append "type:" (String.append (payload_type (tx_payload (ix_tx e))) (String ":" (ix_id e))).

(** The id of the latest entry with a key. *)
Definition latest_id (key : IndexedTransaction → string) (es : list IndexedTransaction) (k : string) :
    option bytes :=
  (λ e, as_bytes (ix_id e)) <$> list.last (filter (λ e, key e = k) es).

(** Each of these families has a row for the key of each entry, with the id of
    the latest one, and no other row. *)
Record looked_up (db : IndexDb) (es : list IndexedTransaction) : Prop := {
  lu_height k : starts_with "block_height:" k = true → itx_cf db !! k = latest_id height_key es k;
  lu_sender k : starts_with "sender:" k = true → itx_cf db !! k = latest_id sender_key es k;
  lu_type k : starts_with "type:" k = true → itx_cf db !! k = latest_id type_key es k;
}.

(** The keys an entry is written under. *)
Definition entry_keys (e : IndexedTransaction) : list string :=
  [ix_id e; height_key e; chron_key e; sender_key e; type_key e;
   INDEXED_TRANSACTIONS_PRIMARY_TOTAL_COUNT_KEY] ++
  match reward_key e with Some k => [k; VERIFIED_PROOF_GLOBAL_REWARDS_COUNT_KEY] | None => [] end.

Lemma latest_id_snoc key es e k :
  latest_id key (es ++ [e]) k = if decide (key e = k) then Some (as_bytes (ix_id e)) else latest_id key es k.
Proof.
  unfold latest_id. rewrite list.filter_app. case_decide as Hk.
  - rewrite filter_cons_True by done. cbn [filter list_filter]. by rewrite list.last_snoc.
  - rewrite filter_cons_False, filter_nil, app_nil_r by done. done.
Qed.

(** The rows of these families after the rows of an entry are written. *)
Lemma written_height_row e b db k :
  row_kind (ix_id e) = primary_kind → starts_with "block_height:" k = true →
  itx_cf (written e b db) !! k = if decide (height_key e = k) then Some (as_bytes (ix_id e)) else itx_cf db !! k.
Proof.
  intros Hid (t & ->)%starts_with_inv. unfold written. rewrite reward_rows_other by discriminate.
  unfold base_rows. do 3 rewrite put_other by discriminate. fold (height_key e).
  cbn [put_itx itx_cf]. case_decide as Hk; [by rewrite Hk, lookup_insert_eq|].
  rewrite lookup_insert_ne by done. apply lookup_insert_ne. intros E. by rewrite E in Hid.
Qed.

Lemma written_sender_row e b db k :
  row_kind (ix_id e) = primary_kind → starts_with "sender:" k = true →
  itx_cf (written e b db) !! k = if decide (sender_key e = k) then Some (as_bytes (ix_id e)) else itx_cf db !! k.
Proof.
  intros Hid (t & ->)%starts_with_inv. unfold written. rewrite reward_rows_other by discriminate.
  unfold base_rows. rewrite put_other by discriminate. fold (sender_key e).
  case_decide as Hk; [by rewrite <- Hk, put_same|].
  cbn [put_itx itx_cf]. rewrite lookup_insert_ne by done.
  rewrite !lookup_insert_ne; [done|intros E; by rewrite E in Hid|discriminate|discriminate].
Qed.

Lemma written_type_row e b db k :
  row_kind (ix_id e) = primary_kind → starts_with "type:" k = true →
  itx_cf (written e b db) !! k = if decide (type_key e = k) then Some (as_bytes (ix_id e)) else itx_cf db !! k.
Proof.
  intros Hid (t & ->)%starts_with_inv. unfold written. rewrite reward_rows_other by discriminate.
  unfold base_rows. fold (type_key e). case_decide as Hk; [by rewrite <- Hk, put_same|].
  cbn [put_itx itx_cf]. rewrite lookup_insert_ne by done.
  rewrite !lookup_insert_ne; [done|intros E; by rewrite E in Hid|discriminate..].
Qed.

(** Nothing but the rows of the entry is written. *)
Lemma written_others e b db v k :
  k ∉ entry_keys e →
  itx_cf (put_itx INDEXED_TRANSACTIONS_PRIMARY_TOTAL_COUNT_KEY v (written e b db)) !! k = itx_cf db !! k.
Proof.
  unfold entry_keys. rewrite not_elem_of_app, !not_elem_of_cons.
  intros [(K1 & K2 & K3 & K4 & K5 & K6 & _) K7]. cbn [put_itx itx_cf]. rewrite lookup_insert_ne by done.
  assert (itx_cf (base_rows e b db) !! k = itx_cf db !! k) as Hb.
  { unfold base_rows. fold (height_key e) (sender_key e) (type_key e). cbn [put_itx itx_cf].
    by rewrite !lookup_insert_ne. }
  unfold written, reward_rows. destruct (reward_key e) as [rk|]; [|done].
  rewrite !not_elem_of_cons in K7. destruct K7 as (K7 & K8 & _).
  unfold bump_verified_proof_global_rewards_count. cbn [put_itx itx_cf]. by rewrite !lookup_insert_ne.
Qed.

Lemma written_events e b db v :
  iev_cf (put_itx INDEXED_TRANSACTIONS_PRIMARY_TOTAL_COUNT_KEY v (written e b db)) = iev_cf db.
Proof. unfold written, reward_rows. by destruct (reward_key e). Qed.

Lemma written_looked_up db es e b v :
  row_kind (ix_id e) = primary_kind → looked_up db es →
  looked_up (put_itx INDEXED_TRANSACTIONS_PRIMARY_TOTAL_COUNT_KEY v (written e b db)) (es ++ [e]).
Proof.
  intros Hid [Hh Hs Ht].
  split; intros k Hk; rewrite latest_id_snoc; rewrite put_other by (by apply starts_with_inv in Hk as (t & ->)).
  - rewrite written_height_row by done. by case_decide; [|apply Hh].
  - rewrite written_sender_row by done. by case_decide; [|apply Hs].
  - rewrite written_type_row by done. by case_decide; [|apply Ht].
Qed.

(** C33. Indexing a transaction whose id is not yet indexed, at a position of
    the chain that is free, succeeds and adds exactly its entry to the index.
    The rows by id, by position and by rewarded provider, the total and the
    count of rewards are those of the entries before and the new one; so are the
    rows by block height, by sender and nonce and by type, each of which holds
    the id of the latest entry with its key; the entry is found by its id and at
    its position, and every older entry is still found.  No row but those of the
    entry and the two counters changes, and no event row does. *)
Theorem index_transaction_refines (db : IndexDb) (es : list IndexedTransaction) (tx : Tx) (h i : Z)
    (status : TransactionStatus) (gas : option Z) (events : list Event) (now : Z) :
  let e := indexed_transaction_of tx h i status gas events now in
  indexed db es → looked_up db es → rewards_counted db es → fresh_entry es e →
  ∃ db', index_transaction tx h i status gas events now db = (Ok tt, db') ∧
    indexed db' (es ++ [e]) ∧ looked_up db' (es ++ [e]) ∧ rewards_counted db' (es ++ [e]) ∧
    itx_cf db' !! height_key e = Some (as_bytes (ix_id e)) ∧
    itx_cf db' !! sender_key e = Some (as_bytes (ix_id e)) ∧
    itx_cf db' !! type_key e = Some (as_bytes (ix_id e)) ∧
    block_position_indexed db' h i = true ∧
    (∀ x, x ∈ es ++ [e] → get_indexed_transaction db' (ix_id x) = Ok (Some x)) ∧
    (∀ k, k ∉ entry_keys e → itx_cf db' !! k = itx_cf db !! k) ∧ iev_cf db' = iev_cf db.
Proof.
  intros e Hi Hl Hr Hf.
  destruct (index_fresh db es tx h i status gas events now Hi Hf) as (db' & E & Hi' & Hg & b & Hdb).
  fold e in Hi', Hg, Hdb.
  assert (looked_up db' (es ++ [e])) as Hl' by (rewrite Hdb; by apply written_looked_up).
  pose proof Hl' as [Hh Hs Ht].
  exists db'. split; [done|]. split; [done|]. split; [done|]. split; [|split; [|split; [|split; [|split; [|split]]]]].
  - unfold rewards_counted in *. rewrite Hr in Hg. rewrite Hg, rewarded_snoc; [done|].
    pose proof (filter_length_bound is_rewarded es). pose proof (fe_room _ _ Hf). lia.
  - rewrite Hh, latest_id_snoc, decide_True by (done || apply starts_with_append). done.
  - rewrite Hs, latest_id_snoc, decide_True by (done || apply starts_with_append). done.
  - rewrite Ht, latest_id_snoc, decide_True by (done || apply starts_with_append). done.
  - apply (position_entry db' (es ++ [e]) e Hi'). rewrite elem_of_app, list_elem_of_singleton. by right.
  - intros x Hx. by apply (get_entry db' (es ++ [e])).
  - rewrite Hdb. split; [intros k Hk; by apply written_others|apply written_events].
Qed.

(** C34. On an index of the entries [es] every query answers from [es]: an entry is
    found by its id and other ids are not; a page is the newest matching
    entries strictly before the cursor, in descending order of the chain; the
    count of a filter, the total, the rewarded proofs of a provider between two
    heights and those of all providers are the numbers of such entries. *)
Theorem index_queries_exact (db : IndexDb) (es : list IndexedTransaction) :
  indexed db es → rewards_counted db es → Z.of_nat (length es) ≤ u64_max →
  (∀ e, e ∈ es → get_indexed_transaction db (ix_id e) = Ok (Some e)) ∧
  (∀ tx_id, is_primary_key (normalize_tx_id tx_id) = true → normalize_tx_id tx_id ∉ ix_id <$> es →
     get_indexed_transaction db tx_id = Ok None) ∧
  (∀ cursor limit f, 0 < limit < u32_max →
     match cursor with Some c => position_ok c | None => True end →
     list_indexed_transactions_chron_desc db cursor limit true f =
       Ok (take (Z.to_nat (limit + 1))
         (List.filter (λ e, indexed_transaction_matches_optional_filters e f)
           (List.filter (older cursor) (newest_first es))))) ∧
  (∀ f, count_indexed_transactions_matching_chron_filters db f =
     Ok (Z.of_nat (length (List.filter (λ e, indexed_transaction_matches_optional_filters e f) es)))) ∧
  (∃ db', indexed_transaction_primary_total_count db = (Ok (Z.of_nat (length es)), db') ∧ indexed db' es) ∧
  (∀ addr from to reward, 0 ≤ from ≤ u64_max →
     let p := to_ascii_lowercase (hex_with_prefix addr) in
     let n := Z.of_nat (length (List.filter (λ e, bool_decide (provider_of e = Some p) &&
                ((from <=? ix_block_height e) && (ix_block_height e <=? to))) es)) in
     aggregate_verified_proof_rewards db (hex_with_prefix addr) from to reward =
       Ok (n, saturating_mul_u128 n reward)) ∧
  (∀ reward, (global_verified_proof_rewards db reward).1 =
     Z.of_nat (length (List.filter is_rewarded es))).
Proof.
  intros Hi Hr Hn. split_and!.
  - intros e. by apply get_entry.
  - intros tx_id. by apply get_absent.
  - intros cursor limit f Hl Hc. unfold list_indexed_transactions_chron_desc.
    unfold saturating_add. rewrite Z.min_r by lia.
    rewrite (list_entries db es) by (done || lia). by rewrite Nat.max_l by lia.
  - intros f. by apply count_entries.
  - by apply total_entries.
  - intros addr from to reward Hf. by apply aggregate_entries.
  - intros reward. exact Hr.
Qed.

(** Indexing a rewarded proof that is already indexed at that position, as a
    retried block does, replaces its entry and changes neither the total nor
    the provider's rewards, but adds one to the rewards of all providers: the
    two sums no longer agree. *)
Theorem reindexed_reward_counted_again (db : IndexDb) (es1 es2 : list IndexedTransaction)
    (tx : Tx) (h i : Z) (gas : option Z) (events : list Event) (before now : Z) :
  let e := indexed_transaction_of tx h i Success gas events in
  indexed db (es1 ++ e before :: es2) → rewards_counted db (es1 ++ e before :: es2) →
  Z.of_nat (length (es1 ++ e before :: es2)) < u64_max → is_rewarded (e now) = true →
  ∃ db', index_transaction tx h i Success gas events now db = (Ok tt, db') ∧
    indexed db' (es1 ++ e now :: es2) ∧
    read_verified_proof_global_rewards_count db' =
      Z.of_nat (length (List.filter is_rewarded (es1 ++ e now :: es2))) + 1.
Proof.
  intros e Hi Hr Hn Hw.
  destruct (index_again db es1 es2 (e before) tx h i Success gas events now Hi) as (db' & E & Hi' & Hg);
    [done..|]. exists db'. split; [done|]. split; [done|].
  unfold rewards_counted in Hr. rewrite Hr in Hg. fold (e now) in Hg. rewrite Hw in Hg.
  assert (is_rewarded (e before) = true) as Hwb by exact Hw.
  rewrite Hg; [f_equal|].
  - rewrite !List.filter_app. cbn [List.filter]. by rewrite Hw, Hwb, !length_app.
  - pose proof (filter_length_bound is_rewarded (es1 ++ e before :: es2)). lia.
Qed.
End indexer_laws.

(** ** Witnesses *)

#[export] Instance TransactionStatus_eq_dec : EqDecision TransactionStatus.
Proof. solve_decision. Defined.
#[export, program] Instance TransactionStatus_countable : Countable TransactionStatus :=
  inj_countable' (λ s, match s with Success => true | Failed => false end)
    (λ b, if b then Success else Failed) _.
Next Obligation. by intros []. Qed.

#[export] Instance IndexedEvent_eq_dec : EqDecision IndexedEvent.
Proof. solve_decision. Defined.
#[export, program] Instance IndexedEvent_countable : Countable IndexedEvent :=
  inj_countable' (λ e, (ie_tx_id e, ie_event_index e, ie_event_type e, ie_attributes e,
      ie_block_height e, ie_block_index e, ie_timestamp e))
    (λ '(a, b, c, d, e, f, g), mkIndexedEvent a b c d e f g) _.
Next Obligation. by intros []. Qed.

#[export] Instance IndexedTransaction_eq_dec : EqDecision IndexedTransaction.
Proof. solve_decision. Defined.
#[export, program] Instance IndexedTransaction_countable : Countable IndexedTransaction :=
  inj_countable' (λ e, (ix_id e, ix_block_height e, ix_block_index e, ix_timestamp e, ix_tx e,
      ix_status e, ix_gas_used e, ix_events e))
    (λ '(a, b, c, d, e, f, g, h), mkIndexedTransaction a b c d e f g h) _.
Next Obligation. by intros []. Qed.

(** A stand-in for the texts: the code of a value. *)
#[export] Instance ref_indexer_json : IndexerJson := {|
  tx_to_vec tx := pos_to_bytes (encode tx);
  itx_to_vec := @bin_serialize _ (countable_bincode IndexedTransaction);
  itx_from_slice := @bin_deserialize _ (countable_bincode IndexedTransaction);
  iev_to_vec := @bin_serialize _ (countable_bincode IndexedEvent);
  iev_from_slice := @bin_deserialize _ (countable_bincode IndexedEvent);
|}.

#[export] Instance ref_indexer_json_laws : IndexerJsonLaws ref_indexer_json.
Proof.
  constructor; intros e.
  - exact (bin_roundtrip (BincodeLaws := countable_bincode_laws IndexedTransaction (λ _, True)) e I).
  - exact (bin_roundtrip (BincodeLaws := countable_bincode_laws IndexedEvent (λ _, True)) e I).
Qed.

Definition test_reward_tx : Tx :=
  Tx_new (mkNonce 3)
    (Payload_new (VerifiedProof (mkVerifiedProofTx (mkAddress (fit 20 [Init.Byte.x01]))
       (mkAddress (fit 20 [Init.Byte.x02])) "c" 5 6 MIN_TIMESTAMP [] MIN_TIMESTAMP "pk" "sig" false)))
    "pk".
Definition test_transfer_tx : Tx :=
  Tx_new (mkNonce 1)
    (Payload_new (Transfer (mkTransferTx (mkAddress (fit 20 [Init.Byte.x01]))
       (mkAddress (fit 20 [Init.Byte.x02])) 10))) "pk".
Definition test_events : list Event := [mkEvent "transfer" [("amount", "10")]].

Definition test_entry (now : Z) : IndexedTransaction :=
  indexed_transaction_of test_reward_tx 7 0 Success None test_events now.

Lemma fresh_first now : fresh_entry [] (test_entry now).
Proof.
  constructor; [split; [|done]|by intros []%elem_of_nil|by intros []%elem_of_nil|done].
  split; cbn; unfold u64_max, u32_max; lia.
Qed.

Lemma test_index now : ∃ db,
  index_transaction test_reward_tx 7 0 Success None test_events now empty_index = (Ok tt, db) ∧
  indexed db [test_entry now] ∧ rewards_counted db [test_entry now] ∧ looked_up db [test_entry now].
Proof.
  destruct (index_fresh empty_index [] test_reward_tx 7 0 Success None test_events now) as (db & E & Hi & Hg & b & Hdb).
  { exact index_empty. } { apply fresh_first. }
  exists db. split; [done|]. split; [done|]. split.
  - unfold rewards_counted. rewrite Hg by (vm_compute; split; congruence). reflexivity.
  - rewrite Hdb. by apply (written_looked_up empty_index []).
Qed.

Lemma index_transaction_refines_witness : ∃ db db',
  index_transaction test_transfer_tx 8 1 Failed (Some 2) [] 9 db = (Ok tt, db') ∧
  get_indexed_transaction db' (calculate_tx_id test_transfer_tx) =
    Ok (Some (indexed_transaction_of test_transfer_tx 8 1 Failed (Some 2) [] 9)) ∧
  get_indexed_transaction db' (calculate_tx_id test_reward_tx) = Ok (Some (test_entry 4)).
Proof.
  destruct (test_index 4) as (db & _ & Hi & Hr & Hl).
  destruct (index_transaction_refines db [test_entry 4] test_transfer_tx 8 1 Failed (Some 2) [] 9 Hi Hl Hr)
    as (db' & E & _ & _ & _ & _ & _ & _ & _ & Hg & _).
  { constructor; [split; [|done]| | |done].
    - split; cbn; unfold u64_max, u32_max; lia.
    - apply (bool_decide_unpack _). vm_compute. exact I.
    - apply (bool_decide_unpack _). vm_compute. exact I. }
  exists db, db'. split; [exact E|]. split.
  - apply (Hg (indexed_transaction_of test_transfer_tx 8 1 Failed (Some 2) [] 9)). right. by left.
  - apply (Hg (test_entry 4)). by left.
Defined.

Lemma index_queries_exact_witness : ∃ db,
  list_indexed_transactions_chron_desc db (Some (8, 0)) 50 true (mkChronFilters (Some 7) None None) =
    Ok [test_entry 4] ∧
  list_indexed_transactions_chron_desc db (Some (7, 0)) 50 true (mkChronFilters None None None) = Ok [] ∧
  aggregate_verified_proof_rewards db (hex_with_prefix (mkAddress (fit 20 [Init.Byte.x02]))) 5 7 100 =
    Ok (1, 100).
Proof.
  destruct (test_index 4) as (db & _ & Hi & Hr & _). exists db.
  destruct (index_queries_exact db [test_entry 4] Hi Hr) as (_ & _ & Hl & _ & _ & Ha & _);
    [vm_compute; congruence|]. split_and!.
  - rewrite Hl; [vm_compute; reflexivity|unfold u32_max; lia|].
    split; cbn; unfold u64_max, u32_max; lia.
  - rewrite Hl; [vm_compute; reflexivity|unfold u32_max; lia|].
    split; cbn; unfold u64_max, u32_max; lia.
  - rewrite Ha; [vm_compute; reflexivity|unfold u64_max; lia].
Defined.

Lemma reindexed_reward_counted_again_witness : ∃ db db',
  index_transaction test_reward_tx 7 0 Success None test_events 9 db = (Ok tt, db') ∧
  indexed db' [test_entry 9] ∧ read_verified_proof_global_rewards_count db' = 2.
Proof.
  destruct (test_index 4) as (db & _ & Hi & Hr & _).
  destruct (reindexed_reward_counted_again db [] [] test_reward_tx 7 0 None test_events 4 9 Hi Hr)
    as (db' & E & Hi' & Hg); [reflexivity|reflexivity|].
  exists db, db'. split; [exact E|]. split; [exact Hi'|]. rewrite Hg. reflexivity.
Defined.
