(* ===== verification/IndexerSync.v ===== *)
(** The thread that fills the transaction index: node_app/src/indexer/sync.rs
    and the decoding of block entries in client/src/api/abci/http.rs.

    Tendermint's RPC is a parameter: each pass of the loop is given what the
    RPC answers during it.  The clock is an argument.  A decoding that recurses
    without end overflows the stack of the thread; it is [None]. *)
From S2P Require Import Prelude Externals Reference Coins Address Ordering Namespace Cado Records Tx TxCodes Wire Validation Fee Pinboard AppState Ledger Processors VerifiedProof Deliver Storage Feed Prefix Indexer.

(** ** Data of the RPC *)

(** [tendermint::abci::Event]; an attribute has a key, a value and its index flag. *)
Record TmEvent : Type := mkTmEvent {
  tm_kind : string;
  tm_attributes : list (string * string * bool);
}.

(** What is used of [/tx]. *)
Record TxResponse : Type := mkTxResponse {
  tr_height : Z;
  tr_index : Z;
  tr_code : Z;
  tr_gas_used : Z;
  tr_events : list TmEvent;
  tr_tx : bytes;
}.

(** [AbciHttpApi::get_block], the entries of [block.data], and
    [AbciHttpApi::get_tx_by_hash]. *)
Record Rpc : Type := mkRpc {
  get_block : Z → option (list bytes);
  get_tx_by_hash : byte_array 32 → option TxResponse;
}.

(** [serde_json::from_slice] of a transaction. *)
Class TxSlice : Type := { tx_from_slice : bytes → option Tx }.

(** ** http.rs *)

Definition tm_tx_result_is_success (code : Z) : bool := code =? 0.

(** [u64::try_from(gas_used).ok().filter(|gas| *gas > 0)] of an [i64] *)
Definition tm_tx_gas_used (gas_used : Z) : option Z :=
  if 0 <=? gas_used then if 0 <? gas_used then Some gas_used else None else None.

Definition tm_events_to_abci_events (events : list TmEvent) : list Event :=
  map (λ e, mkEvent (tm_kind e) (map (λ a, (a.1.1, a.1.2)) (tm_attributes e))) events.

Section indexer_sync.
Context {H : HexCrate} {HC : HashCrates} {B : Base64} {TJ : TxJson} {TS : TxSlice} {J : IndexerJson}.

Definition wire_bytes_to_tx_hash (tx_bytes : bytes) : byte_array 32 := sha256 tx_bytes.

Definition decode_eld_tx_from_wire (tx_bytes : bytes) : eld_result Tx :=
  let? hex_str := ok_or (from_utf8 tx_bytes) (ValidationError "tx_bytes") in
  let? json_bytes := ok_or (hex_decode hex_str) (ValidationError "tx_hex") in
  let? json_str := ok_or (from_utf8 json_bytes) (ValidationError "tx_json") in
  ok_or (tx_from_json json_str) (ValidationError "tx").

(** [fuel] bounds the depth of the recursion. *)
Fixpoint decode_eld_tx_from_block_tx_bytes (fuel : nat) (tx_bytes : bytes) : option (eld_result Tx) :=
  match fuel with
  | O => None
  | S fuel =>
      match decode_eld_tx_from_wire tx_bytes with
      | Ok tx => Some (Ok tx)
      | Err _ =>
          let last := ok_or (tx_from_slice tx_bytes) (ValidationError "tx") in
          match from_utf8 tx_bytes with
          | None => Some last
          | Some json_str =>
              match tx_from_json json_str with
              | Some tx => Some (Ok tx)
              | None =>
                  match base64_decode (trim json_str) with
                  | None => Some last
                  | Some inner =>
                      match decode_eld_tx_from_block_tx_bytes fuel inner with
                      | None => None
                      | Some (Ok tx) => Some (Ok tx)
                      | Some (Err _) => Some last
                      end
                  end
              end
          end
      end
  end.

(** Every level of base64 shortens the bytes. *)
Definition decode_block_tx (tx_bytes : bytes) : option (eld_result Tx) :=
  decode_eld_tx_from_block_tx_bytes (S (length tx_bytes)) tx_bytes.

(** ** sync.rs *)

(** The loop over the events; a failure is logged.  [clock] is the time each
    event is stamped with. *)
Fixpoint index_events (tx_id : string) (event_index : nat) (events : list Event)
    (height block_index : Z) (clock : nat → Z) (db : IndexDb) : IndexDb :=
  match events with
  | [] => db
  | event :: events =>
      let '(_, db) := index_event tx_id (Z.of_nat event_index mod 2 ^ 32) event height block_index
                        (clock event_index) db in
      index_events tx_id (S event_index) events height block_index clock db
  end.

(** A response at another position is only logged.  [now] stamps the transaction. *)
Definition index_tx_from_block_and_tm_tx (api : Rpc) (block_tx_wire : bytes)
    (expected_height expected_index now : Z) (clock : nat → Z) (db : IndexDb) :
    option (eld_result unit * IndexDb) :=
  match get_tx_by_hash api (wire_bytes_to_tx_hash block_tx_wire) with
  | None => Some (Err (NetworkError "get_tx_by_hash"), db)
  | Some tx_resp =>
      match decode_block_tx (tr_tx tx_resp) with
      | None => None
      | Some (Err e) => Some (Err e, db)
      | Some (Ok eld_tx) =>
          let status := if tm_tx_result_is_success (tr_code tx_resp) then Success else Failed in
          let gas_used := tm_tx_gas_used (tr_gas_used tx_resp) in
          let abci_events := tm_events_to_abci_events (tr_events tx_resp) in
          match index_transaction eld_tx expected_height expected_index status gas_used abci_events
                  now db with
          | (Err e, db) => Some (Err e, db)
          | (Ok _, db) =>
              Some (Ok tt, index_events (calculate_tx_id eld_tx) 0 abci_events expected_height
                             expected_index clock db)
          end
      end
  end.

(** The times a pass reads: for each entry of the block, of the transaction and
    of its events. *)
Definition Clock : Type := nat → Z * (nat → Z).

(** The loop over the entries of a block: the rest is indexed after a failure,
    which only clears [block_fully_written]. *)
Fixpoint index_block (api : Rpc) (clock : Clock) (height : Z) (block_index : nat) (wires : list bytes)
    (block_fully_written : bool) (db : IndexDb) : option (bool * IndexDb) :=
  match wires with
  | [] => Some (block_fully_written, db)
  | w :: wires =>
      match index_tx_from_block_and_tm_tx api w height (Z.of_nat block_index mod 2 ^ 32)
              (clock block_index).1 (clock block_index).2 db with
      | None => None
      | Some (r, db) =>
          index_block api clock height (S block_index) wires
            (match r with Ok _ => block_fully_written | Err _ => false end) db
      end
  end.

(** One pass of the loop of [run_indexer_sync_loop]. *)
Definition sync_step (api : Rpc) (clock : Clock) (db : IndexDb) : option IndexDb :=
  match get_indexer_cursor db with
  | Err _ => Some db
  | Ok cursor =>
      let next_height := match cursor with Some h => saturating_add u64_max h 1 | None => 1 end in
      match get_block api next_height with
      | None => Some db
      | Some data =>
          match index_block api clock next_height 0 data true db with
          | None => None
          | Some (false, db) => Some db
          | Some (true, db) => Some (set_indexer_cursor next_height db)
          end
      end
  end.

(** The loop of [startup_repair_cursor_block] over the entries of the block. *)
Fixpoint repair_block (api : Rpc) (clock : Clock) (height : Z) (block_index : nat) (wires : list bytes)
    (db : IndexDb) : option IndexDb :=
  match wires with
  | [] => Some db
  | w :: wires =>
      let ix := Z.of_nat block_index mod 2 ^ 32 in
      if block_position_indexed db height ix
      then repair_block api clock height (S block_index) wires db
      else
        match index_tx_from_block_and_tm_tx api w height ix (clock block_index).1 (clock block_index).2 db with
        | None => None
        | Some (_, db) => repair_block api clock height (S block_index) wires db
        end
  end.

Definition startup_repair_cursor_block (api : Rpc) (clock : Clock) (db : IndexDb) :
    option (eld_result unit * IndexDb) :=
  match get_indexer_cursor db with
  | Err e => Some (Err e, db)
  | Ok None => Some (Ok tt, db)
  | Ok (Some cursor_height) =>
      if cursor_height =? 0 then Some (Ok tt, db)
      else
        match get_block api cursor_height with
        | None => Some (Err (NetworkError "get_block"), db)
        | Some data =>
            match repair_block api clock cursor_height 0 data db with
            | None => None
            | Some db => Some (Ok tt, db)
            end
        end
  end.
End indexer_sync.

(** ** Decoding *)

Lemma strip_ws_shorter flip l l' : strip_ws flip l = Some l' → (length l' < length l)%nat.
Proof.
  unfold strip_ws. destruct l as [|a r]; [done|]. destruct (ws1 a); [intros [= <-]; simpl; lia|].
  destruct r as [|b r]; [done|]. destruct (if flip then _ else _); [intros [= <-]; simpl; lia|].
  destruct r as [|c r]; [done|]. destruct (if flip then _ else _); [intros [= <-]; simpl; lia|done].
Qed.

Lemma strip_ws_all_length flip fuel l : (length (strip_ws_all flip fuel l) ≤ length l)%nat.
Proof.
  revert l. induction fuel as [|fuel IH]; intros l; [done|]. cbn [strip_ws_all].
  destruct (strip_ws flip l) as [l'|] eqn:E; [|done]. apply strip_ws_shorter in E. specialize (IH l'). lia.
Qed.

Lemma string_of_list_length l : String.length (String.string_of_list_ascii l) = length l.
Proof. induction l as [|c l IH]; [done|]. cbn. by rewrite IH. Qed.

Lemma list_of_string_length s : length (String.list_ascii_of_string s) = String.length s.
Proof. induction s as [|c s IH]; [done|]. cbn. by rewrite IH. Qed.

Lemma trim_length s : (String.length (trim s) ≤ String.length s)%nat.
Proof.
  unfold trim. rewrite string_of_list_length, length_reverse. etrans; [apply strip_ws_all_length|].
  rewrite length_reverse. etrans; [apply strip_ws_all_length|]. by rewrite list_of_string_length.
Qed.

Lemma from_utf8_length b s : from_utf8 b = Some s → String.length s = length b.
Proof.
  unfold from_utf8. destruct (utf8_valid b); [|done]. intros [= <-].
  by rewrite string_of_list_length, length_map.
Qed.

Section decoding.
Context {H : HexCrate} {HL : HexLaws H} {HC : HashCrates} {B : Base64} {BL : Base64Laws B} {TJ : TxJson}
  {TS : TxSlice}.

(** Bytes that are text, but neither hex of a transaction nor a transaction:
    the text is read as base64. *)
Definition undecoded (b : bytes) (s : string) : Prop :=
  from_utf8 b = Some s ∧ tx_from_json s = None ∧ ∃ e, decode_eld_tx_from_wire b = Err e.

(** Base64 of base64 of ... blank text, none of the levels a transaction. *)
Inductive reaches_blank : bytes → Prop :=
| blank_text b s : undecoded b s → trim s = EmptyString → reaches_blank b
| blank_inner b s inner :
    undecoded b s → base64_decode (trim s) = Some inner → reaches_blank inner → reaches_blank b.

Lemma decode_undecoded fuel b s inner :
  undecoded b s → base64_decode (trim s) = Some inner →
  decode_eld_tx_from_block_tx_bytes (S fuel) b =
    match decode_eld_tx_from_block_tx_bytes fuel inner with
    | None => None
    | Some (Ok tx) => Some (Ok tx)
    | Some (Err _) => Some (ok_or (tx_from_slice b) (ValidationError "tx"))
    end.
Proof.
  intros (Hs & Hj & e & He) Hi. cbn [decode_eld_tx_from_block_tx_bytes]. by rewrite He, Hs, Hj, Hi.
Qed.

(** Either the answer needs no recursion, or the bytes are base64 of others. *)
Lemma decode_cases b :
  (∃ r, ∀ fuel, decode_eld_tx_from_block_tx_bytes (S fuel) b = Some r) ∨
  (∃ s inner, undecoded b s ∧ base64_decode (trim s) = Some inner).
Proof.
  destruct (decode_eld_tx_from_wire b) as [tx|e] eqn:Ew.
  { left. exists (Ok tx). intros fuel. cbn [decode_eld_tx_from_block_tx_bytes]. by rewrite Ew. }
  destruct (from_utf8 b) as [s|] eqn:Es.
  2:{ left. eexists. intros fuel. cbn [decode_eld_tx_from_block_tx_bytes]. by rewrite Ew, Es. }
  destruct (tx_from_json s) as [tx|] eqn:Ej.
  { left. eexists. intros fuel. cbn [decode_eld_tx_from_block_tx_bytes]. by rewrite Ew, Es, Ej. }
  destruct (base64_decode (trim s)) as [inner|] eqn:Ei.
  - right. exists s, inner. split; [|done]. split; [done|]. split; [done|]. by eexists.
  - left. eexists. intros fuel. cbn [decode_eld_tx_from_block_tx_bytes]. by rewrite Ew, Es, Ej, Ei.
Qed.

Lemma inner_shorter b s inner :
  undecoded b s → base64_decode (trim s) = Some inner → trim s ≠ EmptyString →
  (length inner < length b)%nat.
Proof.
  intros (Hs & _) Hi Hne. apply base64_size in Hi. pose proof (trim_length s) as Ht.
  rewrite (from_utf8_length b s Hs) in Ht. destruct (trim s) as [|c t]; [done|]. cbn [String.length] in *. lia.
Qed.

(** Bytes that do not reach blank text decode within one level per byte. *)
Lemma decode_returns b : ¬ reaches_blank b →
  ∃ r, ∀ fuel, (length b < fuel)%nat → decode_eld_tx_from_block_tx_bytes fuel b = Some r.
Proof.
  remember (length b) as n eqn:En. revert b En. induction n as [n IH] using lt_wf_ind. intros b -> Hb.
  destruct (decode_cases b) as [(r & Hr)|(s & inner & Hu & Hi)].
  { exists r. intros [|fuel]; [lia|done]. }
  assert (trim s ≠ EmptyString) as Hne by (intros E; apply Hb; by eapply blank_text).
  pose proof (inner_shorter b s inner Hu Hi Hne) as Hl.
  destruct (IH _ Hl inner eq_refl) as (r & Hr); [intros Hc; apply Hb; by eapply blank_inner|].
  eexists. intros [|fuel] Hf; [lia|]. rewrite (decode_undecoded fuel b s inner Hu Hi), Hr by lia.
  instantiate (1 := match r with Ok tx => Ok tx | Err _ => _ end). by destruct r.
Qed.

Context (json_blank : tx_from_json EmptyString = None).

(** No bytes at all are blank text. *)
Lemma empty_undecoded : undecoded [] EmptyString.
Proof.
  split; [done|]. split; [done|]. unfold decode_eld_tx_from_wire.
  change (from_utf8 []) with (Some EmptyString). cbn [ok_or].
  destruct (hex_decode EmptyString) as [j|] eqn:Ej; [|by eexists]. apply hex_decode_length in Ej.
  destruct j; [|done]. cbn [ok_or]. change (from_utf8 []) with (Some EmptyString). cbn [ok_or].
  rewrite json_blank. by eexists.
Qed.

Lemma decode_empty_forever fuel : decode_eld_tx_from_block_tx_bytes fuel [] = None.
Proof.
  induction fuel as [|fuel IH]; [done|].
  rewrite (decode_undecoded fuel [] EmptyString []); [by rewrite IH|apply empty_undecoded|apply base64_empty].
Qed.

Lemma decode_blank_forever b : reaches_blank b → ∀ fuel, decode_eld_tx_from_block_tx_bytes fuel b = None.
Proof.
  induction 1 as [b s Hu Ht|b s inner Hu Hi _ IH]; intros [|fuel]; try done.
  - rewrite (decode_undecoded fuel b s []); [by rewrite decode_empty_forever|done|].
    rewrite Ht. apply base64_empty.
  - rewrite (decode_undecoded fuel b s inner) by done. by rewrite IH.
Qed.

(** C36. The recursion of [decode_eld_tx_from_block_tx_bytes] ends for every entry of
    a block but those that are base64 of base64 of ... blank text, no level of
    which is a transaction: one level per byte is enough, and the answer does
    not depend on the bound.  On the others, the empty entry among them, it
    never ends. *)
Theorem block_tx_decoding_terminates (b : bytes) :
  (¬ reaches_blank b →
     ∃ r, decode_block_tx b = Some r ∧
       ∀ fuel, (length b < fuel)%nat → decode_eld_tx_from_block_tx_bytes fuel b = Some r) ∧
  (reaches_blank b → ∀ fuel, decode_eld_tx_from_block_tx_bytes fuel b = None) ∧
  reaches_blank [].
Proof.
  split_and!.
  - intros Hb. destruct (decode_returns b Hb) as (r & Hr). exists r. split; [|exact Hr]. apply Hr. lia.
  - intros Hb. by apply decode_blank_forever.
  - apply (blank_text [] EmptyString); [apply empty_undecoded|done].
Qed.
End decoding.

Section delivered.
Context {H : HexCrate} {HC : HashCrates} {C : RecordCodecs} {E : Ed25519} {TJ : TxJson} {R : RandCrate}
  {SJ : SerdeJson} {B : Base64} {TS : TxSlice} (protocol : ProtocolConstants).

(** What the chain executed the index decodes, to the same transaction. *)
Lemma delivered_decodes b tx : decode_tx protocol b = Ok tx → decode_block_tx b = Some (Ok tx).
Proof.
  intros Hd. unfold decode_block_tx. cbn [decode_eld_tx_from_block_tx_bytes].
  assert (decode_eld_tx_from_wire b = Ok tx) as ->; [|done]. revert Hd. unfold decode_tx, decode_eld_tx_from_wire.
  destruct (_ <? _); [done|]. destruct (from_utf8 b) as [hs|]; [|done]. cbn [ok_or].
  destruct (validate_hex_string hs MAX_HEX_BYTES); [|done].
  destruct (hex_decode hs) as [jb|]; [|done]. cbn [ok_or]. destruct (from_utf8 jb) as [js|]; [|done]. cbn [ok_or].
  destruct (validate_json_string js _ _); [|done]. destruct (value_from_str js) as [v|]; [|done]. cbn [ok_or].
  destruct (validate_transaction_structure v); [|done]. destruct (tx_from_json js); [|done]. by intros [= ->].
Qed.
End delivered.

(** ** The index follows the chain *)

(** A transaction of a block, with the result of its execution. *)
Record ChainTx : Type := mkChainTx {
  ct_wire : bytes;
  ct_code : Z;
  ct_gas : Z;
  ct_events : list TmEvent;
}.

(** The blocks from height 1 on. *)
Definition Chain : Type := list (list ChainTx).

Definition chain_at (chain : Chain) (k i : nat) : option ChainTx := blk ← chain !! k; blk !! i.

Section following.
Context {H : HexCrate} {HL : HexLaws H} {HC : HashCrates} {B : Base64} {BL : Base64Laws B} {TJ : TxJson}
  {TS : TxSlice} {J : IndexerJson} {JL : IndexerJsonLaws J}.

(** The entry of a transaction of the chain, stamped at [now]. *)
Definition chain_entry (k i : nat) (ct : ChainTx) (tx : Tx) (now : Z) : IndexedTransaction :=
  indexed_transaction_of tx (Z.of_nat k + 1) (Z.of_nat i)
    (if tm_tx_result_is_success (ct_code ct) then Success else Failed)
    (tm_tx_gas_used (ct_gas ct)) (tm_events_to_abci_events (ct_events ct)) now.

Definition entry_at (chain : Chain) (k i : nat) (e : IndexedTransaction) : Prop :=
  ∃ ct tx now, chain_at chain k i = Some ct ∧ decode_block_tx (ct_wire ct) = Some (Ok tx) ∧
    e = chain_entry k i ct tx now.

Definition held (chain : Chain) (es : list IndexedTransaction) (k i : nat) : Prop :=
  ∃ e, e ∈ es ∧ entry_at chain k i e.

(** What the RPC answers is the chain; it may also fail to answer. *)
Record honest_node (chain : Chain) (api : Rpc) : Prop := {
  hr_block h ws : get_block api h = Some ws →
    ∃ k blk, h = Z.of_nat k + 1 ∧ chain !! k = Some blk ∧ ws = ct_wire <$> blk;
  hr_tx k i ct resp : chain_at chain k i = Some ct →
    get_tx_by_hash api (wire_bytes_to_tx_hash (ct_wire ct)) = Some resp →
    tr_tx resp = ct_wire ct ∧ tr_code resp = ct_code ct ∧ tr_gas_used resp = ct_gas ct ∧
    tr_events resp = ct_events ct;
}.

(** Block [k] and each of its transactions are answered and decode. *)
Definition serves (chain : Chain) (api : Rpc) (k : nat) : Prop :=
  is_Some (get_block api (Z.of_nat k + 1)) ∧
  ∀ i ct, chain_at chain k i = Some ct →
    is_Some (get_tx_by_hash api (wire_bytes_to_tx_hash (ct_wire ct))) ∧
    ∃ tx, decode_block_tx (ct_wire ct) = Some (Ok tx).

(** Sizes within the widths of the keys, no entry whose decoding does not end,
    and no transaction in two places. *)
Record chain_ok (chain : Chain) : Prop := {
  co_blocks : Z.of_nat (length chain) < 2 ^ 32;
  co_sizes : Forall (λ blk : list ChainTx, Z.of_nat (length blk) ≤ 2 ^ 32) chain;
  co_ends k i ct : chain_at chain k i = Some ct → ¬ reaches_blank (ct_wire ct);
  co_ids k i ct tx k' i' ct' tx' :
    chain_at chain k i = Some ct → decode_block_tx (ct_wire ct) = Some (Ok tx) →
    chain_at chain k' i' = Some ct' → decode_block_tx (ct_wire ct') = Some (Ok tx') →
    calculate_tx_id tx = calculate_tx_id tx' → k = k' ∧ i = i';
}.

(** The cursor after [k] blocks. *)
Definition cursor_at (k : nat) : option Z := if (k =? 0)%nat then None else Some (Z.of_nat k).

(** Entries of the first blocks of the chain only, up to block [k]. *)
Record follows (chain : Chain) (k c : nat) (db : IndexDb) (es : list IndexedTransaction) : Prop := {
  fo_index : indexed db es;
  fo_cursor : get_indexer_cursor db = Ok (cursor_at c);
  fo_chain e : e ∈ es → ∃ k' i, (k' ≤ k)%nat ∧ entry_at chain k' i e;
}.

(** Every transaction of the first [k] blocks is held, and nothing else but
    some of block [k]. *)
Record synced (chain : Chain) (k : nat) (db : IndexDb) (es : list IndexedTransaction) : Prop := {
  sy_follows : follows chain k k db es;
  sy_range : (k ≤ length chain)%nat;
  sy_complete k' i : (k' < k)%nat → is_Some (chain_at chain k' i) → held chain es k' i;
}.

(** *** Rows the cursor does not depend on *)

Lemma cursor_same db db' :
  itx_cf db' !! INDEXER_CURSOR_KEY = itx_cf db !! INDEXER_CURSOR_KEY →
  get_indexer_cursor db' = get_indexer_cursor db.
Proof. unfold get_indexer_cursor. by intros ->. Qed.

Lemma bump_total_other db k : row_kind k ≠ total_kind →
  itx_cf (bump_indexed_transaction_primary_total_count db).2 !! k = itx_cf db !! k.
Proof.
  intros Hk. unfold bump_indexed_transaction_primary_total_count.
  destruct (itx_cf db !! INDEXED_TRANSACTIONS_PRIMARY_TOTAL_COUNT_KEY) as [b|]; [|by apply put_other].
  destruct (decode_u64_meta b) as [n|]; [|done]. cbv beta iota.
  destruct (checked_add u64_max n 1); [by apply put_other|done].
Qed.

Lemma index_transaction_cursor tx h i status gas events now db :
  get_indexer_cursor (index_transaction tx h i status gas events now db).2 = get_indexer_cursor db.
Proof.
  apply cursor_same. destruct (index_transaction_run tx h i status gas events now db) as (b & _ & _ & ->).
  set (e := indexed_transaction_of tx h i status gas events now). fold (written e b db).
  assert (itx_cf (written e b db) !! INDEXER_CURSOR_KEY = itx_cf db !! INDEXER_CURSOR_KEY) as Hw.
  { unfold written. rewrite reward_rows_other by discriminate. apply base_rows_rest; [apply ix_id_kind|].
    change (cursor_kind ∈ [reward_kind; total_kind; global_kind; cursor_kind]). do 3 right. by left. }
  destruct (bool_decide _); [exact Hw|]. rewrite bump_total_other by discriminate. exact Hw.
Qed.

Lemma index_events_itx id j events h i clock db : itx_cf (index_events id j events h i clock db) = itx_cf db.
Proof.
  revert j db. induction events as [|ev events IH]; intros j db; [done|]. cbn [index_events].
  unfold index_event. destruct (iev_to_vec _); by rewrite IH.
Qed.

Lemma indexed_itx db db' es : itx_cf db' = itx_cf db → indexed db es → indexed db' es.
Proof.
  intros E Hi. apply (indexed_other db); [done|by intros k _; rewrite E|]. rewrite E. apply (in_total _ _ Hi).
Qed.

Lemma set_cursor_indexed h db es : indexed db es → indexed (set_indexer_cursor h db) es.
Proof.
  intros Hi. apply (indexed_other db); [done| |].
  - intros k Hk. apply put_other. by destruct Hk as [->|[->| ->]].
  - unfold set_indexer_cursor. rewrite put_other by discriminate. apply (in_total _ _ Hi).
Qed.

Lemma set_cursor_get h db : 0 ≤ h ≤ u64_max → get_indexer_cursor (set_indexer_cursor h db) = Ok (Some h).
Proof.
  intros Hh. unfold get_indexer_cursor, set_indexer_cursor. rewrite put_same.
  rewrite utf8_ascii. 2:{ eapply string_all_impl, to_string_all_digits. intros c.
    unfold is_ascii_digit, ascii_between. intros [_ Hc]%andb_true_iff.
    apply N.leb_le in Hc. apply andb_true_iff. split; apply N.leb_le; lia. }
  cbn [ok_or]. unfold u64_max in *. by rewrite parse_to_string by lia.
Qed.

(** *** Positions *)

Lemma chain_at_range chain k i ct :
  chain_ok chain → chain_at chain k i = Some ct →
  (k < length chain)%nat ∧ Z.of_nat i < 2 ^ 32 ∧ position_ok (Z.of_nat k + 1, Z.of_nat i).
Proof.
  intros Hok Hc. unfold chain_at in Hc. destruct (chain !! k) as [blk|] eqn:Ek; [|done]. cbn in Hc.
  pose proof (lookup_lt_Some _ _ _ Ek). pose proof (lookup_lt_Some _ _ _ Hc).
  pose proof (proj1 (Forall_lookup _ _) (co_sizes _ Hok) k blk Ek) as Hs. cbn beta in Hs.
  pose proof (co_blocks _ Hok). split; [done|]. split; [lia|].
  split; cbn [fst snd]; unfold u64_max, u32_max; lia.
Qed.

Lemma entry_at_position chain k i e : entry_at chain k i e → position e = (Z.of_nat k + 1, Z.of_nat i).
Proof. by intros (ct & tx & now & _ & _ & ->). Qed.

(** Distinct positions of the chain leave room in the counters. *)
Lemma follows_room chain k c db es :
  chain_ok chain → follows chain k c db es → Z.of_nat (length es) < u64_max.
Proof.
  intros Hok Hf. set (n := Z.to_nat (2 ^ 32)).
  set (all := list_prod (seqZ 1 (Z.of_nat (length chain))) (seqZ 0 (2 ^ 32))).
  assert (length (position <$> es) ≤ length chain * n)%nat as Hl.
  { unfold n. assert (length all = length chain * Z.to_nat (2 ^ 32))%nat as <-
      by (unfold all; by rewrite length_prod, !length_seqZ, Nat2Z.id).
    apply submseteq_length, NoDup_submseteq; [apply (in_positions _ _ (fo_index _ _ _ _ _ Hf))|].
    intros p (e & -> & He)%list_elem_of_fmap.
    destruct (fo_chain _ _ _ _ _ Hf e He) as (k' & i & _ & Hat). rewrite (entry_at_position _ _ _ _ Hat).
    destruct Hat as (ct & tx & now & Hct & _ & _). destruct (chain_at_range _ _ _ _ Hok Hct) as (Hk & Hi & _).
    apply list_elem_of_In, in_prod; apply list_elem_of_In, elem_of_seqZ; lia. }
  rewrite length_fmap in Hl. pose proof (co_blocks _ Hok). unfold u64_max, n in *. nia.
Qed.

(** *** One transaction *)

(** Entries of one position agree up to their stamp. *)
Lemma entry_at_same chain k i e e' :
  entry_at chain k i e → entry_at chain k i e' →
  ix_id e = ix_id e' ∧ position e = position e' ∧ reward_key e = reward_key e'.
Proof.
  intros (ct & tx & now & Hc & Hd & ->) (ct' & tx' & now' & Hc' & Hd' & ->).
  rewrite Hc in Hc'. injection Hc' as <-. rewrite Hd in Hd'. injection Hd' as <-. done.
Qed.

Lemma entry_at_unique chain k i e k' i' e' :
  chain_ok chain → entry_at chain k i e → entry_at chain k' i' e' →
  ix_id e = ix_id e' ∨ position e = position e' → k = k' ∧ i = i'.
Proof.
  intros Hok He He' [E|E].
  - destruct He as (ct & tx & now & Hc & Hd & ->), He' as (ct' & tx' & now' & Hc' & Hd' & ->).
    by apply (co_ids _ Hok k i ct tx k' i' ct' tx').
  - rewrite (entry_at_position _ _ _ _ He), (entry_at_position _ _ _ _ He') in E. injection E as E1 E2. lia.
Qed.

(** The new entries hold what the old ones did. *)
Definition holds_more (chain : Chain) (es es' : list IndexedTransaction) : Prop :=
  ∀ k i, held chain es k i → held chain es' k i.

Lemma index_entry chain k c i ct tx now db es :
  chain_ok chain → follows chain k c db es → chain_at chain k i = Some ct →
  decode_block_tx (ct_wire ct) = Some (Ok tx) →
  let e := chain_entry k i ct tx now in
  ∃ db' es', index_transaction tx (Z.of_nat k + 1) (Z.of_nat i)
      (if tm_tx_result_is_success (ct_code ct) then Success else Failed)
      (tm_tx_gas_used (ct_gas ct)) (tm_events_to_abci_events (ct_events ct)) now db = (Ok tt, db') ∧
    follows chain k c db' es' ∧ holds_more chain es es' ∧ held chain es' k i.
Proof.
  intros Hok Hf Hc Hd e. assert (entry_at chain k i e) as He by (by exists ct, tx, now).
  pose proof (fo_index _ _ _ _ _ Hf) as Hi.
  assert (∀ x, x ∈ es → ix_id x = ix_id e ∨ position x = position e → entry_at chain k i x) as Hsame.
  { intros x Hx E. destruct (fo_chain _ _ _ _ _ Hf x Hx) as (k' & i' & _ & Hat).
    by destruct (entry_at_unique _ _ _ _ _ _ _ Hok Hat He E) as [-> ->]. }
  assert (∀ db' es', indexed db' es' → e ∈ es' → (∀ x, x ∈ es' → x = e ∨ x ∈ es) →
    index_transaction tx (Z.of_nat k + 1) (Z.of_nat i)
      (if tm_tx_result_is_success (ct_code ct) then Success else Failed)
      (tm_tx_gas_used (ct_gas ct)) (tm_events_to_abci_events (ct_events ct)) now db = (Ok tt, db') →
    follows chain k c db' es' ∧ held chain es' k i) as Hdone.
  { intros db' es' Hi' Hin Hx Er. split; [|by exists e]. constructor; [done| |].
    - rewrite <- (fo_cursor _ _ _ _ _ Hf). symmetry.
      rewrite <- (index_transaction_cursor tx (Z.of_nat k + 1) (Z.of_nat i)
        (if tm_tx_result_is_success (ct_code ct) then Success else Failed)
        (tm_tx_gas_used (ct_gas ct)) (tm_events_to_abci_events (ct_events ct)) now db). by rewrite Er.
    - intros x [->|H']%Hx; [by exists k, i|]. by apply (fo_chain _ _ _ _ _ Hf). }
  destruct (decide (ix_id e ∈ ix_id <$> es)) as [(e0 & E0 & He0)%list_elem_of_fmap|Hn].
  - pose proof (Hsame e0 He0 (or_introl (eq_sym E0))) as Hat0.
    destruct (entry_at_same _ _ _ _ _ Hat0 He) as (S1 & S2 & S3).
    apply list_elem_of_split in He0 as (es1 & es2 & ->).
    destruct (index_again db es1 es2 e0 _ _ _ _ _ _ now Hi S1 S2 S3) as (db' & Er & Hi' & _).
    fold e in Hi'. destruct (Hdone db' (es1 ++ e :: es2) Hi') as [Hf' Hh']; [by set_unfold; auto| |done|].
    { intros x. rewrite !elem_of_app, !elem_of_cons. tauto. }
    exists db', (es1 ++ e :: es2). split; [done|]. split; [done|]. split; [|done].
    intros k' i' (x & Hx & Hat). destruct (decide (x = e0)) as [->|Hne].
    + destruct (entry_at_unique _ _ _ _ _ _ _ Hok Hat Hat0 (or_introl eq_refl)) as [-> ->]. done.
    + exists x. split; [|done]. rewrite !elem_of_app, !elem_of_cons in *. tauto.
  - assert (fresh_entry es e) as Hfr.
    { constructor; [|done| |by eapply follows_room].
      - split; [|done]. by destruct (chain_at_range _ _ _ _ Hok Hc) as (_ & _ & ?).
      - intros (x & E & Hx)%list_elem_of_fmap. apply Hn. apply list_elem_of_fmap. exists x. split; [|done].
        by destruct (entry_at_same _ _ _ _ _ He (Hsame x Hx (or_intror (eq_sym E)))). }
    destruct (index_fresh db es _ _ _ _ _ _ now Hi Hfr) as (db' & Er & Hi' & _). fold e in Hi'.
    destruct (Hdone db' (es ++ [e]) Hi') as [Hf' Hh'];
      [rewrite elem_of_app, list_elem_of_singleton; by right| |done|].
    { intros x. rewrite elem_of_app, list_elem_of_singleton. tauto. }
    exists db', (es ++ [e]). split; [done|]. split; [done|]. split; [|done].
    intros k' i' (x & Hx & Hat). exists x. rewrite elem_of_app. by split; [left|].
Qed.

Lemma follows_itx chain k c db db' es :
  itx_cf db' = itx_cf db → follows chain k c db es → follows chain k c db' es.
Proof.
  intros E [H1 H2 H3]. constructor; [by eapply indexed_itx| |done].
  rewrite <- H2. apply cursor_same. by rewrite E.
Qed.

(** A transaction of block [k] is indexed, or the index stays as it is. *)
Lemma index_tx_follows chain api k c i ct now clock db es :
  chain_ok chain → honest_node chain api → follows chain k c db es → chain_at chain k i = Some ct →
  ∃ r db' es',
    index_tx_from_block_and_tm_tx api (ct_wire ct) (Z.of_nat k + 1) (Z.of_nat i mod 2 ^ 32) now clock db =
      Some (r, db') ∧
    follows chain k c db' es' ∧ holds_more chain es es' ∧ (r = Ok tt → held chain es' k i) ∧
    (is_Some (get_tx_by_hash api (wire_bytes_to_tx_hash (ct_wire ct))) →
     (∃ tx, decode_block_tx (ct_wire ct) = Some (Ok tx)) → r = Ok tt).
Proof.
  intros Hok Hh Hf Hc. destruct (chain_at_range _ _ _ _ Hok Hc) as (_ & Hi32 & _).
  rewrite Z.mod_small by lia. unfold index_tx_from_block_and_tm_tx.
  destruct (get_tx_by_hash api _) as [resp|] eqn:Eg.
  2:{ eexists _, db, es. split; [done|]. split; [done|]. split; [by intros k' i'|]. split; [done|].
      by intros [? [=]]. }
  destruct (hr_tx _ _ Hh k i ct resp Hc Eg) as (-> & -> & -> & ->).
  destruct (decode_returns _ (co_ends _ Hok k i ct Hc)) as (r & Hr).
  specialize (Hr (S (length (ct_wire ct))) ltac:(lia)).
  assert (decode_block_tx (ct_wire ct) = Some r) as Hdr by exact Hr. rewrite Hdr. destruct r as [tx|e].
  - destruct (index_entry chain k c i ct tx now db es Hok Hf Hc Hdr) as (db' & es' & -> & Hf' & Hm & Hk).
    eexists _, _, es'. split; [done|]. split; [eapply follows_itx, Hf'; apply index_events_itx|].
    split; [done|]. by split.
  - eexists _, db, es. split; [done|]. split; [done|]. split; [by intros k' i'|]. split; [done|].
    by intros _ [tx [=]].
Qed.

(** *** One block *)

Lemma holds_more_trans chain es1 es2 es3 :
  holds_more chain es1 es2 → holds_more chain es2 es3 → holds_more chain es1 es3.
Proof. intros H1 H2 k i Hh. by apply H2, H1. Qed.

Lemma chain_at_rest chain k blk pre ct rest :
  chain !! k = Some blk → blk = pre ++ ct :: rest → chain_at chain k (length pre) = Some ct.
Proof. intros Hk ->. unfold chain_at. rewrite Hk. cbn. by rewrite lookup_app_r, Nat.sub_diag by lia. Qed.

Lemma index_block_follows chain api clock k c blk rest : ∀ pre w db es,
  chain_ok chain → honest_node chain api → chain !! k = Some blk → blk = pre ++ rest →
  follows chain k c db es →
  ∃ w' db' es',
    index_block api clock (Z.of_nat k + 1) (length pre) (ct_wire <$> rest) w db = Some (w', db') ∧
    follows chain k c db' es' ∧ holds_more chain es es' ∧
    (w' = true → w = true ∧ ∀ i, (length pre ≤ i < length blk)%nat → held chain es' k i) ∧
    (serves chain api k → w = true → w' = true).
Proof.
  induction rest as [|ct rest IH]; intros pre w db es Hok Hh Hk Hb Hf.
  { eexists w, db, es. split; [done|]. split; [done|]. split; [by intros k' i'|]. split; [|done].
    intros ->. split; [done|]. intros i Hi. rewrite Hb, app_nil_r in Hi. lia. }
  pose proof (chain_at_rest _ _ _ _ _ _ Hk Hb) as Hc. rewrite fmap_cons. cbn [index_block].
  destruct (index_tx_follows chain api k c (length pre) ct (clock (length pre)).1 (clock (length pre)).2
    db es Hok Hh Hf Hc) as (r & db1 & es1 & -> & Hf1 & Hm1 & Hr1 & Hs1).
  assert (blk = (pre ++ [ct]) ++ rest) as Hb' by (by rewrite <- (assoc (++))).
  destruct (IH (pre ++ [ct]) (match r with Ok _ => w | Err _ => false end) db1 es1 Hok Hh Hk Hb' Hf1)
    as (w' & db' & es' & E & Hf' & Hm' & Hw & Hs).
  rewrite length_app in E, Hw. cbn [length] in E, Hw. rewrite Nat.add_1_r in E. rewrite E.
  exists w', db', es'. split; [done|]. split; [done|]. split; [by eapply holds_more_trans|]. split.
  - intros Et. destruct (Hw Et) as [Hr Hall]. destruct r as [[]|]; [|done]. split; [done|]. intros i Hi.
    destruct (decide (i = length pre)) as [->|Hne]; [by apply Hm', Hr1|]. apply Hall. lia.
  - intros Hsv Ew. apply Hs; [done|]. destruct (proj2 Hsv _ _ Hc) as [Hg Hd]. by rewrite (Hs1 Hg Hd).
Qed.

(** The repair skips the transactions that are held. *)
Lemma repair_block_held chain api clock k db es blk rest : ∀ pre,
  chain_ok chain → indexed db es → chain !! k = Some blk → blk = pre ++ rest →
  (∀ i, (i < length blk)%nat → held chain es k i) →
  repair_block api clock (Z.of_nat k + 1) (length pre) (ct_wire <$> rest) db = Some db.
Proof.
  induction rest as [|ct rest IH]; intros pre Hok Hi Hk Hb Hh; [done|].
  pose proof (chain_at_rest _ _ _ _ _ _ Hk Hb) as Hc. rewrite fmap_cons. cbn [repair_block].
  destruct (chain_at_range _ _ _ _ Hok Hc) as (_ & Hi32 & _). rewrite Z.mod_small by lia.
  destruct (Hh (length pre)) as (e & He & Hat); [rewrite Hb, length_app; cbn [length]; lia|].
  pose proof (entry_at_position _ _ _ _ Hat) as Hp. unfold position in Hp. injection Hp as <- <-.
  rewrite (position_entry db es e Hi He). destruct Hat as (ct0 & tx & now & _ & _ & ->).
  assert (blk = (pre ++ [ct]) ++ rest) as Hb' by (by rewrite <- (assoc (++))).
  specialize (IH (pre ++ [ct]) Hok Hi Hk Hb' Hh). rewrite length_app in IH. cbn [length] in IH.
  by rewrite Nat.add_1_r in IH.
Qed.

(** *** One pass *)

Lemma follows_up chain k k' c db es : (k ≤ k')%nat → follows chain k c db es → follows chain k' c db es.
Proof.
  intros Hk [H1 H2 H3]. constructor; [done..|]. intros e He. destruct (H3 e He) as (k0 & i & Hle & Hat).
  exists k0, i. split; [lia|done].
Qed.

Lemma next_height chain k : chain_ok chain → (k ≤ length chain)%nat →
  match cursor_at k with Some h => saturating_add u64_max h 1 | None => 1 end = Z.of_nat k + 1.
Proof.
  intros Hok Hk. pose proof (co_blocks _ Hok). unfold cursor_at. destruct (Nat.eqb_spec k 0) as [->|]; [done|].
  unfold saturating_add, u64_max. lia.
Qed.

Lemma sync_step_synced chain api clock k db es :
  chain_ok chain → honest_node chain api → synced chain k db es →
  ∃ db' k' es', sync_step api clock db = Some db' ∧ synced chain k' db' es' ∧ (k ≤ k')%nat ∧
    (serves chain api k → k' = S k).
Proof.
  intros Hok Hh [Hf Hr Hc]. unfold sync_step. rewrite (fo_cursor _ _ _ _ _ Hf), (next_height chain) by done.
  destruct (get_block api (Z.of_nat k + 1)) as [ws|] eqn:Eb.
  2:{ exists db, k, es. split; [done|]. split; [by constructor|]. split; [done|].
      intros [[? Hg] _]. congruence. }
  destruct (hr_block _ _ Hh _ _ Eb) as (k0 & blk & E & Hk & ->). assert (k0 = k) as -> by lia.
  destruct (index_block_follows chain api clock k k blk blk [] true db es Hok Hh Hk eq_refl Hf)
    as (w & db' & es' & Er & Hf' & Hm & Hw & Hs). cbn [length] in Er. rewrite Er.
  destruct w.
  - destruct (Hw eq_refl) as [_ Hall]. pose proof (lookup_lt_Some _ _ _ Hk) as Hlt.
    exists (set_indexer_cursor (Z.of_nat k + 1) db'), (S k), es'. split; [done|].
    split; [|by split; [lia|]]. constructor; [|lia|].
    + destruct Hf' as [H1 H2 H3]. constructor; [by apply set_cursor_indexed| |].
      * pose proof (co_blocks _ Hok). rewrite set_cursor_get by (unfold u64_max; lia).
        unfold cursor_at. cbn [Nat.eqb]. do 2 f_equal. lia.
      * intros e He. destruct (H3 e He) as (k' & i & Hle & Hat). exists k', i. split; [lia|done].
    + intros k' i Hk' [ct Hct]. destruct (decide (k' = k)) as [->|Hne].
      * apply Hall. unfold chain_at in Hct. rewrite Hk in Hct. cbn in Hct.
        pose proof (lookup_lt_Some _ _ _ Hct). cbn [length]. lia.
      * apply Hm, Hc; [lia|by eexists].
  - exists db', k, es'. split; [done|]. split; [|split; [done|]].
    + constructor; [done|done|]. intros k' i Hk' Hs'. by apply Hm, Hc.
    + intros Hsv. discriminate (Hs Hsv eq_refl).
Qed.

(** At a start nothing is missing. *)
Lemma repair_synced chain api clock k db es :
  chain_ok chain → honest_node chain api → synced chain k db es →
  ∃ r, startup_repair_cursor_block api clock db = Some (r, db).
Proof.
  intros Hok Hh [Hf Hr Hc]. unfold startup_repair_cursor_block. rewrite (fo_cursor _ _ _ _ _ Hf).
  unfold cursor_at. destruct (Nat.eqb_spec k 0) as [->|Hk0]; [by eexists|].
  rewrite (proj2 (Z.eqb_neq _ _)) by lia. destruct (get_block api (Z.of_nat k)) as [ws|] eqn:Eb; [|by eexists].
  destruct (hr_block _ _ Hh _ _ Eb) as (k0 & blk & E & Hk & ->). rewrite E.
  pose proof (repair_block_held chain api clock k0 db es blk blk [] Hok (fo_index _ _ _ _ _ Hf) Hk eq_refl) as Hrep.
  cbn [length] in Hrep. rewrite Hrep; [by eexists|]. intros i Hi. apply Hc; [lia|].
  unfold chain_at. rewrite Hk. cbn. by apply lookup_lt_is_Some.
Qed.

(** *** Runs of the thread *)

(** Starts and passes of the loop, in any order, while the RPC answers from the
    chain or not at all. *)
Inductive indexer_run (chain : Chain) : IndexDb → Prop :=
| run_new : indexer_run chain empty_index
| run_start api clock db r db' :
    indexer_run chain db → honest_node chain api →
    startup_repair_cursor_block api clock db = Some (r, db') → indexer_run chain db'
| run_pass api clock db db' :
    indexer_run chain db → honest_node chain api → sync_step api clock db = Some db' → indexer_run chain db'.

Lemma run_synced chain db : chain_ok chain → indexer_run chain db → ∃ k es, synced chain k db es.
Proof.
  intros Hok. induction 1 as [|api clock db r db' _ IH Hh Er|api clock db db' _ IH Hh Er].
  - exists 0%nat, []. constructor; [constructor; [apply index_empty|done|by intros e []%elem_of_nil]|lia|lia].
  - destruct IH as (k & es & Hs). destruct (repair_synced chain api clock k db es Hok Hh Hs) as (r' & Er').
    rewrite Er' in Er. injection Er as <- <-. by exists k, es.
  - destruct IH as (k & es & Hs).
    destruct (sync_step_synced chain api clock k db es Hok Hh Hs) as (db'' & k' & es' & Er' & Hs' & _).
    rewrite Er' in Er. injection Er as ->. by exists k', es'.
Qed.

(** C32. The index follows a chain that has no transaction in two places and no
    entry that is blank or wraps a blank one, whose decoding would not end.
    Whenever the index thread runs against an RPC that answers from that chain,
    or does not answer, the index holds every transaction of the blocks up to
    its cursor and beside them only transactions of the next block, each at its
    position with its result.  A pass never fails to return, never loses what
    is held, and when the RPC answers for the next block and for each of its
    transactions, and each of them decodes, it takes that block in and moves the
    cursor on by one.  (A block with an entry that does not decode is never
    passed.) *)
Theorem index_follows_chain (chain : Chain) (db : IndexDb) :
  chain_ok chain → indexer_run chain db →
  ∃ k es, synced chain k db es ∧
    ∀ api clock, honest_node chain api →
      ∃ db' k' es', sync_step api clock db = Some db' ∧ synced chain k' db' es' ∧ (k ≤ k')%nat ∧
        (serves chain api k → k' = S k).
Proof.
  intros Hok Hrun. destruct (run_synced chain db Hok Hrun) as (k & es & Hs). exists k, es.
  split; [done|]. intros api clock Hh. by apply (sync_step_synced chain api clock k db es).
Qed.

(** A block of the chain with an entry that does not decode stops the index: the
    cursor never gets past the block before it, and no transaction of a later
    block is ever indexed, however often the block is fetched again. *)
Theorem undecodable_tx_stops_index (chain : Chain) (k i : nat) (ct : ChainTx) (e : EldError)
    (db : IndexDb) :
  chain_ok chain → chain_at chain k i = Some ct → decode_block_tx (ct_wire ct) = Some (Err e) →
  indexer_run chain db →
  ∃ k' es, (k' ≤ k)%nat ∧ get_indexer_cursor db = Ok (cursor_at k') ∧ indexed db es ∧
    ∀ x, x ∈ es → ix_block_height x ≤ Z.of_nat k + 1.
Proof.
  intros Hok Hc Hd Hrun. destruct (run_synced chain db Hok Hrun) as (k' & es & [Hf Hr Hcp]).
  assert (k' ≤ k)%nat as Hle.
  { destruct (decide (k' ≤ k)%nat) as [|Hn]; [done|].
    destruct (Hcp k i) as (x & _ & (ct' & tx & now & Hc' & Hd' & _)); [lia|by eexists|]. congruence. }
  exists k', es. split; [done|]. split; [apply (fo_cursor _ _ _ _ _ Hf)|].
  split; [apply (fo_index _ _ _ _ _ Hf)|]. intros x Hx.
  destruct (fo_chain _ _ _ _ _ Hf x Hx) as (k0 & j & Hk0 & (ct0 & tx & now & _ & _ & ->)). cbn. lia.
Qed.
End following.

(** ** Witnesses *)

#[local] Instance one_tx_json : TxJson := {|
  tx_to_json _ := Some "p";
  tx_from_json s := if String.eqb s "p" then Some test_reward_tx else None;
  response_to_json _ _ _ _ _ _ _ := Some [];
|}.
Lemma one_tx_blank : tx_from_json EmptyString = None.
Proof. reflexivity. Qed.
#[local] Instance one_tx_slice : TxSlice := {| tx_from_slice _ := None |}.

(** The hex of the text of a transaction, and an entry that is none. *)
Definition good_wire : bytes := as_bytes (hex_encode (as_bytes "p")).
Definition bad_wire : bytes := as_bytes "zz".

Lemma good_decodes : decode_block_tx good_wire = Some (Ok test_reward_tx).
Proof. vm_compute. reflexivity. Qed.
Lemma bad_decodes : decode_block_tx bad_wire = Some (Err (ValidationError "tx")).
Proof. vm_compute. reflexivity. Qed.

(** What decodes does not reach blank text. *)
Lemma decoded_not_blank b r : decode_block_tx b = Some r → ¬ reaches_blank b.
Proof.
  intros E Hb. pose proof (decode_blank_forever one_tx_blank b Hb (S (length b))) as Hn.
  unfold decode_block_tx in E. congruence.
Qed.

Lemma block_tx_decoding_terminates_witness :
  (∃ r, ∀ fuel, (length bad_wire < fuel)%nat → decode_eld_tx_from_block_tx_bytes fuel bad_wire = Some r) ∧
  decode_eld_tx_from_block_tx_bytes 1000 [] = None.
Proof.
  split.
  - destruct (proj1 (block_tx_decoding_terminates one_tx_blank bad_wire) (decoded_not_blank _ _ bad_decodes))
      as (r & _ & Hr). by exists r.
  - destruct (block_tx_decoding_terminates one_tx_blank []) as (_ & Hb & He). exact (Hb He 1000%nat).
Defined.

Definition good_tx : ChainTx := mkChainTx good_wire 0 21 [mkTmEvent "proof" [("id", "c", true)]].
Definition bad_tx : ChainTx := mkChainTx bad_wire 1 0 [].
Definition test_chain : Chain := [[good_tx]; [bad_tx]].

Definition test_api : Rpc := {|
  get_block h := if h =? 1 then Some [good_wire] else if h =? 2 then Some [bad_wire] else None;
  get_tx_by_hash hash :=
    if bool_decide (hash = wire_bytes_to_tx_hash good_wire)
    then Some (mkTxResponse 1 0 0 21 (ct_events good_tx) good_wire)
    else if bool_decide (hash = wire_bytes_to_tx_hash bad_wire)
    then Some (mkTxResponse 2 0 1 0 [] bad_wire) else None;
|}.

Lemma test_chain_at k i ct :
  chain_at test_chain k i = Some ct → i = 0%nat ∧ (k = 0%nat ∧ ct = good_tx ∨ k = 1%nat ∧ ct = bad_tx).
Proof. destruct k as [|[|k]], i; cbn; intros [=]; subst; auto. Qed.

Lemma test_chain_ok : chain_ok test_chain.
Proof.
  constructor; [done|by repeat constructor| |].
  - intros k i ct (_ & [(_ & ->)|(_ & ->)])%test_chain_at;
      [apply (decoded_not_blank _ _ good_decodes)|apply (decoded_not_blank _ _ bad_decodes)].
  - intros k i ct tx k' i' ct' tx' (-> & [(-> & ->)|(-> & ->)])%test_chain_at E1
      (-> & [(-> & ->)|(-> & ->)])%test_chain_at E2 _; cbn [ct_wire bad_tx] in *;
      rewrite ?bad_decodes in *; done.
Qed.

Lemma test_honest : honest_node test_chain test_api.
Proof.
  constructor.
  - intros h ws. unfold test_api. cbn [get_block]. destruct (Z.eqb_spec h 1) as [->|].
    { intros [= <-]. by exists 0%nat, [good_tx]. }
    destruct (Z.eqb_spec h 2) as [->|]; [|done]. intros [= <-]. by exists 1%nat, [bad_tx].
  - intros k i ct resp (_ & [(_ & ->)|(_ & ->)])%test_chain_at E; vm_compute in E; by injection E as <-.
Qed.

Definition still : Clock := λ _, (5, λ _, 5).

Lemma index_follows_chain_witness :
  ∃ k es, synced test_chain k empty_index es ∧
    ∃ db' k' es', sync_step test_api still empty_index = Some db' ∧ synced test_chain k' db' es' ∧ (k ≤ k')%nat.
Proof.
  destruct (index_follows_chain test_chain empty_index test_chain_ok (run_new _)) as (k & es & Hs & Hp).
  exists k, es. split; [exact Hs|]. destruct (Hp test_api still test_honest) as (db' & k' & es' & E & Hs' & Hk & _).
  by exists db', k', es'.
Defined.

Lemma undecodable_tx_stops_index_witness :
  ∃ db k' es, sync_step test_api still empty_index = Some db ∧ (k' ≤ 1)%nat ∧
    get_indexer_cursor db = Ok (cursor_at k') ∧ indexed db es ∧
    ∀ x, x ∈ es → ix_block_height x ≤ 2.
Proof.
  destruct (run_synced test_chain empty_index test_chain_ok (run_new _)) as (k & es0 & Hs).
  destruct (sync_step_synced test_chain test_api still k _ es0 test_chain_ok test_honest Hs)
    as (db & _ & _ & E & _).
  destruct (undecodable_tx_stops_index test_chain 1 0 bad_tx _ db test_chain_ok eq_refl bad_decodes)
    as (k' & es & Hk & Hc & Hi & Hx).
  { eapply run_pass; [apply run_new|apply test_honest|exact E]. }
  exists db, k', es. split; [exact E|]. by split_and!.
Defined.
