(* ===== verification/RestApi.v ===== *)
(** The REST interface to the transaction index: node_app/src/api (error.rs,
    api_rate_limiting.rs, indexer.rs).

    A handler reads the state it is given and returns its answer with the
    limiter, and the index where it writes one.  Instants are nanoseconds; the
    texts of error details are dropped. *)
From Stdlib Require Import SpecFloat.
From S2P Require Import Prelude F64 Externals Reference Coins Address Ordering Namespace Cado Records Tx TxCodes Fee Pinboard AppState Ledger Deliver Storage Feed Paging Prefix Indexer.

(** ** error.rs *)

Inductive ApiError : Type :=
| BadRequest (message : string)
| NotFound (resource_type identifier : string)
| PayloadTooLarge (max_size actual_size : Z)
| InternalServerError (message : string)
| ServiceUnavailable (message : string).

Definition status_code (e : ApiError) : Z :=
  match e with
  | BadRequest _ => 400
  | NotFound _ _ => 404
  | PayloadTooLarge _ _ => 413
  | InternalServerError _ => 500
  | ServiceUnavailable _ => 503
  end.

Definition error_code (e : ApiError) : string :=
  match e with
  | BadRequest _ => "BAD_REQUEST"
  | NotFound _ _ => "NOT_FOUND"
  | PayloadTooLarge _ _ => "PAYLOAD_TOO_LARGE"
  | InternalServerError _ => "INTERNAL_SERVER_ERROR"
  | ServiceUnavailable _ => "SERVICE_UNAVAILABLE"
  end.

Definition message (e : ApiError) : string :=
  match e with
  | BadRequest m | InternalServerError m | ServiceUnavailable m => m
  | NotFound resource_type identifier =>
      String.append resource_type (String.append " not found: " identifier)
  | PayloadTooLarge max_size actual_size =>
      String.append "Request too large. Maximum size: " (String.append (to_string max_size)
        (String.append " bytes, actual size: " (String.append (to_string actual_size) " bytes")))
  end.

(** ** api_rate_limiting.rs *)

Record ApiRateLimitConfig : Type := mkApiRateLimitConfig {
  general_requests_per_minute : Z;
  upload_requests_per_minute : Z;
  cado_requests_per_minute : Z;
  health_requests_per_minute : Z;
  rl_enabled : bool;
}.

Definition ApiRateLimitConfig_default : ApiRateLimitConfig :=
  mkApiRateLimitConfig 1000 100 2000 5000 true.

Inductive ApiEndpointType : Type := General | Upload | CadoEndpoint | Health.

Record RateLimitState : Type := mkRateLimitState {
  rl_clients : gmap string (list Z);
  rl_config : ApiRateLimitConfig;
}.

Definition RateLimitState_new (config : ApiRateLimitConfig) : RateLimitState :=
  mkRateLimitState ∅ config.

Definition endpoint_limit (config : ApiRateLimitConfig) (endpoint_type : ApiEndpointType) : Z :=
  match endpoint_type with
  | General => general_requests_per_minute config
  | Upload => upload_requests_per_minute config
  | CadoEndpoint => cado_requests_per_minute config
  | Health => health_requests_per_minute config
  end.

(** [now.duration_since(time) <= window]; the duration saturates at zero. *)
Definition within_window (now time : Z) : bool := Z.max 0 (now - time) <=? MINUTE.

(** [RateLimitState::is_allowed] *)
Definition request_allowed (client_id : string) (endpoint_type : ApiEndpointType) (now : Z)
    (s : RateLimitState) : bool * RateLimitState :=
  if negb (rl_enabled (rl_config s)) then (true, s)
  else
    let max_requests := endpoint_limit (rl_config s) endpoint_type in
    let client_requests := List.filter (within_window now) (default [] (rl_clients s !! client_id)) in
    let put l := mkRateLimitState (<[client_id := l]> (rl_clients s)) (rl_config s) in
    if Z.of_nat (length client_requests) <? max_requests
    then (true, put (client_requests ++ [now]))
    else (false, put client_requests).

(** Headers by name, with their raw values. *)
Definition HeaderMap : Type := gmap string string.

(** [HeaderValue::to_str]: visible ASCII and tabs *)
Definition to_str (v : string) : option string :=
  if string_all (λ c, ascii_between 32 126 c || ascii_between 9 9 c) v then Some v else None.

Definition extract_client_id (headers : HeaderMap) : string :=
  match headers !! "x-forwarded-for" ≫= to_str with
  | Some forwarded_for =>
      match split_on ","%char forwarded_for with
      | first_ip :: _ => trim first_ip
      | [] => EmptyString
      end
  | None =>
      match headers !! "x-real-ip" ≫= to_str with
      | Some real_ip => real_ip
      | None => "unknown"
      end
  end.

Definition check_rate_limit (endpoint_type : ApiEndpointType) (headers : HeaderMap) (now : Z)
    (s : RateLimitState) : result ApiError unit * RateLimitState :=
  let '(ok, s) := request_allowed (extract_client_id headers) endpoint_type now s in
  (if ok then Ok tt else Err (ServiceUnavailable "Rate limit exceeded. Please try again later."), s).

(** The variables of the environment, where set and parsed. *)
Definition create_api_rate_limit_config_from_env (var : string → option string) : ApiRateLimitConfig :=
  let number name d := default d (s ← var name; parse_unsigned u32_max s) in
  mkApiRateLimitConfig
    (number "ELD_API_RATE_LIMIT_GENERAL" 1000)
    (number "ELD_API_RATE_LIMIT_UPLOAD" 100)
    (number "ELD_API_RATE_LIMIT_CADO" 2000)
    (number "ELD_API_RATE_LIMIT_HEALTH" 5000)
    (default true (s ← var "ELD_API_RATE_LIMIT_ENABLED";
                   if String.eqb s "true" then Some true
                   else if String.eqb s "false" then Some false else None)).

(** ** indexer.rs *)

Record TransactionListParams : Type := mkTransactionListParams {
  tl_after_height : option Z;
  tl_after_index : option Z;
  tl_limit : option Z;
  tl_block_height : option Z;
  tl_sender : option string;
  tl_payload_type : option string;
}.

Record EventListParams : Type := mkEventListParams {
  el_page : option Z;
  el_limit : option Z;
  el_txid : option string;
}.

Record TransactionPagination : Type := mkTransactionPagination {
  tp_limit : Z;
  tp_has_next : bool;
  tp_total : option Z;
}.

Record TransactionListResponse : Type := mkTransactionListResponse {
  tlr_transactions : list IndexedTransaction;
  tlr_pagination : TransactionPagination;
}.

Record EventPagination : Type := mkEventPagination {
  ep_page : Z;
  ep_limit : Z;
  ep_total : Z;
  ep_total_pages : Z;
}.

Record EventListResponse : Type := mkEventListResponse {
  elr_events : list IndexedEvent;
  elr_pagination : EventPagination;
}.

Record VerifiedProofRewardsResponse : Type := mkVerifiedProofRewardsResponse {
  vr_capacity_provider : string;
  vr_from_height : Z;
  vr_to_height : Z;
  vr_successful_proofs : Z;
  vr_total_rewards : string;
}.

Definition MAX_VERIFIED_PROOF_REWARD_HEIGHT_SPAN : Z := 1000000.

(** [((total as f64) / (limit as f64)).ceil() as u32] *)
Definition f64_ceil_u32 (x : f64) : Z :=
  match x with
  | S754_finite false m e =>
      if 0 <=? e then Z.min u32_max (Z.pos m * 2 ^ e)
      else Z.min u32_max ((Z.pos m + 2 ^ (- e) - 1) / 2 ^ (- e))
  | S754_infinity false => u32_max
  | _ => 0
  end.

Section indexer_api.
Context {H : HexCrate} {HC : HashCrates} {J : IndexerJson}.

Definition no_indexer : ApiError := ServiceUnavailable "Transaction indexer is not enabled".

(** [protocol.get()] before InitChain is [None]. *)
Definition protocol_reward_per_proof (protocol : option ProtocolConstants) : result ApiError Z :=
  match protocol with
  | Some constants => Ok (coin_amount (verified_proof_reward_base_amount constants))
  | None => Err (ServiceUnavailable "protocol_constants_unavailable")
  end.

(** Both fields of the cursor, or neither. *)
Definition continuation_of (params : TransactionListParams) : result ApiError (option (Z * Z)) :=
  match tl_after_height params, tl_after_index params with
  | None, None => Ok None
  | Some h, Some i => Ok (Some (h, i))
  | _, _ => Err (BadRequest "Invalid transaction list continuation")
  end.

Definition filtered_query (params : TransactionListParams) : bool :=
  bool_decide (is_Some (tl_block_height params)) || bool_decide (is_Some (tl_sender params)) ||
  bool_decide (is_Some (tl_payload_type params)).

(** The total shown: of all entries, of the filter on its first page, or none. *)
Definition list_total (params : TransactionListParams) (continuation : option (Z * Z))
    (f : IndexedTxChronFilters) (db : IndexDb) : eld_result (option Z) * IndexDb :=
  if negb (filtered_query params) then
    let '(n, db) := indexed_transaction_primary_total_count db in
    ((let? n := n in Ok (Some n)), db)
  else
    match continuation with
    | None => ((let? n := count_indexed_transactions_matching_chron_filters db f in Ok (Some n)), db)
    | Some _ => (Ok None, db)
    end.

(** [handle_get_transactions] after the limiter. *)
Definition get_transactions (params : TransactionListParams) (db : IndexDb) :
    result ApiError TransactionListResponse * IndexDb :=
  let limit := Z.min (default 50 (tl_limit params)) 100 in
  if limit =? 0 then (Err (BadRequest "Invalid limit"), db)
  else
    match continuation_of params with
    | Err e => (Err e, db)
    | Ok continuation =>
        match match tl_sender params with
              | None => Ok None
              | Some s => let? addr := parse_hex_str s in Ok (Some addr)
              end with
        | Err _ => (Ok (mkTransactionListResponse [] (mkTransactionPagination limit false (Some 0))), db)
        | Ok sender_addr =>
            let f := mkChronFilters (tl_block_height params) sender_addr (tl_payload_type params) in
            match list_total params continuation f db with
            | (Err _, db) => (Err (InternalServerError "Failed to retrieve transactions"), db)
            | (Ok total, db) =>
                match list_indexed_transactions_chron_desc db continuation limit true f with
                | Err _ => (Err (InternalServerError "Failed to retrieve transactions"), db)
                | Ok rows =>
                    let has_next := limit <? Z.of_nat (length rows) in
                    let rows := if has_next then take (Z.to_nat limit) rows else rows in
                    (Ok (mkTransactionListResponse rows (mkTransactionPagination limit has_next total)), db)
                end
            end
        end
    end.

(** The limiter, then the index if the node has one. *)
Definition limited {A} (headers : HeaderMap) (now : Z) (rl : RateLimitState) (indexer : option IndexDb)
    (k : IndexDb → result ApiError A * IndexDb) :
    result ApiError A * RateLimitState * option IndexDb :=
  match check_rate_limit General headers now rl with
  | (Err e, rl) => (Err e, rl, indexer)
  | (Ok _, rl) =>
      match indexer with
      | None => (Err no_indexer, rl, None)
      | Some db => let '(r, db) := k db in (r, rl, Some db)
      end
  end.

Definition handle_get_transactions (headers : HeaderMap) (params : TransactionListParams) (now : Z)
    (rl : RateLimitState) (indexer : option IndexDb) :
    result ApiError TransactionListResponse * RateLimitState * option IndexDb :=
  limited headers now rl indexer (get_transactions params).

Definition handle_get_transaction (headers : HeaderMap) (id : string) (now : Z)
    (rl : RateLimitState) (indexer : option IndexDb) :
    result ApiError IndexedTransaction * RateLimitState * option IndexDb :=
  limited headers now rl indexer (λ db,
    (match get_indexed_transaction db id with
     | Ok (Some transaction) => Ok transaction
     | Ok None => Err (NotFound "Transaction" id)
     | Err _ => Err (InternalServerError "Failed to retrieve transaction")
     end, db)).

Definition handle_get_verified_proof_rewards_sum (headers : HeaderMap)
    (protocol : option ProtocolConstants) (now : Z) (rl : RateLimitState) (indexer : option IndexDb) :
    result ApiError (Z * string) * RateLimitState * option IndexDb :=
  limited headers now rl indexer (λ db,
    (let? reward_per_proof := protocol_reward_per_proof protocol in
     let '(successful_proofs, total_rewards) := global_verified_proof_rewards db reward_per_proof in
     Ok (successful_proofs, to_string total_rewards), db)).

Definition handle_get_verified_proof_rewards (headers : HeaderMap) (protocol : option ProtocolConstants)
    (address : string) (from_height to_height now : Z) (rl : RateLimitState) (indexer : option IndexDb) :
    result ApiError VerifiedProofRewardsResponse * RateLimitState * option IndexDb :=
  limited headers now rl indexer (λ db,
    (if to_height <? from_height then Err (BadRequest "Invalid block height range")
     else if MAX_VERIFIED_PROOF_REWARD_HEIGHT_SPAN <? to_height - from_height
     then Err (BadRequest "Block height range too large")
     else
       match parse_hex_str (trim address) with
       | Err _ => Err (BadRequest "Invalid capacity_provider address")
       | Ok addr =>
           let capacity_provider := hex_with_prefix addr in
           let? reward_per_proof := protocol_reward_per_proof protocol in
           match aggregate_verified_proof_rewards db capacity_provider from_height to_height
                   reward_per_proof with
           | Err _ => Err (InternalServerError "Failed to aggregate verified proof rewards")
           | Ok (successful_proofs, total_rewards) =>
               Ok (mkVerifiedProofRewardsResponse capacity_provider from_height to_height
                     successful_proofs (to_string total_rewards))
           end
       end, db)).

Definition get_events (params : EventListParams) (db : IndexDb) : result ApiError EventListResponse :=
  match el_txid params with
  | Some txid =>
      match get_events_by_tx_id db txid with
      | Err _ => Err (InternalServerError "Failed to retrieve events")
      | Ok events =>
          let total := Z.of_nat (length events) in
          Ok (mkEventListResponse events (mkEventPagination 1 (total mod 2 ^ 32) total 1))
      end
  | None =>
      let page := default 1 (el_page params) in
      let limit := Z.min (default 50 (el_limit params)) 100 in
      if page =? 0 then Err (BadRequest "Invalid page number")
      else if limit =? 0 then Err (BadRequest "Invalid limit")
      else
        match get_all_events db page limit with
        | Err _ => Err (InternalServerError "Failed to retrieve events")
        | Ok (events, total) =>
            let total_pages := f64_ceil_u32 (f64_div (f64_of_Z total) (f64_of_Z limit)) in
            Ok (mkEventListResponse events (mkEventPagination page limit total (Z.max total_pages 1)))
        end
  end.

Definition handle_get_events (headers : HeaderMap) (params : EventListParams) (now : Z)
    (rl : RateLimitState) (indexer : option IndexDb) :
    result ApiError EventListResponse * RateLimitState * option IndexDb :=
  limited headers now rl indexer (λ db, (get_events params db, db)).
End indexer_api.

(** ** The limiter *)

(** Whether each of a list of calls is allowed. *)
Fixpoint run_limiter (calls : list (string * ApiEndpointType * Z)) (s : RateLimitState) : list bool :=
  match calls with
  | [] => []
  | (c, ep, now) :: calls => let '(ok, s) := request_allowed c ep now s in ok :: run_limiter calls s
  end.

(** The requests of a client let through in the last minute. *)
Definition in_last_minute (past : list (string * Z)) (client : string) (now : Z) : Z :=
  Z.of_nat (length (List.filter (λ r, String.eqb r.1 client && (now - r.2 <=? MINUTE)) past)).

(** The promise, on the whole history: a request is let through when fewer than
    the limit of its endpoint were in the minute before it. *)
Fixpoint window_policy (config : ApiRateLimitConfig) (past : list (string * Z))
    (calls : list (string * ApiEndpointType * Z)) : list bool :=
  match calls with
  | [] => []
  | (c, ep, now) :: calls =>
      let ok := in_last_minute past c now <? endpoint_limit config ep in
      ok :: window_policy config (if ok then past ++ [(c, now)] else past) calls
  end.

(** The times of a client that are still in the window at [later]. *)
Definition window_times (past : list (string * Z)) (client : string) (later : Z) : list Z :=
  List.filter (λ t, later - t <=? MINUTE) (map snd (List.filter (λ r, String.eqb r.1 client) past)).

Lemma window_times_count past c now : in_last_minute past c now = Z.of_nat (length (window_times past c now)).
Proof.
  unfold in_last_minute, window_times. f_equal. induction past as [|r past IH]; [done|]. cbn [List.filter].
  destruct (String.eqb r.1 c); cbn [andb map List.filter]; [|exact IH].
  destruct (now - r.2 <=? MINUTE); cbn [length]; by rewrite IH.
Qed.

Lemma window_times_snoc past c t d later :
  window_times (past ++ [(c, t)]) d later =
  window_times past d later ++
    (if String.eqb c d && (later - t <=? MINUTE) then [t] else []).
Proof.
  unfold window_times. rewrite List.filter_app, map_app, List.filter_app. f_equal. cbn [List.filter fst].
  destruct (String.eqb c d); cbn [map List.filter snd andb]; [|done]. by destruct (later - t <=? MINUTE).
Qed.

Definition keep_recent (now : Z) (l : list Z) : list Z := List.filter (λ t, now - t <=? MINUTE) l.

Lemma keep_recent_twice a b l : a ≤ b → keep_recent b (keep_recent a l) = keep_recent b l.
Proof.
  intros Hab. unfold keep_recent. induction l as [|t l IH]; [done|]. cbn [List.filter].
  destruct (Z.leb_spec (a - t) MINUTE), (Z.leb_spec (b - t) MINUTE) as [Hb|Hb]; cbn [List.filter];
    rewrite ?IH; rewrite ?(proj2 (Z.leb_le _ _) Hb), ?(proj2 (Z.leb_gt _ _) Hb); try done. lia.
Qed.

(** The state keeps, for each client, what the window may still count. *)
Definition limiter_keeps (s : RateLimitState) (past : list (string * Z)) (now : Z) : Prop :=
  ∀ c later, now ≤ later →
    keep_recent later (default [] (rl_clients s !! c)) = window_times past c later.

Lemma within_window_le now t : within_window now t = (now - t <=? MINUTE).
Proof. unfold within_window, MINUTE. destruct (Z.leb_spec (now - t) (60 * 1000000000)); lia. Qed.

Lemma request_allowed_step c ep now past s :
  rl_enabled (rl_config s) = true → limiter_keeps s past now →
  let ok := in_last_minute past c now <? endpoint_limit (rl_config s) ep in
  ∃ s', request_allowed c ep now s = (ok, s') ∧ rl_config s' = rl_config s ∧
    limiter_keeps s' (if ok then past ++ [(c, now)] else past) now.
Proof.
  intros Hen Hk ok. unfold request_allowed. rewrite Hen. cbn [negb].
  rewrite (filter_ext _ (λ t, now - t <=? MINUTE)) by (intros t; apply within_window_le).
  fold (keep_recent now (default [] (rl_clients s !! c))). rewrite (Hk c now (Z.le_refl _)).
  subst ok. rewrite window_times_count.
  assert (∀ d later l, now ≤ later →
    keep_recent later (default [] (<[c := l]> (rl_clients s) !! d)) =
      if String.eqb c d then keep_recent later l else window_times past d later) as Hput.
  { intros d later l Hl. destruct (String.eqb_spec c d) as [->|Hne]; [by rewrite lookup_insert_eq|].
    rewrite lookup_insert_ne by done. by apply Hk. }
  assert (∀ d later, now ≤ later → String.eqb c d = true →
    keep_recent later (window_times past c now) = window_times past d later) as Hsame.
  { intros d later Hl ->%String.eqb_eq. unfold window_times at 1. by apply keep_recent_twice. }
  destruct (_ <? _); (eexists; split; [done|]; split; [done|]); intros d later Hl; cbn [rl_clients];
    rewrite Hput by done.
  - rewrite window_times_snoc. destruct (String.eqb c d) eqn:E; cbn [andb]; [|by rewrite app_nil_r].
    unfold keep_recent. rewrite List.filter_app. fold (keep_recent later (window_times past c now)).
    rewrite (Hsame d later Hl E). cbn [List.filter]. by destruct (later - now <=? MINUTE).
  - destruct (String.eqb c d) eqn:E; [by apply Hsame|done].
Qed.

Lemma run_limiter_policy calls : ∀ now past s,
  rl_enabled (rl_config s) = true → StronglySorted Z.le (now :: calls.*2) → limiter_keeps s past now →
  run_limiter calls s = window_policy (rl_config s) past calls.
Proof.
  induction calls as [|[[c ep] t] calls IH]; intros now past s Hen Hs Hk; [done|].
  rewrite fmap_cons in Hs. cbn [snd] in Hs. apply StronglySorted_inv in Hs as [Hs Hnow].
  assert (now ≤ t) as Hnt by (by inversion Hnow). cbn [run_limiter window_policy].
  destruct (request_allowed_step c ep t past s Hen) as (s' & -> & Hc & Hk').
  { intros d later Hl. apply Hk. lia. }
  f_equal. rewrite <- Hc in Hen, Hk' |- *. by apply (IH t).
Qed.

(** The limiter of the REST interface, which forgets what is older than a
    minute, decides every request of any sequence as the policy on the whole
    history does: a request of a client is let through exactly when fewer of
    its requests than the limit of the endpoint were let through in the last
    minute, whatever other clients do. *)
Theorem api_limiter_exact (config : ApiRateLimitConfig) (calls : list (string * ApiEndpointType * Z)) :
  rl_enabled config = true → StronglySorted Z.le calls.*2 →
  run_limiter calls (RateLimitState_new config) = window_policy config [] calls.
Proof.
  intros Hen Hs. destruct calls as [|[[c ep] t] calls]; [done|].
  apply (run_limiter_policy _ t); [done| |by intros d later _; cbn [rl_clients RateLimitState_new]; rewrite lookup_empty].
  constructor; [done|]. rewrite fmap_cons in *. cbn [snd] in *.
  constructor; [lia|]. by apply StronglySorted_inv in Hs as [_ Hs].
Qed.

(** One counter serves all endpoints of a client: health checks use up uploads. *)
Example shared_counter :
  run_limiter (replicate 100 ("10.0.0.1", Health, 0) ++ [("10.0.0.1", Upload, 0)])
    (RateLimitState_new ApiRateLimitConfig_default) = replicate 100 true ++ [false].
Proof. vm_compute. reflexivity. Qed.

(** ** Pages *)

Section pages.
Context {H : HexCrate} {HL : HexLaws H} {HC : HashCrates} {J : IndexerJson} {JL : IndexerJsonLaws J}.

Definition before : IndexedTransaction → IndexedTransaction → Prop := precedes older position.

Lemma older_lex c e : older (Some c) e = match lex Z.compare Z.compare (position e) c with Lt => true | _ => false end.
Proof.
  destruct c as [ch ci]. unfold older, position, lex, then_with. cbn [fst snd].
  destruct (Z.compare_spec (ix_block_height e) ch) as [->|Hl|Hg].
  - rewrite Z.ltb_irrefl, Z.eqb_refl. cbn [orb andb].
    destruct (Z.compare_spec (ix_block_index e) ci); destruct (Z.leb_spec ci (ix_block_index e)); lia || done.
  - rewrite (proj2 (Z.ltb_ge _ _)), (proj2 (Z.eqb_neq _ _)) by lia. done.
  - by rewrite (proj2 (Z.ltb_lt _ _)) by lia.
Qed.

Lemma newest_first_sorted db es : indexed db es → StronglySorted before (newest_first es).
Proof.
  intros Hi. unfold newest_first. set (l := oldest_first es).
  assert (StronglySorted (λ a b, older (Some (position b)) a = true) l) as Hs; [|exact (sorted_rev _ _ Hs)].
  assert (NoDup (position <$> l)) as Hn
    by (unfold l, oldest_first; rewrite sort_by_perm; apply (in_positions _ _ Hi)).
  assert (StronglySorted (cmp_le (lex Z.compare Z.compare)) (position <$> l)) as Hs.
  { unfold l, oldest_first. rewrite <- (sort_by_fmap position (lex Z.compare Z.compare)) by done.
    apply sort_by_sorted. apply _. }
  clearbody l. induction l as [|a l IH]; [constructor|]. rewrite fmap_cons in Hs, Hn.
  apply list.NoDup_cons in Hn as [Hna Hn]. apply StronglySorted_inv in Hs as [Hs Ha].
  constructor; [by apply IH|]. apply list.Forall_forall. intros b Hb.
  assert (position b ∈ position <$> l) as Hpb by (by apply list_elem_of_fmap_2).
  pose proof (proj1 (List.Forall_forall _ _) Ha (position b) (proj1 (list_elem_of_In _ _) Hpb)) as Hab.
  rewrite older_lex. unfold cmp_le in Hab.
  destruct (lex Z.compare Z.compare (position a) (position b)) eqn:E; [|done|done].
  apply (cmp_eq (cmp := lex Z.compare Z.compare)) in E. rewrite E in Hna. done.
Qed.

Lemma older_self e : older (Some (position e)) e = false.
Proof. by rewrite older_lex, (proj2 (cmp_eq (cmp := lex Z.compare Z.compare) _ _) eq_refl). Qed.

Lemma older_trans c b x : older c b = true → before b x → older c x = true.
Proof.
  unfold before, precedes, older, position. destruct c as [[ch ci]|]; [|done]. rewrite !negb_true_iff, !orb_false_iff.
  intros [H1 H2] [H3 H4]. apply Z.ltb_ge in H1, H3. apply andb_false_iff in H2, H4.
  rewrite !Z.eqb_neq, !Z.leb_gt in *. split; [apply Z.ltb_ge; lia|]. apply andb_false_iff.
  rewrite Z.eqb_neq, Z.leb_gt. lia.
Qed.

(** The filter of a request; an address that does not parse has none. *)
Definition query_filter (params : TransactionListParams) : option IndexedTxChronFilters :=
  match tl_sender params with
  | None => Some (mkChronFilters (tl_block_height params) None (tl_payload_type params))
  | Some s => match parse_hex_str s with
              | Ok addr => Some (mkChronFilters (tl_block_height params) (Some addr) (tl_payload_type params))
              | Err _ => None
              end
  end.

Definition page_size (params : TransactionListParams) : nat :=
  Z.to_nat (Z.min (default 50 (tl_limit params)) 100).

Definition matching (f : IndexedTxChronFilters) (es : list IndexedTransaction) : list IndexedTransaction :=
  List.filter (λ e, indexed_transaction_matches_optional_filters e f) (newest_first es).

Lemma list_total_ok params c f db es :
  indexed db es → Z.of_nat (length es) ≤ u64_max →
  ∃ total db', list_total params c f db = (Ok total, db') ∧ indexed db' es.
Proof.
  intros Hi Hn. unfold list_total. destruct (negb (filtered_query params)).
  - destruct (total_entries db es Hi Hn) as (db' & -> & Hi'). by eexists _, db'.
  - destruct c; [by eexists _, db|]. rewrite (count_entries db es f Hi). by eexists _, db.
Qed.

(** One page: the first of what is left, and whether more is. *)
Lemma get_transactions_page params db es c f :
  indexed db es → Z.of_nat (length es) ≤ u64_max → 0 < default 50 (tl_limit params) →
  continuation_of params = Ok c → match c with Some c => position_ok c | None => True end →
  query_filter params = Some f →
  let rest := List.filter (older c) (matching f es) in
  ∃ total db', get_transactions params db =
      (Ok (mkTransactionListResponse (take (page_size params) rest)
             (mkTransactionPagination (Z.of_nat (page_size params)) (page_size params <? length rest)%nat total)),
       db') ∧ indexed db' es.
Proof.
  intros Hi Hn Hl Hc Hp Hq rest. unfold get_transactions. unfold page_size.
  set (limit := Z.min (default 50 (tl_limit params)) 100). assert (0 < limit ≤ 100) as Hlim by lia.
  rewrite (proj2 (Z.eqb_neq _ _)), Hc by lia.
  assert (∃ sa, match tl_sender params with
                | None => Ok None | Some s => let? addr := parse_hex_str s in Ok (Some addr) end = Ok sa ∧
    f = mkChronFilters (tl_block_height params) sa (tl_payload_type params)) as (sa & -> & <-).
  { unfold query_filter in Hq. destruct (tl_sender params) as [s|]; [|injection Hq as <-; by eexists].
    destruct (parse_hex_str s) as [addr|]; [|done]. injection Hq as <-. by eexists. }
  destruct (list_total_ok params c f db es Hi Hn) as (total & db' & -> & Hi').
  assert (list_indexed_transactions_chron_desc db' c limit true f = Ok (take (S (Z.to_nat limit)) rest)) as ->.
  { unfold list_indexed_transactions_chron_desc, saturating_add, u32_max. rewrite Z.min_r by lia.
    rewrite (list_entries db' es c f _ Hi' Hp) by lia. rewrite Nat.max_l by lia. f_equal. f_equal; [lia|].
    apply filter_comm. }
  exists total, db'. split; [|done]. rewrite Z2Nat.id by lia.
  destruct (probe_page limit rest) as [Hn' Hr']; [lia|]. by rewrite Hr', Hn'.
Qed.

(** The request for what follows a cursor. *)
Definition from_cursor (params : TransactionListParams) (c : option (Z * Z)) : TransactionListParams :=
  mkTransactionListParams (fst <$> c) (snd <$> c) (tl_limit params)
    (tl_block_height params) (tl_sender params) (tl_payload_type params).

Definition transactions_page (params : TransactionListParams) (c : option (Z * Z)) (db : IndexDb) :
    option (list IndexedTransaction * bool * IndexDb) :=
  match get_transactions (from_cursor params c) db with
  | (Ok page, db) => Some (tlr_transactions page, tp_has_next (tlr_pagination page), db)
  | (Err _, _) => None
  end.

(** C35. A client that reads the transactions page by page, each time from the last
    entry it was given, ends within one page more than there are entries and
    has then read every transaction that matches its filter exactly once, the
    newest first. *)
Theorem transaction_pages_complete (db : IndexDb) (es : list IndexedTransaction)
    (params : TransactionListParams) (f : IndexedTxChronFilters) (fuel : nat) :
  indexed db es → Z.of_nat (length es) ≤ u64_max →
  0 < default 50 (tl_limit params) → query_filter params = Some f → (length es < fuel)%nat →
  walk position fuel (transactions_page params) None db = Some (matching f es) ∧
  matching f es ⊆+ es ∧
  (∀ e, e ∈ matching f es ↔ e ∈ es ∧ indexed_transaction_matches_optional_filters e f = true) ∧
  StronglySorted before (matching f es).
Proof.
  intros Hi Hn Hl Hq Hf.
  assert (newest_first es ≡ₚ es) as Hp.
  { unfold newest_first, oldest_first. by rewrite <- Permutation_rev, sort_by_perm. }
  assert (List.filter (older None) (matching f es) = matching f es) as Hall by (by apply filter_all).
  assert (StronglySorted before (matching f es)) as Hs
    by (apply filter_sorted; by eapply newest_first_sorted).
  assert (∀ e, e ∈ matching f es ↔ e ∈ es ∧ indexed_transaction_matches_optional_filters e f = true) as Hin.
  { intros e. unfold matching. rewrite list_elem_of_In, filter_In, <- list_elem_of_In. by rewrite Hp. }
  split_and!; [| |exact Hin|exact Hs].
  - rewrite <- Hall at 1. apply (walk_complete older position older_self older_trans (λ db, indexed db es))
      with (n := page_size params); [done|unfold page_size; lia| |done|done|].
    + intros c s Hi' Hc rest. unfold transactions_page.
      destruct (get_transactions_page (from_cursor params c) s es c f Hi' Hn) as (total & s' & -> & Hi'');
        [done|by destruct c as [[]|]| |done|by exists s'].
      destruct c as [c|]; [|done]. destruct Hc as (e & He & ->). apply Hin in He as [He _].
      by eapply entry_position.
    + rewrite Hall. pose proof (filter_length_bound (λ e, indexed_transaction_matches_optional_filters e f)
        (newest_first es)) as Hb. rewrite (Permutation_length Hp) in Hb. unfold matching. lia.
  - rewrite <- Hp at 2. apply sublist_submseteq. unfold matching. clear.
    induction (newest_first es) as [|a l IH]; [done|].
    cbn [List.filter]. destruct (indexed_transaction_matches_optional_filters a f); by constructor.
Qed.
End pages.

(** ** Witnesses *)

Lemma api_limiter_exact_witness :
  run_limiter [("a", Upload, 0); ("b", Upload, 5); ("a", Upload, MINUTE); ("a", Upload, MINUTE + 1)]
    (RateLimitState_new (mkApiRateLimitConfig 1 1 1 1 true)) = [true; true; false; true].
Proof.
  rewrite api_limiter_exact; [vm_compute; reflexivity|reflexivity|].
  unfold MINUTE. repeat constructor; cbn; lia.
Defined.

Lemma transaction_pages_complete_witness : ∃ db,
  walk position 2 (transactions_page (mkTransactionListParams None None (Some 1) (Some 7) None None)) None db =
    Some [test_entry 4].
Proof.
  destruct (test_index 4) as (db & _ & Hi & _). exists db.
  destruct (transaction_pages_complete db [test_entry 4]
    (mkTransactionListParams None None (Some 1) (Some 7) None None) (mkChronFilters (Some 7) None None) 2 Hi)
    as [E _]; [vm_compute; congruence|cbn; lia|reflexivity|cbn; lia|].
  rewrite E. vm_compute. reflexivity.
Defined.
