(* ===== verification/RestReads.v ===== *)
(** What the REST interface reads of the chain's state: node_app/src/api
    (cado.rs, epoch.rs, namespace.rs, admin.rs, health.rs) and the response
    types of client/src/api/rest/namespace.rs.

    The handlers do not change the state; the lock on it is not poisoned.  An
    answer is returned with the limiter. *)
From S2P Require Import Prelude Externals Reference Coins Address Ordering Namespace Cado Records Tx Merkle Fee Pinboard AppState Storage Feed Slots Mempool Paging Prefix RestApi.

(** [str::parse::<i64>()] *)
Definition parse_i64 (s : string) : option Z :=
  match s with
  | String c s' =>
      if Ascii.eqb c "-"%char then
        match s' with
        | EmptyString => None
        | String d _ => if Ascii.eqb d "+"%char then None
                        else n ← parse_unsigned (i64_max + 1) s'; Some (- n)
        end
      else parse_unsigned i64_max s
  | EmptyString => None
  end.

(** The limiter in front of a read. *)
Definition read_limited {A} (endpoint : ApiEndpointType) (headers : HeaderMap) (now : Z)
    (rl : RateLimitState) (k : result ApiError A) : result ApiError A * RateLimitState :=
  match check_rate_limit endpoint headers now rl with
  | (Err e, rl) => (Err e, rl)
  | (Ok _, rl) => (k, rl)
  end.

(** ** cado.rs *)

Section reads.
Context {H : HexCrate} {HC : HashCrates} {C : RecordCodecs} (rd : StorageReads).

Definition lookup_cado_by_path (current : option AppState) (committed : AppState) (path : CadoPath) :
    result ApiError (option CadoBody) :=
  let stored :=
    match lookup_cado_by_path_excluding_current_cache committed rd path with
    | Ok cado => Ok cado
    | Err _ => Err (InternalServerError "Error while retrieving CADO from storage")
    end in
  match current with
  | Some cur =>
      match cado_cache (envelope cur) !! cp_path path with
      | Some cado => Ok (Some cado)
      | None => stored
      end
  | None => stored
  end.

Definition handle_get_cado (headers : HeaderMap) (cado_path_string : string) (now : Z)
    (current : option AppState) (committed : AppState) (rl : RateLimitState) :
    result ApiError (option CadoBody) * RateLimitState :=
  read_limited CadoEndpoint headers now rl
    match CadoPath_parse cado_path_string with
    | Err _ => Err (BadRequest "Invalid CADO path format")
    | Ok cado_path => lookup_cado_by_path current committed cado_path
    end.

(** ** epoch.rs *)

Inductive EpochRecordListOrder : Type := EpochAsc | EpochDesc.

Record EpochListParams : Type := mkEpochListParams {
  epl_order : option string;
  epl_after_epoch : option Z;
  epl_limit : option Z;
}.

Record EpochListResponse : Type := mkEpochListResponse {
  epr_epochs : list EpochRecord;
  epr_limit : Z;
  epr_has_next : bool;
  epr_total : option Z;
}.

Definition epoch_record_cado_path (epoch : Z) : result ApiError CadoPath :=
  match epoch_record_path_name epoch with
  | Err _ => Err (InternalServerError "Failed to build epoch record path key")
  | Ok key =>
      match CadoPath_new Cado_EpochRecord (Key_Name key) with
      | Err _ => Err (InternalServerError "Failed to build epoch record path")
      | Ok path => Ok path
      end
  end.

Definition read_epoch_record (current : option AppState) (committed : AppState) (path : CadoPath)
    (failed : string) (missing : ApiError) : result ApiError EpochRecord :=
  let? found := lookup_cado_by_path current committed path in
  match found with
  | None => Err missing
  | Some cado =>
      match EpochRecord_deserialize_bin (CadoBody_data cado) with
      | Ok record => Ok record
      | Err _ => Err (InternalServerError failed)
      end
  end.

(** [get_epoch_record] of the REST interface. *)
Definition api_epoch_record (current : option AppState) (committed : AppState) (epoch : Z) :
    result ApiError EpochRecord :=
  let? path := epoch_record_cado_path epoch in
  read_epoch_record current committed path "Failed to deserialize epoch record"
    (NotFound "EpochRecord" (to_string_i64 epoch)).

Definition get_latest_epoch_record (current : option AppState) (committed : AppState) :
    result ApiError EpochRecord :=
  match CadoPath_new Cado_EpochRecord (Key_Name LATEST) with
  | Err _ => Err (InternalServerError "Failed to build latest epoch record path")
  | Ok path =>
      read_epoch_record current committed path "Failed to deserialize latest epoch record"
        (NotFound "EpochRecord" "latest")
  end.

(** [BTreeSet] order *)
Definition ascending (s : gset Z) : list Z := sort_by Z.compare (elements s).

(** Whether an epoch comes after the cursor. *)
Definition epoch_after (order : EpochRecordListOrder) (after_epoch : option Z) (epoch : Z) : bool :=
  match after_epoch with
  | None => true
  | Some ae => match order with EpochDesc => epoch <? ae | EpochAsc => ae <? epoch end
  end.

(** The loop that reads the selected records; the first failure ends it. *)
Fixpoint read_epochs (current : option AppState) (committed : AppState) (epochs : list Z) :
    result ApiError (list EpochRecord) :=
  match epochs with
  | [] => Ok []
  | epoch :: epochs =>
      let? record := api_epoch_record current committed epoch in
      let? rest := read_epochs current committed epochs in Ok (record :: rest)
  end.

Definition list_epoch_records (current : option AppState) (committed : AppState)
    (order : EpochRecordListOrder) (after_epoch : option Z) (fetch_limit : nat) :
    result ApiError (list EpochRecord * option Z) :=
  let epoch_numbers :=
    ascending (collect_epoch_numbers (envelope committed) (envelope <$> current)) in
  let total := match after_epoch with
               | None => Some (Z.of_nat (length epoch_numbers))
               | Some _ => None
               end in
  let ordered := match order with EpochDesc => rev epoch_numbers | EpochAsc => epoch_numbers end in
  let? epochs := read_epochs current committed
                   (take fetch_limit (List.filter (epoch_after order after_epoch) ordered)) in
  Ok (epochs, total).

Definition get_epochs (current : option AppState) (committed : AppState) (params : EpochListParams) :
    result ApiError EpochListResponse :=
  let limit := Z.min (default 50 (epl_limit params)) 100 in
  if limit =? 0 then Err (BadRequest "Invalid limit")
  else
    let? order :=
      match epl_order params with
      | None => Ok EpochDesc
      | Some o => if String.eqb o "desc" then Ok EpochDesc
                  else if String.eqb o "asc" then Ok EpochAsc
                  else Err (BadRequest "Invalid order")
      end in
    let? r := list_epoch_records current committed order (epl_after_epoch params)
                (S (Z.to_nat limit)) in
    let '(epochs, total) := r in
    let has_next := limit <? Z.of_nat (length epochs) in
    let epochs := if has_next then take (Z.to_nat limit) epochs else epochs in
    Ok (mkEpochListResponse epochs limit has_next total).

Definition handle_get_epochs (headers : HeaderMap) (params : EpochListParams) (now : Z)
    (current : option AppState) (committed : AppState) (rl : RateLimitState) :
    result ApiError EpochListResponse * RateLimitState :=
  read_limited General headers now rl (get_epochs current committed params).

Definition handle_get_epoch_current (headers : HeaderMap) (now : Z) (current : option AppState)
    (committed : AppState) (rl : RateLimitState) : result ApiError EpochRecord * RateLimitState :=
  read_limited General headers now rl (get_latest_epoch_record current committed).

Definition handle_get_epoch_by_number (headers : HeaderMap) (epoch_text : string) (now : Z)
    (current : option AppState) (committed : AppState) (rl : RateLimitState) :
    result ApiError EpochRecord * RateLimitState :=
  read_limited General headers now rl
    match parse_i64 (trim epoch_text) with
    | None => Err (BadRequest "Invalid epoch number")
    | Some epoch => api_epoch_record current committed epoch
    end.

(** [height / blocks_per_epoch] truncates toward zero; a zero divisor panics. *)
Definition handle_get_epoch_by_height (headers : HeaderMap) (height_text : string)
    (protocol : option ProtocolConstants) (now : Z) (current : option AppState) (committed : AppState)
    (rl : RateLimitState) : option (result ApiError EpochRecord * RateLimitState) :=
  match check_rate_limit General headers now rl with
  | (Err e, rl) => Some (Err e, rl)
  | (Ok _, rl) =>
      match parse_i64 (trim height_text) with
      | None => Some (Err (BadRequest "Invalid block height"), rl)
      | Some height =>
          match protocol with
          | None => Some (Err (ServiceUnavailable "protocol_constants_unavailable"), rl)
          | Some constants =>
              if blocks_per_epoch constants =? 0 then None
              else Some (api_epoch_record current committed (Z.quot height (blocks_per_epoch constants)), rl)
          end
      end
  end.

(** ** namespace.rs *)

Record NamespaceListParams : Type := mkNamespaceListParams {
  nl_after_registered_height : option Z;
  nl_after_namespace_slug : option string;
  nl_limit : option Z;
}.

(** The body of a registered namespace and a row of the list. *)
Record NamespaceItem : Type := mkNamespaceItem {
  ni_namespace_slug : string;
  ni_scope : string;
  ni_owner : string;
  ni_registered_height : Z;
  ni_registry_path : string;
}.

Record NamespaceListResponse : Type := mkNamespaceListResponse {
  nlr_namespaces : list NamespaceItem;
  nlr_limit : Z;
  nlr_has_next : bool;
  nlr_total : option Z;
}.

(** [NamespaceListItem::from_record], [NamespaceRegisteredResponse::from_record] *)
Definition from_record (record : NamespaceRecord) : eld_result NamespaceItem :=
  let? registry_path := slug_to_namespace_cadopath (ns_slug record) in
  Ok (mkNamespaceItem (ns_slug record) (String "@" (ns_slug record)) (hex_with_prefix (ns_owner record))
        (ns_registered_height record) (cp_path registry_path)).

Definition lookup_namespace_record_from_storage (canonical_slug : string) :
    eld_result (option NamespaceRecord) :=
  let? path := CadoPath_new Cado_Namespace (Key_NamespaceSlug canonical_slug) in
  let? found := get_cado_by_path rd path in
  match found with
  | None => Ok None
  | Some (Mutable _) => Err (ValidationError "namespace")
  | Some (Immutable immutable) =>
      let? record := NamespaceRecord_deserialize_bin (cado_data immutable) in
      Ok (Some record)
  end.

Definition lookup_namespace_record (current : option AppState) (committed : AppState)
    (namespace_slug : string) : eld_result (option NamespaceRecord) :=
  let from_committed := resolve_namespace (envelope committed) namespace_slug in
  match current with
  | None => from_committed
  | Some cur =>
      let? found := resolve_namespace (envelope cur) namespace_slug in
      match found with
      | Some record => Ok (Some record)
      | None => from_committed
      end
  end.

(** Descending height, then ascending slug. *)
Definition namespace_compare (a b : NamespaceRecord) : comparison :=
  then_with (Z.compare (ns_registered_height b) (ns_registered_height a))
    (key_compare (ns_slug a) (ns_slug b)).

Definition sort_namespace_records (records : list NamespaceRecord) : list NamespaceRecord :=
  sort_by namespace_compare records.

(** The values in the order of the slugs. *)
Definition records_of (by_slug : gmap string NamespaceRecord) : list NamespaceRecord :=
  omap (λ k, by_slug !! k) (sorted_keys (dom by_slug)).

Definition list_namespace_records (committed : AppState) (current : option AppState) :
    eld_result (list NamespaceRecord) :=
  let? by_slug := collect_namespace_records (envelope committed) (envelope <$> current) in
  Ok (sort_namespace_records (records_of by_slug)).

Definition namespace_after (c : option (Z * string)) (height : Z) (slug : string) : bool :=
  match c with
  | None => true
  | Some (after_height, after_slug) =>
      (height <? after_height) ||
      ((height =? after_height) && match key_compare slug after_slug with Gt => true | _ => false end)
  end.

Definition filter_namespace_records_after_cursor (records : list NamespaceRecord) (after_height : Z)
    (after_slug : string) : list NamespaceRecord :=
  List.filter (λ r, namespace_after (Some (after_height, after_slug)) (ns_registered_height r) (ns_slug r))
    records.

Definition paginate_namespace_records (records : list NamespaceRecord) (limit : nat) :
    list NamespaceRecord * bool := (take limit records, (limit <? length records)%nat).

Definition parse_namespace_list_continuation (params : NamespaceListParams) :
    result ApiError (option (Z * string)) :=
  match nl_after_registered_height params, nl_after_namespace_slug params with
  | None, None => Ok None
  | Some height, Some slug =>
      match normalize_namespace_slug slug with
      | Err _ => Err (BadRequest "Invalid after_namespace_slug")
      | Ok canonical => Ok (Some (height, canonical))
      end
  | _, _ => Err (BadRequest "Invalid namespace list continuation")
  end.

(** [Ok] of a registered namespace, or the slug that has none. *)
Definition handle_get_namespace (headers : HeaderMap) (namespace_slug : string) (now : Z)
    (current : option AppState) (committed : AppState) (rl : RateLimitState) :
    result ApiError (NamespaceItem + string) * RateLimitState :=
  read_limited General headers now rl
    match normalize_namespace_slug namespace_slug with
    | Err _ => Err (BadRequest "Invalid namespace_slug")
    | Ok canonical =>
        match lookup_namespace_record current committed canonical with
        | Err _ => Err (InternalServerError "Failed to resolve namespace")
        | Ok None => Ok (inr canonical)
        | Ok (Some record) =>
            match from_record record with
            | Err _ => Err (InternalServerError "Failed to build registry path")
            | Ok body => Ok (inl body)
            end
        end
    end.

Fixpoint items_of (records : list NamespaceRecord) : eld_result (list NamespaceItem) :=
  match records with
  | [] => Ok []
  | r :: records => let? i := from_record r in let? l := items_of records in Ok (i :: l)
  end.

Definition list_namespaces (current : option AppState) (committed : AppState)
    (params : NamespaceListParams) : result ApiError NamespaceListResponse :=
  let limit := Z.min (default 50 (nl_limit params)) 100 in
  if limit =? 0 then Err (BadRequest "Invalid limit")
  else
    let? continuation := parse_namespace_list_continuation params in
    match list_namespace_records committed current with
    | Err _ => Err (InternalServerError "Failed to list namespaces")
    | Ok all_records =>
        let total := match continuation with
                     | None => Some (Z.of_nat (length all_records))
                     | Some _ => None
                     end in
        let page_records := match continuation with
                            | None => all_records
                            | Some (h, s) => filter_namespace_records_after_cursor all_records h s
                            end in
        let '(page_records, has_next) := paginate_namespace_records page_records (Z.to_nat limit) in
        match items_of page_records with
        | Err _ => Err (InternalServerError "Failed to build namespace list response")
        | Ok namespaces => Ok (mkNamespaceListResponse namespaces limit has_next total)
        end
    end.

Definition handle_list_namespaces (headers : HeaderMap) (params : NamespaceListParams) (now : Z)
    (current : option AppState) (committed : AppState) (rl : RateLimitState) :
    result ApiError NamespaceListResponse * RateLimitState :=
  read_limited General headers now rl (list_namespaces current committed params).
End reads.

(** ** admin.rs *)

Inductive AdminError : Type := Unauthorized | AdminInternal (msg : string).

Definition check_bearer (headers : HeaderMap) (expected : option string) : result AdminError unit :=
  match expected with
  | None => Ok tt
  | Some expected =>
      match headers !! "authorization" ≫= to_str with
      | None => Err Unauthorized
      | Some auth =>
          match strip_prefix "Bearer " auth with
          | None => Err Unauthorized
          | Some token => if String.eqb (trim token) expected then Ok tt else Err Unauthorized
          end
      end
  end.

Record AdminSlotKindStats : Type := mkSlotKindStats { kind_count : Z; kind_bytes : Z }.

Record SlotsSnapshot : Type := mkSlotsSnapshot {
  ss_slot_map_loaded : bool;
  ss_reserved_capacity_bytes : Z;
  ss_total_slot_count : Z;
  ss_proof_slots : AdminSlotKindStats;
  ss_open_slots : AdminSlotKindStats;
  ss_content_slots : AdminSlotKindStats;
}.

Definition SlotsSnapshot_empty : SlotsSnapshot :=
  mkSlotsSnapshot false 0 0 (mkSlotKindStats 0 0) (mkSlotKindStats 0 0) (mkSlotKindStats 0 0).

Definition count_slot (b : Z) (s : AdminSlotKindStats) : AdminSlotKindStats :=
  mkSlotKindStats (saturating_add u64_max (kind_count s) 1) (saturating_add u64_max (kind_bytes s) b).

(** The loop over the slots: proof, open and content. *)
Definition count_slots (slots : list Slot) :
    AdminSlotKindStats * AdminSlotKindStats * AdminSlotKindStats :=
  fold_left (λ '(proof, open, content) slot,
    let b := Z.of_nat (slot_size slot) in
    match slot_state slot with
    | Slot_Proof => (count_slot b proof, open, content)
    | Slot_Open => (proof, count_slot b open, content)
    | Slot_Content _ _ => (proof, open, count_slot b content)
    end) slots (mkSlotKindStats 0 0, mkSlotKindStats 0 0, mkSlotKindStats 0 0).

Definition snapshot_slots (slot_map : option SlotMap) : SlotsSnapshot :=
  match slot_map with
  | None => SlotsSnapshot_empty
  | Some sm =>
      let '(proof, open, content) := count_slots (sm_slots sm) in
      mkSlotsSnapshot true (Z.of_nat (sm_capacity_bytes sm)) (Z.of_nat (length (sm_slots sm)))
        proof open content
  end.

(** ** health.rs *)

Definition health (headers : HeaderMap) (now : Z) (rl : RateLimitState) :
    result ApiError string * RateLimitState :=
  read_limited Health headers now rl (Ok "OK").

(** ** Lists *)

Lemma strictly_sorted {A K} (f : A → K) (c : K → K → comparison) {L : LawfulCompare c} l :
  NoDup (f <$> l) → StronglySorted (cmp_le c) (f <$> l) → StronglySorted (λ a b, c (f a) (f b) = Lt) l.
Proof.
  induction l as [|a l IH]; intros Hn Hs; [constructor|]. rewrite fmap_cons in Hs, Hn.
  apply list.NoDup_cons in Hn as [Hna Hn]. apply StronglySorted_inv in Hs as [Hs Ha].
  constructor; [by apply IH|]. apply list.Forall_forall. intros b Hb.
  assert (f b ∈ f <$> l) as Hpb by (by apply list_elem_of_fmap_2).
  pose proof (proj1 (List.Forall_forall _ _) Ha (f b) (proj1 (list_elem_of_In _ _) Hpb)) as Hab.
  unfold cmp_le in Hab. destruct (c (f a) (f b)) eqn:E; [|done|done].
  apply cmp_eq in E. rewrite E in Hna. done.
Qed.

Section lists.
Context {H : HexCrate} {HC : HashCrates} {C : RecordCodecs} (rd : StorageReads).

(** *** Epochs *)

(** The records are read, each with its own number. *)
Definition epochs_readable (current : option AppState) (committed : AppState) (record : Z → EpochRecord) : Prop :=
  ∀ epoch, epoch ∈ collect_epoch_numbers (envelope committed) (envelope <$> current) →
    api_epoch_record rd current committed epoch = Ok (record epoch) ∧ er_epoch (record epoch) = epoch.

Lemma read_epochs_ok current committed record l :
  (∀ epoch, epoch ∈ l → api_epoch_record rd current committed epoch = Ok (record epoch)) →
  read_epochs rd current committed l = Ok (record <$> l).
Proof.
  induction l as [|epoch l IH]; intros Hl; [done|]. cbn [read_epochs]. rewrite Hl by (by left).
  rewrite IH; [done|]. intros x Hx. apply Hl. by right.
Qed.

Lemma ascending_elem s x : x ∈ ascending s ↔ x ∈ s.
Proof. unfold ascending. by rewrite sort_by_perm, elem_of_elements. Qed.

Lemma ascending_sorted s : StronglySorted Z.lt (ascending s).
Proof.
  assert (StronglySorted (λ a b, (id a ?= id b) = Lt) (ascending s)) as Hs.
  { apply (strictly_sorted id Z.compare); rewrite list_fmap_id; unfold ascending;
      [rewrite sort_by_perm; apply NoDup_elements|apply sort_by_sorted; apply _]. }
  revert Hs. generalize (ascending s). induction 1 as [|a l Hl IH Ha]; constructor; [done|].
  eapply list.Forall_impl; [exact Ha|]. done.
Qed.

Definition epochs_page (current : option AppState) (committed : AppState) (params : EpochListParams)
    (c : option Z) (s : unit) : option (list EpochRecord * bool * unit) :=
  match get_epochs rd current committed (mkEpochListParams (epl_order params) c (epl_limit params)) with
  | Ok page => Some (epr_epochs page, epr_has_next page, s)
  | Err _ => None
  end.

Definition order_of (params : EpochListParams) : option EpochRecordListOrder :=
  match epl_order params with
  | None => Some EpochDesc
  | Some o => if String.eqb o "desc" then Some EpochDesc
              else if String.eqb o "asc" then Some EpochAsc else None
  end.

Definition ordered_epochs (order : EpochRecordListOrder) (s : gset Z) : list Z :=
  match order with EpochDesc => rev (ascending s) | EpochAsc => ascending s end.

Section epochs.
Context (current : option AppState) (committed : AppState) (record : Z → EpochRecord)
  (params : EpochListParams) (order : EpochRecordListOrder).
Abbreviation numbers := (collect_epoch_numbers (envelope committed) (envelope <$> current)).
Context (readable : epochs_readable current committed record) (ordered : order_of params = Some order)
  (limited : 0 < default 50 (epl_limit params)).

Definition record_after (c : option Z) (r : EpochRecord) : bool := epoch_after order c (er_epoch r).

Lemma ordered_epochs_elem epoch : epoch ∈ ordered_epochs order numbers ↔ epoch ∈ numbers.
Proof.
  unfold ordered_epochs. destruct order; [apply ascending_elem|].
  rewrite list_elem_of_In, <- in_rev, <- list_elem_of_In. apply ascending_elem.
Qed.

Lemma ordered_epochs_sorted : StronglySorted (λ a b, epoch_after order (Some a) b = true) (ordered_epochs order numbers).
Proof.
  assert (StronglySorted (λ a b, a < b) (ascending numbers)) as Hs by apply ascending_sorted.
  unfold ordered_epochs, epoch_after. destruct order; [|apply (sorted_rev (λ a b, (a <? b) = true))];
    rewrite <- (list_fmap_id (ascending numbers)); (eapply StronglySorted_map; [|exact Hs]); cbn; intros; lia.
Qed.

Lemma records_sorted : StronglySorted (precedes record_after er_epoch) (record <$> ordered_epochs order numbers).
Proof.
  eapply StronglySorted_map; [|apply ordered_epochs_sorted]. intros a b Ha Hb Hab.
  apply ordered_epochs_elem in Ha, Hb. unfold precedes, record_after.
  by rewrite (proj2 (readable a Ha)), (proj2 (readable b Hb)).
Qed.

Lemma records_selected c :
  List.filter (record_after c) (record <$> ordered_epochs order numbers) =
  record <$> List.filter (epoch_after order c) (ordered_epochs order numbers).
Proof.
  rewrite filter_map_comm. f_equal.
  assert (∀ l, (∀ e, e ∈ l → e ∈ numbers) →
    List.filter (λ a, record_after c (record a)) l = List.filter (epoch_after order c) l) as Hext.
  { induction l as [|e l IH]; intros Hn; [done|]. cbn [List.filter]. unfold record_after at 1.
    rewrite (proj2 (readable e (Hn e ltac:(by left)))), IH; [done|]. intros x Hx. apply Hn. by right. }
  apply Hext. intros e. apply ordered_epochs_elem.
Qed.

Lemma epochs_page_ok c s :
  let n := Z.to_nat (Z.min (default 50 (epl_limit params)) 100) in
  let rest := List.filter (record_after c) (record <$> ordered_epochs order numbers) in
  epochs_page current committed params c s = Some (take n rest, (n <? length rest)%nat, s).
Proof.
  intros n rest. unfold epochs_page, get_epochs. cbn [epl_order epl_after_epoch epl_limit].
  unfold n. set (limit := Z.min (default 50 (epl_limit params)) 100). assert (0 < limit ≤ 100) as Hlim by lia.
  rewrite (proj2 (Z.eqb_neq _ _)) by lia.
  assert (match epl_order params with
          | None => Ok EpochDesc
          | Some o => if String.eqb o "desc" then Ok EpochDesc
                      else if String.eqb o "asc" then Ok EpochAsc
                      else Err (BadRequest "Invalid order")
          end = (Ok order : result ApiError _)) as ->.
  { clear -ordered. unfold order_of in ordered. destruct (epl_order params) as [o|]; [|by injection ordered as <-].
    destruct (String.eqb o "desc"); [by injection ordered as <-|].
    destruct (String.eqb o "asc"); [by injection ordered as <-|done]. }
  unfold list_epoch_records. fold (ordered_epochs order numbers).
  rewrite (read_epochs_ok current committed record).
  2:{ intros e He. apply readable, ordered_epochs_elem. apply elem_of_take in He as (i & Hi & _).
      apply list_elem_of_lookup_2 in Hi. rewrite list_elem_of_In, filter_In in Hi.
      apply list_elem_of_In. tauto. }
  rewrite fmap_take, <- records_selected. fold rest. cbv beta iota. cbn [epr_epochs epr_has_next].
  destruct (probe_page limit rest) as [-> ->]; [lia|]. done.
Qed.
End epochs.

(** The list of epochs, read page by page in either order, ends and gives the
    record of every epoch of the committed state and of the block in progress
    exactly once, in the order asked for. *)
Theorem epoch_pages_complete (current : option AppState) (committed : AppState)
    (record : Z → EpochRecord) (params : EpochListParams) (order : EpochRecordListOrder) (fuel : nat) :
  let numbers := collect_epoch_numbers (envelope committed) (envelope <$> current) in
  epochs_readable current committed record → order_of params = Some order →
  0 < default 50 (epl_limit params) → (size numbers < fuel)%nat →
  walk er_epoch fuel (epochs_page current committed params) None tt =
    Some (record <$> ordered_epochs order numbers) ∧
  (∀ epoch, epoch ∈ ordered_epochs order numbers ↔ epoch ∈ numbers) ∧
  StronglySorted (λ a b, epoch_after order (Some a) b = true) (ordered_epochs order numbers).
Proof.
  intros numbers Hr Ho Hl Hf. split_and!; [|intros epoch; by eapply ordered_epochs_elem|by eapply ordered_epochs_sorted].
  set (M := record <$> ordered_epochs order numbers).
  assert (List.filter (record_after order None) M = M) as Hall by (by apply filter_all).
  rewrite <- Hall. apply (walk_complete (record_after order) er_epoch) with (I := λ _, True)
    (n := Z.to_nat (Z.min (default 50 (epl_limit params)) 100)); [| | |lia| |done|done|].
  - intros r. unfold record_after, epoch_after. destruct order; lia.
  - intros c a b. unfold record_after, precedes, epoch_after. destruct c, order; try done; lia.
  - by eapply records_sorted.
  - intros c s _ _ rest. exists s. split; [|done]. by eapply epochs_page_ok.
  - rewrite Hall. unfold M. rewrite length_fmap. unfold ordered_epochs.
    assert (length (ascending numbers) = size numbers) as Hlen
      by (unfold ascending; rewrite (Permutation_length (sort_by_perm _ _)); done).
    destruct order; rewrite ?length_rev; lia.
Qed.

(** *** Namespaces *)

(** A registry under canonical, unreserved slugs, each record under its own. *)
Definition registry_ok (by_slug : gmap string NamespaceRecord) : Prop :=
  ∀ slug r, by_slug !! slug = Some r →
    ns_slug r = slug ∧ normalize_namespace_slug slug = Ok slug ∧
    ∃ p, slug_to_namespace_cadopath slug = Ok p.

Definition namespace_item (r : NamespaceRecord) : NamespaceItem :=
  mkNamespaceItem (ns_slug r) (String "@" (ns_slug r)) (hex_with_prefix (ns_owner r))
    (ns_registered_height r)
    match slug_to_namespace_cadopath (ns_slug r) with Ok p => cp_path p | Err _ => EmptyString end.

Definition record_key (r : NamespaceRecord) : Z * string := (ns_registered_height r, ns_slug r).
Definition item_key (i : NamespaceItem) : Z * string := (ni_registered_height i, ni_namespace_slug i).
Definition item_after (c : option (Z * string)) (i : NamespaceItem) : bool :=
  namespace_after c (ni_registered_height i) (ni_namespace_slug i).

Definition newer_first (a b : Z * string) : comparison := lex (λ x y, Z.compare y x) key_compare a b.

#[local] Instance newer_first_lawful : LawfulCompare newer_first.
Proof. apply lex_lawful; [apply flip_lawful|]; apply _. Qed.

Lemma namespace_after_key k b : namespace_after (Some k) b.1 b.2 = true ↔ newer_first k b = Lt.
Proof.
  destruct k as [h s], b as [h' s']. unfold namespace_after, newer_first, lex, then_with. cbn [fst snd].
  rewrite (cmp_antisym (cmp := key_compare) s s').
  destruct (Z.compare_spec h' h) as [->|Hl|Hg].
  - rewrite Z.ltb_irrefl, Z.eqb_refl. cbn [orb andb]. by destruct (key_compare s s').
  - by rewrite (proj2 (Z.ltb_lt _ _)) by lia.
  - rewrite (proj2 (Z.ltb_ge _ _)), (proj2 (Z.eqb_neq _ _)) by lia. done.
Qed.

Lemma records_of_elem by_slug r : r ∈ records_of by_slug ↔ ∃ slug, by_slug !! slug = Some r.
Proof.
  unfold records_of. rewrite list_elem_of_omap. split.
  - intros (slug & _ & E). by exists slug.
  - intros (slug & E). exists slug. split; [|done]. rewrite sorted_keys_in, elem_of_dom. by eexists.
Qed.

Lemma records_of_slugs by_slug : registry_ok by_slug → ns_slug <$> records_of by_slug = sorted_keys (dom by_slug).
Proof.
  intros Hok. unfold records_of.
  assert (∀ l : list string, (∀ k, k ∈ l → k ∈ dom by_slug) → ns_slug <$> omap (λ k, by_slug !! k) l = l) as Hl.
  { induction l as [|k l IH]; intros Hd; [done|].
    assert (k ∈ dom by_slug) as [r Hr]%elem_of_dom by (apply Hd; by left). cbn [omap list_omap]. rewrite Hr.
    rewrite fmap_cons, (proj1 (Hok k r Hr)). f_equal. apply IH. intros x Hx. apply Hd. by right. }
  apply Hl. intros k. apply sorted_keys_in.
Qed.

Section namespaces.
Context (current : option AppState) (committed : AppState) (by_slug : gmap string NamespaceRecord)
  (params : NamespaceListParams).
Context (collected : collect_namespace_records (envelope committed) (envelope <$> current) = Ok by_slug)
  (reg_ok : registry_ok by_slug) (positive : 0 < default 50 (nl_limit params)).
Abbreviation records := (sort_namespace_records (records_of by_slug)).

Lemma records_elem r : r ∈ records ↔ ∃ slug, by_slug !! slug = Some r.
Proof. unfold sort_namespace_records. rewrite sort_by_perm. apply records_of_elem. Qed.

Lemma record_item r : r ∈ records → from_record r = Ok (namespace_item r).
Proof.
  intros (slug & E)%records_elem. destruct (reg_ok slug r E) as (Es & _ & p & Ep).
  unfold from_record, namespace_item. by rewrite Es, Ep.
Qed.

Lemma items_of_records l : (∀ r, r ∈ l → r ∈ records) → items_of l = Ok (namespace_item <$> l).
Proof.
  induction l as [|r l IH]; intros Hl; [done|]. cbn [items_of]. rewrite record_item by (apply Hl; by left).
  rewrite IH; [done|]. intros x Hx. apply Hl. by right.
Qed.

Lemma namespace_items_sorted : StronglySorted (precedes item_after item_key) (namespace_item <$> records).
Proof.
  assert (StronglySorted (λ a b, newer_first (record_key a) (record_key b) = Lt) records) as Hs.
  { apply (strictly_sorted record_key newer_first); unfold sort_namespace_records.
    - apply (NoDup_fmap_1 snd). rewrite <- list_fmap_compose. change (snd ∘ record_key) with ns_slug.
      rewrite sort_by_perm, records_of_slugs by done. unfold sorted_keys. rewrite sort_by_perm. apply NoDup_elements.
    - rewrite <- (sort_by_fmap record_key newer_first) by done. apply sort_by_sorted. apply _. }
  eapply StronglySorted_map; [|exact Hs]. intros a b _ _ Hab. unfold precedes, item_after.
  by apply (namespace_after_key (record_key a) (record_key b)).
Qed.

Definition namespaces_page (c : option (Z * string)) (s : unit) : option (list NamespaceItem * bool * unit) :=
  match list_namespaces current committed (mkNamespaceListParams (fst <$> c) (snd <$> c) (nl_limit params)) with
  | Ok page => Some (nlr_namespaces page, nlr_has_next page, s)
  | Err _ => None
  end.

Lemma namespaces_page_ok c s :
  match c with Some k => ∃ i, i ∈ namespace_item <$> records ∧ k = item_key i | None => True end →
  let n := Z.to_nat (Z.min (default 50 (nl_limit params)) 100) in
  let rest := List.filter (item_after c) (namespace_item <$> records) in
  namespaces_page c s = Some (take n rest, (n <? length rest)%nat, s).
Proof.
  intros Hc n rest. unfold namespaces_page, list_namespaces. cbn [nl_limit].
  assert ((Z.min (default 50 (nl_limit params)) 100 =? 0) = false) as -> by lia.
  assert (parse_namespace_list_continuation (mkNamespaceListParams (fst <$> c) (snd <$> c) (nl_limit params)) = Ok c) as ->.
  { unfold parse_namespace_list_continuation. cbn [nl_after_registered_height nl_after_namespace_slug].
    destruct c as [[h sl]|]; [|done]. cbn [fmap option_fmap option_map fst snd].
    destruct Hc as (i & (r & -> & (slug & E)%records_elem)%list_elem_of_fmap & [= -> ->]).
    destruct (reg_ok slug r E) as (Es & En & _). cbn [ni_namespace_slug namespace_item]. by rewrite Es, En. }
  unfold list_namespace_records. rewrite collected.
  assert (match c with
          | None => records
          | Some (h, sl) => filter_namespace_records_after_cursor records h sl
          end = List.filter (λ r, namespace_after c (ns_registered_height r) (ns_slug r)) records) as ->.
  { destruct c as [[]|]; [done|]. symmetry. by apply filter_all. }
  set (sel := List.filter _ records). assert (rest = namespace_item <$> sel) as Hrest
    by (unfold rest, sel; by rewrite filter_map_comm).
  unfold paginate_namespace_records. cbn [fst snd]. rewrite items_of_records.
  - cbn [nlr_namespaces nlr_has_next]. by rewrite Hrest, fmap_take, length_fmap.
  - intros r Hr. apply elem_of_take in Hr as (i & Hi & _). apply list_elem_of_lookup_2 in Hi.
    unfold sel in Hi. rewrite list_elem_of_In, filter_In in Hi. apply list_elem_of_In. tauto.
Qed.
End namespaces.

(** The list of namespaces, read page by page, ends and gives every registered
    namespace exactly once, the latest registration first: those of the
    committed registry and those the block in progress registers. *)
Theorem namespace_pages_complete (current : option AppState) (committed : AppState)
    (by_slug : gmap string NamespaceRecord) (params : NamespaceListParams) (fuel : nat) :
  collect_namespace_records (envelope committed) (envelope <$> current) = Ok by_slug →
  registry_ok by_slug → 0 < default 50 (nl_limit params) → (size by_slug < fuel)%nat →
  let records := sort_namespace_records (records_of by_slug) in
  walk item_key fuel (namespaces_page current committed params) None tt = Some (namespace_item <$> records) ∧
  NoDup records ∧ (∀ r, r ∈ records ↔ by_slug !! ns_slug r = Some r) ∧
  StronglySorted (precedes item_after item_key) (namespace_item <$> records).
Proof.
  intros Hc Hok Hl Hf records.
  assert (NoDup (ns_slug <$> records_of by_slug)) as Hn.
  { rewrite records_of_slugs by done. unfold sorted_keys. rewrite sort_by_perm. apply NoDup_elements. }
  assert (length records = size by_slug) as Hlen.
  { unfold records, sort_namespace_records. rewrite (Permutation_length (sort_by_perm _ _)).
    rewrite <- (length_fmap ns_slug), records_of_slugs by done. unfold sorted_keys.
    rewrite (Permutation_length (sort_by_perm _ _)). rewrite <- size_dom. done. }
  split_and!.
  - assert (List.filter (item_after None) (namespace_item <$> records) = namespace_item <$> records) as Hall
      by (by apply filter_all).
    rewrite <- Hall. apply (walk_complete item_after item_key) with (I := λ _, True)
      (n := Z.to_nat (Z.min (default 50 (nl_limit params)) 100)); [| | |lia| |done|done|].
    + intros i. apply not_true_iff_false. intros E. apply (namespace_after_key (item_key i) (item_key i)) in E.
      by rewrite (proj2 (cmp_eq (cmp := newer_first) _ _) eq_refl) in E.
    + intros [k|] a b Ha Hb; [|done]. apply (namespace_after_key k (item_key b)).
      apply (namespace_after_key k (item_key a)) in Ha. apply (namespace_after_key (item_key a) (item_key b)) in Hb.
      by eapply cmp_trans.
    + by eapply namespace_items_sorted.
    + intros c s _ Hcur rest. exists s. split; [|done]. by eapply namespaces_page_ok.
    + rewrite Hall, length_fmap, Hlen. done.
  - unfold records, sort_namespace_records. rewrite sort_by_perm. by eapply NoDup_fmap_1.
  - intros r. unfold records. rewrite records_elem. split; [|by eexists].
    intros (slug & E). by rewrite (proj1 (Hok slug r E)).
  - by eapply namespace_items_sorted.
Qed.
End lists.

(** ** Slots *)

Definition is_kind (k : SlotState) (s : Slot) : bool :=
  match k, slot_state s with
  | Slot_Proof, Slot_Proof | Slot_Open, Slot_Open | Slot_Content _ _, Slot_Content _ _ => true
  | _, _ => false
  end.

Definition kind_stats (k : SlotState) (slots : list Slot) : AdminSlotKindStats :=
  let l := List.filter (is_kind k) slots in
  mkSlotKindStats (Z.of_nat (length l)) (Z.of_nat (sum_list (slot_size <$> l))).

Lemma count_slot_exact b s : kind_count s + 1 ≤ u64_max → kind_bytes s + b ≤ u64_max →
  count_slot b s = mkSlotKindStats (kind_count s + 1) (kind_bytes s + b).
Proof. intros H1 H2. unfold count_slot, saturating_add. f_equal; lia. Qed.

Lemma kind_stats_snoc k slots s :
  kind_stats k (slots ++ [s]) =
  if is_kind k s then mkSlotKindStats (kind_count (kind_stats k slots) + 1)
                        (kind_bytes (kind_stats k slots) + Z.of_nat (slot_size s))
  else kind_stats k slots.
Proof.
  unfold kind_stats. rewrite List.filter_app. cbn [List.filter].
  destruct (is_kind k s); [|by rewrite app_nil_r]. cbn [kind_count kind_bytes].
  rewrite fmap_app, sum_list_with_app, length_app. cbn. f_equal; lia.
Qed.

Lemma kind_stats_bound k slots :
  kind_count (kind_stats k slots) ≤ Z.of_nat (length slots) ∧
  kind_bytes (kind_stats k slots) ≤ Z.of_nat (sum_list (slot_size <$> slots)).
Proof.
  unfold kind_stats. cbn [kind_count kind_bytes]. induction slots as [|s slots IH]; [done|].
  cbn [List.filter]. rewrite fmap_cons. destruct (is_kind k s); cbn [length]; rewrite ?fmap_cons; cbn [sum_list sum_list_with] in *;
    unfold id in *; lia.
Qed.

Lemma count_slots_exact slots :
  Z.of_nat (length slots) ≤ u64_max → Z.of_nat (sum_list (slot_size <$> slots)) ≤ u64_max →
  count_slots slots =
    (kind_stats Slot_Proof slots, kind_stats Slot_Open slots,
     kind_stats (Slot_Content EmptyString (fit 32 [])) slots).
Proof.
  unfold count_slots. induction slots as [|s slots IH] using rev_ind; intros Hn Hs; [done|].
  rewrite length_app in Hn. rewrite fmap_app, sum_list_with_app in Hs. cbn in Hn, Hs.
  rewrite fold_left_app, IH by lia. cbn [fold_left]. rewrite !kind_stats_snoc.
  pose proof (kind_stats_bound Slot_Proof slots). pose proof (kind_stats_bound Slot_Open slots).
  pose proof (kind_stats_bound (Slot_Content EmptyString (fit 32 [])) slots).
  unfold is_kind. destruct (slot_state s); rewrite count_slot_exact by lia; done.
Qed.

(** ** Witnesses *)

Definition no_storage : StorageReads :=
  mkStorageReads (λ _, Ok None) (λ _, Ok false) (λ _, Ok false) (λ _, Ok None).

Definition test_epoch (n : Z) : EpochRecord := mkEpochRecord n (n * 20) [] None [].
Definition test_epoch_path (n : Z) : string :=
  match epoch_record_cado_path n with Ok p => cp_path p | Err _ => EmptyString end.
Definition test_epoch_cado (n : Z) : CadoBody :=
  CadoBody_immutable (default [] (bin_serialize (test_epoch n))) (CADOMetadata_new Cado_EpochRecord "system").

(** A block in progress stages the records of two epochs. *)
Definition test_current : AppState :=
  mkAppState None
    (set_cado_cache {[test_epoch_path 3 := test_epoch_cado 3; test_epoch_path 4 := test_epoch_cado 4]}
       envelope_default) "eld".
Definition test_committed : AppState := mkAppState None envelope_default "eld".

Lemma test_numbers :
  collect_epoch_numbers (envelope test_committed) (envelope <$> Some test_current) = {[3; 4]}.
Proof. apply (bool_decide_unpack _). vm_compute. exact I. Qed.

Lemma test_readable : epochs_readable no_storage (Some test_current) test_committed test_epoch.
Proof.
  unfold epochs_readable. rewrite test_numbers.
  intros epoch [->%elem_of_singleton| ->%elem_of_singleton]%elem_of_union; vm_compute; by split.
Qed.

Lemma epoch_pages_complete_witness :
  walk er_epoch 3 (epochs_page no_storage (Some test_current) test_committed
    (mkEpochListParams None None (Some 1))) None tt = Some [test_epoch 4; test_epoch 3].
Proof.
  destruct (epoch_pages_complete no_storage (Some test_current) test_committed test_epoch
    (mkEpochListParams None None (Some 1)) EpochDesc 3 test_readable eq_refl) as [E _]; [done| |].
  - rewrite test_numbers. vm_compute. lia.
  - rewrite E, test_numbers. vm_compute. reflexivity.
Defined.

Definition test_namespace (slug : string) (h : Z) : NamespaceRecord :=
  mkNamespaceRecord slug (mkAddress (fit 20 [])) h.
Definition test_registry : gmap string NamespaceRecord :=
  {["alpha" := test_namespace "alpha" 5; "beta" := test_namespace "beta" 5; "gamma" := test_namespace "gamma" 9]}.
Definition test_named : AppState :=
  mkAppState None (set_namespace_registry_index test_registry envelope_default) "eld".

Lemma test_registry_ok : registry_ok test_registry.
Proof.
  unfold registry_ok, test_registry. intros slug r.
  rewrite !lookup_insert_Some, lookup_singleton_Some.
  intros [[<- <-]|(_ & [[<- <-]|(_ & <- & <-)])]; (split; [done|]; split; [vm_compute; reflexivity|]);
    eexists; vm_compute; reflexivity.
Qed.

Lemma namespace_pages_complete_witness :
  match walk item_key 4 (namespaces_page None test_named (mkNamespaceListParams None None (Some 2))) None tt with
  | Some items => ni_namespace_slug <$> items = ["gamma"; "alpha"; "beta"]
  | None => False
  end.
Proof.
  destruct (namespace_pages_complete None test_named test_registry (mkNamespaceListParams None None (Some 2)) 4)
    as [E _]; [vm_compute; reflexivity|apply test_registry_ok|done|vm_compute; lia|].
  rewrite E. vm_compute. reflexivity.
Defined.
