(* ===== verification/PinboardApi.v ===== *)
(** The pinboard's REST interface: node_app/src/api/pinboard.rs, with the
    request and answer types of client/src/api/rest/pinboard.rs and
    [Wallet::sign_post_message_chain_tx] of common/src/wallet.rs.

    The node's wallet, the JSON-RPC server and the clock are arguments of the
    handlers; the locks are not poisoned.  Error details are dropped, and the
    text of a failed read of the slots is a fixed one. *)
From S2P Require Import Prelude Externals Reference Coins Address Ordering Namespace Cado Records Tx Merkle Wire Validation TxTyped UserPost Fee Pinboard AppState Ledger Processors VerifiedProof Deliver Epoch Storage Snapshot Commit Slots Capacity Feed Mempool Exchange Paging Prefix Indexer RestApi RestReads.

(** ** Types *)

Record PostMessageSubmitRequest : Type := mkSubmitRequest {
  sr_user : PostMessageUserRequest;
  sr_message_b64 : string;
  sr_idempotency_key : option string;
}.

Record PostMessageSubmitResponse : Type := mkSubmitResponse {
  sa_status : string;
  sa_message_id : string;
  sa_content_key : string;
  sa_tx_hash : string;
  sa_origin_validator : string;
  sa_received_timestamp : Z;
  sa_content_path : option string;
}.

Definition submitted (message_id content_key tx_hash origin_validator : string)
    (received_timestamp : Z) (content_path : option string) : PostMessageSubmitResponse :=
  mkSubmitResponse "submitted" message_id content_key tx_hash origin_validator received_timestamp
    content_path.

Record PinboardPostsQueryParams : Type := mkPostsQueryParams {
  pp_order : option PinboardGlobalFeedOrder;
  pp_page : option nat;
  pp_page_size : option nat;
  pp_wallet : option string;
  pp_include_expired : option bool;
}.

Record PinboardRestPagination : Type := mkRestPagination {
  rp_page : nat;
  rp_page_size : nat;
  rp_has_more : bool;
  rp_next_cursor : option string;
}.

Record PinboardRestPostItem : Type := mkPostItem {
  pi_cado_path : string;
  pi_meta : PinboardMessageMetadata;
  pi_message_b64 : option string;
  pi_blob_status : string;
}.

Record PinboardPostsResponse : Type := mkPostsResponse {
  ps_items : list PinboardRestPostItem;
  ps_pagination : PinboardRestPagination;
}.

(** ** The JSON-RPC server *)

(** What comes back of a POST: nothing, an unsuccessful status, an unreadable
    body, or its text. *)
Inductive RpcReply : Type :=
| SendFailed
| StatusFailed (status : string)
| BodyFailed
| Body (text : string).

(** [Value::get] by a key. *)
Definition value_get (v : Value) (k : string) : option Value :=
  match v with JObject m => map_get m k | _ => None end.

Section pinboard_api.
Context {H : HexCrate} {HC : HashCrates} {B : Base64} {E : Ed25519} {SJ : SerdeJson} {J : TxJson}
  {S : SigningJson} {C : RecordCodecs} {BC : Bincode CadoBody}.

(** How the answer of [broadcast_tx_sync] is read. *)
Definition rpc_answer (response_text : string) : result ApiError unit :=
  match value_from_str response_text with
  | None => Err (InternalServerError "Failed to parse Tendermint RPC response")
  | Some rpc_response =>
      match value_get rpc_response "error" with
      | Some _ => Err (InternalServerError "Transaction submission failed")
      | None =>
          match (result ← value_get rpc_response "result"; check_tx ← value_get result "check_tx";
                 code ← value_get check_tx "code"; value_as_u64 code) with
          | Some code_value =>
              if negb (code_value =? 0) then Err (InternalServerError "Transaction validation failed")
              else Ok tt
          | None => Ok tt
          end
      end
  end.

(** The answer, with the texts sent. *)
Definition submit_transaction_to_tendermint (rpc : string → RpcReply) (tx : Tx) :
    result ApiError unit * list string :=
  match tx_to_json tx with
  | None => (Err (InternalServerError "Failed to serialize transaction"), [])
  | Some tx_json =>
      let tx_base64 := base64_encode (as_bytes (hex_encode (as_bytes tx_json))) in
      (match rpc tx_base64 with
       | SendFailed => Err (InternalServerError "Failed to send transaction to Tendermint")
       | StatusFailed status =>
           Err (InternalServerError (String.append "Tendermint RPC request failed with status: " status))
       | BodyFailed => Err (InternalServerError "Failed to read Tendermint RPC response")
       | Body response_text => rpc_answer response_text
       end, [tx_base64])
  end.

Definition load_pinboard_blob_from_capacity_slots (capacity_manager : CapacityManager)
    (content_key : string) : result ApiError (option bytes) :=
  match get_content_from_slots content_key capacity_manager with
  | Ok b => Ok b
  | Err _ => Err (InternalServerError "Failed to read content from slots")
  end.

(** ** Submission *)

Definition PINBOARD_TEMP_BLOB_TTL_SECS : Z := 15 * 60.

(** The checks on the body of the request, up to the namespace: the message
    and its signer. *)
Definition check_body (db : Database) (protocol : ProtocolConstants) (body : PostMessageSubmitRequest) :
    result ApiError (bytes * Address) :=
  match base64_decode (sr_message_b64 body) with
  | None => Err (BadRequest "invalid_base64_message")
  | Some [] => Err (BadRequest "empty_message")
  | Some message_bytes =>
      if max_pinboard_message_bytes protocol <? Z.of_nat (length message_bytes)
      then Err (PayloadTooLarge (max_pinboard_message_bytes protocol) (Z.of_nat (length message_bytes)))
      else
        match validate_post_message_user_signature message_bytes (sr_user body) with
        | None => Err (BadRequest "invalid_user_signature")
        | Some _ =>
            match parse_hex_str (ur_original_signer (sr_user body)) with
            | Err _ => Err (BadRequest "invalid_original_signer")
            | Ok original_signer_addr =>
                match validate_namespace_upload_authorization (ur_namespace (sr_user body))
                        original_signer_addr
                        (lookup_namespace_record_from_storage (database_reads db)) with
                | Err _ => Err (BadRequest "invalid_namespace")
                | Ok _ => Ok (message_bytes, original_signer_addr)
                end
            end
        end
  end.

(** The message is kept for its commit unless the slots hold it already. *)
Definition store_temp_blob (cm : CapacityManager) (content_key : string) (message_bytes : bytes)
    (temp_blob_expires_at : Z) (db : Database) : result ApiError unit * Database :=
  match load_pinboard_blob_from_capacity_slots cm content_key with
  | Err e => (Err e, db)
  | Ok (Some _) => (Ok tt, db)
  | Ok None =>
      match extend_pinboard_temp_blob_ttl content_key temp_blob_expires_at db with
      | (true, db) => (Ok tt, db)
      | (false, db) => (Ok tt, put_pinboard_temp_blob content_key message_bytes temp_blob_expires_at db)
      end
  end.

(** The validator's account, read from storage. *)
Definition validator_account (db : Database) (validator_address : Address) : result ApiError Account :=
  match CadoPath_new Cado_Account (Key_Address validator_address) with
  | Err _ => Err (InternalServerError "account_path")
  | Ok sender_path =>
      match db_get_cado_by_path db sender_path with
      | Ok (Some (Mutable cado_mut)) =>
          match Account_deserialize_bin (cadomut_data cado_mut) with
          | Ok account => Ok account
          | Err _ => Err (InternalServerError "account_deserialize")
          end
      | Ok (Some _) => Err (InternalServerError "invalid_account_cado")
      | Ok None => Err (BadRequest "validator_account_not_found")
      | Err _ => Err (InternalServerError "account_lookup_failed")
      end
  end.

(** The fee the transaction pays: the dynamic fee of a copy with a dummy
    signature, and 200 base units on top. *)
Definition fee_with_buffer (protocol : ProtocolConstants) (wallet : Wallet) (validator_tx_nonce : Nonce)
    (post_inner : PostMessageTx) : result ApiError Coin :=
  let tx_for_fee := Tx_new validator_tx_nonce (Payload_new (PostMessage post_inner))
                      (hex_encode (verifying_key_of (wallet_key wallet))) in
  match TxSig_new DUMMY_TX_SIG with
  | Err _ => Err (InternalServerError "invalid_dummy_signature")
  | Ok dummy =>
      match calculate_dynamic_fee (with_sig tx_for_fee dummy) (fee_config protocol) with
      | Err _ => Err (InternalServerError "fee_calculation_failed")
      | Ok dynamic_fee =>
          match Coin_new 200 with
          | Err _ => Err (InternalServerError "fee_buffer")
          | Ok fee_buffer => Ok (default dynamic_fee (Coin_checked_add dynamic_fee fee_buffer))
          end
      end
  end.

(** [Wallet::sign_post_message_chain_tx] *)
Definition sign_post_message_chain_tx (wallet : Wallet) (message_bytes : bytes)
    (user_request : PostMessageUserRequest) (validator_tx_nonce : Nonce) (received_timestamp : Z)
    (chain_id : string) (tx_fee : Z) : option Tx :=
  validate_message_and_build_post_message_tx message_bytes user_request (wallet_key wallet)
    (nonce_value validator_tx_nonce) received_timestamp chain_id tx_fee.

(** The signed transaction: the account, its next nonce, the payload, the fee
    and the signature. *)
Definition build_post (db : Database) (protocol : ProtocolConstants) (wallet : Wallet) (chain_id : string)
    (received_timestamp : Z) (message_bytes : bytes) (original_signer_addr : Address)
    (user : PostMessageUserRequest) : result ApiError Tx :=
  let? sender_account := validator_account db (wallet_address wallet) in
  match Nonce_next (acc_nonce sender_account) with
  | None => Err (InternalServerError "nonce_overflow")
  | Some validator_tx_nonce =>
      match post_message_of (wallet_address wallet) original_signer_addr user received_timestamp with
      | Err _ => Err (BadRequest "invalid_post_message_payload")
      | Ok post_inner =>
          let? fee := fee_with_buffer protocol wallet validator_tx_nonce post_inner in
          if Coin_ltb (acc_balance sender_account) fee
          then Err (BadRequest "validator_insufficient_balance_for_fee")
          else
            ok_or (sign_post_message_chain_tx wallet message_bytes user validator_tx_nonce
                     received_timestamp chain_id (coin_amount fee))
              (BadRequest "build_post_message_tx_failed")
      end
  end.

(** The answer to an accepted submission. *)
Definition submit_response (validator_address : Address) (received_timestamp : Z) (tx_json : string)
    (user : PostMessageUserRequest) : result ApiError PostMessageSubmitResponse :=
  let tx_hash := hex_encode (sha256 (as_bytes tx_json)) in
  match resolve_optional_namespace (ur_namespace user) with
  | Err _ => Err (BadRequest "invalid_namespace")
  | Ok ns =>
      Ok (submitted (ur_message_id user) (ur_content_key user) tx_hash
            (hex_with_prefix validator_address) received_timestamp
            ((λ ns, pinboard_namespace_content_path ns (ur_message_id user)) <$> ns))
  end.

(** [handle_pinboard_submit] after the limiter: the answer, the database and
    what was sent to the JSON-RPC server.  [wallet] is the answer of the wallet
    store for the validator's name, [unix_now] the system clock. *)
Definition pinboard_submit (db : Database) (protocol : option ProtocolConstants)
    (cm : CapacityManager) (wallet : eld_result (option Wallet)) (chain_id : string)
    (rpc : string → RpcReply) (unix_now : Z) (body : PostMessageSubmitRequest) :
    result ApiError PostMessageSubmitResponse * Database * list string :=
  match protocol with
  | None => (Err (ServiceUnavailable "protocol_constants_unavailable"), db, [])
  | Some protocol =>
      match check_body db protocol body with
      | Err e => (Err e, db, [])
      | Ok (message_bytes, original_signer_addr) =>
          match wallet with
          | Err _ | Ok None => (Err (ServiceUnavailable "validator_wallet_missing"), db, [])
          | Ok (Some wallet) =>
              let temp_blob_expires_at := saturating_add u64_max unix_now PINBOARD_TEMP_BLOB_TTL_SECS in
              match store_temp_blob cm (ur_content_key (sr_user body)) message_bytes
                      temp_blob_expires_at db with
              | (Err e, db) => (Err e, db, [])
              | (Ok _, db) =>
                  match build_post db protocol wallet chain_id unix_now message_bytes
                          original_signer_addr (sr_user body) with
                  | Err e => (Err e, db, [])
                  | Ok signed_tx =>
                      match tx_to_json signed_tx with
                      | None => (Err (InternalServerError "tx_serialize"), db, [])
                      | Some tx_json =>
                          match submit_transaction_to_tendermint rpc signed_tx with
                          | (Err e, sent) => (Err e, db, sent)
                          | (Ok _, sent) =>
                              (submit_response (wallet_address wallet) unix_now tx_json (sr_user body),
                               db, sent)
                          end
                      end
                  end
              end
          end
      end
  end.

Definition handle_pinboard_submit (headers : HeaderMap) (now : Z) (db : Database)
    (protocol : option ProtocolConstants) (cm : CapacityManager) (wallet : eld_result (option Wallet))
    (chain_id : string) (rpc : string → RpcReply) (unix_now : Z) (body : PostMessageSubmitRequest)
    (rl : RateLimitState) :
    result ApiError PostMessageSubmitResponse * Database * list string * RateLimitState :=
  match check_rate_limit Upload headers now rl with
  | (Err e, rl) => (Err e, db, [], rl)
  | (Ok _, rl) => (pinboard_submit db protocol cm wallet chain_id rpc unix_now body, rl)
  end.

(** ** Reading *)

Definition parse_pinboard_post_cado_path (path : string) : result ApiError (string * string) :=
  match List.filter (λ p, negb (String.eqb p EmptyString)) (split_on "/"%char path) with
  | [root; pinboard; post; wallet_part; message_id] =>
      if negb (String.eqb root SCOPE_ELD_ROOT) || negb (String.eqb pinboard "pinboard") ||
         negb (String.eqb post "post")
      then Err (BadRequest "Invalid pinboard post path")
      else
        match parse_hex_str wallet_part with
        | Err _ => Err (BadRequest "Invalid wallet in path")
        | Ok wallet =>
            if String.eqb message_id EmptyString then Err (BadRequest "Invalid pinboard post path")
            else Ok (hex_with_prefix wallet, message_id)
        end
  | _ => Err (BadRequest "Invalid pinboard post path")
  end.

Definition current_committed_height (committed_state : AppState) : Z :=
  Z.max (block_height (envelope committed_state)) 0.

Definition pinboard_blob_fields (meta : PinboardMessageMetadata) (current_height : Z)
    (blob_bytes : option bytes) : option string * string :=
  if pm_expires_height meta <=? current_height then (None, "expired")
  else match blob_bytes with
       | Some b => (Some (base64_encode b), "available")
       | None => (None, "missing")
       end.

(** The item of a post: the blob is only read before the expiry. *)
Definition post_item (cm : CapacityManager) (current_height : Z) (meta : PinboardMessageMetadata) :
    result ApiError PinboardRestPostItem :=
  let? blob_bytes :=
    if pm_expires_height meta <=? current_height then Ok None
    else load_pinboard_blob_from_capacity_slots cm (pm_content_key meta) in
  let '(message_b64, blob_status) := pinboard_blob_fields meta current_height blob_bytes in
  Ok (mkPostItem (pinboard_response_cado_path meta) meta message_b64 blob_status).

(** The loop over the ids of a page. *)
Fixpoint post_items (db : Database) (cm : CapacityManager) (current_height : Z) (include_expired : bool)
    (ids : list string) : result ApiError (list PinboardRestPostItem) :=
  match ids with
  | [] => Ok []
  | message_id :: ids =>
      match pinboard_meta_cf db !! message_id with
      | None => post_items db cm current_height include_expired ids
      | Some meta =>
          if negb include_expired && (pm_expires_height meta <=? current_height)
          then post_items db cm current_height include_expired ids
          else
            let? item := post_item cm current_height meta in
            let? items := post_items db cm current_height include_expired ids in
            Ok (item :: items)
      end
  end.

(** [handle_get_pinboard_posts] after the limiter; the storage has a limiter of
    its own. *)
Definition get_pinboard_posts (db : Database) (committed : AppState) (cm : CapacityManager)
    (headers : HeaderMap) (params : PinboardPostsQueryParams) (now : Z) (prl : PrefixQueryRateLimiter) :
    result ApiError PinboardPostsResponse * PrefixQueryRateLimiter :=
  let page := default 0%nat (pp_page params) in
  let page_size := default 100%nat (pp_page_size params) in
  let include_expired := default true (pp_include_expired params) in
  if (page_size =? 0)%nat || (100 <? page_size)%nat then (Err (BadRequest "Invalid page_size"), prl)
  else
    let options := with_pagination PrefixQueryOptions_default (mkPaginationParams page page_size) in
    let options := mkPrefixQueryOptions (pq_pagination options) (pq_max_results options)
                     (pq_max_memory_bytes options) (extract_client_id headers) in
    let '(ids_page, prl) :=
      match pp_wallet params with
      | Some wallet_raw =>
          match parse_hex_str wallet_raw with
          | Err _ => (Err (BadRequest "Invalid wallet"), prl)
          | Ok wallet =>
              match get_pinboard_message_ids_by_wallet_secure db (hex_with_prefix wallet) options now prl with
              | (Err _, prl) => (Err (InternalServerError "Failed to list wallet pinboard posts"), prl)
              | (Ok p, prl) => (Ok p, prl)
              end
          end
      | None =>
          match get_pinboard_message_ids_global_secure db (default Desc (pp_order params)) options now prl with
          | (Err _, prl) => (Err (InternalServerError "Failed to list pinboard posts"), prl)
          | (Ok p, prl) => (Ok p, prl)
          end
      end in
    (let? ids_page := ids_page in
     let? items := post_items db cm (current_committed_height committed) include_expired (pr_items ids_page) in
     Ok (mkPostsResponse items
           (mkRestPagination (pr_page _ ids_page) (pr_page_size _ ids_page) (pr_has_more ids_page)
              (pr_next_cursor _ ids_page))),
     prl).

Definition handle_get_pinboard_posts (db : Database) (committed : AppState) (cm : CapacityManager)
    (headers : HeaderMap) (params : PinboardPostsQueryParams) (now : Z) (prl : PrefixQueryRateLimiter)
    (rl : RateLimitState) :
    result ApiError PinboardPostsResponse * PrefixQueryRateLimiter * RateLimitState :=
  match check_rate_limit General headers now rl with
  | (Err e, rl) => (Err e, prl, rl)
  | (Ok _, rl) => (get_pinboard_posts db committed cm headers params now prl, rl)
  end.

(** The metadata of a path: by message id under the Eld scope, by the path
    itself in a namespace. *)
Definition post_at_path (db : Database) (path : string) : result ApiError PinboardMessageMetadata :=
  if path_uses_eld_pinboard_lookup path then
    let? wallet_id := parse_pinboard_post_cado_path path in
    match pinboard_meta_cf db !! wallet_id.2 with
    | None => Err (NotFound "pinboard_message" wallet_id.2)
    | Some meta =>
        if negb (String.eqb (hex_with_prefix (pm_original_signer meta)) wallet_id.1)
        then Err (NotFound "pinboard_message" (String.append wallet_id.1 (String "/" wallet_id.2)))
        else Ok meta
    end
  else
    match parse_pinboard_namespace_content_path path with
    | Err _ => Err (BadRequest "Invalid pinboard namespace path")
    | Ok (expected_namespace, _) =>
        match pinboard_meta_cf db !! path with
        | None => Err (NotFound "pinboard_message" path)
        | Some meta =>
            if bool_decide (pm_namespace meta = Some expected_namespace) then Ok meta
            else Err (NotFound "pinboard_message" path)
        end
    end.

Definition handle_get_pinboard_post_by_path (db : Database) (committed : AppState) (cm : CapacityManager)
    (headers : HeaderMap) (path : string) (now : Z) (rl : RateLimitState) :
    result ApiError PinboardRestPostItem * RateLimitState :=
  read_limited General headers now rl
    (let? meta := post_at_path db path in
     post_item cm (current_committed_height committed) meta).
End pinboard_api.
