(* ===== verification/PinboardFlow.v ===== *)
(** A pinboard post on its way through the node: submitted over REST
    ([PinboardApi.v]), delivered in a block ([Processors.v]), committed
    ([Commit.v]) and read again.  Nothing is modelled here. *)
From S2P Require Import Prelude Externals Reference Coins Address Ordering Namespace Cado Records Tx Merkle Wire Validation TxTyped UserPost Fee Pinboard AppState Ledger Processors VerifiedProof Deliver Epoch Storage Snapshot Commit Slots Capacity Feed Sync Mempool Exchange Paging Prefix Indexer RestApi RestReads PinboardApi.

(** ** Submission *)

Section submission.
Context {H : HexCrate} {HL : HexLaws H} {HC : HashCrates} {B : Base64} {E : Ed25519} {EL : Ed25519Laws E}
  {SJ : SerdeJson} {J : TxJson} {S : SigningJson} {C : RecordCodecs} {BC : Bincode CadoBody}.

Lemma check_body_Ok db p body m signer :
  check_body db p body = Ok (m, signer) →
  base64_decode (sr_message_b64 body) = Some m ∧ m ≠ [] ∧
  Z.of_nat (length m) ≤ max_pinboard_message_bytes p ∧
  (∃ tags signed, request_authentic m (sr_user body) signer tags signed) ∧
  is_Some (ok (validate_namespace_upload_authorization (ur_namespace (sr_user body)) signer
    (lookup_namespace_record_from_storage (database_reads db)))).
Proof.
  unfold check_body. destruct (base64_decode _) as [b|]; [|done]. destruct b as [|x b]; [done|].
  destruct (_ <? _) eqn:El; [done|]. destruct (validate_post_message_user_signature _ _) as [[]|] eqn:Ev; [|done].
  apply validate_sound in Ev as (s & tags & signed & Ha). rewrite (ra_signer _ _ _ _ _ Ha).
  destruct (validate_namespace_upload_authorization _ _ _) as [r|] eqn:En; [|done]. intros [= <- <-].
  eld_bool. rewrite En. split_and!; try done; eauto.
Qed.

(** What is kept of a message for its commit. *)
Lemma store_temp_blob_Ok cm key m exp db db' :
  store_temp_blob cm key m exp db = (Ok tt, db') →
  (is_Some (ok (get_content_from_slots key cm)) ∧ get_content_from_slots key cm ≠ Ok None ∧ db' = db) ∨
  (get_content_from_slots key cm = Ok None ∧ ∃ r, exp ≤ temp_expires_at_unix r ∧
     temp_blob r = match pinboard_temp_blobs_cf db !! key with Some old => temp_blob old | None => m end ∧
     db' = set_pinboard_temp_blobs_cf (<[key := r]> (pinboard_temp_blobs_cf db)) db).
Proof.
  unfold store_temp_blob, load_pinboard_blob_from_capacity_slots, extend_pinboard_temp_blob_ttl.
  destruct (get_content_from_slots key cm) as [[c|]|]; [|..|done].
  { intros [= <-]. left. by split_and!. }
  intros Hs. right. split; [done|]. destruct (pinboard_temp_blobs_cf db !! key) as [old|] eqn:Eo.
  - destruct (_ =? _) eqn:Em; injection Hs as <-; eld_bool.
    + exists old. split_and!; [lia|done|]. rewrite insert_id by done. by destruct db.
    + exists (mkTempBlobRecord (temp_blob old) (Z.max exp (temp_expires_at_unix old))).
      split_and!; [cbn; lia|done|done].
  - injection Hs as <-. exists (mkTempBlobRecord m exp). split_and!; [cbn; lia|done|done].
Qed.

Lemma build_post_Ok db p w chain now m signer user tx :
  build_post db p w chain now m signer user = Ok tx →
  ∃ account n t fee,
    validator_account db (wallet_address w) = Ok account ∧ Nonce_next (acc_nonce account) = Some n ∧
    post_message_of (wallet_address w) signer user now = Ok t ∧
    fee_with_buffer p w n t = Ok fee ∧ coin_amount fee ≤ coin_amount (acc_balance account) ∧
    sign_post_message_chain_tx w m user n now chain (coin_amount fee) = Some tx.
Proof.
  unfold build_post. destruct (validator_account _ _) as [account|] eqn:E1; [|done].
  destruct (Nonce_next _) as [n|] eqn:E2; [|done]. destruct (post_message_of _ _ _ _) as [t|] eqn:E3; [|done].
  destruct (fee_with_buffer _ _ _ _) as [fee|] eqn:E4; [|done].
  destruct (Coin_ltb _ _) eqn:El; [done|].
  destruct (sign_post_message_chain_tx _ _ _ _ _ _ _) as [tx'|] eqn:E5; [|done]. intros [= <-].
  unfold Coin_ltb in El. eld_bool. exists account, n, t, fee. by split_and!.
Qed.

(** The transaction a submission sends. *)
Record post_transaction (w : Wallet) (chain : string) (now : Z) (m : bytes) (user : PostMessageUserRequest)
    (account : Account) (tx : Tx) (t : PostMessageTx) : Prop := {
  pt_verifies : Tx_verify tx chain = Ok true;
  pt_payload : payload_inner (tx_payload tx) = PostMessage t;
  pt_nonce : Nonce_next (acc_nonce account) = Some (tx_nonce tx);
  pt_fee : tx_fee tx ≤ coin_amount (acc_balance account);
  pt_sender : post_sender t = wallet_address w;
  pt_request : ∃ tags signed, request_authentic m user (post_original_signer t) tags signed ∧
    post_tags t = tags ∧ post_user_signature t = ur_user_signature user;
  pt_ids : post_content_key t = ur_content_key user ∧ post_message_id t = ur_message_id user ∧
    post_received_timestamp t = now ∧ post_expires_height t = ur_expires_height user;
  pt_namespace : resolve_optional_namespace (ur_namespace user) = Ok (post_namespace t);
}.

Lemma built_post_transaction db p w chain now m signer user tx :
  from_public_key (verifying_key_of (wallet_key w)) = Ok (wallet_address w) →
  (∃ tags signed, request_authentic m user signer tags signed) →
  build_post db p w chain now m signer user = Ok tx →
  ∃ account t, validator_account db (wallet_address w) = Ok account ∧
    post_transaction w chain now m user account tx t.
Proof.
  intros Hw (tags & signed & Ha) (account & n & t & fee & Hacc & Hn & Ht & _ & Hfee & Hs)%build_post_Ok.
  unfold sign_post_message_chain_tx in Hs.
  destruct (build_post_tx_Some _ _ _ _ _ _ _ _ Hs)
    as (v & signer' & tags' & signed' & t' & Ha' & Hv & Ht' & Hp & Hnn & Hf & Hver).
  assert (v = wallet_address w) as -> by congruence.
  assert (signer' = signer) as ->.
  { pose proof (ra_signer _ _ _ _ _ Ha) as E1. rewrite (ra_signer _ _ _ _ _ Ha') in E1. by injection E1. }
  assert (t' = t) as -> by congruence. exists account, t. split; [done|].
  destruct (post_message_of_Ok Ht) as (E1 & E2 & E3 & E4 & E5 & _ & E6 & E7 & E8 & E9 & _).
  split; try done.
  - rewrite Hn, Hnn. by destruct n.
  - by rewrite Hf.
  - exists tags', signed'. rewrite E2. split_and!; try done.
    pose proof (ra_tags _ _ _ _ _ Ha') as E10. congruence.
Qed.

(** C15. An accepted submission has sent exactly one transaction, which verifies
    as the validator's, uses the next nonce of its account and a fee the
    account can pay, and carries the request of a user who signed the message;
    the message is within the limit, its author may post in the namespace, and
    its bytes are kept for the commit - under the digest of the content, for at
    least a quarter of an hour - unless the capacity slots hold them, in which
    case the database is left as it is. *)
Theorem submission_sound (db db' : Database) (p : ProtocolConstants) (cm : CapacityManager) (w : Wallet)
    (chain : string) (rpc : string → RpcReply) (now : Z) (body : PostMessageSubmitRequest)
    (a : PostMessageSubmitResponse) (sent : list string) :
  from_public_key (verifying_key_of (wallet_key w)) = Ok (wallet_address w) →
  pinboard_submit db (Some p) cm (Ok (Some w)) chain rpc now body = (Ok a, db', sent) →
  let user := sr_user body in
  ∃ m tx t json account,
    base64_decode (sr_message_b64 body) = Some m ∧
    0 < Z.of_nat (length m) ≤ max_pinboard_message_bytes p ∧
    is_Some (ok (validate_namespace_upload_authorization (ur_namespace user) (post_original_signer t)
      (lookup_namespace_record_from_storage (database_reads db)))) ∧
    validator_account db' (wallet_address w) = Ok account ∧
    post_transaction w chain now m user account tx t ∧
    tx_to_json tx = Some json ∧ sent = [base64_encode (as_bytes (hex_encode (as_bytes json)))] ∧
    sa_message_id a = ur_message_id user ∧ sa_content_key a = hex_encode (sha256 m) ∧
    sa_content_path a = (λ ns, pinboard_namespace_content_path ns (ur_message_id user)) <$> post_namespace t ∧
    ((get_content_from_slots (ur_content_key user) cm ≠ Ok None ∧ db' = db) ∨
     (get_content_from_slots (ur_content_key user) cm = Ok None ∧ ∃ r,
        saturating_add u64_max now PINBOARD_TEMP_BLOB_TTL_SECS ≤ temp_expires_at_unix r ∧
        temp_blob r = match pinboard_temp_blobs_cf db !! ur_content_key user with
                      | Some old => temp_blob old | None => m end ∧
        db' = set_pinboard_temp_blobs_cf (<[ur_content_key user := r]> (pinboard_temp_blobs_cf db)) db)).
Proof.
  intros Hw Hs user. unfold pinboard_submit in Hs.
  destruct (check_body db p body) as [[m signer]|] eqn:Eb; [|done]. cbv zeta in Hs.
  destruct (check_body_Ok _ _ _ _ _ Eb) as (Hm & Hne & Hl & Hauth & Hns).
  destruct (store_temp_blob _ _ _ _ _) as [[[]|] db1] eqn:Est; [|done].
  destruct (build_post _ _ _ _ _ _ _ _) as [tx|] eqn:Etx; [|done].
  destruct (tx_to_json tx) as [json|] eqn:Ej; [|done].
  destruct (submit_transaction_to_tendermint rpc tx) as [[[]|] snt] eqn:Esub; [|done].
  injection Hs as Ha <- <-.
  destruct (built_post_transaction _ _ _ _ _ _ _ _ _ Hw Hauth Etx) as (account & t & Hacc & Hpt).
  destruct Hauth as (tags & signed & Hauth).
  destruct (pt_request _ _ _ _ _ _ _ _ Hpt) as (tags' & signed' & Hauth' & _).
  assert (post_original_signer t = signer) as Hsig.
  { pose proof (ra_signer _ _ _ _ _ Hauth) as E1. rewrite (ra_signer _ _ _ _ _ Hauth') in E1. by injection E1. }
  exists m, tx, t, json, account. rewrite Hsig.
  unfold submit_transaction_to_tendermint in Esub. rewrite Ej in Esub. injection Esub as _ <-.
  unfold submit_response in Ha. rewrite (pt_namespace _ _ _ _ _ _ _ _ Hpt) in Ha. injection Ha as <-.
  pose proof (ra_content_key _ _ _ _ _ Hauth) as Hck.
  assert (0 < Z.of_nat (length m)) by (destruct m; [done|cbn; lia]).
  split_and!; try done.
  destruct (store_temp_blob_Ok _ _ _ _ _ _ Est) as [(_ & Hc & ->)|(Hc & r & Hr)]; [left; by split|right].
  split; [done|]. by exists r.
Qed.
End submission.

(** ** Delivery *)

Section delivery.
Context {H : HexCrate} {HL : HexLaws H} {HC : HashCrates} {C : RecordCodecs} {E : Ed25519}
  (protocol : ProtocolConstants).

(** What is recorded of a post delivered on [e]. *)
Definition post_metadata (t : PostMessageTx) (e : AppStateEnvelope) : PinboardMessageMetadata :=
  let committed_height := as_u64 (wrap_i64 (block_height e + 1)) in
  let ttl := if post_expires_height t =? 0 then default_pinboard_post_ttl_blocks protocol
             else post_expires_height t in
  mkPinboardMessageMetadata (post_message_id t) (post_original_signer t) (post_content_key t)
    (post_content_type t) (saturating_add u64_max committed_height ttl) (post_visibility t)
    (post_topic t) (post_tags t) committed_height (post_received_timestamp t) (post_namespace t).

(** The author may post in the namespace, if there is one. *)
Definition may_post (t : PostMessageTx) (e : AppStateEnvelope) : Prop :=
  is_Some (ok (validate_namespace_upload_authorization (post_namespace t) (post_original_signer t)
    (resolve_namespace e))).

Record post_staged (t : PostMessageTx) (e e' : AppStateEnvelope) : Prop := {
  ps_meta : pinboard_meta_cache e' = <[post_message_id t := post_metadata t e]> (pinboard_meta_cache e);
  ps_wallet : pinboard_idx_wallet_add e' = pinboard_idx_wallet_add e ++
    [(hex_with_prefix (post_original_signer t), pm_committed_height (post_metadata t e), post_message_id t)];
  ps_height : block_height e' = block_height e;
  ps_objects : cado_cache e' = cado_cache e;
}.

Lemma post_accepted (t : PostMessageTx) (e : AppStateEnvelope) :
  may_post t e →
  ∃ e', run (process_post_message_tx protocol t) e = Some (resp_ok [], e') ∧ post_staged t e e'.
Proof.
  intros [ns Hns%ok_Some]. unfold run, process_post_message_tx, get_state, modify, mret, mbind,
    handler_ret, handler_bind, or_return. rewrite Hns. eexists. split; [reflexivity|].
  split; destruct e; reflexivity.
Qed.
End delivery.

(** ** Commit *)

Section commit_flow.
Context {H : HexCrate} {HL : HexLaws H} {HC : HashCrates} {C : RecordCodecs} {E : Ed25519}
  {R : RandCrate} {T : TrieCrate} {SC : SnapshotCodecs} (protocol : ProtocolConstants).

(** A staged post whose message is not kept stops the commit. *)
Lemma commit_without_blob db s id m :
  pinboard_meta_cache (envelope s) !! id = Some m →
  pinboard_temp_blobs_cf db !! pm_content_key m = None →
  commit protocol db (Some s) = None.
Proof.
  intros Hm Hb. unfold commit. cbn [mbind option_bind].
  destruct (bool_decide (app_hash s = None)); [done|].
  change (if current_epoch (envelope s) <? _ then _ else s) with (selected protocol s).
  destruct (selected_spec protocol s) as [vs ->].
  change (cado_cache_to_delete (envelope (set_envelope _ s))) with (cado_cache_to_delete (envelope s)).
  destruct (commit_deletes _ _ _) as [tx|]; [|done]. cbn [mbind option_bind].
  destruct (commit_objects _ _) as [tx1 failed].
  match goal with |- context [commit_pinboard db ?x _] => set (e := x) end.
  assert (pinboard_meta_cache e = pinboard_meta_cache (envelope s)) as He.
  { unfold e, remove_deleted. by destruct (envelope s). }
  assert (commit_pinboard db e tx1 = None) as ->; [|done].
  unfold commit_pinboard. rewrite He.
  destruct (forallb _ (map_to_list (pinboard_meta_cache (envelope s)))) eqn:Ef; [|done].
  exfalso. rewrite forallb_forall in Ef.
  assert (In (id, m) (map_to_list (pinboard_meta_cache (envelope s)))) as Hin
    by by apply list_elem_of_In, elem_of_map_to_list.
  specialize (Ef _ Hin). apply bool_decide_eq_true in Ef. cbn [snd] in Ef. rewrite Hb in Ef. by destruct Ef.
Qed.

(** C37. A node stops at the commit of a block with a post whose message bytes
    it does not keep: delivery accepts the post, and whatever else the block
    does, as long as that post stays staged, the commit ends the process.  Only
    the node a post was submitted to keeps its bytes. *)
Theorem post_without_blob_stops_node (db : Database) (t : PostMessageTx) (e : AppStateEnvelope) :
  may_post t e → pinboard_temp_blobs_cf db !! post_content_key t = None →
  ∃ e', run (process_post_message_tx protocol t) e = Some (resp_ok [], e') ∧
    pinboard_meta_cache e' !! post_message_id t = Some (post_metadata protocol t e) ∧
    ∀ s, pinboard_meta_cache (envelope s) !! post_message_id t = Some (post_metadata protocol t e) →
      commit protocol db (Some s) = None.
Proof.
  intros Hp Hb. destruct (post_accepted protocol t e Hp) as (e' & Hr & Hs). exists e'. split_and!; [done| |].
  - rewrite (ps_meta _ _ _ _ Hs). apply lookup_insert_eq.
  - intros s Hm. by apply (commit_without_blob db s (post_message_id t) (post_metadata protocol t e)).
Qed.
End commit_flow.

(** ** Authorship *)

Section authorship.
Context {H : HexCrate} {HL : HexLaws H} {HC : HashCrates} {C : RecordCodecs} {E : Ed25519}
  {EL : Ed25519Laws E} {J : TxJson} {R : RandCrate} (rd : StorageReads) (protocol : ProtocolConstants).

(** C38. Consensus does not check who wrote a post: whoever has a key signs a
    transaction with a post in the name of the owner of a namespace, with any
    text as the owner's signature; it verifies, its processing succeeds, and
    the post is recorded and indexed as the owner's, in the owner's namespace. *)
Theorem posts_can_be_forged (sk : signing_key) (attacker : Address) (n fee : Z) (chain : string)
    (t : PostMessageTx) (ns : string) (record : NamespaceRecord) (e : AppStateEnvelope)
    (signature pubkey : string) :
  from_public_key (verifying_key_of sk) = Ok attacker → (∀ tx, is_Some (signing_bytes tx chain)) →
  post_sender t = attacker → post_namespace t = Some ns →
  resolve_optional_namespace (Some ns) = Ok (Some ns) →
  resolve_namespace e ns = Ok (Some record) → post_original_signer t = ns_owner record →
  let forged := mkPostMessageTx (post_sender t) (post_original_signer t) pubkey (post_content_key t)
    (post_message_id t) (post_expires_height t) (post_visibility t) (post_topic t) (post_tags t)
    (post_content_type t) (post_fee_amount t) (post_received_timestamp t) signature (post_namespace t) in
  ∃ tx e', payload_inner (tx_payload tx) = PostMessage forged ∧ tx_nonce tx = mkNonce n ∧ tx_fee tx = fee ∧
    Tx_verify tx chain = Ok true ∧ run (process rd protocol tx) e = Some (resp_ok [], e') ∧
    pinboard_meta_cache e' !! post_message_id t = Some (post_metadata protocol t e) ∧
    pm_original_signer (post_metadata protocol t e) = ns_owner record ∧
    (hex_with_prefix (ns_owner record), pm_committed_height (post_metadata protocol t e), post_message_id t)
      ∈ pinboard_idx_wallet_add e'.
Proof.
  intros Hk Hj Hs Hn Hns Hres Ho forged.
  set (tx0 := mkTx TxSig_empty (mkNonce n) (Payload_new (PostMessage forged))
                (hex_encode (verifying_key_of sk)) fee).
  destruct (Hj tx0) as [b Hb].
  assert (Tx_sign tx0 sk chain = Ok (with_sig tx0 (hex_encode (ed_sign sk b)))) as Hsign
    by (unfold Tx_sign; by rewrite Hb).
  assert (may_post forged e) as Hmay.
  { unfold may_post, validate_namespace_upload_authorization.
    cbn [post_namespace post_original_signer forged]. rewrite Hn, Hns. cbv beta iota. rewrite Hres.
    cbn [ok_or]. rewrite bool_decide_true by done. by eexists. }
  destruct (post_accepted protocol forged e Hmay) as (e' & Hrun & Hst).
  exists (with_sig tx0 (hex_encode (ed_sign sk b))), e'. split_and!; try done.
  - rewrite (sign_then_verify tx0 _ sk chain attacker Hsign eq_refl Hk).
    cbn [tx_payload payload_inner Payload_new tx0 sender forged post_sender]. by rewrite bool_decide_true.
  - rewrite (ps_meta _ _ _ _ Hst). apply lookup_insert_eq.
  - rewrite (ps_wallet _ _ _ _ Hst). apply elem_of_app. right. apply list_elem_of_singleton.
    cbn [forged post_original_signer]. by rewrite Ho.
Qed.
End authorship.

(** ** The rows a commit leaves *)

Section rows.
Context {H : HexCrate} {HL : HexLaws H} {HC : HashCrates} {C : RecordCodecs} {E : Ed25519}
  {R : RandCrate} {T : TrieCrate} {SC : SnapshotCodecs} (protocol : ProtocolConstants).

Lemma put_keeps_meta path cado tx tx' :
  put_cado_type_with_tx path cado tx = Ok tx' → pinboard_meta_cf tx' = pinboard_meta_cf tx.
Proof.
  unfold put_cado_type_with_tx. intros Hp. repeat case_match; simplify_eq; done.
Qed.

Lemma foldl_keeps_meta {A} (f : Database → A → Database) l tx :
  (∀ tx a, pinboard_meta_cf (f tx a) = pinboard_meta_cf tx) →
  pinboard_meta_cf (foldl f tx l) = pinboard_meta_cf tx.
Proof. intros Hf. revert tx. induction l as [|a l IH]; intros tx; [done|]. cbn [foldl]. by rewrite IH. Qed.

Lemma commit_deletes_meta db l : ∀ tx tx',
  commit_deletes db l tx = Some tx' → pinboard_meta_cf tx' = pinboard_meta_cf tx.
Proof.
  induction l as [|d l IH]; intros tx tx'; cbn [commit_deletes]; [by intros [= <-]|].
  unfold system_delete_cado_with_tx. destruct (prepare_system_cado_deletion _ _ _); [|done].
  unfold delete_cado_associated_keys_with_tx. destruct (CadoPath_new _ _); [|done]. by intros ->%IH.
Qed.

Lemma commit_objects_meta cache tx : pinboard_meta_cf (commit_objects cache tx).1 = pinboard_meta_cf tx.
Proof.
  unfold commit_objects. generalize (@nil string). revert tx.
  induction (map_to_list cache) as [|[k c] l IH]; intros tx failed; [done|]. cbn [foldl commit_object].
  destruct (is_infrastructure_cado_path k); [apply IH|]. destruct (CadoPath_parse k); [|apply IH].
  destruct (put_cado_type_with_tx _ _ _) as [tx1|] eqn:Ep; [|apply IH].
  rewrite IH. by eapply put_keeps_meta.
Qed.

Lemma commit_namespaces_meta tx e : pinboard_meta_cf (commit_namespaces tx e).1 = pinboard_meta_cf tx.
Proof.
  unfold commit_namespaces.
  assert (∀ l st, pinboard_meta_cf (foldl commit_namespace st l).1 = pinboard_meta_cf st.1) as Hf.
  { induction l as [|[slug r] l IH]; intros [tx0 e0]; [done|]. cbn [foldl]. rewrite IH.
    unfold commit_namespace. destruct (slug_to_namespace_cadopath slug); [|done].
    destruct (NamespaceRecord_serialize_bin r); [|done].
    destruct (put_cado_type_with_tx _ _ _) eqn:Ep; [|done]. by eapply put_keeps_meta. }
  specialize (Hf (map_to_list (namespace_registry_cache e)) (tx, e)).
  destruct (foldl _ _ _) as [tx1 e1]. exact Hf.
Qed.

Lemma commit_tip_meta s tx tx' : commit_tip s tx = Some tx' → pinboard_meta_cf tx' = pinboard_meta_cf tx.
Proof.
  unfold commit_tip. destruct (AppHash_bytes _); [|done]. intros Hs.
  apply bind_Some in Hs as (ser & _ & Hs). cbv zeta in Hs.
  apply bind_Some in Hs as (p1 & _ & Hs). apply bind_Some in Hs as (p2 & _ & Hs).
  apply bind_Some in Hs as (tx1 & H1%ok_Some%put_keeps_meta & H2%ok_Some%put_keeps_meta). congruence.
Qed.

Lemma commit_snapshot_meta s tx tx' :
  commit_snapshot protocol s tx = Some tx' → pinboard_meta_cf tx' = pinboard_meta_cf tx.
Proof.
  unfold commit_snapshot. destruct (_ =? 0); [|by intros [= <-]]. intros Hs.
  apply bind_Some in Hs as (sn & _ & Hs). apply bind_Some in Hs as (c & _ & Hs).
  apply bind_Some in Hs as (p & _ & Hs%ok_Some%put_keeps_meta). done.
Qed.

Lemma commit_outcomes_meta e tx : pinboard_meta_cf (commit_outcomes e tx) = pinboard_meta_cf tx.
Proof.
  unfold commit_outcomes.
  rewrite (foldl_keeps_meta (λ tx id, put_verified_proof_challenge_failed_with_tx id tx)) by done.
  by rewrite (foldl_keeps_meta (λ tx id, put_verified_proof_challenge_rewarded_with_tx id tx)).
Qed.

Lemma update_refcounts_meta l : ∀ tx tx',
  update_refcounts l tx = Some tx' → pinboard_meta_cf tx' = pinboard_meta_cf tx.
Proof.
  induction l as [|[k d] l IH]; intros tx tx'; cbn [update_refcounts]; [by intros [= <-]|].
  unfold update_pinboard_refcount_with_tx. destruct (_ <? 0); [done|]. by intros ->%IH.
Qed.

(** The metadata rows of a block. *)
Definition put_metas (l : list (string * PinboardMessageMetadata)) (tx : Database) : Database :=
  foldl (λ tx m, put_pinboard_metadata_with_tx m.1 m.2 tx) tx l.

Lemma put_metas_ext l tx tx' :
  pinboard_meta_cf tx = pinboard_meta_cf tx' →
  pinboard_meta_cf (put_metas l tx) = pinboard_meta_cf (put_metas l tx').
Proof.
  unfold put_metas. revert tx tx'. induction l as [|[id m] l IH]; intros tx tx' He; [done|].
  cbn [foldl]. apply IH. unfold put_pinboard_metadata_with_tx. cbn. by rewrite He.
Qed.

Lemma commit_pinboard_meta db e tx tx' :
  commit_pinboard db e tx = Some tx' →
  pinboard_meta_cf tx' = pinboard_meta_cf (put_metas (map_to_list (pinboard_meta_cache e)) tx).
Proof.
  unfold commit_pinboard. cbv zeta. destruct (negb _); [done|]. intros Hs.
  apply bind_Some in Hs as (tx1 & Hr%update_refcounts_meta & [= <-]).
  rewrite (foldl_keeps_meta (λ tx k, delete_pinboard_temp_blob_with_tx k tx)) by done. rewrite Hr.
  rewrite (foldl_keeps_meta (λ tx r, put_pinboard_commit_index_with_tx r tx)) by done.
  rewrite (foldl_keeps_meta (λ tx r, put_pinboard_expiry_index_with_tx r tx)) by done.
  rewrite (foldl_keeps_meta (λ tx r, put_pinboard_tag_index_with_tx r tx)) by (by intros ? [[? ?] ?]).
  by rewrite (foldl_keeps_meta (λ tx r, put_pinboard_wallet_index_with_tx r tx)) by (by intros ? [[? ?] ?]).
Qed.

(** A commit writes the metadata of the staged posts and no other. *)
Lemma commit_meta db s s' db' h :
  commit protocol db (Some s) = Some (s', db', h) →
  pinboard_meta_cf db' =
  pinboard_meta_cf (put_metas (map_to_list (pinboard_meta_cache (envelope s))) db).
Proof.
  unfold commit. cbn [mbind option_bind]. destruct (bool_decide (app_hash s = None)); [done|].
  change (if current_epoch (envelope s) <? _ then _ else s) with (selected protocol s).
  destruct (selected_spec protocol s) as [vs ->].
  change (cado_cache_to_delete (envelope (set_envelope _ s))) with (cado_cache_to_delete (envelope s)).
  destruct (commit_deletes _ _ _) as [tx|] eqn:E1; [|done]. cbn [mbind option_bind].
  apply commit_deletes_meta in E1.
  pose proof (commit_objects_meta (cado_cache (remove_deleted (cado_cache_to_delete (envelope s))
    (envelope (set_envelope (set_active_validators vs (envelope s)) s)))) tx) as E2.
  destruct (commit_objects _ _) as [tx1 failed]. cbn [fst] in E2.
  match goal with |- context [commit_pinboard db ?x _] => set (e := x) end.
  assert (pinboard_meta_cache e = pinboard_meta_cache (envelope s)) as He.
  { unfold e, remove_deleted. by destruct (envelope s). }
  destruct (commit_pinboard db e tx1) as [tx2|] eqn:E3; [|done]. cbn [mbind option_bind].
  apply commit_pinboard_meta in E3. rewrite He in E3.
  pose proof (commit_outcomes_meta (clear_pinboard e) tx2) as E4.
  set (tx3 := commit_outcomes (clear_pinboard e) tx2) in *.
  pose proof (commit_namespaces_meta tx3 (clear_outcomes (clear_pinboard e))) as E5.
  destruct (commit_namespaces tx3 (clear_outcomes (clear_pinboard e))) as [tx4 e4]. cbn [fst] in E5.
  destruct (commit_tip _ tx4) as [tx5|] eqn:E6; [|done]. cbn [mbind option_bind].
  apply commit_tip_meta in E6.
  destruct (commit_snapshot _ _ tx5) as [tx6|] eqn:E7; [|done]. cbn [mbind option_bind].
  apply commit_snapshot_meta in E7. intros [= _ <- _].
  rewrite E7, E6, E5, E4, E3. apply put_metas_ext. by rewrite E2, E1.
Qed.
End rows.

Section served.
Context {H : HexCrate} {HL : HexLaws H}.

(** The rows of a post: its id, and its path in a namespace. *)
Definition row_keys (id : string) (m : PinboardMessageMetadata) : list string :=
  id :: match pm_namespace m with Some ns => [pinboard_namespace_content_path ns id] | None => [] end.

(** A post whose id is a plain name and whose namespace is one. *)
Record post_ok (id : string) (m : PinboardMessageMetadata) : Prop := {
  po_id : pm_message_id m = id;
  po_name : id ≠ EmptyString ∧ no_slash id = true;
  po_namespace : ∀ ns, pm_namespace m = Some ns → validate_content_upload_namespace_slug ns = Ok tt;
}.

Lemma path_has_slash ns id : no_slash (pinboard_namespace_content_path ns id) = false.
Proof. reflexivity. Qed.

Lemma rows_disjoint id id' m m' k :
  post_ok id m → post_ok id' m' → id ≠ id' → k ∈ row_keys id m → k ∉ row_keys id' m'.
Proof.
  intros [_ [Hne Hs] Hv] [_ [Hne' Hs'] Hv'] Hd Hk Hk'. unfold row_keys in *.
  destruct (pm_namespace m) as [ns|], (pm_namespace m') as [ns'|];
    set_unfold; destruct_or?; subst; try done;
    try (by rewrite path_has_slash in Hs); try (by rewrite path_has_slash in Hs').
  pose proof (parse_namespace_content_path ns id (Hv ns eq_refl) Hne Hs) as P1.
  match goal with He : pinboard_namespace_content_path _ _ = _ |- _ => rewrite He in P1 end.
  rewrite (parse_namespace_content_path ns' id' (Hv' ns' eq_refl) Hne' Hs') in P1. congruence.
Qed.

Lemma put_meta_row id m tx k :
  k ∈ row_keys id m → pinboard_meta_cf (put_pinboard_metadata_with_tx id m tx) !! k = Some m.
Proof.
  unfold row_keys, put_pinboard_metadata_with_tx. cbn [pinboard_meta_cf set_pinboard_meta_cf].
  destruct (pm_namespace m) as [ns|]; rewrite ?elem_of_cons, ?elem_of_nil.
  - intros [->|[->|[]]]; [|apply lookup_insert_eq].
    destruct (decide (pinboard_namespace_content_path ns id = id)) as [->|]; [apply lookup_insert_eq|].
    rewrite lookup_insert_ne by done. apply lookup_insert_eq.
  - intros [->|[]]. apply lookup_insert_eq.
Qed.

Lemma put_meta_other id m tx k :
  k ∉ row_keys id m →
  pinboard_meta_cf (put_pinboard_metadata_with_tx id m tx) !! k = pinboard_meta_cf tx !! k.
Proof.
  unfold row_keys, put_pinboard_metadata_with_tx. cbn [pinboard_meta_cf set_pinboard_meta_cf].
  destruct (pm_namespace m) as [ns|]; rewrite ?elem_of_cons, ?elem_of_nil; intros Hk;
    rewrite !lookup_insert_ne by (intros <-; tauto); done.
Qed.

Lemma put_metas_row l id m k : ∀ tx,
  NoDup l.*1 → (∀ id m, (id, m) ∈ l → post_ok id m) → (id, m) ∈ l → k ∈ row_keys id m →
  pinboard_meta_cf (put_metas l tx) !! k = Some m.
Proof.
  induction l as [|[id0 m0] l IH] using rev_ind; intros tx Hnd Hok Hin Hk; [by apply elem_of_nil in Hin|].
  unfold put_metas. rewrite foldl_app. cbn [foldl fst snd]. fold (put_metas l tx).
  rewrite fmap_app, list.NoDup_app in Hnd. destruct Hnd as (Hnd & Hdis & _).
  apply elem_of_app in Hin as [Hin|Hin].
  - rewrite put_meta_other; [|apply (rows_disjoint id id0 m m0); [| | |done]].
    + apply IH; try done. intros id' m' Hin'. apply Hok, elem_of_app. by left.
    + apply Hok, elem_of_app. by left.
    + apply Hok, elem_of_app. right. by left.
    + intros ->. apply (Hdis id0); [|by left]. apply list_elem_of_fmap. by exists (id0, m).
  - apply list_elem_of_singleton in Hin as [= -> ->]. by apply put_meta_row.
Qed.

Lemma hex_prefix_no_slash (a : Address) : no_slash (hex_with_prefix a) = true.
Proof.
  unfold hex_with_prefix, Address_hex. change (no_slash (String.append "0x" ?x)) with (no_slash x).
  apply hexdigits_no_slash, hex_encode_hexdigits.
Qed.

(** The published path of a post outside namespaces names its author and id. *)
Lemma parse_eld_post_path (a : Address) (id : string) :
  id ≠ EmptyString → no_slash id = true →
  parse_pinboard_post_cado_path (pinboard_eld_post_cado_path (hex_with_prefix a) id)
    = Ok (hex_with_prefix a, id).
Proof.
  intros Hne Hs. unfold parse_pinboard_post_cado_path, pinboard_eld_post_cado_path.
  change (String.append PATH_PREFIX_PINBOARD (String.append "post/" ?x))
    with (String.append "" (String "/" (String.append SCOPE_ELD_ROOT (String "/"
           (String.append "pinboard" (String "/" (String.append "post" (String "/" x)))))))).
  rewrite !split_on_app by (first [reflexivity|apply hex_prefix_no_slash]).
  rewrite split_on_none by exact Hs.
  assert (String.eqb id EmptyString = false) as Hid by by apply String.eqb_neq.
  assert (∀ l, List.filter (λ p, negb (String.eqb p EmptyString))
    ("" :: SCOPE_ELD_ROOT :: "pinboard" :: "post" :: hex_with_prefix a :: l) =
    SCOPE_ELD_ROOT :: "pinboard" :: "post" :: hex_with_prefix a ::
    List.filter (λ p, negb (String.eqb p EmptyString)) l) as -> by reflexivity.
  cbn [List.filter]. rewrite Hid. cbn [negb]. rewrite !String.eqb_refl. cbn [negb orb].
  by rewrite parse_hex_with_prefix, Hid.
Qed.

Lemma eld_post_path_routed wallet id : path_uses_eld_pinboard_lookup (pinboard_eld_post_cado_path wallet id) = true.
Proof.
  unfold path_uses_eld_pinboard_lookup, pinboard_eld_post_cado_path.
  change (String.append PATH_PREFIX_PINBOARD ?x)
    with (String "/" (String.append SCOPE_ELD_ROOT (String.append "/pinboard/" x))).
  cbn [contains]. apply orb_true_iff. right. apply contains_prefix.
Qed.

(** A post whose rows are stored is found at the path published for it. *)
Lemma post_at_published_path (db : Database) (id : string) (m : PinboardMessageMetadata) :
  post_ok id m → (∀ k, k ∈ row_keys id m → pinboard_meta_cf db !! k = Some m) →
  (∀ ns, pm_namespace m = Some ns → path_uses_eld_pinboard_lookup (pinboard_response_cado_path m) = false) →
  post_at_path db (pinboard_response_cado_path m) = Ok m.
Proof.
  intros [Hid [Hne Hs] Hv] Hrows Hroute. unfold post_at_path.
  unfold row_keys, pinboard_response_cado_path in *. rewrite Hid in *.
  destruct (pm_namespace m) as [ns|] eqn:En.
  - rewrite (Hroute ns eq_refl), (parse_namespace_content_path ns id) by (done || by apply Hv).
    rewrite (Hrows (pinboard_namespace_content_path ns id)) by (right; by left).
    by rewrite bool_decide_true by exact En.
  - rewrite eld_post_path_routed, parse_eld_post_path by done. cbn [fst snd].
    rewrite (Hrows id) by by left. by rewrite String.eqb_refl.
Qed.
End served.

(** ** From the commit to the reader *)

Section reading.
Context {H : HexCrate} {HL : HexLaws H} {HC : HashCrates} {B : Base64} {C : RecordCodecs} {E : Ed25519}
  {R : RandCrate} {T : TrieCrate} {SC : SnapshotCodecs} {X : Blake3Xof} {J : SlotJson}
  (protocol : ProtocolConstants).

(** Content put into slots that lacked it is read from them. *)
Lemma stored_content_reads key b cm :
  capacity_ok cm → get_content_from_slots key cm = Ok None →
  ((length b + (MAX_CHUNK_SIZE - 1)) / MAX_CHUNK_SIZE ≤ room (shelf_of cm))%nat →
  get_content_from_slots key (store_if_missing key b cm) = Ok (Some b).
Proof.
  intros Hok Hget Hroom. rewrite (get_content_shelf key cm Hok) in Hget.
  destruct (shelved (shelf_of cm) !! key) as [l|] eqn:Hl; [done|].
  destruct (store_if_missing_shelf key b cm Hok) as [Hok' Hsh]. rewrite Hl in Hsh.
  unfold shelf_put in Hsh. rewrite chunks_count, (proj2 (Nat.ltb_ge _ _)) in Hsh by done.
  cbn [from_option id] in Hsh. rewrite (get_content_shelf key _ Hok'), Hsh. cbn [shelved].
  rewrite lookup_insert_eq. cbn [fmap option_fmap option_map]. by rewrite chunks_concat.
Qed.

End reading.

(** ** Witnesses *)

Definition test_post_input : PostMessageUserRequestInput :=
  mkUserRequestInput 100 "public" None ["news"] "text/plain" 5 None.
Definition test_validator : Wallet (E := ref_ed25519) := mkWallet test_sender test_sk.
Definition test_validator_body : CadoBody :=
  CadoBody_mutable_new
    (match Account_serialize_bin (mkAccount test_sender (mkCoin 1000000) (mkNonce 3)) with
     | Ok b => b | Err _ => [] end)
    (CADOMetadata_new Cado_Account (hex_with_prefix test_sender)).
Definition test_post_db : Database :=
  match CadoPath_new Cado_Account (Key_Address test_sender) with
  | Ok path => match put_cado_type_with_tx (BC := body_bincode test_validator_body) path test_validator_body
                       empty_database with
               | Ok db => db | Err _ => empty_database end
  | Err _ => empty_database
  end.
Definition test_rpc_json : SerdeJson := {|
  value_from_str _ := Some (JObject [("result", JObject [("code", JNumber (PosInt 0))])]);
  value_to_string _ := None;
|}.
Definition test_user : PostMessageUserRequest :=
  match build_signed_post_message_user_request test_sk test_text test_post_input with
  | Some r => r
  | None => mkUserRequest "" "" "" "" 0 "" None [] "" 0 "" None
  end.
Definition test_submit : result ApiError PostMessageSubmitResponse * Database * list string :=
  pinboard_submit (SJ := test_rpc_json) (BC := body_bincode test_validator_body) test_post_db
    (Some local_dev) test_capacity (Ok (Some test_validator)) "eld" (λ _, Body "") 1700000000
    (mkSubmitRequest test_user (base64_encode test_text) None).

Lemma test_submit_accepted : ∃ a db' sent, test_submit = (Ok a, db', sent).
Proof. eexists _, _, _. vm_compute. reflexivity. Qed.

Lemma test_validator_key :
  from_public_key (HC := ref_hashes) (verifying_key_of (Ed25519 := ref_ed25519) (wallet_key test_validator)) =
    Ok (wallet_address test_validator).
Proof. vm_compute. reflexivity. Qed.

Lemma submission_sound_witness :
  ∃ a db' sent m tx t json,
    test_submit = (Ok a, db', sent) ∧ base64_decode (base64_encode test_text) = Some m ∧
    tx_to_json tx = Some json ∧ Tx_verify tx "eld" = Ok true ∧
    sent = [base64_encode (as_bytes (hex_encode (as_bytes json)))] ∧
    payload_inner (tx_payload tx) = PostMessage t.
Proof.
  destruct test_submit_accepted as (a & db' & sent & Hs).
  destruct (submission_sound (SJ := test_rpc_json) (BC := body_bincode test_validator_body) test_post_db
    db' local_dev test_capacity test_validator "eld" (λ _, Body "") 1700000000
    (mkSubmitRequest test_user (base64_encode test_text) None) a sent
    test_validator_key Hs)
    as (m & tx & t & json & account & Hm & _ & _ & _ & Hpt & Hj & Hsent & _).
  exists a, db', sent, m, tx, t, json. split; [exact Hs|]. split; [exact Hm|]. split; [exact Hj|].
  split; [apply Hpt|]. split; [exact Hsent|apply Hpt].
Defined.

(** The answer of [broadcast_tx_sync] has the code of CheckTx in its result;
    a refused transaction is reported as submitted. *)
Example refused_tx_reported_submitted :
  rpc_answer (SJ := {| value_from_str _ := Some (JObject [("result", JObject [("code", JNumber (PosInt 5))])]);
                       value_to_string _ := None |}) "" = Ok tt.
Proof. reflexivity. Qed.

Definition test_post (namespace : option string) : PostMessageTx :=
  mkPostMessageTx test_sender test_recipient "" (hex_encode (sha256 test_text)) "m1" 100 "public" None []
    "text/plain" 5 1700000000 "" namespace.

Lemma post_without_blob_stops_node_witness :
  ∃ e', run (process_post_message_tx local_dev (test_post None)) envelope_default = Some (resp_ok [], e') ∧
    commit (SC := test_snapshot_codecs test_body) (T := ref_trie) local_dev empty_database
      (Some (mkAppState (Some test_key) e' "eld")) = None.
Proof.
  destruct (post_without_blob_stops_node (SC := test_snapshot_codecs test_body) (T := ref_trie) local_dev
    empty_database (test_post None) envelope_default) as (e' & Hr & Hm & Hc); [by eexists|done|].
  exists e'. split; [exact Hr|]. apply Hc. exact Hm.
Defined.

Definition test_owned : AppStateEnvelope :=
  set_namespace_registry_cache {["chess" := mkNamespaceRecord "chess" test_recipient 4]} envelope_default.

Lemma posts_can_be_forged_witness :
  ∃ tx e', Tx_verify tx "eld" = Ok true ∧ run (process rd0 local_dev tx) test_owned = Some (resp_ok [], e') ∧
    (hex_with_prefix test_recipient, 1, "m1") ∈ pinboard_idx_wallet_add e'.
Proof.
  destruct (posts_can_be_forged rd0 local_dev test_sk test_sender 1 30000 "eld" (test_post (Some "chess"))
    "chess" (mkNamespaceRecord "chess" test_recipient 4) test_owned "not a signature" "")
    as (tx & e' & _ & _ & _ & Hv & Hr & _ & _ & Hw);
    [vm_compute; reflexivity|intros; eexists; reflexivity|reflexivity|reflexivity|vm_compute; reflexivity|
     vm_compute; reflexivity|reflexivity|].
  exists tx, e'. split; [exact Hv|]. split; [exact Hr|exact Hw].
Defined.

Definition test_meta : PinboardMessageMetadata :=
  post_metadata local_dev (test_post (Some "chess")) (set_block_height 6 envelope_default).
Definition test_posted : AppState :=
  mkAppState (Some test_key)
    (set_pinboard_meta_cache {["m1" := test_meta]}
      (set_block_height 7 envelope_default)) "eld".
Definition test_posted_db : Database :=
  put_pinboard_temp_blob (hex_encode (sha256 test_text)) test_text 1700000900 empty_database.


Lemma test_posted_ready : commit_ready (SC := test_snapshot_codecs test_body) test_posted_db test_posted.
Proof.
  constructor; try done. intros id m Hm.
  cbn [test_posted envelope pinboard_meta_cache set_pinboard_meta_cache] in Hm.
  apply lookup_singleton_Some in Hm as [<- <-]. by eexists.
Qed.

Lemma test_post_commits :
  ∃ s' db' hash, commit (SC := test_snapshot_codecs test_body) (T := ref_trie) local_dev test_posted_db
    (Some test_posted) = Some (s', db', hash) ∧ current_committed_height s' = 7.
Proof.
  destruct (commit_run (SC := test_snapshot_codecs test_body) (SL := test_snapshot_codecs_laws test_body)
    (T := ref_trie) local_dev test_posted_db test_posted test_key test_posted_ready eq_refl)
    as (e2 & tx1 & tx2 & tx3 & db' & Ec & Hreg & _).
  eexists _, db', _. split; [exact Ec|].
  destruct (merged_fields _ _ Hreg) as (Hc & _). apply (f_equal (λ c, c.1.1.1.1.1.1.1)) in Hc.
  cbn [carried fst] in Hc. unfold current_committed_height.
  cbn [envelope set_envelope block_height set_cado_cache]. rewrite Hc.
  destruct (selected_fields local_dev test_posted) as (_ & _ & _ & _ & _ & -> & _). reflexivity.
Qed.

Definition open_limits : RateLimitState := RateLimitState_new (mkApiRateLimitConfig 0 0 0 0 false).

