(* ===== verification/AbciLimits.v ===== *)
(** The limiters in front of the ABCI queries of a node:
    node_app/src/abci_interface/info/abci_rate_limiting.rs.

    The clocks are arguments: [SystemTime] in seconds since 1970 for the two
    fixed-window limiters, [Instant] in nanoseconds for the one per query.  The
    query connection is served one request at a time, so an operation on the
    atomics is a function of the whole limiter. *)
From S2P Require Import Prelude Externals Reference Coins Address Ordering Namespace Cado Records Tx Pinboard AppState Storage Feed.

(** ** Requests and answers *)

Record RequestQuery : Type := mkRequestQuery {
  rq_path : string;
  rq_data : bytes;
}.

(** A log line: a text of the code, or the text of an error. *)
Inductive LogLine : Type :=
| LogText (s : string)
| LogError (e : EldError).

(** [height] and [index] are 0 and [proof_ops] is [None] in every answer. *)
Record ResponseQuery : Type := mkResponseQuery {
  rs_code : Z;
  rs_log : LogLine;
  rs_info : string;
  rs_key : bytes;
  rs_value : bytes;
  rs_codespace : string;
}.

Definition ELD_CODESPACE : string := "eld".

(** [ResponseQuery { code, codespace, log, info, ..Default::default() }] *)
Definition limit_response (code : Z) (text : string) : ResponseQuery :=
  mkResponseQuery code (LogText text) text [] [] ELD_CODESPACE.

(** ** Kinds of queries *)

Definition CADO_LIST : string := "cado_list".
Definition QUERY_CADO : string := "cado".
Definition STAKING_ACCOUNT : string := "staking_account".
Definition ACTIVE_VALIDATORS : string := "active_validators".
Definition ACTIVE_CAPACITY_VALIDATORS : string := "capacity_validators".
Definition CAPACITY_PROVIDER : string := "capacity_provider".
Definition EPOCH_INFO : string := "epoch_info".
Definition ACCOUNT_COUNT : string := "account_count".
Definition ACCOUNT_VIEW : string := "account_view".
Definition SINGLE_KEY : string := "single_key".
Definition PINBOARD : string := "pinboard".
Definition PINBOARD_FEED : string := "pinboard_feed".
Definition OTHER : string := "other".
Definition ESTIMATE_FEE : string := "estimate_fee".
Definition CADO_PATHS : string := "cado_paths".

Definition RATE_LIMIT_MULTIPLIER : Z := 1000.

Inductive AbciQueryType : Type := CadoList | SingleKey | Other.

#[export] Instance AbciQueryType_eq_dec : EqDecision AbciQueryType.
Proof. solve_decision. Defined.

Definition get_global_rate_limit (q : AbciQueryType) : Z :=
  match q with
  | CadoList => 10 * RATE_LIMIT_MULTIPLIER
  | SingleKey => 100 * RATE_LIMIT_MULTIPLIER
  | Other => 50 * RATE_LIMIT_MULTIPLIER
  end.

Definition get_result_limit (q : AbciQueryType) : Z :=
  match q with
  | CadoList => 100 * RATE_LIMIT_MULTIPLIER
  | SingleKey => 1
  | Other => 30 * RATE_LIMIT_MULTIPLIER
  end.

Definition AbciQueryType_fmt (q : AbciQueryType) : string :=
  match q with
  | CadoList => CADO_LIST
  | SingleKey => SINGLE_KEY
  | Other => OTHER
  end.

(** Both limiters that classify a path do it the same way. *)
Definition classify_query_type (path : string) : AbciQueryType :=
  if str_in [CADO_LIST; CADO_PATHS; PINBOARD_FEED] path then CadoList
  else if str_in [QUERY_CADO; STAKING_ACCOUNT; CAPACITY_PROVIDER; PINBOARD] path then SingleKey
  else Other.

(** [AtomicU32::fetch_add] *)
Definition wrap_u32 (n : Z) : Z := n mod 2 ^ 32.

(** The start of the minute of a time in seconds. *)
Definition window_start (now : Z) : Z := now - now mod 60.

(** ** The global limiter *)

Record GlobalAbciRateLimiter : Type := mkGlobalLimiter {
  cado_list_requests : Z;
  single_key_requests : Z;
  other_requests : Z;
  last_reset : Z;
}.

Definition GlobalAbciRateLimiter_new : GlobalAbciRateLimiter := mkGlobalLimiter 0 0 0 0.

Definition reset_counters (g : GlobalAbciRateLimiter) : GlobalAbciRateLimiter :=
  mkGlobalLimiter 0 0 0 (last_reset g).

Definition requests_of (q : AbciQueryType) (g : GlobalAbciRateLimiter) : Z :=
  match q with
  | CadoList => cado_list_requests g
  | SingleKey => single_key_requests g
  | Other => other_requests g
  end.

(** [fetch_add(1)] on the counter of a kind. *)
Definition count_request (q : AbciQueryType) (g : GlobalAbciRateLimiter) : GlobalAbciRateLimiter :=
  match q with
  | CadoList =>
      mkGlobalLimiter (wrap_u32 (cado_list_requests g + 1)) (single_key_requests g)
        (other_requests g) (last_reset g)
  | SingleKey =>
      mkGlobalLimiter (cado_list_requests g) (wrap_u32 (single_key_requests g + 1))
        (other_requests g) (last_reset g)
  | Other =>
      mkGlobalLimiter (cado_list_requests g) (single_key_requests g)
        (wrap_u32 (other_requests g + 1)) (last_reset g)
  end.

Definition global_limit_text (q : AbciQueryType) (limit : Z) : string :=
  String.append "Global rate limit exceeded for "
    (String.append (match q with CadoList => "cado_list" | SingleKey => "single_key"
                    | Other => "other queries" end)
       (String.append ": " (String.append (to_string limit) " requests per minute"))).

Definition check_rate_limit_by_type (query_type : AbciQueryType) (now : Z) (g : GlobalAbciRateLimiter) :
    option ResponseQuery * GlobalAbciRateLimiter :=
  let start := window_start now in
  let g :=
    if last_reset g <? start then
      let g := reset_counters g in
      mkGlobalLimiter (cado_list_requests g) (single_key_requests g) (other_requests g) start
    else g in
  let limit := get_global_rate_limit query_type in
  let current := requests_of query_type g in
  let g := count_request query_type g in
  if limit <=? current then (Some (limit_response 100 (global_limit_text query_type limit)), g)
  else (None, g).

Definition global_check_rate_limit (query_request : RequestQuery) (now : Z)
    (g : GlobalAbciRateLimiter) : option ResponseQuery * GlobalAbciRateLimiter :=
  check_rate_limit_by_type (classify_query_type (rq_path query_request)) now g.

(** ** The result limiter *)

Record ResultLimiter : Type := mkResultLimiter {
  total_results_returned : Z;
  results_last_reset : Z;
}.

Definition ResultLimiter_new : ResultLimiter := mkResultLimiter 0 0.

Definition GLOBAL_RESULT_LIMIT : Z := 1000 * RATE_LIMIT_MULTIPLIER.

Definition check_result_limit (result_count : Z) (query_type : AbciQueryType) (now : Z)
    (r : ResultLimiter) : option ResponseQuery * ResultLimiter :=
  let start := window_start now in
  let r := if results_last_reset r <? start then mkResultLimiter 0 start else r in
  let query_limit := get_result_limit query_type in
  if query_limit <? result_count then
    (Some (limit_response 101
             (String.append "Result limit exceeded for "
                (String.append (AbciQueryType_fmt query_type)
                   (String.append ": " (String.append (to_string result_count)
                      (String.append " results returned (limit: "
                         (String.append (to_string query_limit) ")"))))))), r)
  else
    let current := total_results_returned r in
    let next := wrap_u32 (current + wrap_u32 result_count) in
    if GLOBAL_RESULT_LIMIT <? next then
      (Some (limit_response 101
               (String.append "Global result limit exceeded: "
                  (String.append (to_string next)
                     (String.append " results returned in the last minute (limit: "
                        (String.append (to_string GLOBAL_RESULT_LIMIT) ")"))))), r)
    else (None, mkResultLimiter next (results_last_reset r)).

(** ** The limiter per query *)

Record QueryBasedRateLimiter : Type := mkQueryLimiter { query_requests : gmap string (list Z) }.

Definition QueryBasedRateLimiter_new : QueryBasedRateLimiter := mkQueryLimiter ∅.

Definition get_limit_for_query_type (q : AbciQueryType) : nat :=
  match q with
  | CadoList => 5 * Z.to_nat RATE_LIMIT_MULTIPLIER
  | SingleKey => 20 * Z.to_nat RATE_LIMIT_MULTIPLIER
  | Other => 15 * Z.to_nat RATE_LIMIT_MULTIPLIER
  end.

Section query_limiter.
Context {H : HexCrate} {HC : HashCrates}.

(** The path and the data are hashed one after the other. *)
Definition hash_query (query : RequestQuery) : string :=
  hex_encode (vec_to_list (sha256 (as_bytes (rq_path query) ++ rq_data query))).

Definition query_check_rate_limit (query_request : RequestQuery) (now : Z)
    (l : QueryBasedRateLimiter) : option ResponseQuery * QueryBasedRateLimiter :=
  let query_hash := hash_query query_request in
  let one_minute_ago := now - MINUTE in
  let timestamps :=
    List.filter (λ ts, one_minute_ago <? ts) (default [] (query_requests l !! query_hash)) in
  let limit := get_limit_for_query_type (classify_query_type (rq_path query_request)) in
  if (limit <=? length timestamps)%nat then
    (Some (limit_response 102
             (String.append "Query rate limit exceeded for query '"
                (String.append query_hash
                   (String.append "': " (String.append (to_string (Z.of_nat limit))
                      " requests per minute"))))),
     mkQueryLimiter (<[query_hash := timestamps]> (query_requests l)))
  else (None, mkQueryLimiter (<[query_hash := timestamps ++ [now]]> (query_requests l))).
End query_limiter.

(** ** The fixed windows *)

(** What the global limiter answers to a list of requests. *)
Fixpoint run_global (calls : list (AbciQueryType * Z)) (g : GlobalAbciRateLimiter) :
    list bool * GlobalAbciRateLimiter :=
  match calls with
  | [] => ([], g)
  | (q, now) :: calls =>
      let '(refused, g) := check_rate_limit_by_type q now g in
      let '(oks, g) := run_global calls g in
      ((match refused with None => true | Some _ => false end) :: oks, g)
  end.

(** The requests of a kind in the minute that starts at [start]. *)
Definition in_window_of (q : AbciQueryType) (start : Z) (r : AbciQueryType * Z) : bool :=
  bool_decide (r.1 = q) && (window_start r.2 =? start).

Definition asked_in (past : list (AbciQueryType * Z)) (q : AbciQueryType) (start : Z) : Z :=
  Z.of_nat (length (List.filter (in_window_of q start) past)).

(** The promise, on the whole history: a request passes when fewer requests of
    its kind than the limit came before it in its minute of the clock. *)
Fixpoint minute_policy (past calls : list (AbciQueryType * Z)) : list bool :=
  match calls with
  | [] => []
  | (q, now) :: calls =>
      (asked_in past q (window_start now) <? get_global_rate_limit q)
        :: minute_policy (past ++ [(q, now)]) calls
  end.

Lemma window_start_le now : window_start now ≤ now < window_start now + 60.
Proof. unfold window_start. pose proof (Z.mod_pos_bound now 60). lia. Qed.

Lemma window_start_mono a b : a ≤ b → window_start a ≤ window_start b.
Proof.
  intros Hab. unfold window_start. rewrite !Z.mod_eq by lia.
  pose proof (Z.div_le_mono a b 60). lia.
Qed.

Lemma asked_in_snoc past q start r :
  asked_in (past ++ [r]) q start = asked_in past q start + (if in_window_of q start r then 1 else 0).
Proof.
  unfold asked_in. rewrite List.filter_app, length_app, Nat2Z.inj_add. cbn [List.filter].
  by destruct (in_window_of q start r).
Qed.

Lemma asked_in_bound past q start : 0 ≤ asked_in past q start ≤ Z.of_nat (length past).
Proof. unfold asked_in. pose proof (List.filter_length_le (in_window_of q start) past). lia. Qed.

Lemma asked_in_none past q start :
  (∀ r, r ∈ past → window_start r.2 < start) → asked_in past q start = 0.
Proof.
  intros Hp. unfold asked_in. induction past as [|r past IH]; [done|]. cbn [List.filter].
  assert (in_window_of q start r = false) as ->.
  { unfold in_window_of. rewrite (proj2 (Z.eqb_neq _ _)); [by rewrite andb_false_r|].
    specialize (Hp r (list_elem_of_here _ _)). lia. }
  apply IH. intros r' Hr. apply Hp. by right.
Qed.

(** The counters hold what was asked in the minute of the last reset. *)
Definition counts (g : GlobalAbciRateLimiter) (past : list (AbciQueryType * Z)) : Prop :=
  (∀ r, r ∈ past → window_start r.2 ≤ last_reset g) ∧
  ∀ q, requests_of q g = asked_in past q (last_reset g).

Lemma requests_of_counted q q' g :
  0 ≤ requests_of q' g < 2 ^ 32 - 1 →
  requests_of q' (count_request q g) = requests_of q' g + (if bool_decide (q = q') then 1 else 0).
Proof.
  intros Hr. destruct q, q'; cbn [requests_of count_request cado_list_requests single_key_requests
    other_requests] in *; rewrite ?bool_decide_eq_true_2, ?bool_decide_eq_false_2 by done;
    rewrite ?Z.add_0_r; unfold wrap_u32; rewrite ?Z.mod_small by lia; done.
Qed.

Lemma last_reset_counted q g : last_reset (count_request q g) = last_reset g.
Proof. by destruct q. Qed.

Lemma check_step q now g past :
  counts g past → last_reset g ≤ window_start now → Z.of_nat (length past) < 2 ^ 32 - 1 →
  ∃ refused g', check_rate_limit_by_type q now g = (refused, g') ∧
    last_reset g' = window_start now ∧ counts g' (past ++ [(q, now)]) ∧
    (refused = None ↔ asked_in past q (window_start now) < get_global_rate_limit q).
Proof.
  intros [Hold Hc] Hle Hlen. unfold check_rate_limit_by_type.
  set (g1 := if last_reset g <? _ then _ else g). set (start := window_start now) in *.
  assert (last_reset g1 = start ∧ counts g1 past) as [Hl [Hold1 Hc1]].
  { subst g1. destruct (Z.ltb_spec (last_reset g) start) as [Hlt|Hge].
    - split; [done|]. split; [intros r Hr; specialize (Hold r Hr); cbn [last_reset]; lia|].
      intros q'. cbn [last_reset]. rewrite asked_in_none; [by destruct q'|].
      intros r Hr. specialize (Hold r Hr). lia.
    - assert (last_reset g = start) by lia. done. }
  clearbody g1. clear Hc Hold.
  exists (if get_global_rate_limit q <=? requests_of q g1
          then Some (limit_response 100 (global_limit_text q (get_global_rate_limit q))) else None),
    (count_request q g1).
  split; [by destruct (_ <=? _)|]. rewrite last_reset_counted. split; [done|]. split.
  - split; rewrite last_reset_counted, Hl.
    + intros r [Hr|Hr%list_elem_of_singleton]%elem_of_app; [specialize (Hold1 r Hr); lia|by subst r].
    + intros q'. rewrite asked_in_snoc, requests_of_counted.
      * rewrite (Hc1 q'), Hl. f_equal. unfold in_window_of. cbn [fst snd].
        subst start. rewrite Z.eqb_refl, andb_true_r. done.
      * rewrite (Hc1 q'). pose proof (asked_in_bound past q' (last_reset g1)). lia.
  - rewrite (Hc1 q), Hl. destruct (Z.leb_spec (get_global_rate_limit q) (asked_in past q start)); split; try done; lia.
Qed.

Lemma run_global_policy calls : ∀ past g,
  counts g past → StronglySorted Z.le calls.*2 → (∀ c, c ∈ calls → last_reset g ≤ window_start c.2) →
  Z.of_nat (length past + length calls) < 2 ^ 32 →
  (run_global calls g).1 = minute_policy past calls ∧ counts (run_global calls g).2 (past ++ calls).
Proof.
  induction calls as [|[q t] calls IH]; intros past g Hg Hs Hf Hlen.
  { by rewrite app_nil_r. }
  rewrite fmap_cons in Hs. apply StronglySorted_inv in Hs as [Hs Ht]. cbn [snd] in Ht.
  cbn [length] in Hlen. cbn [run_global minute_policy].
  destruct (check_step q t g past Hg) as (refused & g' & -> & Hl & Hg' & Hr);
    [apply (Hf (q, t)); constructor|lia|].
  destruct (run_global calls g') as [oks g2] eqn:E.
  destruct (IH (past ++ [(q, t)]) g' Hg' Hs) as [H1 H2].
  { intros c Hc. rewrite Hl. apply window_start_mono. rewrite Forall_forall in Ht.
    apply Ht. by apply list_elem_of_In, list_elem_of_fmap_2. }
  { rewrite length_app. cbn [length]. lia. }
  rewrite E in H1, H2. cbn [fst snd] in *. subst oks. rewrite <- app_assoc in H2. split; [|done]. f_equal.
  destruct refused as [e|].
  - destruct (Z.ltb_spec (asked_in past q (window_start t)) (get_global_rate_limit q)) as [Hlt|]; [|done].
    apply Hr in Hlt. done.
  - symmetry. apply Z.ltb_lt. by apply Hr.
Qed.

Lemma counts_new : counts GlobalAbciRateLimiter_new [].
Proof. split; [by intros r ?%elem_of_nil|by intros []]. Qed.

(** The global limiter of the ABCI queries, which keeps three counters and
    the start of one minute, decides every request of any sequence as the
    policy on the whole history does: a query passes exactly when fewer queries
    of its kind than the limit of the kind came before it in the same minute of
    the clock, the refused ones included, whatever queries of other kinds came
    in between. *)
Theorem global_limiter_exact (calls : list (AbciQueryType * Z)) :
  StronglySorted Z.le calls.*2 → Forall (λ t, 0 ≤ t) calls.*2 → Z.of_nat (length calls) < 2 ^ 32 →
  (run_global calls GlobalAbciRateLimiter_new).1 = minute_policy [] calls.
Proof.
  intros Hs Hp Hlen. apply (run_global_policy calls [] GlobalAbciRateLimiter_new counts_new Hs); [|done].
  intros c Hc. cbn [last_reset GlobalAbciRateLimiter_new]. rewrite Forall_forall in Hp.
  apply (window_start_mono 0). apply Hp. by apply list_elem_of_In, list_elem_of_fmap_2.
Qed.

(** The queries of a kind that pass, with their times. *)
Definition passed (q : AbciQueryType) (keep : Z → bool) (calls : list (AbciQueryType * Z)) (oks : list bool) : Z :=
  Z.of_nat (length (List.filter (λ c : AbciQueryType * Z * bool, c.2 && bool_decide (c.1.1 = q) && keep c.1.2) (zip calls oks))).

Lemma passed_window q start calls : ∀ past,
  asked_in past q start + passed q (λ t, window_start t =? start) calls (minute_policy past calls)
    ≤ Z.max (asked_in past q start) (get_global_rate_limit q).
Proof.
  unfold passed. induction calls as [|[q' t] calls IH]; intros past; cbn [minute_policy zip List.filter]; [simpl; lia|].
  cbn [zip_with List.filter fst snd]. specialize (IH (past ++ [(q', t)])). rewrite asked_in_snoc in IH.
  unfold in_window_of in IH. cbn [fst snd] in IH.
  destruct (bool_decide_reflect (q' = q)) as [->|Hq]; cbn [andb] in *;
    [|rewrite andb_false_r; cbn [andb]; lia].
  destruct (Z.eqb_spec (window_start t) start) as [->|Ht]; [|rewrite andb_false_r; lia].
  destruct (Z.ltb_spec (asked_in past q start) (get_global_rate_limit q)); cbn [andb length]; lia.
Qed.

(** A filter over two cases counts at most the sum of the cases. *)
Lemma passed_split q f g h calls oks :
  (∀ t, f t = true → g t = true ∨ h t = true) →
  passed q f calls oks ≤ passed q g calls oks + passed q h calls oks.
Proof.
  intros Hf. unfold passed. induction (zip calls oks) as [|c l IH]; [simpl; lia|]. cbn [List.filter].
  destruct (c.2 && bool_decide (c.1.1 = q)); cbn [andb]; [|lia].
  specialize (Hf c.1.2). destruct (f c.1.2); [destruct (Hf eq_refl) as [-> | ->]|];
    destruct (g c.1.2), (h c.1.2); cbn [length]; lia.
Qed.

(** In any sixty seconds at most twice the limit of a kind passes: the window
    of the limiter is a minute of the clock, and sixty seconds meet two. *)
Theorem minute_bound (q : AbciQueryType) (T : Z) (calls : list (AbciQueryType * Z)) :
  passed q (λ t, (T - 60 <? t) && (t <=? T)) calls (minute_policy [] calls) ≤ 2 * get_global_rate_limit q.
Proof.
  pose proof (passed_window q (window_start T) calls []) as H1.
  pose proof (passed_window q (window_start T - 60) calls []) as H2.
  unfold asked_in in H1, H2. cbn [List.filter length] in H1, H2.
  assert (0 ≤ get_global_rate_limit q) by (by destruct q).
  etransitivity; [apply (passed_split q _ (λ t, window_start t =? window_start T) (λ t, window_start t =? window_start T - 60))|lia].
  intros t [Ha Hb]%andb_true_iff. apply Z.ltb_lt in Ha. apply Z.leb_le in Hb.
  rewrite !Z.eqb_eq. unfold window_start. rewrite !Z.mod_eq by lia.
  pose proof (Z.div_mod t 60). pose proof (Z.div_mod T 60).
  pose proof (Z.mod_pos_bound t 60). pose proof (Z.mod_pos_bound T 60). lia.
Qed.

(** The bound is met: the limit at the end of one minute, again at the start of the next. *)
Example minute_bound_met :
  let calls := replicate (Z.to_nat 10000) (CadoList, 59) ++ replicate (Z.to_nat 10000) (CadoList, 60) in
  forallb id (run_global calls GlobalAbciRateLimiter_new).1 = true.
Proof. vm_compute. reflexivity. Qed.

(** ** The sliding minute of a query *)

Section sliding.
Context {H : HexCrate} {HC : HashCrates}.

Fixpoint run_queries (calls : list (RequestQuery * Z)) (l : QueryBasedRateLimiter) : list bool :=
  match calls with
  | [] => []
  | (q, now) :: calls =>
      let '(refused, l) := query_check_rate_limit q now l in
      (match refused with None => true | Some _ => false end) :: run_queries calls l
  end.

Definition query_limit (q : RequestQuery) : nat :=
  get_limit_for_query_type (classify_query_type (rq_path q)).

(** The times at which queries of one hash passed. *)
Definition times_of (past : list (RequestQuery * Z)) (key : string) : list Z :=
  (List.filter (λ r, String.eqb (hash_query r.1) key) past).*2.

(** A query passes when fewer queries of its hash than its limit passed in the
    minute before it. *)
Fixpoint sliding_policy (past calls : list (RequestQuery * Z)) : list bool :=
  match calls with
  | [] => []
  | (q, now) :: calls =>
      let ok := (length (recent now (times_of past (hash_query q))) <? query_limit q)%nat in
      ok :: sliding_policy (if ok then past ++ [(q, now)] else past) calls
  end.

Definition query_keeps (l : QueryBasedRateLimiter) (past : list (RequestQuery * Z)) (now : Z) : Prop :=
  ∀ key later, now ≤ later →
    recent later (default [] (query_requests l !! key)) = recent later (times_of past key).

Lemma query_check_step q now past l :
  query_keeps l past now →
  let ok := (length (recent now (times_of past (hash_query q))) <? query_limit q)%nat in
  ∃ refused l', query_check_rate_limit q now l = (refused, l') ∧ (refused = None ↔ ok = true) ∧
    query_keeps l' (if ok then past ++ [(q, now)] else past) now ∧
    dom (query_requests l') = {[hash_query q]} ∪ dom (query_requests l).
Proof.
  intros Hk ok. unfold query_check_rate_limit. fold (query_limit q).
  fold (recent now (default [] (query_requests l !! hash_query q))). rewrite (Hk _ now (Z.le_refl _)).
  set (kept := recent now (times_of past (hash_query q))) in *.
  assert (∀ later, now ≤ later → recent later kept = recent later (times_of past (hash_query q))) as Hrr.
  { intros later Hl. subst kept. by apply recent_recent. }
  subst ok. destruct (Nat.leb_spec (query_limit q) (length kept)) as [Hge|Hlt].
  - rewrite (proj2 (Nat.ltb_ge _ _) Hge). eexists _, _. split; [done|]. split; [done|].
    split; [|cbn [query_requests]; apply dom_insert_L].
    intros key later Hl. cbn [query_requests]. destruct (decide (key = hash_query q)) as [->|Hne].
    + rewrite lookup_insert_eq. by apply Hrr.
    + rewrite lookup_insert_ne by done. by apply Hk.
  - rewrite (proj2 (Nat.ltb_lt _ _) Hlt). eexists _, _. split; [done|]. split; [done|].
    split; [|cbn [query_requests]; apply dom_insert_L].
    intros key later Hl. cbn [query_requests]. unfold times_of. rewrite List.filter_app, fmap_app.
    cbn [List.filter fst]. destruct (decide (key = hash_query q)) as [->|Hne].
    + rewrite lookup_insert_eq, String.eqb_refl. cbn [default from_option id]. unfold recent.
      rewrite !List.filter_app. f_equal. by apply Hrr.
    + rewrite lookup_insert_ne by done. rewrite (proj2 (String.eqb_neq _ _)) by done.
      rewrite app_nil_r. by apply Hk.
Qed.

Lemma run_queries_policy calls : ∀ now past l,
  StronglySorted Z.le (now :: calls.*2) → query_keeps l past now →
  run_queries calls l = sliding_policy past calls.
Proof.
  induction calls as [|[q t] calls IH]; intros now past l Hs Hk; [done|].
  rewrite fmap_cons in Hs. cbn [snd] in Hs. apply StronglySorted_inv in Hs as [Hs Hnow].
  assert (now ≤ t) as Hnt by (by inversion Hnow). cbn [run_queries sliding_policy].
  destruct (query_check_step q t past l) as (refused & l' & -> & Hr & Hk' & _).
  { intros key later Hl. apply Hk. lia. }
  f_equal; [|by apply (IH t)]. destruct refused; [|symmetry; by apply Hr].
  destruct (_ <? _)%nat; [by destruct Hr as [_ Hr]; specialize (Hr eq_refl)|done].
Qed.

(** The limiter per query, which drops what is older than a minute, decides
    every query as the policy on the whole history does. *)
Theorem query_limiter_exact (calls : list (RequestQuery * Z)) :
  StronglySorted Z.le calls.*2 →
  run_queries calls QueryBasedRateLimiter_new = sliding_policy [] calls.
Proof.
  intros Hs. destruct calls as [|[q t] calls]; [done|].
  apply (run_queries_policy ((q, t) :: calls) t).
  - constructor; [done|]. rewrite fmap_cons in *. cbn [snd] in *. constructor; [lia|].
    by apply StronglySorted_inv in Hs as [_ Hs].
  - intros key later _. cbn [query_requests QueryBasedRateLimiter_new]. by rewrite lookup_empty.
Qed.

(** The hash does not separate the path from the data, so two queries of
    different kinds can share one count. *)
Lemma hash_query_shared path1 path2 data :
  hash_query (mkRequestQuery (String.append path1 path2) data) =
  hash_query (mkRequestQuery path1 (as_bytes path2 ++ data)).
Proof. unfold hash_query. cbn [rq_path rq_data]. by rewrite as_bytes_append, <- app_assoc. Qed.
End sliding.

(** ** Witnesses *)

(** Two listings on either side of a minute and a query of another kind. *)
Lemma global_limiter_exact_witness :
  (run_global [(CadoList, 59); (SingleKey, 60); (CadoList, 60)] GlobalAbciRateLimiter_new).1 = [true; true; true].
Proof.
  rewrite (global_limiter_exact [(CadoList, 59); (SingleKey, 60); (CadoList, 60)]).
  - vm_compute. reflexivity.
  - repeat constructor; vm_compute; discriminate.
  - repeat constructor; vm_compute; discriminate.
  - reflexivity.
Defined.
