(* ===== verification/AbciQuery.v ===== *)
(** The ABCI queries of a node: node_app/src/abci_interface/info/info.rs, the
    query processors beside it, and chain_tip.rs.

    The texts [serde_json] makes of the answers are a parameter; the answers
    themselves are values of [QueryInfo].  Serializing them to a string does not
    fail (no maps, no failing writer).  A processor that panics is [None]; the
    mutexes are not poisoned.  The clocks a request reads are arguments. *)
From S2P Require Import Prelude Externals Reference Coins Address Ordering Namespace Cado Records Tx TxCodes Wire Validation Fee Pinboard AppState Ledger Processors VerifiedProof Deliver Epoch Storage Feed Gc Prefix AbciLimits.

(** ** Answers *)

(** common/src/validator.rs *)
Record ActiveValidatorsInfo : Type := mkActiveValidatorsInfo {
  av_validators : list ValidatorInfo;
  av_total_stake : Coin;
  av_current_epoch : Z;
}.

Record CapacityValidatorsInfo : Type := mkCapacityValidatorsInfo {
  cvs_capacity_validators : list CapacityValidatorInfo;
  cvs_total_stake : Coin;
  cvs_total_capacity : Z;
  cvs_current_epoch : Z;
}.

Record EpochInfo : Type := mkEpochInfo {
  ei_current_epoch : Z;
  ei_current_block : Z;
  ei_blocks_per_epoch : Z;
  ei_validators_per_epoch : Z;
  ei_blocks_until_next_epoch : Z;
}.

Record AccountView : Type := mkAccountView {
  view_address : string;
  view_balance : Z;
  view_nonce : Z;
}.

Definition AccountView_from_parts {H : HexCrate} (address : Address) (balance nonce : Z) : AccountView :=
  mkAccountView (hex_with_prefix address) balance nonce.

(** The two answers of the pinboard queries; the feed also tells its order. *)
Record PinboardListResponse : Type := mkListResponse {
  ls_items : list PinboardMessageMetadata;
  ls_page : nat;
  ls_page_size : nat;
  ls_has_more : bool;
}.

Record StoredAppState : Type := mkStoredAppState {
  st_block_height : Z;
  st_chain_id : string;
  st_current_epoch : Z;
  st_app_hash : string;
  st_cado_root_hash : string;
}.

Record StateData : Type := mkStateData {
  sd_eld_app_version : string;
  sd_stored_state : option StoredAppState;
}.

(** What a query answers in [info]. *)
Inductive QueryInfo : Type :=
| AccountCountInfo (count : nat)
| AccountViewInfo (v : AccountView)
| ActiveInfo (i : ActiveValidatorsInfo)
| CapacityInfo (i : CapacityValidatorsInfo)
| ProviderInfo (p : CapacityValidatorInfo)
| EpochInfoInfo (i : EpochInfo)
| CadoInfo (c : CadoBody)
| CadoListInfo (l : list CadoBody)
| CadoPathsInfo (l : list string)
| StakingInfo (s : StakingAccount)
| PinboardInfo (r : PinboardListResponse)
| FeedInfo (r : PinboardListResponse) (order : PinboardGlobalFeedOrder)
| GcMetricsInfo (m : PinboardGcMetrics).

(** The request of the feed; a missing field is [None]. *)
Record PinboardFeedRequest : Type := mkFeedRequest {
  fr_order : option PinboardGlobalFeedOrder;
  fr_page : option nat;
  fr_page_size : option nat;
}.

Definition PinboardFeedRequest_default : PinboardFeedRequest :=
  mkFeedRequest (Some Desc) (Some 0%nat) (Some 100%nat).

(** [serde_json] on the types of the queries. *)
Class QueryJson : Type := {
  info_text : QueryInfo → string;
  estimated_fee_bytes : Z → bytes;
  feed_request_from_slice : bytes → option PinboardFeedRequest;
  state_data_text : StateData → string;
  state_data_from_str : string → option StateData;
  active_from_str : string → option ActiveValidatorsInfo;
  capacity_from_str : string → option CapacityValidatorsInfo;
  epoch_info_from_str : string → option EpochInfo;
  cado_from_str : string → option CadoBody;
  cados_from_str : string → option (list CadoBody);
  paths_from_str : string → option (list string);
}.

(** The text of a value reads back as the value, and is not empty. *)
Class QueryJsonLaws (Q : QueryJson) : Prop := {
  info_text_nonempty i : info_text i ≠ EmptyString;
  state_data_back d : state_data_from_str (state_data_text d) = Some d;
  active_back i : active_from_str (info_text (ActiveInfo i)) = Some i;
  capacity_back i : capacity_from_str (info_text (CapacityInfo i)) = Some i;
  epoch_info_back i : epoch_info_from_str (info_text (EpochInfoInfo i)) = Some i;
  cado_back c : cado_from_str (info_text (CadoInfo c)) = Some c;
  cados_back l : cados_from_str (info_text (CadoListInfo l)) = Some l;
  paths_back l : paths_from_str (info_text (CadoPathsInfo l)) = Some l;
}.

(** ** chain_tip.rs *)

Record ChainTipSnapshot : Type := mkChainTip {
  ct_committed_height : Z;
  ct_current_epoch : Z;
  ct_app_hash : AppHash;
}.

Definition ChainTip_from_app_state (state : AppState) : ChainTipSnapshot :=
  mkChainTip (block_height (envelope state)) (current_epoch (envelope state)) (app_hash state).

Definition update_from_app_state (tip : ChainTipSnapshot) (state : AppState) : ChainTipSnapshot :=
  mkChainTip (block_height (envelope state)) (current_epoch (envelope state)) (app_hash state).

Definition committed_height_u64 (tip : ChainTipSnapshot) : Z := Z.max (ct_committed_height tip) 0.

(** ** The connection *)

(** What a query reads: the committed state, the tip, the database. *)
Record InfoConnection : Type := mkInfoConnection {
  ic_state : AppState;
  ic_chain_tip : ChainTipSnapshot;
  ic_db : Database;
  ic_gc : GcMeta;
  ic_protocol : ProtocolHandle;
  ic_eld_app_version : string;
}.

(** What a query writes: the limiters, and the one of the storage. *)
Record InfoLimiters : Type := mkInfoLimiters {
  il_global : GlobalAbciRateLimiter;
  il_results : ResultLimiter;
  il_queries : QueryBasedRateLimiter;
  il_storage : PrefixQueryRateLimiter;
}.

Definition InfoLimiters_new (storage : PrefixQueryRateLimiter) : InfoLimiters :=
  mkInfoLimiters GlobalAbciRateLimiter_new ResultLimiter_new QueryBasedRateLimiter_new storage.

Definition set_il_results (r : ResultLimiter) (l : InfoLimiters) : InfoLimiters :=
  mkInfoLimiters (il_global l) r (il_queries l) (il_storage l).
Definition set_il_storage (r : PrefixQueryRateLimiter) (l : InfoLimiters) : InfoLimiters :=
  mkInfoLimiters (il_global l) (il_results l) (il_queries l) r.

(** The clocks as a query reads them: seconds for the global and the result
    limiter, nanoseconds for the one per query and the one of the storage. *)
Record QueryTimes : Type := mkQueryTimes {
  at_global : Z;
  at_query : Z;
  at_storage : Z;
  at_results : Z;
}.

Inductive EldAbciQuery : Type :=
| Query_EstimateFee (path : string) (data : bytes)
| Query_StakingAccount (path : string) (data : bytes)
| Query_ActiveValidators (path : string) (data : bytes)
| Query_CapacityValidators (path : string) (data : bytes)
| Query_CapacityProvider (path : string) (data : bytes)
| Query_EpochInfo (path : string) (data : bytes)
| Query_AccountCount (path : string) (data : bytes)
| Query_Cado (path : string) (data : bytes)
| Query_CadoList (path : string) (data : bytes)
| Query_CadoPaths (path : string) (data : bytes)
| Query_AccountView (path : string) (data : bytes)
| Query_Pinboard (path : string) (data : bytes)
| Query_PinboardFeed (path : string) (data : bytes)
| Query_Unknown (path : string) (data : bytes).

Definition from_abci_query_request (request : RequestQuery) : EldAbciQuery :=
  let path := rq_path request in
  let data := rq_data request in
  if String.eqb path ESTIMATE_FEE then Query_EstimateFee path data
  else if String.eqb path STAKING_ACCOUNT then Query_StakingAccount path data
  else if String.eqb path ACTIVE_VALIDATORS then Query_ActiveValidators path data
  else if String.eqb path ACTIVE_CAPACITY_VALIDATORS then Query_CapacityValidators path data
  else if String.eqb path CAPACITY_PROVIDER then Query_CapacityProvider path data
  else if String.eqb path EPOCH_INFO then Query_EpochInfo path data
  else if String.eqb path ACCOUNT_COUNT then Query_AccountCount path data
  else if String.eqb path QUERY_CADO then Query_Cado path data
  else if String.eqb path CADO_LIST then Query_CadoList path data
  else if String.eqb path CADO_PATHS then Query_CadoPaths path data
  else if String.eqb path ACCOUNT_VIEW then Query_AccountView path data
  else if String.eqb path PINBOARD then Query_Pinboard path data
  else if String.eqb path PINBOARD_FEED then Query_PinboardFeed path data
  else Query_Unknown path data.

Record QueryResponsePayload : Type := mkQueryPayload {
  qp_code : Z;
  qp_value : bytes;
  qp_log : string;
  qp_info : string;
}.

Definition QueryProcessorResult : Type := eld_result QueryResponsePayload.

Definition query_payload_ok (value : bytes) (log : string) : QueryResponsePayload :=
  mkQueryPayload 0 value log EmptyString.
Definition query_payload_ok_info (value : bytes) (log info : string) : QueryResponsePayload :=
  mkQueryPayload 0 value log info.

Section abci_query.
Context {H : HexCrate} {HC : HashCrates} {C : RecordCodecs} {BC : Bincode CadoBody} {T : TrieCrate}
  {J : TxJson} {Q : QueryJson}.

(** [Ok(payload_ok_info(vec![], log, to_json_string(&value)?))] *)
Definition answer (log : string) (i : QueryInfo) : QueryProcessorResult :=
  Ok (query_payload_ok_info [] log (info_text i)).

(** [get_deserialized_cado_by_path] of storage/traits.rs *)
Definition read_cado_as {A} (deserialize_bin : bytes → eld_result A) (db : Database)
    (path : CadoPath) : eld_result A :=
  let? found := db_get_cado_by_path db path in
  let? cado := ok_or found (NotFoundError "CADO" (cp_path path)) in
  deserialize_bin (CadoBody_data cado).

(** ** The processors *)

(** The fee is put in a [serde_json::Value], whose integers have 64 bits: the
    [json!] macro panics on a larger one. *)
Definition process_estimate_fee_query (protocol : ProtocolHandle) (data : bytes) :
    option QueryProcessorResult :=
  match
    (let? hex_str := ok_or (from_utf8 data) (ValidationError "fee_query_hex_utf8") in
     let? tx_bytes := ok_or (hex_decode hex_str) (ValidationError "fee_query_hex") in
     let? tx_json := ok_or (from_utf8 tx_bytes) (ValidationError "fee_query_decoded_utf8") in
     let? tx := ok_or (tx_from_json tx_json) (ValidationError "fee_query_tx_json") in
     let? constants := ok_or (ProtocolHandle_get protocol) (InitializationError "protocol_constants") in
     calculate_dynamic_fee tx (fee_config constants)) with
  | Err e => Some (Err e)
  | Ok fee =>
      if u64_max <? coin_amount fee then None
      else Some (Ok (query_payload_ok (estimated_fee_bytes (coin_amount fee)) "Fee estimation successful"))
  end.

Definition process_staking_account_query (db : Database) (data : bytes) : QueryProcessorResult :=
  let? address := ok_or (from_utf8 data) (ValidationError "staking_address_utf8") in
  let? addr := parse_hex_str address in
  let? cado_path := CadoPath_new Cado_StakingAccount (Key_Address addr) in
  match read_cado_as StakingAccount_deserialize_bin db cado_path with
  | Ok account => answer "Staking Account found" (StakingInfo account)
  | Err (NotFoundError _ _) => Ok (query_payload_ok [] "Staking Account not found")
  | Err e => Err e
  end.

Definition process_active_validators_query (state : AppState) : QueryProcessorResult :=
  let validators := active_validators (envelope state) in
  let? total_stake := try_fold (λ acc v, Coin_add acc (val_stake v)) Coin_zero validators in
  let sorted := sort_by (λ a b, Z.compare (coin_amount (val_stake b)) (coin_amount (val_stake a))) validators in
  answer "Active validators info retrieved"
    (ActiveInfo (mkActiveValidatorsInfo sorted total_stake (current_epoch (envelope state)))).

Definition process_capacity_validators_query (state : AppState) : QueryProcessorResult :=
  let validators := capacity_validators (envelope state) in
  let? total_stake := try_fold (λ acc v, Coin_add acc (cv_stake v)) Coin_zero validators in
  let total_capacity := foldl (λ acc v, wrap_u64 (acc + cv_storage_capacity v)) 0 validators in
  let sorted := sort_by (λ a b, Z.compare (cv_storage_capacity b) (cv_storage_capacity a)) validators in
  answer "Capacity validators retrieved"
    (CapacityInfo (mkCapacityValidatorsInfo sorted total_stake total_capacity
                     (current_epoch (envelope state)))).

Definition process_capacity_provider_query (state : AppState) (data : bytes) : QueryProcessorResult :=
  let? address := ok_or (from_utf8 data) (ValidationError "capacity_provider_address_utf8") in
  let? parsed_address := parse_hex_str address in
  match List.find (λ p, bool_decide (cv_address p = parsed_address)) (capacity_validators (envelope state)) with
  | Some info => answer "Capacity provider info retrieved" (ProviderInfo info)
  | None => Err (NotFoundError "capacity_provider" (hex_with_prefix parsed_address))
  end.

(** The remainder by zero panics. *)
Definition process_epoch_info_query (state : AppState) (blocks_per_epoch validators_per_epoch : Z) :
    option QueryProcessorResult :=
  let current_block := block_height (envelope state) in
  if blocks_per_epoch =? 0 then None
  else
    let blocks_until_next_epoch := wrap_i64 (blocks_per_epoch - Z.rem current_block blocks_per_epoch) in
    Some (answer "Epoch info retrieved"
            (EpochInfoInfo (mkEpochInfo (current_epoch (envelope state)) current_block blocks_per_epoch
                              validators_per_epoch blocks_until_next_epoch))).

Definition account_count_answer (db : Database) (now : Z) (rl : PrefixQueryRateLimiter) :
    QueryProcessorResult * PrefixQueryRateLimiter :=
  let '(count, rl) := process_account_count_query db now rl in
  ((let? count := count in answer "Account count" (AccountCountInfo count)), rl).

Definition process_cado_query (db : Database) (data : bytes) : QueryProcessorResult :=
  let? path_str := ok_or (from_utf8 data) (ValidationError "cado_path_utf8") in
  let? cado_path := CadoPath_parse path_str in
  let? found := db_get_cado_by_path db cado_path in
  match found with
  | Some cado => answer "CADO found" (CadoInfo cado)
  | None => Ok (query_payload_ok [] "CADO not found")
  end.

(** The log of a listing: how many rows. *)
Definition found_log (n : nat) (what : string) : string :=
  String.append "Found " (String.append (to_string (Z.of_nat n)) what).

Definition process_cado_list_query (db : Database) (t : QueryTimes) (data : bytes) (l : InfoLimiters) :
    QueryProcessorResult * InfoLimiters :=
  match from_utf8 data with
  | None => (Err (ValidationError "prefix_utf8"), l)
  | Some prefix =>
      let '(cados, rl) := get_cados_by_prefix db prefix (at_storage t) (il_storage l) in
      let l := set_il_storage rl l in
      match cados with
      | Err e => (Err e, l)
      | Ok cados =>
          let '(refused, r) := check_result_limit (Z.of_nat (length cados)) CadoList (at_results t) (il_results l) in
          let l := set_il_results r l in
          match refused with
          | Some _ => (Err (ValidationError "result_limit"), l)
          | None => (answer (found_log (length cados) " CADOs matching prefix") (CadoListInfo cados), l)
          end
      end
  end.

Definition process_cado_paths_query (db : Database) (t : QueryTimes) (data : bytes) (l : InfoLimiters) :
    QueryProcessorResult * InfoLimiters :=
  match from_utf8 data with
  | None => (Err (ValidationError "search_utf8"), l)
  | Some search_string =>
      let '(cado_paths, rl) := get_cado_paths_by_prefix db search_string (at_storage t) (il_storage l) in
      let l := set_il_storage rl l in
      match cado_paths with
      | Err e => (Err e, l)
      | Ok cado_paths =>
          let '(refused, r) :=
            check_result_limit (Z.of_nat (length cado_paths)) CadoList (at_results t) (il_results l) in
          let l := set_il_results r l in
          match refused with
          | Some _ => (Err (ValidationError "result_limit"), l)
          | None =>
              let path_strings := map cp_path cado_paths in
              (answer (found_log (length path_strings) " CADO paths matching search string")
                 (CadoPathsInfo path_strings), l)
          end
      end
  end.

Definition process_account_view_query (db : Database) (data : bytes) : QueryProcessorResult :=
  let? address := ok_or (from_utf8 data) (ValidationError "account_address_utf8") in
  let? addr := parse_hex_str address in
  let? account_path := CadoPath_new Cado_Account (Key_Address addr) in
  let? account := read_cado_as Account_deserialize_bin db account_path in
  answer "Account view retrieved"
    (AccountViewInfo (AccountView_from_parts addr (coin_amount (acc_balance account))
                        (nonce_value (acc_nonce account)))).

(** The metadata of a page of ids; an id without metadata is skipped. *)
Definition metas_of (db : Database) (ids : list string) : list PinboardMessageMetadata :=
  omap (λ id, pinboard_meta_cf db !! id) ids.

(** [{page}/{page_size}] of a pinboard path; a number that does not parse is the default. *)
Definition page_of_parts (parts : list string) : nat * nat :=
  match parts with
  | [page; page_size] =>
      (Z.to_nat (default 0 (parse_unsigned u64_max page)),
       Z.to_nat (default 100 (parse_unsigned u64_max page_size)))
  | _ => (0, 100)%nat
  end.

Definition list_response (db : Database) (page page_size : nat) (ids : eld_result (PaginatedResult string)) :
    eld_result PinboardListResponse :=
  let? ids := ids in
  Ok (mkListResponse (metas_of db (pr_items ids)) page page_size (pr_has_more ids)).

Definition process_pinboard_query (db : Database) (gc : GcMeta) (now : Z) (data : bytes)
    (rl : PrefixQueryRateLimiter) : QueryProcessorResult * PrefixQueryRateLimiter :=
  match from_utf8 data with
  | None => (Err (ValidationError "pinboard_query_path_utf8"), rl)
  | Some path_str =>
      match List.filter (λ p, negb (String.eqb p EmptyString)) (split_on "/"%char path_str) with
      | scope :: kind :: segment :: rest =>
          if negb (String.eqb scope SCOPE_ELD_ROOT) || negb (String.eqb kind PINBOARD)
          then (Err (ValidationError "pinboard_query_path"), rl)
          else if String.eqb segment "post" then (Err (ValidationError "pinboard_query_path"), rl)
          else if String.eqb segment "wallet" || String.eqb segment "tag" then
            match rest with
            | name :: paging =>
                if negb ((length paging =? 0)%nat || (length paging =? 2)%nat)
                then (Err (ValidationError "pinboard_query_path"), rl)
                else
                  let '(page, page_size) := page_of_parts paging in
                  let options := with_pagination PrefixQueryOptions_default (mkPaginationParams page page_size) in
                  let '(ids, rl) :=
                    if String.eqb segment "wallet"
                    then get_pinboard_message_ids_by_wallet_secure db name options now rl
                    else get_pinboard_message_ids_by_tag_secure db name options now rl in
                  ((let? r := list_response db page page_size ids in
                    answer (if String.eqb segment "wallet" then "pinboard_wallet_list" else "pinboard_tag_list")
                      (PinboardInfo r)), rl)
            | [] => (Err (ValidationError "pinboard_query_path"), rl)
            end
          else if String.eqb segment "gc_metrics" then
            match rest with
            | [] => (answer "pinboard_gc_metrics" (GcMetricsInfo (get_pinboard_gc_metrics gc)), rl)
            | _ => (Err (ValidationError "pinboard_query_path"), rl)
            end
          else (Err (ValidationError "pinboard_query_kind"), rl)
      | _ => (Err (ValidationError "pinboard_query_path"), rl)
      end
  end.

Definition process_pinboard_feed_query (db : Database) (now : Z) (data : bytes)
    (rl : PrefixQueryRateLimiter) : QueryProcessorResult * PrefixQueryRateLimiter :=
  match
    (match data with
     | [] => Ok PinboardFeedRequest_default
     | _ => ok_or (feed_request_from_slice data) (ValidationError "pinboard_feed_query_json")
     end) with
  | Err e => (Err e, rl)
  | Ok req =>
      let order := default Desc (fr_order req) in
      let page := default 0%nat (fr_page req) in
      let page_size := default 100%nat (fr_page_size req) in
      let options := with_pagination PrefixQueryOptions_default (mkPaginationParams page page_size) in
      let '(ids, rl) := get_pinboard_message_ids_global_secure db order options now rl in
      ((let? r := list_response db page page_size ids in answer "pinboard_feed" (FeedInfo r order)), rl)
  end.

(** ** The handlers *)

Definition EldAbciQuery_process (self : EldAbciQuery) (conn : InfoConnection) (t : QueryTimes) (l : InfoLimiters) :
    option QueryProcessorResult * InfoLimiters :=
  let storage_only (r : QueryProcessorResult * PrefixQueryRateLimiter) := (Some r.1, set_il_storage r.2 l) in
  let limited (r : QueryProcessorResult * InfoLimiters) := (Some r.1, r.2) in
  match self with
  | Query_EstimateFee _ data => (process_estimate_fee_query (ic_protocol conn) data, l)
  | Query_StakingAccount _ data => (Some (process_staking_account_query (ic_db conn) data), l)
  | Query_ActiveValidators _ _ => (Some (process_active_validators_query (ic_state conn)), l)
  | Query_CapacityValidators _ _ => (Some (process_capacity_validators_query (ic_state conn)), l)
  | Query_CapacityProvider _ data => (Some (process_capacity_provider_query (ic_state conn) data), l)
  | Query_EpochInfo _ _ =>
      match ProtocolHandle_get (ic_protocol conn) with
      | None => (Some (Err (InitializationError "protocol_constants")), l)
      | Some protocol =>
          (process_epoch_info_query (ic_state conn) (blocks_per_epoch protocol) (validators_per_epoch protocol), l)
      end
  | Query_AccountCount _ _ => storage_only (account_count_answer (ic_db conn) (at_storage t) (il_storage l))
  | Query_Cado _ data => (Some (process_cado_query (ic_db conn) data), l)
  | Query_CadoList _ data => limited (process_cado_list_query (ic_db conn) t data l)
  | Query_CadoPaths _ data => limited (process_cado_paths_query (ic_db conn) t data l)
  | Query_AccountView _ data => (Some (process_account_view_query (ic_db conn) data), l)
  | Query_Pinboard _ data =>
      storage_only (process_pinboard_query (ic_db conn) (ic_gc conn) (at_storage t) data (il_storage l))
  | Query_PinboardFeed _ data =>
      storage_only (process_pinboard_feed_query (ic_db conn) (at_storage t) data (il_storage l))
  | Query_Unknown _ _ => (Some (Err (ValidationError "query_path")), l)
  end.

Definition to_query_response (path : string) (key : bytes) (payload : QueryResponsePayload) : ResponseQuery :=
  mkResponseQuery (qp_code payload) (LogText (qp_log payload)) (qp_info payload) key (qp_value payload) path.

(** The log is the text of the error on one line. *)
Definition map_query_error (path : string) (key : bytes) (err : EldError) : ResponseQuery :=
  mkResponseQuery 1 (LogError err) EmptyString key [] path.

(** [Info::query] *)
Definition Info_query (conn : InfoConnection) (t : QueryTimes) (query_request : RequestQuery) (l : InfoLimiters) :
    option ResponseQuery * InfoLimiters :=
  let '(refused, g) := global_check_rate_limit query_request (at_global t) (il_global l) in
  let l := mkInfoLimiters g (il_results l) (il_queries l) (il_storage l) in
  match refused with
  | Some error_response => (Some error_response, l)
  | None =>
      let '(refused, ql) := query_check_rate_limit query_request (at_query t) (il_queries l) in
      let l := mkInfoLimiters (il_global l) (il_results l) ql (il_storage l) in
      match refused with
      | Some error_response => (Some error_response, l)
      | None =>
          let path := rq_path query_request in
          let key := rq_data query_request in
          match EldAbciQuery_process (from_abci_query_request query_request) conn t l with
          | (None, l) => (None, l)
          | (Some (Ok payload), l) => (Some (to_query_response path key payload), l)
          | (Some (Err err), l) => (Some (map_query_error path key err), l)
          end
      end
  end.

(** ** Info *)

Definition decode_hash (hex_str field : string) : eld_result (byte_array 32) :=
  let? b := ok_or (hex_decode hex_str) (ValidationError field) in
  ok_or (try_array 32 b) (ValidationError field).

Definition StateData_new (eld_app_version : string) : StateData := mkStateData eld_app_version None.

Definition StateData_parse (data : string) : eld_result StateData :=
  let? parsed := ok_or (state_data_from_str data) (ValidationError "state_data") in
  match sd_stored_state parsed with
  | Some stored =>
      let? _ := decode_hash (st_app_hash stored) "app_hash" in
      let? _ := decode_hash (st_cado_root_hash stored) "cado_root_hash" in
      Ok parsed
  | None => Ok parsed
  end.

Definition hold_stored_state (data : StateData) (state : AppState) : StateData :=
  mkStateData (sd_eld_app_version data)
    ((λ hash, mkStoredAppState (block_height (envelope state)) (chain_id state)
        (current_epoch (envelope state)) (hex_encode (vec_to_list hash))
        (hex_encode (vec_to_list (root_hash (state_trie (envelope state)))))) <$> app_hash state).

(** [None] when the emitted text does not parse back ([expect]). *)
Definition to_info_json (eld_app_version : string) (state : AppState) : option string :=
  let json := state_data_text (hold_stored_state (StateData_new eld_app_version) state) in
  match StateData_parse json with Ok _ => Some json | Err _ => None end.

Record ResponseInfo : Type := mkResponseInfo {
  ri_data : string;
  ri_version : string;
  ri_app_version : Z;
  ri_last_block_height : Z;
  ri_last_block_app_hash : bytes;
}.

(** [Info::info] *)
Definition Info_info (conn : InfoConnection) : option ResponseInfo :=
  data ← to_info_json (ic_eld_app_version conn) (ic_state conn);
  Some (mkResponseInfo data (ic_eld_app_version conn) 0 (block_height (envelope (ic_state conn)))
          (AppHash_to_vec (app_hash (ic_state conn)))).
End abci_query.

(** The version comes from the environment. *)
Definition resolve_eld_app_version (var : string → option string) : string :=
  match var "ELD_APP_VERSION" with
  | Some v => if String.eqb (trim v) EmptyString then "0.0.0" else v
  | None => "0.0.0"
  end.

(** ** What is reported at the handshake *)

Section handshake.
Context {H : HexCrate} {HL : HexLaws H} {T : TrieCrate} {Q : QueryJson} {QL : QueryJsonLaws Q}.

Lemma decode_hash_encode (h : byte_array 32) field : decode_hash (hex_encode (vec_to_list h)) field = Ok h.
Proof. unfold decode_hash. rewrite hex_decode_encode. cbn [ok_or]. by rewrite try_array_to_list. Qed.

(** What the node tells of its committed state reads back exactly: the
    answer to [Info] is always produced - the check of the emitted text, which
    would stop the node, cannot fail - and parsing its [data] gives the version
    and, once an app hash is set, the height, chain and epoch of the state with
    the two hashes as the state holds them; the height and the hash are also
    the ones reported beside it. *)
Theorem info_reads_back (conn : InfoConnection) :
  let s := ic_state conn in
  ∃ r d, Info_info conn = Some r ∧ StateData_parse (ri_data r) = Ok d ∧
    sd_eld_app_version d = ic_eld_app_version conn ∧
    ri_last_block_height r = block_height (envelope s) ∧ ri_last_block_app_hash r = AppHash_to_vec (app_hash s) ∧
    match app_hash s with
    | None => sd_stored_state d = None
    | Some h => ∃ st, sd_stored_state d = Some st ∧
        st_block_height st = block_height (envelope s) ∧ st_chain_id st = chain_id s ∧
        st_current_epoch st = current_epoch (envelope s) ∧ decode_hash (st_app_hash st) "app_hash" = Ok h ∧
        decode_hash (st_cado_root_hash st) "cado_root_hash" = Ok (root_hash (state_trie (envelope s)))
    end.
Proof.
  intros s. set (d := hold_stored_state (StateData_new (ic_eld_app_version conn)) s).
  assert (StateData_parse (state_data_text d) = Ok d) as Hd.
  { unfold StateData_parse. rewrite state_data_back. cbn [ok_or]. unfold d, hold_stored_state.
    destruct (app_hash s) as [h|]; [|done]. cbn [fmap option_fmap option_map sd_stored_state st_app_hash
      st_cado_root_hash]. by rewrite !decode_hash_encode. }
  eexists _, d. unfold Info_info, to_info_json. fold s. fold d. rewrite Hd. split; [done|].
  cbn [ri_data ri_last_block_height ri_last_block_app_hash]. split_and!; try done.
  unfold d, hold_stored_state. destruct (app_hash s) as [h|]; [|done]. eexists. split; [done|].
  cbn [st_block_height st_chain_id st_current_epoch st_app_hash st_cado_root_hash].
  by rewrite !decode_hash_encode.
Qed.
End handshake.

(** ** The listings are pages *)

Section pages.
Context {H : HexCrate} {HC : HashCrates} {BC : Bincode CadoBody}.

Lemma scan_page_length o accepts id_of keys : ∀ total mem items,
  (length items ≤ pg_page_size (pq_pagination o))%nat →
  (length (scan_page o accepts id_of keys total mem items).1 ≤ pg_page_size (pq_pagination o))%nat.
Proof.
  induction keys as [|k keys IH]; intros total mem items Hl; [done|]. cbn [scan_page].
  destruct (negb _); [done|]. destruct (_ <? _); [done|]. destruct (_ <? _)%nat; [done|].
  destruct (_ <? S total)%nat; [|by apply IH].
  destruct (length items <? _)%nat eqn:E; [|done]. apply IH. rewrite length_app. cbn [length].
  apply Nat.ltb_lt in E. lia.
Qed.

Lemma map_results_length {A B} (f : A → eld_result B) l l' : map_results f l = Ok l' → length l' = length l.
Proof.
  revert l'. induction l as [|a l IH]; intros l'; cbn [map_results]; [by intros [= <-]|].
  destruct (f a) as [b|]; [|done]. destruct (map_results f l) as [bs|]; [|done]. intros [= <-].
  cbn [length]. by rewrite (IH bs).
Qed.

Lemma scan_cados_length db prefix o rows : ∀ total mem results r,
  (length results ≤ pg_page_size (pq_pagination o))%nat →
  scan_cados db prefix o rows total mem results = Ok r →
  (length r.1 ≤ pg_page_size (pq_pagination o))%nat.
Proof.
  induction rows as [|k rows IH]; intros total mem results r Hl; cbn [scan_cados]; [by intros [= <-]|].
  destruct (negb _); [by intros [= <-]|]. cbv zeta. destruct (_ <? _); [by intros [= <-]|].
  destruct (_ <? _)%nat; [by intros [= <-]|]. destruct (_ <? S total)%nat; [|by apply IH].
  destruct (length results <? _)%nat eqn:E; [|by intros [= <-]].
  destruct (cado_cf db !! _) as [v|]; [|by apply IH]. destruct (_ <? _); [by intros [= <-]|].
  destruct (safe_deserialize_cado_data v) as [c|]; [|done]. apply IH. rewrite length_app. cbn [length].
  apply Nat.ltb_lt in E. lia.
Qed.

Lemma paths_by_prefix_page db prefix now rl paths rl' :
  get_cado_paths_by_prefix db prefix now rl = (Ok paths, rl') → (length paths ≤ 100)%nat.
Proof.
  unfold get_cado_paths_by_prefix. destruct (validate_cado_prefix_security prefix); [|done].
  destruct (is_allowed _ _ _ _) as [[|] rl1]; [|done]. cbn [negb].
  unfold get_cado_paths_by_prefix_secure. destruct (PrefixQueryOptions_validate _); [|done].
  unfold rate_limited. destruct (is_allowed _ _ _ _) as [[|] rl2]; [|done].
  pose proof (scan_page_length PrefixQueryOptions_default (starts_with prefix) id (paths_from db prefix) 0 0 [])
    as Hl.
  destruct (scan_page _ _ _ _ _ _ _) as [found total]. destruct (map_results _ found) as [ps|] eqn:E; [|done].
  intros [= <- <-]. apply map_results_length in E. cbn. rewrite E. apply Hl. cbn. lia.
Qed.

Lemma cados_by_prefix_page db prefix now rl cados rl' :
  get_cados_by_prefix db prefix now rl = (Ok cados, rl') → (length cados ≤ 100)%nat.
Proof.
  unfold get_cados_by_prefix. destruct (validate_cado_prefix_security prefix); [|done].
  destruct (is_allowed _ _ _ _) as [[|] rl1]; [|done]. cbn [negb].
  unfold get_cados_by_prefix_secure. destruct (PrefixQueryOptions_validate _); [|done].
  unfold rate_limited. destruct (is_allowed _ _ _ _) as [[|] rl2]; [|done].
  destruct (scan_cados _ _ _ _ _ _ _) as [r|] eqn:E; [|done]. intros [= <- <-].
  apply scan_cados_length in E; [done|cbn; lia].
Qed.
End pages.

(** ** The result limit *)

Section result_limit.
Context {H : HexCrate} {HC : HashCrates} {C : RecordCodecs} {BC : Bincode CadoBody} {T : TrieCrate}
  {J : TxJson} {Q : QueryJson}.

(** A run of queries, each on the state the node has when it comes. *)
Definition QueryCall : Type := InfoConnection * QueryTimes * RequestQuery.

Fixpoint after_queries (calls : list QueryCall) (l : InfoLimiters) : InfoLimiters :=
  match calls with
  | [] => l
  | (conn, t, q) :: calls => after_queries calls (Info_query conn t q l).2
  end.

Definition call_kind (c : QueryCall) : AbciQueryType * Z :=
  (classify_query_type (rq_path c.2), at_global c.1.2).

(** The clock does not go back, and the two limiters of a query see it in the same minute. *)
Definition clocks_ok (calls : list QueryCall) : Prop :=
  StronglySorted Z.le (call_kind <$> calls).*2 ∧
  Forall (λ c, 0 ≤ at_global c.1.2 ∧ window_start (at_results c.1.2) = window_start (at_global c.1.2)) calls.

(** The results counted in a minute come from the listings counted in it, at
    most a page from each. *)
Definition results_linked (g : GlobalAbciRateLimiter) (r : ResultLimiter) : Prop :=
  0 ≤ total_results_returned r ∧ results_last_reset r ≤ last_reset g ∧
  (results_last_reset r = last_reset g →
     total_results_returned r ≤ 100 * Z.min (requests_of CadoList g) (get_global_rate_limit CadoList)).

(** A page of a listing that passed the global limiter passes the result limiter. *)
Lemma page_passes n now start past g g' r :
  counts g past → last_reset g ≤ start → window_start now = start →
  last_reset g' = start → counts g' (past ++ [(CadoList, now)]) →
  asked_in past CadoList start < get_global_rate_limit CadoList →
  results_linked g r → 0 ≤ n ≤ 100 →
  ∃ r', check_result_limit n CadoList now r = (None, r') ∧ results_linked g' r'.
Proof.
  intros [_ Hc] Hle Hnow Hl [_ Hc'] Hlt (H0 & Hrl & Htot) Hpage.
  assert (requests_of CadoList g' = asked_in past CadoList start + 1) as Hreq.
  { rewrite Hc', Hl, asked_in_snoc. unfold in_window_of. cbn [fst snd].
    by rewrite Hnow, Z.eqb_refl, bool_decide_eq_true_2. }
  unfold check_result_limit. rewrite Hnow.
  set (r1 := if results_last_reset r <? start then _ else r).
  assert (0 ≤ total_results_returned r1 ≤ 100 * asked_in past CadoList start ∧
          results_last_reset r1 = start) as [Hr1 Hr2].
  { subst r1. pose proof (asked_in_bound past CadoList start).
    destruct (Z.ltb_spec (results_last_reset r) start) as [Hx|Hx];
      cbn [total_results_returned results_last_reset]; [lia|].
    assert (last_reset g = start) as Eg by lia. rewrite (Hc CadoList), Eg in Htot.
    specialize (Htot ltac:(lia)). lia. }
  clearbody r1. unfold GLOBAL_RESULT_LIMIT, wrap_u32. cbn [get_global_rate_limit get_result_limit] in *.
  unfold RATE_LIMIT_MULTIPLIER in *. rewrite (proj2 (Z.ltb_ge _ _)) by lia.
  rewrite (Z.mod_small n) by lia. rewrite Z.mod_small by lia. rewrite (proj2 (Z.ltb_ge _ _)) by lia.
  eexists. split; [done|]. unfold results_linked. cbn [total_results_returned results_last_reset].
  rewrite Hreq. cbn [get_global_rate_limit]. unfold RATE_LIMIT_MULTIPLIER. lia.
Qed.

Lemma results_linked_later g g' r q now past :
  counts g past → last_reset g ≤ last_reset g' → counts g' (past ++ [(q, now)]) →
  results_linked g r → results_linked g' r.
Proof.
  intros [_ Hc] Hle [_ Hc'] (H0 & Hrl & Htot). split_and!; [done|lia|]. intros E.
  assert (last_reset g = last_reset g') as Eg by lia. specialize (Htot ltac:(lia)).
  rewrite (Hc CadoList), Eg in Htot. rewrite (Hc' CadoList), asked_in_snoc.
  destruct (in_window_of _ _ _); lia.
Qed.

(** Only a listing that passed touches the result limiter. *)
Lemma query_limiters conn t q l :
  let '(refused, g) := global_check_rate_limit q (at_global t) (il_global l) in
  let l' := (Info_query conn t q l).2 in
  il_global l' = g ∧
  (il_results l' = il_results l ∨
   refused = None ∧ classify_query_type (rq_path q) = CadoList ∧ ∃ n, 0 ≤ n ≤ 100 ∧
     il_results l' = (check_result_limit n CadoList (at_results t) (il_results l)).2).
Proof.
  unfold Info_query. destruct (global_check_rate_limit _ _ _) as [[e|] g]; [split; [done|by left]|].
  destruct (query_check_rate_limit _ _ _) as [[e|] ql]; [split; [done|by left]|].
  destruct q as [path data]. cbn [il_global il_results il_queries il_storage rq_path rq_data].
  set (l1 := mkInfoLimiters g (il_results l) ql (il_storage l)).
  assert (let p := EldAbciQuery_process (from_abci_query_request (mkRequestQuery path data)) conn t l1 in
    il_global p.2 = g ∧ (il_results p.2 = il_results l ∨
      classify_query_type path = CadoList ∧ ∃ n, 0 ≤ n ≤ 100 ∧
        il_results p.2 = (check_result_limit n CadoList (at_results t) (il_results l)).2)) as [Hg Hr].
  { cbv zeta.
    destruct (String.eqb_spec path CADO_LIST) as [->|Hl]; [|destruct (String.eqb_spec path CADO_PATHS) as [->|Hp]].
    - change (from_abci_query_request _) with (Query_CadoList CADO_LIST data). cbn [EldAbciQuery_process].
      unfold process_cado_list_query. destruct (from_utf8 data) as [s|]; [|split; [done|by left]].
      destruct (get_cados_by_prefix _ _ _ _) as [[cs|] rl] eqn:E; [|split; [done|by left]].
      apply cados_by_prefix_page in E. cbn [il_results set_il_storage l1].
      destruct (check_result_limit _ _ _ _) as [[e|] r] eqn:Er; (split; [done|right]; split; [done|]);
        exists (Z.of_nat (length cs)); rewrite Er; (split; [lia|done]).
    - change (from_abci_query_request _) with (Query_CadoPaths CADO_PATHS data). cbn [EldAbciQuery_process].
      unfold process_cado_paths_query. destruct (from_utf8 data) as [s|]; [|split; [done|by left]].
      destruct (get_cado_paths_by_prefix _ _ _ _) as [[cs|] rl] eqn:E; [|split; [done|by left]].
      apply paths_by_prefix_page in E. cbn [il_results set_il_storage l1].
      destruct (check_result_limit _ _ _ _) as [[e|] r] eqn:Er; (split; [done|right]; split; [done|]);
        exists (Z.of_nat (length cs)); rewrite Er; (split; [lia|done]).
    - unfold from_abci_query_request. cbn [rq_path rq_data]. rewrite (proj2 (String.eqb_neq _ _) Hl).
      rewrite (proj2 (String.eqb_neq _ _) Hp).
      repeat (destruct (String.eqb path _); [split; [|left]; cbn [EldAbciQuery_process];
        first [done|by destruct (ProtocolHandle_get _)]|]). split; [done|by left]. }
  destruct (EldAbciQuery_process _ _ _ _) as [[[p|e]|] l2]; (split; [exact Hg|]);
    (destruct Hr as [Hr|(Hk & n & Hn & Hr)]; [by left|right; split; [done|]; split; [done|]; by exists n]).
Qed.

Lemma counts_same_minute g past q a b :
  window_start b = window_start a → counts g (past ++ [(q, a)]) → counts g (past ++ [(q, b)]).
Proof.
  intros Hw [Ho Hn]. split.
  - intros r Hin. apply elem_of_app in Hin as [Hin|Hin%list_elem_of_singleton].
    + apply Ho, elem_of_app. by left.
    + subst r. cbn [snd]. rewrite Hw. apply (Ho (q, a)), elem_of_app. right. by left.
  - intros k. rewrite Hn, !asked_in_snoc. unfold in_window_of. cbn [fst snd]. by rewrite Hw.
Qed.

(** The invariant of a run: the counters are those of the history, and the
    results are linked to them. *)
Lemma after_queries_linked calls : ∀ past l,
  counts (il_global l) past → results_linked (il_global l) (il_results l) → clocks_ok calls →
  (∀ c, c ∈ calls → last_reset (il_global l) ≤ window_start (at_global c.1.2)) →
  Z.of_nat (length past + length calls) < 2 ^ 32 →
  counts (il_global (after_queries calls l)) (past ++ (call_kind <$> calls)) ∧
  results_linked (il_global (after_queries calls l)) (il_results (after_queries calls l)) ∧
  ∀ now, last_reset (il_global l) ≤ window_start now → Forall (λ c, at_global c.1.2 ≤ now) calls →
    last_reset (il_global (after_queries calls l)) ≤ window_start now.
Proof.
  induction calls as [|[[conn t] q] calls IH]; intros past l Hc Hr [Hs Hm] Hf Hlen.
  { rewrite fmap_nil, app_nil_r. split_and!; try done. }
  rewrite !fmap_cons in Hs. apply StronglySorted_inv in Hs as [Hs Ht]. apply Forall_cons_iff in Hm as [[H0 Hw] Hm].
  cbn [length] in Hlen. cbn [after_queries fst snd call_kind] in *.
  assert (last_reset (il_global l) ≤ window_start (at_global t)) as Hle.
  { apply (Hf (conn, t, q)). constructor. }
  destruct (check_step (classify_query_type (rq_path q)) (at_global t) (il_global l) past Hc Hle ltac:(lia))
    as (refused & g & Hg & Hl & Hc' & Hpass).
  pose proof (query_limiters conn t q l) as Hq. unfold global_check_rate_limit in Hq. rewrite Hg in Hq.
  destruct Hq as [Eg Er]. set (l' := (Info_query conn t q l).2) in *.
  assert (results_linked (il_global l') (il_results l')) as Hr'.
  { rewrite Eg. destruct Er as [->|(-> & Hk & n & Hn & ->)].
    - eapply results_linked_later; [exact Hc| |exact Hc'|exact Hr]. lia.
    - rewrite Hk in Hc', Hpass.
      destruct (page_passes n (at_results t) (window_start (at_global t)) past (il_global l) g (il_results l)
        Hc Hle Hw Hl (counts_same_minute _ _ _ _ _ Hw Hc')) as (r' & Ec & Hlk); [by apply Hpass|done..|].
      by rewrite Ec. }
  rewrite <- Eg in Hc', Hl.
  destruct (IH (past ++ [call_kind (conn, t, q)]) l' Hc' Hr') as (H1 & H2 & H3).
  - by split.
  - intros c Hin. rewrite Hl. apply window_start_mono. rewrite Forall_forall in Ht.
    apply Ht, list_elem_of_In, (list_elem_of_fmap_2 snd _ (call_kind c)). by apply list_elem_of_fmap_2.
  - rewrite length_app. cbn [length]. lia.
  - rewrite <- app_assoc in H1. split_and!; [done..|]. intros now _ [Hn Hall]%Forall_cons_iff.
    apply H3; [|done]. rewrite Hl. by apply window_start_mono.
Qed.

(** The limit on results never refuses a listing.  Along any run of
    queries on a clock that does not go back, a listing that the limiter of
    requests lets through finds the limiter of results below its limit: a
    listing answers a page of at most one hundred, ten thousand listings pass in
    a minute, and a million results are allowed. *)
Theorem result_limit_never_reached (storage : PrefixQueryRateLimiter) (calls : list QueryCall)
    (conn : InfoConnection) (t : QueryTimes) (q : RequestQuery) (prefix : string) :
  clocks_ok (calls ++ [(conn, t, q)]) → Z.of_nat (length calls) < 2 ^ 32 - 1 →
  let l := after_queries calls (InfoLimiters_new storage) in
  classify_query_type (rq_path q) = CadoList →
  (global_check_rate_limit q (at_global t) (il_global l)).1 = None →
  (∀ cados rl, get_cados_by_prefix (ic_db conn) prefix (at_storage t) (il_storage l) = (Ok cados, rl) →
     (check_result_limit (Z.of_nat (length cados)) CadoList (at_results t) (il_results l)).1 = None) ∧
  ∀ paths rl, get_cado_paths_by_prefix (ic_db conn) prefix (at_storage t) (il_storage l) = (Ok paths, rl) →
     (check_result_limit (Z.of_nat (length paths)) CadoList (at_results t) (il_results l)).1 = None.
Proof.
  intros [Hs Hm] Hlen l Hk Hpass. apply Forall_app in Hm as [Hm Hm1]. apply Forall_cons_iff in Hm1 as [[H0 Hw] _].
  cbn [fst snd] in H0, Hw. rewrite !fmap_app in Hs. apply StronglySorted_app in Hs as (Hlast & Hs & _).
  assert (Forall (λ c : QueryCall, at_global c.1.2 ≤ at_global t) calls) as Hbefore.
  { apply Forall_forall. intros c Hin%list_elem_of_In. apply Hlast; [|by left].
    apply (list_elem_of_fmap_2 snd _ (call_kind c)). by apply list_elem_of_fmap_2. }
  destruct (after_queries_linked calls [] (InfoLimiters_new storage)) as (Hc & Hr & Hlr).
  - apply counts_new.
  - by split_and!.
  - by split.
  - intros c Hin. cbn. apply (window_start_mono 0). rewrite Forall_forall in Hm.
    by apply (Hm c), list_elem_of_In.
  - cbn [length]. lia.
  - fold l in Hc, Hr, Hlr. specialize (Hlr (at_global t) (window_start_mono 0 _ H0) Hbefore).
    destruct (check_step CadoList (at_global t) (il_global l) _ Hc Hlr ltac:(cbn [app]; rewrite length_fmap; lia))
      as (refused & g & Hg & Hl & Hc' & Hp).
    unfold global_check_rate_limit in Hpass. rewrite Hk, Hg in Hpass. cbn [fst] in Hpass.
    assert (∀ n, 0 ≤ n ≤ 100 →
      (check_result_limit n CadoList (at_results t) (il_results l)).1 = None) as Hn.
    { intros n Hn. destruct (page_passes n (at_results t) (window_start (at_global t)) _ (il_global l) g
        (il_results l) Hc Hlr Hw Hl (counts_same_minute _ _ _ _ _ Hw Hc')) as (r' & -> & _);
        [by apply Hp|done..]. }
    split; intros ps rl E; apply Hn.
    + apply cados_by_prefix_page in E. lia.
    + apply paths_by_prefix_page in E. lia.
Qed.
End result_limit.

(** ** A format for the answers *)

#[export] Instance ActiveValidatorsInfo_eq_dec : EqDecision ActiveValidatorsInfo.
Proof. solve_decision. Defined.
#[export] Instance CapacityValidatorsInfo_eq_dec : EqDecision CapacityValidatorsInfo.
Proof. solve_decision. Defined.
#[export] Instance EpochInfo_eq_dec : EqDecision EpochInfo.
Proof. solve_decision. Defined.
#[export] Instance StoredAppState_eq_dec : EqDecision StoredAppState.
Proof. solve_decision. Defined.
#[export] Instance StateData_eq_dec : EqDecision StateData.
Proof. solve_decision. Defined.

#[export, program] Instance ActiveValidatorsInfo_countable : Countable ActiveValidatorsInfo :=
  inj_countable' (λ i, (av_validators i, av_total_stake i, av_current_epoch i))
    (λ '(a, b, c), mkActiveValidatorsInfo a b c) _.
Next Obligation. by intros []. Qed.

#[export, program] Instance CapacityValidatorsInfo_countable : Countable CapacityValidatorsInfo :=
  inj_countable' (λ i, (cvs_capacity_validators i, cvs_total_stake i, cvs_total_capacity i, cvs_current_epoch i))
    (λ '(a, b, c, d), mkCapacityValidatorsInfo a b c d) _.
Next Obligation. by intros []. Qed.

#[export, program] Instance EpochInfo_countable : Countable EpochInfo :=
  inj_countable' (λ i, (ei_current_epoch i, ei_current_block i, ei_blocks_per_epoch i,
      ei_validators_per_epoch i, ei_blocks_until_next_epoch i))
    (λ '(a, b, c, d, e), mkEpochInfo a b c d e) _.
Next Obligation. by intros []. Qed.

#[export, program] Instance StoredAppState_countable : Countable StoredAppState :=
  inj_countable' (λ s, (st_block_height s, st_chain_id s, st_current_epoch s, st_app_hash s, st_cado_root_hash s))
    (λ '(a, b, c, d, e), mkStoredAppState a b c d e) _.
Next Obligation. by intros []. Qed.

#[export, program] Instance StateData_countable : Countable StateData :=
  inj_countable' (λ d, (sd_eld_app_version d, sd_stored_state d)) (λ '(a, b), mkStateData a b) _.
Next Obligation. by intros []. Qed.

(** A letter for the kind of answer, then the bits of its code; the answers no
    client parses have no bits. *)
Definition coded {A : Type} `{Countable A} (c : ascii) (a : A) : string := String c (pos_to_text (encode a)).

Definition uncoded {A : Type} `{Countable A} (c : ascii) (s : string) : option A :=
  match s with
  | String d s => if Ascii.eqb c d then decode (text_to_pos s) else None
  | EmptyString => None
  end.

Lemma uncoded_coded {A : Type} `{Countable A} c (a : A) : uncoded c (coded c a) = Some a.
Proof. unfold uncoded, coded. by rewrite Ascii.eqb_refl, text_to_pos_to_text, decode_encode. Qed.

#[export] Instance ref_query_json : QueryJson := {|
  info_text i :=
    match i with
    | ActiveInfo i => coded "a" i
    | CapacityInfo i => coded "b" i
    | EpochInfoInfo i => coded "c" i
    | CadoInfo c => coded "d" c
    | CadoListInfo l => coded "e" l
    | CadoPathsInfo l => coded "f" l
    | _ => "-"
    end;
  estimated_fee_bytes fee := as_bytes (to_string fee);
  feed_request_from_slice _ := None;
  state_data_text d := coded "s" d;
  state_data_from_str := uncoded "s";
  active_from_str := uncoded "a";
  capacity_from_str := uncoded "b";
  epoch_info_from_str := uncoded "c";
  cado_from_str := uncoded "d";
  cados_from_str := uncoded "e";
  paths_from_str := uncoded "f";
|}.

#[export] Instance ref_query_json_laws : QueryJsonLaws ref_query_json.
Proof. split; intros i; try apply uncoded_coded. by destruct i. Qed.

(** ** Witnesses *)

Definition test_conn (db : Database) : InfoConnection :=
  mkInfoConnection (mkAppState (Some test_key) (set_block_height 7 envelope_default) "eld")
    (mkChainTip 7 0 (Some test_key)) db test_gc_meta (Some local_dev) "0.4.1".

Lemma info_reads_back_witness :
  ∃ r d, Info_info (T := ref_trie) (test_conn empty_database) = Some r ∧ StateData_parse (ri_data r) = Ok d ∧
    sd_eld_app_version d = "0.4.1" ∧ ri_last_block_height r = 7.
Proof.
  destruct (info_reads_back (T := ref_trie) (test_conn empty_database)) as (r & d & Hr & Hd & Hv & Hh & _).
  exists r, d. split; [exact Hr|]. split; [exact Hd|]. split; [exact Hv|exact Hh].
Defined.

Definition test_listing (now : Z) : QueryCall :=
  (test_conn empty_database, mkQueryTimes now (now * 10 ^ 9) (now * 10 ^ 9) now,
   mkRequestQuery "cado_list" (as_bytes "/@eld/account/")).

Lemma result_limit_never_reached_witness :
  let l := after_queries (BC := body_bincode test_body) (J := test_json)
    [test_listing 59; test_listing 60] (InfoLimiters_new RateLimiter_default) in
  (check_result_limit 0 CadoList 61 (il_results l)).1 = None.
Proof.
  refine (proj1 (result_limit_never_reached (BC := body_bincode test_body) (J := test_json)
    RateLimiter_default [test_listing 59; test_listing 60] (test_conn empty_database)
    (mkQueryTimes 61 (61 * 10 ^ 9) (61 * 10 ^ 9) 61) (mkRequestQuery "cado_list" (as_bytes "/@eld/account/"))
    "/@eld/account/" _ _ _ _) [] _ _).
  - split; [repeat constructor; vm_compute; discriminate|repeat constructor; vm_compute; discriminate].
  - reflexivity.
  - reflexivity.
  - vm_compute. reflexivity.
  - vm_compute. reflexivity.
Defined.
