(* ===== verification/Wallets.v ===== *)
(** Wallet files: [JsonWallet] and the conversions of common/src/wallet.rs,
    the store of client/src/wallet_store_config.rs and the operations of
    client/src/facade/wallets.rs.

    The file is one text under the path of the store; its JSON and the bytes of
    a secret key are parameters.  Permissions are not modelled. *)
From S2P Require Import Prelude Externals Reference Coins Address Cado Records Tx Merkle Wire Validation Fee Pinboard AppState Deliver Storage Slots Capacity Sync Mempool Exchange.

(** ** Data *)

Record JsonKeypair : Type := mkJsonKeypair {
  jk_public_key : string;
  jk_private_key : string;
  jk_keytype : string;
}.

Record JsonWallet : Type := mkJsonWallet {
  jw_name : string;
  jw_address : string;
  jw_keypair : JsonKeypair;
}.

(** [SigningKey::to_bytes] and [from_bytes]. *)
Class SecretKeys (E : Ed25519) : Type := {
  sk_to_bytes : signing_key → byte_array 32;
  sk_from_bytes : byte_array 32 → signing_key;
}.

Class SecretKeysLaws {E : Ed25519} (S : SecretKeys E) : Prop := {
  sk_from_to sk : sk_from_bytes (sk_to_bytes sk) = sk;
}.

(** [serde_json] on a list of wallets. *)
Class WalletJson : Type := {
  wallets_to_json : list JsonWallet → string;
  wallets_from_json : string → option (list JsonWallet);
}.

Class WalletJsonLaws (W : WalletJson) : Prop := {
  wallets_json_back l : wallets_from_json (wallets_to_json l) = Some l;
}.

(** What reading the path of a store gives. *)
Inductive WalletFile : Type :=
| NoFile
| Unreadable
| FileText (s : string).

Section wallets.
Context {H : HexCrate} {HC : HashCrates} {E : Ed25519} {S : SecretKeys E} {W : WalletJson}.

(** The [Wallet] of the submitter, with its name. *)
Record NamedWallet : Type := mkNamedWallet {
  nw_name : string;
  nw_wallet : Wallet;
}.

(** [None]: the address could not be derived ([expect]). *)
Definition from_signing_key (name : string) (sk : signing_key) : option NamedWallet :=
  address ← ok (from_public_key (verifying_key_of sk));
  Some (mkNamedWallet name (mkWallet address sk)).

Definition from_json_wallet (w : JsonWallet) : eld_result NamedWallet :=
  let? b := ok_or (hex_decode (jk_private_key (jw_keypair w))) (ValidationError "private_key") in
  let? private_key_bytes := ok_or (try_array 32 b) (ValidationError "private_key") in
  let sk := sk_from_bytes private_key_bytes in
  match from_public_key (verifying_key_of sk) with
  | Err _ => Err (WalletError "derive_address" (jw_name w))
  | Ok derived_address =>
      let? address := parse_hex_str (jw_address w) in
      if negb (bool_decide (address = derived_address)) then Err (WalletError "load_wallet" (jw_name w))
      else Ok (mkNamedWallet (jw_name w) (mkWallet address sk))
  end.

Definition to_json (w : NamedWallet) : JsonWallet :=
  mkJsonWallet (nw_name w) (Address_hex (wallet_address (nw_wallet w)))
    (mkJsonKeypair (hex_encode (verifying_key_of (wallet_key (nw_wallet w))))
       (hex_encode (sk_to_bytes (wallet_key (nw_wallet w)))) "ed25519_keypair").

(** ** The store *)

(** The wallets read when the store was made; the file is passed apart. *)
Record WalletStoreConfig : Type := mkWalletStore { store_wallets : list NamedWallet }.

Definition at_path : WalletStoreConfig := mkWalletStore [].

Definition load_json_wallets (file : WalletFile) : eld_result (list JsonWallet) :=
  match file with
  | NoFile => Ok []
  | Unreadable => Err (WalletError "read_wallet_file" "")
  | FileText json => ok_or (wallets_from_json json) (ValidationError "wallet_json")
  end.

Definition load_wallets (file : WalletFile) : eld_result (list NamedWallet) :=
  let? l := load_json_wallets file in
  try_fold (λ acc w, let? w := from_json_wallet w in Ok (acc ++ [w])) [] l.

Definition WalletStoreConfig_new (file : WalletFile) : eld_result WalletStoreConfig :=
  match file with
  | NoFile => Err (WalletError "load_wallet_file" "")
  | _ => let? wallets := load_wallets file in Ok (mkWalletStore wallets)
  end.

Definition wallet_by_name (store : WalletStoreConfig) (name : string) : eld_result NamedWallet :=
  ok_or (List.find (λ w, String.eqb (nw_name w) name) (store_wallets store)) (NotFoundError "Wallet" name).

Definition wallet_by_address (store : WalletStoreConfig) (address : string) : eld_result NamedWallet :=
  match parse_hex_str address with
  | Err _ => Err (WalletError "parse_wallet_address" address)
  | Ok target =>
      ok_or (List.find (λ w, bool_decide (wallet_address (nw_wallet w) = target)) (store_wallets store))
        (NotFoundError "Wallet" address)
  end.

Definition not_found_to_none (r : eld_result NamedWallet) : eld_result (option NamedWallet) :=
  match r with
  | Ok wallet => Ok (Some wallet)
  | Err (NotFoundError _ _) => Ok None
  | Err e => Err e
  end.

Definition get_wallet_by_name (store : WalletStoreConfig) (name : string) : eld_result (option NamedWallet) :=
  not_found_to_none (wallet_by_name store name).

Definition get_wallet_by_address (store : WalletStoreConfig) (address : string) :
    eld_result (option NamedWallet) :=
  not_found_to_none (wallet_by_address store address).

(** [create_wallet_with_store_config]; [sk] is the random key, [write] whether
    the file can be written. *)
Definition create_wallet (name : string) (sk : signing_key) (write : bool) (file : WalletFile) :
    option (eld_result NamedWallet * WalletFile) :=
  wallet ← from_signing_key name sk;
  Some (match load_json_wallets file with
        | Err e => (Err e, file)
        | Ok wallets =>
            if write then (Ok wallet, FileText (wallets_to_json (wallets ++ [to_json wallet])))
            else (Err (WalletError "write_wallet_file" ""), file)
        end).

Definition remove_wallet (name : string) (write : bool) (file : WalletFile) :
    eld_result bool * WalletFile :=
  match load_json_wallets file with
  | Err e => (Err e, file)
  | Ok wallets =>
      let kept := List.filter (λ w, negb (String.eqb (jw_name w) name)) wallets in
      if (length kept =? length wallets)%nat then (Ok false, file)
      else if write then (Ok true, FileText (wallets_to_json kept))
      else (Err (WalletError "write_wallet_file" ""), file)
  end.
End wallets.

(** ** Wallets come back from their file *)

Section wallet_facts.
Context {H : HexCrate} {HL : HexLaws H} {HC : HashCrates} {E : Ed25519} {S : SecretKeys E}
  {SL : SecretKeysLaws S} {W : WalletJson} {WL : WalletJsonLaws W}.

Lemma wallet_json_back name sk w : from_signing_key name sk = Some w → from_json_wallet (to_json w) = Ok w.
Proof.
  unfold from_signing_key. destruct (from_public_key (verifying_key_of sk)) as [a|] eqn:Ea; [|done].
  cbn [ok mbind option_bind]. intros [= <-]. unfold from_json_wallet, to_json.
  cbn [jw_keypair jk_private_key jw_address jw_name nw_name nw_wallet wallet_key wallet_address].
  rewrite hex_decode_encode. cbn [ok_or]. rewrite try_array_to_list. cbn [ok_or]. rewrite sk_from_to, Ea.
  unfold parse_hex_str, Address_hex. change (hex_encode (addr_value a)) with (String.append EmptyString (hex_encode (addr_value a))).
  rewrite decode_fixed_hex_encode by auto. destruct a. by rewrite bool_decide_eq_true_2.
Qed.

Lemma load_wallets_snoc l w ws :
  load_wallets (FileText (wallets_to_json l)) = Ok ws →
  from_json_wallet (to_json w) = Ok w →
  load_wallets (FileText (wallets_to_json (l ++ [to_json w]))) = Ok (ws ++ [w]).
Proof.
  unfold load_wallets, load_json_wallets. rewrite !wallets_json_back. cbn [ok_or]. intros Hl Hw.
  rewrite try_fold_app, Hl. cbn [try_fold]. by rewrite Hw.
Qed.

(** The wallets of a loaded file are in the order of the file, under its names. *)
Lemma load_wallets_names l ws :
  load_wallets (FileText (wallets_to_json l)) = Ok ws → nw_name <$> ws = jw_name <$> l.
Proof.
  unfold load_wallets, load_json_wallets. rewrite wallets_json_back. cbn [ok_or]. revert ws.
  induction l as [|w l IH] using rev_ind; intros ws; [by intros [= <-]|].
  rewrite try_fold_app. destruct (try_fold _ [] l) as [acc|] eqn:Eacc; [|done]. cbn [try_fold].
  destruct (from_json_wallet w) as [nw|] eqn:Ew; [|done]. intros [= <-].
  rewrite !fmap_app, (IH acc eq_refl). f_equal. cbn. f_equal. unfold from_json_wallet in Ew.
  repeat match type of Ew with
  | (match ?e with _ => _ end) = Ok _ => destruct e; try discriminate
  end. by injection Ew as <-.
Qed.

(** A wallet that loads signs for its address: a file whose address is not that of its key is refused. *)
Theorem loaded_wallet_owns_address (file : WalletFile) (ws : list NamedWallet) (w : NamedWallet) :
  load_wallets file = Ok ws → w ∈ ws →
  from_public_key (verifying_key_of (wallet_key (nw_wallet w))) = Ok (wallet_address (nw_wallet w)).
Proof.
  unfold load_wallets. destruct (load_json_wallets file) as [l|]; [|done].
  revert ws. induction l as [|j l IH] using rev_ind; intros ws; [by intros [= <-] ?%elem_of_nil|].
  rewrite try_fold_app. destruct (try_fold _ [] l) as [acc|]; [|done]. cbn [try_fold].
  destruct (from_json_wallet j) as [nw|] eqn:Ew; [|done]. intros [= <-].
  intros [Hin| ->%list_elem_of_singleton]%elem_of_app; [by apply (IH acc)|].
  unfold from_json_wallet in Ew. destruct (ok_or (hex_decode _) _); [|done].
  destruct (ok_or (try_array 32 _) _) as [k|]; [|done].
  destruct (from_public_key (verifying_key_of (sk_from_bytes k))) as [d|] eqn:Ed; [|done].
  destruct (parse_hex_str _) as [ad|]; [|done].
  destruct (decide (ad = d)) as [<-|Hne]; [|by rewrite bool_decide_eq_false_2 in Ew].
  rewrite bool_decide_eq_true_2 in Ew by done. by injection Ew as <-.
Qed.

Lemma find_app_last {A} (f : A → bool) l x :
  (∀ y, y ∈ l → f y = false) → f x = true → List.find f (l ++ [x]) = Some x.
Proof.
  intros Hl Hx. induction l as [|y l IH]; cbn [app List.find]; [by rewrite Hx|].
  rewrite (Hl y (list_elem_of_here _ _)). apply IH. intros z Hz. apply Hl. by right.
Qed.

(** A wallet the client creates is in the file and comes back from it: a
    store opened on the written file finds it under its name, with the same key
    and address, after the wallets that were there.  The store the client
    already holds was read when it was opened and does not find it. *)
Theorem created_wallet_needs_reopen (name : string) (sk : signing_key) (l : list JsonWallet)
    (store : WalletStoreConfig) (w : NamedWallet) (file : WalletFile) :
  WalletStoreConfig_new (FileText (wallets_to_json l)) = Ok store → name ∉ jw_name <$> l →
  create_wallet name sk true (FileText (wallets_to_json l)) = Some (Ok w, file) →
  wallet_key (nw_wallet w) = sk ∧
  WalletStoreConfig_new file = Ok (mkWalletStore (store_wallets store ++ [w])) ∧
  get_wallet_by_name (mkWalletStore (store_wallets store ++ [w])) name = Ok (Some w) ∧
  get_wallet_by_name store name = Ok None.
Proof.
  intros Hs Hn Hc. unfold create_wallet in Hc. destruct (from_signing_key name sk) as [w'|] eqn:Ew; [|done].
  unfold load_json_wallets in Hc. rewrite wallets_json_back in Hc. cbn [ok_or mbind option_bind] in Hc.
  injection Hc as -> <-. unfold WalletStoreConfig_new in *.
  destruct (load_wallets (FileText (wallets_to_json l))) as [ws|] eqn:El; [|done]. injection Hs as <-.
  rewrite (load_wallets_snoc l w ws El) by (by eapply wallet_json_back).
  assert (nw_name w = name ∧ wallet_key (nw_wallet w) = sk) as [Hw Hk].
  { unfold from_signing_key in Ew. destruct (from_public_key _); [|done]. by injection Ew as <-. }
  assert (∀ y, y ∈ ws → String.eqb (nw_name y) name = false) as Hno.
  { intros y Hy. apply String.eqb_neq. intros <-. apply Hn. rewrite <- (load_wallets_names l ws El).
    by apply list_elem_of_fmap_2. }
  split_and!; [done|done|..]; unfold get_wallet_by_name, wallet_by_name; cbn [store_wallets].
  - rewrite find_app_last; [done|done|]. by rewrite Hw, String.eqb_refl.
  - assert (List.find (λ y, String.eqb (nw_name y) name) ws = None) as ->; [|done].
    clear El. induction ws as [|y ws IH]; [done|]. cbn [List.find].
    rewrite (Hno y (list_elem_of_here _ _)). apply IH. intros z Hz. apply Hno. by right.
Qed.
End wallet_facts.

(** ** Witnesses *)

#[export] Instance ref_secret_keys : SecretKeys ref_ed25519 := {| sk_to_bytes k := k; sk_from_bytes k := k |}.
#[export] Instance ref_secret_keys_laws : SecretKeysLaws ref_secret_keys.
Proof. by constructor. Qed.

#[export] Instance JsonKeypair_eq_dec : EqDecision JsonKeypair.
Proof. solve_decision. Defined.
#[export] Instance JsonWallet_eq_dec : EqDecision JsonWallet.
Proof. solve_decision. Defined.
#[export, program] Instance JsonWallet_countable : Countable JsonWallet :=
  inj_countable' (λ w, (jw_name w, jw_address w, jk_public_key (jw_keypair w), jk_private_key (jw_keypair w),
                        jk_keytype (jw_keypair w)))
    (λ t, let '(n, a, x, y, z) := t in mkJsonWallet n a (mkJsonKeypair x y z)) _.
Next Obligation. by intros [n a [x y z]]. Qed.

#[export] Instance ref_wallet_json : WalletJson := {|
  wallets_to_json l := pos_to_text (encode l);
  wallets_from_json s := decode (text_to_pos s);
|}.
#[export] Instance ref_wallet_json_laws : WalletJsonLaws ref_wallet_json.
Proof. split. intros l. cbn. by rewrite text_to_pos_to_text, decode_encode. Qed.

Definition test_created : NamedWallet := mkNamedWallet "second" (mkWallet test_sender test_sk).

Lemma created_wallet_needs_reopen_witness :
  get_wallet_by_name (mkWalletStore [test_created]) "second" = Ok (Some test_created) ∧
  get_wallet_by_name (E := ref_ed25519) (mkWalletStore []) "second" = Ok None.
Proof.
  destruct (created_wallet_needs_reopen (W := ref_wallet_json) "second" test_sk [] (mkWalletStore []) test_created
    (FileText (wallets_to_json [to_json test_created]))) as (_ & _ & H1 & H2).
  - unfold WalletStoreConfig_new, load_wallets, load_json_wallets. by rewrite wallets_json_back.
  - apply not_elem_of_nil.
  - unfold create_wallet, load_json_wallets. rewrite wallets_json_back.
    assert (from_signing_key "second" test_sk = Some test_created) as ->
      by (vm_compute; reflexivity). done.
  - split; [exact H1|exact H2].
Defined.
