(* ===== verification/Client.v ===== *)
(** The client library: the queries of client/src/api/abci/http.rs and query.rs,
    the broadcast of tx_broadcast.rs, and the flows of client/src/facade.

    The RPC server of a node is an argument: what it answers to an
    [abci_query], to a POST of [broadcast_tx_commit] and to a block request.
    The URLs of the configuration are taken as resolved. *)
From S2P Require Import Prelude Externals Reference Coins Address Ordering Namespace Cado Records Tx TxCodes Merkle Wire Validation TxTyped UserPost Fee Pinboard AppState Ledger Processors VerifiedProof Deliver Storage Slots Capacity Feed Gc Sync Mempool Exchange Paging Prefix Indexer IndexerSync RestApi RestReads PinboardApi AbciLimits AbciQuery Wallets.

(** What comes back of an [abci_query]; [None] when the request fails. *)
Definition AbciRpc : Type := RequestQuery → option ResponseQuery.

(** [value[key]]: null when there is no such entry. *)
Definition value_at (v : Value) (k : string) : Value := default JNull (value_get v k).

Definition is_null (v : Value) : bool := match v with JNull => true | _ => false end.

(** ** Queries *)

Section queries.
Context {H : HexCrate} {HC : HashCrates} {C : RecordCodecs} {SJ : SerdeJson} {Q : QueryJson}.

(** A query whose answer is read from [info]: nothing when it is empty, the
    value otherwise.  The code of the answer is not looked at. *)
Definition query_info {A} (rpc : AbciRpc) (path : string) (data : bytes) (operation field : string)
    (parse : string → option A) : eld_result (option A) :=
  let? response := ok_or (rpc (mkRequestQuery path data)) (NetworkError operation) in
  if String.eqb (rs_info response) EmptyString then Ok None
  else let? info := ok_or (parse (rs_info response)) (ValidationError field) in Ok (Some info).

Definition get_active_validators (rpc : AbciRpc) : eld_result (option ActiveValidatorsInfo) :=
  query_info rpc "active_validators" [] "get_active_validators" "active_validators_response" active_from_str.

Definition get_epoch_info (rpc : AbciRpc) : eld_result (option EpochInfo) :=
  query_info rpc "epoch_info" [] "get_epoch_info" "epoch_info_response" epoch_info_from_str.

Definition get_capacity_validators (rpc : AbciRpc) : eld_result (option CapacityValidatorsInfo) :=
  query_info rpc ACTIVE_CAPACITY_VALIDATORS [] "get_capacity_validators" "capacity_validators_response"
    capacity_from_str.

Definition is_capacity_provider_registered (rpc : AbciRpc) (provider_address : string) : eld_result bool :=
  let? providers_info := get_capacity_validators rpc in
  match providers_info with
  | Some info =>
      let? parsed := parse_hex_str provider_address in
      Ok (existsb (λ sp, bool_decide (cv_address sp = parsed)) (cvs_capacity_validators info))
  | None => Ok false
  end.

Definition client_get_account_by_address (rpc : AbciRpc) (address : string) : eld_result (option Account) :=
  let? addr := parse_hex_str address in
  let? cado_path := CadoPath_new Cado_Account (Key_Address addr) in
  let? found := query_info rpc "cado" (as_bytes (cp_path cado_path)) "get_account_by_address"
                  "account_cado_response" cado_from_str in
  match found with
  | None => Ok None
  | Some cado => let? account := Account_deserialize_bin (CadoBody_data cado) in Ok (Some account)
  end.

Definition get_staking_account (rpc : AbciRpc) (address : string) : eld_result (option StakingAccount) :=
  let? addr := parse_hex_str address in
  let? cado_path := CadoPath_new Cado_StakingAccount (Key_Address addr) in
  let? found := query_info rpc "cado" (as_bytes (cp_path cado_path)) "get_staking_account"
                  "staking_account_cado_response" cado_from_str in
  match found with
  | None => Ok None
  | Some cado =>
      let? account := ok_or (bin_deserialize (CadoBody_data cado)) (ValidationError "staking_account_data") in
      Ok (Some account)
  end.

(** Null when the answer is empty. *)
Definition get_cado (rpc : AbciRpc) (path : string) : eld_result Value :=
  let? v := query_info rpc "cado" (as_bytes path) "get_cado" "cado_response" value_from_str in
  Ok (default JNull v).

Definition client_get_cados_by_prefix (rpc : AbciRpc) (prefix : string) : eld_result (list CadoBody) :=
  let? l := query_info rpc "cado_list" (as_bytes prefix) "get_cados_by_prefix" "cados_by_prefix_response"
              cados_from_str in
  Ok (default [] l).

Definition get_cado_paths (rpc : AbciRpc) (search_string : string) : eld_result (list string) :=
  let? l := query_info rpc "cado_paths" (as_bytes search_string) "get_cado_paths" "cado_paths_response"
              paths_from_str in
  Ok (default [] l).

Definition pinboard_query (rpc : AbciRpc) (path : string) : eld_result Value :=
  let? v := query_info rpc PINBOARD (as_bytes path) "pinboard_query" "pinboard_query_response" value_from_str in
  Ok (default JNull v).

(** *** query.rs *)

Definition next_nonce_from_account (account : Account) : eld_result Nonce :=
  ok_or (Nonce_next (acc_nonce account)) (ValidationError "nonce").

Definition get_next_nonce_for_account (rpc : AbciRpc) (address : string) : eld_result (option Nonce) :=
  let? account := client_get_account_by_address rpc address in
  match account with
  | Some account => let? n := next_nonce_from_account account in Ok (Some n)
  | None => Ok None
  end.

(** json_bytes.rs *)
Definition json_number_array_as_bytes (values : list Value) (field : string) : eld_result bytes :=
  ok_or (mapM read_u8 values) (ValidationError field).

(** The bytes of a mutable object, as an array of numbers. *)
Definition mutable_data (response : Value) : option (list Value) :=
  cado ← value_get response "Mutable";
  data ← value_get cado "data";
  as_array data.

Definition get_next_nonce_for_account_cado (rpc : AbciRpc) (address : string) : eld_result (option Nonce) :=
  let? addr := parse_hex_str address in
  let? path := CadoPath_new Cado_Account (Key_Address addr) in
  let? response := get_cado rpc (cp_path path) in
  match mutable_data response with
  | None => Ok None
  | Some data_array =>
      let? data_bytes := json_number_array_as_bytes data_array "account_cado_data" in
      match Account_deserialize_bin data_bytes with
      | Err _ => Err (ValidationError "account_data")
      | Ok account => let? n := next_nonce_from_account account in Ok (Some n)
      end
  end.

Definition client_get_account_from_cado (rpc : AbciRpc) (path : string) : eld_result Account :=
  let? response := get_cado rpc path in
  match mutable_data response with
  | None => Err (NotFoundError "Account" path)
  | Some data_array =>
      let? data_bytes := json_number_array_as_bytes data_array "account_cado_data" in
      match Account_deserialize_bin data_bytes with
      | Err _ => Err (ValidationError "account_data")
      | Ok account => Ok account
      end
  end.

(** *** facade/epoch.rs and facade/pinboard.rs *)

Definition view_epoch_info (rpc : AbciRpc) : eld_result EpochInfo :=
  let? i := get_epoch_info rpc in ok_or i (NotFoundError "EpochInfo" "current").

Definition view_epoch (rpc : AbciRpc) : eld_result (EpochInfo * ActiveValidatorsInfo) :=
  let? i := view_epoch_info rpc in
  let? active := get_active_validators rpc in
  let? active := ok_or active (NotFoundError "ActiveValidators" "current") in
  Ok (i, active).

Definition pinboard_list_path (segment name : string) (page page_size : nat) : string :=
  String.append PATH_PREFIX_PINBOARD
    (String.append segment (String.append "/"
       (String.append name (String.append "/"
          (String.append (to_string (Z.of_nat page)) (String.append "/" (to_string (Z.of_nat page_size)))))))).

Definition pinboard_list_by_wallet (rpc : AbciRpc) (wallet : string) (page page_size : nat) : eld_result Value :=
  pinboard_query rpc (pinboard_list_path "wallet" wallet page page_size).

Definition pinboard_list_by_tag (rpc : AbciRpc) (tag : string) (page page_size : nat) : eld_result Value :=
  pinboard_query rpc (pinboard_list_path "tag" tag page page_size).
End queries.

(** ** Broadcast *)

Record DeliverTxEvent : Type := mkDeliverTxEvent {
  de_event_type : string;
  de_attributes : list (string * string);
}.

(** [tendermint::Hash], and its reading from text. *)
Inductive TmHash : Type := HashSha256 (b : byte_array 32) | HashNone.
Class TmHashes : Type := { hash_from_str : string → option TmHash }.

Section broadcast.
Context {H : HexCrate} {HC : HashCrates} {B : Base64} {SJ : SerdeJson} {TH : TmHashes}.

(** [value != 0] *)
Definition code_is_zero (v : Value) : bool := bool_decide (value_as_i64 v = Some 0).

Definition rpc_tx_code (value : Value) : eld_result Z :=
  ok_or (value_as_u64 value) (NetworkError "parse RPC response").

Definition parse_rpc_response (response : string) : eld_result unit :=
  let? json := ok_or (value_from_str response) (NetworkError "parse RPC response") in
  let result := value_at json "result" in
  if is_null result then Err (TransactionError "unknown")
  else if is_null (value_at result "check_tx") then Err (TransactionError "unknown")
  else if negb (code_is_zero (value_at (value_at result "check_tx") "code")) then
    let? code := rpc_tx_code (value_at (value_at result "check_tx") "code") in
    Err (TransactionError "mempool_validation")
  else if is_null (value_at result "deliver_tx") then Err (TransactionError "unknown")
  else if negb (code_is_zero (value_at (value_at result "deliver_tx") "code")) then
    let? code := rpc_tx_code (value_at (value_at result "deliver_tx") "code") in
    Err (TransactionError "consensus")
  else Ok tt.

Definition decode_event_attribute (attr : Value) : eld_result (string * string) :=
  let? key_b64 := ok_or (as_str (value_at attr "key")) (ValidationError "event_attribute_key") in
  let? value_b64 := ok_or (as_str (value_at attr "value")) (ValidationError "event_attribute_value") in
  let? key_bytes := ok_or (base64_decode key_b64) (ValidationError "event_attribute_key") in
  let? value_bytes := ok_or (base64_decode value_b64) (ValidationError "event_attribute_value") in
  let? key := ok_or (from_utf8 key_bytes) (ValidationError "event_attribute_key") in
  let? value := ok_or (from_utf8 value_bytes) (ValidationError "event_attribute_value") in
  Ok (key, value).

(** Attributes that do not decode are left out. *)
Definition deliver_tx_events (response : Value) : list DeliverTxEvent :=
  match as_array (value_at (value_at (value_at response "result") "deliver_tx") "events") with
  | None => []
  | Some events =>
      map (λ event, mkDeliverTxEvent (default EmptyString (as_str (value_at event "type")))
                      (omap (λ attr, ok (decode_event_attribute attr))
                         (default [] (as_array (value_at event "attributes"))))) events
  end.

Definition broadcast_tx_hash (response : Value) (tx_wire_hex : string) : eld_result TmHash :=
  match as_str (value_at (value_at response "result") "hash") with
  | Some hash_str => ok_or (hash_from_str hash_str) (ValidationError "broadcast_tx_hash")
  | None => Ok (HashSha256 (wire_bytes_to_tx_hash (as_bytes tx_wire_hex)))
  end.

(** [rpc] answers the POST of [broadcast_tx_commit] with one base64 parameter. *)
Definition send_tx_rpc (rpc : string → RpcReply) (hex_encoded : string) : eld_result Value :=
  match rpc (base64_encode (as_bytes hex_encoded)) with
  | SendFailed => Err (NetworkError "RPC request")
  | StatusFailed _ => Err (NetworkError "RPC request")
  | BodyFailed => Err (NetworkError "RPC response reading")
  | Body response_text =>
      let? _ := parse_rpc_response response_text in
      ok_or (value_from_str response_text) (NetworkError "parse RPC response")
  end.
End broadcast.

(** ** Transactions *)

Record SubmittedTx : Type := mkSubmittedTx {
  sub_tx_hash : TmHash;
  sub_response : Value;
  sub_signed_tx_json : string;
  sub_fee : Coin;
  sub_nonce : Nonce;
}.

Section flows.
Context {H : HexCrate} {HC : HashCrates} {B : Base64} {E : Ed25519} {SJ : SerdeJson} {J : TxJson}
  {C : RecordCodecs} {Q : QueryJson} {TH : TmHashes}.

Definition from_broadcast (tx_wire_hex signed_tx_json : string) (fee : Coin) (nonce : Nonce)
    (response : Value) : eld_result SubmittedTx :=
  let? hash := broadcast_tx_hash response tx_wire_hex in
  Ok (mkSubmittedTx hash response signed_tx_json fee nonce).

(** The client: chain id, fees and the wallets it holds. *)
Record ChainClient : Type := mkChainClient {
  cc_chain_id : string;
  cc_fee_config : FeeConfig;
  cc_wallet_store : option WalletStoreConfig;
}.

(** The node it talks to. *)
Record Node : Type := mkNode {
  node_query : AbciRpc;
  node_broadcast : string → RpcReply;
}.

Definition client_wallet_store (client : ChainClient) : eld_result WalletStoreConfig :=
  ok_or (cc_wallet_store client) (InitializationError "ChainClient").

Definition require_wallet (client : ChainClient) (wallet_name : string) : eld_result NamedWallet :=
  let? store := client_wallet_store client in
  let? found := get_wallet_by_name store wallet_name in
  ok_or found (WalletError "retrieval" wallet_name).

Definition require_nonce (nonce : eld_result (option Nonce)) : eld_result Nonce :=
  let? nonce := nonce in ok_or nonce (NetworkError "nonce retrieval").

(** The fee is computed on the unsigned transaction, then the transaction is
    signed with it and written out. *)
Definition build_signed (client : ChainClient) (wallet : NamedWallet) (nonce : Nonce) (payload : PayloadInner)
    (tx_type : string) : eld_result (Tx * string * Coin) :=
  let tx := Tx_new nonce (Payload_new payload) (hex_encode (verifying_key_of (wallet_key (nw_wallet wallet)))) in
  match calculate_dynamic_fee tx (cc_fee_config client) with
  | Err _ => Err (TransactionError tx_type)
  | Ok dynamic_fee =>
      let tx := mkTx (tx_sig tx) (tx_nonce tx) (tx_payload tx) (tx_public_key tx) (coin_amount dynamic_fee) in
      let? tx := Tx_sign tx (wallet_key (nw_wallet wallet)) (cc_chain_id client) in
      let? json := ok_or (tx_to_json tx) (TransactionError tx_type) in
      let? verified := Tx_verify tx (cc_chain_id client) in
      if negb verified then Err (TransactionError tx_type) else Ok (tx, json, dynamic_fee)
  end.

(** The tail the flows share: the hex text that was sent, if any, is the second part. *)
Definition sign_and_send (client : ChainClient) (node : Node) (wallet : NamedWallet) (nonce : Nonce)
    (payload : PayloadInner) (tx_type : string) : eld_result SubmittedTx * list string :=
  match build_signed client wallet nonce payload tx_type with
  | Err e => (Err e, [])
  | Ok (_, json, dynamic_fee) =>
      let hex := hex_encode (as_bytes json) in
      ((let? response := send_tx_rpc (node_broadcast node) hex in
        from_broadcast hex json dynamic_fee nonce response), [hex])
  end.

Definition transfer (client : ChainClient) (node : Node) (wallet_name recipient : string) (amount : Z) :
    eld_result SubmittedTx * list string :=
  match
    (let? _ := validate_address recipient in
     let? recipient_address := parse_hex_str recipient in
     let? wallet := require_wallet client wallet_name in
     let address := wallet_address (nw_wallet wallet) in
     let? next_nonce := require_nonce (get_next_nonce_for_account_cado (node_query node) (hex_with_prefix address)) in
     let? t := TransferTx_new address recipient_address amount in
     Ok (wallet, next_nonce, t)) with
  | Err e => (Err e, [])
  | Ok (wallet, next_nonce, t) => sign_and_send client node wallet next_nonce (Transfer t) "Transfer"
  end.

Definition stake (client : ChainClient) (node : Node) (wallet_name : string) (amount : Z) :
    eld_result SubmittedTx * list string :=
  match
    (let? wallet := require_wallet client wallet_name in
     let address := wallet_address (nw_wallet wallet) in
     let? next_nonce := require_nonce (get_next_nonce_for_account (node_query node) (hex_with_prefix address)) in
     let? t := StakeTx_new address amount (Some (hex_encode (verifying_key_of (wallet_key (nw_wallet wallet))))) in
     Ok (wallet, next_nonce, t)) with
  | Err e => (Err e, [])
  | Ok (wallet, next_nonce, t) => sign_and_send client node wallet next_nonce (Stake t) "Stake"
  end.

Definition unstake (client : ChainClient) (node : Node) (wallet_name : string) (amount : Z) :
    eld_result SubmittedTx * list string :=
  match
    (let? wallet := require_wallet client wallet_name in
     let address := wallet_address (nw_wallet wallet) in
     let? next_nonce := require_nonce (get_next_nonce_for_account (node_query node) (hex_with_prefix address)) in
     let? t := UnstakeTx_new address amount in
     Ok (wallet, next_nonce, t)) with
  | Err e => (Err e, [])
  | Ok (wallet, next_nonce, t) => sign_and_send client node wallet next_nonce (Unstake t) "Unstake"
  end.

(** *** Namespaces *)

Definition MAX_POLLS : nat := 60.

(** [poll_namespace_registered]: [lookup i] is the answer to poll [i]. *)
Fixpoint poll_namespace_registered {A} (polls attempt : nat) (lookup : nat → eld_result (option A)) : eld_result A :=
  match polls with
  | O => Err (NetworkError "poll namespace registration")
  | S polls =>
      match lookup attempt with
      | Ok (Some resp) => Ok resp
      | Ok None | Err _ => poll_namespace_registered polls (S attempt) lookup
      end
  end.

Definition add_namespace {A} (client : ChainClient) (node : Node) (lookup : string → nat → eld_result (option A))
    (wallet_name namespace_slug : string) (registration_fee : Z) : eld_result A * list string :=
  match
    (let? canonical := normalize_namespace_slug namespace_slug in
     let? wallet := require_wallet client wallet_name in
     let address := wallet_address (nw_wallet wallet) in
     let? next_nonce := require_nonce (get_next_nonce_for_account_cado (node_query node) (hex_with_prefix address)) in
     let? t := AddNamespaceTx_new address canonical registration_fee in
     let? built := build_signed client wallet next_nonce (AddNamespace t) "AddNamespace" in
     Ok (canonical, built.1.2)) with
  | Err e => (Err e, [])
  | Ok (canonical, json) =>
      let hex := hex_encode (as_bytes json) in
      ((let? _ := send_tx_rpc (node_broadcast node) hex in
        poll_namespace_registered MAX_POLLS 1 (lookup canonical)), [hex])
  end.

(** *** Listings *)

(** [list_all_transactions]: from the last block down, newest block first. *)
Fixpoint list_blocks (get_block : Z → eld_result (list bytes)) (height : nat) : eld_result (list Tx) :=
  match height with
  | O => Ok []
  | S below =>
      let? items := get_block (Z.of_nat height) in
      let? txs :=
        try_fold (λ acc item,
          let? hex_str := ok_or (from_utf8 item) (ValidationError "block_tx_bytes") in
          let? decoded_bytes := ok_or (hex_decode hex_str) (ValidationError "block_tx_hex") in
          let? decoded_json := ok_or (from_utf8 decoded_bytes) (ValidationError "block_tx_json") in
          let? tx := ok_or (tx_from_json decoded_json) (ValidationError "block_tx") in
          Ok (acc ++ [tx])) [] items in
      let? older := list_blocks get_block below in
      Ok (txs ++ older)
  end.

Definition list_all_transactions (last_block_height : eld_result Z) (get_block : Z → eld_result (list bytes)) :
    eld_result (list Tx) :=
  let? height := last_block_height in list_blocks get_block (Z.to_nat height).

(** One search per role; each search is the first page of thirty. *)
Definition account_queries (address : string) : list string :=
  let q (key : string) := String.append key (String.append "='" (String.append address "'")) in
  [q "Transfer.recipient"; q "Transfer.sender"; q "AddMetadata.sender"; q "Stake.sender"; q "Unstake.sender"].

Definition get_transactions_for_account {A} (query_node : string → eld_result (list A)) (address : string) :
    eld_result (list A) :=
  try_fold (λ txs q, let? found := query_node q in Ok (txs ++ found)) [] (account_queries address).
End flows.
