(* ===== verification/ClientFlow.v ===== *)
(** The client against the node: its queries answered by the handler of
    [AbciQuery.v], its transactions delivered by [Deliver.v].  Only the
    serialized form of a stored object is modelled here. *)
From S2P Require Import Prelude Externals Reference Coins Address Ordering Namespace Cado Records Tx TxCodes Merkle Wire Validation TxTyped UserPost Fee Pinboard AppState Ledger Processors VerifiedProof Deliver Epoch Storage Snapshot Commit Slots Capacity Feed Gc Sync Mempool Exchange Paging Prefix Indexer IndexerSync RestApi RestReads PinboardApi PinboardFlow AbciLimits AbciQuery Wallets Client.

(** ** The JSON of a stored object *)

Definition bytes_value (b : bytes) : Value := JArray (map (λ x, JNumber (PosInt (Z.of_N (Byte.to_N x)))) b).

Definition metadata_value (m : CADOMetadata) : Value :=
  JObject [("type_", JString (meta_type m)); ("owner", JString (meta_owner m))].

(** [derive(Serialize)] of [CadoBody]. *)
Definition CadoBody_value (c : CadoBody) : Value :=
  match c with
  | Immutable c =>
      JObject [("Immutable", JObject [("hash", bytes_value (vec_to_list (cado_hash c)));
        ("data", bytes_value (cado_data c)); ("metadata", metadata_value (cado_metadata c))])]
  | Mutable m =>
      JObject [("Mutable", JObject [("hash", bytes_value (vec_to_list (cadomut_hash m)));
        ("data", bytes_value (cadomut_data m)); ("metadata", metadata_value (cadomut_metadata m));
        ("latest_hash", bytes_value (vec_to_list (cadomut_latest_hash m)))])]
  end.

(** The text of an object, read as a [Value]. *)
Class CadoValueText (SJ : SerdeJson) (Q : QueryJson) : Prop := {
  cado_value_text c : value_from_str (info_text (CadoInfo c)) = Some (CadoBody_value c);
}.

Lemma read_u8_value x : read_u8 (JNumber (PosInt (Z.of_N (Byte.to_N x)))) = Some x.
Proof. by destruct x. Qed.

Lemma bytes_value_back b : mapM read_u8 (map (λ x, JNumber (PosInt (Z.of_N (Byte.to_N x)))) b) = Some b.
Proof.
  induction b as [|x b IH]; [done|]. cbn [map mapM]. by rewrite read_u8_value, IH.
Qed.

(** ** Queries *)

Section client_queries.
Context {H : HexCrate} {HL : HexLaws H} {HC : HashCrates} {C : RecordCodecs} {BC : Bincode CadoBody}
  {T : TrieCrate} {J : TxJson} {SJ : SerdeJson} {Q : QueryJson} {QL : QueryJsonLaws Q}
  {CV : CadoValueText SJ Q}.

(** The node as the RPC server of the client. *)
Definition node_rpc (conn : InfoConnection) (t : QueryTimes) (l : InfoLimiters) : AbciRpc :=
  λ q, (Info_query conn t q l).1.

(** Neither limiter in front of the queries refuses the request. *)
Definition admitted (t : QueryTimes) (l : InfoLimiters) (q : RequestQuery) : Prop :=
  (global_check_rate_limit q (at_global t) (il_global l)).1 = None ∧
  (query_check_rate_limit q (at_query t) (il_queries l)).1 = None.

(** What the limiters are once a request has passed them. *)
Definition let_through (t : QueryTimes) (l : InfoLimiters) (q : RequestQuery) : InfoLimiters :=
  mkInfoLimiters (global_check_rate_limit q (at_global t) (il_global l)).2 (il_results l)
    (query_check_rate_limit q (at_query t) (il_queries l)).2 (il_storage l).

Lemma admitted_query conn t l q :
  admitted t l q →
  node_rpc conn t l q =
    match (EldAbciQuery_process (from_abci_query_request q) conn t (let_through t l q)).1 with
    | None => None
    | Some (Ok payload) => Some (to_query_response (rq_path q) (rq_data q) payload)
    | Some (Err err) => Some (map_query_error (rq_path q) (rq_data q) err)
    end.
Proof.
  intros [Hg Hq]. unfold node_rpc, Info_query, let_through.
  destruct (global_check_rate_limit _ _ _) as [r1 g]. cbn [fst] in Hg. subst r1. cbn [snd il_queries].
  destruct (query_check_rate_limit _ _ _) as [r2 ql]. cbn [fst] in Hq. subst r2.
  cbn [il_global il_results il_storage snd].
  by destruct (EldAbciQuery_process _ _ _ _) as [[[p|e]|] l'].
Qed.

Lemma path_chars t name : name_ok t name → string_all is_path_char (cp_path (eld_path t name)) = true.
Proof.
  intros Hn. destruct (name_ok_chars t name Hn) as [Hc _]. unfold eld_path, path3. cbn [cp_path string_all].
  rewrite string_all_app. cbn [string_all]. rewrite string_all_app. cbn [string_all].
  rewrite Hc. by destruct t.
Qed.

Lemma path_utf8 t k p : CadoPath_new t k = Ok p → from_utf8 (as_bytes (cp_path p)) = Some (cp_path p).
Proof.
  intros (name & -> & Hn & _)%CadoPath_new_Ok. apply utf8_ascii.
  eapply string_all_impl; [|by apply path_chars]. intros c. by destruct c as [[] [] [] [] [] [] [] []].
Qed.

(** The answer to a query for an object, as the client reads it: an object that
    is stored is parsed from its text; a missing object and a failed read both
    have an empty answer. *)
Lemma cado_query_read {A} conn t l ty k p op field (parse : string → option A) :
  CadoPath_new ty k = Ok p → admitted t l (mkRequestQuery "cado" (as_bytes (cp_path p))) →
  query_info (node_rpc conn t l) "cado" (as_bytes (cp_path p)) op field parse =
    match db_get_cado_by_path (ic_db conn) p with
    | Ok (Some c) => let? a := ok_or (parse (info_text (CadoInfo c))) (ValidationError field) in Ok (Some a)
    | _ => Ok None
    end.
Proof.
  intros Hp Ha. unfold query_info. rewrite admitted_query by done.
  change (from_abci_query_request (mkRequestQuery "cado" ?d)) with (Query_Cado "cado" d).
  cbn [EldAbciQuery_process fst]. unfold process_cado_query.
  rewrite (path_utf8 _ _ _ Hp). cbn [ok_or]. rewrite (CadoPath_parse_new _ _ _ Hp).
  destruct (db_get_cado_by_path (ic_db conn) p) as [[c|]|e]; cbn [ok_or]; [|done..].
  unfold answer. cbn [ok_or]. unfold to_query_response. cbn [rs_info qp_info query_payload_ok_info].
  by rewrite (proj2 (String.eqb_neq _ _) (info_text_nonempty _)).
Qed.

(** C13. What the client reads of an account is what the node has stored: under
    any spelling of its address, a query that the limiters let through gives
    the account decoded from the stored object, byte for byte, and nothing when
    there is no object.  A read that fails in the node - an object that does
    not decode or whose key does not match - is reported with a code the client
    does not look at, and is taken for a missing account. *)
Theorem client_reads_stored_account (conn : InfoConnection) (t : QueryTimes) (l : InfoLimiters)
    (text : string) (a : Address) :
  parse_hex_str text = Ok a →
  let p := eld_path Cado_Account (hex_with_prefix a) in
  admitted t l (mkRequestQuery "cado" (as_bytes (cp_path p))) →
  client_get_account_by_address (node_rpc conn t l) text =
    match db_get_cado_by_path (ic_db conn) p with
    | Ok (Some c) => let? account := Account_deserialize_bin (CadoBody_data c) in Ok (Some account)
    | Ok None | Err _ => Ok None
    end.
Proof.
  intros Ht p Ha. unfold client_get_account_by_address. rewrite Ht.
  pose proof (CadoPath_new_address Cado_Account a eq_refl) as Hp. fold p in Hp. rewrite Hp.
  rewrite (cado_query_read conn t l _ _ p _ _ _ Hp Ha).
  destruct (db_get_cado_by_path (ic_db conn) p) as [[c|]|e]; [|done..]. by rewrite cado_back.
Qed.

(** The nonce query of the flows reads the same account, from the generic JSON
    of the object; it finds only mutable objects. *)
Lemma nonce_query_read conn t l a m acc :
  let p := eld_path Cado_Account (hex_with_prefix a) in
  admitted t l (mkRequestQuery "cado" (as_bytes (cp_path p))) →
  db_get_cado_by_path (ic_db conn) p = Ok (Some (Mutable m)) →
  Account_deserialize_bin (cadomut_data m) = Ok acc →
  get_next_nonce_for_account_cado (node_rpc conn t l) (hex_with_prefix a) =
    let? n := next_nonce_from_account acc in Ok (Some n).
Proof.
  intros p Ha Hd Hacc. unfold get_next_nonce_for_account_cado.
  assert (parse_hex_str (hex_with_prefix a) = Ok a) as ->.
  { unfold parse_hex_str, hex_with_prefix, Address_hex.
    rewrite decode_fixed_hex_encode by auto. by destruct a. }
  pose proof (CadoPath_new_address Cado_Account a eq_refl) as Hp. fold p in Hp. rewrite Hp.
  unfold get_cado. rewrite (cado_query_read conn t l _ _ p _ _ _ Hp Ha), Hd, cado_value_text.
  cbn [ok_or default from_option id]. unfold mutable_data. cbn. unfold json_number_array_as_bytes.
  rewrite bytes_value_back. cbn [ok_or]. by rewrite Hacc.
Qed.
End client_queries.

(** ** Pages of posts *)

Section client_pages.
Context {H : HexCrate} {HL : HexLaws H} {HC : HashCrates} {C : RecordCodecs} {BC : Bincode CadoBody}
  {T : TrieCrate} {J : TxJson} {SJ : SerdeJson} {Q : QueryJson} {QL : QueryJsonLaws Q}.

(** A path segment: not empty, of the characters of paths, without a slash. *)
Definition is_segment (s : string) : Prop :=
  s ≠ EmptyString ∧ string_all is_path_char s = true ∧ no_slash s = true.

Lemma number_segment n : is_segment (to_string n).
Proof.
  pose proof (to_string_all_digits n) as Hd. split_and!.
  - unfold to_string. intros He. pose proof (dec_digits_not_plus 40 n EmptyString) as (d & s & _ & Hx); [lia|].
    by rewrite He in Hx.
  - eapply string_all_impl; [|exact Hd]. intros c. by destruct c as [[] [] [] [] [] [] [] []].
  - eapply string_all_impl; [|exact Hd]. intros c. by destruct c as [[] [] [] [] [] [] [] []].
Qed.

(** The parts of a request are the ones the client put in it. *)
Lemma list_path_parts segment name page page_size :
  is_segment segment → is_segment name →
  let path := pinboard_list_path segment name page page_size in
  from_utf8 (as_bytes path) = Some path ∧
  List.filter (λ p, negb (String.eqb p EmptyString)) (split_on "/"%char path) =
    ["@eld"; "pinboard"; segment; name; to_string (Z.of_nat page); to_string (Z.of_nat page_size)].
Proof.
  intros (Hs1 & Hs2 & Hs3) (Hn1 & Hn2 & Hn3) path.
  destruct (number_segment (Z.of_nat page)) as (Hp1 & Hp2 & Hp3).
  destruct (number_segment (Z.of_nat page_size)) as (Hz1 & Hz2 & Hz3). split.
  - apply utf8_ascii. apply (string_all_impl is_path_char).
    { intros c. by destruct c as [[] [] [] [] [] [] [] []]. }
    unfold path, pinboard_list_path, PATH_PREFIX_PINBOARD.
    rewrite !string_all_app, Hs2, Hn2, Hp2, Hz2. done.
  - unfold path, pinboard_list_path, PATH_PREFIX_PINBOARD.
    change (String.append "/@eld/pinboard/" ?s) with
      (String.append EmptyString (String "/" (String.append "@eld" (String "/" (String.append "pinboard" (String "/" s)))))).
    repeat change (String.append "/" ?s) with (String "/" s).
    unfold no_slash in *. rewrite !split_on_app by done. rewrite split_on_none by done.
    cbn [List.filter].
    rewrite (proj2 (String.eqb_neq _ _) Hs1), (proj2 (String.eqb_neq _ _) Hn1),
      (proj2 (String.eqb_neq _ _) Hp1), (proj2 (String.eqb_neq _ _) Hz1). done.
Qed.

(** A page of posts reaches the client as it was asked for: the wallet, the
    page and its size are read back from the path the client writes, the node
    lists that page of the wallet's posts and the client parses the answer.
    When the node refuses the page - its size, or its own limit on requests -
    the client gets a null and no error. *)
Theorem client_page_roundtrip (conn : InfoConnection) (t : QueryTimes) (l : InfoLimiters) (wallet : string)
    (page page_size : nat) :
  is_segment wallet → Z.of_nat page ≤ u64_max → Z.of_nat page_size ≤ u64_max →
  admitted t l (mkRequestQuery PINBOARD (as_bytes (pinboard_list_path "wallet" wallet page page_size))) →
  let options := with_pagination PrefixQueryOptions_default (mkPaginationParams page page_size) in
  pinboard_list_by_wallet (node_rpc conn t l) wallet page page_size =
    match (get_pinboard_message_ids_by_wallet_secure (ic_db conn) wallet options (at_storage t) (il_storage l)).1 with
    | Ok ids =>
        ok_or (value_from_str (info_text (PinboardInfo
          (mkListResponse (metas_of (ic_db conn) (pr_items ids)) page page_size (pr_has_more ids)))))
          (ValidationError "pinboard_query_response")
    | Err _ => Ok JNull
    end.
Proof.
  intros Hw Hp Hz Ha options. unfold pinboard_list_by_wallet, pinboard_query, query_info.
  rewrite admitted_query by done.
  set (path := pinboard_list_path "wallet" wallet page page_size) in *.
  change (from_abci_query_request (mkRequestQuery PINBOARD ?d)) with (Query_Pinboard PINBOARD d).
  cbn [EldAbciQuery_process fst]. unfold process_pinboard_query.
  destruct (list_path_parts "wallet" wallet page page_size) as [Hu Hf]; [by split_and!|done|].
  fold path in Hu, Hf. rewrite Hu, Hf.
  change (String.eqb "@eld" SCOPE_ELD_ROOT) with true. change (String.eqb "pinboard" PINBOARD) with true.
  change (String.eqb "wallet" "post") with false. change (String.eqb "wallet" "wallet") with true.
  cbn [length Nat.eqb].
  cbn [negb orb page_of_parts]. assert (u64_max < 10 ^ 40) by done.
  rewrite !parse_to_string by lia. cbn [default from_option id]. rewrite !Nat2Z.id. fold options.
  change (il_storage (let_through t l (mkRequestQuery PINBOARD (as_bytes path)))) with (il_storage l).
  destruct (get_pinboard_message_ids_by_wallet_secure _ _ _ _ _) as [[ids|e] rl]; [|done].
  cbn [fst]. unfold list_response, answer, to_query_response. cbn beta iota.
  cbn [ok_or rs_info qp_info query_payload_ok_info].
  rewrite (proj2 (String.eqb_neq _ _) (info_text_nonempty _)).
  by destruct (value_from_str _).
Qed.
End client_pages.

(** ** The text of a transfer *)

(** Pieces of text, one after the other. *)
Definition join (l : list string) : string := foldr String.append EmptyString l.

Definition quoted (s : string) : string :=
  join [String (ascii_of_N 34) EmptyString; s; String (ascii_of_N 34) EmptyString].

(** The compact JSON of a transfer: the fields in the order of the structs, the
    amount as text, nonce and fee as numbers. *)
Definition transfer_text {H : HexCrate} (tx : Tx) (t : TransferTx) : string :=
  join ["{"; quoted "sig"; ":"; quoted (tx_sig tx); ",";
    quoted "nonce"; ":"; to_string (nonce_value (tx_nonce tx)); ",";
    quoted "payload"; ":{"; quoted "type"; ":"; quoted "Transfer"; ",";
    quoted "sender"; ":"; quoted (hex_with_prefix (transfer_sender t)); ",";
    quoted "recipient"; ":"; quoted (hex_with_prefix (transfer_recipient t)); ",";
    quoted "amount"; ":"; quoted (to_string (transfer_amount t)); "},";
    quoted "public_key"; ":"; quoted (tx_public_key tx); ",";
    quoted "fee"; ":"; to_string (tx_fee tx); "}"].

Definition transfer_value {H : HexCrate} (tx : Tx) (t : TransferTx) : Value :=
  JObject [("sig", JString (tx_sig tx)); ("nonce", JNumber (PosInt (nonce_value (tx_nonce tx))));
    ("payload", JObject [("type", JString "Transfer");
       ("sender", JString (hex_with_prefix (transfer_sender t)));
       ("recipient", JString (hex_with_prefix (transfer_recipient t)));
       ("amount", JString (to_string (transfer_amount t)))]);
    ("public_key", JString (tx_public_key tx)); ("fee", JNumber (PosInt (tx_fee tx)))].

Lemma join_all p l : string_all p (join l) = forallb (string_all p) l.
Proof. induction l as [|s l IH]; [done|]. cbn [join foldr forallb]. by rewrite string_all_app, <- IH. Qed.

Lemma join_length l : String.length (join l) = list_sum (map String.length l).
Proof.
  induction l as [|s l IH]; [done|]. change (join (s :: l)) with (String.append s (join l)).
  rewrite string_length_app, IH. done.
Qed.

Lemma json_depth_append max s t : ∀ d,
  json_depth max (String.append s t) d = let? d' := json_depth max s d in json_depth max t d'.
Proof.
  induction s as [|c s IH]; intros d; [done|].
  change (String.append (String c s) t) with (String c (String.append s t)). cbn [json_depth].
  destruct (bracket_of c); [destruct (_ <? _)%nat; [done|]|destruct d; [done|]|]; apply IH.
Qed.

(** The nesting of pieces, one piece at a time. *)
Fixpoint depth_of_pieces (max : nat) (l : list string) (d : nat) : eld_result nat :=
  match l with
  | [] => Ok d
  | s :: l => let? d' := json_depth max s d in depth_of_pieces max l d'
  end.

Lemma json_depth_join max l : ∀ d, json_depth max (join l) d = depth_of_pieces max l d.
Proof.
  induction l as [|s l IH]; intros d; [done|]. cbn [join foldr depth_of_pieces].
  rewrite json_depth_append. destruct (json_depth max s d); [apply IH|done].
Qed.

(** Text of plain characters: letters, digits, [_], [:] and [,]. *)
Definition is_plain (c : ascii) : bool :=
  is_ascii_alphanumeric c || Ascii.eqb c "_"%char || Ascii.eqb c ":"%char || Ascii.eqb c ","%char ||
  Ascii.eqb c (ascii_of_N 34).

Lemma plain_depth max s d : string_all is_plain s = true → json_depth max s d = Ok d.
Proof.
  induction s as [|c s IH]; [done|]. cbn [string_all json_depth]. intros [Hc Hs]%andb_true_iff.
  assert (bracket_of c = Validation.Other) as -> by (by destruct c as [[] [] [] [] [] [] [] []]). by apply IH.
Qed.

Lemma quoted_plain s : string_all is_plain s = true → string_all is_plain (quoted s) = true.
Proof. intros Hs. unfold quoted. rewrite join_all. cbn [forallb]. by rewrite Hs. Qed.

Lemma quoted_length s : String.length (quoted s) = (String.length s + 2)%nat.
Proof. unfold quoted. rewrite join_length. cbn [map list_sum foldr String.length]. lia. Qed.

Lemma plain_ascii c : is_plain c = true → ascii_between 0 127 c = true.
Proof. by destruct c as [[] [] [] [] [] [] [] []]. Qed.

Lemma digits_plain n : string_all is_plain (to_string n) = true.
Proof.
  eapply string_all_impl; [|apply to_string_all_digits]. intros c.
  by destruct c as [[] [] [] [] [] [] [] []].
Qed.

Lemma hexdigits_plain s : string_all is_ascii_hexdigit s = true → string_all is_plain s = true.
Proof. apply string_all_impl. intros c. by destruct c as [[] [] [] [] [] [] [] []]. Qed.

Lemma to_string_short n : (String.length (to_string n) ≤ 40)%nat.
Proof.
  assert (∀ fuel m acc, (String.length (dec_digits fuel m acc) ≤ String.length acc + fuel)%nat) as Hd.
  { induction fuel as [|f IH]; intros m acc; [change (dec_digits 0 m acc) with acc; lia|].
    change (dec_digits (S f) m acc) with
      (if m <? 10 then String (digit_ascii (m mod 10)) acc
       else dec_digits f (m / 10) (String (digit_ascii (m mod 10)) acc)).
    destruct (m <? 10); [cbn [String.length]; lia|]. etransitivity; [apply IH|]. cbn [String.length]. lia. }
  apply (Hd 40%nat n EmptyString).
Qed.

Section transfer_text.
Context {H : HexCrate} {HL : HexLaws H}.

Lemma address_plain a : string_all is_plain (hex_with_prefix a) = true.
Proof.
  unfold hex_with_prefix. rewrite string_all_app. apply andb_true_iff. split; [done|].
  apply hexdigits_plain, hex_encode_hexdigits.
Qed.

Lemma address_length a : String.length (hex_with_prefix a) = 42%nat.
Proof.
  unfold hex_with_prefix, Address_hex. rewrite string_length_app, hex_encode_length, length_vec_to_list. done.
Qed.

(** A transfer whose signature and key are hex text of at most 128 and 64 characters. *)
Definition wire_sized (tx : Tx) : Prop :=
  string_all is_ascii_hexdigit (tx_sig tx) = true ∧ (String.length (tx_sig tx) ≤ 128)%nat ∧
  string_all is_ascii_hexdigit (tx_public_key tx) = true ∧ (String.length (tx_public_key tx) ≤ 64)%nat.

(** The text fits in a kilobyte, is plain but for its four braces, and nests two deep. *)
Lemma transfer_text_shape tx t :
  wire_sized tx →
  (0 < String.length (transfer_text tx t) ≤ 1024)%nat ∧
  from_utf8 (as_bytes (transfer_text tx t)) = Some (transfer_text tx t) ∧
  json_depth 10 (transfer_text tx t) 0 = Ok 0%nat.
Proof.
  intros (Hs & Hsl & Hp & Hpl). apply hexdigits_plain in Hs, Hp. unfold transfer_text. split_and!.
  - rewrite join_length. cbn [map list_sum foldr]. rewrite !quoted_length. cbn [String.length]. lia.
  - rewrite join_length. cbn [map list_sum foldr]. rewrite !quoted_length, !address_length. cbn [String.length].
    pose proof (to_string_short (nonce_value (tx_nonce tx))). pose proof (to_string_short (transfer_amount t)).
    pose proof (to_string_short (tx_fee tx)). lia.
  - apply utf8_ascii. rewrite join_all. apply forallb_forall. intros s Hin.
    assert (string_all is_plain s = true ∨ s ∈ ["{"; ":{"; "},"; "}"]) as [Hpl'|Hb].
    { repeat (destruct Hin as [<-|Hin]; [first [by left|by right; repeat constructor
        |left; apply quoted_plain; first [done|apply address_plain|apply digits_plain]|left; apply digits_plain]|]).
      done. }
    + eapply string_all_impl; [|exact Hpl']. apply plain_ascii.
    + repeat (apply elem_of_cons in Hb as [->|Hb]; [done|]). by apply elem_of_nil in Hb.
  - rewrite json_depth_join. cbn [depth_of_pieces].
    repeat (first [rewrite plain_depth by first [done|apply digits_plain
        |apply quoted_plain; first [done|apply address_plain|apply digits_plain]]
      |match goal with |- context [json_depth 10 ?s ?d] =>
         let r := eval vm_compute in (json_depth 10 s d) in change (json_depth 10 s d) with r end]; cbn beta iota).
    done.
Qed.
End transfer_text.

(** ** Delivery of a transfer *)

Section transfer_delivery.
Context {H : HexCrate} {HL : HexLaws H} {HC : HashCrates} {C : RecordCodecs} {CL : RecordCodecsLaws C}
  {E : Ed25519} {EL : Ed25519Laws E} {J : TxJson} {R : RandCrate} {SJ : SerdeJson} {W : TxWire SJ J}.

(** [serde_json] on a signed transfer: its text, and the text read back as a
    [Value] and as a transaction. *)
Record written_transfer (tx : Tx) (t : TransferTx) : Prop := {
  wt_text : tx_to_json tx = Some (transfer_text tx t);
  wt_value : value_from_str (transfer_text tx t) = Some (transfer_value tx t);
  wt_back : tx_from_json (transfer_text tx t) = Some tx;
  wt_value_text : ∃ s, value_to_string (transfer_value tx t) = Some s ∧
    Z.of_nat (String.length s) ≤ MAX_TRANSACTION_JSON_BYTES;
}.

(** A signed transfer with an admissible nonce, fee and payload. *)
Record sendable (tx : Tx) (t : TransferTx) : Prop := {
  sn_sig : ∃ s : byte_array 64, tx_sig tx = hex_encode (vec_to_list s);
  sn_key : ∃ k : byte_array 32, tx_public_key tx = hex_encode (vec_to_list k);
  sn_nonce : 0 ≤ nonce_value (tx_nonce tx) ≤ u32_max;
  sn_fee : 0 ≤ tx_fee tx ≤ u32_max;
  sn_payload : TransferTx_new (transfer_sender t) (transfer_recipient t) (transfer_amount t) = Ok t;
  sn_amount : 0 ≤ transfer_amount t;
}.

Lemma sendable_sized tx t : sendable tx t → wire_sized tx.
Proof.
  intros [[s Hs] [k Hk] _ _ _ _]. unfold wire_sized. rewrite Hs, Hk, !hex_encode_length, !length_vec_to_list.
  rewrite !hex_encode_hexdigits. split_and!; try done; lia.
Qed.

Lemma parse_own_address a : parse_hex_str (hex_with_prefix a) = Ok a.
Proof.
  unfold parse_hex_str, hex_with_prefix, Address_hex. rewrite decode_fixed_hex_encode by auto. by destruct a.
Qed.

Lemma validate_hex_encoded n (v : byte_array n) m : 0 < Z.of_nat n ≤ m →
  validate_hex_string (hex_encode (vec_to_list v)) m = Ok tt.
Proof.
  intros Hn. apply validate_hex_string_Ok. exists (vec_to_list v).
  rewrite hex_decode_encode. split; [done|]. by rewrite length_vec_to_list.
Qed.

(** The checks of the structure accept the object of a transfer. *)
Lemma transfer_structure tx t :
  written_transfer tx t → sendable tx t → validate_transaction_structure (transfer_value tx t) = Ok tt.
Proof.
  intros [_ _ _ (s & Hs & Hl)] [[sg Hsg] [k Hk] Hn Hf Hp Ha].
  apply TransferTx_new_Ok in Hp as (_ & Hne & H0 & HM).
  unfold validate_transaction_structure, validate_transaction_size. rewrite Hs.
  rewrite (proj2 (Z.ltb_ge _ _) Hl). unfold transfer_value. cbn [as_object ok_or].
  unfold required_fields, str_field, index. cbn -[validate_hex_string u32_max validate_positive_integer validate_payload_content].
  rewrite Hsg, Hk. rewrite !validate_hex_encoded by lia. cbn [ok_or].
  assert (∀ z, 0 ≤ z ≤ u32_max → validate_positive_integer z (Some 0) (Some u32_max) "nonce" = Ok tt ∧
    validate_positive_integer z (Some 0) (Some u32_max) "fee" = Ok tt) as Hv.
  { intros z Hz. unfold validate_positive_integer. rewrite !(proj2 (Z.ltb_ge _ _)) by lia. done. }
  assert (∀ z, 0 ≤ z ≤ u32_max → (0 <=? z) && (z <=? u64_max) = true) as Hu.
  { intros z Hz. apply andb_true_iff. split; apply Z.leb_le; [lia|]. unfold u32_max, u64_max in *. lia. }
  rewrite (Hu _ Hn), (Hu _ Hf). cbn [ok_or].
  rewrite (proj1 (Hv _ Hn)), (proj2 (Hv _ Hf)). unfold validate_payload_content. cbn [String.eqb].
  cbn -[parse_hex_str parse_unsigned u128_max MAX_COIN]. unfold validate_transfer_payload, required_fields, str_field, index.
  cbn -[parse_hex_str parse_unsigned u128_max MAX_COIN]. rewrite !parse_own_address. rewrite bool_decide_eq_false_2 by done.
  assert (MAX_COIN ≤ u128_max) by done.
  assert (u128_max < 10 ^ 40) by done.
  rewrite parse_to_string by lia. cbn [ok_or]. rewrite (proj2 (Z.eqb_neq _ _) H0).
  by rewrite (proj2 (Z.ltb_ge _ _) HM).
Qed.

(** The bytes the client broadcasts decode to the transaction it signed. *)
Lemma transfer_decodes protocol tx t :
  written_transfer tx t → sendable tx t → 2048 ≤ max_tx_bytes protocol →
  decode_tx protocol (as_bytes (hex_encode (as_bytes (transfer_text tx t)))) = Ok tx.
Proof.
  intros Hw Hs Hmax. destruct (transfer_text_shape tx t (sendable_sized tx t Hs)) as (Hl & Hu & Hd).
  unfold decode_tx. rewrite as_bytes_length, hex_encode_length, as_bytes_length.
  rewrite (proj2 (Z.ltb_ge _ _)) by lia.
  rewrite utf8_ascii; [|eapply string_all_impl; [|apply hex_encode_hexdigits]; intros c;
    by destruct c as [[] [] [] [] [] [] [] []]].
  cbn [ok_or]. rewrite (proj2 (validate_hex_string_Ok _ MAX_HEX_BYTES)).
  2: { eexists. rewrite hex_decode_encode, as_bytes_length. split; [done|]. unfold MAX_HEX_BYTES. lia. }
  rewrite hex_decode_encode. cbn [ok_or]. rewrite Hu. cbn [ok_or].
  unfold validate_json_string, MAX_JSON_SIZE, MAX_JSON_DEPTH.
  destruct (String.eqb_spec (transfer_text tx t) EmptyString) as [Ee|_]; [rewrite Ee in Hl; cbn in Hl; lia|].
  rewrite (proj2 (Z.ltb_ge _ _)) by lia. rewrite Hd. cbn [Nat.eqb negb].
  rewrite (wt_value _ _ Hw). cbn [ok_or]. rewrite (transfer_structure tx t Hw Hs).
  by rewrite (wt_back _ _ Hw).
Qed.

(** Within a kilobyte the fee does not depend on the text. *)
Lemma fee_within_kilobyte tx tx' json json' cfg :
  payload_inner (tx_payload tx) = payload_inner (tx_payload tx') →
  tx_to_json tx = Some json → tx_to_json tx' = Some json' →
  (0 < String.length json ≤ 1024)%nat → (0 < String.length json' ≤ 1024)%nat →
  calculate_dynamic_fee tx cfg = calculate_dynamic_fee tx' cfg.
Proof.
  intros Hp Hj Hj' Hl Hl'. unfold calculate_dynamic_fee, estimate_transaction_size. rewrite Hj, Hj', Hp.
  cbn [ok_or]. unfold MAX_TRANSACTION_SIZE_BYTES.
  assert (∀ n, (0 < n ≤ 1024)%nat →
    (10 * 1024 * 1024 <? Z.of_nat n) = false ∧ (Z.of_nat n =? 0) = false ∧ div_ceil (Z.of_nat n) 1024 = 1) as Hn.
  { intros n Hn. split; [apply Z.ltb_ge; lia|]. split; [apply Z.eqb_neq; lia|]. unfold div_ceil.
    symmetry. apply (Z.div_unique _ _ _ (Z.of_nat n - 1)); lia. }
  destruct (Hn _ Hl) as (-> & -> & E1). destruct (Hn _ Hl') as (-> & -> & E2).
  unfold calculate_size_fee. by rewrite E1, E2.
Qed.

(** A transaction in order is charged, then processed. *)
Lemma deliver_in_order rd protocol cid b st tx acc h r e' :
  let s := sender (payload_inner (tx_payload tx)) in
  ledger_wf rd (envelope st) → decode_tx protocol b = Ok tx → Tx_verify tx cid = Ok true →
  check_fee protocol tx = Ok tt → account_at rd (envelope st) s = Some (acc, h) →
  Nonce_next (acc_nonce acc) = Some (tx_nonce tx) → 0 < tx_fee tx ≤ balance_of rd (envelope st) s →
  run (process rd protocol tx) (charged rd tx h (envelope st)) = Some (r, e') →
  run (deliver_tx_inner rd protocol cid b) (Some st) = Some (with_gas tx r, Some (set_envelope e' st)).
Proof.
  intros s Hwf Hd Hv (req & Hreq & Hco & Hle)%check_fee_Ok Ha Hn Hf Hrun.
  unfold deliver_tx_inner. ledger_unfold. rewrite Hd. cbn beta iota. rewrite Hv. cbn [negb].
  rewrite Hreq, Hco. cbn beta iota. unfold Coin_ltb. cbn [coin_amount].
  rewrite (proj2 (Z.ltb_ge _ _) Hle). unfold on_current, answered.
  destruct (decode_tx_ok protocol b tx Hd) as (_ & Hnr & H0).
  pose proof (charge_in_order rd tx (envelope st) acc h Hwf Hnr H0 Ha Hn Hco) as Hch. fold s in Hch.
  rewrite (proj2 (Z.eqb_neq _ _)) in Hch by lia. rewrite (proj2 (Z.ltb_ge _ _)) in Hch by lia.
  cbn [orb] in Hch. rewrite Hch. cbn [set_envelope envelope]. unfold run in Hrun.
  destruct (process rd protocol tx (charged rd tx h (envelope st))) as [r1 e1|r1 e1|];
    [| |discriminate]; injection Hrun as -> ->; by destruct st.
Qed.

(** A transfer the sender can pay succeeds, and moves the amount. *)
Lemma transfer_succeeds rd e t :
  let s := transfer_sender t in
  let r := transfer_recipient t in
  let n := transfer_amount t in
  ledger_wf rd e → TransferTx_new s r n = Ok t → 0 ≤ n → is_Some (nonce_of rd e s) →
  n ≤ balance_of rd e s → balance_of rd e r + n ≤ MAX_COIN →
  ∃ events e', run (process_transfer_tx rd t) e = Some (resp_ok events, e') ∧
    moves rd e e' (λ a, delta s (- n) a + delta r n a) (λ _, 0).
Proof.
  intros s r n Hwf Hv Hn0 [k Hk] Hb Hr. pose proof Hv as (_ & _ & _ & HnM)%TransferTx_new_Ok.
  pose proof (transfer_cases rd e t Hwf ltac:(fold n; lia)) as Hc. cbv zeta in Hc. fold s r n in Hc.
  unfold nonce_of in Hk. destruct (account_at rd e s) as [[acc h]|] eqn:Es; [|done].
  rewrite (proj2 (Z.ltb_ge _ _) Hb), (proj2 (Z.ltb_ge _ _) Hr) in Hc. destruct Hc as [ev Hc].
  eexists ev, _. split; [exact Hc|]. pose proof (transfer_moves rd e t _ _ Hwf Hv Hn0 Hc) as Hm. exact Hm.
Qed.
End transfer_delivery.

(** ** From the client to the ledger *)

Section client_transfer.
Context {H : HexCrate} {HL : HexLaws H} {HC : HashCrates} {B : Base64} {C : RecordCodecs}
  {CL : RecordCodecsLaws C} {BC : Bincode CadoBody} {T : TrieCrate} {E : Ed25519} {EL : Ed25519Laws E}
  {J : TxJson} {R : RandCrate} {SJ : SerdeJson} {W : TxWire SJ J} {Q : QueryJson} {QL : QueryJsonLaws Q}
  {CV : CadoValueText SJ Q} {TH : TmHashes}.

Definition unsigned_transfer (w : NamedWallet) (n : Nonce) (t : TransferTx) (fee : Z) : Tx :=
  mkTx TxSig_empty n (Payload_new (Transfer t)) (hex_encode (verifying_key_of (wallet_key (nw_wallet w)))) fee.

Definition signed_transfer (w : NamedWallet) (cid : string) (n : Nonce) (t : TransferTx) (fee : Z) : Tx :=
  let tx := unsigned_transfer w n t fee in
  with_sig tx (hex_encode (ed_sign (wallet_key (nw_wallet w)) (as_bytes (transfer_text tx t) ++ as_bytes cid))).

(** [serde_json] on the transfer a client builds: before and after the fee is
    set, and signed. *)
Record transfer_json (w : NamedWallet) (cid : string) (n : Nonce) (t : TransferTx) (fee : Z) : Prop := {
  tj_unpriced : tx_to_json (unsigned_transfer w n t 0) = Some (transfer_text (unsigned_transfer w n t 0) t);
  tj_unsigned : tx_to_json (unsigned_transfer w n t fee) = Some (transfer_text (unsigned_transfer w n t fee) t);
  tj_signed : written_transfer (signed_transfer w cid n t fee) t;
}.

Lemma unsigned_sized w n t fee : wire_sized (unsigned_transfer w n t fee).
Proof.
  unfold wire_sized, unsigned_transfer. cbn [tx_sig tx_public_key].
  rewrite hex_encode_length, hex_encode_hexdigits, length_vec_to_list. split_and!; try done; cbn; lia.
Qed.

(** The transaction the client builds is the signed one, and it verifies. *)
Lemma build_signed_transfer client w n t fee :
  let cid := cc_chain_id client in
  transfer_json w cid n t (coin_amount fee) →
  calculate_dynamic_fee (unsigned_transfer w n t 0) (cc_fee_config client) = Ok fee →
  from_public_key (verifying_key_of (wallet_key (nw_wallet w))) = Ok (transfer_sender t) →
  let tx := signed_transfer w cid n t (coin_amount fee) in
  build_signed client w n (Transfer t) "Transfer" = Ok (tx, transfer_text tx t, fee) ∧ Tx_verify tx cid = Ok true.
Proof.
  intros cid Hj Hfee Hk tx. unfold build_signed.
  change (Tx_new n (Payload_new (Transfer t)) _) with (unsigned_transfer w n t 0). rewrite Hfee.
  change (mkTx (tx_sig (unsigned_transfer w n t 0)) _ _ _ (coin_amount fee))
    with (unsigned_transfer w n t (coin_amount fee)).
  assert (Tx_sign (unsigned_transfer w n t (coin_amount fee)) (wallet_key (nw_wallet w)) cid = Ok tx) as Hs.
  { unfold Tx_sign, signing_bytes.
    change (with_sig (unsigned_transfer w n t (coin_amount fee)) TxSig_empty)
      with (unsigned_transfer w n t (coin_amount fee)). by rewrite (tj_unsigned _ _ _ _ _ Hj). }
  fold cid. rewrite Hs. pose proof (wt_text _ _ (tj_signed _ _ _ _ _ Hj)) as Hwt. fold tx in Hwt.
  rewrite Hwt. cbn [ok_or].
  assert (Tx_verify tx cid = Ok true) as Hv.
  { rewrite (sign_then_verify _ tx (wallet_key (nw_wallet w)) cid (transfer_sender t) Hs eq_refl Hk).
    by rewrite bool_decide_eq_true_2. }
  by rewrite Hv.
Qed.

(** The sender's account as a commit leaves it: the same object in the database
    and in the committed cache, and nothing of the sender staged in the block. *)
Record settled_account (db : Database) (e : AppStateEnvelope) (a : Address) (m : CADOMut) (acc : Account) : Prop := {
  sac_stored : db_get_cado_by_path db (account_path a) = Ok (Some (Mutable m));
  sac_decoded : safe_deserialize_account_data (cadomut_data m) = Ok acc;
  sac_staged : cado_cache e !! cp_path (account_path a) = None;
  sac_committed : committed_cado_cache e !! cp_path (account_path a) = Some (Mutable m);
}.

Lemma settled_account_at db e a m acc :
  settled_account db e a m acc →
  account_at (database_reads db) e a = Some (acc, cadomut_hash m) ∧
  Account_deserialize_bin (cadomut_data m) = Ok acc.
Proof.
  intros [H1 H2 H3 H4]. unfold account_at, get_account_from_cado, lookup_cado_staged_committed_then_db.
  rewrite H3, H4, H2. split; [done|].
  unfold safe_deserialize_account_data, safe_bincode_deserialize in H2. unfold Account_deserialize_bin.
  destruct (cadomut_data m) as [|x b]; [done|]. destruct (_ <? _); [done|].
  destruct (bin_deserialize (x :: b)); [|done]. by injection H2 as ->.
Qed.

End client_transfer.

(** *** Commits leave accounts settled *)

Section settled_by_commit.
Context {H : HexCrate} {HL : HexLaws H} {HC : HashCrates} {C : RecordCodecs}
  {CL : RecordCodecsLaws C} {R : RandCrate} {T : TrieCrate} {SC : SnapshotCodecs}
  {SL : SnapshotCodecsLaws SC}.

(** An account the block staged is settled once the block is committed. *)
Lemma commit_settles_account protocol db s hash s' db' out a m acc :
  commit_ready db s → app_hash s = Some hash → types_separated →
  own_key (map_to_list (cado_cache (envelope s))) Cado_Account (hex_with_prefix a) →
  commit protocol db (Some s) = Some (s', db', out) →
  cado_cache (envelope s) !! cp_path (account_path a) = Some (Mutable m) →
  safe_deserialize_account_data (cadomut_data m) = Ok acc →
  settled_account db' (envelope s') a m acc.
Proof.
  intros Hready Eh Hsep Hown Ec Hst Hdec. pose proof Hready as [Hw _ Hstg _ _].
  destruct (commit_run protocol db s hash Hready Eh)
    as (e2 & tx1 & tx2 & tx3 & db2 & Erun & Hreg & Eobj & Hw2 & _ & Hw3 & _ & Hw4 & _).
  rewrite Ec in Erun. injection Erun as -> -> _.
  destruct (selected_fields protocol s) as (_ & _ & S3 & S4 & _).
  destruct (merged_fields _ _ Hreg) as (_ & _ & _ & _ & _ & M6).
  assert (name_ok Cado_Account (hex_with_prefix a)) as Hn by apply validate_hex_address.
  edestruct (lookups_carried db db2 tx1 tx2 tx3 (envelope s)
    (set_cado_cache ∅ (merge_cache (set_namespace_registry_cache ∅ e2))) Cado_Account
    (hex_with_prefix a)) as [_ Hl]; try done.
  { rewrite <- S3, <- S4. by apply M6. }
  constructor; [by apply Hl|exact Hdec|by apply lookup_empty|].
  etrans; [exact (M6 Cado_Account (hex_with_prefix a) ltac:(done) Hn)|].
  rewrite S3, S4. apply lookup_union_Some_l.
  apply map_lookup_filter_Some_2; [exact Hst|]. cbn [fst]. by rewrite infrastructure_path.
Qed.
End settled_by_commit.

(** ** Witnesses *)

(** A wallet with the stored account of [test_post_db], and its next transfer. *)
Definition test_main_wallet : NamedWallet (E := ref_ed25519) := mkNamedWallet "main" (mkWallet test_sender test_sk).
Definition test_client_transfer : TransferTx := mkTransferTx test_sender test_recipient 250.
Definition test_signed_transfer : Tx :=
  signed_transfer test_main_wallet "eld" (mkNonce 4) test_client_transfer 22100.
Definition test_wire_text : string := transfer_text test_signed_transfer test_client_transfer.

(** A format with the texts of transfers, one of which reads back, and of the
    objects of the queries. *)
Definition test_transfer_serde : SerdeJson := {|
  value_from_str s :=
    if String.eqb s test_wire_text then Some (transfer_value test_signed_transfer test_client_transfer)
    else CadoBody_value <$> cado_from_str s;
  value_to_string _ := Some "{}";
|}.

Definition test_transfer_codec : TxJson := {|
  tx_to_json tx :=
    match payload_inner (tx_payload tx) with Transfer t => Some (transfer_text tx t) | _ => None end;
  tx_from_json s := if String.eqb s test_wire_text then Some test_signed_transfer else None;
  response_to_json _ _ _ _ _ _ _ := None;
|}.

Lemma test_transfer_wire : TxWire test_transfer_serde test_transfer_codec.
Proof.
  constructor. intros s v m fee tx. cbn [value_from_str tx_from_json test_transfer_serde test_transfer_codec].
  destruct (String.eqb s test_wire_text); [|done]. intros [= <-] _ _ [= <-]. vm_compute. reflexivity.
Qed.

Lemma test_cado_value_text : CadoValueText test_transfer_serde ref_query_json.
Proof.
  constructor. intros c. cbn [value_from_str test_transfer_serde].
  assert (String.eqb (info_text (CadoInfo c)) test_wire_text = false) as ->.
  { apply String.eqb_neq. intros He%(f_equal (String.get 0)). discriminate. }
  by rewrite cado_back.
Qed.

Definition test_stored : CADOMut :=
  match test_validator_body with Mutable m => m | Immutable _ => mkCADOMut test_key [] (mkCADOMetadata "" "") test_key end.

Lemma test_row_alone : ∃ key,
  path_index_cf test_post_db = {[cp_path (account_path test_sender) := key]}.
Proof. eexists. vm_compute. reflexivity. Qed.

(** The committed state of [test_post_db]: its one object is in the committed
    cache. *)
Definition test_settled_env : AppStateEnvelope :=
  set_committed_cado_cache {[cp_path (account_path test_sender) := Mutable test_stored]} envelope_default.

Lemma test_settled :
  settled_account (BC := body_bincode test_validator_body) test_post_db test_settled_env test_sender test_stored
    (mkAccount test_sender (mkCoin 1000000) (mkNonce 3)).
Proof. constructor; vm_compute; reflexivity. Qed.

(** Only the sender has an account in the database. *)
Lemma test_post_db_wf :
  ledger_wf (database_reads (BC := body_bincode test_validator_body) test_post_db) test_settled_env.
Proof.
  destruct test_row_alone as [key Hk].
  assert (∀ p, cp_path p ≠ cp_path (account_path test_sender) →
    db_get_cado_by_path (BC := body_bincode test_validator_body) test_post_db p = Ok None ∨
    ∃ err, db_get_cado_by_path (BC := body_bincode test_validator_body) test_post_db p = Err err) as Hno.
  { intros p Hp. unfold db_get_cado_by_path. destruct (validate_cado_path_internal p); [|right; by eexists].
    left. rewrite Hk, lookup_singleton_ne by done. done. }
  split.
  - intros a acc h Ha. destruct (decide (a = test_sender)) as [->|Hne].
    + destruct (settled_account_at _ _ _ _ _ test_settled) as [Hs _]. rewrite Hs in Ha. injection Ha as <- _.
      split; [done|]. split; split; vm_compute; discriminate.
    + unfold account_at, get_account_from_cado, lookup_cado_staged_committed_then_db in Ha.
      cbn [test_settled_env set_committed_cado_cache envelope_default cado_cache committed_cado_cache] in Ha.
      rewrite lookup_empty, lookup_singleton_ne in Ha
        by (intros He; symmetry in He; revert He; by apply account_paths_distinct).
      cbn [get_cado_by_path database_reads] in Ha.
      by destruct (Hno (account_path a)) as [E|[err E]]; [by apply account_paths_distinct|rewrite E in Ha..].
  - intros a s h Ha. unfold staking_at, get_staking_account_from_cado, lookup_cado_staged_committed_then_db in Ha.
    cbn [test_settled_env set_committed_cado_cache envelope_default cado_cache committed_cado_cache] in Ha.
    rewrite lookup_empty, lookup_singleton_ne in Ha by apply account_staking_paths_distinct.
    cbn [get_cado_by_path database_reads] in Ha.
    destruct (Hno (staking_path a)) as [E|[err E]]; [|rewrite E in Ha; done..].
    intros He. symmetry in He. by apply account_staking_paths_distinct in He.
Qed.

Definition test_query_times : QueryTimes := mkQueryTimes 0 0 0 0.
Definition test_limiters : InfoLimiters := InfoLimiters_new RateLimiter_default.

Lemma client_reads_stored_account_witness :
  client_get_account_by_address (node_rpc (BC := body_bincode test_validator_body)
    (J := test_transfer_codec) (test_conn test_post_db) test_query_times test_limiters) (hex_with_prefix test_sender) =
  Ok (Some (mkAccount test_sender (mkCoin 1000000) (mkNonce 3))).
Proof.
  rewrite (client_reads_stored_account (BC := body_bincode test_validator_body)
    (J := test_transfer_codec) (test_conn test_post_db) test_query_times test_limiters
    (hex_with_prefix test_sender) test_sender).
  - vm_compute. reflexivity.
  - vm_compute. reflexivity.
  - split; vm_compute; reflexivity.
Defined.

(** A page of no posts, in a format where its text is a string. *)
Definition test_page_serde : SerdeJson := {|
  value_from_str s := if String.eqb s "-" then Some (JString "page") else None;
  value_to_string _ := None;
|}.

Lemma client_page_roundtrip_witness :
  pinboard_list_by_wallet (SJ := test_page_serde) (node_rpc (BC := body_bincode test_validator_body)
    (J := test_transfer_codec) (test_conn test_post_db) test_query_times test_limiters)
    (hex_with_prefix test_sender) 0 10 = Ok (JString "page").
Proof.
  rewrite (client_page_roundtrip (SJ := test_page_serde) (BC := body_bincode test_validator_body)
    (J := test_transfer_codec) (test_conn test_post_db) test_query_times test_limiters
    (hex_with_prefix test_sender) 0 10).
  - vm_compute. reflexivity.
  - split; [discriminate|split; vm_compute; reflexivity].
  - unfold u64_max. lia.
  - unfold u64_max. lia.
  - split; vm_compute; reflexivity.
Defined.

Definition test_chain_client : ChainClient :=
  mkChainClient "eld" (fee_config local_dev) (Some (mkWalletStore [test_main_wallet])).
Definition no_hashes : TmHashes := {| hash_from_str _ := None |}.

Lemma test_transfer_fee :
  calculate_dynamic_fee (J := test_transfer_codec) (unsigned_transfer test_main_wallet (mkNonce 4) test_client_transfer 0)
    (fee_config local_dev) = Ok (mkCoin 22100).
Proof. vm_compute. reflexivity. Qed.

Lemma test_transfer_texts :
  transfer_json (J := test_transfer_codec) (SJ := test_transfer_serde) test_main_wallet "eld" (mkNonce 4)
    test_client_transfer 22100.
Proof.
  constructor; [reflexivity|reflexivity|]. constructor.
  - reflexivity.
  - cbn [value_from_str test_transfer_serde]. unfold test_wire_text, test_signed_transfer. by rewrite String.eqb_refl.
  - cbn [tx_from_json test_transfer_codec]. unfold test_wire_text, test_signed_transfer. by rewrite String.eqb_refl.
  - exists "{}". split; [reflexivity|vm_compute; discriminate].
Qed.

