(* ===== verification/Registration.v ===== *)
(** The capacity provider on the chain: node_app/src/capacity/
    capacity_registration.rs, on_ready.rs, and
    capacity_manager/{chain_txs,slot_io}.rs as far as they send transactions.

    The wallets, the chain id and the constants the manager holds are fields of
    [ChainSide]; the client's node is a [Node].  The locks are not poisoned and
    the URL of the node is taken as resolved. *)
From S2P Require Import Prelude Externals Reference Coins Address Ordering Namespace Cado Records Tx TxCodes Merkle Wire Validation TxTyped UserPost Fee Pinboard AppState Ledger Processors VerifiedProof Deliver Epoch Storage Slots Capacity Feed Gc Sync Mempool Exchange Paging Prefix Indexer IndexerSync RestApi RestReads PinboardApi PinboardFlow AbciLimits AbciQuery Wallets Client.

Definition ELD_STORAGE_CHALLENGE_TOPIC_PREFIX : string := "eld-storage-challenge-topic-".

Inductive CapacityRegistrationStatus : Type :=
| NotRegistered
| Pending
| Registration_Failed (error : string).

Section registration.
Context {H : HexCrate} {HC : HashCrates} {B : Base64} {E : Ed25519} {SJ : SerdeJson} {J : TxJson}
  {C : RecordCodecs} {Q : QueryJson} {X : Blake3Xof} {SM : SlotJson}.

(** What the manager holds besides its slots. *)
Record ChainSide : Type := mkChainSide {
  cs_cli : ChainClient;
  cs_node : Node;
  cs_chain_id : string;
  cs_wallet_name : string;
  cs_protocol : ProtocolHandle;
}.

Definition cli_wallet_by_name (cli : ChainClient) (name : string) : eld_result (option NamedWallet) :=
  let? store := client_wallet_store cli in get_wallet_by_name store name.

Definition cli_wallet_by_address (cli : ChainClient) (address : string) : eld_result (option NamedWallet) :=
  let? store := client_wallet_store cli in get_wallet_by_address store address.

Definition protocol_fee_config (cs : ChainSide) : eld_result FeeConfig :=
  match ProtocolHandle_get (cs_protocol cs) with
  | Some constants => Ok (fee_config constants)
  | None => Err (InitializationError "protocol_constants")
  end.

(** The transaction with its fee, signed by the wallet. *)
Definition priced_and_signed (operation chain_id : string) (fee_config : FeeConfig) (wallet : NamedWallet)
    (nonce : Nonce) (payload : PayloadInner) : eld_result Tx :=
  let tx := Tx_new nonce (Payload_new payload) (hex_encode (verifying_key_of (wallet_key (nw_wallet wallet)))) in
  match calculate_dynamic_fee tx fee_config with
  | Err _ => Err (StorageError operation)
  | Ok dynamic_fee =>
      Tx_sign (mkTx (tx_sig tx) (tx_nonce tx) (tx_payload tx) (tx_public_key tx) (coin_amount dynamic_fee))
        (wallet_key (nw_wallet wallet)) chain_id
  end.

(** ** capacity_registration.rs *)

(** Confirmation on the chain is not tracked. *)
Definition service_is_registered (status : CapacityRegistrationStatus) : bool := false.

(** The status is [Pending] from the start; only a transaction that does not
    verify or cannot be sent makes it [Registration_Failed]. *)
Definition submit_capacity_registration_tx (cs : ChainSide) (provider_address : string) (capacity_bytes : Z)
    (seed merkle_root : byte_array 32) (chunk_count : Z) (wallet : NamedWallet) (chain_id : string)
    (fee_config : FeeConfig) (status : CapacityRegistrationStatus) :
    eld_result unit * CapacityRegistrationStatus * list string :=
  let operation := "submit_capacity_registration_tx" in
  match
    (let? nonce := get_next_nonce_for_account (node_query (cs_node cs)) provider_address in
     let? next_nonce := ok_or nonce (StorageError operation) in
     let? sender_addr := parse_hex_str provider_address in
     let? t := RegisterCapacityTx_new sender_addr capacity_bytes merkle_root seed chunk_count in
     let? tx := priced_and_signed operation chain_id fee_config wallet next_nonce (RegisterCapacity t) in
     let? json := ok_or (tx_to_json tx) (StorageError operation) in
     let? verified := Tx_verify tx chain_id in
     Ok (json, verified)) with
  | Err e => (Err e, Pending, [])
  | Ok (json, false) =>
      (Err (StorageError operation), Registration_Failed "Transaction verification failed", [])
  | Ok (json, true) =>
      let hex_encoded := hex_encode (as_bytes json) in
      match send_tx_rpc (node_broadcast (cs_node cs)) hex_encoded with
      | Ok _ => (Ok tt, Pending, [hex_encoded])
      | Err _ => (Err (StorageError operation), Registration_Failed "Transaction submission failed", [hex_encoded])
      end
  end.

(** ** chain_txs.rs *)

Definition register_capacity_onchain (cs : ChainSide) (capacity_bytes : Z) (seed merkle_root : byte_array 32)
    (status : CapacityRegistrationStatus) : eld_result unit * CapacityRegistrationStatus * list string :=
  if service_is_registered status then (Ok tt, status, [])
  else
    match
      (let? found := cli_wallet_by_name (cs_cli cs) (cs_wallet_name cs) in
       let? wallet := ok_or found (StorageError "register_capacity_onchain") in
       let? fee_config := protocol_fee_config cs in
       Ok (wallet, fee_config)) with
    | Err e => (Err e, status, [])
    | Ok (wallet, fee_config) =>
        let chunk_count := wrap_u32 (div_ceil capacity_bytes (Z.of_nat MAX_CHUNK_SIZE)) in
        submit_capacity_registration_tx cs (hex_with_prefix (wallet_address (nw_wallet wallet))) capacity_bytes
          seed merkle_root chunk_count wallet (cs_chain_id cs) fee_config status
    end.

Definition submit_merkle_root_update (cs : ChainSide) (provider_id : Address) (new_merkle_root : byte_array 32) :
    eld_result unit * list string :=
  let operation := "submit_merkle_root_update" in
  match
    (let? found := cli_wallet_by_address (cs_cli cs) (hex_with_prefix provider_id) in
     let? wallet := ok_or found (StorageError operation) in
     let? nonce := get_next_nonce_for_account (node_query (cs_node cs)) (hex_with_prefix provider_id) in
     let? next_nonce := ok_or nonce (StorageError operation) in
     let? t := UpdateCapacityMerkleRootTx_new provider_id new_merkle_root in
     let? fee_config := protocol_fee_config cs in
     let? tx := priced_and_signed operation (cs_chain_id cs) fee_config wallet next_nonce
                  (UpdateCapacityMerkleRoot t) in
     let? verified := Tx_verify tx (cs_chain_id cs) in
     if negb verified then Err (StorageError operation)
     else ok_or (tx_to_json tx) (StorageError operation)) with
  | Err e => (Err e, [])
  | Ok json =>
      let hex_encoded := hex_encode (as_bytes json) in
      match send_tx_rpc (node_broadcast (cs_node cs)) hex_encoded with
      | Ok _ => (Ok tt, [hex_encoded])
      | Err _ => (Err (StorageError operation), [hex_encoded])
      end
  end.

Definition get_registration_info (m : CapacityManager) : eld_result (Z * byte_array 32 * byte_array 32) :=
  let? slot_map := ok_or (cm_slot_map m) (StorageError "get_registration_info") in
  let? merkle_root := get_merkle_root m in
  Ok (Z.of_nat (sm_capacity_bytes slot_map), sm_seed slot_map, merkle_root).

(** ** slot_io.rs: the transaction after the slots are written *)

(** A failed submission is logged only. *)
Definition store_and_announce (cs : ChainSide) (content_id : string) (chunks : list bytes) (m : CapacityManager) :
    eld_result (list nat) * CapacityManager * list string :=
  let '(r, m') := store_content_chunks content_id chunks m in
  match r with
  | Err e => (Err e, m', [])
  | Ok slot_indices =>
      match get_merkle_root m' with
      | Ok root => (Ok slot_indices, m', (submit_merkle_root_update cs (cm_provider_id m') root).2)
      | Err e => (Err e, m', [])
      end
  end.

(** The update is left out when the root is the one before; the roots are those
    of the trees before and after, which the deletion has read itself. *)
Definition delete_and_announce (cs : ChainSide) (content_id : string) (m : CapacityManager) :
    eld_result unit * CapacityManager * list string :=
  let '(r, m') := delete_content_from_slots content_id m in
  match r with
  | Err e => (Err e, m', [])
  | Ok _ =>
      match get_merkle_root m, get_merkle_root m' with
      | Ok previous, Ok root =>
          if bool_decide (previous = root) then (Ok tt, m', [])
          else (Ok tt, m', (submit_merkle_root_update cs (cm_provider_id m') root).2)
      | Err e, _ | _, Err e => (Err e, m', [])
      end
  end.

(** ** on_ready.rs *)

(** What the node does once it is ready. *)
Inductive ReadyAction : Type :=
| Subscribe (topic : string)
| Broadcast (hex : string).

Definition challenge_topic (provider_id : Address) : string :=
  String.append ELD_STORAGE_CHALLENGE_TOPIC_PREFIX (hex_with_prefix provider_id).

Definition check_existing_registration (cs : ChainSide) (m : CapacityManager) : list ReadyAction :=
  match is_capacity_provider_registered (node_query (cs_node cs)) (hex_with_prefix (cm_provider_id m)) with
  | Ok true => [Subscribe (challenge_topic (cm_provider_id m))]
  | Ok false | Err _ => []
  end.

(** The details of the error of [register_capacity_onchain], the only one with
    that operation. *)
Definition missing_wallet_details (wallet_name : string) : string :=
  String.append "Failed to get capacity-validator wallet '"
    (String.append wallet_name "' for RegisterCapacity").

Definition wallet_missing (wallet_name : string) (e : EldError) : bool :=
  match e with
  | StorageError operation =>
      String.eqb operation "register_capacity_onchain" &&
      contains "Failed to get wallet" (missing_wallet_details wallet_name)
  | _ => false
  end.

(** [None]: the process is stopped. *)
Definition submit_registration_if_allocated (cs : ChainSide) (m : CapacityManager)
    (status : CapacityRegistrationStatus) : option (list ReadyAction * CapacityRegistrationStatus) :=
  if negb (slot_map_exists m) then Some ([], status)
  else
    match get_registration_info m with
    | Err _ => Some ([], status)
    | Ok (capacity_bytes, seed, merkle_root) =>
        let '(r, status, sent) := register_capacity_onchain cs capacity_bytes seed merkle_root status in
        match r with
        | Err e => if wallet_missing (cs_wallet_name cs) e then None else Some (map Broadcast sent, status)
        | Ok _ => Some (map Broadcast sent ++ [Subscribe (challenge_topic (cm_provider_id m))], status)
        end
    end.

(** [ready] is false when the channel was closed before the first commit. *)
Definition after_first_commit (ready : bool) (cs : ChainSide) (m : CapacityManager)
    (status : CapacityRegistrationStatus) : option (list ReadyAction * CapacityRegistrationStatus) :=
  if negb ready then Some ([], status)
  else
    let existing := check_existing_registration cs m in
    '(actions, status) ← submit_registration_if_allocated cs m status;
    Some (existing ++ actions, status).
End registration.

(** ** What a registration puts in the registry *)

Section registry.
Context {H : HexCrate} {HL : HexLaws H} {HC : HashCrates} {C : RecordCodecs} {E : Ed25519}
  (rd : StorageReads) (protocol : ProtocolConstants).

Lemma find_update_first a f l p :
  (∀ q, cv_address (f q) = cv_address q) → List.find (is_provider a) l = Some p →
  List.find (is_provider a) (update_first (is_provider a) f l) = Some (f p).
Proof.
  intros Hf. induction l as [|q l IH]; [done|]. cbn [List.find update_first].
  destruct (is_provider a q) eqn:Hq; cbn [List.find].
  - intros [= <-]. unfold is_provider in *. by rewrite Hf, Hq.
  - intros Hp. rewrite Hq. by apply IH.
Qed.

(** No provider, or one with the same key. *)
Definition registrable (l : list CapacityValidatorInfo) (a : Address) (key : PublicKey) : Prop :=
  ∀ p, find_provider l a = Some p → cv_public_key p = key.

Lemma register_entry e t pk key :
  PublicKey_try_from pk = Ok key → is_from_public_key (register_sender t) (pk_bytes key) = true →
  is_Some (account_at rd e (register_sender t)) → registrable (capacity_validators e) (register_sender t) key →
  ∃ events e' cp, run (process_register_capacity_tx rd protocol t pk) e = Some (resp_ok events, e') ∧
    find_provider (capacity_validators e') (register_sender t) = Some cp ∧
    cv_storage_capacity cp = register_capacity_bytes t ∧ cv_merkle_root cp = Some (register_merkle_root t) ∧
    cv_seed cp = Some (register_seed t) ∧ cv_chunk_count cp = Some (register_chunk_count t) ∧
    cv_public_key cp = key.
Proof.
  intros Hpk Hfrom [acc Hacc] Hreg. unfold process_register_capacity_tx. ledger_unfold. rewrite Hpk, Hfrom.
  cbn [negb]. ledger_step. rewrite Hacc.
  change (find_provider ?l ?a) with (List.find (is_provider a) l). unfold registrable in Hreg.
  change (find_provider ?l ?a) with (List.find (is_provider a) l) in Hreg.
  destruct (List.find (is_provider (register_sender t)) (capacity_validators e)) as [p|] eqn:Ef.
  - assert (existsb (is_provider (register_sender t)) (capacity_validators e) = true) as ->.
    { apply existsb_exists. apply List.find_some in Ef. by exists p. }
    cbn [negb]. rewrite bool_decide_eq_true_2 by (by apply Hreg). cbn [negb].
    eexists _, _, _. split; [reflexivity|]. split.
    { apply find_update_first; [done|exact Ef]. }
    cbn. by rewrite (Hreg p eq_refl).
  - assert (existsb (is_provider (register_sender t)) (capacity_validators e) = false) as ->.
    { apply not_true_is_false. intros (p & Hin & Hp)%existsb_exists.
      by rewrite (List.find_none _ _ Ef p Hin) in Hp. }
    cbn [negb]. eexists _, _, _. split; [reflexivity|]. split.
    { cbn [capacity_validators set_capacity_validators]. rewrite find_app_last;
        [reflexivity|intros y Hy%list_elem_of_In; by apply (List.find_none _ _ Ef)|].
      unfold is_provider. by apply bool_decide_eq_true. }
    done.
Qed.

Lemma update_entry e t cp :
  is_Some (account_at rd e (update_sender t)) →
  find_provider (capacity_validators e) (update_sender t) = Some cp →
  ∃ events e' cp', run (process_update_capacity_merkle_root_tx rd t) e = Some (resp_ok events, e') ∧
    find_provider (capacity_validators e') (update_sender t) = Some cp' ∧
    cv_merkle_root cp' = Some (update_merkle_root t) ∧ cv_chunk_count cp' = cv_chunk_count cp.
Proof.
  intros [acc Hacc] Hcp. unfold process_update_capacity_merkle_root_tx. ledger_unfold. ledger_step.
  rewrite Hacc. change (find_provider ?l ?a) with (List.find (is_provider a) l).
  change (find_provider ?l ?a) with (List.find (is_provider a) l) in Hcp.
  assert (existsb (is_provider (update_sender t)) (capacity_validators e) = true) as ->.
  { apply existsb_exists. apply List.find_some in Hcp. by exists cp. }
  cbn [negb]. eexists _, _, _. split; [reflexivity|]. split.
  { apply find_update_first; [done|exact Hcp]. }
  done.
Qed.
End registry.

(** ** The extent of the capacity never changes *)

Section extent.
Context {H : HexCrate} {HL : HexLaws H} {HC : HashCrates} {X : Blake3Xof} {J : SlotJson} {B : Base64}
  {T : TrackerJson} {XL : Blake3XofLaws X} {JL : SlotJsonLaws J}.

(** Number of slots, bytes, seed and owner of the slot map. *)
Definition extent (m : CapacityManager) : option (nat * nat * byte_array 32 * Address) :=
  (λ sm, (length (sm_slots sm), sm_capacity_bytes sm, sm_seed sm, sm_provider_id sm)) <$> cm_slot_map m.

Definition extent_kept (m m' : CapacityManager) : Prop :=
  extent m' = extent m ∧ cm_provider_id m' = cm_provider_id m ∧ cm_initialized m' = cm_initialized m.

Lemma rewritten_extent s m f t ups st cmap t' :
  capacity_view s m f t → extent_kept s (rewritten s m f ups st cmap t').
Proof.
  intros Hv. unfold extent_kept, extent. rewrite (view_slots _ _ _ _ Hv). split_and!; [|done|done].
  cbn. by rewrite mark_all_length.
Qed.

Lemma extent_kept_refl s : extent_kept s s.
Proof. done. Qed.

Lemma extent_kept_trans s1 s2 s3 : extent_kept s1 s2 → extent_kept s2 s3 → extent_kept s1 s3.
Proof. intros (E1 & E2 & E3) (F1 & F2 & F3). unfold extent_kept. by rewrite F1, F2, F3. Qed.

Lemma store_extent id chunks s : capacity_ok s → Forall (λ d, length d ≤ MAX_CHUNK_SIZE)%nat chunks →
  extent_kept s (store_content_chunks id chunks s).2.
Proof.
  intros Hok Hc. pose proof (store_shelf id chunks s Hok Hc) as Hs.
  destruct Hok as (m & f & t & Hv). destruct (shelf_put id chunks (shelf_of s)) as [sh|] eqn:Ep;
    [|by rewrite Hs].
  unfold shelf_put in Ep. rewrite (view_shelf s m f t Hv) in Ep. cbn [room] in Ep.
  destruct (_ <? _)%nat eqn:Er; [done|]. apply Nat.ltb_ge in Er.
  destruct (store_run id chunks s m f t Hv Hc Er) as (used & t' & h & _ & _ & _ & _ & ->).
  by eapply rewritten_extent.
Qed.

Lemma delete_extent id s : capacity_ok s → extent_kept s (delete_content_from_slots id s).2.
Proof.
  intros (m & f & t & Hv). destruct (cm_content_slot_map s !! id) as [l|] eqn:El.
  - destruct (delete_run id s m f t l Hv El) as (t' & _ & _ & _ & ->). by eapply rewritten_extent.
  - unfold delete_content_from_slots, cm_get, cm_lift, find_slots_by_content_id, mbind, cm_bind. by rewrite El.
Qed.

Lemma store_if_missing_extent key b s : capacity_ok s → extent_kept s (store_if_missing key b s).
Proof.
  intros Hok. unfold store_if_missing. destruct (get_content_from_slots key s) as [[c|]|e]; [done| |done].
  by apply store_extent, chunks_small.
Qed.

Lemma mirror_blobs_extent blobs : ∀ s, capacity_ok s → extent_kept s (mirror_blobs blobs s).
Proof.
  induction blobs as [|[key b] blobs IH]; intros s Hok; [done|]. unfold mirror_blobs. cbn [foldl fst snd].
  eapply extent_kept_trans; [by apply store_if_missing_extent|]. by apply IH, store_if_missing_shelf.
Qed.

(** The owner and the extent of a provider's slots stay what allocation made them. *)
Definition same_extent (s s' : CapacityManager) : Prop :=
  extent s' = extent s ∧ cm_provider_id s' = cm_provider_id s.

Lemma provider_step_extent s s' :
  provider_step s s' → provider_inv s → same_extent (ps_capacity s) (ps_capacity s').
Proof.
  assert (∀ s1 s2, extent_kept s1 s2 → same_extent s1 s2) as Hk by (by intros s1 s2 (? & ? & _)).
  intros Hstep [Hok Had].
  destruct Hstep as [blobs cm hd pd file Hb|key content cm hd pd file cm' t' Hr|db key now cm hd pd file t' msgs _
    |now cm hd pd file t' msgs _|key cm hd pd file r cm' Hd|cm hd pd file cm' t' Hi _]; cbn [ps_capacity] in *.
  - by apply Hk, mirror_blobs_extent.
  - destruct (handle_content_response_cases key content cm (mkTracker hd file) Hok)
      as [E | (b & _ & _ & _ & E)]; rewrite E in Hr; injection Hr as <- <-; [done|].
    by apply Hk, store_if_missing_extent.
  - done.
  - done.
  - apply Hk. pose proof (delete_extent key cm Hok) as He. by rewrite Hd in He.
  - rewrite (restart_capacity cm Hok) in Hi. by injection Hi as <-.
Qed.

Lemma provider_steps_extent s s' :
  rtc provider_step s s' → provider_inv s → same_extent (ps_capacity s) (ps_capacity s').
Proof.
  induction 1 as [|s1 s2 s3 Hstep _ IH]; [done|]. intros Hi.
  destruct (provider_step_extent _ _ Hstep Hi) as [E1 E2].
  destruct (IH (provider_step_inv _ _ Hstep Hi)) as [E3 E4]. split; congruence.
Qed.

(** What allocation makes of a size in megabytes. *)
Lemma allocated_extent mb seed s s' :
  0 < mb < 2 ^ 44 → file_slots s = None → cm_content_slot_map s = ∅ → file_content_map s = None →
  allocate_capacity mb seed s = Some (Ok tt, s') →
  extent s' = Some (Z.to_nat (mb * 1024), Z.to_nat (mb * 1024 * 1024), seed, cm_provider_id s).
Proof.
  intros Hmb Hs Hc Hcf Ha. destruct (allocate_mb_run mb seed s Hmb Hs Hc Hcf)
    as (root & s1 & Ha' & _ & _ & _ & Hlen & _). rewrite Ha in Ha'. injection Ha' as <-.
  revert Ha. unfold allocate_capacity, slot_map_exists. rewrite Hs. unfold allocate_capacity_internal.
  destruct (any_overlap _); [done|]. destruct (write_initial _ _ _ _ _) as [f hs].
  destruct (build hs) as [t|]; [|done]. cbn [mbind option_bind]. intros [= <-].
  unfold slots_of in Hlen. unfold extent.
  cbn [cm_slot_map set_merkle_tree set_file_slots set_slot_map fmap option_fmap option_map sm_slots
    sm_capacity_bytes sm_seed sm_provider_id] in *.
  unfold wrap_u64. rewrite Z.mod_small by lia. f_equal. f_equal. f_equal. f_equal.
  unfold wrap_u64 in Hlen. rewrite Z.mod_small in Hlen by lia. lia.
Qed.
End extent.

(** ** Registrations that are sent *)

Section sent.
Context {H : HexCrate} {HL : HexLaws H} {HC : HashCrates} {B : Base64} {E : Ed25519} {EL : Ed25519Laws E}
  {SJ : SerdeJson} {J : TxJson} {C : RecordCodecs} {Q : QueryJson} {X : Blake3Xof} {SM : SlotJson}.

Definition wallet_pk (w : NamedWallet) : TxPublicKey := hex_encode (verifying_key_of (wallet_key (nw_wallet w))).

(** A wallet whose address is the one of its key. *)
Definition wallet_sound (w : NamedWallet) : Prop :=
  from_public_key (verifying_key_of (wallet_key (nw_wallet w))) = Ok (wallet_address (nw_wallet w)).

(** A transaction of the owner of the wallet, as it is broadcast. *)
Record broadcast_tx (w : NamedWallet) (cid : string) (n : Nonce) (p : PayloadInner) (fee : Coin) (hex : string)
    (tx : Tx) : Prop := {
  bt_json : ∃ json, tx_to_json tx = Some json ∧ hex = hex_encode (as_bytes json);
  bt_verifies : Tx_verify tx cid = Ok true;
  bt_payload : payload_inner (tx_payload tx) = p;
  bt_nonce : tx_nonce tx = n;
  bt_fee : tx_fee tx = coin_amount fee;
  bt_key : tx_public_key tx = wallet_pk w;
}.

Lemma priced_and_signed_run op cid fc w n p fee :
  wallet_sound w → sender p = wallet_address (nw_wallet w) → (∀ tx, is_Some (tx_to_json tx)) →
  calculate_dynamic_fee (Tx_new n (Payload_new p) (wallet_pk w)) fc = Ok fee →
  ∃ tx json, priced_and_signed op cid fc w n p = Ok tx ∧ tx_to_json tx = Some json ∧
    Tx_verify tx cid = Ok true ∧ broadcast_tx w cid n p fee (hex_encode (as_bytes json)) tx.
Proof.
  intros Hw Hs Hj Hfee. unfold priced_and_signed. fold (wallet_pk w). rewrite Hfee.
  set (tx0 := mkTx _ _ _ _ _).
  assert (∃ tx, Tx_sign tx0 (wallet_key (nw_wallet w)) cid = Ok tx ∧ tx_payload tx = Payload_new p ∧
    tx_nonce tx = n ∧ tx_fee tx = coin_amount fee ∧ tx_public_key tx = wallet_pk w) as (tx & Hsign & Hp & Hn & Hf & Hk).
  { unfold Tx_sign, signing_bytes. destruct (Hj (with_sig tx0 TxSig_empty)) as [json ->]. eexists. split; [done|].
    done. }
  destruct (Hj tx) as [json Ejson]. exists tx, json.
  assert (Tx_verify tx cid = Ok true) as Hv.
  { rewrite (sign_then_verify _ tx (wallet_key (nw_wallet w)) cid (wallet_address (nw_wallet w)) Hsign eq_refl Hw).
    change (payload_inner (tx_payload tx0)) with p. by rewrite Hs, bool_decide_eq_true_2. }
  split_and!; [done|done|done|]. constructor; try done; [by exists json|]. by rewrite Hp.
Qed.

(** The node answers the query of the sender's nonce, and the fee of the payload is computed. *)
Record can_send (cs : ChainSide) (w : NamedWallet) (n : Nonce) (p : PayloadInner) (constants : ProtocolConstants)
    (fee : Coin) : Prop := {
  cn_protocol : cs_protocol cs = Some constants;
  cn_nonce : get_next_nonce_for_account (node_query (cs_node cs))
    (hex_with_prefix (wallet_address (nw_wallet w))) = Ok (Some n);
  cn_fee : calculate_dynamic_fee (Tx_new n (Payload_new p) (wallet_pk w)) (fee_config constants) = Ok fee;
  cn_json : ∀ tx, is_Some (tx_to_json tx);
  cn_wallet : wallet_sound w;
}.

Definition registration_of (a : Address) (cap : nat) (seed root : byte_array 32) :
    RegisterCapacityTx :=
  mkRegisterCapacityTx a (Z.of_nat cap) root seed (wrap_u32 (div_ceil (Z.of_nat cap) (Z.of_nat MAX_CHUNK_SIZE))).

Lemma registration_sent cs m w n fee constants slots cap seed pid root status :
  let a := wallet_address (nw_wallet w) in
  let t := registration_of a cap seed root in
  file_slots m ≠ None → extent m = Some (slots, cap, seed, pid) → (0 < cap)%nat → get_merkle_root m = Ok root →
  cli_wallet_by_name (cs_cli cs) (cs_wallet_name cs) = Ok (Some w) →
  can_send cs w n (RegisterCapacity t) constants fee →
  ∃ hex tx rest status', submit_registration_if_allocated cs m status = Some (Broadcast hex :: rest, status') ∧
    (∀ h, Broadcast h ∉ rest) ∧ broadcast_tx w (cs_chain_id cs) n (RegisterCapacity t) fee hex tx.
Proof.
  intros a t Hf Hext Hcap Hroot Hw [Hp Hn Hfee Hj Hs].
  destruct (priced_and_signed_run "submit_capacity_registration_tx" (cs_chain_id cs) (fee_config constants) w n
    (RegisterCapacity t) fee Hs eq_refl Hj Hfee) as (tx & json & Htx & Hjson & Hv & Hb).
  unfold submit_registration_if_allocated, slot_map_exists. destruct (file_slots m); [|done]. cbn [negb].
  unfold extent in Hext. destruct (cm_slot_map m) as [sm|] eqn:Em; [|done]. injection Hext as _ <- <- _.
  unfold get_registration_info. rewrite Em, Hroot. cbn [ok_or].
  unfold register_capacity_onchain, service_is_registered, protocol_fee_config, ProtocolHandle_get.
  rewrite Hw. cbn [ok_or]. rewrite Hp. unfold submit_capacity_registration_tx. rewrite Hn. cbn [ok_or].
  rewrite parse_hex_with_prefix. unfold RegisterCapacityTx_new. rewrite (proj2 (Z.eqb_neq _ _)) by lia.
  change (mkRegisterCapacityTx _ _ _ _ _) with t. rewrite Htx, Hjson. cbn [ok_or]. rewrite Hv.
  exists (hex_encode (as_bytes json)), tx.
  destruct (send_tx_rpc _ _) as [v|e]; [exists [Subscribe (challenge_topic (cm_provider_id m))], Pending|
    eexists [], _]; (split; [reflexivity|]); (split; [|exact Hb]).
  - by intros h ?%list_elem_of_singleton.
  - by intros h ?%elem_of_nil.
Qed.

(** Delivered, the registration of a capacity is the one its holder can answer for. *)
Lemma registration_honest (rd : StorageReads) (protocol : ProtocolConstants) cs m w n fee hex tx slots cap seed
    pid root e :
  let a := wallet_address (nw_wallet w) in
  let t := registration_of a cap seed root in
  capacity_ok m → cm_initialized m = true → cm_provider_id m = a → extent m = Some (slots, cap, seed, pid) →
  cap = (slots * MAX_CHUNK_SIZE)%nat → Z.of_nat slots < 2 ^ 32 → get_merkle_root m = Ok root → wallet_sound w →
  broadcast_tx w (cs_chain_id cs) n (RegisterCapacity t) fee hex tx →
  is_Some (account_at rd e a) →
  registrable (capacity_validators e) a (mkPublicKey (verifying_key_of (wallet_key (nw_wallet w)))) →
  ∃ events e' cp, run (process rd protocol tx) e = Some (resp_ok events, e') ∧
    find_provider (capacity_validators e') a = Some cp ∧ cv_storage_capacity cp = Z.of_nat cap ∧
    cv_public_key cp = mkPublicKey (verifying_key_of (wallet_key (nw_wallet w))) ∧
    cv_merkle_root cp = Some root ∧ cv_seed cp = Some seed ∧ cv_chunk_count cp = Some (Z.of_nat slots) ∧
    ∀ st c, envelope st = e' → ch_provider_id c = a → ch_merkle_root c = root →
      honest st c m (wallet_key (nw_wallet w)).
Proof.
  intros a t Hok Hini Hpid Hext -> Hsl Hroot Hw [_ _ Hp _ _ Hk] Hacc Hreg.
  assert (register_chunk_count t = Z.of_nat slots) as Hcount.
  { unfold t, registration_of. cbn [register_chunk_count]. unfold wrap_u32, div_ceil, MAX_CHUNK_SIZE.
    assert ((Z.of_nat (slots * 1024) + Z.of_nat 1024 - 1) / Z.of_nat 1024 = Z.of_nat slots) as ->.
    { symmetry. apply (Z.div_unique _ _ _ 1023); lia. }
    apply Z.mod_small. lia. }
  destruct (register_entry rd protocol e t (tx_public_key tx)
    (mkPublicKey (verifying_key_of (wallet_key (nw_wallet w))))) as (events & e' & cp & Hrun & Hcp & Hcap & Hr & Hse & Hc & Hpub).
  - rewrite Hk. unfold PublicKey_try_from, wallet_pk. by rewrite to_verifying_key_encode.
  - by apply from_public_key_is_from.
  - exact Hacc.
  - exact Hreg.
  - exists events, e', cp. split; [unfold process; rewrite Hp; exact Hrun|].
    split; [exact Hcp|]. split; [exact Hcap|]. split; [exact Hpub|]. split; [exact Hr|].
    split; [exact Hse|]. rewrite Hc, Hcount. split; [done|].
    intros st c He Hcid Hcr. constructor; try done.
    + by rewrite Hcid.
    + by rewrite Hcr.
    + intros cp' Hcp'. rewrite He, Hcid in Hcp'. change a with (register_sender t) in Hcp'.
      rewrite Hcp in Hcp'. injection Hcp' as <-.
      rewrite Hc, Hcount. unfold slots_of. unfold extent in Hext. destruct (cm_slot_map m); [|done].
      by injection Hext as -> _ _ _.
    + by rewrite Hcid.
Qed.
End sent.

(** ** Properties *)

Section registration_properties.
Context {H : HexCrate} {HL : HexLaws H} {HC : HashCrates} {B : Base64} {E : Ed25519} {EL : Ed25519Laws E}
  {SJ : SerdeJson} {J : TxJson} {C : RecordCodecs} {Q : QueryJson} {X : Blake3Xof} {XL : Blake3XofLaws X}
  {SM : SlotJson} {SL : SlotJsonLaws SM} {TJ : TrackerJson}
  (rd : StorageReads) (protocol : ProtocolConstants).

(** C18. A node that starts with less than four tebibytes of allocated capacity
    registers what it holds.  Whatever happened to its slots since they were
    allocated - stored blobs, messages of peers, expiry, restarts - the node
    broadcasts one transaction when it is ready, provided that its wallet is the
    owner of the slots and can pay the fee; it is signed by the wallet, and its
    delivery, to a chain that has the wallet's account and no provider at that
    address with another key, enters the bytes, the number of slots, the current
    root, the seed and the wallet's key in the registry, so that any challenge
    on that root finds an honest provider.  (From four tebibytes on the number
    of slots does not fit its field.) *)
Theorem registration_matches_capacity (mb : Z) (seed : byte_array 32) (s0 cm0 : CapacityManager)
    (hd pd : gmap string MissingContentRecord) (file : option string) (s : provider_state)
    (cs : ChainSide) (w : NamedWallet) (n : Nonce) (fee : Coin) (constants : ProtocolConstants)
    (root : byte_array 32) (status : CapacityRegistrationStatus) (e : AppStateEnvelope) :
  let cm := ps_capacity s in
  let a := wallet_address (nw_wallet w) in
  let t := registration_of a (Z.to_nat (mb * 1024 * 1024)) seed root in
  0 < mb < 2 ^ 22 → file_slots s0 = None → cm_content_slot_map s0 = ∅ → file_content_map s0 = None →
  allocate_capacity mb seed s0 = Some (Ok tt, cm0) →
  rtc provider_step (mkProviderState cm0 hd pd file) s →
  cm_initialized cm = true → cm_provider_id cm = a → get_merkle_root cm = Ok root →
  cli_wallet_by_name (cs_cli cs) (cs_wallet_name cs) = Ok (Some w) →
  can_send cs w n (RegisterCapacity t) constants fee →
  is_Some (account_at rd e a) →
  registrable (capacity_validators e) a (mkPublicKey (verifying_key_of (wallet_key (nw_wallet w)))) →
  ∃ before hex tx rest status' events e' cp,
    after_first_commit true cs cm status = Some (before ++ Broadcast hex :: rest, status') ∧
    (∀ h, Broadcast h ∉ before ++ rest) ∧
    broadcast_tx w (cs_chain_id cs) n (RegisterCapacity t) fee hex tx ∧
    run (process rd protocol tx) e = Some (resp_ok events, e') ∧
    find_provider (capacity_validators e') a = Some cp ∧
    cv_storage_capacity cp = mb * 1024 * 1024 ∧ cv_chunk_count cp = Some (mb * 1024) ∧
    cv_merkle_root cp = Some root ∧ cv_seed cp = Some seed ∧
    cv_public_key cp = mkPublicKey (verifying_key_of (wallet_key (nw_wallet w))) ∧
    ∀ st c, envelope st = e' → ch_provider_id c = a → ch_merkle_root c = root →
      honest st c cm (wallet_key (nw_wallet w)).
Proof.
  intros cm a t Hmb Hs Hc Hcf Hall Hrun Hini Hpid Hroot Hw Hcs Hacc Hreg.
  assert (provider_inv (mkProviderState cm0 hd pd file)) as Hinv.
  { destruct (allocate_mb_run mb seed s0 ltac:(lia) Hs Hc Hcf) as (root0 & s' & Hint & Hok & _ & Hsh & _).
    rewrite Hint in Hall. injection Hall as <-.
    split; [exact Hok|]. intros key l Hl. cbn [ps_capacity] in Hl. by rewrite Hsh in Hl. }
  destruct (provider_steps_inv _ _ Hrun Hinv) as [Hok _].
  destruct (provider_steps_extent _ _ Hrun Hinv) as [Hext _]. cbn [ps_capacity] in Hext.
  rewrite (allocated_extent mb seed s0 cm0 ltac:(lia) Hs Hc Hcf Hall) in Hext. fold cm in Hok, Hext.
  destruct (registration_sent cs cm w n fee constants _ _ seed _ root status
    ltac:(by destruct Hok as (m & f & t0 & Hv); rewrite (view_saved _ _ _ _ Hv)) Hext ltac:(lia) Hroot Hw Hcs)
    as (hex & tx & rest & status' & Hsent & Hno & Hb).
  destruct (registration_honest rd protocol cs cm w n fee hex tx _ _ seed _ root e Hok Hini Hpid Hext)
    as (events & e' & cp & Hp & Hcp & Hcap & Hpub & Hr & Hsd & Hcc & Hh); try done.
  { unfold MAX_CHUNK_SIZE. lia. }
  { lia. }
  { apply (cn_wallet _ _ _ _ _ _ Hcs). }
  exists (check_existing_registration cs cm), hex, tx, rest, status', events, e', cp.
  rewrite Hcc, Hcap, !Z2Nat.id by lia. split_and!; try done.
  - unfold after_first_commit. cbn [negb]. by rewrite Hsent.
  - intros h [Hin|Hin]%elem_of_app; [|by apply (Hno h)]. unfold check_existing_registration in Hin.
    destruct (is_capacity_provider_registered _ _) as [[]|]; [by apply list_elem_of_singleton in Hin|by apply elem_of_nil in Hin..].
Qed.

(** From four tebibytes on the number of chunks does not fit its 32 bits. *)
Example large_capacity_wraps :
  wrap_u32 (div_ceil (2 ^ 22 * 1024 * 1024) (Z.of_nat MAX_CHUNK_SIZE)) = 0.
Proof. vm_compute. reflexivity. Qed.

(** Storing content keeps the registration true: the slots written, the node
    broadcasts the new root, and its delivery makes the registry agree with the
    slots again. *)
Theorem stored_content_reregistered (cs : ChainSide) (m m' : CapacityManager) (id : string) (chunks : list bytes)
    (used : list nat) (w : NamedWallet) (n : Nonce) (fee : Coin) (constants : ProtocolConstants)
    (cp : CapacityValidatorInfo) (root' : byte_array 32) (e : AppStateEnvelope) :
  let a := cm_provider_id m in
  capacity_ok m → cm_initialized m = true → Forall (λ d, length d ≤ MAX_CHUNK_SIZE)%nat chunks →
  store_content_chunks id chunks m = (Ok used, m') → get_merkle_root m' = Ok root' →
  cli_wallet_by_address (cs_cli cs) (hex_with_prefix a) = Ok (Some w) → wallet_address (nw_wallet w) = a →
  can_send cs w n (UpdateCapacityMerkleRoot (mkUpdateCapacityMerkleRootTx a root')) constants fee →
  is_Some (account_at rd e a) → find_provider (capacity_validators e) a = Some cp →
  cv_chunk_count cp = Some (Z.of_nat (length (slots_of m))) →
  ∃ hex tx events e', store_and_announce cs id chunks m = (Ok used, m', [hex]) ∧
    broadcast_tx w (cs_chain_id cs) n (UpdateCapacityMerkleRoot (mkUpdateCapacityMerkleRootTx a root')) fee hex tx ∧
    run (process rd protocol tx) e = Some (resp_ok events, e') ∧
    ∀ st c, envelope st = e' → ch_provider_id c = a → ch_merkle_root c = root' →
      honest st c m' (wallet_key (nw_wallet w)).
Proof.
  intros a Hok Hini Hch Hst Hroot Hw Hwa [Hp Hn Hfee Hj Hs] Hacc Hcp Hcount.
  set (t := mkUpdateCapacityMerkleRootTx a root') in *.
  assert (capacity_ok m' ∧ extent_kept m m') as [Hok' (Hext & Hpid & Hini')].
  { pose proof (store_extent id chunks m Hok Hch) as Hk. rewrite Hst in Hk. split; [|exact Hk].
    pose proof (store_shelf id chunks m Hok Hch) as Hsh. destruct (shelf_put id chunks (shelf_of m));
      rewrite Hst in Hsh; [|done]. by destruct Hsh as (u & m2 & [= <- <-] & _ & H1 & _). }
  destruct (priced_and_signed_run "submit_merkle_root_update" (cs_chain_id cs) (fee_config constants) w n
    (UpdateCapacityMerkleRoot t) fee Hs (eq_sym Hwa) Hj Hfee) as (tx & json & Htx & Hjson & Hv & Hb).
  destruct (update_entry rd e t cp Hacc Hcp) as (events & e' & cp' & Hrun & Hcp' & Hr' & Hc').
  exists (hex_encode (as_bytes json)), tx, events, e'. split_and!.
  - unfold store_and_announce. rewrite Hst, Hroot. unfold submit_merkle_root_update. rewrite Hpid. fold a.
    rewrite Hw. cbn [ok_or]. rewrite Hwa in Hn. rewrite Hn. cbn [ok_or].
    unfold UpdateCapacityMerkleRootTx_new, protocol_fee_config, ProtocolHandle_get. fold t. rewrite Hp, Htx, Hv.
    cbn [negb]. rewrite Hjson. cbn [ok_or]. by destruct (send_tx_rpc _ _).
  - exact Hb.
  - unfold process. rewrite (bt_payload _ _ _ _ _ _ _ Hb). exact Hrun.
  - intros st c He Hcid Hcr. constructor; try done.
    + by rewrite Hini'.
    + by rewrite Hpid, Hcid.
    + by rewrite Hcr.
    + intros cp2 Hcp2. rewrite He, Hcid in Hcp2. change a with (update_sender t) in Hcp2.
      rewrite Hcp' in Hcp2. injection Hcp2 as <-.
      rewrite Hc', Hcount. do 2 f_equal. unfold extent in Hext. unfold slots_of.
      destruct (cm_slot_map m), (cm_slot_map m'); try done. by injection Hext as -> _ _ _.
    + rewrite Hcid. unfold wallet_sound in Hs. by rewrite Hwa in Hs.
Qed.

(** *** A missing wallet *)

Lemma starts_with_stop p c s t : string_all (λ x, negb (Ascii.eqb x c)) p = true →
  starts_with p (String.append s (String c t)) = starts_with p s.
Proof.
  unfold starts_with. revert s. induction p as [|x p IH]; intros s; [by destruct s|].
  cbn [string_all]. intros [Hx Hp]%andb_true_iff. destruct s as [|y s].
  - change (String.append "" (String c t)) with (String c t). cbn [String.prefix].
    destruct (ascii_dec x c) as [->|]; [by rewrite Ascii.eqb_refl in Hx|done].
  - change (String.append (String y s) (String c t)) with (String y (String.append s (String c t))).
    cbn [String.prefix]. by rewrite IH.
Qed.

Lemma contains_stop p c s t : p ≠ EmptyString → string_all (λ x, negb (Ascii.eqb x c)) p = true →
  contains p (String.append s (String c t)) = contains p s || contains p t.
Proof.
  intros Hne Hp. induction s as [|y s IH].
  - change (String.append "" (String c t)) with (String c t). destruct p as [|x p]; [done|].
    cbn [string_all] in Hp. apply andb_true_iff in Hp as [Hx _].
    cbn [contains]. unfold starts_with. cbn [String.prefix].
    destruct (ascii_dec x c) as [->|]; [by rewrite Ascii.eqb_refl in Hx|done].
  - change (String.append (String y s) (String c t)) with (String y (String.append s (String c t))).
    cbn [contains]. rewrite IH.
    change (String y (String.append s (String c t))) with (String.append (String y s) (String c t)).
    rewrite starts_with_stop by done. by rewrite orb_assoc.
Qed.

(** The wallet of the provider is looked up by name; when there is none the
    error names a capacity-validator wallet, while the check that should stop
    the node looks for another text.  Unless the name itself contains that
    text, the node goes on without a registration. *)
Theorem missing_wallet_goes_unnoticed (cs : ChainSide) (m : CapacityManager) (status : CapacityRegistrationStatus) :
  cli_wallet_by_name (cs_cli cs) (cs_wallet_name cs) = Ok None →
  contains "Failed to get wallet" (cs_wallet_name cs) = false →
  submit_registration_if_allocated cs m status = Some ([], status).
Proof.
  intros Hw Hn. unfold submit_registration_if_allocated. destruct (slot_map_exists m); [|done]. cbn [negb].
  destruct (get_registration_info m) as [[[cap seed] root]|]; [|done].
  unfold register_capacity_onchain, service_is_registered. rewrite Hw. cbn [ok_or]. unfold wallet_missing.
  cbn [String.eqb]. unfold missing_wallet_details.
  change "Failed to get capacity-validator wallet '" with
    (String.append "Failed to get capacity-validator wallet " (String "'" "")).
  rewrite <- string_append_assoc. change (String.append (String "'" "") ?x) with (String "'" x).
  change "' for RegisterCapacity" with (String "'" " for RegisterCapacity").
  rewrite !contains_stop by done. by rewrite Hn.
Qed.
End registration_properties.

(** ** Witnesses *)

(** A node that answers every query with one account: its next nonce is 4. *)
Definition test_provider_account : Account := mkAccount test_sender (mkCoin 1000000) (mkNonce 3).
Definition test_provider_node : Node :=
  mkNode (λ _, Some (to_query_response "cado" [] (query_payload_ok_info [] "CADO found" (info_text (CadoInfo test_validator_body)))))
    (λ _, SendFailed).
Definition test_provider_wallet : NamedWallet (E := ref_ed25519) := mkNamedWallet "capacity" (mkWallet test_sender test_sk).
Definition test_chain_side : ChainSide :=
  mkChainSide (mkChainClient "eld" (fee_config local_dev) (Some (mkWalletStore [test_provider_wallet])))
    test_provider_node "eld" "capacity" (Some local_dev).

Definition test_own_fresh : CapacityManager := mkCapacityManager test_sender None ∅ None true None None None.

Lemma test_provider_nonce :
  get_next_nonce_for_account (node_query test_provider_node) (hex_with_prefix test_sender) = Ok (Some (mkNonce 4)).
Proof.
  unfold get_next_nonce_for_account, client_get_account_by_address. rewrite parse_hex_with_prefix.
  rewrite (CadoPath_new_address Cado_Account test_sender eq_refl). unfold query_info. cbn [node_query test_provider_node].
  cbn [ok_or]. change (rs_info (to_query_response _ _ _)) with (info_text (CadoInfo test_validator_body)).
  rewrite (proj2 (String.eqb_neq _ _) (info_text_nonempty _)), cado_back. cbn [ok_or].
  vm_compute. reflexivity.
Qed.

Lemma test_can_register root :
  can_send (J := test_json) test_chain_side test_provider_wallet (mkNonce 4)
    (RegisterCapacity (registration_of test_sender (Z.to_nat (1 * 1024 * 1024)) test_slot_seed root))
    local_dev (mkCoin 61900).
Proof.
  constructor.
  - reflexivity.
  - exact test_provider_nonce.
  - unfold calculate_dynamic_fee, estimate_transaction_size. cbn [tx_to_json test_json ok_or].
    vm_compute. reflexivity.
  - intros tx. by eexists.
  - vm_compute. reflexivity.
Qed.

Lemma registration_matches_capacity_witness :
  ∃ cm0 root before hex tx rest status' events e' cp,
    allocate_capacity 1 test_slot_seed test_own_fresh = Some (Ok tt, cm0) ∧ get_merkle_root cm0 = Ok root ∧
    after_first_commit (SJ := test_serde) (J := test_json) true test_chain_side cm0 NotRegistered =
      Some (before ++ Broadcast hex :: rest, status') ∧
    run (process rd0 local_dev tx) test_env = Some (resp_ok events, e') ∧
    find_provider (capacity_validators e') test_sender = Some cp ∧ cv_merkle_root cp = Some root ∧
    cv_chunk_count cp = Some 1024 ∧ cv_storage_capacity cp = 1048576.
Proof.
  destruct (allocate_mb_run 1 test_slot_seed test_own_fresh) as (root & cm0 & Hall & _ & Hroot & _ & _ & Hpid & Hini);
    [lia|reflexivity|reflexivity|reflexivity|].
  destruct (registration_matches_capacity (SJ := test_serde) (J := test_json) rd0 local_dev 1 test_slot_seed test_own_fresh cm0 ∅ ∅ None
    (mkProviderState cm0 ∅ ∅ None) test_chain_side test_provider_wallet (mkNonce 4) (mkCoin 61900) local_dev root
    NotRegistered test_env) as (before & hex & tx & rest & status' & events & e' & cp & H1 & _ & _ & H2 & H3 & H6 & H5 & H4 & _).
  - lia.
  - reflexivity.
  - reflexivity.
  - reflexivity.
  - exact Hall.
  - apply rtc_refl.
  - exact Hini.
  - exact Hpid.
  - exact Hroot.
  - reflexivity.
  - exact (test_can_register root).
  - vm_compute. eexists. reflexivity.
  - intros p Hp. discriminate Hp.
  - exists cm0, root, before, hex, tx, rest, status', events, e', cp. split; [exact Hall|]. split; [exact Hroot|].
    split; [exact H1|]. split; [exact H2|]. split; [exact H3|]. split; [exact H4|]. split; [exact H5|exact H6].
Defined.
