(* ===== verification/Deletion.v ===== *)
(** Deletion of stored objects asked for by users:
    node_app/src/storage/rocksdb/cado/delete.rs.  The two
    entry points differ in what the failed deletion of a row does, which the
    database does not do here; in a transaction the rows go from the view of the
    transaction while the object is read from the database. *)
From S2P Require Import Prelude Externals Reference Coins Address Namespace Cado Records Tx Wire Validation Pinboard AppState Ledger Storage.

Section deletion.
Context {H : HexCrate} {HC : HashCrates} {E : Ed25519} {BC : Bincode CadoBody}.

(** The text a user signs. *)
Definition deletion_message (path owner chain_id : string) : string :=
  String.append path (String.append ":" (String.append owner (String.append ":" chain_id))).

(** What is checked before the rows are deleted, in the order of the code. *)
Definition prepare_user_deletion (db : Database) (path : CadoPath) (owner signature public_key chain_id : string) :
    eld_result CADOKeys :=
  let? _ := validate_cado_path_internal path in
  let? _ := validate_user_deletion path in
  let? found := db_get_cado_by_path db path in
  let? cado := ok_or found (StorageError "get_cado_by_path") in
  if negb (String.eqb (meta_owner (CadoBody_metadata cado)) owner)
  then Err (StorageError "ownership_verification")
  else
    match verify_cado_deletion_signature (cp_path path) owner signature public_key chain_id with
    | Err _ => Err (StorageError "signature_verification")
    | Ok _ => generate path cado
    end.

Definition delete_cado_with_tx (db : Database) (path : CadoPath) (owner signature public_key chain_id : string)
    (tx : Database) : eld_result Database :=
  let? keys := prepare_user_deletion db path owner signature public_key chain_id in
  delete_cado_associated_keys_with_tx path keys tx.

Definition delete_cado (path : CadoPath) (owner signature public_key chain_id : string) (db : Database) :
    eld_result Database :=
  let? keys := prepare_user_deletion db path owner signature public_key chain_id in
  delete_cado_associated_keys_with_tx path keys db.

(** No object can be deleted by a user: whatever the path, the owner, the key
    and the signature, a deletion is refused and no row changes. *)
Theorem users_delete_nothing (db tx : Database) (path : CadoPath) (owner signature public_key chain_id : string) :
  ∃ e, delete_cado path owner signature public_key chain_id db = Err e ∧
    delete_cado_with_tx db path owner signature public_key chain_id tx = Err e.
Proof.
  unfold delete_cado, delete_cado_with_tx, prepare_user_deletion.
  destruct (validate_cado_path_internal path) as [u|e]; [|by exists e]. by exists (ValidationError "cado_type").
Qed.

(** The key that signs is not compared with the owner: any key makes a
    signature that is accepted for any owner. *)
Theorem deletion_key_unchecked {HL : HexLaws H} {EL : Ed25519Laws E} (sk : signing_key) (path owner chain_id : string) :
  verify_cado_deletion_signature path owner
    (hex_encode (ed_sign sk (as_bytes (deletion_message path owner chain_id))))
    (hex_encode (verifying_key_of sk)) chain_id = Ok tt.
Proof.
  unfold verify_cado_deletion_signature. rewrite !hex_decode_encode. cbn [ok_or].
  rewrite !try_array_to_list. cbn [ok_or]. rewrite verifying_key_of_ok. cbn [negb]. fold (deletion_message path owner chain_id). by rewrite ed_verify_sign.
Qed.

End deletion.
