(* ===== verification/Config.v ===== *)
(** Configuration: node_app/src/config, client/src/config, client/src/endpoint.rs
    and [validate_ip_or_hostname] of common/src/validation.rs.

    Files are a map from paths to contents.  The crate [url] and the JSON of the
    configuration types are parameters.  Permissions and owners of files only
    lead to warnings and are not modelled, nor are failing writes. *)
From S2P Require Import Prelude Externals Reference Coins Address Ordering Namespace Cado Records Tx TxCodes Merkle Wire Validation TxTyped UserPost Fee Pinboard AppState Ledger Processors VerifiedProof Deliver Epoch Storage Slots Capacity Feed Gc Sync Mempool Paging Prefix Indexer.

(** ** Hosts *)

(** [std::net::IpAddr] from text: a parser takes a text and gives a value and
    the rest. *)
Definition read_char (c : ascii) (s : string) : option string :=
  match s with String d s => if Ascii.eqb c d then Some s else None | EmptyString => None end.

Definition digit_of (radix : Z) (c : ascii) : option Z :=
  n ← (if is_ascii_digit c then Some (Z.of_N (N_of_ascii c) - 48)
       else if ascii_between 97 102 c then Some (Z.of_N (N_of_ascii c) - 87)
       else if ascii_between 65 70 c then Some (Z.of_N (N_of_ascii c) - 55)
       else None);
  if n <? radix then Some n else None.

(** The digits at the start of a text; more than [room] of them is an error. *)
Fixpoint read_digits (radix : Z) (room : nat) (acc : Z) (s : string) : option (Z * string) :=
  match s with
  | String c s' =>
      match digit_of radix c with
      | Some d => match room with
                  | O => None
                  | S room => read_digits radix room (acc * radix + d) s'
                  end
      | None => Some (acc, s)
      end
  | EmptyString => Some (acc, s)
  end.

Definition read_number (radix : Z) (max_digits : nat) (max : Z) (zero_prefix : bool) (s : string) :
    option (Z * string) :=
  match s with
  | EmptyString => None
  | String c _ =>
      _ ← digit_of radix c;
      '(n, rest) ← read_digits radix max_digits 0 s;
      if max <? n then None
      else if negb zero_prefix && Ascii.eqb c "0"%char && (S (String.length rest) <? String.length s)%nat then None
      else Some (n, rest)
  end.

Definition read_octet : string → option (Z * string) := read_number 10 3 255 false.

Definition read_ipv4_addr (s : string) : option string :=
  '(_, s) ← read_octet s; s ← read_char "." s;
  '(_, s) ← read_octet s; s ← read_char "." s;
  '(_, s) ← read_octet s; s ← read_char "." s;
  '(_, s) ← read_octet s; Some s.

(** [read_separator(':', index, ..)] *)
Definition after_separator (index : nat) (s : string) : option string :=
  match index with O => Some s | S _ => read_char ":" s end.

(** Groups [index], [index + 1], ... below [limit]: how many were read, whether
    they end in an IPv4 address, and the rest.  [left] is what is left of the
    limit. *)
Fixpoint read_groups (left index : nat) (s : string) : nat * bool * string :=
  match left with
  | O => (index, false, s)
  | S left' =>
      let v4 := match left' with O => None | S _ => s ← after_separator index s; read_ipv4_addr s end in
      match v4 with
      | Some s => ((index + 2)%nat, true, s)
      | None =>
          match (s ← after_separator index s; read_number 16 4 65535 true s) with
          | Some (_, s) => read_groups left' (S index) s
          | None => (index, false, s)
          end
      end
  end.

Definition read_ipv6_addr (s : string) : option string :=
  let '(head_size, head_ipv4, rest) := read_groups 8 0 s in
  if (head_size =? 8)%nat then Some rest
  else if head_ipv4 then None
  else
    s ← read_char ":" rest;
    s ← read_char ":" s;
    let '(_, _, rest) := read_groups (8 - (head_size + 1)) 0 s in
    Some rest.

(** [host.parse::<IpAddr>().is_ok()] *)
Definition is_ip_addr (s : string) : bool :=
  let whole (r : option string) := match r with Some EmptyString => true | _ => false end in
  match read_ipv4_addr s with
  | Some rest => whole (Some rest)
  | None => whole (read_ipv6_addr s)
  end.

Definition validate_ip_or_hostname (host : string) : eld_result unit :=
  if String.eqb host EmptyString then Err (ValidationError "host")
  else if is_ip_addr host then Ok tt
  else if negb (string_all (λ c, is_ascii_alphanumeric c || Ascii.eqb c "-"%char || Ascii.eqb c "."%char) host)
  then Err (ValidationError "host")
  else Ok tt.

(** ** storage_limits.rs *)

Record StorageLimits : Type := mkStorageLimits {
  max_prefix_results : Z;
  sl_max_page_size : Z;
  prefix_query_rate_limit : Z;
  max_query_memory_mb : Z;
}.

Definition StorageLimits_default : StorageLimits := mkStorageLimits 1000 100 60 50.

Definition StorageLimits_validate (l : StorageLimits) : eld_result unit :=
  let? _ := validate_positive_integer (max_prefix_results l) (Some 1) (Some 100000) "max_prefix_results" in
  let? _ := validate_positive_integer (sl_max_page_size l) (Some 1) (Some 10000) "max_page_size" in
  let? _ := validate_positive_integer (prefix_query_rate_limit l) (Some 1) (Some 10000)
              "prefix_query_rate_limit" in
  validate_positive_integer (max_query_memory_mb l) (Some 1) (Some 1000) "max_query_memory_mb".

(** ** Files: paths and contents *)

(** [fs::read_to_string] *)
Definition read_to_string (fs : gmap string bytes) (path : string) : option string :=
  b ← fs !! path; from_utf8 b.

(** ** loader.rs, config_loader.rs *)

(** A configuration type: its JSON and its check. *)
Class ConfigType (T : Type) : Type := {
  config_from_json : string → option T;
  config_to_json : T → option string;
  config_validate : T → eld_result unit;
}.

Definition ConfigLoader_from_file {T} `{ConfigType T} (fs : gmap string bytes) (file_path : string) (validate : bool) :
    eld_result T :=
  let? data := ok_or (read_to_string fs file_path) (ConfigError file_path) in
  let? config := ok_or (config_from_json data) (ConfigError file_path) in
  if validate then
    match config_validate config with
    | Ok _ => Ok config
    | Err _ => Err (ConfigError file_path)
    end
  else Ok config.

Definition load_config_file {T} `{ConfigType T} (fs : gmap string bytes) (file_path : string) : eld_result T :=
  let? data := ok_or (read_to_string fs file_path) (ConfigError file_path) in
  let? config := ok_or (config_from_json data) (ConfigError file_path) in
  match config_validate config with
  | Ok _ => Ok config
  | Err _ => Err (ConfigError file_path)
  end.

(** ** consensus_config.rs *)

Definition DEFAULT_CONSENSUS_CONFIG_PATH : string := "./config/consensus_config.json".

(** [CLI, environment, default] *)
Definition resolve_path (cli_path env_path : option string) : string :=
  match cli_path with
  | Some p => p
  | None => default DEFAULT_CONSENSUS_CONFIG_PATH env_path
  end.

Record ConsensusConfig : Type := mkConsensusConfig {
  cc_chain : string;
  cc_app_host : string;
  cc_app_port : string;
  cc_accounts : gmap string Account;
  cc_storage_limits : StorageLimits;
}.

Definition with_chain_id (id : string) (c : ConsensusConfig) : ConsensusConfig :=
  mkConsensusConfig id (cc_app_host c) (cc_app_port c) (cc_accounts c) (cc_storage_limits c).

(** [{config_path}.sha256] *)
Definition checksum_path (config_path : string) : string := String.append config_path ".sha256".

Section consensus_config.
Context {H : HexCrate} {HC : HashCrates}.

Definition calculate_file_checksum (fs : gmap string bytes) (file_path : string) : eld_result string :=
  let? buffer := ok_or (fs !! file_path) (FileSystemError "open_file_for_checksum" file_path) in
  Ok (hex_encode (sha256 buffer)).

Definition validate_file_permissions (fs : gmap string bytes) (config_path : string) : eld_result unit :=
  match fs !! config_path with
  | None => Err (FileSystemError "validate_config_file_permissions" config_path)
  | Some _ => Ok tt
  end.

Definition validate_integrity (fs : gmap string bytes) (config_path : string) : eld_result unit :=
  match fs !! checksum_path config_path with
  | None => Ok tt
  | Some _ =>
      let? text := ok_or (read_to_string fs (checksum_path config_path))
                     (FileSystemError "read_checksum_file" (checksum_path config_path)) in
      let? actual_checksum := calculate_file_checksum fs config_path in
      if negb (String.eqb (trim text) actual_checksum)
      then Err (ValidationError "config_file_integrity")
      else Ok tt
  end.

Definition generate_checksum (fs : gmap string bytes) (file : string) : eld_result string :=
  let? buffer := ok_or (fs !! file) (FileSystemError "open_file_for_checksum" file) in
  Ok (hex_encode (sha256 buffer)).

Definition save_checksum (file : string) (fs : gmap string bytes) : eld_result (gmap string bytes) :=
  let? checksum := generate_checksum fs file in
  Ok (<[checksum_path file := as_bytes checksum]> fs).

(** How many accounts have an address; the code groups their names by its text,
    which is the same for the same address only. *)
Definition same_address (l : list (string * Account)) (a : Address) : nat :=
  length (List.filter (λ na, bool_decide (acc_address na.2 = a)) l).

(** The accounts in the order a loop over the map meets them. *)
Definition validate_accounts (l : list (string * Account)) : eld_result unit :=
  let? _ := try_fold (λ _ na,
      let? _ := validate_address (hex_with_prefix (acc_address na.2)) in
      let? _ := validate_positive_integer (coin_amount (acc_balance na.2)) (Some 0) None
                  (String.append "account " (String.append na.1 " balance")) in
      validate_positive_integer (nonce_value (acc_nonce na.2)) (Some 0) None
        (String.append "account " (String.append na.1 " nonce"))) tt l in
  if existsb (λ na, (1 <? same_address l (acc_address na.2))%nat) l
  then Err (ConfigError "consensus_config.accounts")
  else Ok tt.

Definition ConsensusConfig_validate (c : ConsensusConfig) : eld_result unit :=
  let? _ := validate_chain_id (cc_chain c) in
  let? _ := validate_ip_or_hostname (cc_app_host c) in
  let? _ := validate_port (cc_app_port c) in
  let? _ := StorageLimits_validate (cc_storage_limits c) in
  validate_accounts (map_to_list (cc_accounts c)).

Definition ip_address (c : ConsensusConfig) : string :=
  String.append (cc_app_host c) (String ":" (cc_app_port c)).

Context {CT : ConfigType ConsensusConfig}.

(** [config_validate] is [ConsensusConfig_validate] ([impl ConfigValidator]). *)
Definition load_for_node (fs : gmap string bytes) (config_path : string) (override_chain_id : option string) :
    eld_result ConsensusConfig :=
  let? _ := validate_file_permissions fs config_path in
  let? _ := validate_integrity fs config_path in
  let? cfg := ConfigLoader_from_file fs config_path true in
  let cfg := match override_chain_id with Some id => with_chain_id id cfg | None => cfg end in
  let? _ := ConsensusConfig_validate cfg in
  Ok cfg.

Definition save_to_file (c : ConsensusConfig) (file : string) (fs : gmap string bytes) : eld_result (gmap string bytes) :=
  let? json_data := ok_or (config_to_json c) (ConfigError file) in
  Ok (<[file := as_bytes json_data]> fs).
End consensus_config.

(** ** endpoint.rs *)

(** The crate [url]. *)
Class UrlCrate : Type := {
  url : Type;
  url_parse : string → option url;
  url_scheme : url → string;
  url_host : url → option string;
  url_path : url → string;
  url_query : url → option string;
  url_fragment : url → option string;
  url_username : url → string;
  url_password : url → option string;
  url_set_path : string → url → url;
  url_to_string : url → string;
}.

Section endpoints.
Context {U : UrlCrate}.

Definition http_scheme (u : url) : bool := str_in ["http"; "https"] (url_scheme u).

Definition is_root_path (u : url) : bool := str_in [EmptyString; "/"] (url_path u).

(** A bare origin is left alone; an empty path is set to the root. *)
Definition normalize_http_base_url (raw : string) : eld_result string :=
  let trimmed := trim raw in
  if String.eqb trimmed EmptyString then Err (ValidationError "url")
  else
    let? u := ok_or (url_parse trimmed) (ValidationError "url") in
    if negb (http_scheme u) then Err (ValidationError "url")
    else
      let? _ := ok_or (url_host u) (ValidationError "url") in
      let bare := String.eqb (url_path u) "/" && bool_decide (url_query u = None) &&
                  bool_decide (url_fragment u = None) in
      let u := if bare then u else if is_root_path u then url_set_path "/" u else u in
      let normalized := url_to_string u in
      Ok (if ends_with_char "/" normalized then normalized else String.append normalized "/").

(** [{scheme}://{host}:{port}{path}] *)
Definition url_text (scheme host port path : string) : string :=
  String.append scheme (String.append "://" (String.append host (String ":" (String.append port path)))).

Definition resolve_node_base_url (node_url : option string) (node_host node_port : string) : eld_result string :=
  match node_url with
  | Some u => normalize_http_base_url u
  | None =>
      let? _ := validate_ip_or_hostname node_host in
      let? _ := validate_port node_port in
      Ok (url_text "http" node_host node_port "/")
  end.

Definition resolve_app_base_url (app_url node_url : option string) (node_host node_port app_port : string) :
    eld_result string :=
  match app_url with
  | Some u => normalize_http_base_url u
  | None =>
      let? _ := validate_port app_port in
      match node_url with
      | Some node_url =>
          let? parsed := ok_or (url_parse (trim node_url)) (ValidationError "node_url") in
          let? host := ok_or (url_host parsed) (ValidationError "node_url") in
          Ok (url_text (url_scheme parsed) host app_port "/")
      | None =>
          let? _ := validate_ip_or_hostname node_host in
          let? _ := validate_port node_port in
          Ok (url_text "http" node_host app_port "/")
      end
  end.

Definition normalize_endpoint_path (endpoint : string) : string :=
  if starts_with "/" endpoint then endpoint else String "/" endpoint.

Definition resolve_faucet_request_url (faucet_url : option string)
    (faucet_host faucet_port faucet_end_point : string) : eld_result string :=
  let path := normalize_endpoint_path faucet_end_point in
  match faucet_url with
  | Some base =>
      let trimmed := trim base in
      if String.eqb trimmed EmptyString then Err (ValidationError "faucet_url")
      else
        let? u := ok_or (url_parse trimmed) (ValidationError "faucet_url") in
        if negb (http_scheme u) then Err (ValidationError "faucet_url")
        else
          let? _ := ok_or (url_host u) (ValidationError "faucet_url") in
          Ok (url_to_string (if is_root_path u then url_set_path path u else u))
  | None =>
      let? _ := validate_ip_or_hostname faucet_host in
      let? _ := validate_port faucet_port in
      Ok (url_text "http" faucet_host faucet_port path)
  end.

(** ** client_config.rs *)

Record ClientConfig : Type := mkClientConfig {
  cl_node_host : string;
  cl_node_port : string;
  cl_faucet_host : string;
  cl_faucet_port : string;
  cl_faucet_end_point : string;
  cl_faucet_url : option string;
  cl_app_port : string;
  cl_node_url : option string;
  cl_app_url : option string;
  cl_chain_id : string;
}.

Definition get_node_url (c : ClientConfig) : eld_result string :=
  resolve_node_base_url (cl_node_url c) (cl_node_host c) (cl_node_port c).

Definition get_app_base_url (c : ClientConfig) : eld_result string :=
  resolve_app_base_url (cl_app_url c) (cl_node_url c) (cl_node_host c) (cl_node_port c) (cl_app_port c).

Definition get_faucet_request_url (c : ClientConfig) : eld_result string :=
  resolve_faucet_request_url (cl_faucet_url c) (cl_faucet_host c) (cl_faucet_port c) (cl_faucet_end_point c).

Definition ClientConfig_validate (c : ClientConfig) : eld_result unit :=
  let? _ := get_node_url c in
  let? _ := get_app_base_url c in
  let? _ := get_faucet_request_url c in
  Ok tt.

(** The client's own view of the consensus file. *)
Record ClientConsensusConfig : Type := mkClientConsensus {
  clc_chain_id : string;
  clc_fee_config : FeeConfig;
}.

Definition ClientConsensusConfig_validate (c : ClientConsensusConfig) : eld_result unit :=
  if String.eqb (trim (clc_chain_id c)) EmptyString then Err (ValidationError "chain_id")
  else FeeConfig_validate (clc_fee_config c).

Record ClientSetup : Type := mkClientSetup {
  setup_config : ClientConfig;
  setup_fee_config : FeeConfig;
}.

Definition client_setup_from_paths {CC : ConfigType ClientConfig} {CS : ConfigType ClientConsensusConfig}
    (fs : gmap string bytes) (cli_config_path consensus_config_path : string) : eld_result ClientSetup :=
  let? config := load_config_file (T := ClientConfig) fs cli_config_path in
  let? consensus_config := load_config_file (T := ClientConsensusConfig) fs consensus_config_path in
  let config := mkClientConfig (cl_node_host config) (cl_node_port config) (cl_faucet_host config)
    (cl_faucet_port config) (cl_faucet_end_point config) (cl_faucet_url config) (cl_app_port config)
    (cl_node_url config) (cl_app_url config) (clc_chain_id consensus_config) in
  if String.eqb (cl_chain_id config) EmptyString then Err (ValidationError "chain_id")
  else Ok (mkClientSetup config (clc_fee_config consensus_config)).

Definition DEFAULT_CONFIG_PATH : string := "config/config.json".
Definition CONSENSUS_CONFIG_PATH : string := "config/consensus_config.json".

Definition get_client_setup_from_arg {CC : ConfigType ClientConfig} {CS : ConfigType ClientConsensusConfig}
    (fs : gmap string bytes) (cli_config_path : string) : eld_result ClientSetup :=
  client_setup_from_paths fs cli_config_path CONSENSUS_CONFIG_PATH.

Definition get_client_setup {CC : ConfigType ClientConfig} {CS : ConfigType ClientConsensusConfig}
    (fs : gmap string bytes) : eld_result ClientSetup :=
  get_client_setup_from_arg fs DEFAULT_CONFIG_PATH.

Definition get_config_from_arg {CC : ConfigType ClientConfig} {CS : ConfigType ClientConsensusConfig}
    (fs : gmap string bytes) (config_path : string) : eld_result ClientConfig :=
  let? setup := get_client_setup_from_arg fs config_path in Ok (setup_config setup).

(** ** node_runtime_config.rs, app_config.rs *)

Definition DEFAULT_HTTP_CORS_ORIGINS : list string :=
  ["https://explorer.eld.network"; "https://www.eld.network"; "https://eld.network"; "https://docs.eld.network"].

Record NodeRuntimeConfig : Type := mkNodeRuntime {
  nr_p2p_tcp_port : option string;
  nr_p2p_udp_port : option string;
  nr_single_node : option bool;
  nr_capacity_size_mb : option Z;
  nr_capacity_storage_path : option string;
  nr_indexer : bool;
  nr_allow_origins : list string;
}.

Definition validate_http_cors_origin (origin : string) : eld_result unit :=
  let field := "http_cors.allow_origins" in
  let trimmed := trim origin in
  if String.eqb trimmed EmptyString then Err (ValidationError field)
  else if String.eqb trimmed "*" then Err (ValidationError field)
  else
    let? u := ok_or (url_parse trimmed) (ValidationError field) in
    if negb (http_scheme u) then Err (ValidationError field)
    else
      let? host := ok_or (url_host u) (ValidationError field) in
      if contains "*" host then Err (ValidationError field)
      else if negb (is_root_path u) || negb (bool_decide (url_query u = None)) ||
              negb (bool_decide (url_fragment u = None)) then Err (ValidationError field)
      else if negb (String.eqb (url_username u) EmptyString) || negb (bool_decide (url_password u = None))
      then Err (ValidationError field)
      else Ok tt.

Definition HttpCorsConfig_validate (allow_origins : list string) : eld_result unit :=
  if (length allow_origins =? 0)%nat then Err (ValidationError "http_cors.allow_origins")
  else try_fold (λ _ origin, validate_http_cors_origin origin) tt allow_origins.

Definition NodeRuntimeConfig_validate (c : NodeRuntimeConfig) : eld_result unit :=
  let port (p : option string) := match p with Some p => validate_port p | None => Ok tt end in
  let? _ := port (nr_p2p_tcp_port c) in
  let? _ := port (nr_p2p_udp_port c) in
  let? _ := match nr_capacity_size_mb c with
            | Some mb => if 0 <? mb then Ok tt else Err (ValidationError "capacity_size_mb")
            | None => Err (ValidationError "capacity_size_mb")
            end in
  let? _ := match trim <$> nr_capacity_storage_path c with
            | Some path => if String.eqb path EmptyString then Err (ValidationError "capacity_storage_path") else Ok tt
            | None => Err (ValidationError "capacity_storage_path")
            end in
  HttpCorsConfig_validate (nr_allow_origins c).

Record AppConfig : Type := mkAppConfig { ac_client : ClientConfig; ac_node : NodeRuntimeConfig }.

Definition AppConfig_validate (c : AppConfig) : eld_result unit :=
  let? _ := ClientConfig_validate (ac_client c) in NodeRuntimeConfig_validate (ac_node c).

(** db_path.rs *)
Definition resolve_db_path (cli_db_path env_path : option string) : string :=
  match cli_db_path with
  | Some p => p
  | None => default "./data/rocksdb" env_path
  end.
End endpoints.

(** ** Facts *)

Example ip_addresses :
  map is_ip_addr ["127.0.0.1"; "::1"; "fe80::1"; "1:2:3:4:5:6:7:8"; "::ffff:1.2.3.4"; "1:2:3:4:5:6:1.2.3.4"] =
    [true; true; true; true; true; true] ∧
  map is_ip_addr ["01.2.3.4"; "256.1.1.1"; "1.2.3"; "1::2::3"; ":::"; "12345::"; "1:2:3:4:5:6:7:8:9"; "::1 "] =
    [false; false; false; false; false; false; false; false].
Proof. vm_compute. done. Qed.

Section config_facts.
Context {H : HexCrate} {HL : HexLaws H} {HC : HashCrates}.

Lemma same_address_cons na l a :
  same_address (na :: l) a = ((if bool_decide (acc_address na.2 = a) then 1 else 0) + same_address l a)%nat.
Proof. unfold same_address. cbn [List.filter]. by case_bool_decide. Qed.

Lemma same_address_zero l a : same_address l a = 0%nat ↔ a ∉ (λ na : string * Account, acc_address na.2) <$> l.
Proof.
  induction l as [|na l IH]; [by split; [intros _ ?%elem_of_nil|]|]. rewrite same_address_cons, fmap_cons.
  rewrite not_elem_of_cons, <- IH. case_bool_decide; split; intros; destruct_and?; try split; try done; try lia; congruence.
Qed.

(** No two accounts share an address exactly when the count is one for each. *)
Lemma addresses_distinct l :
  existsb (λ na, (1 <? same_address l (acc_address na.2))%nat) l = false ↔
  NoDup ((λ na : string * Account, acc_address na.2) <$> l).
Proof.
  rewrite <- not_true_iff_false, existsb_exists. split.
  - induction l as [|na l IH]; intros Hn; [constructor|]. rewrite fmap_cons. constructor.
    + apply same_address_zero. destruct (same_address l (acc_address na.2)) as [|k] eqn:Ek; [done|]. exfalso. apply Hn.
      exists na. split; [by left|]. rewrite same_address_cons, bool_decide_eq_true_2, Ek by done. done.
    + apply IH. intros (y & Hy & Hc). apply Hn. exists y. split; [by right|]. rewrite same_address_cons.
      apply Nat.ltb_lt in Hc. apply Nat.ltb_lt. lia.
  - intros Hd (na & Hin & Hc). apply Nat.ltb_lt in Hc. revert Hc.
    induction l as [|nb l IH]; [done|]. rewrite fmap_cons in Hd. apply list.NoDup_cons in Hd as [Hb Hd].
    rewrite same_address_cons. apply same_address_zero in Hb. destruct Hin as [<-|Hin].
    + rewrite bool_decide_eq_true_2, Hb by done. lia.
    + case_bool_decide as He; [|by apply IH]. rewrite <- He, Hb. lia.
Qed.

Definition account_in_range (na : string * Account) : Prop :=
  0 ≤ coin_amount (acc_balance na.2) ∧ 0 ≤ nonce_value (acc_nonce na.2).

Lemma validate_accounts_Ok l :
  validate_accounts l = Ok tt ↔
  Forall account_in_range l ∧ NoDup ((λ na : string * Account, acc_address na.2) <$> l).
Proof.
  unfold validate_accounts. rewrite <- addresses_distinct.
  set (check := λ (_ : unit) (na : string * Account), _).
  assert (try_fold check tt l = Ok tt ↔ Forall account_in_range l) as Hf.
  { induction l as [|na l IH]; [by split|]. rewrite Forall_cons_iff, <- IH. cbn [try_fold].
    assert (check tt na = Ok tt ↔ account_in_range na) as Hc.
    { unfold check. unfold validate_address. rewrite parse_hex_with_prefix. unfold validate_positive_integer, account_in_range.
      destruct (Z.ltb_spec (coin_amount (acc_balance na.2)) 0); [split; [done|lia]|].
      destruct (Z.ltb_spec (nonce_value (acc_nonce na.2)) 0); [split; [done|lia]|]. split; [lia|done]. }
    destruct (check tt na) as [[]|e]; [|split; [done|by intros [?%Hc _]]].
    split; [intros; split; [by apply Hc|done]|by intros [_ ?]]. }
  destruct (try_fold check tt l) as [[]|e]; [|split; [done|by intros [?%Hf _]]].
  destruct (existsb _ l); split; try done; [by intros [_ ?]|]. intros _. split; [by apply Hf|done].
Qed.

(** The check does not depend on the order of the map. *)
Lemma validate_accounts_perm l l' : l ≡ₚ l' → validate_accounts l = Ok tt → validate_accounts l' = Ok tt.
Proof.
  rewrite !validate_accounts_Ok. intros Hp [Hr Hd]. rewrite <- Hp. done.
Qed.

(** *** Checksums *)

Lemma checksum_path_ne p : checksum_path p ≠ p.
Proof.
  unfold checksum_path. intros He%(f_equal String.length). rewrite string_length_app in He. cbn in He. lia.
Qed.

Lemma read_checksum (fs : gmap string bytes) p b : fs !! p = Some (as_bytes (hex_encode b)) →
  read_to_string fs p = Some (hex_encode b).
Proof.
  intros Hp. unfold read_to_string. rewrite Hp. cbn [mbind option_bind].
  apply utf8_ascii. eapply string_all_impl; [|apply hex_encode_digits]. intros c.
  by destruct c as [[] [] [] [] [] [] [] []].
Qed.

Lemma trim_hex b : trim (hex_encode b) = hex_encode b.
Proof.
  apply trim_slug. eapply string_all_impl; [|apply hex_encode_digits]. intros c.
  by destruct c as [[] [] [] [] [] [] [] []].
Qed.

(** With the checksum of one content beside it, a file passes exactly with a
    content of the same digest. *)
Lemma integrity_by_digest fs p b b' :
  fs !! checksum_path p = Some (as_bytes (hex_encode (sha256 b))) → fs !! p = Some b' →
  (validate_integrity fs p = Ok tt ↔ sha256 b' = sha256 b).
Proof.
  intros Hs Hp. unfold validate_integrity, calculate_file_checksum. rewrite Hs, Hp.
  assert (read_to_string fs (checksum_path p) = Some (hex_encode (sha256 b))) as ->
    by by apply read_checksum.
  cbn [ok_or]. rewrite trim_hex. destruct (String.eqb_spec (hex_encode (sha256 b)) (hex_encode (sha256 b'))) as [He|Hne];
    cbn [negb]; split; try done.
  - intros _. apply (f_equal hex_decode) in He. rewrite !hex_decode_encode in He. injection He as He.
    by apply vec_to_list_inj2 in He.
  - intros He. by rewrite He in Hne.
Qed.

Context {CT : ConfigType ConsensusConfig}.

Lemma load_for_node_Ok fs p over c :
  load_for_node fs p over = Ok c →
  validate_integrity fs p = Ok tt ∧ ConsensusConfig_validate c = Ok tt ∧
  ∃ data c0, read_to_string fs p = Some data ∧ config_from_json data = Some c0 ∧
    c = match over with Some id => with_chain_id id c0 | None => c0 end.
Proof.
  unfold load_for_node, ConfigLoader_from_file. destruct (validate_file_permissions fs p); [|done].
  destruct (validate_integrity fs p) as [[]|]; [|done].
  destruct (read_to_string fs p) as [data|]; [|done]. cbn [ok_or].
  destruct (config_from_json data) as [c0|] eqn:Ec; [|done]. cbn [ok_or].
  destruct (config_validate c0); [|done].
  destruct (ConsensusConfig_validate _) as [[]|] eqn:Ev; [|done]. intros [= <-].
  split; [done|]. split; [exact Ev|]. by exists data, c0.
Qed.

(** What a checked configuration has. *)
Lemma validated_addresses c :
  ConsensusConfig_validate c = Ok tt →
  NoDup ((λ na : string * Account, acc_address na.2) <$> map_to_list (cc_accounts c)).
Proof.
  unfold ConsensusConfig_validate. destruct (validate_chain_id (cc_chain c)) as [[]|]; [|done].
  destruct (validate_ip_or_hostname _); [|done]. destruct (validate_port _); [|done].
  destruct (StorageLimits_validate _); [|done]. by intros [_ Hd]%validate_accounts_Ok.
Qed.

(** A node does not start on a changed configuration: after the checksum of a
    file is saved the file loads as before, and whatever is written into it
    later loads only if it has the same digest; what loads has a valid chain
    id and accounts with distinct addresses. *)
Theorem changed_config_refused (fs fs' : gmap string bytes) (p : string) (b b' : bytes) (over : option string) (c : ConsensusConfig) :
  fs !! p = Some b → save_checksum p fs = Ok fs' →
  validate_integrity fs' p = Ok tt ∧
  (load_for_node (<[p := b']> fs') p over = Ok c →
     sha256 b' = sha256 b ∧ validate_chain_id (cc_chain c) = Ok tt ∧
     NoDup ((λ na : string * Account, acc_address na.2) <$> map_to_list (cc_accounts c))).
Proof.
  intros Hp. unfold save_checksum, generate_checksum. rewrite Hp. cbn [ok_or]. intros [= <-].
  pose proof (checksum_path_ne p) as Hne. split.
  - eapply (integrity_by_digest _ p b b); [apply lookup_insert_eq|by rewrite lookup_insert_ne|done].
  - intros (Hi & Hv & _)%load_for_node_Ok. split.
    + eapply (integrity_by_digest _ p b b'); [|apply lookup_insert_eq|exact Hi].
      rewrite lookup_insert_ne by done. apply lookup_insert_eq.
    + split; [|by apply validated_addresses]. unfold ConsensusConfig_validate in Hv.
      by destruct (validate_chain_id (cc_chain c)) as [[]|].
Qed.
End config_facts.

(** *** Endpoints *)

Section endpoint_facts.
Context {U : UrlCrate}.

Lemma ends_with_append s c : ends_with_char c (String.append s (String c EmptyString)) = true.
Proof.
  induction s as [|d s IH]; [apply Ascii.eqb_refl|].
  change (String.append (String d s) ?x) with (String d (String.append s x)).
  destruct s as [|e s]; [apply Ascii.eqb_refl|].
  change (String.append (String e s) ?x) with (String e (String.append s x)) in *. exact IH.
Qed.

Lemma normalized_ends raw u : normalize_http_base_url raw = Ok u → ends_with_char "/" u = true.
Proof.
  unfold normalize_http_base_url. destruct (String.eqb _ _); [done|]. destruct (url_parse _) as [v|]; [|done].
  cbn [ok_or]. destruct (negb _); [done|]. destruct (url_host v); [|done]. cbn [ok_or]. intros [= <-].
  match goal with |- ends_with_char _ (if ends_with_char _ ?t then _ else _) = _ => set (n := t) end.
  destruct (ends_with_char "/" n) eqn:He; [exact He|apply ends_with_append].
Qed.

Lemma url_text_ends scheme host port : ends_with_char "/" (url_text scheme host port "/") = true.
Proof.
  unfold url_text. rewrite !string_append_assoc.
  change (String ":" (String.append port "/")) with (String.append ":" (String.append port "/")).
  rewrite !string_append_assoc. apply ends_with_append.
Qed.

(** An IPv6 host passes the checks and is put into the URL without brackets. *)
Example ipv6_host_unbracketed : resolve_node_base_url None "::1" "26657" = Ok "http://::1:26657/".
Proof. vm_compute. reflexivity. Qed.

(** A configuration the client accepted never fails to resolve: both base URLs
    exist and end in a slash, so paths can be appended, and the faucet has its
    URL. *)
Theorem validated_client_resolves (c : ClientConfig) :
  ClientConfig_validate c = Ok tt →
  ∃ node app faucet, get_node_url c = Ok node ∧ get_app_base_url c = Ok app ∧ get_faucet_request_url c = Ok faucet ∧
    ends_with_char "/" node = true ∧ ends_with_char "/" app = true.
Proof.
  unfold ClientConfig_validate. destruct (get_node_url c) as [node|] eqn:En; [|done].
  destruct (get_app_base_url c) as [app|] eqn:Ea; [|done].
  destruct (get_faucet_request_url c) as [faucet|]; [|done]. intros _. exists node, app, faucet. split_and!; try done.
  - unfold get_node_url, resolve_node_base_url in En. destruct (cl_node_url c); [by eapply normalized_ends|].
    destruct (validate_ip_or_hostname _); [|done]. destruct (validate_port _); [|done]. injection En as <-.
    apply url_text_ends.
  - unfold get_app_base_url, resolve_app_base_url in Ea. destruct (cl_app_url c); [by eapply normalized_ends|].
    destruct (validate_port (cl_app_port c)); [|done]. destruct (cl_node_url c) as [nu|].
    + destruct (url_parse (trim nu)) as [v|]; [|done]. cbn [ok_or] in Ea. destruct (url_host v); [|done].
      injection Ea as <-. apply url_text_ends.
    + destruct (validate_ip_or_hostname _); [|done]. destruct (validate_port _); [|done]. injection Ea as <-.
      apply url_text_ends.
Qed.
End endpoint_facts.
