(* ===== verification/Genesis.v ===== *)
(** The committed state a node starts with: [init_abci_server] of
    node_app/src/abci_interface/mod.rs and [has_persisted_app_state_tip] of
    app_state/app.rs, over the configuration of [Config.v], and what
    [init_chain] makes of it.

    Locks and the connections that are built around the state are not modelled;
    a call of [handle_fatal_eld_error] is [None]. *)
From S2P Require Import Prelude Externals Reference Coins Address Ordering Namespace Cado Records Tx TxCodes Merkle Wire Validation TxTyped UserPost Fee Pinboard AppState Ledger Processors VerifiedProof Deliver Epoch Storage Snapshot Commit Slots Capacity Feed Gc Sync Mempool Restart AbciLimits AbciQuery Config.

Section genesis.
Context {H : HexCrate} {HC : HashCrates} {C : RecordCodecs} {R : RandCrate} {T : TrieCrate} {SC : SnapshotCodecs}.

Definition has_persisted_app_state_tip (db : Database) : eld_result bool :=
  let? latest_app_state_tip_path := CadoPath_new Cado_AppStateTip (Key_Name LATEST) in
  let? cado := db_get_cado_by_path db latest_app_state_tip_path in
  Ok (bool_decide (is_Some cado)).

(** The order of the staged accounts: addresses as text, then names. *)
Definition account_order (left right : string * Account) : comparison :=
  then_with (key_compare (hex_with_prefix (acc_address left.2)) (hex_with_prefix (acc_address right.2)))
    (key_compare left.1 right.1).

(** One round of the loop over the ordered accounts. *)
Definition stage_genesis_account (e : AppStateEnvelope) (na : string * Account) :
    option (eld_result AppStateEnvelope) :=
  let account := na.2 in
  match bin_serialize account with
  | None => Some (Err (StorageError "serialize account"))
  | Some serialized =>
      let address_str := hex_with_prefix (acc_address account) in
      let metadata := CADOMetadata_new Cado_Account address_str in
      match CadoPath_new Cado_Account (Key_Address (acc_address account)) with
      | Err _ => None
      | Ok path_name =>
          Some (Ok (update_cado_cache path_name (CadoBody_mutable_new serialized metadata) e))
      end
  end.

Fixpoint stage_genesis_accounts (l : list (string * Account)) (e : AppStateEnvelope) :
    option (eld_result AppStateEnvelope) :=
  match l with
  | [] => Some (Ok e)
  | na :: l =>
      match stage_genesis_account e na with
      | None => None
      | Some (Err err) => Some (Err err)
      | Some (Ok e) => stage_genesis_accounts l e
      end
  end.

(** [accounts] is the order in which the loop over the map of accounts meets
    them.  The result is the committed state and the tip the connections share. *)
Definition init_abci_server (config : ConsensusConfig) (accounts : list (string * Account)) (db : Database)
    (init_data : bool) (committed_state : AppState) : option (eld_result (AppState * ChainTipSnapshot)) :=
  match has_persisted_app_state_tip db with
  | Err _ => None
  | Ok has_persisted_state =>
      let fresh_start := negb init_data && negb has_persisted_state in
      let e := init_empty_trie (envelope committed_state) in
      if fresh_start then
        match stage_genesis_accounts (sort_by account_order accounts) e with
        | None => None
        | Some (Err err) => Some (Err err)
        | Some (Ok e) =>
            let s := mkAppState (app_hash committed_state) e (cc_chain config) in
            Some (Ok (s, ChainTip_from_app_state s))
        end
      else
        match initialize_with_data db (set_envelope e committed_state) with
        | Some (Ok s) => Some (Ok (s, ChainTip_from_app_state s))
        | Some (Err _) | None => None
        end
  end.
End genesis.

(** ** Lemmas *)

Section genesis_facts.
Context {H : HexCrate} {HL : HexLaws H} {HC : HashCrates} {C : RecordCodecs} {CL : RecordCodecsLaws C}
  {R : RandCrate} {T : TrieCrate} {SC : SnapshotCodecs}.

(** The object of an account and the objects of a list of accounts. *)
Definition genesis_object (acc : Account) : CadoBody :=
  CadoBody_mutable_new (default [] (bin_serialize acc))
    (CADOMetadata_new Cado_Account (hex_with_prefix (acc_address acc))).

Definition genesis_objects (l : list (string * Account)) : gmap string CadoBody :=
  list_to_map ((λ na, (cp_path (account_path (acc_address na.2)), genesis_object na.2)) <$> l).

Definition addresses (l : list (string * Account)) : list Address :=
  (λ na : string * Account, acc_address na.2) <$> l.

Lemma genesis_keys l :
  NoDup (addresses l) →
  NoDup ((λ na : string * Account, (cp_path (account_path (acc_address na.2)), genesis_object na.2)) <$> l).*1.
Proof.
  intros Hd. rewrite <- list_fmap_compose.
  change (NoDup ((λ na : string * Account, cp_path (account_path (acc_address na.2))) <$> l)).
  replace ((λ na : string * Account, cp_path (account_path (acc_address na.2))) <$> l)
    with ((λ a, cp_path (account_path a)) <$> addresses l) by (unfold addresses; by rewrite <- list_fmap_compose).
  apply NoDup_fmap_2; [|done]. intros x y He. destruct (decide (x = y)) as [|Hne]; [done|].
  by apply account_paths_distinct in Hne.
Qed.

Lemma genesis_objects_lookup l name acc :
  NoDup (addresses l) → (name, acc) ∈ l →
  genesis_objects l !! cp_path (account_path (acc_address acc)) = Some (genesis_object acc).
Proof.
  intros Hd Hin. apply elem_of_list_to_map; [by apply genesis_keys|]. apply list_elem_of_fmap. by exists (name, acc).
Qed.

Lemma genesis_objects_none l a : a ∉ addresses l → genesis_objects l !! cp_path (account_path a) = None.
Proof.
  intros Hn. apply not_elem_of_list_to_map_1. rewrite <- list_fmap_compose.
  intros (na & He & Hin)%list_elem_of_fmap. apply Hn. apply list_elem_of_fmap. exists na. split; [|done].
  destruct (decide (a = acc_address na.2)) as [|Hne]; [done|]. by apply account_paths_distinct in Hne.
Qed.

Lemma genesis_objects_perm l l' : l ≡ₚ l' → NoDup (addresses l) → genesis_objects l = genesis_objects l'.
Proof.
  intros Hp Hd. apply list_to_map_proper; [by apply genesis_keys|]. by rewrite Hp.
Qed.

Lemma stage_genesis_accounts_run l e :
  Forall (λ na : string * Account, Account_wf na.2) l → NoDup (addresses l) →
  stage_genesis_accounts l e = Some (Ok (set_cado_cache (genesis_objects l ∪ cado_cache e) e)).
Proof.
  revert e. induction l as [|na l IH]; intros e Hw Hd.
  { cbn [stage_genesis_accounts]. do 2 f_equal. unfold genesis_objects. rewrite fmap_nil, list_to_map_nil.
    rewrite map_empty_union. by destruct e. }
  apply Forall_cons_iff in Hw as [Hwf Hw]. unfold addresses in Hd. rewrite fmap_cons in Hd.
  apply list.NoDup_cons in Hd as [Hn Hd]. cbn [stage_genesis_accounts]. unfold stage_genesis_account.
  destruct (bin_roundtrip _ Hwf) as (b & Es & _). rewrite Es, CadoPath_new_address by done.
  fold (account_path (acc_address na.2)). unfold account_path at 1. rewrite update_cado_cache_eld by done.
  rewrite IH by done. do 2 f_equal. cbn [cado_cache set_cado_cache]. unfold genesis_objects at 2. rewrite fmap_cons, list_to_map_cons.
  fold (genesis_objects l). rewrite <- insert_union_l, insert_union_r by (by apply genesis_objects_none).
  unfold genesis_object. rewrite Es. by destruct e.
Qed.

(** The account an envelope shows depends on the object at its path alone. *)
Lemma account_at_object rd e acc :
  Account_wf acc → cado_cache e !! cp_path (account_path (acc_address acc)) = Some (genesis_object acc) →
  account_at rd e (acc_address acc) = Some (acc, sha256 (default [] (bin_serialize acc))).
Proof.
  intros Hwf He. unfold account_at, get_account_from_cado, lookup_cado_staged_committed_then_db. rewrite He.
  destruct (safe_account_roundtrip acc Hwf) as (b & Es & Ed). unfold genesis_object. rewrite Es. cbn. by rewrite Ed.
Qed.

Context {E : Ed25519} (protocol : ProtocolConstants).

(** A validator's account is staged only where there is none, and always
    serializes. *)
Lemma genesis_validator_keeps st v :
  ∃ st', genesis_validator st v = Some st' ∧ committed_cado_cache st'.2 = committed_cado_cache st.2 ∧
    ∀ k cado, cado_cache st.2 !! k = Some cado → cado_cache st'.2 !! k = Some cado.
Proof.
  destruct st as [vs e]. unfold genesis_validator. destruct (gen_pub_key v) as [pk|]; [|by eexists].
  destruct (negb _); [by eexists|]. destruct (try_array 32 pk) as [arr|]; [|by eexists].
  destruct (negb _); [by eexists|]. destruct (from_public_key arr) as [a|]; [|by eexists].
  set (stake := if gen_power v <? 0 then 0 else as_u64 (gen_power v)).
  assert (0 ≤ stake) as H0.
  { unfold stake. destruct (gen_power v <? 0); [done|]. unfold as_u64. by apply Z.mod_pos_bound. }
  destruct (Coin_new stake) as [c|] eqn:Ec; [|by eexists]. apply Coin_new_wf in Ec; [|done].
  rewrite CadoPath_new_address by done. destruct (has_cado_in_working_set e _) eqn:Ew; [by eexists|].
  destruct (bin_roundtrip (mkAccount a c (mkNonce Nonce_ZERO))) as (b & Es & _); [by split|].
  rewrite Es. cbn [mbind option_bind]. rewrite update_cado_cache_eld by done. eexists. split; [reflexivity|].
  split; [done|]. intros k cado Hk. cbn [snd cado_cache set_cado_cache]. rewrite lookup_insert_ne; [done|].
  intros <-. unfold has_cado_in_working_set in Ew. apply orb_false_iff in Ew as [Ew%bool_decide_eq_false _].
  apply Ew. cbn [snd] in Hk. by eexists.
Qed.

Lemma genesis_validators_keep l st :
  ∃ st', genesis_validators l st = Some st' ∧
    ∀ k cado, cado_cache st.2 !! k = Some cado → cado_cache st'.2 !! k = Some cado.
Proof.
  revert st. induction l as [|v l IH]; intros st; [by eexists|]. cbn [genesis_validators].
  destruct (genesis_validator_keeps st v) as (st1 & -> & _ & H1). cbn [mbind option_bind].
  destruct (IH st1) as (st2 & -> & H2). eexists. split; [reflexivity|]. auto.
Qed.

(** [init_chain] on its own chain succeeds and keeps every staged object. *)
Lemma init_chain_keeps id l s :
  ∃ s', init_chain protocol id id l s = Some s' ∧
    ∀ k cado, cado_cache (envelope s) !! k = Some cado → cado_cache (envelope s') !! k = Some cado.
Proof.
  unfold init_chain. rewrite String.eqb_refl. cbn [negb].
  destruct (genesis_validators_keep l ([], envelope s)) as ([vs e] & -> & He). cbn [mbind option_bind].
  eexists. split; [reflexivity|]. intros k cado Hk. apply He in Hk.
  destruct (select_active_frame protocol 0 (set_envelope
    (set_active_validators (take (Z.to_nat (validators_per_epoch protocol)) (sort_by compare_validator_priority vs))
       (set_validators vs e)) s)) as (v & ->). exact Hk.
Qed.

(** C19. A chain starts with the accounts of its configuration and nothing else:
    on an empty node a checked configuration is staged without an error, the
    state is the same in whatever order the map of accounts is met, it shows
    each configured account with its balance and nonce and no account for any
    other address than before, and whatever validators the genesis request
    names, [init_chain] then succeeds and leaves the configured accounts as
    they are. *)
Theorem genesis_matches_config (cfg : ConsensusConfig) (l : list (string * Account)) (db : Database)
    (committed : AppState) (rd : StorageReads) (vs : list GenesisValidator) :
  ConsensusConfig_validate cfg = Ok tt →
  Forall (λ na : string * Account, Account_wf na.2) (map_to_list (cc_accounts cfg)) →
  has_persisted_app_state_tip db = Ok false → l ≡ₚ map_to_list (cc_accounts cfg) →
  ∃ s tip, init_abci_server cfg l db false committed = Some (Ok (s, tip)) ∧
    (∀ l', l' ≡ₚ l → init_abci_server cfg l' db false committed = Some (Ok (s, tip))) ∧
    chain_id s = cc_chain cfg ∧
    (∀ a, (∀ name acc, cc_accounts cfg !! name = Some acc → acc_address acc ≠ a) →
       account_at rd (envelope s) a = account_at rd (envelope committed) a) ∧
    ∃ s', init_chain protocol (cc_chain cfg) (chain_id s) vs s = Some s' ∧
      ∀ name acc, cc_accounts cfg !! name = Some acc →
        ∃ h, account_at rd (envelope s) (acc_address acc) = Some (acc, h) ∧
             account_at rd (envelope s') (acc_address acc) = Some (acc, h).
Proof.
  intros Hv Hw Htip Hl.
  assert (NoDup (addresses (map_to_list (cc_accounts cfg)))) as Hd by by apply validated_addresses.
  assert (∀ k, k ≡ₚ l → init_abci_server cfg k db false committed =
    let s := mkAppState (app_hash committed) (set_cado_cache (genesis_objects l ∪ cado_cache (envelope committed))
      (init_empty_trie (envelope committed))) (cc_chain cfg) in Some (Ok (s, ChainTip_from_app_state s))) as Hrun.
  { intros k Hk. unfold init_abci_server. rewrite Htip. cbn [negb andb].
    assert (sort_by account_order k ≡ₚ map_to_list (cc_accounts cfg)) as Hs by by rewrite sort_by_perm, Hk.
    assert (NoDup (addresses (sort_by account_order k))) as Hd' by (unfold addresses; by rewrite Hs).
    rewrite stage_genesis_accounts_run; [|by rewrite Hs|done].
    by rewrite (genesis_objects_perm (sort_by account_order k) l) by (rewrite ?Hs, ?Hl; done). }
  assert (NoDup (addresses l)) as Hdl by (unfold addresses; by rewrite Hl).
  do 2 eexists. split; [by apply Hrun|]. split; [exact Hrun|]. cbn [chain_id]. split; [done|]. split.
  - intros a Ha. unfold account_at, get_account_from_cado, lookup_cado_staged_committed_then_db.
    cbn [envelope cado_cache set_cado_cache]. rewrite lookup_union_r; [done|]. apply genesis_objects_none.
    unfold addresses. rewrite Hl. intros ([n acc] & -> & Hin%elem_of_map_to_list)%list_elem_of_fmap. by apply Ha in Hin.
  - match goal with |- ∃ s', init_chain _ _ _ _ ?s = _ ∧ _ => destruct (init_chain_keeps (cc_chain cfg) vs s) as (s' & -> & Hk) end.
    exists s'. split; [done|]. intros name acc Ha%elem_of_map_to_list.
    assert (Account_wf acc) as Hwf by exact (proj1 (list.Forall_forall _ _) Hw _ Ha).
    rewrite <- Hl in Ha. pose proof (genesis_objects_lookup _ _ _ Hdl Ha) as Hg.
    eexists. split; apply account_at_object; try done; [|apply Hk];
      cbn [envelope cado_cache set_cado_cache]; by apply lookup_union_Some_l.
Qed.
End genesis_facts.

(** ** Witnesses *)

Definition test_genesis_config : ConsensusConfig :=
  mkConsensusConfig "eld-local" "127.0.0.1" "26658"
    {["faucet" := mkAccount test_sender (mkCoin 100000) (mkNonce 0);
      "user" := mkAccount test_recipient (mkCoin 5) (mkNonce 2)]} StorageLimits_default.

Definition test_restarted : AppState := mkAppState None envelope_default "".

Lemma genesis_matches_config_witness :
  ∃ s tip s' h,
    init_abci_server (SC := test_restart_codecs 20) (T := ref_trie) test_genesis_config
      (rev (map_to_list (cc_accounts test_genesis_config))) empty_database false test_restarted = Some (Ok (s, tip)) ∧
    init_chain local_dev "eld-local" "eld-local" [mkGenesisValidator (Some (vec_to_list test_key)) 10] s = Some s' ∧
    account_at rd0 (envelope s') test_recipient = Some (mkAccount test_recipient (mkCoin 5) (mkNonce 2), h).
Proof.
  destruct (genesis_matches_config (SC := test_restart_codecs 20) (T := ref_trie) local_dev test_genesis_config
    (rev (map_to_list (cc_accounts test_genesis_config))) empty_database test_restarted rd0
    [mkGenesisValidator (Some (vec_to_list test_key)) 10]) as (s & tip & H1 & _ & H2 & _ & s' & H3 & H4).
  - vm_compute. reflexivity.
  - apply list.Forall_forall. intros [name acc] Ha%elem_of_map_to_list. unfold test_genesis_config, cc_accounts in Ha.
    apply lookup_insert_Some in Ha as [[_ <-]|[_ Ha]]; [by vm_compute|].
    apply lookup_singleton_Some in Ha as [_ <-]. by vm_compute.
  - vm_compute. reflexivity.
  - symmetry. apply Permutation_rev.
  - rewrite H2 in H3. destruct (H4 "user" _ eq_refl) as (h & _ & H5). exists s, tip, s', h.
    split; [exact H1|]. split; [exact H3|exact H5].
Defined.
