(* ===== verification/Gossip.v ===== *)
(** Peers on the gossip network: the dispatch of messages
    (node_app/src/content/sync/sync_coordinator/messages.rs, inventory.rs), the
    commands of the coordinator (commands.rs, trait_impl.rs), what the swarm
    does with a command or with received bytes (swarm.rs) and the heartbeats
    (content/sync/heartbeat.rs), over the handlers of [Sync.v] and
    [Exchange.v].

    The bincode of messages is a parameter.  Connections, peer discovery and
    the mesh of gossipsub are not modelled: bytes that were published on a
    topic may reach a subscriber at any time, any number of times or never, and
    whether [publish] succeeds is a choice. *)
From S2P Require Import Prelude Externals Reference Coins Address Ordering Namespace Cado Records Tx Merkle Wire Validation Fee Pinboard AppState Ledger Processors VerifiedProof Deliver Epoch Storage Snapshot Commit Slots Capacity Feed Sync Mempool Exchange Registration.

Definition P2P_TOPIC_CONTENT_SYNC : string := "eld-content-sync".
Definition P2P_TOPIC_CONTENT_SYNC_RESPONSE : string := "eld-content-sync-response".

(** ** Messages and commands *)

(** [SyncMsg] whole; [Content] holds the three messages on content. *)
Inductive PeerMsg : Type :=
| Heartbeat (timestamp : Z)
| ContentSyncHeartbeat (timestamp : Z)
| ContentSyncHeartbeatResponse (provider_id : Address) (timestamp : Z)
| Content (m : SyncMsg)
| Challenge (c : CapacityChallenge) (timestamp : Z)
| ChallengeResponse (r : CapacityChallengeResponse)
| ContentInventoryRequest (timestamp : Z)
| ContentInventoryResponse (items_json : string).

Inductive P2pCommand : Type :=
| BroadcastAnnounce (key : string)
| BroadcastContentRequest (key : string)
| BroadcastContentResponse (key content : string)
| SubscribeToTopic (topic : string)
| PublishToTopic (topic : string) (msg : PeerMsg).

(** The command a broadcast of a content message sends to the swarm. *)
Definition broadcast_command (m : SyncMsg) : P2pCommand :=
  match m with
  | Announce key => BroadcastAnnounce key
  | ContentRequest key => BroadcastContentRequest key
  | ContentResponse key content => BroadcastContentResponse key content
  end.

(** ** A node on the network *)

Section gossip.
Context {H : HexCrate} {HC : HashCrates} {X : Blake3Xof} {J : SlotJson} {B : Base64} {TJ : TrackerJson}
  {E : Ed25519} {PB : Bincode PeerMsg}.

(** The provider with its two trackers, what the handlers read, the topics
    gossipsub is subscribed to, those the swarm keeps itself, and the channel of
    messages to the handler. *)
Record Peer : Type := mkPeer {
  peer_provider : provider_state;
  peer_db : Database;
  peer_committed : option AppState;
  peer_identity : option Address;
  peer_wallet : Address → eld_result (option signing_key);
  peer_topics : gset string;
  peer_subscribed : gset string;
  peer_inbox : list PeerMsg;
}.

Definition with_provider (s : provider_state) (n : Peer) : Peer :=
  mkPeer s (peer_db n) (peer_committed n) (peer_identity n) (peer_wallet n) (peer_topics n) (peer_subscribed n)
    (peer_inbox n).
Definition with_inbox (l : list PeerMsg) (n : Peer) : Peer :=
  mkPeer (peer_provider n) (peer_db n) (peer_committed n) (peer_identity n) (peer_wallet n) (peer_topics n)
    (peer_subscribed n) l.
Definition with_topic (topic : string) (n : Peer) : Peer :=
  mkPeer (peer_provider n) (peer_db n) (peer_committed n) (peer_identity n) (peer_wallet n)
    ({[topic]} ∪ peer_topics n) ({[topic]} ∪ peer_subscribed n) (peer_inbox n).

(** The message handler writes its own records and the file. *)
Definition with_handler (cm : CapacityManager) (t : MissingContentTracker) (s : provider_state) : provider_state :=
  mkProviderState cm (mt_records t) (ps_periodic s) (mt_file t).

(** *** inventory.rs *)

(** The inventory of manifests is gone: the answer is an empty list, and what
    is received is only logged. *)
Definition handle_content_inventory_request (timestamp : Z) : list P2pCommand :=
  [PublishToTopic P2P_TOPIC_CONTENT_SYNC (ContentInventoryResponse "[]")].

(** *** Dispatch *)

(** The commands a message leads to and the proof it hands to the submitter;
    [None] is a panic, which ends the handler. *)
Definition handle_sync_message (now : Z) (msg : PeerMsg) (n : Peer) :
    option (Peer * list P2pCommand * option VerifiedProofSubmission) :=
  let s := peer_provider n in
  let cm := ps_capacity s in
  let tracker := mkTracker (ps_handler s) (ps_file s) in
  match msg with
  | Heartbeat _ | ContentSyncHeartbeat _ | ContentSyncHeartbeatResponse _ _ => Some (n, [], None)
  | Content (Announce content_id) =>
      let '(t, msgs) := handle_announce (peer_db n) cm content_id now tracker in
      Some (with_provider (with_handler cm t s) n, map broadcast_command msgs, None)
  | Content (ContentRequest content_id) =>
      Some (n, map broadcast_command (handle_content_request (peer_db n) cm content_id), None)
  | Content (ContentResponse content_id content) =>
      let '(cm, t) := handle_content_response content_id content (cm, tracker) in
      Some (with_provider (with_handler cm t s) n, [], None)
  | Challenge c _ =>
      answer ← handle_capacity_challenge (peer_wallet n) now cm c;
      Some (n, match answer with Some (topic, r) => [PublishToTopic topic (ChallengeResponse r)] | None => [] end, None)
  | ChallengeResponse r =>
      Some (n, [], handle_capacity_challenge_response (peer_identity n) (peer_committed n) r)
  | ContentInventoryRequest timestamp => Some (n, handle_content_inventory_request timestamp, None)
  | ContentInventoryResponse _ => Some (n, [], None)
  end.

(** *** The swarm *)

(** Bytes received on a topic. *)
Definition swarm_receive (data : bytes) (n : Peer) : Peer :=
  match bin_deserialize data with
  | Some sync_msg => with_inbox (peer_inbox n ++ [sync_msg]) n
  | None => n
  end.

(** Serialize and publish; [sent] says whether gossipsub accepts it. *)
Definition gossip_publish (sent : bool) (topic : string) (msg : PeerMsg) : list (string * bytes) :=
  match bin_serialize msg with
  | Some data => if sent then [(topic, data)] else []
  | None => []
  end.

(** One command: the node after it and what goes out.  A publication that
    fails is put into the own channel when the swarm subscribed to the topic. *)
Definition swarm_command (sent : bool) (cmd : P2pCommand) (n : Peer) : Peer * list (string * bytes) :=
  match cmd with
  | BroadcastAnnounce key => (n, gossip_publish sent P2P_TOPIC_CONTENT_SYNC (Content (Announce key)))
  | BroadcastContentRequest key => (n, gossip_publish sent P2P_TOPIC_CONTENT_SYNC (Content (ContentRequest key)))
  | BroadcastContentResponse key content =>
      (n, gossip_publish sent P2P_TOPIC_CONTENT_SYNC (Content (ContentResponse key content)))
  | SubscribeToTopic topic => (with_topic topic n, [])
  | PublishToTopic topic msg =>
      match bin_serialize msg with
      | None => (n, [])
      | Some data =>
          if sent then (n, [(topic, data)])
          else if bool_decide (topic ∈ peer_subscribed n) then (swarm_receive data n, []) else (n, [])
      end
  end.

(** The commands in the channel, each with the choice of its publication. *)
Fixpoint swarm_commands (l : list (bool * P2pCommand)) (n : Peer) : Peer * list (string * bytes) :=
  match l with
  | [] => (n, [])
  | (sent, cmd) :: l =>
      let '(n, out) := swarm_command sent cmd n in
      let '(n, outs) := swarm_commands l n in
      (n, out ++ outs)
  end.

(** [spawn_swarm_task]: the topics every node starts with. *)
Definition initial_topics : gset string := {[P2P_TOPIC_CONTENT_SYNC; P2P_TOPIC_CONTENT_SYNC_RESPONSE]}.

(** *** trait_impl.rs, heartbeat.rs *)

(** The metadata in the order of the [BTreeMap]. *)
Definition find_pinboard_and_broadcast_announce (pinboard_meta_cache : gmap string PinboardMessageMetadata) :
    list P2pCommand :=
  map (λ kv, BroadcastAnnounce (pm_content_key kv.2))
    (sort_by (λ x y, key_compare x.1 y.1) (map_to_list pinboard_meta_cache)).

(** One tick of [start_heartbeat_task]. *)
Definition heartbeat_tick (committed_state : option AppState) (timestamp : Z) : list P2pCommand :=
  match committed_state with
  | None => []
  | Some state =>
      map (λ provider, PublishToTopic (String.append ELD_STORAGE_CHALLENGE_TOPIC_PREFIX (hex_with_prefix (cv_address provider)))
                         (Heartbeat timestamp)) (capacity_validators (envelope state))
  end.

(** One tick of [start_content_sync_heartbeat_task]. *)
Definition content_sync_heartbeat_tick (timestamp : Z) : list P2pCommand :=
  [PublishToTopic P2P_TOPIC_CONTENT_SYNC (ContentSyncHeartbeat timestamp)].

(** ** The network *)

(** Nodes by number and everything that was ever published. *)
Record Network : Type := mkNetwork {
  net_peers : gmap nat Peer;
  net_wire : list (string * bytes);
}.

Inductive net_step : Network → Network → Prop :=
| net_receive i n topic data peers wire :
    peers !! i = Some n → (topic, data) ∈ wire → topic ∈ peer_topics n →
    net_step (mkNetwork peers wire) (mkNetwork (<[i := swarm_receive data n]> peers) wire)
| net_handle i n msg rest now cmds sub n1 l n2 out peers wire :
    peers !! i = Some n → peer_inbox n = msg :: rest →
    handle_sync_message now msg (with_inbox rest n) = Some (n1, cmds, sub) →
    l.*2 = cmds → swarm_commands l n1 = (n2, out) →
    net_step (mkNetwork peers wire) (mkNetwork (<[i := n2]> peers) (wire ++ out))
| net_task i n l n' out peers wire :
    peers !! i = Some n → swarm_commands l n = (n', out) →
    net_step (mkNetwork peers wire) (mkNetwork (<[i := n']> peers) (wire ++ out))
| net_local i n s db committed peers wire :
    peers !! i = Some n → provider_step (peer_provider n) s →
    net_step (mkNetwork peers wire)
      (mkNetwork (<[i := mkPeer s db committed (peer_identity n) (peer_wallet n) (peer_topics n) (peer_subscribed n)
                          (peer_inbox n)]> peers) wire)
| net_stranger topic data peers wire :
    net_step (mkNetwork peers wire) (mkNetwork peers (wire ++ [(topic, data)])).
End gossip.

(** ** Lemmas *)

Section gossip_facts.
Context {H : HexCrate} {HC : HashCrates} {X : Blake3Xof} {J : SlotJson} {B : Base64} {TJ : TrackerJson}
  {E : Ed25519} {PB : Bincode PeerMsg}.

(** Whatever indices are asked for, the proofs end without a panic. *)
Lemma chunk_proofs_total s m f t idxs : capacity_view s m f t → is_Some (chunk_proofs m f t idxs).
Proof.
  intros Hv. induction idxs as [|i idxs IH]; cbn [chunk_proofs]; [by eexists|].
  destruct (sm_slots m !! i) as [sl|] eqn:Hi; [|by eexists].
  destruct (chunk_proofs_run s m f t [i] Hv) as (proofs & Hp & _).
  { constructor; [by eapply lookup_lt_Some|constructor]. }
  cbn [chunk_proofs] in Hp. rewrite Hi in Hp. destruct (read_at f (slot_offset sl) (slot_size sl)); [|by eexists].
  destruct (generate_proof t i); [|done]. destruct IH as [r Hr]. cbn [mbind option_bind]. rewrite Hr. by eexists.
Qed.

Lemma challenge_total wallet now cm c : capacity_ok cm → is_Some (handle_capacity_challenge wallet now cm c).
Proof.
  intros (m & f & t & Hv). unfold handle_capacity_challenge. destruct (ChallengeId_parse_hex _); [|by eexists].
  assert (is_Some (generate_capacity_proof (ch_provider_id c) (Z.to_nat <$> ch_chunk_indices c) (ch_merkle_root c) cm))
    as [r ->].
  { unfold generate_capacity_proof. destruct (negb _); [by eexists|]. destruct (negb _); [by eexists|].
    rewrite (view_tree _ _ _ _ Hv). destruct (negb _); [by eexists|].
    rewrite (view_slots _ _ _ _ Hv), (view_file _ _ _ _ Hv). by eapply chunk_proofs_total. }
  cbn [mbind option_bind]. destruct r as [proofs|]; [|by eexists].
  destruct (wallet _) as [[sk|]|]; [|by eexists..].
  destruct (sign_capacity_challenge_response _ _ _ _ _ _ _) as [[? ?]|]; by eexists.
Qed.

Lemma handle_total now msg n : capacity_ok (ps_capacity (peer_provider n)) → is_Some (handle_sync_message now msg n).
Proof.
  intros Hok. unfold handle_sync_message. destruct msg as [ts|ts|p ts|m|c ts|r|ts|items]; try by eexists.
  - destruct m; [destruct (handle_announce _ _ _ _ _)|..|destruct (handle_content_response _ _ _)]; by eexists.
  - destruct (challenge_total (peer_wallet n) now (ps_capacity (peer_provider n)) c Hok) as [a ->]. by eexists.
Qed.

(** Every message is at most one step of the provider. *)
Lemma handle_steps now msg n n' cmds sub :
  handle_sync_message now msg n = Some (n', cmds, sub) →
  rtc provider_step (peer_provider n) (peer_provider n') ∧ peer_inbox n' = peer_inbox n.
Proof.
  unfold handle_sync_message. destruct (peer_provider n) as [cm hd pd file] eqn:Hs.
  cbn [ps_capacity ps_handler ps_file]. destruct msg as [ts|ts|p ts|m|c ts|r|ts|items].
  1, 2, 3, 6, 7, 8: (intros [= <- <- <-]; rewrite Hs; by split; [apply rtc_refl|]).
  - destruct m as [key|key|key content].
    + destruct (handle_announce _ _ _ _ _) as [t msgs] eqn:Ha. intros [= <- <- <-]. split; [|done].
      apply rtc_once. by eapply step_announce.
    + intros [= <- <- <-]. rewrite Hs. by split; [apply rtc_refl|].
    + destruct (handle_content_response _ _ _) as [cm' t] eqn:Hr. intros [= <- <- <-]. split; [|done].
      apply rtc_once. by eapply step_response.
  - destruct (handle_capacity_challenge _ _ _ _) as [a|]; [|done]. intros [= <- _ _]. rewrite Hs.
    by split; [apply rtc_refl|].
Qed.

Lemma swarm_receive_provider data n : peer_provider (swarm_receive data n) = peer_provider n.
Proof. unfold swarm_receive. by destruct (bin_deserialize data). Qed.

Lemma swarm_commands_provider l n n' out :
  swarm_commands l n = (n', out) → peer_provider n' = peer_provider n.
Proof.
  revert n out. induction l as [|[sent cmd] l IH]; intros n out; cbn [swarm_commands]; [by intros [= <- _]|].
  destruct (swarm_command sent cmd n) as [n1 out1] eqn:Hc. destruct (swarm_commands l n1) as [n2 out2] eqn:Hl.
  intros [= <- _]. rewrite (IH _ _ Hl).
  destruct cmd as [key|key|key content|topic|topic msg]; cbn [swarm_command] in Hc; try by injection Hc as <- _.
  destruct (bin_serialize msg); [|by injection Hc as <- _]. destruct sent; [by injection Hc as <- _|].
  destruct (bool_decide _); injection Hc as <- _; [apply swarm_receive_provider|done].
Qed.

(** The run of a network is, for each of its nodes, a life of its provider. *)
Lemma net_step_projects net net' i n' :
  net_step net net' → net_peers net' !! i = Some n' →
  ∃ n, net_peers net !! i = Some n ∧ rtc provider_step (peer_provider n) (peer_provider n').
Proof.
  assert (∀ (peers : gmap nat Peer) j n n1, peers !! j = Some n →
    rtc provider_step (peer_provider n) (peer_provider n1) → <[j := n1]> peers !! i = Some n' →
    ∃ n, peers !! i = Some n ∧ rtc provider_step (peer_provider n) (peer_provider n')) as Hone.
  { intros peers j n n1 Hj Hr [[-> ->]|[_ Hi]]%lookup_insert_Some; [by exists n|].
    exists n'. by split; [|apply rtc_refl]. }
  destruct 1 as [j n topic data peers wire Hj _ _|j n msg rest now cmds sub n1 l n2 out peers wire Hj _ Hh _ Hc
    |j n l n1 out peers wire Hj Hc|j n s db committed peers wire Hj Hs|topic data peers wire]; cbn [net_peers].
  - apply (Hone _ _ _ _ Hj). rewrite swarm_receive_provider. apply rtc_refl.
  - apply (Hone _ _ _ _ Hj). rewrite (swarm_commands_provider _ _ _ _ Hc). by apply handle_steps in Hh as [Hh _].
  - apply (Hone _ _ _ _ Hj). rewrite (swarm_commands_provider _ _ _ _ Hc). apply rtc_refl.
  - apply (Hone _ _ _ _ Hj). by apply rtc_once.
  - intros Hi. exists n'. by split; [|apply rtc_refl].
Qed.

Lemma net_run_projects net net' i n' :
  rtc net_step net net' → net_peers net' !! i = Some n' →
  ∃ n, net_peers net !! i = Some n ∧ rtc provider_step (peer_provider n) (peer_provider n').
Proof.
  intros Hr. revert n'. induction Hr as [net|net net1 net2 Hs _ IH]; intros n' Hn.
  { exists n'. by split; [|apply rtc_refl]. }
  destruct (IH _ Hn) as (n1 & H1 & R1). destruct (net_step_projects _ _ _ _ Hs H1) as (n & H0 & R0).
  exists n. split; [done|]. by etrans.
Qed.

(** A node that has just allocated its capacity. *)
Definition allocated (n : Peer) : Prop :=
  ∃ mb seed s0, 0 < mb < 2 ^ 44 ∧ file_slots s0 = None ∧ cm_content_slot_map s0 = ∅ ∧ file_content_map s0 = None ∧
    allocate_capacity mb seed s0 = Some (Ok tt, ps_capacity (peer_provider n)).

(** C23. A network of providers survives every message: whatever bytes strangers
    publish, on any topic, and in whatever order, delay and number messages,
    blocks, expiries and restarts come, each node that allocated its capacity
    keeps its files and tree consistent, serves only content with the digest it
    was asked for, can be restarted, answers every challenge on its current
    root acceptably, and no message makes its handler panic. *)
Theorem network_always_consistent {XL : Blake3XofLaws X} {JL : SlotJsonLaws J} (net net' : Network) (i : nat) (n : Peer) :
  (∀ j p, net_peers net !! j = Some p → allocated p) →
  rtc net_step net net' → net_peers net' !! i = Some n →
  let cm := ps_capacity (peer_provider n) in
  capacity_ok cm ∧
  (∀ key b, get_content_from_slots key cm = Ok (Some b) → key = content_key_of b) ∧
  initialize (reopened cm) = Some (Ok tt, set_initialized true cm) ∧
  (∀ root idxs, cm_initialized cm = true → get_merkle_root cm = Ok root →
    Forall (λ i, i < length (slots_of cm))%nat idxs →
    ∃ proofs, generate_capacity_proof (cm_provider_id cm) idxs root cm = Some (Ok proofs) ∧
      validate_challenge_proof proofs root (Z.of_nat <$> idxs) = true) ∧
  (∀ now msg, is_Some (handle_sync_message now msg n)).
Proof.
  intros Hall Hrun Hn cm. destruct (net_run_projects _ _ _ _ Hrun Hn) as (n0 & H0 & Hlife).
  destruct (Hall _ _ H0) as (mb & seed & s0 & Hmb & Hs & Hc & Hcf & Halloc).
  destruct (peer_provider n0) as [cm0 hd pd file]. cbn [ps_capacity] in Halloc.
  destruct (provider_always_consistent mb seed s0 cm0 hd pd file (peer_provider n) Hmb Hs Hc Hcf Halloc Hlife)
    as (Hok & Had & Hre & Hch).
  split_and!; try done. intros now msg. by apply handle_total.
Qed.
End gossip_facts.

(** ** Content over the network *)

(** The messages whose encoding matters for content. *)
Definition content_message (msg : PeerMsg) : Prop := match msg with Content _ => True | _ => False end.

Section spreading.
Context {H : HexCrate} {HL : HexLaws H} {HC : HashCrates} {X : Blake3Xof} {J : SlotJson} {B : Base64}
  {BL : Base64Laws B} {TJ : TrackerJson} {E : Ed25519} {PB : Bincode PeerMsg}
  {PL : BincodeLaws PeerMsg content_message}.

(** A node with an empty channel takes published bytes off the wire and handles
    them at once: the node after it and what it publishes itself, every
    publication accepted. *)
Definition react (now : Z) (published : string * bytes) (n : Peer) :
    option (Peer * list (string * bytes)) :=
  let '(topic, data) := published in
  if negb (bool_decide (topic ∈ peer_topics n)) then Some (n, [])
  else
    let n := swarm_receive data n in
    match peer_inbox n with
    | [] => Some (n, [])
    | msg :: rest =>
        '(n, cmds, _) ← handle_sync_message now msg (with_inbox rest n);
        Some (swarm_commands ((λ c, (true, c)) <$> cmds) n)
    end.

(** Reacting is a run of the network. *)
Lemma react_steps now topic data i n n' out (peers : gmap nat Peer) wire :
  react now (topic, data) n = Some (n', out) → peers !! i = Some n → (topic, data) ∈ wire →
  rtc net_step (mkNetwork peers wire) (mkNetwork (<[i := n']> peers) (wire ++ out)).
Proof.
  intros Hr Hi Hw. unfold react in Hr. case_bool_decide as Ht; cbn [negb] in Hr.
  2: { injection Hr as <- <-. rewrite insert_id, (right_id_L [] (++)) by done. apply rtc_refl. }
  eapply rtc_l; [by eapply net_receive|]. cbv zeta in Hr.
  destruct (peer_inbox (swarm_receive data n)) as [|msg rest] eqn:Hin.
  { injection Hr as <- <-. rewrite (right_id_L [] (++)). apply rtc_refl. }
  destruct (handle_sync_message now msg _) as [[[n1 cmds] sub]|] eqn:Hh; [|done].
  cbn [mbind option_bind] in Hr. injection Hr as Hc.
  apply rtc_once. rewrite <- (insert_insert_eq peers i n' (swarm_receive data n)).
  eapply (net_handle i _ msg rest now cmds sub n1 _ n' out); [apply lookup_insert_eq|done|exact Hh| |exact Hc].
  clear. induction cmds as [|c cmds IHc]; [done|]. cbn. by f_equal.
Qed.

(** Three exchanges between two nodes of a network. *)
Lemma exchange_steps now (i j : nat) topic d1 d2 d3 cmd nA nB nB1 nB2 (peers : gmap nat Peer) wire :
  swarm_commands [(true, cmd)] nA = (nA, [(topic, d1)]) →
  react now (topic, d1) nB = Some (nB1, [(topic, d2)]) →
  react now (topic, d2) nA = Some (nA, [(topic, d3)]) →
  react now (topic, d3) nB1 = Some (nB2, []) →
  i ≠ j → peers !! i = Some nA → peers !! j = Some nB →
  rtc net_step (mkNetwork peers wire)
    (mkNetwork (<[j := nB2]> peers) (wire ++ [(topic, d1); (topic, d2); (topic, d3)])).
Proof.
  intros Hc R1 R2 R3 Hij HA HB.
  assert (∀ (w : list (string * bytes)) x, x ∈ w ++ [x]) as Hlast.
  { intros w x. apply elem_of_app. right. by apply list_elem_of_singleton. }
  eapply rtc_l; [exact (net_task i nA _ nA _ _ _ HA Hc)|]. rewrite insert_id by done.
  etrans; [by eapply (react_steps now topic d1 j nB)|].
  etrans; [eapply (react_steps now topic d2 i nA _ _ _ _ R2); [by rewrite lookup_insert_ne|apply Hlast]|].
  rewrite (insert_id _ i) by (by rewrite lookup_insert_ne).
  etrans; [eapply (react_steps now topic d3 j nB1 _ _ _ _ R3); [apply lookup_insert_eq|apply Hlast]|].
  rewrite insert_insert_eq. rewrite (right_id_L [] (++)), <- !(assoc_L (++)). apply rtc_refl.
Qed.

(** A content message that arrives is dispatched. *)
Lemma react_content now m data n :
  bin_serialize (Content m) = Some data → P2P_TOPIC_CONTENT_SYNC ∈ peer_topics n → peer_inbox n = [] →
  react now (P2P_TOPIC_CONTENT_SYNC, data) n =
    '(n, cmds, _) ← handle_sync_message now (Content m) n;
    Some (swarm_commands ((λ c, (true, c)) <$> cmds) n).
Proof.
  intros Hs Ht Hin. unfold react. rewrite bool_decide_eq_true_2 by done. cbn [negb]. cbv zeta.
  destruct (bin_roundtrip (Content m) I) as (b & Hb & Hd). rewrite Hs in Hb. injection Hb as <-.
  unfold swarm_receive. rewrite Hd, Hin. cbn [app peer_inbox with_inbox].
  replace (with_inbox [] (with_inbox [Content m] n)) with n; [done|]. destruct n. cbn in Hin. by rewrite Hin.
Qed.

(** A broadcast goes out on the topic of content. *)
Lemma broadcast_out m n :
  ∃ data, bin_serialize (Content m) = Some data ∧
    swarm_commands [(true, broadcast_command m)] n = (n, [(P2P_TOPIC_CONTENT_SYNC, data)]).
Proof.
  destruct (bin_roundtrip (Content m)) as (data & Hs & _); [exact I|]. exists data. split; [done|].
  destruct m; cbn [broadcast_command swarm_commands swarm_command]; unfold gossip_publish; by rewrite Hs.
Qed.

(** The posts of a block are announced. *)
Lemma post_announced (cache : gmap string PinboardMessageMetadata) id m :
  cache !! id = Some m → BroadcastAnnounce (pm_content_key m) ∈ find_pinboard_and_broadcast_announce cache.
Proof.
  intros Hm. unfold find_pinboard_and_broadcast_announce. apply list_elem_of_fmap.
  exists (id, m). split; [done|]. rewrite sort_by_perm. by apply elem_of_map_to_list.
Qed.

(** A node that lacks what is announced answers with a request for it. *)
Lemma announce_requested now key n :
  pinboard_temp_blobs_cf (peer_db n) !! key = None →
  get_content_from_slots key (ps_capacity (peer_provider n)) = Ok None →
  ∃ t, handle_sync_message now (Content (Announce key)) n =
    Some (with_provider (with_handler (ps_capacity (peer_provider n)) t (peer_provider n)) n,
          [BroadcastContentRequest key], None).
Proof.
  intros Htemp Hget. cbn [handle_sync_message]. unfold handle_announce, db_pinboard_temp_blob.
  rewrite Htemp. cbn [fmap option_fmap option_map]. rewrite Hget. cbn. by eexists.
Qed.

(** A node that holds what is requested answers with it. *)
Lemma request_answered now key b n :
  pinboard_temp_blobs_cf (peer_db n) !! key = None →
  get_content_from_slots key (ps_capacity (peer_provider n)) = Ok (Some b) →
  handle_sync_message now (Content (ContentRequest key)) n =
    Some (n, [BroadcastContentResponse key (base64_encode b)], None).
Proof.
  intros Htemp Hget. cbn [handle_sync_message]. unfold handle_content_request, db_pinboard_temp_blob.
  rewrite Htemp. cbn [fmap option_fmap option_map]. by rewrite Hget.
Qed.

End spreading.

(** ** Witnesses *)

#[export] Instance SyncMsg_eq_dec : EqDecision SyncMsg.
Proof. solve_decision. Defined.

#[export, program] Instance SyncMsg_countable : Countable SyncMsg :=
  inj_countable' (λ m, match m with
                       | Announce k => inl (inl k)
                       | ContentRequest k => inl (inr k)
                       | ContentResponse k c => inr (k, c)
                       end)
    (λ x, match x with
          | inl (inl k) => Announce k
          | inl (inr k) => ContentRequest k
          | inr (k, c) => ContentResponse k c
          end) _.
Next Obligation. by intros []. Qed.

(** A codec of the content messages. *)
Definition test_peer_codec : Bincode PeerMsg := {|
  bin_serialize msg := match msg with Content m => Some (pos_to_bytes (encode m)) | _ => None end;
  bin_deserialize b := Content <$> decode (bytes_to_pos b);
|}.

Lemma test_peer_codec_laws : BincodeLaws PeerMsg (B := test_peer_codec) content_message.
Proof.
  constructor. intros [ts|ts|p ts|m|c ts|r|ts|items] Hm; try done. eexists. split; [done|]. cbn.
  by rewrite bytes_to_pos_to_bytes, decode_encode.
Qed.

Definition test_peer (cm : CapacityManager) : Peer (E := ref_ed25519) :=
  mkPeer (mkProviderState cm ∅ ∅ None) empty_database None None (λ _, Ok None) initial_topics ∅ [].

Lemma test_peer_topic cm : P2P_TOPIC_CONTENT_SYNC ∈ peer_topics (test_peer cm).
Proof. cbn. set_solver. Qed.

Definition test_spread_meta : PinboardMessageMetadata :=
  mkPinboardMessageMetadata "m1" test_sender (content_key_of test_blob) "text/plain" 100 "public" None [] 7 0 None.


Lemma network_always_consistent_witness :
  ∃ cm0 net', allocate_capacity 1 test_slot_seed test_fresh = Some (Ok tt, cm0) ∧
    rtc (net_step (PB := test_peer_codec)) (mkNetwork {[0%nat := test_peer cm0]} []) net' ∧
    ∃ n, net_peers net' !! 0%nat = Some n ∧ capacity_ok (ps_capacity (peer_provider n)).
Proof.
  destruct (allocate_mb_run 1 test_slot_seed test_fresh) as (root & cm0 & Hall & _);
    [lia|reflexivity|reflexivity|reflexivity|].
  exists cm0, (mkNetwork {[0%nat := test_peer cm0]} [("topic", test_blob)]). split; [exact Hall|].
  assert (rtc (net_step (PB := test_peer_codec)) (mkNetwork {[0%nat := test_peer cm0]} [])
    (mkNetwork {[0%nat := test_peer cm0]} [("topic", test_blob)])) as Hrun.
  { apply rtc_once. apply (net_stranger "topic" test_blob _ []). }
  split; [exact Hrun|]. exists (test_peer cm0). split; [reflexivity|].
  apply (network_always_consistent (PB := test_peer_codec) (mkNetwork {[0%nat := test_peer cm0]} [])
    (mkNetwork {[0%nat := test_peer cm0]} [("topic", test_blob)]) 0 (test_peer cm0)); [|exact Hrun|reflexivity].
  intros j p Hp. cbn [net_peers] in Hp. apply lookup_singleton_Some in Hp as [_ <-]. exists 1, test_slot_seed, test_fresh.
  split; [lia|]. split; [reflexivity|]. split; [reflexivity|]. split; [reflexivity|exact Hall].
Defined.
