(* ===== verification/Identity.v ===== *)
(** Identifiers and the identity of a node: the 32-byte ids of common/src
    (capacity_merkle_root.rs, capacity_seed.rs, challenge_id.rs, content_id.rs,
    manifest_id.rs, public_key.rs) behind one interface, the identity of the
    process (node_app/src/node_identity.rs), and how the capacity of a node is
    started (node_app/src/runtime/capacity.rs).

    The environment is an argument; a call of [handle_fatal_eld_error] is
    [None]. *)
From S2P Require Import Prelude Externals Reference Coins Address Ordering Namespace Cado Records Tx TxCodes Merkle Wire Validation TxTyped UserPost Fee Pinboard AppState Ledger Processors VerifiedProof Deliver Epoch Storage Slots Capacity Feed Gc Sync Mempool Exchange Paging Prefix Indexer IndexerSync RestApi RestReads PinboardApi PinboardFlow AbciLimits AbciQuery Wallets Client Registration Config.

(** ** The ids *)

Record CapacityMerkleRoot : Type := mkMerkleRoot { merkle_root_bytes : byte_array 32 }.
Record CapacitySeed : Type := mkSeed { seed_bytes : byte_array 32 }.

Section ids.
Context {H : HexCrate} {E : Ed25519}.

Definition CapacityMerkleRoot_parse_hex (s : string) : eld_result CapacityMerkleRoot :=
  let? b := decode_fixed_hex 32 s "capacity merkle root" in Ok (mkMerkleRoot b).
Definition CapacityMerkleRoot_to_hex (r : CapacityMerkleRoot) : string := hex_encode (merkle_root_bytes r).
Definition CapacityMerkleRoot_serialize (r : CapacityMerkleRoot) : Value := JString (CapacityMerkleRoot_to_hex r).
Definition CapacityMerkleRoot_deserialize (v : Value) : option CapacityMerkleRoot :=
  value ← as_str v; ok (CapacityMerkleRoot_parse_hex value).

Definition CapacitySeed_parse_hex (s : string) : eld_result CapacitySeed :=
  let? b := decode_fixed_hex 32 s "capacity seed" in Ok (mkSeed b).
Definition CapacitySeed_to_hex (r : CapacitySeed) : string := hex_encode (seed_bytes r).
Definition CapacitySeed_serialize (r : CapacitySeed) : Value := JString (CapacitySeed_to_hex r).
Definition CapacitySeed_deserialize (v : Value) : option CapacitySeed :=
  value ← as_str v; ok (CapacitySeed_parse_hex value).

Definition ChallengeId_serialize (c : ChallengeId) : Value := JString (ChallengeId_to_hex c).
Definition ChallengeId_deserialize (v : Value) : option ChallengeId :=
  value ← as_str v; ok (ChallengeId_parse_hex value).

Definition ContentId_serialize (c : ContentId) : Value := JString (ContentId_hex_with_prefix c).
Definition ContentId_deserialize (v : Value) : option ContentId :=
  value ← as_str v; ok (ContentId_parse_hex value).

Definition ManifestId_parse_hex (s : string) : eld_result ManifestId :=
  let? b := decode_fixed_hex 32 s "manifest ID" in Ok (mkManifestId b).
Definition ManifestId_serialize (m : ManifestId) : Value := JString (ManifestId_hex_with_prefix m).
Definition ManifestId_deserialize (v : Value) : option ManifestId :=
  value ← as_str v; ok (ManifestId_parse_hex value).

Definition PublicKey_display (k : PublicKey) : string := hex_encode (pk_bytes k).
Definition PublicKey_serialize (k : PublicKey) : Value := JString (PublicKey_display k).
Definition PublicKey_deserialize (v : Value) : option PublicKey :=
  value ← as_str v; ok (PublicKey_from_hex value).

(** *** One interface *)

(** What the rest of the program relies on: an id is 32 bytes with a text. *)
Class HexId (A : Type) : Type := {
  id_field : string;
  id_prefix : string;
  id_bytes : A → byte_array 32;
  id_valid : byte_array 32 → bool;
  id_parse : string → eld_result A;
  id_text : A → string;
  id_serialize : A → Value;
  id_deserialize : Value → option A;
}.

Class HexIdLaws (A : Type) {I : HexId A} : Prop := {
  id_prefix_ok : id_prefix = "0x" ∨ id_prefix = EmptyString;
  id_text_spec a : id_text a = String.append id_prefix (hex_encode (id_bytes a));
  id_parse_spec s a :
    id_parse s = Ok a ↔ decode_fixed_hex 32 s id_field = Ok (id_bytes a) ∧ id_valid (id_bytes a) = true;
  id_parse_case s : id_parse (to_ascii_lowercase s) = id_parse s;
  id_serialize_spec a : id_serialize a = JString (id_text a);
  id_deserialize_spec v : id_deserialize v = (s ← as_str v; ok (id_parse s));
}.

#[export] Instance merkle_root_id : HexId CapacityMerkleRoot :=
  Build_HexId _ "capacity merkle root" EmptyString merkle_root_bytes (λ _, true) CapacityMerkleRoot_parse_hex CapacityMerkleRoot_to_hex
    CapacityMerkleRoot_serialize CapacityMerkleRoot_deserialize.
#[export] Instance seed_id : HexId CapacitySeed :=
  Build_HexId _ "capacity seed" EmptyString seed_bytes (λ _, true) CapacitySeed_parse_hex CapacitySeed_to_hex CapacitySeed_serialize
    CapacitySeed_deserialize.
#[export] Instance challenge_hex_id : HexId ChallengeId :=
  Build_HexId _ "challenge ID" EmptyString challenge_bytes (λ _, true) ChallengeId_parse_hex ChallengeId_to_hex ChallengeId_serialize
    ChallengeId_deserialize.
#[export] Instance content_hex_id : HexId ContentId :=
  Build_HexId _ "content ID" "0x" content_id_bytes (λ _, true) ContentId_parse_hex ContentId_hex_with_prefix ContentId_serialize
    ContentId_deserialize.
#[export] Instance manifest_hex_id : HexId ManifestId :=
  Build_HexId _ "manifest ID" "0x" manifest_id_bytes (λ _, true) ManifestId_parse_hex ManifestId_hex_with_prefix ManifestId_serialize
    ManifestId_deserialize.
#[export] Instance public_key_hex_id : HexId PublicKey :=
  Build_HexId _ "public_key" EmptyString pk_bytes verifying_key_ok PublicKey_from_hex PublicKey_display PublicKey_serialize
    PublicKey_deserialize.
End ids.

(** The laws of an id type, by its definition. *)
Ltac hex_id_laws defs :=
  constructor; [by (left + right)|done| | |done|done]; cbn; defs;
  [intros s [b]; destruct (decode_fixed_hex _ _ _) as [c|]; cbn; split;
     [by intros [= <-]|by intros [[= <-] _]|done|by intros [? _]]
  |intros s; by rewrite decode_fixed_hex_lowercase].

Section id_laws.
Context {H : HexCrate} {HL : HexLaws H} {E : Ed25519}.

#[export] Instance merkle_root_id_laws : HexIdLaws CapacityMerkleRoot.
Proof. hex_id_laws ltac:(unfold CapacityMerkleRoot_parse_hex). Qed.
#[export] Instance seed_id_laws : HexIdLaws CapacitySeed.
Proof. hex_id_laws ltac:(unfold CapacitySeed_parse_hex). Qed.
#[export] Instance challenge_id_laws : HexIdLaws ChallengeId.
Proof. hex_id_laws ltac:(unfold ChallengeId_parse_hex). Qed.
#[export] Instance content_id_laws : HexIdLaws ContentId.
Proof. hex_id_laws ltac:(unfold ContentId_parse_hex). Qed.
#[export] Instance manifest_id_laws : HexIdLaws ManifestId.
Proof. hex_id_laws ltac:(unfold ManifestId_parse_hex). Qed.
#[export] Instance public_key_id_laws : HexIdLaws PublicKey.
Proof.
  constructor; [by right|done| | |done|done]; cbn; unfold PublicKey_from_hex.
  - intros s [b]. destruct (decode_fixed_hex _ _ _) as [c|]; [|split; [done|by intros [? _]]]. unfold PublicKey_new.
    destruct (verifying_key_ok c) eqn:Hc; split; try done; [by intros [= <-]|by intros [[= <-] _]|].
    intros [[= ->] Hb]. cbn in Hb. congruence.
  - intros s. by rewrite decode_fixed_hex_lowercase.
Qed.

Context {A : Type} {I : HexId A} {L : HexIdLaws A}.

(** The interface gives what every client of an id needs: a valid id is read
    back from its text and its JSON, whatever the letter case and with either
    prefix or none; different ids have different texts; and what is read is
    valid. *)
Theorem hex_ids_read_back (a b : A) (p : string) :
  id_valid (id_bytes a) = true → p = "0x" ∨ p = "0X" ∨ p = EmptyString →
  id_parse (id_text a) = Ok a ∧ id_deserialize (id_serialize a) = Some a ∧
  id_parse (String.append p (hex_encode (id_bytes a))) = Ok a ∧
  (id_text a = id_text b → id_bytes a = id_bytes b) ∧
  (∀ s c, id_parse s = Ok c → id_valid (id_bytes c) = true ∧ id_parse (to_ascii_lowercase s) = Ok c).
Proof.
  intros Hv Hp.
  assert (∀ q, q = "0x" ∨ q = "0X" ∨ q = EmptyString → id_parse (String.append q (hex_encode (id_bytes a))) = Ok a) as Hq.
  { intros q Hq. apply id_parse_spec. split; [by apply (decode_fixed_hex_encode 31)|done]. }
  assert (id_parse (id_text a) = Ok a) as Ht.
  { rewrite id_text_spec. apply Hq. destruct id_prefix_ok; auto. }
  split_and!; [done| |by apply Hq| |].
  - rewrite id_deserialize_spec, id_serialize_spec. cbn. by rewrite Ht.
  - rewrite !id_text_spec. intros He.
    pose proof (decode_fixed_hex_encode 31 (id_bytes a) "id" id_prefix) as Ha.
    pose proof (decode_fixed_hex_encode 31 (id_bytes b) "id" id_prefix) as Hb.
    destruct id_prefix_ok as [Hx|Hx]; rewrite Hx in *;
      (rewrite He in Ha; rewrite Hb in Ha by auto; assert (Ok (id_bytes b) = Ok (id_bytes a)) as [= Hab] by auto; done).
  - intros s c Hs. rewrite id_parse_case. split; [|done]. by apply id_parse_spec in Hs as [_ ?].
Qed.
End id_laws.

(** ** node_identity.rs *)

Record LocalNodeIdentity : Type := mkIdentity {
  consensus_validator_address : option Address;
  capacity_validator_address : option Address;
}.

Record NodeIdentityResponse : Type := mkIdentityResponse {
  ni_consensus_validator_address : option string;
  ni_capacity_validator_address : option string;
  ni_capacity_provider_address : string;
}.

Definition is_configured (i : LocalNodeIdentity) : bool :=
  match consensus_validator_address i with Some _ => true | None => false end.

Definition is_capacity_validator_configured (i : LocalNodeIdentity) : bool :=
  match capacity_validator_address i with Some _ => true | None => false end.

(** A blank name is refused as a missing one. *)
Definition resolve_capacity_validator_wallet_name_from_env (env : option string) : eld_result string :=
  match env with
  | None => Err (InitializationError "capacity_validator")
  | Some raw =>
      let trimmed := trim raw in
      if String.eqb trimmed EmptyString then Err (InitializationError "capacity_validator") else Ok trimmed
  end.

Section identity.
Context {H : HexCrate} {HC : HashCrates} {B : Base64} {E : Ed25519} {SJ : SerdeJson} {J : TxJson}
  {C : RecordCodecs} {Q : QueryJson} {X : Blake3Xof} {SM : SlotJson}.

Definition matches_address (i : LocalNodeIdentity) (other : string) : bool :=
  match consensus_validator_address i with
  | Some addr => matches_str addr other
  | None => false
  end.

Definition from_identity (i : LocalNodeIdentity) (capacity_provider_address : Address) : NodeIdentityResponse :=
  mkIdentityResponse (hex_with_prefix <$> consensus_validator_address i)
    (hex_with_prefix <$> capacity_validator_address i) (hex_with_prefix capacity_provider_address).

Definition capacity_validator_address_from_wallet (wallet : NamedWallet) : Address :=
  wallet_address (nw_wallet wallet).

(** [status] is the validator address of the answer of [/status]. *)
Definition fetch_from_tendermint_status (status : option string) : eld_result LocalNodeIdentity :=
  let? address_raw := ok_or status (NetworkError "fetch_node_identity") in
  match parse_hex_str address_raw with
  | Err _ => Err (NetworkError "fetch_node_identity")
  | Ok consensus_validator_address => Ok (mkIdentity (Some consensus_validator_address) None)
  end.

Definition ensure_identity_from_status (status : option string) (i : LocalNodeIdentity) : LocalNodeIdentity :=
  if is_configured i then i
  else
    match fetch_from_tendermint_status status with
    | Ok fetched => mkIdentity (consensus_validator_address fetched) (capacity_validator_address i)
    | Err _ => i
    end.

(** ** runtime/capacity.rs *)

(** The three files of a provider in a directory. *)
Record CapacityFiles : Type := mkCapacityFiles {
  cf_capacity : option bytes;
  cf_slots : option string;
  cf_content_map : option string;
}.

(** [CapacityManager::new] over the files that are there. *)
Definition CapacityManager_new (provider_id : Address) (files : CapacityFiles) : CapacityManager :=
  mkCapacityManager provider_id None ∅ None false (cf_capacity files) (cf_slots files) (cf_content_map files).

(** Whether this process issues the challenges of the epoch; the two other
    branches of the source differ in their log texts only. *)
Definition should_this_node_send_challenges (local_identity : LocalNodeIdentity) (selected_validator : Address) : bool :=
  if matches_capacity_validator_wallet (capacity_validator_address local_identity) selected_validator then true
  else
    match capacity_validator_address local_identity with
    | Some _ => false
    | None => false
    end.

Record CapacityRuntime : Type := mkCapacityRuntime {
  rt_manager : CapacityManager;
  rt_validator_wallet_name : string;
  rt_local_identity : LocalNodeIdentity;
  rt_tendermint_rpc_url : string;
}.

(** [disk] gives the files of a directory and a provider, [seed] is the one
    drawn when capacity is allocated. *)
Definition init_capacity (node_config : NodeRuntimeConfig) (client_config : ClientConfig) (cli : ChainClient)
    (env : option string) (disk : string → Address → CapacityFiles) (seed : byte_array 32) : option CapacityRuntime :=
  match nr_capacity_size_mb node_config, nr_capacity_storage_path node_config with
  | Some capacity_size_mb, Some capacity_storage_path =>
      match resolve_capacity_validator_wallet_name_from_env env with
      | Err _ => None
      | Ok wallet_name =>
          match cli_wallet_by_name cli wallet_name with
          | Ok (Some wallet) =>
              let provider_id := capacity_validator_address_from_wallet wallet in
              let rpc_url := String.append "http://" (String.append (cl_node_host client_config)
                               (String ":" (cl_node_port client_config))) in
              '(r, manager) ← initialize (CapacityManager_new provider_id (disk capacity_storage_path provider_id));
              match r with
              | Err _ => None
              | Ok _ =>
                  '(r, manager) ← allocate_capacity capacity_size_mb seed manager;
                  match r with
                  | Err _ => None
                  | Ok _ => Some (mkCapacityRuntime manager wallet_name (mkIdentity None (Some provider_id)) rpc_url)
                  end
              end
          | _ => None
          end
      end
  | _, _ => None
  end.

(** *** Lemmas *)

(** The identity keeps the wallet and takes the consensus address once. *)
Lemma ensure_identity_once i status a :
  capacity_validator_address (ensure_identity_from_status status i) = capacity_validator_address i ∧
  (consensus_validator_address i = Some a → ensure_identity_from_status status i = i).
Proof.
  unfold ensure_identity_from_status, is_configured. destruct (consensus_validator_address i) as [c|] eqn:Hc; [done|].
  by destruct (fetch_from_tendermint_status status).
Qed.

(** The files a manager leaves behind. *)
Definition files_of (cm : CapacityManager) : CapacityFiles :=
  mkCapacityFiles (file_capacity cm) (file_slots cm) (file_content_map cm).

Lemma capacity_ok_slots cm : capacity_ok cm → slot_map_exists cm = true.
Proof. intros (m & f & t & Hv). unfold slot_map_exists. by rewrite (view_saved _ _ _ _ Hv). Qed.

(** A node starts with its capacity: with a checked configuration and its
    wallet there, on empty files it allocates what the configuration says for
    the address of the wallet, and on the files of an earlier run it comes up
    with exactly the capacity it had; the wallet it registers with is the owner
    of the slots and its identity as capacity validator. *)
Theorem node_starts_with_capacity {XL : Blake3XofLaws X} {JL : SlotJsonLaws SM} {U : UrlCrate}
    (node_config : NodeRuntimeConfig) (client_config : ClientConfig) (cli : ChainClient) (raw : string)
    (disk : string → Address → CapacityFiles) (seed : byte_array 32) (wallet : NamedWallet) :
  NodeRuntimeConfig_validate node_config = Ok tt → default 0 (nr_capacity_size_mb node_config) < 2 ^ 44 →
  resolve_capacity_validator_wallet_name_from_env (Some raw) = Ok (trim raw) →
  cli_wallet_by_name cli (trim raw) = Ok (Some wallet) →
  let owner := wallet_address (nw_wallet wallet) in
  ∃ mb path, nr_capacity_size_mb node_config = Some mb ∧ nr_capacity_storage_path node_config = Some path ∧
    (disk path owner = mkCapacityFiles None None None →
     ∃ rt, init_capacity node_config client_config cli (Some raw) disk seed = Some rt ∧ capacity_ok (rt_manager rt) ∧
       cm_initialized (rt_manager rt) = true ∧ cm_provider_id (rt_manager rt) = owner ∧
       Z.of_nat (length (slots_of (rt_manager rt))) = mb * 1024 ∧
       matches_capacity_validator_wallet (capacity_validator_address (rt_local_identity rt)) owner = true) ∧
    (∀ cm, capacity_ok cm → cm_provider_id cm = owner → disk path owner = files_of cm →
     ∃ rt, init_capacity node_config client_config cli (Some raw) disk seed = Some rt ∧
       rt_manager rt = set_initialized true cm).
Proof.
  intros Hv Hmb Hname Hwallet owner. unfold NodeRuntimeConfig_validate in Hv.
  destruct (match nr_p2p_tcp_port node_config with Some p => _ | None => _ end); [|done].
  destruct (match nr_p2p_udp_port node_config with Some p => _ | None => _ end); [|done].
  destruct (nr_capacity_size_mb node_config) as [mb|] eqn:Emb; [|done].
  destruct (Z.ltb_spec 0 mb) as [Hpos|]; [|done].
  destruct (nr_capacity_storage_path node_config) as [path|] eqn:Epath; [|done].
  exists mb, path. split; [done|]. split; [done|]. cbn in Hmb. unfold init_capacity.
  rewrite Emb, Epath, Hname, Hwallet. fold owner. unfold capacity_validator_address_from_wallet. fold owner. split.
  - intros Hd. rewrite Hd. unfold initialize, CapacityManager_new, slot_map_exists. cbn [cm_initialized file_slots cf_slots].
    cbn [mbind option_bind].
    match goal with |- context [allocate_capacity _ _ ?s] => set (s0 := s) end.
    destruct (allocate_mb_run mb seed s0) as (root & s' & Hrun & Hok & _ & _ & Hlen & Hp & Hi); [lia|done..|].
    rewrite Hrun. cbn [mbind option_bind]. eexists. split; [reflexivity|]. cbn [rt_manager rt_local_identity].
    split_and!; try done. cbn. by apply bool_decide_eq_true.
  - intros cm Hok Hp Hd. rewrite Hd.
    assert (CapacityManager_new owner (files_of cm) = reopened cm) as ->.
    { unfold CapacityManager_new, reopened. by rewrite Hp. }
    rewrite (restart_capacity cm Hok). cbn [mbind option_bind]. unfold allocate_capacity.
    assert (slot_map_exists (set_initialized true cm) = true) as -> by by apply (capacity_ok_slots cm).
    cbn [mbind option_bind]. eexists. by split.
Qed.

(** Exactly the process whose wallet was selected issues challenges, so two
    processes with different wallets never both do. *)
Lemma challenges_from_selected_wallet (local other : LocalNodeIdentity) (selected : Address) :
  (should_this_node_send_challenges local selected = true ↔ capacity_validator_address local = Some selected) ∧
  (should_this_node_send_challenges local selected = true → should_this_node_send_challenges other selected = true →
   capacity_validator_address local = capacity_validator_address other).
Proof.
  assert (∀ i, should_this_node_send_challenges i selected = true ↔ capacity_validator_address i = Some selected) as Hs.
  { intros i. unfold should_this_node_send_challenges, matches_capacity_validator_wallet.
    destruct (capacity_validator_address i) as [a|]; [|done]. case_bool_decide; naive_solver. }
  split; [apply Hs|]. intros E1%Hs E2%Hs. congruence.
Qed.
End identity.
