(* ===== verification/Constants.v ===== *)
(** The protocol constants of a node over its life: [install_protocol_constants]
    and the whole [init_chain] handler of
    node_app/src/abci_interface/consensus/init_chain.rs, the stored row of
    storage/rocksdb/mod.rs, and the start of a process in
    node_app/src/runtime/mod.rs, composed with [commit] and [init_abci_server].

    The constants are written once per process, into the [ProtocolHandle] of
    [Fee.v]; the row outlives the process.  Every handler reads the handle
    through [protocol_constants], which stops a node that has none.  A call of
    [handle_fatal_eld_error] is [None]. *)
From S2P Require Import Prelude Externals Reference Coins Address Ordering Namespace Cado Records Tx TxCodes Merkle Wire Validation TxTyped UserPost F64 Fee Pinboard AppState Ledger Processors VerifiedProof Deliver Epoch Storage Snapshot Commit Slots Capacity Feed Gc Sync Mempool Restart AbciLimits AbciQuery Config Genesis.

#[export] Instance ProtocolFees_eq_dec : EqDecision ProtocolFees.
Proof. solve_decision. Defined.
#[export] Instance ProtocolConstants_eq_dec : EqDecision ProtocolConstants.
Proof. solve_decision. Defined.

(** The default fees, with each decimal literal as the quotient it rounds. *)
Definition FeeConfig_default : FeeConfig :=
  mkFeeConfig 1000 100 1 (f64_of_Z 1) (f64_div (f64_of_Z 15) (f64_of_Z 10)) (f64_div (f64_of_Z 25) (f64_of_Z 10))
    (f64_of_Z 2) (f64_div (f64_of_Z 18) (f64_of_Z 10)).

(** The row of the constants in the column family [default]. *)
Definition ConstantsRow : Type := option bytes.
Definition put_protocol_constants (b : bytes) (row : ConstantsRow) : eld_result ConstantsRow := Ok (Some b).
Definition get_protocol_constants (row : ConstantsRow) : eld_result (option bytes) := Ok row.

(** What outlives a process and what does not. *)
Record NodeProcess : Type := mkNodeProcess {
  nd_db : Database;
  nd_row : ConstantsRow;
  nd_protocol : ProtocolHandle;
  nd_fees : FeeConfig;
  nd_committed : AppState;
}.

Section constants.
Context {H : HexCrate} {HC : HashCrates} {C : RecordCodecs} {R : RandCrate} {T : TrieCrate} {SC : SnapshotCodecs}
  {E : Ed25519}.
(** The [serde_json] parse of [GenesisAppState]. *)
Variable genesis_from_json : bytes → option ProtocolConstants.

(** [ConsensusConnection::protocol_constants] *)
Definition protocol_constants (h : ProtocolHandle) : option ProtocolConstants := ProtocolHandle_get h.

(** [protocol.set] where a second writer is fatal. *)
Definition set_or_stop (h : ProtocolHandle) (c : ProtocolConstants) : option ProtocolHandle :=
  match ProtocolHandle_set h c with
  | (Ok _, h) => Some h
  | (Err _, _) => None
  end.

Definition install_protocol_constants (app_state_bytes : bytes) (row : ConstantsRow) (h : ProtocolHandle) :
    option (ConstantsRow * ProtocolHandle) :=
  if bool_decide (app_state_bytes = []) then
    if bool_decide (is_Some (ProtocolHandle_get h)) then Some (row, h) else None
  else
    parsed ← ok (from_app_state_bytes genesis_from_json app_state_bytes);
    match ProtocolHandle_get h with
    | Some existing => if bool_decide (existing = parsed) then Some (row, h) else None
    | None =>
        row ← ok (put_protocol_constants app_state_bytes row);
        h ← set_or_stop h parsed;
        Some (row, h)
    end.

(** The request of [InitChain]. *)
Record InitChainRequest : Type := mkInitChain {
  ic_chain_id : string;
  ic_app_state_bytes : bytes;
  ic_validators : list GenesisValidator;
}.

(** The whole handler: the chain ids are compared before the constants are
    installed, and the rest runs with the installed constants. *)
Definition init_chain_handler (cfg : ConsensusConfig) (r : InitChainRequest) (n : NodeProcess) : option NodeProcess :=
  if negb (String.eqb (ic_chain_id r) (cc_chain cfg)) then None
  else
    '(row, h) ← install_protocol_constants (ic_app_state_bytes r) (nd_row n) (nd_protocol n);
    constants ← protocol_constants h;
    s ← init_chain constants (cc_chain cfg) (ic_chain_id r) (ic_validators r) (nd_committed n);
    Some (mkNodeProcess (nd_db n) row h (nd_fees n) s).

Definition load_protocol_constants_on_restart (db : Database) (row : ConstantsRow) (h : ProtocolHandle) :
    option ProtocolHandle :=
  has_persisted_state ← ok (has_persisted_app_state_tip db);
  if negb has_persisted_state then Some h
  else
    found ← ok (get_protocol_constants row);
    b ← found;
    constants ← ok (from_app_state_bytes genesis_from_json b);
    set_or_stop h constants.

(** The fees the client of the process is built with. *)
Definition startup_fee_config (h : ProtocolHandle) : FeeConfig :=
  match ProtocolHandle_get h with
  | Some constants => fee_config constants
  | None => FeeConfig_default
  end.

(** The start of a process on what an earlier one left: a new handle, the
    stored constants, the client, then the committed state.  [None] is a
    process that stops, [Some (Err _)] one that returns the error. *)
Definition start_process (cfg : ConsensusConfig) (accounts : list (string * Account)) (init_data : bool)
    (blank : AppState) (db : Database) (row : ConstantsRow) : option (eld_result NodeProcess) :=
  h ← load_protocol_constants_on_restart db row ProtocolHandle_new;
  match init_abci_server cfg accounts db init_data blank with
  | None => None
  | Some (Err e) => Some (Err e)
  | Some (Ok (s, _)) => Some (Ok (mkNodeProcess db row h (startup_fee_config h) s))
  end.

(** A commit reads the constants and replaces database and committed state. *)
Definition commit_handler (current : option AppState) (n : NodeProcess) : option (NodeProcess * bytes) :=
  constants ← protocol_constants (nd_protocol n);
  '(s, db, out) ← commit constants (nd_db n) current;
  Some (mkNodeProcess db (nd_row n) (nd_protocol n) (nd_fees n) s, out).

(** ** The life of a node *)

Context (cfg : ConsensusConfig) (blank : AppState).

(** One event: an [InitChain], whatever it asks; the commit of a delivered
    block; the end of the process at any moment and a new start. *)
Inductive life_step : NodeProcess → NodeProcess → Prop :=
| life_init_chain r n n' : init_chain_handler cfg r n = Some n' → life_step n n'
| life_commit s hash n n' out :
    commit_ready (nd_db n) s → app_hash s = Some hash →
    commit_handler (Some s) n = Some (n', out) →
    readable_size Cado_AppStateTip (tip_of (nd_committed n') hash) →
    life_step n n'
| life_restart accounts init_data n n' :
    start_process cfg accounts init_data blank (nd_db n) (nd_row n) = Some (Ok n') →
    life_step n n'.

Definition life : NodeProcess → NodeProcess → Prop := rtc life_step.

(** A node that has never run. *)
Definition first_start (n : NodeProcess) : Prop :=
  ∃ accounts init_data db,
    has_persisted_app_state_tip db = Ok false ∧
    start_process cfg accounts init_data blank db None = Some (Ok n).

(** A block has been committed. *)
Definition has_tip (n : NodeProcess) : Prop := has_persisted_app_state_tip (nd_db n) = Ok true.

(** The handle is what the row holds, and a committed chain has constants. *)
Definition constants_ok (n : NodeProcess) : Prop :=
  (∀ c, nd_protocol n = Some c →
     ∃ b, nd_row n = Some b ∧ from_app_state_bytes genesis_from_json b = Ok c) ∧
  (has_tip n → is_Some (nd_protocol n)).
End constants.

(** ** Lemmas *)

Section constants_facts.
Context {H : HexCrate} {HL : HexLaws H} {HC : HashCrates} {C : RecordCodecs} {CL : RecordCodecsLaws C}
  {R : RandCrate} {T : TrieCrate} {SC : SnapshotCodecs} {SL : SnapshotCodecsLaws SC} {E : Ed25519}.
Context (genesis_from_json : bytes → option ProtocolConstants) (cfg : ConsensusConfig) (blank : AppState).

Abbreviation parse := (from_app_state_bytes genesis_from_json).
Abbreviation install := (install_protocol_constants genesis_from_json).
Abbreviation load := (load_protocol_constants_on_restart genesis_from_json).
Abbreviation step := (life_step genesis_from_json cfg blank).
Abbreviation constants_ok := (constants_ok genesis_from_json).

(** Constants that were read have passed validation. *)
Lemma from_app_state_bytes_valid b c : parse b = Ok c → b ≠ [] ∧ ProtocolConstants_validate c = Ok tt.
Proof.
  unfold from_app_state_bytes. destruct b; [done|]. destruct (genesis_from_json _) as [c'|]; [|done]. cbn [ok_or].
  destruct (ProtocolConstants_validate c') as [[]|] eqn:Ev; [|done]. intros [= <-]. done.
Qed.

(** What an [InitChain] does to the constants: a node that has them keeps them
    and their row, a node that has none gets those of the request. *)
Lemma install_outcome b row h row' h' :
  install b row h = Some (row', h') →
  (is_Some h ∧ row' = row ∧ h' = h) ∨ (∃ c, h = None ∧ parse b = Ok c ∧ row' = Some b ∧ h' = Some c).
Proof.
  unfold install_protocol_constants, ProtocolHandle_get. case_bool_decide.
  { case_bool_decide; [|done]. intros [= <- <-]. by left. }
  destruct (parse b) as [c|] eqn:Ep; [|done]. cbn [ok mbind option_bind].
  destruct h as [c'|]; [case_bool_decide; [|done]|]; intros [= <- <-]; [left; eauto|right; eauto].
Qed.

Lemma install_fresh b row c : parse b = Ok c → install b row None = Some (Some b, Some c).
Proof.
  intros Ep. pose proof (from_app_state_bytes_valid b c Ep) as [Hb _]. unfold install_protocol_constants.
  by rewrite bool_decide_false, Ep.
Qed.

Lemma load_without_tip db row h : has_persisted_app_state_tip db = Ok false → load db row h = Some h.
Proof. intros Ht. unfold load_protocol_constants_on_restart. by rewrite Ht. Qed.

Lemma load_with_tip db b c :
  has_persisted_app_state_tip db = Ok true → parse b = Ok c → load db (Some b) ProtocolHandle_new = Some (Some c).
Proof. intros Ht Ep. unfold load_protocol_constants_on_restart. rewrite Ht. cbn. by rewrite Ep. Qed.

(** A handle loaded from a row holds what the row holds. *)
Lemma load_outcome db row h :
  load db row ProtocolHandle_new = Some h →
  (has_persisted_app_state_tip db = Ok false ∧ h = None) ∨
  (has_persisted_app_state_tip db = Ok true ∧ ∃ b c, row = Some b ∧ parse b = Ok c ∧ h = Some c).
Proof.
  unfold load_protocol_constants_on_restart. destruct (has_persisted_app_state_tip db) as [[]|]; [| |done].
  - destruct row as [b|]; [|done]. cbn. destruct (parse b) as [c|] eqn:Ep; [|done]. intros [= <-]. right. eauto 6.
  - intros [= <-]. by left.
Qed.

(** A start keeps what is stored and loads the constants of it. *)
Lemma start_process_inv accounts init_data db row n :
  start_process genesis_from_json cfg accounts init_data blank db row = Some (Ok n) →
  nd_db n = db ∧ nd_row n = row ∧ load db row ProtocolHandle_new = Some (nd_protocol n) ∧
  nd_fees n = startup_fee_config (nd_protocol n).
Proof.
  unfold start_process. destruct (load _ _ _) as [h|]; [|done]. cbn [mbind option_bind].
  destruct (init_abci_server _ _ _ _ _) as [[[s t]|]|]; [|done..]. intros [= <-]. done.
Qed.

Lemma init_chain_handler_inv r n n' :
  init_chain_handler genesis_from_json cfg r n = Some n' →
  nd_db n' = nd_db n ∧
  install (ic_app_state_bytes r) (nd_row n) (nd_protocol n) = Some (nd_row n', nd_protocol n').
Proof.
  unfold init_chain_handler. destruct (negb _); [done|].
  destruct (install _ _ _) as [[row h]|]; [|done]. cbn [mbind option_bind].
  destruct (protocol_constants h) as [c|]; [|done]. cbn [mbind option_bind].
  destruct (init_chain _ _ _ _ _) as [s|]; [|done]. intros [= <-]. done.
Qed.

Lemma commit_handler_inv s n n' out :
  commit_handler s n = Some (n', out) →
  ∃ c, nd_protocol n = Some c ∧ commit c (nd_db n) s = Some (nd_committed n', nd_db n', out) ∧
    nd_row n' = nd_row n ∧ nd_protocol n' = nd_protocol n.
Proof.
  unfold commit_handler. destruct (nd_protocol n) as [c|] eqn:Ec; [|done]. cbn [protocol_constants ProtocolHandle_get mbind option_bind].
  destruct (commit c (nd_db n) s) as [[[s' db] o]|] eqn:Em; [|done]. intros [= <- <-]. by exists c.
Qed.

Lemma commit_handler_run s n c s' db out :
  nd_protocol n = Some c → commit c (nd_db n) s = Some (s', db, out) →
  commit_handler s n = Some (mkNodeProcess db (nd_row n) (nd_protocol n) (nd_fees n) s', out).
Proof. intros Hp Hc. unfold commit_handler, protocol_constants, ProtocolHandle_get. rewrite Hp. cbn. by rewrite Hc. Qed.

(** A committed block leaves a tip a restart finds. *)
Lemma commit_leaves_tip c db s hash s' db' out :
  types_separated → commit_ready db s → app_hash s = Some hash →
  commit c db (Some s) = Some (s', db', out) → readable_size Cado_AppStateTip (tip_of s' hash) →
  has_persisted_app_state_tip db' = Ok true.
Proof.
  intros Hsep Hr Eh Ec Hfit. destruct (commit_then_reads c db s hash s' db' out Hr Eh Hsep Ec Hfit) as (_ & _ & _ & Et & _).
  unfold has_persisted_app_state_tip. destruct restart_paths as [-> _]. unfold get_deserialized_cado_by_path in Et.
  destruct (db_get_cado_by_path db' _) as [[cado|]|]; [|done..].
  rewrite bool_decide_true by (by eexists). done.
Qed.

(** ** The invariant *)

Lemma first_start_ok n : first_start genesis_from_json cfg blank n → constants_ok n ∧ nd_protocol n = None.
Proof.
  intros (accounts & init_data & db & Ht & (E1 & E2 & E3 & _)%start_process_inv).
  rewrite load_without_tip in E3 by done. injection E3 as E3. split; [|done]. split.
  - intros c Hc. by rewrite <- E3 in Hc.
  - unfold has_tip. by rewrite E1, Ht.
Qed.

(** A step keeps the invariant, and on a committed chain it keeps tip,
    constants and row. *)
Lemma life_step_ok n n' :
  types_separated → step n n' → constants_ok n →
  constants_ok n' ∧ (has_tip n → has_tip n' ∧ nd_protocol n' = nd_protocol n ∧ nd_row n' = nd_row n).
Proof.
  intros Hsep Hstep [Hrow Htip]. unfold has_tip in *.
  destruct Hstep as [r n n' [Ed Hi]%init_chain_handler_inv|s hash n n' out Hr Eh (c & Ec & Hc & Er & Ep)%commit_handler_inv Hfit|
    accounts init_data n n' (Ed & Er & Hl & _)%start_process_inv].
  - apply install_outcome in Hi as [(Hh & Er & Ep)|(c & Eh & Hb & Er & Ep)].
    + rewrite Ed. split; [|auto]. split; [by rewrite Er, Ep|]. by rewrite Ep.
    + split.
      * split; [|rewrite Ep; by eauto]. intros c' [= <-]%(eq_trans (eq_sym Ep)). eauto.
      * intros Ht. apply Htip in Ht. rewrite Eh in Ht. by destruct Ht.
  - assert (has_persisted_app_state_tip (nd_db n') = Ok true) as Ht by by eapply commit_leaves_tip.
    split; [|done]. split; [by rewrite Er, Ep|]. rewrite Ep, Ec. by eauto.
  - apply load_outcome in Hl as [[Ht Ep]|(Ht & b & c & Eb & Hb & Ep)].
    + split; [|by rewrite Ht]. split; [by rewrite Ep|]. unfold has_tip. by rewrite Ed, Ht.
    + rewrite Ed. split.
      * split; [|rewrite Ep; by eauto]. intros c' [= <-]%(eq_trans (eq_sym Ep)). rewrite Er. eauto.
      * intros _. split; [done|]. split; [|done]. rewrite Ep. destruct (Htip Ht) as [c' Hc']. rewrite Hc'.
        destruct (Hrow c' Hc') as (b' & Eb' & Hb'). congruence.
Qed.

Lemma life_ok n n' : types_separated → life genesis_from_json cfg blank n n' → constants_ok n → constants_ok n'.
Proof. intros Hsep Hl. induction Hl as [|x y z Hs _ IH]; [done|]. intros Hok. apply IH. by eapply life_step_ok. Qed.

Lemma life_keeps n n' :
  types_separated → life genesis_from_json cfg blank n n' → constants_ok n → has_tip n →
  has_tip n' ∧ nd_protocol n' = nd_protocol n ∧ nd_row n' = nd_row n.
Proof.
  intros Hsep Hl. induction Hl as [|x y z Hs _ IH]; [done|]. intros Hok Ht.
  destruct (life_step_ok x y Hsep Hs Hok) as [Hok' (Ht' & E1 & E2)%(λ f, f Ht)].
  destruct (IH Hok' Ht') as (? & ? & ?). split_and!; congruence.
Qed.

(** The first [InitChain] of a node, with its own chain id and constants that
    are read, always succeeds and installs them, whatever its validators. *)
Lemma first_init_chain_runs r n c :
  nd_protocol n = None → ic_chain_id r = cc_chain cfg → parse (ic_app_state_bytes r) = Ok c →
  ∃ n', init_chain_handler genesis_from_json cfg r n = Some n' ∧
    nd_protocol n' = Some c ∧ nd_row n' = Some (ic_app_state_bytes r).
Proof.
  intros Hn Hid Hp. unfold init_chain_handler. rewrite Hid, String.eqb_refl, Hn, (install_fresh _ _ c) by done.
  cbn [negb mbind option_bind protocol_constants ProtocolHandle_get].
  destruct (init_chain_keeps c (cc_chain cfg) (ic_validators r) (nd_committed n)) as (s & -> & _). by eexists.
Qed.

(** Without an [InitChain] a node has no constants: it commits nothing, and it
    does not start on a database that has a tip, such as one copied from
    another node without the row. *)
Lemma no_constants_no_commit s n : nd_protocol n = None → commit_handler s n = None.
Proof. intros Hn. unfold commit_handler. by rewrite Hn. Qed.

Lemma tip_without_row_stops accounts init_data db :
  has_persisted_app_state_tip db = Ok true →
  start_process genesis_from_json cfg accounts init_data blank db None = None.
Proof. intros Ht. unfold start_process, load_protocol_constants_on_restart. by rewrite Ht. Qed.

(** ** Properties *)

(** C20. The protocol constants are fixed for the life of a chain: over any
    sequence of [InitChain] requests, commits and process restarts that starts
    from a node that never ran, as soon as a block is committed the node has
    constants that passed validation, every later state has the same ones, a
    later process reads them back from the stored row, and an [InitChain] that
    names other constants is refused. *)
Theorem constants_fixed_for_chain (n0 n n' : NodeProcess) :
  types_separated → first_start genesis_from_json cfg blank n0 →
  life genesis_from_json cfg blank n0 n → has_tip n → life genesis_from_json cfg blank n n' →
  ∃ c b, nd_protocol n = Some c ∧ nd_protocol n' = Some c ∧ ProtocolConstants_validate c = Ok tt ∧
    nd_row n' = Some b ∧ parse b = Ok c ∧
    load (nd_db n') (nd_row n') ProtocolHandle_new = Some (Some c) ∧
    ∀ r n'', init_chain_handler genesis_from_json cfg r n' = Some n'' →
      ic_app_state_bytes r = [] ∨ parse (ic_app_state_bytes r) = Ok c.
Proof.
  intros Hsep [Hok _]%first_start_ok Hl Ht Hl'. pose proof (life_ok _ _ Hsep Hl Hok) as Hn.
  destruct (life_keeps _ _ Hsep Hl' Hn Ht) as (Ht' & E1 & E2).
  destruct Hn as [Hrow (c & Hc)%(λ f, f Ht)]. destruct (Hrow c Hc) as (b & Hb & Hp).
  exists c, b. rewrite E1, E2, Hb. do 2 (split; [done|]). split; [by eapply from_app_state_bytes_valid|].
  split; [done|]. split; [done|]. split; [by apply load_with_tip|].
  intros r n'' [_ Hi]%init_chain_handler_inv. revert Hi. rewrite E1, Hc. unfold install_protocol_constants.
  case_bool_decide; [by left|]. destruct (parse (ic_app_state_bytes r)) as [c'|]; [|done].
  cbn [ok mbind option_bind ProtocolHandle_get]. case_bool_decide as Ec; [|done]. intros _. right. by rewrite Ec.
Qed.
End constants_facts.

(** ** Witnesses *)

(** A parser of one fixed genesis file. *)
Definition test_genesis_json (b : bytes) : option ProtocolConstants :=
  if bool_decide (b = [Init.Byte.x01]) then Some local_dev else None.

(** The defaults are the fees of the local development chain. *)
Example default_fees_are_local_dev : FeeConfig_default = fee_config local_dev.
Proof. vm_compute. reflexivity. Qed.

Section test_life.
#[local] Hint Extern 0 SnapshotCodecs => exact (test_restart_codecs 20) : typeclass_instances.
#[local] Hint Extern 0 (SnapshotCodecsLaws _) => exact (test_restart_laws 20) : typeclass_instances.
#[local] Hint Extern 0 TrieCrate => exact ref_trie : typeclass_instances.

Definition test_init_chain : InitChainRequest :=
  mkInitChain "eld-local" [Init.Byte.x01] [mkGenesisValidator (Some (vec_to_list test_key)) 10].

Lemma test_genesis_parsed : from_app_state_bytes test_genesis_json [Init.Byte.x01] = Ok local_dev.
Proof. vm_compute. reflexivity. Qed.

(** A node that starts for the first time. *)
Lemma test_first_start :
  ∃ n, first_start test_genesis_json test_genesis_config test_restarted n ∧ nd_db n = empty_database ∧
    nd_protocol n = None ∧ nd_row n = None.
Proof.
  assert (match start_process test_genesis_json test_genesis_config (map_to_list (cc_accounts test_genesis_config))
            false test_restarted empty_database None with Some (Ok _) => true | _ => false end = true) as Hs
    by (vm_compute; reflexivity).
  destruct (start_process _ _ _ _ _ _ _) as [[n|]|] eqn:En; [|done..]. exists n.
  assert (has_persisted_app_state_tip empty_database = Ok false) as Ht by (vm_compute; reflexivity). split.
  - do 3 eexists. split; [exact Ht|exact En].
  - apply start_process_inv in En as (E1 & E2 & E3 & _). rewrite load_without_tip in E3 by exact Ht.
    injection E3 as E3. done.
Qed.

(** A process that starts on the database of a committed epoch start. *)
Lemma test_restart_runs s' db' out :
  commit local_dev empty_database (Some (test_block 20)) = Some (s', db', out) →
  readable_size Cado_AppStateTip (tip_of s' test_key) →
  readable_size Cado_AppStateSnapshot (snapshot_of s' test_key) →
  has_persisted_app_state_tip db' = Ok true ∧
  ∃ n, start_process test_genesis_json test_genesis_config [] false test_restarted db' (Some [Init.Byte.x01]) =
    Some (Ok n).
Proof.
  intros Ec F1 F2.
  assert (has_persisted_app_state_tip db' = Ok true) as Ht
    by exact (commit_leaves_tip _ _ _ _ _ _ _ ref_types_separated (test_block_ready 20) eq_refl Ec F1).
  split; [exact Ht|].
  destruct (commit_then_reads local_dev empty_database (test_block 20) test_key s' db' out (test_block_ready 20)
    eq_refl ref_types_separated Ec F1) as (Eh & _ & Htr & Et & Hs).
  change (snapshot_due local_dev (test_block 20)) with true in Hs.
  unfold start_process. rewrite (load_with_tip test_genesis_json db' [Init.Byte.x01] local_dev Ht test_genesis_parsed).
  cbn [mbind option_bind]. unfold init_abci_server. rewrite Ht. cbn [negb andb].
  match goal with |- context [initialize_with_data db' ?s0] =>
    destruct (restart_run db' s' test_key s0 Eh (Htr (test_block_trie 20)) Et (Hs F2)) as (r & -> & _) end.
  by eexists.
Qed.

(** The first [InitChain]. *)
Lemma test_init_chain_runs n0 :
  nd_db n0 = empty_database → nd_protocol n0 = None →
  ∃ n1, life_step test_genesis_json test_genesis_config test_restarted n0 n1 ∧ nd_db n1 = empty_database ∧
    nd_protocol n1 = Some local_dev ∧ nd_row n1 = Some [Init.Byte.x01].
Proof.
  intros Ed Ep. destruct (first_init_chain_runs test_genesis_json test_genesis_config test_init_chain n0 local_dev)
    as (n1 & E1 & P1 & R1); [exact Ep|reflexivity|exact test_genesis_parsed|].
  pose proof (init_chain_handler_inv _ _ _ _ _ E1) as [D1 _]. exists n1.
  split; [by eapply life_init_chain|]. split; [by rewrite D1|]. split; [exact P1|exact R1].
Qed.

(** The commit of a block. *)
Lemma test_commit_runs n1 s' db' out :
  nd_db n1 = empty_database → nd_protocol n1 = Some local_dev →
  commit local_dev empty_database (Some (test_block 20)) = Some (s', db', out) →
  readable_size Cado_AppStateTip (tip_of s' test_key) →
  ∃ n2, life_step test_genesis_json test_genesis_config test_restarted n1 n2 ∧ nd_db n2 = db' ∧ nd_row n2 = nd_row n1.
Proof.
  intros D1 P1 Ec F1. exists (mkNodeProcess db' (nd_row n1) (nd_protocol n1) (nd_fees n1) s').
  split; [|done]. apply (life_commit _ _ _ (test_block 20) test_key n1 _ out).
  - rewrite D1. apply (test_block_ready 20).
  - reflexivity.
  - apply (commit_handler_run _ _ local_dev); [exact P1|]. rewrite D1. exact Ec.
  - exact F1.
Qed.

(** First start, [InitChain], commit of a block, restart. *)
Lemma test_life :
  ∃ n0 n n', first_start test_genesis_json test_genesis_config test_restarted n0 ∧
    life test_genesis_json test_genesis_config test_restarted n0 n ∧ has_tip n ∧
    life test_genesis_json test_genesis_config test_restarted n n' ∧ nd_row n = Some [Init.Byte.x01].
Proof.
  destruct test_first_start as (n0 & H0 & Ed & Ep & _).
  destruct (test_init_chain_runs n0 Ed Ep) as (n1 & S1 & D1 & P1 & R1).
  destruct (test_block_commits 20 ltac:(by left)) as (s' & db' & out & Ec & F1 & F2 & _).
  destruct (test_restart_runs s' db' out Ec F1 F2) as (Ht & n' & En).
  destruct (test_commit_runs n1 s' db' out D1 P1 Ec F1) as (n2 & S2 & D2 & R2). rewrite R1 in R2.
  exists n0, n2, n'. split; [exact H0|]. split; [by eapply rtc_l, rtc_once|].
  split; [unfold has_tip; rewrite D2; exact Ht|]. split; [|exact R2].
  apply rtc_once, (life_restart _ _ _ [] false). rewrite D2, R2. exact En.
Qed.

Lemma constants_fixed_for_chain_witness :
  ∃ n n', life test_genesis_json test_genesis_config test_restarted n n' ∧
    nd_protocol n = Some local_dev ∧ nd_protocol n' = Some local_dev.
Proof.
  destruct test_life as (n0 & n & n' & H0 & H1 & Ht & H2 & Er).
  destruct (constants_fixed_for_chain test_genesis_json test_genesis_config test_restarted n0 n n'
    ref_types_separated H0 H1 Ht H2) as (c & b & E1 & E2 & _ & Eb & Ep & _).
  destruct (constants_fixed_for_chain test_genesis_json test_genesis_config test_restarted n0 n n
    ref_types_separated H0 H1 Ht (rtc_refl _ _)) as (c2 & b2 & E3 & _ & _ & Eb2 & Ep2 & _).
  rewrite Er in Eb2. injection Eb2 as <-. vm_compute in Ep2. injection Ep2 as <-.
  rewrite E3 in E1. injection E1 as <-. exists n, n'. split; [exact H2|]. split; [exact E3|exact E2].
Defined.
End test_life.
