(* ===== verification/ClientRest.v ===== *)
(** The client of the REST interface: client/src/api/rest/app.rs and faucet.rs,
    the pinboard flows of client/src/facade/pinboard.rs, and the routes of the
    node they reach (node_app/src/api/mod.rs, cado.rs), over the handlers of
    [PinboardApi.v] and [RestReads.v].

    A client function makes one request and reads one reply; the transport is
    an argument.  The JSON texts, the percent-encoding and the router are
    classes with their documented laws.  The client puts an error body into the details of its
    error, which are dropped. *)
From S2P Require Import Prelude Externals Reference Coins Address Ordering Namespace Cado Records Tx TxCodes Merkle Wire Validation TxTyped UserPost Fee Pinboard AppState Ledger Processors VerifiedProof Deliver Epoch Storage Snapshot Commit Slots Capacity Feed Sync Mempool Exchange Paging Prefix Indexer RestApi RestReads PinboardApi PinboardFlow AbciLimits AbciQuery Wallets Client ClientFlow Config.

(** ** Messages *)

Record HttpRequest : Type := mkHttpRequest {
  rq_post : bool;
  rq_url : string;
  rq_body : option string;
}.

(** A reply, or none; a body that cannot be read is [None]. *)
Inductive HttpReply : Type :=
| HttpFailed
| HttpStatus (status : Z) (body : option string).

Definition is_success (status : Z) : bool := (200 <=? status) && (status <? 300).

(** [NamespaceRegisteredResponse] and [NamespaceNotRegisteredResponse] *)
Record NamespaceRegisteredResponse : Type := mkRegistered {
  rg_registered : bool;
  rg_item : NamespaceItem;
}.

Record NamespaceNotRegisteredResponse : Type := mkNotRegistered {
  nn_registered : bool;
  nn_namespace_slug : string;
}.

(** The body of an error; its details and time are not modelled. *)
Record ApiErrorResponse : Type := mkApiErrorResponse {
  ae_code : string;
  ae_message : string;
}.

Record PinboardMessageParams : Type := mkMessageParams {
  mp_wallet_name : string;
  mp_file_path : string;
  mp_input : PostMessageUserRequestInput;
}.

(** The JSON texts both sides write and read. *)
Class RestJson : Type := {
  submit_request_json : PostMessageSubmitRequest → string;
  submit_request_of : string → option PostMessageSubmitRequest;
  submit_response_json : PostMessageSubmitResponse → string;
  submit_response_of : string → option PostMessageSubmitResponse;
  registered_json : NamespaceRegisteredResponse → string;
  registered_of : string → option NamespaceRegisteredResponse;
  not_registered_json : NamespaceNotRegisteredResponse → string;
  not_registered_of : string → option NamespaceNotRegisteredResponse;
  cado_option_json : option CadoBody → string;
  cado_option_of : string → option (option CadoBody);
  post_item_json : PinboardRestPostItem → string;
  api_error_json : ApiErrorResponse → string;
  faucet_request_json : string → string;
}.

Class RestJsonLaws (J : RestJson) : Prop := {
  submit_request_roundtrip x : submit_request_of (submit_request_json x) = Some x;
  submit_response_roundtrip x : submit_response_of (submit_response_json x) = Some x;
  registered_roundtrip x : registered_of (registered_json x) = Some x;
  not_registered_roundtrip x : not_registered_of (not_registered_json x) = Some x;
  cado_option_roundtrip x : cado_option_of (cado_option_json x) = Some x;
}.

(** [urlencoding::encode] and the decoding of the server: every character but
    letters, digits and four marks is escaped. *)
Class UrlEncoding : Type := {
  url_encode : string → string;
  url_decode : string → option string;
}.

Definition url_safe (c : ascii) : bool :=
  is_ascii_alphanumeric c || Ascii.eqb c "-" || Ascii.eqb c "." || Ascii.eqb c "_" || Ascii.eqb c "~" || Ascii.eqb c "%".

Class UrlEncodingLaws (U : UrlEncoding) : Prop := {
  url_roundtrip s : url_decode (url_encode s) = Some s;
  url_encode_safe s : string_all url_safe (url_encode s) = true;
  url_encode_empty s : url_encode s = EmptyString → s = EmptyString;
}.

(** ** The routes of the node *)

Inductive Endpoint : Type :=
| EpHealth | EpNodeIdentity | EpPinboardSubmit | EpPinboardPosts | EpPinboardPost | EpNamespaces
| EpNamespace (slug : string) | EpAdminStatus | EpTransactions | EpTransaction | EpEvents | EpRewardsSum
| EpRewards (address : string) | EpEpochs | EpEpochCurrent | EpEpochHeight | EpEpoch (epoch : string)
| EpSlotAllocation | EpCado (cado_path : string).

(** A segment of a route: a text, or a parameter that matches one segment. *)
Inductive RouteSegment : Type := Lit (s : string) | Param.

Definition routes : list (bool * list RouteSegment * (list string → option Endpoint)) :=
  let plain e := λ _ : list string, Some e in
  let param (f : string → Endpoint) := λ l : list string, match l with [x] => Some (f x) | _ => None end in
  [(false, [Lit "health"], plain EpHealth);
   (false, [Lit "node_identity"], plain EpNodeIdentity);
   (true, [Lit "v1"; Lit "pinboard"; Lit "messages:submit"], plain EpPinboardSubmit);
   (false, [Lit "v1"; Lit "pinboard"; Lit "posts"], plain EpPinboardPosts);
   (false, [Lit "v1"; Lit "pinboard"; Lit "post"], plain EpPinboardPost);
   (false, [Lit "v1"; Lit "namespaces"], plain EpNamespaces);
   (false, [Lit "v1"; Lit "namespace"; Param], param EpNamespace);
   (false, [Lit "admin"; Lit "v1"; Lit "status"], plain EpAdminStatus);
   (false, [Lit "transactions"], plain EpTransactions);
   (false, [Lit "transaction"], plain EpTransaction);
   (false, [Lit "events"], plain EpEvents);
   (false, [Lit "v1"; Lit "capacity"; Lit "verified-proof-rewards"; Lit "sum"], plain EpRewardsSum);
   (false, [Lit "v1"; Lit "capacity"; Lit "verified-proof-rewards"; Param], param EpRewards);
   (false, [Lit "epochs"], plain EpEpochs);
   (false, [Lit "epoch"; Lit "current"], plain EpEpochCurrent);
   (false, [Lit "epoch"; Lit "height"], plain EpEpochHeight);
   (false, [Lit "epoch"; Param], param EpEpoch);
   (false, [Lit "slotallocation"], plain EpSlotAllocation);
   (false, [Lit "cado"; Param], param EpCado)].

(** The parameters of a path that has the shape of a route. *)
Fixpoint match_segments {UE : UrlEncoding} (route : list RouteSegment) (path : list string) : option (list string) :=
  match route, path with
  | [], [] => Some []
  | Lit s :: route, x :: path => if String.eqb s x then match_segments route path else None
  | Param :: route, x :: path =>
      if String.eqb x EmptyString then None
      else p ← url_decode x; l ← match_segments route path; Some (p :: l)
  | _, _ => None
  end.

(** The endpoints of the routes a request matches. *)
Definition candidates {UE : UrlEncoding} (post : bool) (path : list string)
    (l : list (bool * list RouteSegment * (list string → option Endpoint))) : list Endpoint :=
  omap (λ r, if Bool.eqb r.1.1 post then match_segments r.1.2 path ≫= r.2 else None) l.

(** The router of axum: the route of a request, and its own reply to a request
    that reaches no handler (no route, another method, a body or a query that
    does not parse). *)
Class RouterCrate : Type := {
  find_route : bool → list string → list (bool * list RouteSegment * (list string → option Endpoint)) → option Endpoint;
  rejection : HttpRequest → HttpReply;
}.

(** A request takes the route that matches it when there is only one, and none
    when there is none; a rejection has a status of a client error. *)
Class RouterLaws {UE : UrlEncoding} (RC : RouterCrate) : Prop := {
  router_one post path l e : candidates post path l = [e] → find_route post path l = Some e;
  router_none post path l : candidates post path l = [] → find_route post path l = None;
  rejection_status r : ∃ status body, rejection r = HttpStatus status body ∧ 400 ≤ status < 500;
}.

Section rest.
Context {H : HexCrate} {HC : HashCrates} {B : Base64} {E : Ed25519} {SJ : SerdeJson} {J : TxJson}
  {S : SigningJson} {C : RecordCodecs} {BC : Bincode CadoBody} {RJ : RestJson} {UE : UrlEncoding} {RC : RouterCrate} {U : UrlCrate}.

(** The endpoint and the query of what follows the address of the node. *)
Definition route_request (post : bool) (target : string) : option Endpoint * option string :=
  match split_once "?"%char target with
  | Some (path, query) => (find_route post (split_on "/"%char path) routes, Some query)
  | None => (find_route post (split_on "/"%char target) routes, None)
  end.

(** ** The node *)

Record RestNode : Type := mkRestNode {
  rn_db : Database;
  rn_protocol : option ProtocolConstants;
  rn_capacity : CapacityManager;
  rn_wallet : eld_result (option Wallet);
  rn_chain_id : string;
  rn_rpc : string → RpcReply;
  rn_committed : AppState;
  rn_current : option AppState;
  rn_limits : RateLimitState;
}.

Definition rest_node_with_limits (rl : RateLimitState) (n : RestNode) : RestNode :=
  mkRestNode (rn_db n) (rn_protocol n) (rn_capacity n) (rn_wallet n) (rn_chain_id n) (rn_rpc n) (rn_committed n)
    (rn_current n) rl.

Definition rest_node_with_db (db : Database) (n : RestNode) : RestNode :=
  mkRestNode db (rn_protocol n) (rn_capacity n) (rn_wallet n) (rn_chain_id n) (rn_rpc n) (rn_committed n)
    (rn_current n) (rn_limits n).

(** [IntoResponse for ApiError] *)
Definition into_response (e : ApiError) : HttpReply :=
  HttpStatus (status_code e) (Some (api_error_json (mkApiErrorResponse (error_code e) (message e)))).

Definition json_reply {A} (to_json : A → string) (r : result ApiError A) : HttpReply :=
  match r with Ok a => HttpStatus 200 (Some (to_json a)) | Err e => into_response e end.

(** The answers of the endpoints this client does not ask for. *)
Variable other_endpoint : Endpoint → RestNode → HttpReply.

(** What the node does with a request to its address [base]: the reply, the
    node, and what it sent to its JSON-RPC server. *)
Definition serve (base : string) (headers : HeaderMap) (now unix_now : Z) (n : RestNode) (r : HttpRequest) :
    HttpReply * RestNode * list string :=
  match strip_prefix base (rq_url r) with
  | None => (HttpFailed, n, [])
  | Some target =>
      match route_request (rq_post r) target with
      | (None, _) => (rejection r, n, [])
      | (Some EpHealth, _) =>
          let '(a, rl) := health headers now (rn_limits n) in (json_reply id a, rest_node_with_limits rl n, [])
      | (Some EpPinboardSubmit, _) =>
          match rq_body r ≫= submit_request_of with
          | None => (rejection r, n, [])
          | Some body =>
              let '(a, db, sent, rl) :=
                handle_pinboard_submit headers now (rn_db n) (rn_protocol n) (rn_capacity n) (rn_wallet n)
                  (rn_chain_id n) (rn_rpc n) unix_now body (rn_limits n) in
              (json_reply submit_response_json a, rest_node_with_limits rl (rest_node_with_db db n), sent)
          end
      | (Some EpPinboardPost, query) =>
          match (q ← query; v ← strip_prefix "path=" q; url_decode v) with
          | None => (rejection r, n, [])
          | Some path =>
              let '(a, rl) := handle_get_pinboard_post_by_path (rn_db n) (rn_committed n) (rn_capacity n) headers
                                path now (rn_limits n) in
              (json_reply post_item_json a, rest_node_with_limits rl n, [])
          end
      | (Some (EpNamespace slug), _) =>
          let '(a, rl) := handle_get_namespace headers slug now (rn_current n)
                            (rn_committed n) (rn_limits n) in
          (match a with
           | Ok (inl item) => HttpStatus 200 (Some (registered_json (mkRegistered true item)))
           | Ok (inr slug) => HttpStatus 404 (Some (not_registered_json (mkNotRegistered false slug)))
           | Err e => into_response e
           end, rest_node_with_limits rl n, [])
      | (Some (EpCado path), _) =>
          let '(a, rl) := handle_get_cado (database_reads (rn_db n)) headers path now (rn_current n)
                            (rn_committed n) (rn_limits n) in
          (json_reply cado_option_json a, rest_node_with_limits rl n, [])
      | (Some e, _) => (other_endpoint e n, n, [])
      end
  end.

(** ** The client *)

(** [AppApi::new] *)
Definition AppApi_new (base_url : string) : string :=
  if ends_with_char "/" base_url then base_url else String.append base_url "/".

(** Rust's [trim_end_matches] with a character. *)
Fixpoint trim_end_matches (c : ascii) (s : string) : string :=
  match s with
  | EmptyString => EmptyString
  | String a s =>
      let t := trim_end_matches c s in
      if Ascii.eqb a c && String.eqb t EmptyString then EmptyString else String a t
  end.

(** The transport of the client. *)
Variable send : HttpRequest → HttpReply.

(** A body that was not read or not understood is the same error. *)
Definition parsed_body {A} (parse : string → option A) (body : option string) (field : string) : eld_result A :=
  ok_or (body ≫= parse) (ValidationError field).

(** Whatever the text of an unsuccessful reply says, the error differs in its
    details only. *)
Definition status_error {A} (read operation : string) (body : option string) : eld_result A :=
  match body with
  | None => Err (NetworkError read)
  | Some _ => Err (NetworkError operation)
  end.

Definition AppApi_get_cado (base_url cado_path : string) : eld_result (option CadoBody) :=
  match send (mkHttpRequest false (String.append base_url (String.append "cado/" (url_encode cado_path))) None) with
  | HttpFailed => Err (NetworkError "get_cado")
  | HttpStatus _ body => parsed_body cado_option_of body "cado"
  end.

Definition submit_pinboard_message (base_url : string) (request : PostMessageSubmitRequest) :
    eld_result PostMessageSubmitResponse :=
  match send (mkHttpRequest true (String.append base_url "v1/pinboard/messages:submit")
                (Some (submit_request_json request))) with
  | HttpFailed => Err (NetworkError "submit pinboard message")
  | HttpStatus status body =>
      if is_success status then parsed_body submit_response_of body "response"
      else status_error "read pinboard error response" "submit pinboard message" body
  end.

Definition AppApi_get_namespace (base_url namespace_slug : string) :
    eld_result (option NamespaceRegisteredResponse) :=
  match send (mkHttpRequest false (String.append base_url (String.append "v1/namespace/" (url_encode namespace_slug)))
                None) with
  | HttpFailed => Err (NetworkError "get namespace")
  | HttpStatus status body =>
      if is_success status then let? r := parsed_body registered_of body "response" in Ok (Some r)
      else if status =? 404 then let? _ := parsed_body not_registered_of body "response" in Ok None
      else status_error "read namespace error response" "get namespace" body
  end.

Definition health_check (base_url : string) : eld_result bool :=
  match send (mkHttpRequest false base_url None) with
  | HttpFailed => Ok false
  | HttpStatus status body =>
      if is_success status then
        match body with
        | None => Err (NetworkError "read health check response")
        | Some text => Ok (String.eqb (trim text) "OK")
        end
      else Ok false
  end.

(** [Wallet::sign_post_message_user_commitment] *)
Definition sign_post_message_user_commitment (wallet : Wallet) (message_bytes : bytes)
    (input : PostMessageUserRequestInput) : option PostMessageUserRequest :=
  build_signed_post_message_user_request (wallet_key wallet) message_bytes input.

(** [read_file] reads the file system. *)
Definition post_pinboard_message (client : ChainClient) (config : ClientConfig)
    (read_file : string → option bytes) (params : PinboardMessageParams) : eld_result PostMessageSubmitResponse :=
  let? wallet := require_wallet client (mp_wallet_name params) in
  let? message_bytes := ok_or (read_file (mp_file_path params)) (FileSystemError "read" (mp_file_path params)) in
  let? user_request :=
    ok_or (sign_post_message_user_commitment (nw_wallet wallet) message_bytes (mp_input params))
      (WalletError "sign_post_message" (mp_wallet_name params)) in
  let? base_url := get_app_base_url config in
  submit_pinboard_message (AppApi_new base_url)
    (mkSubmitRequest user_request (base64_encode message_bytes) None).

(** [facade::get_namespace]: the canonical slug and its registration. *)
Definition client_get_namespace (config : ClientConfig) (namespace_slug : string) :
    eld_result (string * option NamespaceRegisteredResponse) :=
  let? canonical := normalize_namespace_slug namespace_slug in
  let? base_url := get_app_base_url config in
  let? registered := AppApi_get_namespace (AppApi_new base_url) canonical in
  Ok (canonical, registered).

Definition client_get_content (config : ClientConfig) (content_id : string) : eld_result string :=
  let? base_url := get_app_base_url config in
  match send (mkHttpRequest false (String.append base_url (String.append "content/" content_id)) None) with
  | HttpFailed => Err (NetworkError "get content")
  | HttpStatus status body =>
      if is_success status then ok_or body (NetworkError "read content body")
      else Err (NetworkError "get content")
  end.

Definition pinboard_get_post (config : ClientConfig) (wallet message_id : string) : eld_result Value :=
  let path := pinboard_eld_post_cado_path wallet message_id in
  let? base_url := get_app_base_url config in
  match send (mkHttpRequest false (String.append (trim_end_matches "/" base_url)
                (String.append "/v1/pinboard/post?path=" (url_encode path))) None) with
  | HttpFailed => Err (NetworkError "pinboard get post")
  | HttpStatus status body =>
      if is_success status then parsed_body value_from_str body "pinboard_post"
      else Err (NetworkError "pinboard get post")
  end.

Definition request_faucet (config : ClientConfig) (address : string) : eld_result string :=
  let? _ := validate_address address in
  let? url := get_faucet_request_url config in
  match send (mkHttpRequest true url (Some (faucet_request_json address))) with
  | HttpFailed => Err (NetworkError "request faucet")
  | HttpStatus status body =>
      if status =? 200 then ok_or body (NetworkError "request faucet")
      else Err (NetworkError "request faucet")
  end.
End rest.

(** ** Routing *)

Section routing.
Context {UE : UrlEncoding} {UL : UrlEncodingLaws UE} {RC : RouterCrate} {RR : RouterLaws RC}.

Lemma url_encode_no (c : ascii) s : url_safe c = false → string_all (λ c', negb (Ascii.eqb c c')) (url_encode s) = true.
Proof.
  intros Hc. eapply string_all_impl; [|apply url_encode_safe]. intros a Ha.
  destruct (Ascii.eqb_spec c a) as [<-|]; [congruence|done].
Qed.

Lemma route_submit : route_request true "v1/pinboard/messages:submit" = (Some EpPinboardSubmit, None).
Proof.
  change (route_request true "v1/pinboard/messages:submit")
    with (find_route true ["v1"; "pinboard"; "messages:submit"] routes, @None string).
  by rewrite (router_one _ _ _ EpPinboardSubmit).
Qed.

Lemma url_encode_nonempty x : x ≠ EmptyString → String.eqb (url_encode x) EmptyString = false.
Proof. intros Hx. apply String.eqb_neq. by intros ?%url_encode_empty. Qed.

Lemma route_namespace x :
  x ≠ EmptyString →
  route_request false (String.append "v1/namespace/" (url_encode x)) = (Some (EpNamespace x), None).
Proof.
  intros Hx. unfold route_request. rewrite (split_once_none "?"%char).
  2: { rewrite string_all_app, url_encode_no by done. done. }
  change (String.append "v1/namespace/" (url_encode x))
    with (String.append "v1" (String "/" (String.append "namespace" (String "/" (url_encode x))))).
  rewrite !split_on_app, (split_on_none "/"%char) by (done || by apply url_encode_no).
  rewrite (router_one _ _ _ (EpNamespace x)); [done|]. cbn -[url_decode url_encode].
  by rewrite url_encode_nonempty, url_roundtrip.
Qed.

Lemma route_cado x :
  x ≠ EmptyString → route_request false (String.append "cado/" (url_encode x)) = (Some (EpCado x), None).
Proof.
  intros Hx. unfold route_request. rewrite (split_once_none "?"%char).
  2: { rewrite string_all_app, url_encode_no by done. done. }
  change (String.append "cado/" (url_encode x)) with (String.append "cado" (String "/" (url_encode x))).
  rewrite split_on_app, (split_on_none "/"%char) by (done || by apply url_encode_no).
  rewrite (router_one _ _ _ (EpCado x)); [done|]. cbn -[url_decode url_encode].
  by rewrite url_encode_nonempty, url_roundtrip.
Qed.

Lemma route_post x :
  route_request false (String.append "v1/pinboard/post?path=" (url_encode x)) =
    (Some EpPinboardPost, Some (String.append "path=" (url_encode x))).
Proof.
  unfold route_request.
  change (String.append "v1/pinboard/post?path=" (url_encode x))
    with (String.append "v1/pinboard/post" (String "?" (String.append "path=" (url_encode x)))).
  rewrite split_once_app by done. by rewrite (router_one _ _ _ EpPinboardPost).
Qed.

(** The address of the node itself and the paths below [content/] lead nowhere. *)
Lemma route_root post : route_request post EmptyString = (None, None).
Proof.
  change (route_request post EmptyString) with (find_route post [EmptyString] routes, @None string).
  rewrite router_none; [done|]. by destruct post.
Qed.

Lemma route_content post x :
  no_slash x = true → string_all (λ c, negb (Ascii.eqb "?"%char c)) x = true →
  route_request post (String.append "content/" x) = (None, None).
Proof.
  intros Hs Hq. unfold route_request. rewrite (split_once_none "?"%char).
  2: { rewrite string_all_app, Hq. done. }
  change (String.append "content/" x) with (String.append "content" (String "/" x)).
  rewrite split_on_app, (split_on_none "/"%char) by done.
  rewrite router_none; [done|]. by destruct post.
Qed.
End routing.

(** ** What the node does with a good request *)

Section accepted.
Context {H : HexCrate} {HL : HexLaws H} {HC : HashCrates} {B : Base64} {BL : Base64Laws B} {E : Ed25519}
  {EL : Ed25519Laws E} {SJ : SerdeJson} {J : TxJson} {S : SigningJson} {C : RecordCodecs} {BC : Bincode CadoBody}.

Lemma check_body_complete db p m r signer tags signed :
  request_authentic m r signer tags signed → m ≠ [] → Z.of_nat (length m) ≤ max_pinboard_message_bytes p →
  is_Some (ok (validate_namespace_upload_authorization (ur_namespace r) signer
    (lookup_namespace_record_from_storage (database_reads db)))) →
  check_body db p (mkSubmitRequest r (base64_encode m) None) = Ok (m, signer).
Proof.
  intros Ha Hm Hl [x Hx]. unfold check_body. cbn [sr_message_b64 sr_user]. rewrite base64_roundtrip.
  destruct m as [|b m]; [done|]. rewrite (proj2 (Z.ltb_ge _ _)) by done.
  rewrite (validate_complete _ _ _ _ _ Ha), (ra_signer _ _ _ _ _ Ha).
  by destruct (validate_namespace_upload_authorization _ _ _).
Qed.

(** Keeping the bytes of a message touches no account. *)
Lemma store_temp_blob_complete cm key m exp db :
  is_ok (get_content_from_slots key cm) = true →
  ∃ db', store_temp_blob cm key m exp db = (Ok tt, db') ∧
    ∀ a, validator_account db' a = validator_account db a.
Proof.
  intros Hr. unfold store_temp_blob, load_pinboard_blob_from_capacity_slots.
  destruct (get_content_from_slots key cm) as [[c|]|]; [by eauto| |done].
  unfold extend_pinboard_temp_blob_ttl. destruct (pinboard_temp_blobs_cf db !! key) as [old|]; [|by eexists].
  destruct (_ =? _); by eexists.
Qed.

(** The validator can pay for the post it builds. *)
Definition can_pay (p : ProtocolConstants) (w : Wallet) (account : Account) (n : Nonce) (t : PostMessageTx) : Prop :=
  ∃ fee, fee_with_buffer p w n t = Ok fee ∧ coin_amount fee ≤ coin_amount (acc_balance account).

Lemma build_post_complete db p w chain now m r signer tags signed account n :
  request_authentic m r signer tags signed → (∀ tx, is_Some (signing_bytes tx chain)) →
  validator_account db (wallet_address w) = Ok account → Nonce_next (acc_nonce account) = Some n →
  (∀ t, post_message_of (wallet_address w) signer r now = Ok t → can_pay p w account n t) →
  ∃ tx, build_post db p w chain now m signer r = Ok tx.
Proof.
  intros Ha Hj Hacc Hn Hpay. unfold build_post. rewrite Hacc, Hn.
  destruct (post_message_of_total _ _ _ _ _ (wallet_address w) now Ha) as [t Ht]. rewrite Ht.
  destruct (Hpay t Ht) as (fee & -> & Hfee). unfold Coin_ltb. rewrite (proj2 (Z.ltb_ge _ _)) by done.
  unfold sign_post_message_chain_tx.
  destruct (build_post_tx_total m r (wallet_key w) (nonce_value n) now chain (coin_amount fee) signer tags signed Ha Hj)
    as [tx ->]. by eexists.
Qed.

(** A JSON-RPC server that takes every transaction. *)
Definition rpc_accepts (rpc : string → RpcReply) : Prop := ∀ x, ∃ text, rpc x = Body text ∧ rpc_answer text = Ok tt.

Lemma pinboard_submit_complete db p cm w chain rpc now m r signer tags signed account n :
  request_authentic m r signer tags signed → m ≠ [] → Z.of_nat (length m) ≤ max_pinboard_message_bytes p →
  is_Some (ok (validate_namespace_upload_authorization (ur_namespace r) signer
    (lookup_namespace_record_from_storage (database_reads db)))) →
  is_ok (get_content_from_slots (ur_content_key r) cm) = true →
  from_public_key (verifying_key_of (wallet_key w)) = Ok (wallet_address w) →
  validator_account db (wallet_address w) = Ok account → Nonce_next (acc_nonce account) = Some n →
  (∀ t, post_message_of (wallet_address w) signer r now = Ok t → can_pay p w account n t) →
  (∀ tx, is_Some (signing_bytes tx chain)) → (∀ tx, is_Some (tx_to_json tx)) → rpc_accepts rpc →
  ∃ a db' tx t json,
    pinboard_submit db (Some p) cm (Ok (Some w)) chain rpc now (mkSubmitRequest r (base64_encode m) None) =
      (Ok a, db', [base64_encode (as_bytes (hex_encode (as_bytes json)))]) ∧
    tx_to_json tx = Some json ∧ post_transaction w chain now m r account tx t ∧
    sa_status a = "submitted" ∧ sa_message_id a = ur_message_id r ∧ sa_content_key a = hex_encode (sha256 m) ∧
    sa_origin_validator a = hex_with_prefix (wallet_address w) ∧ sa_received_timestamp a = now.
Proof.
  intros Ha Hm Hl Hns Hs Hw Hacc Hn Hpay Hj Hjson Hrpc. unfold pinboard_submit.
  rewrite (check_body_complete db p m r signer tags signed) by done. cbn [sr_user].
  destruct (store_temp_blob_complete cm (ur_content_key r) m (saturating_add u64_max now PINBOARD_TEMP_BLOB_TTL_SECS) db Hs)
    as (db' & -> & Hv).
  destruct (build_post_complete db' p w chain now m r signer tags signed account n) as [tx Htx]; try done.
  { by rewrite Hv. }
  rewrite Htx. destruct (Hjson tx) as [json Ej]. rewrite Ej. unfold submit_transaction_to_tendermint. rewrite Ej.
  destruct (Hrpc (base64_encode (as_bytes (hex_encode (as_bytes json))))) as (text & -> & ->).
  destruct (built_post_transaction db' p w chain now m signer r tx Hw ltac:(by eauto) Htx) as (account' & t & Hacc' & Hpt).
  rewrite Hv, Hacc in Hacc'. injection Hacc' as <-.
  unfold submit_response. rewrite (pt_namespace _ _ _ _ _ _ _ _ Hpt).
  eexists _, db', tx, t, json. split; [reflexivity|]. split; [done|]. split; [done|].
  split; [reflexivity|]. split; [reflexivity|]. split; [exact (ra_content_key _ _ _ _ _ Ha)|].
  split; reflexivity.
Qed.
End accepted.

(** ** Client and node *)

Section client_and_node.
Context {H : HexCrate} {HL : HexLaws H} {HC : HashCrates} {B : Base64} {BL : Base64Laws B} {E : Ed25519}
  {EL : Ed25519Laws E} {SJ : SerdeJson} {J : TxJson} {S : SigningJson} {C : RecordCodecs} {BC : Bincode CadoBody}
  {RJ : RestJson} {RL : RestJsonLaws RJ} {UE : UrlEncoding} {UL : UrlEncodingLaws UE}
  {RC : RouterCrate} {RR : RouterLaws RC} {U : UrlCrate}.
Context (other : Endpoint → RestNode → HttpReply) (base : string) (headers : HeaderMap) (now unix_now : Z) (n : RestNode).

Lemma append_empty s : String.append s EmptyString = s.
Proof. induction s as [|c s IH]; [done|]. exact (f_equal (String c) IH). Qed.

(** An address that ends in exactly one slash is trimmed by it. *)
Lemma trim_end_one c s :
  trim_end_matches c s = s → trim_end_matches c (String.append s (String c EmptyString)) = s.
Proof.
  induction s as [|a s IH].
  { intros _. change (String.append EmptyString ?x) with x. cbn [trim_end_matches]. by rewrite Ascii.eqb_refl. }
  change (String.append (String a s) ?x) with (String a (String.append s x)). cbn [trim_end_matches].
  destruct (Ascii.eqb a c && String.eqb (trim_end_matches c s) EmptyString) eqn:Ea; [done|]. intros [= Hs].
  rewrite (IH Hs). rewrite Hs in Ea. by rewrite Ea.
Qed.

(** The transport that reaches this node. *)
Definition to_node (r : HttpRequest) : HttpReply := (serve other base headers now unix_now n r).1.1.

Lemma serve_nowhere target :
  route_request false target = (None, None) →
  ∃ status body, to_node (mkHttpRequest false (String.append base target) None) = HttpStatus status body ∧
    is_success status = false.
Proof.
  intros Hr. unfold to_node, serve. cbn [rq_url rq_post rq_body]. rewrite strip_prefix_append, Hr. cbn [fst].
  destruct (rejection_status (mkHttpRequest false (String.append base target) None)) as (status & body & -> & Hs).
  exists status, body. split; [done|]. unfold is_success. rewrite (proj2 (Z.ltb_ge status 300)) by lia. apply andb_false_r.
Qed.

(** [AppApi::new] keeps an address that ends in a slash. *)
Lemma AppApi_new_id b : ends_with_char "/" b = true → AppApi_new b = b.
Proof. unfold AppApi_new. by intros ->. Qed.

(** C14. What it takes for a message posted through the client to be
    submitted.  The client has the user's wallet, reads the message file and
    signs a request for it; the node's upload limit for the caller is open, the
    message is not empty and within the protocol's limit, the user may write to
    the namespace named, the node's slots can be read, its validator's wallet
    owns an account with a next nonce and funds for the fee, transactions can
    be encoded, and the RPC takes what it is sent.  Then the client gets the
    answer "submitted" with the id of the user's commitment, the digest of the
    message, the node's validator and its time of receipt; and the node has sent
    exactly one transaction, which verifies as the validator's and carries the
    user's request. *)
Theorem client_post_submitted (client : ChainClient) (config : ClientConfig) (read_file : string → option bytes)
    (params : PinboardMessageParams) (user : NamedWallet) (m : bytes) (r : PostMessageUserRequest)
    (p : ProtocolConstants) (w : Wallet) (account : Account) (nonce : Nonce) (rl : RateLimitState) :
  get_app_base_url config = Ok base → ends_with_char "/" base = true →
  require_wallet client (mp_wallet_name params) = Ok user → read_file (mp_file_path params) = Some m →
  build_signed_post_message_user_request (wallet_key (nw_wallet user)) m (mp_input params) = Some r →
  check_rate_limit Upload headers now (rn_limits n) = (Ok tt, rl) →
  rn_protocol n = Some p → rn_wallet n = Ok (Some w) →
  from_public_key (verifying_key_of (wallet_key w)) = Ok (wallet_address w) →
  m ≠ [] → Z.of_nat (length m) ≤ max_pinboard_message_bytes p →
  (∀ signer, from_public_key (verifying_key_of (wallet_key (nw_wallet user))) = Ok signer →
     is_Some (ok (validate_namespace_upload_authorization (ur_namespace r) signer
       (lookup_namespace_record_from_storage (database_reads (rn_db n)))))) →
  is_ok (get_content_from_slots (ur_content_key r) (rn_capacity n)) = true →
  validator_account (rn_db n) (wallet_address w) = Ok account → Nonce_next (acc_nonce account) = Some nonce →
  (∀ signer t, post_message_of (wallet_address w) signer r unix_now = Ok t → can_pay p w account nonce t) →
  (∀ tx, is_Some (signing_bytes tx (rn_chain_id n))) → (∀ tx, is_Some (tx_to_json tx)) → rpc_accepts (rn_rpc n) →
  let request := mkHttpRequest true (String.append base "v1/pinboard/messages:submit")
    (Some (submit_request_json (mkSubmitRequest r (base64_encode m) None))) in
  ∃ a tx t json signer,
    post_pinboard_message to_node client config read_file params = Ok a ∧
    (serve other base headers now unix_now n request).2 = [base64_encode (as_bytes (hex_encode (as_bytes json)))] ∧
    tx_to_json tx = Some json ∧ post_transaction w (rn_chain_id n) unix_now m r account tx t ∧
    from_public_key (verifying_key_of (wallet_key (nw_wallet user))) = Ok signer ∧ post_original_signer t = signer ∧
    sa_status a = "submitted" ∧ sa_message_id a = ur_message_id r ∧ sa_content_key a = hex_encode (sha256 m) ∧
    sa_origin_validator a = hex_with_prefix (wallet_address w) ∧ sa_received_timestamp a = unix_now.
Proof.
  intros Hbase Hend Huser Hfile Hsign Hrl Hp Hwl Hw Hm Hl Hns Hs Hacc Hn Hpay Hj Hjson Hrpc request.
  destruct (built_request_authentic _ _ _ _ Hsign) as (signer & tags & signed & Ha & Hsg & _).
  destruct (pinboard_submit_complete (rn_db n) p (rn_capacity n) w (rn_chain_id n) (rn_rpc n) unix_now m r signer tags
    signed account nonce) as (a & db' & tx & t & json & Hsub & Ej & Hpt & Hst & Hid & Hck & Hov & Hrt); try done.
  { by apply Hns. }
  { by apply Hpay. }
  assert (serve other base headers now unix_now n request =
    (HttpStatus 200 (Some (submit_response_json a)), rest_node_with_limits rl (rest_node_with_db db' n),
     [base64_encode (as_bytes (hex_encode (as_bytes json)))])) as Hserve.
  { unfold request. unfold serve. cbn [rq_url rq_post rq_body].
    rewrite strip_prefix_append, route_submit. cbn [mbind option_bind]. rewrite submit_request_roundtrip.
    unfold handle_pinboard_submit. by rewrite Hrl, Hp, Hwl, Hsub. }
  exists a, tx, t, json, signer. split; [|rewrite Hserve; split_and!; try done].
  - unfold post_pinboard_message. rewrite Huser, Hfile. cbn [ok_or]. unfold sign_post_message_user_commitment.
    rewrite Hsign, Hbase, AppApi_new_id by done. cbn [ok_or]. unfold submit_pinboard_message, to_node.
    fold request. rewrite Hserve. cbn [fst]. change (is_success 200) with true. unfold parsed_body. cbn [mbind option_bind].
    by rewrite submit_response_roundtrip.
  - destruct (pt_request _ _ _ _ _ _ _ _ Hpt) as (tags' & signed' & Ha' & _).
    pose proof (ra_signer _ _ _ _ _ Ha) as E1. rewrite (ra_signer _ _ _ _ _ Ha') in E1. by injection E1.
Qed.

(** A lookup of a namespace answers what the node's registry says, for any
    spelling of the slug that is understood. *)
Theorem client_namespace_exact (config : ClientConfig) (input slug : string) (rl : RateLimitState)
    (found : option NamespaceRecord) :
  get_app_base_url config = Ok base → ends_with_char "/" base = true →
  normalize_namespace_slug input = Ok slug → check_rate_limit General headers now (rn_limits n) = (Ok tt, rl) →
  lookup_namespace_record (rn_current n) (rn_committed n) slug = Ok found →
  (∀ r, found = Some r → is_ok (from_record r) = true) →
  client_get_namespace to_node config input =
    Ok (slug, (λ r, mkRegistered true (namespace_item r)) <$> found).
Proof.
  intros Hbase Hend Hslug Hrl Hf Hitem. unfold client_get_namespace. rewrite Hslug, Hbase, AppApi_new_id by done.
  destruct (normalize_Ok _ _ Hslug) as [_ Hv]. pose proof (normalize_canonical _ Hv) as Hcanon.
  assert (slug ≠ EmptyString) as Hne by (intros ->; discriminate Hv).
  unfold AppApi_get_namespace, to_node.
  unfold serve. cbn [rq_url rq_post rq_body]. rewrite strip_prefix_append, route_namespace by done.
  unfold handle_get_namespace, read_limited. rewrite Hrl, Hcanon, Hf. destruct found as [r|].
  - specialize (Hitem r eq_refl).
    assert (from_record r = Ok (namespace_item r)) as ->.
    { unfold from_record, namespace_item in *. by destruct (slug_to_namespace_cadopath (ns_slug r)). }
    cbn [fst]. change (is_success 200) with true. unfold parsed_body. cbn [mbind option_bind]. by rewrite registered_roundtrip.
  - cbn [fst]. change (is_success 404) with false. unfold parsed_body. cbn [mbind option_bind Z.eqb Pos.eqb].
    by rewrite not_registered_roundtrip.
Qed.

(** The object at a path is read as the handler of the node finds it. *)
Theorem client_cado_exact (path : string) (found : option CadoBody) (rl : RateLimitState) :
  path ≠ EmptyString →
  handle_get_cado (database_reads (rn_db n)) headers path now (rn_current n) (rn_committed n) (rn_limits n) =
    (Ok found, rl) →
  AppApi_get_cado to_node base path = Ok found.
Proof.
  intros Hne Hh. unfold AppApi_get_cado, to_node.
  unfold serve. cbn [rq_url rq_post rq_body]. rewrite strip_prefix_append, route_cado, Hh by done.
  cbn [fst json_reply]. unfold parsed_body. cbn [mbind option_bind]. by rewrite cado_option_roundtrip.
Qed.

(** A post asked for by its author and id is the item the node serves at the
    path published for it. *)
Theorem client_post_exact (config : ClientConfig) (host wallet message_id : string) (item : PinboardRestPostItem)
    (rl : RateLimitState) :
  base = String.append host "/" → trim_end_matches "/" host = host → get_app_base_url config = Ok base →
  handle_get_pinboard_post_by_path (rn_db n) (rn_committed n) (rn_capacity n) headers
    (pinboard_eld_post_cado_path wallet message_id) now (rn_limits n) = (Ok item, rl) →
  pinboard_get_post to_node config wallet message_id =
    ok_or (value_from_str (post_item_json item)) (ValidationError "pinboard_post").
Proof.
  intros Hhost Htrim Hbase Hh. unfold pinboard_get_post. rewrite Hbase. rewrite Hhost at 1. rewrite trim_end_one by done.
  set (path := pinboard_eld_post_cado_path wallet message_id) in *.
  replace (String.append host (String.append "/v1/pinboard/post?path=" (url_encode path)))
    with (String.append base (String.append "v1/pinboard/post?path=" (url_encode path))).
  2: { rewrite Hhost. clear. induction host as [|c s IH]; [done|]. exact (f_equal (String c) IH). }
  unfold to_node, serve. cbn [rq_url rq_post rq_body]. rewrite strip_prefix_append, route_post. cbn [mbind option_bind].
  rewrite strip_prefix_append. cbn [mbind option_bind]. rewrite url_roundtrip, Hh. done.
Qed.

(** Two calls of the client ask for paths the node does not have: the health
    check is never positive, and content is never got by its key. *)
Theorem missing_routes (config : ClientConfig) (m : bytes) :
  get_app_base_url config = Ok base →
  health_check to_node base = Ok false ∧
  client_get_content to_node config (hex_encode (sha256 m)) = Err (NetworkError "get content").
Proof.
  intros Hbase. split.
  - destruct (serve_nowhere EmptyString (route_root false)) as (status & body & Hn & Hs). rewrite append_empty in Hn.
    unfold health_check. by rewrite Hn, Hs.
  - pose proof (hex_encode_hexdigits (sha256 m)) as Hd.
    destruct (serve_nowhere (String.append "content/" (hex_encode (sha256 m)))) as (status & body & Hn & Hs).
    { apply route_content; [by apply hexdigits_no_slash|]. eapply string_all_impl; [|exact Hd]. intros c Hc.
      destruct (Ascii.eqb_spec "?"%char c) as [<-|]; [discriminate Hc|done]. }
    unfold client_get_content. by rewrite Hbase, Hn, Hs.
Qed.
End client_and_node.

(** ** Reference instances and witnesses *)

#[export] Instance PostMessageUserRequest_eq_dec : EqDecision PostMessageUserRequest.
Proof. solve_decision. Defined.
#[export, program] Instance PostMessageUserRequest_countable : Countable PostMessageUserRequest :=
  inj_countable' (λ r, (ur_original_signer r, ur_original_signer_pubkey r, ur_content_key r, ur_message_id r,
      ur_expires_height r, ur_visibility r, (ur_topic r, ur_tags r, ur_content_type r, ur_fee_amount r,
      ur_user_signature r, ur_namespace r)))
    (λ '(a, b, c, d, e, f, (g, h, i, j, k, l)), mkUserRequest a b c d e f g h i j k l) _.
Next Obligation. by intros []. Qed.
#[export] Instance PostMessageSubmitRequest_eq_dec : EqDecision PostMessageSubmitRequest.
Proof. solve_decision. Defined.
#[export, program] Instance PostMessageSubmitRequest_countable : Countable PostMessageSubmitRequest :=
  inj_countable' (λ r, (sr_user r, sr_message_b64 r, sr_idempotency_key r)) (λ '(a, b, c), mkSubmitRequest a b c) _.
Next Obligation. by intros []. Qed.
#[export] Instance PostMessageSubmitResponse_eq_dec : EqDecision PostMessageSubmitResponse.
Proof. solve_decision. Defined.
#[export, program] Instance PostMessageSubmitResponse_countable : Countable PostMessageSubmitResponse :=
  inj_countable' (λ r, (sa_status r, sa_message_id r, sa_content_key r, sa_tx_hash r, sa_origin_validator r,
      sa_received_timestamp r, sa_content_path r))
    (λ '(a, b, c, d, e, f, g), mkSubmitResponse a b c d e f g) _.
Next Obligation. by intros []. Qed.
#[export] Instance NamespaceItem_eq_dec : EqDecision NamespaceItem.
Proof. solve_decision. Defined.
#[export, program] Instance NamespaceItem_countable : Countable NamespaceItem :=
  inj_countable' (λ i, (ni_namespace_slug i, ni_scope i, ni_owner i, ni_registered_height i, ni_registry_path i))
    (λ '(a, b, c, d, e), mkNamespaceItem a b c d e) _.
Next Obligation. by intros []. Qed.

#[export] Instance ref_rest_json : RestJson := {|
  submit_request_json := coded "a";
  submit_request_of := uncoded "a";
  submit_response_json := coded "b";
  submit_response_of := uncoded "b";
  registered_json r := coded "c" (rg_registered r, rg_item r);
  registered_of s := (λ '(a, b), mkRegistered a b) <$> uncoded "c" s;
  not_registered_json r := coded "d" (nn_registered r, nn_namespace_slug r);
  not_registered_of s := (λ '(a, b), mkNotRegistered a b) <$> uncoded "d" s;
  cado_option_json := coded "e";
  cado_option_of := uncoded "e";
  post_item_json i := pi_cado_path i;
  api_error_json e := ae_message e;
  faucet_request_json a := a;
|}.

#[export] Instance ref_rest_json_laws : RestJsonLaws ref_rest_json.
Proof.
  constructor; intros x; cbn [submit_request_of submit_response_of registered_of not_registered_of cado_option_of
    submit_request_json submit_response_json registered_json not_registered_json cado_option_json ref_rest_json];
    rewrite uncoded_coded; by destruct x.
Qed.

(** An escaping into a letter and digits. *)
#[export] Instance ref_url_encoding : UrlEncoding := {| url_encode := coded "x"; url_decode := uncoded "x" |}.

Lemma pos_to_text_safe p : string_all url_safe (pos_to_text p) = true.
Proof. induction p as [p IH|p IH|]; [exact IH|exact IH|reflexivity]. Qed.

#[export] Instance ref_url_encoding_laws : UrlEncodingLaws ref_url_encoding.
Proof. constructor; intros s; [apply uncoded_coded|apply pos_to_text_safe|done]. Qed.

(** A router that takes the first route that matches. *)
#[export] Instance ref_router : RouterCrate := {|
  find_route post path l := head (candidates post path l);
  rejection _ := HttpStatus 404 (Some EmptyString);
|}.

#[export] Instance ref_router_laws : RouterLaws ref_router.
Proof.
  constructor.
  - intros post path l e Hc. cbn [find_route ref_router]. by rewrite Hc.
  - intros post path l Hc. cbn [find_route ref_router]. by rewrite Hc.
  - intros r. by do 2 eexists.
Qed.

Definition test_url : UrlCrate := {|
  url := string; url_parse := Some; url_scheme _ := "http"; url_host := Some; url_path u := u; url_query _ := None;
  url_fragment _ := None; url_username u := u; url_password _ := None; url_set_path _ u := u; url_to_string u := u;
|}.

Definition test_client_config : ClientConfig :=
  mkClientConfig "127.0.0.1" "26657" "127.0.0.1" "8000" "/faucet" None "9001" None None "eld".

Definition test_rest_node : RestNode :=
  mkRestNode test_post_db (Some local_dev) test_capacity (Ok (Some test_validator)) "eld" (λ _, Body "")
    (mkAppState None envelope_default "eld") None open_limits.

Definition test_params : PinboardMessageParams := mkMessageParams "main" "hello.txt" test_post_input.

Lemma client_post_submitted_witness :
  ∃ a json,
    post_pinboard_message (U := test_url) (to_node (SJ := test_rpc_json) (BC := body_bincode test_validator_body)
      (λ _ _, HttpFailed) "http://127.0.0.1:9001/" ∅ 0 1700000000 test_rest_node) test_chain_client test_client_config
      (λ _, Some test_text) test_params = Ok a ∧
    tx_to_json test_tx = Some json ∧ sa_status a = "submitted" ∧ sa_content_key a = hex_encode (sha256 test_text).
Proof.
  destruct (client_post_submitted (U := test_url) (SJ := test_rpc_json) (BC := body_bincode test_validator_body)
    (λ _ _, HttpFailed) "http://127.0.0.1:9001/" ∅ 0 1700000000 test_rest_node test_chain_client test_client_config
    (λ _, Some test_text) test_params test_main_wallet test_text test_user local_dev test_validator
    (mkAccount test_sender (mkCoin 1000000) (mkNonce 3)) (mkNonce 4) open_limits)
    as (a & tx & t & json & signer & Ha & _ & Hj & _ & _ & _ & Hst & _ & Hk & _).
  - vm_compute. reflexivity.
  - reflexivity.
  - vm_compute. reflexivity.
  - reflexivity.
  - vm_compute. reflexivity.
  - reflexivity.
  - reflexivity.
  - reflexivity.
  - exact test_validator_key.
  - discriminate.
  - vm_compute. discriminate.
  - intros signer _. vm_compute. by eexists.
  - vm_compute. reflexivity.
  - vm_compute. reflexivity.
  - reflexivity.
  - intros signer t _. eexists. split; [vm_compute; reflexivity|vm_compute; discriminate].
  - intros tx. by eexists.
  - intros tx. by eexists.
  - intros x. by exists "".
  - exists a, json. split; [exact Ha|]. split; [exact Hj|]. split; [exact Hst|exact Hk].
Defined.
